(* ===== verification/_CoqProject ===== *)
-Q . S2P
Prelude.v
PyStr.v
PyTime.v
Regex.v
Effects.v
ApplyPatch.v
Guards.v
Retry.v
Budget.v
BugIds.v
PyJson.v
PyJsonLoads.v
PyJsonIndent.v
Files.v
Webhook.v
WebhookSpec.v
Orchestrator.v
Daemons.v
Spawners.v
Sha256.v
StepCheckpoint.v
MiniResume.v
MiniLedger.v
MiniResumeSpec.v
Git.v
GitRepo.v
GitLab.v
LocalProviders.v
ProviderSpec.v
LocalSpec.v
GwConfig.v
GwKeying.v
Tokens.v
TokensSpec.v
GwApp.v
CacheTransfer.v
Trace.v
ToolCalls.v
Prompt.v
RunRecord.v
Journal.v
JournalSpec.v
BigQuery.v
Inspection.v
Preflight.v
World.v
Memory.v
MemorySpec.v
ReactLoop.v
MiniSwe.v
MiniSweSpec.v
Metrics.v
Scrape.v
Sweep.v
SweepSpec.v
Coordinator.v
CoordinatorSpec.v
Bench.v
BenchSpec.v
Mcp.v
AgentConfig.v
Worker.v
WorkerSpec.v
Standalone.v
SweBench.v
Nodes.v
ApplyTest.v
Graph.v
Reflection.v
Enhancements.v
Agent.v
GraphLaws.v
GraphFrames.v
ReactSpec.v
GraphFacts.v
GraphSample.v
GraphSpec.v
AgentSpec.v
EnhancementSpec.v
ApplySpec.v
