(* ===== verification/Prelude.v ===== *)
(** * DevHarness

    DevHarness is a bug-fixing service.  A webhook of a failed CI pipeline enters
    the [gateway], which authenticates it and puts it on a stream; the
    [orchestrator] reads the stream, mints a bug identity and starts a worker, by
    itself or through daemons on other machines; a worker ([bf_worker]) runs an
    agent, either a graph of nodes around a tool-using chat loop or a third-party
    agent in a container, which edits the repository, tests the edit, commits it,
    waits for the pipeline and opens a merge request; every call of a chat model
    may pass through the [llm_gateway], which picks a backend, forwards, and caches.

    ** Files

    The files are layered; each opens with a comment of its own.  The theorems of a
    file [X] are at its end, in a Module [XSpec] or in a file of that name.

    - The language: [Prelude] (exceptions, Python values, dictionaries), [PyStr]
      (str), [Regex] (re: parser, backtracking matcher with fuel, sub and findall),
      [PyJson] and [PyJsonLoads] (json.dumps and json.loads and their round trip),
      [PyJsonIndent] (json.dumps with indentation, with the reader's round trip),
      [PyTime] (stamps and the calendar), [Files] (a tree of files behind an operating
      system that may refuse any operation), [Sha256] (hashlib.sha256), [Effects] (a state, exception and trace monad over
      an environment that answers calls).
    - Services of the worker (src/bf_worker/services): [ApplyPatch] (apply_patch.py),
      [Guards] (patch_guard.py, fetch_guard.py, prompt_guard.py), [Retry]
      (transient_retry.py), [Budget] (budget.py, pricing.py, the token counts of
      llm_client.py, and llm_gateway/cost.py), [Trace] (parse_trace.py),
      [StepCheckpoint] (step_checkpoint.py), [Preflight] (llm_model_check.py and
      gitlab_token_check.py), [Tokens] (azure_auth.py of the worker and of the LLM
      gateway, with threads interleaved; theorems in [TokensSpec]).
    - The graph agent (src/bf_worker/graph, src/bf_worker/agents): [World] (what the
      nodes call, with the budget in the state), [Prompt] and [ToolCalls] (messages
      and tool calls of react_loop.py), [ReactLoop] (the loop of react_loop.py with
      react_tools.py), [Nodes] (the small nodes), [ApplyTest]
      (apply_change_and_test.py and code_review.py), [Graph] (routing.py, builder.py,
      state.py), [Agent] (langgraph_agent.py, the hooks, the outcome of a run).
    - Proofs about the graph agent: [GraphLaws] and [GraphFrames] (what each node
      may call and write), [ReactSpec] (the account of the loop), [GraphFacts] (what
      each node leaves in the state), [GraphSample] (a concrete world and runs),
      [GraphSpec], [AgentSpec], [ApplySpec] (the theorems).
    - Enhancements, records and journal (src/bf_worker/enhancements,
      agents/run_record.py, journal.py): [Memory], [Reflection] and [Enhancements]
      with [MemorySpec] and [EnhancementSpec]; [RunRecord] (what is kept of a run),
      [Journal] (the entry written for it, and the retention of
      src/evaluation/journal_prune.py) with [JournalSpec]; [BigQuery] and [Scrape]
      (runrecord_to_bigquery.py and runrecord_to_metrics.py of src/tools).
    - The third-party agent's driver (src/bf_worker/agents/mini_swe_agent.py,
      mini_phases.py): [MiniSwe], [MiniSweSpec].
    - Inspection (src/inspection): [Inspection].
    - Evaluation (src/evaluation): [Metrics] (metrics.py), [Sweep] (fixture.py and
      runner.py), [Coordinator] (coordinator.py), [Bench] (cli.py and promote.py),
      with [SweepSpec], [CoordinatorSpec] and [BenchSpec]; [SweBench]
      (swebench_batch.py with the grading of swebench_single.py); [Mcp]
      (src/mcp_server/server.py, which shows fixtures, journal and runs).
    - The entry points of a worker (src/bf_worker): [AgentConfig] (agent_config.py),
      [Worker] (bf_worker.py), [WorkerSpec], [Standalone] (standalone.py).
    - The resumable agent (src/bf_worker/agents/mini_resume.py, mini_resume_env.py and
      vendor/mini): [MiniResume] (the loop, its records, the container and its
      ledger of commands), [MiniLedger] (the run it is compared with, the ledger),
      [MiniResumeSpec] (the refinement proof).
    - The orchestrator (src/orchestrator, src/bf_worker/worker_daemon.py): [BugIds]
      (parser.py, models.py, branch and Kubernetes names), [Orchestrator] (registry,
      monitor, router, consumer, handler, local spawner), [Daemons] (dispatcher.py,
      daemon_monitor.py, worker_daemon.py), [Spawners] (the container spawners of
      spawner.py, with the promises the monitor relies on).
    - The providers (src/bf_worker/providers): [Git] (what is relied on of git and of
      the forge: an interface, its laws, and a small git that keeps them), [GitRepo]
      and [GitLab] (gitlab_provider.py), [LocalProviders] (local_provider.py),
      [ProviderSpec] and [LocalSpec] (the theorems).
    - The webhook gateway (src/gateway): [Webhook], [WebhookSpec].
    - The LLM gateway (src/llm_gateway): [GwConfig] (config.py, policy.py, params.py),
      [GwKeying] (keying.py), [GwApp] (app.py, cache.py); [CacheTransfer]
      (src/tools/llm_cache_transfer.py).

    ** What is shown

    - The graph agent: a run reported as fixed has been committed, tested and, when a
      pipeline is waited for, cleared by it; only green patches are committed; the
      graph ends within a number of nodes that the retry bounds give; the model is
      asked at most as often as the budget allows; an edit stays within the guard.
      A run that is given a saved state starts over at the entry point with it (the
      documentation says it goes on at the next node), and the theorems hold of it.
      The hooks are asked to be courteous, which the configured ones are.
    - The resumable agent: for every schedule of kills, where docker answers and the
      records do not run out, the commands of each container are started once and in
      order, and they and the conversation are those of a run without kills.
    - The driver of the third-party agent: a run ends whatever the agents answer, and
      reports the outcome of the last of them.
    - Enhancements and journal: an enhanced run fails no more than a plain one and asks
      within the budget, where the client's token counts can be read; a query finds
      the best entries and an appended one is loaded; the entry of a run reads back,
      survives a retention within the window or under its mark, and nothing else on
      the disk is touched; whatever hosts export it to a table, one after the other
      and told how each load ended, no entry has two rows.
    - Inspection: the exit status is that of the findings that pass both thresholds.
    - Evaluation: a coordinated sweep leaves one record for every agent and fixture
      and a summary that has them all; the report accounts for each record once;
      a promoted entry is a fixture that loads as described, and nothing outside it
      changes but by git; a batch taken up again ends with a verdict for every
      instance, which is the harness's or says that there is none.
    - The entry points: a worker that ends by itself leaves a state its monitor never
      restarts, whenever it looks, as long as Redis holds the keys it was given; one
      taken by a signal is handed to the restart.
    - The start-up checks and cloud tokens: the verdict on a token is that of its
      strongest role; tokens are minted by one caller at a time, are handed out only
      while they are usable, and no caller waits for ever.
    - The webhook gateway: only vouched requests are forwarded, and the run they start
      carries the number of the project they are vouched for (the address it clones
      is the payload's own); every request is accounted for; forced refreshes of the
      keys are bounded; its classification follows the parser of the orchestrator,
      but for branches of [auto/] that are no fix.
    - The LLM gateway: keys separate requests that differ and identify requests that
      do not; replay never forwards; the cache holds successes; a recorded answer is
      replayed, also on a machine it was shipped to; an import that was cut short
      can be taken up again; the configured policy selects the backend.
    - The orchestrator: worker starts are bounded whatever the spawner, and the four
      spawners keep what that needs; only dead workers are restarted, and a
      Kubernetes worker is sent back to the node it ran on; verdicts reach their
      subscribers; a daemon stays within its slots, and what it advertises is within
      them, whatever happens between two of its waits; dispatch picks exactly the
      eligible daemons and starves none.
    - The providers: what the GitLab provider commits is on the server, and it says
      that nothing changed only where nothing did; a fix gets one merge request from
      a server that lists what it has; a wait for a pipeline ends with a verdict that
      was sent;
      what the local providers keep and lose of a fix.
    - The services: anchors resolve to their one occurrence, a patch changes no other
      line, the guards accept exactly what they document, retry and budget keep
      their bounds, records are kept and isolated.

    ** Conventions, bounds and fuel

    A call that raises is a value of [res] or of the outcome of a monad.  What the
    program asks of the outside (chat models, git, docker, HTTP, Redis, clocks) is a
    function of the history of calls so far, so that a theorem holds for every
    behaviour of it; what is relied on is a named hypothesis.  Floats are rationals;
    strings hold the characters of Latin-1.  Loops without a structural measure take
    fuel.  [GraphSpec.graph_terminates] shows that 4 * (30 + 2) + 9 = 137 nodes are
    enough for the graph with the default budget, so its fuel is never the reason
    to stop; the regex matcher, the JSON scanner and the tool-call scanner take the
    length of their input; the retry loops take their retry count.  The loop of the
    resumable agent takes the number of iterations, and its theorem holds for any.

    ** Not modelled

    Rounding of floats and text outside Latin-1; aliases of files through symbolic
    links; the internals of the graph engine (the merge of updates and the choice of
    the next node are modelled, persistence of its checkpoints is the argument
    [saved] of the run); the shell scripts the worker sends to a container, except
    for what they do to the ledger; logging, gauges and metrics servers other than
    the counters of the webhook gateway; argument parsing and process wiring (dh_entry.py,
    the settings classes, the configuration of the third-party agent for a single
    instance), which is glue around third-party classes; the direct
    client of the chat loop, which nothing imports; the Google Cloud twin
    of the token providers, whose tokens the library keeps; streaming, key sets and
    the Redis store of the LLM gateway; the SQLite checkpointer, which only
    constructs a third-party saver; the operational scripts under tools and infra and
    the experiments under trial; the decoding of a fetched file and the diff of two
    texts, which are parameters; modes of files.  A worker that is killed is
    killed before a call; one that is asked to stop runs the [finally] of its loop,
    which then changes nothing. *)

From stdpp Require Export base tactics option list strings gmap.
From Stdlib Require Export ZArith QArith Lia.
From Stdlib Require Export Ascii String.

(* stdpp's notations take precedence over the ones of the Standard Library. *)
Export stdpp.base stdpp.list_basics stdpp.list_relations stdpp.list_monad stdpp.list stdpp.option stdpp.strings.
Global Generalizable All Variables.

#[global] Arguments String.append !_ _ / : simpl nomatch.

(** ** Exceptions and the result monad

    A Python call either returns or raises.  An exception keeps its class name
    (the source formats [type(exc).__name__]) and its message [str(exc)]. *)

Record exn := Exn { exn_class : string; exn_msg : string }.

#[export] Instance exn_eq_dec : EqDecision exn.
Proof. solve_decision. Defined.

Inductive res (A : Type) : Type :=
| Ok (a : A)
| Raise (e : exn).
Arguments Ok {A} a.
Arguments Raise {A} e.

#[export] Instance res_eq_dec {A} `{EqDecision A} : EqDecision (res A).
Proof. solve_decision. Defined.

#[export] Instance res_ret : MRet res := λ A a, Ok a.
#[export] Instance res_bind : MBind res := λ A B f m,
  match m with Ok a => f a | Raise e => Raise e end.
#[export] Instance res_fmap : FMap res := λ A B f m,
  match m with Ok a => Ok (f a) | Raise e => Raise e end.

Definition is_ok {A} (r : res A) : bool :=
  match r with Ok _ => true | Raise _ => false end.

Lemma res_bind_ok {A B} (f : A → res B) (m : res A) (b : B) :
  m ≫= f = Ok b ↔ ∃ a, m = Ok a ∧ f a = Ok b.
Proof. destruct m; naive_solver. Qed.

Lemma res_bind_raise {A B} (f : A → res B) (m : res A) (e : exn) :
  m ≫= f = Raise e ↔ m = Raise e ∨ ∃ a, m = Ok a ∧ f a = Raise e.
Proof. destruct m; naive_solver. Qed.

(** ** Python values

    JSON payloads, the graph state and configuration documents are Python
    dynamic values.  A [dict] keeps its insertion order; floats are exact
    rationals (rounding is not modelled). *)

Inductive pyval :=
| PNone
| PBool (b : bool)
| PInt (z : Z)
| PFloat (q : Q)
| PStr (s : string)
| PList (l : list pyval)
| PDict (d : list (string * pyval)).

#[export] Instance pyval_eq_dec : EqDecision pyval.
Proof.
  refine (fix go v v' :=
    match v, v' with
    | PNone, PNone => left eq_refl
    | PBool b, PBool b' => cast_if (decide (b = b'))
    | PInt z, PInt z' => cast_if (decide (z = z'))
    | PFloat q, PFloat q' => cast_if (@decide (q = q') _)
    | PStr s, PStr s' => cast_if (decide (s = s'))
    | PList l, PList l' => cast_if (@list_eq_dec _ go l l')
    | PDict d, PDict d' => cast_if (@list_eq_dec _ (@prod_eq_dec _ _ _ go) d d')
    | _, _ => right _
    end); solve [congruence | solve_decision].
Defined.

(** Induction that goes into lists and dictionaries. *)
Lemma pyval_nested_ind (P : pyval → Prop) :
  P PNone → (∀ b, P (PBool b)) → (∀ z, P (PInt z)) → (∀ q, P (PFloat q)) → (∀ s, P (PStr s)) →
  (∀ l, Forall P l → P (PList l)) → (∀ d, Forall (λ m, P m.2) d → P (PDict d)) → ∀ v, P v.
Proof.
  intros Hn Hb Hi Hf Hs Hl Hd. fix IH 1.
  intros [|b|z|q|s|l|d]; [exact Hn|apply Hb|apply Hi|apply Hf|apply Hs|apply Hl|apply Hd].
  - induction l as [|v l IHl]; constructor; [apply IH|exact IHl].
  - induction d as [|[k v] d IHd]; constructor; [apply IH|exact IHd].
Qed.

(** [bool(v)] *)
Definition truthy (v : pyval) : bool :=
  match v with
  | PNone => false
  | PBool b => b
  | PInt z => negb (z =? 0)%Z
  | PFloat q => negb (Qeq_bool q 0)
  | PStr s => match s with EmptyString => false | _ => true end
  | PList l => match l with [] => false | _ => true end
  | PDict d => match d with [] => false | _ => true end
  end.

(** [a or b] *)
Definition py_or (a b : pyval) : pyval := if truthy a then a else b.

(** The dictionary operations the source uses on [dict[str, _]]. *)
Fixpoint dict_get {V} (k : string) (d : list (string * V)) : option V :=
  match d with
  | [] => None
  | (k', v) :: d' => if decide (k = k') then Some v else dict_get k d'
  end.

(** [d[k] = v]: an existing key keeps its position, a new one goes last. *)
Fixpoint dict_set {V} (k : string) (v : V) (d : list (string * V)) : list (string * V) :=
  match d with
  | [] => [(k, v)]
  | (k', v') :: d' =>
      if decide (k = k') then (k', v) :: d' else (k', v') :: dict_set k v d'
  end.

(** [d.pop(k, None)]: keys are unique, so every entry under [k] is the one. *)
Definition dict_pop {V} (k : string) (d : list (string * V)) : list (string * V) :=
  List.filter (λ '(k', _), negb (bool_decide (k = k'))) d.

(** [k in d] *)
Definition dict_has {V} (k : string) (d : list (string * V)) : bool :=
  match dict_get k d with Some _ => true | None => false end.

(** [d.setdefault(k, v)], for the effect on [d]. *)
Definition dict_setdefault {V} (k : string) (v : V) (d : list (string * V)) :
    list (string * V) :=
  if dict_has k d then d else dict_set k v d.

(** [d.get(k)] on a dict of values. *)
Definition dget (k : string) (d : list (string * pyval)) : pyval :=
  default PNone (dict_get k d).

Lemma dict_get_set_eq {V} k (v : V) d : dict_get k (dict_set k v d) = Some v.
Proof.
  induction d as [|[k' v'] d IH]; simpl; [by rewrite decide_True|].
  destruct (decide (k = k')) as [->|]; simpl; [by rewrite decide_True|].
  by rewrite decide_False.
Qed.

Lemma dict_get_set_ne {V} k k' (v : V) d :
  k ≠ k' → dict_get k' (dict_set k v d) = dict_get k' d.
Proof.
  intros Hne. induction d as [|[k0 v0] d IH]; simpl; [by rewrite decide_False|].
  destruct (decide (k = k0)) as [->|]; simpl.
  - by rewrite !decide_False.
  - destruct (decide (k' = k0)); [done|apply IH].
Qed.

Lemma dict_get_pop_ne {V} k k' (d : list (string * V)) :
  k ≠ k' → dict_get k' (dict_pop k d) = dict_get k' d.
Proof.
  intros Hne. unfold dict_pop. induction d as [|[k0 v0] d IH]; simpl; [done|].
  case_bool_decide as E; simpl; rewrite IH; [subst; by rewrite decide_False|done].
Qed.

Lemma dict_get_pop_eq {V} k (d : list (string * V)) : dict_get k (dict_pop k d) = None.
Proof.
  unfold dict_pop. induction d as [|[k0 v0] d IH]; simpl; [done|].
  case_bool_decide as E; simpl; [done|]. by rewrite decide_False.
Qed.

Lemma dict_get_set {V} k k' (v : V) d :
  dict_get k' (dict_set k v d) = if decide (k = k') then Some v else dict_get k' d.
Proof.
  destruct (decide (k = k')) as [->|]; [apply dict_get_set_eq|by apply dict_get_set_ne].
Qed.

Lemma dict_get_key {V} k (d : list (string * V)) : k ∈ map fst d ↔ is_Some (dict_get k d).
Proof.
  induction d as [|[k0 v0] d IH]; simpl.
  - split; [by intros ?%elem_of_nil|by intros [? [=]]].
  - rewrite elem_of_cons, IH. destruct (decide (k = k0)) as [->|]; [|naive_solver].
    split; [eauto|by left].
Qed.

Lemma dict_get_elem {V} k (v : V) d : dict_get k d = Some v → (k, v) ∈ d.
Proof.
  induction d as [|[k0 v0] d IH]; simpl; [done|].
  destruct (decide (k = k0)) as [->|].
  - intros [= ->]. apply elem_of_cons. by left.
  - intros H. apply elem_of_cons. right. by apply IH.
Qed.

Lemma dict_get_nodup {V} k (v : V) d : NoDup (map fst d) → (k, v) ∈ d → dict_get k d = Some v.
Proof.
  induction d as [|[k' v'] d IH]; simpl; [by intros _ ?%elem_of_nil|].
  intros [Hk Hd]%NoDup_cons [[= -> ->]|Hin]%elem_of_cons; [by rewrite decide_True|].
  rewrite decide_False; [by apply IH|]. intros ->. apply Hk, list_elem_of_fmap. by exists (k', v).
Qed.

Lemma dict_set_nodup {V} k (v : V) d : NoDup (map fst d) → NoDup (map fst (dict_set k v d)).
Proof.
  induction d as [|[k' v'] d IH]; simpl; [intros _; apply NoDup_singleton|].
  intros [Hk Hd]%NoDup_cons. destruct (decide (k = k')) as [->|Hne]; simpl; [by constructor|].
  constructor; [|by apply IH]. rewrite dict_get_key, dict_get_set_ne by done. by rewrite <- dict_get_key.
Qed.

Lemma dict_set_fresh {V} b (v : V) l : dict_get b l = None → dict_set b v l = l ++ [(b, v)].
Proof.
  induction l as [|[k x] l IH]; simpl; [done|]. destruct (decide (b = k)); [done|].
  intros Hg. by rewrite IH.
Qed.

Lemma dget_str k d s : dget k d = PStr s → dict_get k d = Some (PStr s).
Proof. unfold dget. destruct (dict_get k d) as [v|]; simpl; [by intros ->|done]. Qed.

(** ** Generic lemmas on lists *)

Lemma list_find_exists {A} (P : A → bool) (l : list A) :
  existsb P l = true ↔ ∃ x, x ∈ l ∧ P x = true.
Proof.
  rewrite existsb_exists. split; intros (x & Hx & Hp); exists x; split; auto;
    by apply list_elem_of_In.
Qed.

Lemma forallb_elem {A} (P : A → bool) (l : list A) :
  forallb P l = true ↔ ∀ x, x ∈ l → P x = true.
Proof.
  rewrite forallb_forall. split; intros H x Hx; apply H; by apply list_elem_of_In.
Qed.

(** Boolean membership, [x in l]. *)
Definition mem {A} `{EqDecision A} (x : A) (l : list A) : bool := bool_decide (x ∈ l).

Lemma mem_spec {A} `{EqDecision A} (x : A) l : mem x l = true ↔ x ∈ l.
Proof. unfold mem. by rewrite bool_decide_eq_true. Qed.

(** ** Tactics *)

(** Case analysis on every [if]/[match] of the goal, keeping the equations. *)
Ltac break_match_goal :=
  match goal with
  | |- context [match ?x with _ => _ end] =>
      lazymatch x with
      | context [match _ with _ => _ end] => fail
      | _ => let E := fresh "E" in destruct x eqn:E; simplify_eq/=
      end
  end.

Ltac break_match_hyp H :=
  match type of H with
  | context [match ?x with _ => _ end] =>
      lazymatch x with
      | context [match _ with _ => _ end] => fail
      | _ => let E := fresh "E" in destruct x eqn:E; simplify_eq/=
      end
  end.

(** Split a conjunction of booleans in a hypothesis. *)
Ltac split_andb H :=
  repeat match type of H with
  | (_ && _)%bool = true =>
      let H1 := fresh H in let H2 := fresh H in
      apply andb_true_iff in H as [H1 H2]; try split_andb H1; try split_andb H2
  end.

Create HintDb pydb.
#[export] Hint Resolve dict_get_set_eq : pydb.
