(* ===== verification/PyStr.v ===== *)
(** * Python's [str], as the source uses it

    A [str] is a [string] of Latin-1 code points (0-255).  The operations of the
    standard library that the program calls are defined here: the [strip]
    family, [split]/[join], [startswith]/[endswith], slicing, [lower], the
    [int()] parser and [str()] of an integer, and [fnmatch.fnmatchcase] for
    patterns of literals, [*] and [?]. *)

From S2P Require Import Prelude.
Local Open Scope string_scope.
Local Open Scope list_scope.

(** ** Characters *)

Definition code (c : ascii) : N := N_of_ascii c.

(** [c.isspace()] on Latin-1. *)
Definition is_space (c : ascii) : bool :=
  let n := code c in
  ((9 <=? n) && (n <=? 13) || (28 <=? n) && (n <=? 32) || (n =? 133) || (n =? 160))%N.

Definition in_range (lo hi : N) (c : ascii) : bool := ((lo <=? code c) && (code c <=? hi))%N.
Definition is_digit : ascii → bool := in_range 48 57.
Definition is_lower : ascii → bool := in_range 97 122.
Definition is_upper : ascii → bool := in_range 65 90.
Definition is_alpha (c : ascii) : bool := is_lower c || is_upper c.
Definition is_alnum (c : ascii) : bool := is_alpha c || is_digit c.
(** [[0-9a-f]] *)
Definition is_hex_lower (c : ascii) : bool := is_digit c || in_range 97 102 c.

Definition ch_eq (a b : ascii) : bool := bool_decide (a = b).

(** Characters that cannot be written inside a string literal. *)
Definition c_nl : ascii := ascii_of_nat 10.
Definition c_cr : ascii := ascii_of_nat 13.
Definition c_tab : ascii := ascii_of_nat 9.
Definition c_dquote : ascii := ascii_of_nat 34.
Definition c_backslash : ascii := ascii_of_nat 92.
Definition c_esc : ascii := ascii_of_nat 27.
Definition nl : string := String c_nl EmptyString.
Definition dquote : string := String c_dquote EmptyString.

(** ** Strings as lists of characters *)

Fixpoint str_rev_app (s acc : string) : string :=
  match s with
  | EmptyString => acc
  | String c s' => str_rev_app s' (String c acc)
  end.

Fixpoint str_drop (n : nat) (s : string) : string :=
  match n, s with
  | O, _ => s
  | S n', String _ s' => str_drop n' s'
  | S _, EmptyString => EmptyString
  end.

Fixpoint str_take (n : nat) (s : string) : string :=
  match n, s with
  | S n', String c s' => String c (str_take n' s')
  | _, _ => EmptyString
  end.

(** [s[-n:]] for a positive [n]. *)
Definition str_tail (n : nat) (s : string) : string := str_drop (String.length s - n) s.

Fixpoint str_forallb (P : ascii → bool) (s : string) : bool :=
  match s with
  | EmptyString => true
  | String c s' => P c && str_forallb P s'
  end.

Fixpoint str_existsb (P : ascii → bool) (s : string) : bool :=
  match s with
  | EmptyString => false
  | String c s' => P c || str_existsb P s'
  end.

Fixpoint str_map (f : ascii → ascii) (s : string) : string :=
  match s with
  | EmptyString => EmptyString
  | String c s' => String (f c) (str_map f s')
  end.

Definition str_nonempty (s : string) : bool :=
  match s with EmptyString => false | _ => true end.

(** [s.lstrip(chars)], with the set of characters as a predicate. *)
Fixpoint str_lstrip (P : ascii → bool) (s : string) : string :=
  match s with
  | EmptyString => EmptyString
  | String c s' => if P c then str_lstrip P s' else s
  end.

(** [s.rstrip(chars)] *)
Fixpoint str_rstrip (P : ascii → bool) (s : string) : string :=
  match s with
  | EmptyString => EmptyString
  | String c s' =>
      match str_rstrip P s' with
      | EmptyString => if P c then EmptyString else String c EmptyString
      | r => String c r
      end
  end.

Definition str_strip_by (P : ascii → bool) (s : string) : string :=
  str_rstrip P (str_lstrip P s).

(** [s.strip()] *)
Definition str_strip (s : string) : string := str_strip_by is_space s.

(** [s.startswith(p)], [s.endswith(p)] *)
Fixpoint startswith (p s : string) : bool :=
  match p, s with
  | EmptyString, _ => true
  | String a p', String b s' => ch_eq a b && startswith p' s'
  | String _ _, EmptyString => false
  end.

Definition endswith (p s : string) : bool :=
  (String.length p <=? String.length s)%nat &&
  bool_decide (str_drop (String.length s - String.length p) s = p).

(** [p in s] for strings. *)
Fixpoint str_contains (p s : string) : bool :=
  startswith p s ||
  match s with
  | EmptyString => false
  | String _ s' => str_contains p s'
  end.

(** [s.split(c)] for a single-character separator: never empty. *)
Fixpoint str_split (sep : ascii) (s : string) : list string :=
  match s with
  | EmptyString => [EmptyString]
  | String c s' =>
      if ch_eq c sep then EmptyString :: str_split sep s'
      else match str_split sep s' with
           | [] => [String c EmptyString]
           | w :: ws => String c w :: ws
           end
  end.

(** [sep.join(l)] *)
Fixpoint str_join (sep : string) (l : list string) : string :=
  match l with
  | [] => EmptyString
  | [w] => w
  | w :: l' => w +:+ sep +:+ str_join sep l'
  end.

(** [s.replace(a, b)] for single characters. *)
Definition str_replace_char (a b : ascii) (s : string) : string :=
  str_map (λ c, if ch_eq c a then b else c) s.

(** [s.replace(a, b, count)] for a non-empty [a]: a turn of the loop shortens [s],
    so [S (length s)] turns suffice. *)
Fixpoint replace_go (fuel count : nat) (a b s : string) : string :=
  match fuel, count with
  | S fuel', S count' =>
      if startswith a s then b +:+ replace_go fuel' count' a b (str_drop (String.length a) s)
      else match s with
           | EmptyString => EmptyString
           | String c s' => String c (replace_go fuel' count a b s')
           end
  | _, _ => s
  end.

(** An empty [a] matches before every character and at the end. *)
Fixpoint interleave (b s : string) : string :=
  match s with
  | EmptyString => b
  | String c s' => b +:+ String c (interleave b s')
  end.

(** [s.replace(a, b)] *)
Definition str_replace (a b s : string) : string :=
  if str_nonempty a then replace_go (S (String.length s)) (S (String.length s)) a b s else interleave b s.

(** [s.replace(a, b, 1)] for a non-empty [a]. *)
Definition str_replace_first (a b s : string) : string := replace_go (S (String.length s)) 1 a b s.

(** [s.lower()] on Latin-1: [A-Z] and the accented capitals move up by 32. *)
Definition lower_char (c : ascii) : ascii :=
  let n := code c in
  if (in_range 65 90 c || (in_range 192 222 c && negb (n =? 215)%N))%bool
  then ascii_of_N (n + 32) else c.
Definition str_lower (s : string) : string := str_map lower_char s.

(** [s.partition(c)]: the text before and after the first [c]. *)
Fixpoint str_partition (sep : ascii) (s : string) : string * string :=
  match s with
  | EmptyString => (EmptyString, EmptyString)
  | String c s' =>
      if ch_eq c sep then (EmptyString, s')
      else let '(a, b) := str_partition sep s' in (String c a, b)
  end.

(** ** Integers *)

Definition digit_char (d : N) : ascii := ascii_of_N (48 + d).
Definition digit_val (c : ascii) : Z := Z.of_N (code c) - 48.

(** [str(n)] *)
Fixpoint digits_go (fuel : nat) (n : N) (acc : string) : string :=
  match fuel with
  | O => acc
  | S fuel' =>
      let acc' := String (digit_char (n mod 10)) acc in
      if (n <? 10)%N then acc' else digits_go fuel' (n / 10) acc'
  end.
Definition str_of_N (n : N) : string := digits_go (S (N.to_nat (N.log2 n))) n EmptyString.
Definition str_of_Z (z : Z) : string :=
  if (z <? 0)%Z then String "-"%char (str_of_N (Z.to_N (- z))) else str_of_N (Z.to_N z).
Definition str_of_nat (n : nat) : string := str_of_N (N.of_nat n).

(** [int(s)] on the part after the sign: digits, single underscores between. *)
Fixpoint int_digits (acc : Z) (after_digit : bool) (s : string) : option Z :=
  match s with
  | EmptyString => if after_digit then Some acc else None
  | String c s' =>
      if is_digit c then int_digits (acc * 10 + digit_val c) true s'
      else if ch_eq c "_"%char && after_digit
           then match s' with
                | String d _ => if is_digit d then int_digits acc false s' else None
                | EmptyString => None
                end
           else None
  end.

Definition str_int (s : string) : option Z :=
  match str_strip s with
  | String c s' =>
      if ch_eq c "-"%char then Z.opp <$> int_digits 0 false s'
      else if ch_eq c "+"%char then int_digits 0 false s'
      else int_digits 0 false (String c s')
  | EmptyString => None
  end.

Definition value_error (m : string) : exn := Exn "ValueError" m.
Definition type_error (m : string) : exn := Exn "TypeError" m.
Definition key_error (m : string) : exn := Exn "KeyError" m.
Definition attribute_error (m : string) : exn := Exn "AttributeError" m.
Definition index_error (m : string) : exn := Exn "IndexError" m.

(** [int(v)] *)
Definition py_int (v : pyval) : res Z :=
  match v with
  | PInt z => Ok z
  | PBool b => Ok (if b then 1 else 0)%Z
  | PFloat q => Ok (Z.quot (Qnum q) (Zpos (Qden q)))
  | PStr s => match str_int s with
              | Some z => Ok z
              | None => Raise (value_error ("invalid literal for int() with base 10: " +:+ s))
              end
  | _ => Raise (type_error "int() argument must be a string, a bytes-like object or a real number")
  end.

(** ** [repr] and [str]

    [repr] of a float is left to a class: the model keeps a float as an exact
    rational and does not print it. *)

Class FloatRepr := float_repr : Q → string.

Definition hex_digit (n : N) : ascii :=
  if (n <? 10)%N then ascii_of_N (48 + n) else ascii_of_N (87 + n).

(** [urllib.parse.quote(s, safe=)] with nothing safe: the UTF-8 bytes of what is
    not a letter, a digit or one of [_.-~] are escaped. *)
Definition percent (n : N) : string :=
  let hex d := if (d <? 10)%N then ascii_of_N (48 + d) else ascii_of_N (55 + d) in
  String "%" (String (hex (n / 16)%N) (String (hex (n mod 16)%N) EmptyString)).

Definition quote_char (c : ascii) : string :=
  let n := code c in
  if is_alnum c || existsb (ch_eq c) ["_"; "."; "-"; "~"]%char then String c EmptyString
  else if (n <? 128)%N then percent n
  else percent (192 + n / 64)%N +:+ percent (128 + n mod 64)%N.

Fixpoint url_quote (s : string) : string :=
  match s with
  | EmptyString => EmptyString
  | String c s' => quote_char c +:+ url_quote s'
  end.

(** Latin-1 characters that [repr] prints as they are. *)
Definition is_printable (c : ascii) : bool :=
  let n := code c in
  ((32 <=? n) && (n <=? 126) || (161 <=? n) && negb (n =? 173))%N.

Definition repr_char (quote c : ascii) : string :=
  if (ch_eq c quote || ch_eq c c_backslash)%bool
  then String c_backslash (String c EmptyString)
  else if ch_eq c c_nl then String c_backslash "n"
  else if ch_eq c c_cr then String c_backslash "r"
  else if ch_eq c c_tab then String c_backslash "t"
  else if is_printable c then String c EmptyString
  else String c_backslash
         (String "x" (String (hex_digit (code c / 16))
                        (String (hex_digit (code c mod 16)) EmptyString))).

Fixpoint repr_body (quote : ascii) (s : string) : string :=
  match s with
  | EmptyString => EmptyString
  | String c s' => repr_char quote c +:+ repr_body quote s'
  end.

(** Single quotes, unless the text has a single quote and no double quote. *)
Definition repr_str (s : string) : string :=
  let q := if (str_existsb (λ c, ch_eq c "'"%char) s &&
               negb (str_existsb (λ c, ch_eq c c_dquote) s))%bool
           then c_dquote else "'"%char in
  String q (repr_body q s +:+ String q EmptyString).

Fixpoint py_repr `{FloatRepr} (v : pyval) : string :=
  match v with
  | PNone => "None"
  | PBool b => if b then "True" else "False"
  | PInt z => str_of_Z z
  | PFloat q => float_repr q
  | PStr s => repr_str s
  | PList l => "[" +:+ str_join ", " (map py_repr l) +:+ "]"
  | PDict d =>
      "{" +:+ str_join ", " (map (λ '(k, x), repr_str k +:+ ": " +:+ py_repr x) d) +:+ "}"
  end.

(** [str(v)] *)
Definition py_str `{FloatRepr} (v : pyval) : string :=
  match v with PStr s => s | _ => py_repr v end.

(** [type(v).__name__] *)
Definition type_name (v : pyval) : string :=
  match v with
  | PNone => "NoneType" | PBool _ => "bool" | PInt _ => "int" | PFloat _ => "float"
  | PStr _ => "str" | PList _ => "list" | PDict _ => "dict"
  end.

(** [isinstance(v, int)]: a [bool] is an [int]. *)
Definition as_int (v : pyval) : option Z :=
  match v with PInt z => Some z | PBool b => Some (if b then 1 else 0)%Z | _ => None end.

(** [k in v], [v[k]] and [v.get(k, default)] for a text key. *)
Definition py_contains (k : string) (v : pyval) : res bool :=
  match v with
  | PDict d => Ok (dict_has k d)
  | PList l => Ok (existsb (λ x, match x with PStr s => bool_decide (s = k) | _ => false end) l)
  | PStr s => Ok (str_contains k s)
  | v => Raise (type_error ("argument of type '" +:+ type_name v +:+ "' is not iterable"))
  end.

Definition py_getitem (v : pyval) (k : string) : res pyval :=
  match v with
  | PDict d => match dict_get k d with
               | Some x => Ok x
               | None => Raise (key_error (repr_str k))
               end
  | PList _ => Raise (type_error "list indices must be integers or slices, not str")
  | PStr _ => Raise (type_error "string indices must be integers, not 'str'")
  | v => Raise (type_error ("'" +:+ type_name v +:+ "' object is not subscriptable"))
  end.

Definition py_get (v : pyval) (k : string) (dflt : pyval) : res pyval :=
  match v with
  | PDict d => Ok (default dflt (dict_get k d))
  | v => Raise (attribute_error ("'" +:+ type_name v +:+ "' object has no attribute 'get'"))
  end.

(** [for x in v] over a JSON value. *)
Definition py_iter (v : pyval) : res (list pyval) :=
  match v with
  | PList l => Ok l
  | PDict d => Ok (map (λ '(k, _), PStr k) d)
  | PStr s => Ok (map (λ c, PStr (String c EmptyString)) (list_ascii_of_string s))
  | v => Raise (type_error ("'" +:+ type_name v +:+ "' object is not iterable"))
  end.

(** [v[0]] *)
Definition py_first (v : pyval) : res pyval :=
  match v with
  | PList (x :: _) => Ok x
  | PList [] => Raise (index_error "list index out of range")
  | PStr (String c _) => Ok (PStr (String c EmptyString))
  | PStr EmptyString => Raise (index_error "string index out of range")
  | PDict _ => Raise (key_error "0")
  | v => Raise (type_error ("'" +:+ type_name v +:+ "' object is not subscriptable"))
  end.

(** Text-mode reading turns [\r\n] and a lone [\r] into [\n]. *)
Fixpoint universal_newlines (s : string) : string :=
  match s with
  | EmptyString => EmptyString
  | String c s' =>
      if ch_eq c c_cr then
        String c_nl (match s' with
                     | String d s'' => if ch_eq d c_nl then universal_newlines s''
                                       else universal_newlines s'
                     | EmptyString => EmptyString
                     end)
      else String c (universal_newlines s')
  end.

(** [s.splitlines(keepends=True)] *)
Definition is_linebreak (c : ascii) : bool :=
  in_range 10 13 c || in_range 28 30 c || ch_eq c (ascii_of_N 133).

Fixpoint splitlines_keep (s : string) : list string :=
  match s with
  | EmptyString => []
  | String c s' =>
      match s' with
      | String d s'' =>
          if ch_eq c c_cr && ch_eq d c_nl then String c (String d EmptyString) :: splitlines_keep s''
          else if is_linebreak c then String c EmptyString :: splitlines_keep s'
          else match splitlines_keep s' with
               | [] => [String c EmptyString]
               | l :: ls => String c l :: ls
               end
      | EmptyString => [String c EmptyString]
      end
  end.

(** [s.splitlines()] *)
Definition splitlines (s : string) : list string := map (str_rstrip is_linebreak) (splitlines_keep s).

(** [float(s)] of a text, [None] where it raises: left to a class, like [repr]. *)
Class FloatParse := float_parse : string → option Q.

(** [float(v)] *)
Definition py_float `{FloatParse} (v : pyval) : res Q :=
  match v with
  | PInt z => Ok (inject_Z z)
  | PBool b => Ok (if b then 1 else 0)%Q
  | PFloat q => Ok q
  | PStr s => match float_parse s with
              | Some q => Ok q
              | None => Raise (value_error ("could not convert string to float: " +:+ repr_str s))
              end
  | _ => Raise (type_error "float() argument must be a string or a real number")
  end.

(** ** [fnmatch.fnmatchcase] for patterns of literals, [*] and [?]

    [*] matches any sequence of characters, [/] included. *)

Fixpoint fnmatch (pat s : string) {struct pat} : bool :=
  match pat with
  | EmptyString => negb (str_nonempty s)
  | String c pat' =>
      if ch_eq c "*"%char then
        (fix star (s : string) : bool :=
           fnmatch pat' s ||
           match s with EmptyString => false | String _ s' => star s' end) s
      else match s with
           | EmptyString => false
           | String d s' => (ch_eq c "?"%char || ch_eq c d) && fnmatch pat' s'
           end
  end.

(** The declarative meaning of a pattern. *)
Inductive glob_match : string → string → Prop :=
| glob_nil : glob_match EmptyString EmptyString
| glob_star pat u v : glob_match pat v → glob_match (String "*" pat) (u +:+ v)
| glob_any pat d s : glob_match pat s → glob_match (String "?" pat) (String d s)
| glob_char c pat s :
    c ≠ "*"%char → c ≠ "?"%char → glob_match pat s → glob_match (String c pat) (String c s).

(** ** Lemmas *)

Lemma ch_eq_true a b : ch_eq a b = true ↔ a = b.
Proof. unfold ch_eq. by rewrite bool_decide_eq_true. Qed.

Lemma ch_eq_false a b : ch_eq a b = false ↔ a ≠ b.
Proof. unfold ch_eq. by rewrite bool_decide_eq_false. Qed.

Lemma ch_eq_refl a : ch_eq a a = true.
Proof. by apply ch_eq_true. Qed.

Lemma str_app_nil_r (s : string) : s +:+ EmptyString = s.
Proof. induction s as [|c s IH]; simpl; [done|by rewrite IH]. Qed.

Lemma str_app_assoc (a b c : string) : a +:+ (b +:+ c) = (a +:+ b) +:+ c.
Proof. induction a as [|x a IH]; simpl; [done|by rewrite IH]. Qed.

Lemma str_length_app (a b : string) :
  String.length (a +:+ b) = (String.length a + String.length b)%nat.
Proof. induction a as [|x a IH]; simpl; [done|by rewrite IH]. Qed.

Lemma str_drop_app (a b : string) : str_drop (String.length a) (a +:+ b) = b.
Proof. by induction a. Qed.

Lemma str_take_app (a b : string) : str_take (String.length a) (a +:+ b) = a.
Proof. induction a as [|x a IH]; simpl; [by destruct b|by rewrite IH]. Qed.

Lemma str_take_drop n (s : string) : str_take n s +:+ str_drop n s = s.
Proof.
  revert s. induction n as [|n IH]; intros [|c s]; simpl; try done. by rewrite IH.
Qed.

Lemma str_app_inj_l (a b c : string) : a +:+ b = a +:+ c → b = c.
Proof. induction a as [|x a IH]; simpl; [done|]. intros [= H]. auto. Qed.

Lemma str_app_inj_r (a b c : string) : a +:+ c = b +:+ c → a = b.
Proof.
  intros E. pose proof (f_equal String.length E) as Hl. rewrite !str_length_app in Hl.
  apply (f_equal (str_take (String.length a))) in E. rewrite str_take_app in E.
  replace (String.length a) with (String.length b) in E by lia. by rewrite str_take_app in E.
Qed.

(** The last character. *)
Fixpoint str_final (s : string) : option ascii :=
  match s with
  | EmptyString => None
  | String c EmptyString => Some c
  | String _ s' => str_final s'
  end.

Lemma str_final_app a c : str_final (a +:+ String c EmptyString) = Some c.
Proof.
  induction a as [|x a IH]; [done|]. simpl.
  destruct (a +:+ String c EmptyString) eqn:E; [by destruct a|done].
Qed.

Lemma str_forallb_app P (a b : string) :
  str_forallb P (a +:+ b) = (str_forallb P a && str_forallb P b)%bool.
Proof. induction a as [|x a IH]; simpl; [done|]. by rewrite IH, andb_assoc. Qed.

Lemma startswith_spec p s : startswith p s = true ↔ ∃ r, s = p +:+ r.
Proof.
  revert s. induction p as [|a p IH]; intros s; simpl; [naive_solver|].
  destruct s as [|b s]; simpl.
  - split; [done|]. intros [r [=]].
  - rewrite andb_true_iff, ch_eq_true, IH. split.
    + intros [-> [r ->]]. by exists r.
    + intros [r [= -> ->]]. eauto.
Qed.

Lemma startswith_app p r : startswith p (p +:+ r) = true.
Proof. apply startswith_spec. by exists r. Qed.

Lemma str_split_nonnil sep s : str_split sep s ≠ [].
Proof.
  destruct s as [|c s]; simpl; [done|]. destruct (ch_eq c sep); [done|].
  by destruct (str_split sep s).
Qed.

(** Joining what [split] produced gives the text back. *)
Lemma str_join_split sep s : str_join (String sep EmptyString) (str_split sep s) = s.
Proof.
  induction s as [|c s IH]; simpl; [done|].
  pose proof (str_split_nonnil sep s) as Hne.
  destruct (ch_eq c sep) eqn:E.
  - apply ch_eq_true in E as ->. destruct (str_split sep s) as [|w ws]; [done|].
    simpl in *. by rewrite IH.
  - destruct (str_split sep s) as [|w ws]; [done|]. simpl in *.
    destruct ws; simpl in *; by rewrite IH.
Qed.

Lemma str_join_lines s : str_join nl (str_split c_nl s) = s.
Proof. apply str_join_split. Qed.

Lemma str_split_no_sep sep s :
  str_forallb (λ c, negb (ch_eq c sep)) s = true → str_split sep s = [s].
Proof.
  induction s as [|c s IH]; simpl; [done|].
  intros [Hc Hs]%andb_true_iff. apply negb_true_iff in Hc. by rewrite Hc, IH.
Qed.

Lemma str_split_app_sep sep a b :
  str_forallb (λ c, negb (ch_eq c sep)) a = true →
  str_split sep (a +:+ String sep b) = a :: str_split sep b.
Proof.
  induction a as [|c a IH]; simpl; [by rewrite ch_eq_refl|].
  intros [Hc Hs]%andb_true_iff. apply negb_true_iff in Hc. rewrite Hc.
  by rewrite IH.
Qed.

(** A non-empty list of separator-free words survives [join] then [split]. *)
Lemma str_split_join sep l :
  l ≠ [] → Forall (λ w, str_forallb (λ c, negb (ch_eq c sep)) w = true) l →
  str_split sep (str_join (String sep EmptyString) l) = l.
Proof.
  induction l as [|w l IH]; intros Hne Hl; [done|].
  apply Forall_cons in Hl as [Hw Hl]. destruct l as [|w' l].
  - by apply str_split_no_sep.
  - change (str_join (String sep EmptyString) (w :: w' :: l))
      with (w +:+ String sep (str_join (String sep EmptyString) (w' :: l))).
    rewrite str_split_app_sep by done. by rewrite IH.
Qed.

Lemma str_split_lines l :
  l ≠ [] → Forall (λ w, str_forallb (λ c, negb (ch_eq c c_nl)) w = true) l →
  str_split c_nl (str_join nl l) = l.
Proof. apply str_split_join. Qed.

Lemma str_split_words sep s :
  Forall (λ w, str_forallb (λ c, negb (ch_eq c sep)) w = true) (str_split sep s).
Proof.
  induction s as [|c s IH]; simpl; [by repeat constructor|].
  destruct (ch_eq c sep) eqn:E; [by constructor|].
  destruct (str_split sep s) as [|w ws]; simpl; [repeat constructor; simpl; by rewrite E|].
  apply Forall_cons in IH as [Hw Hws]. constructor; [|done]. simpl. by rewrite E, Hw.
Qed.

Lemma fnmatch_star pat s :
  fnmatch (String "*" pat) s = true ↔ ∃ u v, s = u +:+ v ∧ fnmatch pat v = true.
Proof.
  simpl. induction s as [|c s IH].
  - rewrite orb_false_r. split.
    + intros H. by exists EmptyString, EmptyString.
    + intros ([|] & v & H & Hv); [simpl in H; by subst|discriminate].
  - rewrite orb_true_iff, IH. split.
    + intros [H|(u & v & -> & Hv)]; [by exists EmptyString, (String c s)|].
      by exists (String c u), v.
    + intros ([|d u] & v & H & Hv); simpl in H; [left; by subst|].
      injection H as -> ->. right. eauto.
Qed.

(** The executable matcher decides the declarative meaning. *)
Lemma fnmatch_spec pat s : fnmatch pat s = true ↔ glob_match pat s.
Proof.
  revert s. induction pat as [|c pat IH]; intros s.
  - destruct s; simpl; split; intros H; try done; try constructor; inversion H.
  - destruct (decide (c = "*"%char)) as [->|Hstar].
    + rewrite fnmatch_star. split.
      * intros (u & v & -> & Hv). constructor. by apply IH.
      * intros H. inversion H; subst; [|done]. eexists _, _. split; [done|]. by apply IH.
    + simpl. rewrite (proj2 (ch_eq_false c "*") Hstar).
      destruct s as [|d s]; [split; [done|intros H; inversion H; subst; done]|].
      rewrite andb_true_iff, orb_true_iff, !ch_eq_true, IH. split.
      * intros [[->| ->] Hs]; [by constructor|].
        destruct (decide (d = "?"%char)) as [->|]; by constructor.
      * intros H. inversion H; subst; auto; done.
Qed.

(** A text without [\r] is read as it is. *)
Lemma universal_newlines_id s :
  str_forallb (λ c, negb (ch_eq c c_cr)) s = true → universal_newlines s = s.
Proof.
  induction s as [|c s IH]; simpl; [done|].
  intros [Hc Hs]%andb_true_iff. apply negb_true_iff in Hc. by rewrite Hc, IH.
Qed.

Lemma str_of_N_digit n : (n < 10)%N → str_of_N n = String (digit_char n) EmptyString.
Proof.
  intros Hn. unfold str_of_N. cbn [digits_go].
  rewrite (proj2 (N.ltb_lt _ _) Hn). by rewrite N.mod_small.
Qed.

(** ** Stripping and characters *)

Lemma rstrip_cons_keep P c s : P c = false → str_rstrip P (String c s) = String c (str_rstrip P s).
Proof. intros Hc. simpl. destruct (str_rstrip P s); [by rewrite Hc|done]. Qed.

Fixpoint str_ends (P : ascii → bool) (s : string) : bool :=
  match s with
  | EmptyString => false
  | String c EmptyString => P c
  | String _ s' => str_ends P s'
  end.

Lemma rstrip_end P s : str_rstrip P s = EmptyString ∨ str_ends (λ c, negb (P c)) (str_rstrip P s) = true.
Proof.
  induction s as [|c s IH]; simpl; [by left|].
  destruct (str_rstrip P s) as [|d r] eqn:E.
  - destruct (P c) eqn:Ec; [by left|]. right. simpl. by rewrite Ec.
  - right. simpl in *. by destruct IH.
Qed.

Lemma str_forallb_rstrip Q P s : str_forallb Q s = true → str_forallb Q (str_rstrip P s) = true.
Proof.
  induction s as [|c s IH]; simpl; [done|]. intros [Hc Hs]%andb_true_iff. specialize (IH Hs).
  destruct (str_rstrip P s); simpl in *; [|by rewrite Hc].
  destruct (P c); simpl; [done|by rewrite Hc].
Qed.

Lemma str_forallb_lstrip Q P s : str_forallb Q s = true → str_forallb Q (str_lstrip P s) = true.
Proof.
  induction s as [|c s IH]; simpl; [done|]. intros H. pose proof H as [Hc Hs]%andb_true_iff.
  destruct (P c); auto.
Qed.

Lemma str_forallb_take Q n s : str_forallb Q s = true → str_forallb Q (str_take n s) = true.
Proof.
  revert s. induction n as [|n IH]; intros [|c s]; simpl; try done.
  intros [Hc Hs]%andb_true_iff. rewrite Hc. by apply IH.
Qed.

Lemma lstrip_head P s c r : str_lstrip P s = String c r → P c = false.
Proof.
  induction s as [|d s IH]; simpl; [done|]. destruct (P d) eqn:E; [auto|by intros [= <- <-]].
Qed.

Lemma rstrip_head P s c r : P c = false → s = String c r → ∃ r', str_rstrip P s = String c r'.
Proof. intros Hc ->. rewrite rstrip_cons_keep by done. eauto. Qed.

Lemma str_length_take n s : (String.length (str_take n s) ≤ n)%nat.
Proof.
  revert s. induction n as [|n IH]; intros [|c s]; simpl; try lia. specialize (IH s). lia.
Qed.

Lemma str_take_short n s : (String.length s ≤ n)%nat → str_take n s = s.
Proof.
  revert s. induction n as [|n IH]; intros [|c s]; simpl; intros Hl; try done; [lia|].
  f_equal. apply IH. lia.
Qed.

Lemma str_length_rstrip P s : (String.length (str_rstrip P s) ≤ String.length s)%nat.
Proof.
  induction s as [|c s IH]; simpl; [done|].
  destruct (str_rstrip P s); [destruct (P c)|]; simpl in *; lia.
Qed.

Lemma str_length_lstrip P s : (String.length (str_lstrip P s) ≤ String.length s)%nat.
Proof. induction s as [|c s IH]; simpl; [done|]. destruct (P c); simpl; lia. Qed.

Lemma str_forallb_impl (P Q : ascii → bool) s :
  (∀ c, P c = true → Q c = true) → str_forallb P s = true → str_forallb Q s = true.
Proof.
  intros HPQ. induction s as [|c s IH]; simpl; [done|].
  intros [Hc Hs]%andb_true_iff. by rewrite (HPQ c Hc), IH.
Qed.

Lemma str_ends_all (P Q : ascii → bool) s :
  str_forallb P s = true → str_ends Q s = true → str_ends (λ c, P c && Q c) s = true.
Proof.
  induction s as [|c s IH]; simpl; [done|]. intros [Hc Hs]%andb_true_iff He.
  destruct s as [|d s]; [by rewrite Hc, He|by apply IH].
Qed.

Lemma digit_char_is_digit d : (d < 10)%N → is_digit (digit_char d) = true.
Proof.
  intros Hd. unfold is_digit, in_range, code, digit_char. rewrite N_ascii_embedding by lia.
  apply andb_true_iff. split; apply N.leb_le; lia.
Qed.

Lemma digits_go_digits fuel n acc :
  str_forallb is_digit acc = true → str_forallb is_digit (digits_go fuel n acc) = true.
Proof.
  revert n acc. induction fuel as [|f IH]; intros n acc Ha; [done|]. cbn [digits_go].
  assert (str_forallb is_digit (String (digit_char (n mod 10)) acc) = true) as Hacc.
  { cbn [str_forallb]. rewrite digit_char_is_digit, Ha; [done|]. by apply N.mod_lt. }
  destruct (n <? 10)%N; [done|]. by apply IH.
Qed.

Lemma str_of_nat_digits n : str_forallb is_digit (str_of_nat n) = true.
Proof. by apply digits_go_digits. Qed.

(** ** [int(str(z)) = z] *)

Lemma digit_val_char d : (d < 10)%N → digit_val (digit_char d) = Z.of_N d.
Proof. intros Hd. unfold digit_val, code, digit_char. rewrite N_ascii_embedding by lia. lia. Qed.

Lemma int_digits_go fuel n s :
  (n < 10 ^ N.of_nat fuel)%N → (0 < fuel)%nat →
  ∃ k, ∀ acc b, (int_digits acc b (digits_go fuel n s) =
                 int_digits (acc * 10 ^ Z.of_nat k + Z.of_N n) true s)%Z.
Proof.
  revert n s. induction fuel as [|f IH]; intros n s Hn Hf; [lia|]. cbn [digits_go].
  assert (n mod 10 < 10)%N as Hm by (by apply N.mod_lt).
  pose proof (N.div_mod n 10 ltac:(done)) as Hdm.
  destruct (N.ltb_spec n 10) as [Hlt|Hge].
  - exists 1%nat. intros acc b. cbn [int_digits].
    rewrite digit_char_is_digit, digit_val_char by done. f_equal.
    rewrite N.mod_small by done. lia.
  - destruct f as [|f].
    { simpl in Hn. lia. }
    assert (n / 10 < 10 ^ N.of_nat (S f))%N as Hq.
    { apply N.Div0.div_lt_upper_bound. rewrite Nat2N.inj_succ, N.pow_succ_r' in Hn. done. }
    destruct (IH (n / 10)%N (String (digit_char (n mod 10)) s) Hq) as [k Hk]; [lia|].
    exists (S k). intros acc b. rewrite Hk. cbn [int_digits].
    rewrite digit_char_is_digit, digit_val_char by done. f_equal.
    rewrite Nat2Z.inj_succ, Z.pow_succ_r by lia. lia.
Qed.

Lemma log2_fuel n : (n < 10 ^ N.of_nat (S (N.to_nat (N.log2 n))))%N.
Proof.
  rewrite Nat2N.inj_succ, N2Nat.id. destruct (decide (n = 0)%N) as [->|Hn]; [done|].
  eapply N.lt_le_trans; [apply N.log2_spec; lia|]. by apply N.pow_le_mono_l.
Qed.

Lemma int_digits_str_of_N n : int_digits 0 false (str_of_N n) = Some (Z.of_N n).
Proof.
  unfold str_of_N. destruct (int_digits_go _ n EmptyString (log2_fuel n)) as [k Hk]; [lia|].
  rewrite Hk. done.
Qed.

Lemma strip_id s : str_forallb (λ c, negb (is_space c)) s = true → str_strip s = s.
Proof.
  intros Hs. unfold str_strip, str_strip_by.
  assert (str_lstrip is_space s = s) as ->.
  { destruct s as [|c s]; [done|]. simpl in *. apply andb_true_iff in Hs as [Hc _].
    apply negb_true_iff in Hc. by rewrite Hc. }
  induction s as [|c s IH]; [done|]. cbn [str_forallb] in Hs. apply andb_true_iff in Hs as [Hc Hs].
  apply negb_true_iff in Hc. by rewrite rstrip_cons_keep, IH.
Qed.

Lemma digit_not_space c : is_digit c = true → negb (is_space c) = true.
Proof. destruct c as [[] [] [] [] [] [] [] []]; vm_compute; congruence. Qed.

Lemma str_of_N_digits n : str_forallb is_digit (str_of_N n) = true.
Proof. by apply digits_go_digits. Qed.

(** The decimal text of an integer reads back as that integer. *)
Lemma str_int_of_Z z : str_int (str_of_Z z) = Some z.
Proof.
  unfold str_of_Z. destruct (Z.ltb_spec z 0) as [Hz|Hz].
  - unfold str_int. rewrite strip_id.
    2:{ cbn [str_forallb]. eapply str_forallb_impl; [apply digit_not_space|apply str_of_N_digits]. }
    rewrite ch_eq_refl, int_digits_str_of_N. simpl. f_equal. lia.
  - unfold str_int. rewrite strip_id.
    2:{ eapply str_forallb_impl; [apply digit_not_space|apply str_of_N_digits]. }
    pose proof (str_of_N_digits (Z.to_N z)) as Hd. pose proof (int_digits_str_of_N (Z.to_N z)) as Hi.
    destruct (str_of_N (Z.to_N z)) as [|c s]; [done|]. cbn [str_forallb] in Hd.
    apply andb_true_iff in Hd as [Hc _].
    assert (ch_eq c "-" = false ∧ ch_eq c "+" = false) as [-> ->].
    { split; apply ch_eq_false; intros ->; done. }
    rewrite Hi. f_equal. lia.
Qed.
