(* ===== verification/PyTime.v ===== *)
(** * UTC time stamps

    The compact stamps of the program, [strftime("%Y%m%dT%H%M%SZ")] of a UTC
    [datetime], and [strptime] with the same format.  A moment is a number of
    seconds since the epoch; the calendar is the proleptic Gregorian one. *)

From S2P Require Import Prelude PyStr.
Local Open Scope string_scope.
Local Open Scope list_scope.
Local Open Scope Z_scope.

Record civil := mkCivil { year : Z; month : Z; day : Z; hour : Z; minute : Z; second : Z }.

Definition leap (y : Z) : bool := (y mod 4 =? 0) && (negb (y mod 100 =? 0) || (y mod 400 =? 0)).
Definition days_in_month (y m : Z) : Z :=
  if m =? 2 then (if leap y then 29 else 28)
  else if (m =? 4) || (m =? 6) || (m =? 9) || (m =? 11) then 30 else 31.

(** Years are counted from the first of March; [doe] is the day in a cycle of
    400 years. *)
Definition year_of_era (doe : Z) : Z * Z :=
  let c := Z.min (doe / 36524) 3 in
  let r := doe - 36524 * c in
  let q := Z.min (r / 1461) 24 in
  let r := r - 1461 * q in
  let y := Z.min (r / 365) 3 in
  (100 * c + 4 * q + y, r - 365 * y).

Definition civil_of_days (z : Z) : Z * Z * Z :=
  let z := z + 719468 in
  let era := z / 146097 in
  let '(yoe, doy) := year_of_era (z mod 146097) in
  let mp := (5 * doy + 2) / 153 in
  let d := doy - (153 * mp + 2) / 5 + 1 in
  let m := if mp <? 10 then mp + 3 else mp - 9 in
  (yoe + 400 * era + (if m <=? 2 then 1 else 0), m, d).

Definition days_of_civil (y m d : Z) : Z :=
  let y := if m <=? 2 then y - 1 else y in
  let era := y / 400 in
  let yoe := y mod 400 in
  let mp := if 2 <? m then m - 3 else m + 9 in
  let doy := (153 * mp + 2) / 5 + d - 1 in
  era * 146097 + (yoe * 365 + yoe / 4 - yoe / 100 + doy) - 719468.

Definition civil_of (t : Z) : civil :=
  let '(y, m, d) := civil_of_days (t / 86400) in
  let s := t mod 86400 in
  mkCivil y m d (s / 3600) (s mod 3600 / 60) (s mod 60).

Definition seconds_of (c : civil) : Z :=
  days_of_civil (year c) (month c) (day c) * 86400 + hour c * 3600 + minute c * 60 + second c.

(** What the constructor of [datetime] accepts. *)
Definition between (lo hi x : Z) : bool := (lo <=? x) && (x <=? hi).
Definition valid (c : civil) : bool :=
  between 1 9999 (year c) && between 1 12 (month c)
  && between 1 (days_in_month (year c) (month c)) (day c)
  && between 0 23 (hour c) && between 0 59 (minute c) && between 0 59 (second c).

(** ** The format *)

(** [n] decimal digits. *)
Fixpoint digits (n : nat) (z : Z) (rest : string) : string :=
  match n with
  | O => rest
  | S n' => digits n' (z / 10) (String (digit_char (Z.to_N (z mod 10))) rest)
  end.

Definition strftime (c : civil) : string :=
  digits 4 (year c) (digits 2 (month c) (digits 2 (day c) (String "T"
    (digits 2 (hour c) (digits 2 (minute c) (digits 2 (second c) "Z")))))).

(** [datetime.now(timezone.utc).strftime("%Y%m%dT%H%M%SZ")] at second [t]. *)
Definition stamp (t : Z) : string := strftime (civil_of t).

Fixpoint read_digits (n : nat) (acc : Z) (s : string) : option (Z * string) :=
  match n, s with
  | O, _ => Some (acc, s)
  | S n', String c s' => if is_digit c then read_digits n' (10 * acc + digit_val c) s' else None
  | S _, EmptyString => None
  end.

Definition read_char (c : ascii) (s : string) : option string :=
  match s with String d s' => if ch_eq c d then Some s' else None | EmptyString => None end.

(** [datetime.strptime(s, "%Y%m%dT%H%M%SZ")] on fourteen digits in their
    places, [None] where it raises. *)
Definition strptime (s : string) : option Z :=
  '(y, s) ← read_digits 4 0 s; '(m, s) ← read_digits 2 0 s; '(d, s) ← read_digits 2 0 s;
  s ← read_char "T" s;
  '(hh, s) ← read_digits 2 0 s; '(mm, s) ← read_digits 2 0 s; '(ss, s) ← read_digits 2 0 s;
  s ← read_char "Z" s;
  if str_nonempty s then None
  else let c := mkCivil y m d hh mm ss in if valid c then Some (seconds_of c) else None.

(** ** The calendar *)

Ltac divlia := Z.to_euclidean_division_equations; lia.

Lemma year_of_era_spec doe : 0 <= doe < 146097 →
  ∃ c q y doy, year_of_era doe = (100 * c + 4 * q + y, doy) ∧
    0 <= c <= 3 ∧ 0 <= q <= 24 ∧ 0 <= y <= 3 ∧
    doe = 36524 * c + 1461 * q + 365 * y + doy ∧ 0 <= doy <= 365 ∧
    (doy = 365 → y = 3 ∧ (q < 24 ∨ c = 3)).
Proof.
  intros Hd. unfold year_of_era. cbv zeta. eexists _, _, _, _. split; [reflexivity|].
  remember (Z.min (doe / 36524) 3) as c eqn:Ec. remember (doe - 36524 * c) as r eqn:Er.
  assert (0 <= c <= 3 ∧ 0 <= r ∧ (r < 36524 ∨ c = 3 ∧ r <= 36524)) as (Hc & Hr0 & Hr) by divlia.
  assert (doe = 36524 * c + r) as Edoe by divlia. clear Ec Er.
  remember (Z.min (r / 1461) 24) as q eqn:Eq. remember (r - 1461 * q) as s eqn:Es.
  assert (0 <= q <= 24 ∧ 0 <= s < 1461 ∧ (q < 24 ∨ s <= 1459 ∨ c = 3)) as (Hq & Hs & Hq4) by divlia.
  assert (r = 1461 * q + s) as Er by divlia. clear Eq Es.
  remember (Z.min (s / 365) 3) as y eqn:Ey. split_and!; divlia.
Qed.

Lemma days_of_civil_of_days z :
  let '(y, m, d) := civil_of_days z in days_of_civil y m d = z.
Proof.
  unfold civil_of_days. cbv zeta.
  destruct (year_of_era_spec ((z + 719468) mod 146097)) as (c & q & y & doy & -> & Hc & Hq & Hy & E & Hdoy & _);
    [apply Z.mod_pos_bound; divlia|].
  remember ((5 * doy + 2) / 153) as mp eqn:Emp. assert (0 <= mp <= 11) by divlia.
  remember ((z + 719468) / 146097) as era eqn:Eera.
  assert (z + 719468 = 146097 * era + (36524 * c + 1461 * q + 365 * y + doy)) as Ez by divlia.
  clear E Eera.
  unfold days_of_civil. cbv zeta.
  remember (if mp <? 10 then mp + 3 else mp - 9) as m eqn:Em.
  assert ((if 2 <? m then m - 3 else m + 9) = mp) as ->
    by (destruct (mp <? 10) eqn:?, (2 <? m) eqn:?; lia).
  assert ((if m <=? 2 then 100 * c + 4 * q + y + 400 * era + (if m <=? 2 then 1 else 0) - 1
           else 100 * c + 4 * q + y + 400 * era + (if m <=? 2 then 1 else 0)) = 100 * c + 4 * q + y + 400 * era)
    as -> by (destruct (m <=? 2); lia).
  clear Em. divlia.
Qed.

(** The month and the day in it. *)
Lemma civil_of_days_valid z y m d :
  civil_of_days z = (y, m, d) → 1 <= m <= 12 ∧ 1 <= d <= days_in_month y m.
Proof.
  unfold civil_of_days. cbv zeta.
  destruct (year_of_era_spec ((z + 719468) mod 146097)) as (c & q & yy & doy & -> & Hc & Hq & Hy & E & Hdoy & Hleap);
    [apply Z.mod_pos_bound; lia|]. clear E.
  remember ((z + 719468) / 146097) as era eqn:Eera. clear Eera.
  intros [= Ey Em Ed]. remember ((5 * doy + 2) / 153) as mp eqn:Emp.
  assert (0 <= mp <= 11) as Hmp by divlia.
  assert (1 <= m <= 12) as Hm by (destruct (mp <? 10) eqn:?; lia). split; [done|].
  assert (d = doy - (153 * mp + 2) / 5 + 1) as Hd by done. clear Ed.
  assert (1 <= d ∧ (mp < 11 → d <= days_in_month 1 m) ∧ (mp = 11 → d = doy - 336)) as (H1 & H2 & H3).
  { assert (mp = 0 ∨ mp = 1 ∨ mp = 2 ∨ mp = 3 ∨ mp = 4 ∨ mp = 5 ∨ mp = 6 ∨ mp = 7 ∨ mp = 8 ∨ mp = 9
            ∨ mp = 10 ∨ mp = 11) as Hcases by lia.
    repeat destruct Hcases as [Hcases|Hcases]; rewrite Hcases in *; simpl in Em; subst m d;
      (split_and!; [divlia|intros ?|intros ?]); try lia; try divlia;
      match goal with |- _ <= ?x => let v := eval vm_compute in x in change x with v end; divlia. }
  split; [done|]. destruct (decide (mp = 11)) as [Hf|Hf].
  - assert (m = 2) as -> by (destruct (mp <? 10) eqn:?; lia).
    rewrite Em in Ey. change (2 <=? 2) with true in Ey. cbv iota in Ey.
    unfold days_in_month. change (2 =? 2) with true. cbv iota. destruct (decide (doy = 365)) as [Hl|Hl]; [|destruct (leap y); lia].
    assert (leap y = true) as ->; [|lia]. unfold leap.
    destruct (Hleap Hl) as [-> Hq4]. assert (y = 4 * (25 * c + q + 1 + 100 * era)) as Eyy by lia.
    assert (y mod 4 = 0) as -> by divlia.
    apply orb_true_iff. destruct Hq4 as [Hq4|Hq4].
    + left. apply negb_true_iff, Z.eqb_neq. divlia.
    + destruct (decide (q = 24)); [right; apply Z.eqb_eq; divlia|left; apply negb_true_iff, Z.eqb_neq; divlia].
  - assert (m ≠ 2) as Hm2 by (destruct (mp <? 10) eqn:?; lia).
    replace (days_in_month y m) with (days_in_month 1 m); [by apply H2; lia|].
    unfold days_in_month. by rewrite (proj2 (Z.eqb_neq m 2) Hm2).
Qed.

Lemma seconds_of_civil_of t : seconds_of (civil_of t) = t.
Proof.
  unfold seconds_of, civil_of. pose proof (days_of_civil_of_days (t / 86400)) as Hd.
  destruct (civil_of_days (t / 86400)) as [[y m] d]. cbn [year month day hour minute second].
  rewrite Hd. divlia.
Qed.

(** The years of four digits. *)
Definition MAX_SECONDS : Z := 253402300800.

Lemma civil_of_valid t : 0 <= t < MAX_SECONDS → valid (civil_of t) = true ∧ 1000 <= year (civil_of t).
Proof.
  intros Ht. unfold valid, civil_of. pose proof (days_of_civil_of_days (t / 86400)) as Hd.
  pose proof (civil_of_days_valid (t / 86400)) as Hv.
  destruct (civil_of_days (t / 86400)) as [[y m] d]. destruct (Hv _ _ _ eq_refl) as [Hm Hday].
  cbn [year month day hour minute second].
  assert (d <= 31) as Hd31 by (revert Hday; unfold days_in_month; repeat case_match; lia).
  assert (1969 <= y <= 9999) as Hy.
  { unfold MAX_SECONDS in Ht. unfold days_of_civil in Hd. cbv zeta in Hd.
    destruct (2 <? m) eqn:?, (m <=? 2) eqn:?; try lia; clear Hv; divlia. }
  unfold between. split; [|lia]. repeat (apply andb_true_iff; split); apply Z.leb_le; try lia; divlia.
Qed.

(** ** Reading a stamp back *)

Lemma read_digits_digits n k acc z s :
  0 <= z < 10 ^ Z.of_nat n →
  read_digits (n + k) acc (digits n z s) = read_digits k (acc * 10 ^ Z.of_nat n + z) s.
Proof.
  revert k acc z s. induction n as [|n IH]; intros k acc z s Hz.
  - simpl in *. f_equal. lia.
  - rewrite Nat2Z.inj_succ, Z.pow_succ_r in * by lia. cbn [digits].
    replace (S n + k)%nat with (n + S k)%nat by lia. rewrite IH by divlia. cbn [read_digits].
    assert (Z.to_N (z mod 10) < 10)%N as Hd by divlia.
    rewrite digit_char_is_digit by done. rewrite digit_val_char by done. f_equal. divlia.
Qed.

Lemma read_field n z s :
  0 <= z < 10 ^ Z.of_nat n → read_digits n 0 (digits n z s) = Some (z, s).
Proof.
  intros Hz. rewrite <- (Nat.add_0_r n) at 1. rewrite read_digits_digits by done. simpl. do 2 f_equal.
Qed.

Lemma strptime_stamp t : 0 <= t < MAX_SECONDS → strptime (stamp t) = Some t.
Proof.
  intros Ht. destruct (civil_of_valid t Ht) as [Hv Hy]. unfold stamp, strptime, strftime.
  pose proof (seconds_of_civil_of t) as Hs. destruct (civil_of t) as [y m d hh mm ss]. simpl in Hy.
  pose proof Hv as Hb. unfold valid, between in Hb. cbn [year month day hour minute second] in *.
  rewrite !andb_true_iff, !Z.leb_le in Hb.
  assert (d <= 31) as Hd31 by (unfold days_in_month in *; repeat case_match; lia).
  repeat ((rewrite read_field by (simpl; lia)) || rewrite ch_eq_refl; cbn [mbind option_bind read_char]).
  cbn [str_nonempty]. rewrite Hv. by rewrite Hs.
Qed.
