(* ===== verification/Regex.v ===== *)
(** * Python's [re], as the source uses it

    A backtracking matcher in the order of CPython's engine (leftmost
    alternative first, greedy and lazy repetition, captures), and a compiler
    from pattern text to matcher, so that the patterns of the models are the
    source's own strings.  The compiler knows the constructs the source uses:
    literals, escapes, sets, groups (capturing and not), [|], [*], [+], [?],
    [{m,n}] and their lazy forms, [^], [$], [\b], with the flags IGNORECASE,
    MULTILINE and DOTALL. *)

From S2P Require Import Prelude PyStr.
Local Open Scope string_scope.
Local Open Scope list_scope.

(** ** Syntax *)

(** Ranges of code points, bounds included. *)
Definition ranges := list (N * N).

Inductive re :=
| REps
| RSet (ic neg : bool) (rs : ranges)
| RSeq (a b : re)
| RAlt (a b : re)
| RStar (greedy : bool) (a : re)
| RGroup (i : nat) (a : re)
| RBol (multi : bool)
| REol (multi : bool)
| RWordB.

Definition in_ranges (rs : ranges) (n : N) : bool :=
  existsb (λ '(lo, hi), (lo <=? n) && (n <=? hi))%N rs.

Definition swap_case (n : N) : N :=
  if ((65 <=? n) && (n <=? 90))%N then (n + 32)%N
  else if ((97 <=? n) && (n <=? 122))%N then (n - 32)%N else n.

Definition set_has (ic neg : bool) (rs : ranges) (c : ascii) : bool :=
  xorb neg (in_ranges rs (code c) || ic && in_ranges rs (swap_case (code c))).

(** [\d], [\s], [\w] on Latin-1. *)
Definition digit_ranges : ranges := [(48, 57)]%N.
Definition space_ranges : ranges := [(9, 13); (28, 32); (133, 133); (160, 160)]%N.
Definition word_ranges : ranges :=
  [(48, 57); (65, 90); (95, 95); (97, 122); (170, 170); (178, 179); (181, 181);
   (185, 186); (188, 190); (192, 214); (216, 246); (248, 255)]%N.

Definition is_word (c : ascii) : bool := in_ranges word_ranges (code c).

(** ** Matching *)

(** Captures, newest first. *)
Definition caps := list (nat * string).

Definition cap_get (i : nat) (c : caps) : option string :=
  snd <$> List.find (λ '(j, _), (i =? j)%nat) c.

Definition opt_word (o : option ascii) : bool :=
  match o with Some c => is_word c | None => false end.
Definition str_head (s : string) : option ascii :=
  match s with String c _ => Some c | EmptyString => None end.

Definition at_bol (multi : bool) (prev : option ascii) : bool :=
  match prev with None => true | Some c => multi && ch_eq c c_nl end.
(** [$]: at the end, or before a final newline. *)
Definition at_eol (multi : bool) (s : string) : bool :=
  match s with
  | EmptyString => true
  | String c s' => ch_eq c c_nl && (multi || negb (str_nonempty s'))
  end.

(** The text between a position and a later one. *)
Definition span (s s' : string) : string := str_take (String.length s - String.length s') s.

(** The turns of a repetition whose body is matched by [rm]; a turn must consume
    something. *)
Fixpoint star_loop {R} (rm : option ascii → string → caps →
                             (option ascii → string → caps → option R) → option R)
    (greedy : bool) (k : option ascii → string → caps → option R)
    (n : nat) (prev : option ascii) (s : string) (c : caps) : option R :=
  match n with
  | O => None
  | S n' =>
      let more := rm prev s c (λ p s' c',
        if (String.length s' <? String.length s)%nat
        then star_loop rm greedy k n' p s' c' else None) in
      let stop := k prev s c in
      if greedy then match more with Some x => Some x | None => stop end
      else match stop with Some x => Some x | None => more end
  end.

#[global] Arguments star_loop : simpl never.

(** [rmatch r prev s c k]: match [r] from the position that [prev] precedes and
    [s] follows, then continue with [k]; the first success wins.  Every turn of
    a repetition shortens [s], so [S (length s)] turns suffice. *)
Fixpoint rmatch {R} (r : re) (prev : option ascii) (s : string) (c : caps)
    (k : option ascii → string → caps → option R) {struct r} : option R :=
  match r with
  | REps => k prev s c
  | RSet ic neg rs =>
      match s with
      | String a s' => if set_has ic neg rs a then k (Some a) s' c else None
      | EmptyString => None
      end
  | RSeq a b => rmatch a prev s c (λ p s c, rmatch b p s c k)
  | RAlt a b => match rmatch a prev s c k with
                | Some x => Some x
                | None => rmatch b prev s c k
                end
  | RStar greedy a =>
      star_loop (rmatch a) greedy k (S (String.length s)) prev s c
  | RGroup i a => rmatch a prev s c (λ p s' c', k p s' ((i, span s s') :: c'))
  | RBol multi => if at_bol multi prev then k prev s c else None
  | REol multi => if at_eol multi s then k prev s c else None
  | RWordB => if xorb (opt_word prev) (opt_word (str_head s)) then k prev s c else None
  end.

(** A match: what is left after it, and its captures. *)
Definition re_match_at (r : re) (prev : option ascii) (s : string) : option (string * caps) :=
  rmatch r prev s [] (λ _ s' c, Some (s', c)).

(** [re.match]: the matched text, the rest and the captures. *)
Definition re_match (r : re) (s : string) : option (string * string * caps) :=
  match re_match_at r None s with
  | Some (s', c) => Some (span s s', s', c)
  | None => None
  end.

(** [re.search]: the text before the leftmost match, the match, the rest. *)
Fixpoint search_from (r : re) (prev : option ascii) (s : string) :
    option (string * string * string * caps) :=
  match re_match_at r prev s with
  | Some (s', c) => Some (EmptyString, span s s', s', c)
  | None =>
      match s with
      | EmptyString => None
      | String a s' =>
          match search_from r (Some a) s' with
          | Some (b, m, t, c) => Some (String a b, m, t, c)
          | None => None
          end
      end
  end.
Definition re_search (r : re) (s : string) := search_from r None s.

Definition str_last (s : string) : option ascii :=
  match String.length s with O => None | S n => String.get n s end.

(** A replacement template: literal text and references to groups. *)
Inductive piece := PLit (s : string) | PRef (i : nat).

Fixpoint expand (tpl : list piece) (c : caps) : string :=
  match tpl with
  | [] => EmptyString
  | PLit s :: t => s +:+ expand t c
  | PRef i :: t => default EmptyString (cap_get i c) +:+ expand t c
  end.

(** [re.sub] for patterns that match no empty text. *)
Fixpoint sub_from (fuel : nat) (r : re) (tpl : list piece) (prev : option ascii) (s : string) :
    string :=
  match fuel with
  | O => s
  | S fuel' =>
      match s with
      | EmptyString => EmptyString
      | String a s' =>
          match re_match_at r prev s with
          | Some (t, c) =>
              if (String.length t <? String.length s)%nat
              then expand tpl c +:+ sub_from fuel' r tpl (str_last (span s t)) t
              else String a (sub_from fuel' r tpl (Some a) s')
          | None => String a (sub_from fuel' r tpl (Some a) s')
          end
      end
  end.
Definition re_sub (r : re) (tpl : list piece) (s : string) : string :=
  sub_from (String.length s) r tpl None s.

(** [re.finditer] for patterns that match no empty text: each match with the
    text it covers and its captures. *)
Fixpoint findall_from (fuel : nat) (r : re) (prev : option ascii) (s : string) :
    list (string * caps) :=
  match fuel with
  | O => []
  | S fuel' =>
      match s with
      | EmptyString => []
      | String a s' =>
          match re_match_at r prev s with
          | Some (t, c) =>
              if (String.length t <? String.length s)%nat
              then (span s t, c) :: findall_from fuel' r (str_last (span s t)) t
              else findall_from fuel' r (Some a) s'
          | None => findall_from fuel' r (Some a) s'
          end
      end
  end.
Definition re_findall (r : re) (s : string) : list (string * caps) :=
  findall_from (String.length s) r None s.

(** ** Compiling a pattern *)

Record flags := mkFlags { f_ignorecase : bool; f_multiline : bool; f_dotall : bool }.
Definition no_flags : flags := mkFlags false false false.
Definition ignorecase : flags := mkFlags true false false.

Definition hex_val (c : ascii) : option N :=
  let n := code c in
  if is_digit c then Some (n - 48)%N
  else if in_range 97 102 c then Some (n - 87)%N
  else if in_range 65 70 c then Some (n - 55)%N else None.

(** An escape after its backslash: a class or one character, and the rest. *)
Definition parse_escape (s : string) : option ((bool * ranges) * string) :=
  match s with
  | EmptyString => None
  | String c s' =>
      if ch_eq c "d" then Some ((false, digit_ranges), s')
      else if ch_eq c "s" then Some ((false, space_ranges), s')
      else if ch_eq c "w" then Some ((false, word_ranges), s')
      else if ch_eq c "S" then Some ((true, space_ranges), s')
      else if ch_eq c "n" then Some ((false, [(10, 10)]%N), s')
      else if ch_eq c "t" then Some ((false, [(9, 9)]%N), s')
      else if ch_eq c "x" then
        match s' with
        | String h (String l s'') =>
            match hex_val h, hex_val l with
            | Some a, Some b => Some ((false, [(a * 16 + b, a * 16 + b)]%N), s'')
            | _, _ => None
            end
        | _ => None
        end
      else if is_alnum c then None
      else Some ((false, [(code c, code c)]), s')
  end%char.

(** The items of a set, up to its closing bracket. *)
Fixpoint parse_set (fuel : nat) (s : string) (acc : ranges) : option (ranges * string) :=
  match fuel with
  | O => None
  | S fuel' =>
      match s with
      | EmptyString => None
      | String c s' =>
          if ch_eq c "]" then Some (acc, s')
          else if ch_eq c c_backslash then
            match parse_escape s' with
            | Some ((false, rs), s'') => parse_set fuel' s'' (acc ++ rs)
            | _ => None
            end
          else match s' with
               | String d (String e s'') =>
                   if (ch_eq d "-" && negb (ch_eq e "]"))%char
                   then parse_set fuel' s'' (acc ++ [(code c, code e)])
                   else parse_set fuel' s' (acc ++ [(code c, code c)])
               | _ => parse_set fuel' s' (acc ++ [(code c, code c)])
               end
      end
  end%char.

Fixpoint copies (n : nat) (r : re) : re :=
  match n with O => REps | S O => r | S n' => RSeq r (copies n' r) end.

Definition ropt (greedy : bool) (r : re) : re :=
  if greedy then RAlt r REps else RAlt REps r.

(** Up to [n] further copies. *)
Fixpoint up_to (greedy : bool) (n : nat) (r : re) : re :=
  match n with O => REps | S n' => ropt greedy (RSeq r (up_to greedy n' r)) end.

Definition repeated (greedy : bool) (lo : nat) (hi : option nat) (r : re) : re :=
  match hi with
  | None => match lo with O => RStar greedy r | _ => RSeq (copies lo r) (RStar greedy r) end
  | Some h => if (h =? lo)%nat then copies lo r
              else match lo with
                   | O => up_to greedy h r
                   | _ => RSeq (copies lo r) (up_to greedy (h - lo) r)
                   end
  end.

Fixpoint parse_nat_go (acc : option nat) (s : string) : option nat * string :=
  match s with
  | String c s' =>
      if is_digit c
      then parse_nat_go (Some (default 0 acc * 10 + N.to_nat (code c - 48)))%nat s'
      else (acc, s)
  | EmptyString => (acc, s)
  end.

(** A quantifier, if one follows: its bounds, whether it is greedy, the rest. *)
Definition parse_quant (s : string) : option (nat * option nat * bool * string) :=
  let base :=
    match s with
    | String c s' =>
        if ch_eq c "*" then Some (0%nat, None, s')
        else if ch_eq c "+" then Some (1%nat, None, s')
        else if ch_eq c "?" then Some (0%nat, Some 1%nat, s')
        else if ch_eq c "{" then
          match parse_nat_go None s' with
          | (Some lo, String d s'') =>
              if ch_eq d "}" then Some (lo, Some lo, s'')
              else if ch_eq d "," then
                match parse_nat_go None s'' with
                | (hi, String e s3) => if ch_eq e "}" then Some (lo, hi, s3) else None
                | _ => None
                end
              else None
          | _ => None
          end
        else None
    | EmptyString => None
    end%char in
  match base with
  | Some (lo, hi, r) =>
      match r with
      | String q r' => if ch_eq q "?" then Some (lo, hi, false, r') else Some (lo, hi, true, r)
      | EmptyString => Some (lo, hi, true, r)
      end
  | None => None
  end%char.

Definition rseq (a b : re) : re := match a with REps => b | _ => RSeq a b end.

(** The grammar: alternatives of sequences of quantified atoms.  [g] numbers
    the capturing groups by their opening parenthesis. *)
Fixpoint parse_alt (fuel : nat) (fl : flags) (s : string) (g : nat) :
    option (re * string * nat) :=
  match fuel with
  | O => None
  | S fuel' =>
      match parse_seq fuel' fl s g REps with
      | Some (a, String c s', g') =>
          if ch_eq c "|" then
            match parse_alt fuel' fl s' g' with
            | Some (b, s'', g'') => Some (RAlt a b, s'', g'')
            | None => None
            end
          else Some (a, String c s', g')
      | r => r
      end
  end%char
with parse_seq (fuel : nat) (fl : flags) (s : string) (g : nat) (acc : re) :
    option (re * string * nat) :=
  match fuel with
  | O => None
  | S fuel' =>
      match s with
      | EmptyString => Some (acc, s, g)
      | String c _ =>
          if (ch_eq c "|" || ch_eq c ")")%char then Some (acc, s, g)
          else match parse_atom fuel' fl s g with
               | Some (a, s', g') =>
                   match parse_quant s' with
                   | Some (lo, hi, greedy, s'') =>
                       parse_seq fuel' fl s'' g' (rseq acc (repeated greedy lo hi a))
                   | None => parse_seq fuel' fl s' g' (rseq acc a)
                   end
               | None => None
               end
      end
  end
with parse_atom (fuel : nat) (fl : flags) (s : string) (g : nat) :
    option (re * string * nat) :=
  match fuel with
  | O => None
  | S fuel' =>
      match s with
      | EmptyString => None
      | String c s' =>
          if ch_eq c "(" then
            match s' with
            | String q (String d s'') =>
                if (ch_eq q "?" && ch_eq d ":")%char then
                  match parse_alt fuel' fl s'' g with
                  | Some (a, String e r, g') => if ch_eq e ")" then Some (a, r, g') else None
                  | _ => None
                  end
                else
                  match parse_alt fuel' fl s' (S g) with
                  | Some (a, String e r, g') =>
                      if ch_eq e ")" then Some (RGroup (S g) a, r, g') else None
                  | _ => None
                  end
            | _ => None
            end
          else if ch_eq c "[" then
            match s' with
            | String n s'' =>
                if ch_eq n "^" then
                  match parse_set fuel' s'' [] with
                  | Some (rs, r) => Some (RSet (f_ignorecase fl) true rs, r, g)
                  | None => None
                  end
                else
                  match parse_set fuel' s' [] with
                  | Some (rs, r) => Some (RSet (f_ignorecase fl) false rs, r, g)
                  | None => None
                  end
            | EmptyString => None
            end
          else if ch_eq c "." then
            Some (RSet false true (if f_dotall fl then [] else [(10, 10)]%N), s', g)
          else if ch_eq c "^" then Some (RBol (f_multiline fl), s', g)
          else if ch_eq c "$" then Some (REol (f_multiline fl), s', g)
          else if ch_eq c c_backslash then
            match s' with
            | String b s'' =>
                if ch_eq b "b" then Some (RWordB, s'', g)
                else match parse_escape s' with
                     | Some ((neg, rs), r) => Some (RSet (f_ignorecase fl) neg rs, r, g)
                     | None => None
                     end
            | EmptyString => None
            end
          else Some (RSet (f_ignorecase fl) false [(code c, code c)], s', g)
      end
  end%char.

(** [re.compile(pattern, flags)] *)
Definition compile (fl : flags) (pattern : string) : option re :=
  match parse_alt (4 * String.length pattern + 4) fl pattern 0 with
  | Some (r, EmptyString, _) => Some r
  | _ => None
  end.

(** The compiled pattern; an unparsable one would match nothing. *)
Definition rx (fl : flags) (pattern : string) : re :=
  default (RSet false false []) (compile fl pattern).

(** The text of a template: a backslash and a digit refer to a group. *)
Fixpoint template_go (s lit : string) : list piece :=
  match s with
  | EmptyString => if str_nonempty lit then [PLit lit] else []
  | String c s' =>
      match s' with
      | String d s'' =>
          if ch_eq c c_backslash && is_digit d
          then (if str_nonempty lit then [PLit lit] else []) ++
               PRef (N.to_nat (code d - 48)) :: template_go s'' EmptyString
          else template_go s' (lit +:+ String c EmptyString)
      | EmptyString => template_go s' (lit +:+ String c EmptyString)
      end
  end.
Definition template (s : string) : list piece := template_go s EmptyString.

(** ** The declarative meaning of a match, and the matcher's correctness *)

(** [matches r p s c p' s' c']: [r] can lead from the position with [p] before
    and [s] after it to the one with [p'] and [s'], growing [c] to [c']. *)
Inductive matches : re → option ascii → string → caps → option ascii → string → caps → Prop :=
| m_eps p s c : matches REps p s c p s c
| m_set ic neg rs p a s c : set_has ic neg rs a = true →
    matches (RSet ic neg rs) p (String a s) c (Some a) s c
| m_seq a b p s c p1 s1 c1 p2 s2 c2 :
    matches a p s c p1 s1 c1 → matches b p1 s1 c1 p2 s2 c2 →
    matches (RSeq a b) p s c p2 s2 c2
| m_alt_l a b p s c p' s' c' : matches a p s c p' s' c' → matches (RAlt a b) p s c p' s' c'
| m_alt_r a b p s c p' s' c' : matches b p s c p' s' c' → matches (RAlt a b) p s c p' s' c'
| m_star_nil g a p s c : matches (RStar g a) p s c p s c
| m_star_cons g a p s c p1 s1 c1 p2 s2 c2 :
    matches a p s c p1 s1 c1 → (String.length s1 < String.length s)%nat →
    matches (RStar g a) p1 s1 c1 p2 s2 c2 → matches (RStar g a) p s c p2 s2 c2
| m_group i a p s c p' s' c' :
    matches a p s c p' s' c' → matches (RGroup i a) p s c p' s' ((i, span s s') :: c')
| m_bol m p s c : at_bol m p = true → matches (RBol m) p s c p s c
| m_eol m p s c : at_eol m s = true → matches (REol m) p s c p s c
| m_wordb p s c : xorb (opt_word p) (opt_word (str_head s)) = true →
    matches RWordB p s c p s c.

Lemma star_loop_S {R} rm g (k : option ascii → string → caps → option R) n p s c :
  star_loop rm g k (S n) p s c =
  let more := rm p s c (λ p' s' c',
    if (String.length s' <? String.length s)%nat then star_loop rm g k n p' s' c' else None) in
  if g then match more with Some x => Some x | None => k p s c end
  else match k p s c with Some x => Some x | None => more end.
Proof. done. Qed.

Lemma rmatch_sound {R} (r : re) p s c (k : option ascii → string → caps → option R) x :
  rmatch r p s c k = Some x →
  ∃ p' s' c', matches r p s c p' s' c' ∧ k p' s' c' = Some x.
Proof.
  revert p s c k. induction r as [|ic neg rs|a IHa b IHb|a IHa b IHb|g a IHa|i a IHa|m|m|];
    intros p s c k; simpl.
  - intros H. do 3 eexists. split; [constructor|done].
  - destruct s as [|ch s]; [done|]. destruct (set_has ic neg rs ch) eqn:E; [|done].
    intros H. do 3 eexists. split; [by constructor|done].
  - intros (p1 & s1 & c1 & H1 & (p2 & s2 & c2 & H2 & H)%IHb)%IHa.
    do 3 eexists. split; [by econstructor|done].
  - destruct (rmatch a p s c k) eqn:E.
    + intros [= <-]. apply IHa in E as (p' & s' & c' & H1 & H).
      do 3 eexists. split; [by apply m_alt_l|done].
    + intros (p' & s' & c' & H1 & H)%IHb. do 3 eexists. split; [by apply m_alt_r|done].
  - generalize (S (String.length s)) as n. intros n. revert p s c.
    induction n as [|n IHn]; intros p s c; [discriminate|].
    assert (rmatch a p s c (λ p0 s' c', if (String.length s' <? String.length s)%nat
              then star_loop (rmatch a) g k n p0 s' c' else None) = Some x →
            ∃ p' s' c', matches (RStar g a) p s c p' s' c' ∧ k p' s' c' = Some x) as Hmore.
    { intros (p1 & s1 & c1 & H1 & H)%IHa.
      destruct (Nat.ltb_spec (String.length s1) (String.length s)); [|done].
      apply IHn in H as (p2 & s2 & c2 & H2 & H).
      do 3 eexists. split; [by eapply m_star_cons|done]. }
    assert (k p s c = Some x →
            ∃ p' s' c', matches (RStar g a) p s c p' s' c' ∧ k p' s' c' = Some x) as Hstop.
    { intros H. do 3 eexists. split; [apply m_star_nil|done]. }
    rewrite star_loop_S. destruct g; [destruct (rmatch a p s c _) eqn:E|destruct (k p s c) eqn:E];
      intros Hx; auto; injection Hx as Hx; subst; auto.
  - intros (p1 & s1 & c1 & H1 & H)%IHa. do 3 eexists. split; [by constructor|done].
  - destruct (at_bol m p) eqn:E; [|done]. intros H. do 3 eexists. split; [by constructor|done].
  - destruct (at_eol m s) eqn:E; [|done]. intros H. do 3 eexists. split; [by constructor|done].
  - destruct (xorb _ _) eqn:E; [|done]. intros H. do 3 eexists. split; [by constructor|done].
Qed.

Lemma rmatch_complete {R} (r : re) p s c p' s' c' (k : option ascii → string → caps → option R) :
  matches r p s c p' s' c' → is_Some (k p' s' c') → is_Some (rmatch r p s c k).
Proof.
  revert p s c p' s' c' k.
  induction r as [|ic neg rs|a IHa b IHb|a IHa b IHb|g a IHa|i a IHa|m|m|];
    intros p s c p' s' c' k Hm Hk; simpl.
  - by inversion Hm; subst.
  - inversion Hm as [|? ? ? ? ? ? ? Hset| | | | | | | | | ]; subst. by rewrite Hset.
  - inversion Hm as [| |? ? ? ? ? p1 s1 c1 ? ? ? H1 H2| | | | | | | | ]; subst.
    eapply IHa; [exact H1|]. by eapply IHb.
  - inversion Hm as [| | |? ? ? ? ? ? ? ? H1|? ? ? ? ? ? ? ? H1| | | | | | ]; subst.
    + destruct (IHa _ _ _ _ _ _ k H1 Hk) as [y ->]. done.
    + destruct (rmatch a p s c k); [done|]. by eapply IHb.
  - assert (∀ n, (String.length s < n)%nat →
      is_Some (star_loop (rmatch a) g k n p s c)) as Hstar; [|apply Hstar; lia].
    remember (RStar g a) as r eqn:Hr. revert Hr Hk.
    induction Hm as [| | | | |g0 a0 p s c|g0 a0 p s c p1 s1 c1 p2 s2 c2 H1 _ Hlt H2 IH2| | | | ];
      intros [=] Hk n Hn; subst; (destruct n as [|n]; [lia|]); rewrite star_loop_S.
    + destruct Hk as [y Hk]. rewrite Hk. destruct g; [|done]. by destruct (rmatch a p s c _).
    + specialize (IH2 eq_refl Hk).
      match goal with |- context [rmatch a p s c ?kk] => set (K := kk) end.
      assert (is_Some (rmatch a p s c K)) as [y Hy].
      { eapply IHa; [exact H1|]. unfold K.
        rewrite (proj2 (Nat.ltb_lt _ _) Hlt). apply IH2. lia. }
      rewrite Hy. destruct g; [done|]. by destruct (k p s c).
  - inversion Hm; subst. by eapply IHa.
  - inversion Hm as [| | | | | | | |? ? ? ? Hb| | ]; subst. by rewrite Hb.
  - inversion Hm as [| | | | | | | | |? ? ? ? Hb| ]; subst. by rewrite Hb.
  - inversion Hm as [| | | | | | | | | |? ? ? Hb]; subst. by rewrite Hb.
Qed.

(** If every character outside [P] starts a match that consumes something, a
    substitution leaves only characters of [P] and of the replacement. *)
Lemma re_sub_chars (P : ascii → bool) (r : re) (tpl : list piece) (s : string) :
  (∀ prev a s, P a = false → ∃ t c, re_match_at r prev (String a s) = Some (t, c) ∧
    (String.length t < String.length (String a s))%nat) →
  (∀ c, str_forallb P (expand tpl c) = true) →
  str_forallb P (re_sub r tpl s) = true.
Proof.
  intros Hbad Htpl. unfold re_sub.
  enough (∀ n prev s, (String.length s ≤ n)%nat → str_forallb P (sub_from n r tpl prev s) = true)
    by auto.
  intros n. induction n as [|n IH]; intros prev [|a s'] Hl; simpl in Hl; try done; [lia|].
  cbn [sub_from].
  assert (P a = false → ∃ t c, re_match_at r prev (String a s') = Some (t, c) ∧
    (String.length t < String.length (String a s'))%nat) as Ha by apply Hbad.
  destruct (re_match_at r prev (String a s')) as [[t c]|] eqn:E.
  - destruct (Nat.ltb_spec (String.length t) (String.length (String a s'))) as [Hlt|Hge].
    + rewrite str_forallb_app, Htpl. simpl in Hlt. apply IH. lia.
    + cbn [str_forallb]. destruct (P a) eqn:EP; [apply IH; lia|].
      destruct (Ha eq_refl) as (t' & c' & [= <- <-] & Hlt). lia.
  - cbn [str_forallb]. destruct (P a) eqn:EP; [apply IH; lia|].
    by destruct (Ha eq_refl) as (t' & c' & [=] & _).
Qed.

(** A single set matches exactly its characters. *)
Lemma re_match_at_set ic neg rs prev a s :
  set_has ic neg rs a = true → re_match_at (RSet ic neg rs) prev (String a s) = Some (s, []).
Proof. unfold re_match_at. simpl. by intros ->. Qed.

(** Replacing single characters by single characters keeps the length. *)
Lemma re_sub_set_length ic neg rs x s :
  String.length (re_sub (RSet ic neg rs) [PLit (String x EmptyString)] s) = String.length s.
Proof.
  unfold re_sub.
  enough (∀ n prev s, (String.length s ≤ n)%nat →
    String.length (sub_from n (RSet ic neg rs) [PLit (String x EmptyString)] prev s) =
    String.length s) by auto.
  intros n. induction n as [|n IH]; intros prev [|a s'] Hl; simpl in Hl; try done.
  cbn [sub_from]. unfold re_match_at. cbn [rmatch]. destruct (set_has ic neg rs a).
  - rewrite (proj2 (Nat.ltb_lt _ _)) by (simpl; lia). simpl. rewrite IH; lia.
  - simpl. rewrite IH; lia.
Qed.

(** A text without characters of the set stays. *)
Lemma re_sub_set_id ic neg rs tpl s :
  str_forallb (λ c, negb (set_has ic neg rs c)) s = true → re_sub (RSet ic neg rs) tpl s = s.
Proof.
  unfold re_sub.
  enough (∀ n prev, str_forallb (λ c, negb (set_has ic neg rs c)) s = true →
    sub_from n (RSet ic neg rs) tpl prev s = s) by auto.
  induction s as [|a s IH]; intros [|n] prev; try done. cbn [str_forallb sub_from].
  intros [Ha Hs]%andb_true_iff. unfold re_match_at. cbn [rmatch].
  apply negb_true_iff in Ha. rewrite Ha. f_equal. by apply IH.
Qed.

(** What a repeated set consumes. *)
Lemma matches_star_set g ic neg rs p s c p' s' c' :
  matches (RStar g (RSet ic neg rs)) p s c p' s' c' →
  ∃ u, s = u +:+ s' ∧ str_forallb (set_has ic neg rs) u = true.
Proof.
  intros Hm. remember (RStar _ _) as r eqn:Hr. induction Hm; try discriminate Hr.
  - by exists EmptyString.
  - injection Hr as -> ->. destruct (IHHm2 eq_refl) as (u & -> & Hu).
    inversion Hm1; subst. exists (String a u). simpl. split; [done|]. by rewrite Hu, andb_true_r.
Qed.

(** One or more characters of a set. *)
Lemma re_match_at_plus ic neg rs prev a s :
  set_has ic neg rs a = true →
  ∃ t c, re_match_at (RSeq (RSet ic neg rs) (RStar true (RSet ic neg rs))) prev (String a s) =
         Some (t, c) ∧ (String.length t < String.length (String a s))%nat.
Proof.
  intros Ha. unfold re_match_at. simpl. rewrite Ha.
  destruct (star_loop _ _ _ _ _ _ _) as [[t c]|] eqn:E.
  - exists t, c. split; [done|].
    change (rmatch (RStar true (RSet ic neg rs)) (Some a) s [] (λ _ s' c0, Some (s', c0)) =
            Some (t, c)) in E.
    apply rmatch_sound in E as (p' & s' & c' & Hm & [= -> ->]).
    enough (String.length t ≤ String.length s)%nat by lia.
    clear Ha. remember (RStar _ _) as r eqn:Hr. induction Hm; try discriminate Hr; try lia.
    injection Hr as -> ->. specialize (IHHm2 eq_refl). lia.
  - destruct (rmatch_complete (RStar true (RSet ic neg rs)) (Some a) s [] (Some a) s []
      (λ _ s' c0, Some (s', c0))) as [y Hy]; [constructor|done|].
    simpl in Hy. congruence.
Qed.

(** Sequences nested to the right, so that what a match starts with comes first. *)
Fixpoint right_nested (r k : re) : re :=
  match r with
  | RSeq a b => right_nested a (right_nested b k)
  | _ => RSeq r k
  end.

Lemma matches_right_nested r k p s c p1 s1 c1 p2 s2 c2 :
  matches r p s c p1 s1 c1 → matches k p1 s1 c1 p2 s2 c2 →
  matches (right_nested r k) p s c p2 s2 c2.
Proof.
  intros Hr. revert k p2 s2 c2.
  induction Hr; intros k0 p3 s3 c3 Hk; simpl; eauto using matches.
Qed.

(** A set of one character. *)
Lemma set_has_single n c : set_has false false [(n, n)] c = true → c = ascii_of_N n.
Proof.
  unfold set_has, in_ranges, code. simpl. rewrite orb_false_r. intros H.
  destruct ((n <=? N_of_ascii c) && (N_of_ascii c <=? n))%N eqn:E; [|done].
  apply andb_true_iff in E as [?%N.leb_le ?%N.leb_le].
  rewrite <- (ascii_N_embedding c). f_equal. lia.
Qed.

(** ** Symbolic execution on a text of known shape *)

Section steps.
Context {R : Type} (k : option ascii → string → caps → option R).

Lemma rmatch_seq a b p s c :
  rmatch (RSeq a b) p s c k = rmatch a p s c (λ p s c, rmatch b p s c k).
Proof. done. Qed.

Lemma rmatch_alt a b p s c :
  rmatch (RAlt a b) p s c k =
  match rmatch a p s c k with Some x => Some x | None => rmatch b p s c k end.
Proof. done. Qed.

Lemma rmatch_group i a p s c :
  rmatch (RGroup i a) p s c k = rmatch a p s c (λ p s' c', k p s' ((i, span s s') :: c')).
Proof. done. Qed.

Lemma rmatch_eps p s c : rmatch REps p s c k = k p s c.
Proof. done. Qed.

Lemma rmatch_set_true ic neg rs p a s c :
  set_has ic neg rs a = true → rmatch (RSet ic neg rs) p (String a s) c k = k (Some a) s c.
Proof. simpl. by intros ->. Qed.

Lemma rmatch_set_false ic neg rs p a s c :
  set_has ic neg rs a = false → rmatch (RSet ic neg rs) p (String a s) c k = None.
Proof. simpl. by intros ->. Qed.

Lemma rmatch_bol m p s c : at_bol m p = true → rmatch (RBol m) p s c k = k p s c.
Proof. simpl. by intros ->. Qed.

Lemma rmatch_eol m p s c : at_eol m s = true → rmatch (REol m) p s c k = k p s c.
Proof. simpl. by intros ->. Qed.
End steps.

(** Runs the matcher as far as the known characters allow; [assumption] settles
    the sets of unknown ones. *)
Ltac re_step :=
  match goal with
  | |- context [rmatch (RSet ?i ?n ?r) ?p (String ?a ?s) ?c ?k] =>
      first [ rewrite (rmatch_set_true k i n r p a s c) by (assumption || reflexivity)
            | rewrite (rmatch_set_false k i n r p a s c) by (assumption || reflexivity) ]
  | |- context [rmatch (RSeq ?a ?b) ?p ?s ?c ?k] => rewrite (rmatch_seq k a b p s c)
  | |- context [rmatch (RGroup ?i ?a) ?p ?s ?c ?k] => rewrite (rmatch_group k i a p s c)
  | |- context [rmatch REps ?p ?s ?c ?k] => rewrite (rmatch_eps k p s c)
  | |- context [rmatch (RBol ?m) ?p ?s ?c ?k] =>
      rewrite (rmatch_bol k m p s c) by reflexivity
  | |- context [rmatch (REol ?m) ?p ?s ?c ?k] =>
      rewrite (rmatch_eol k m p s c) by reflexivity
  | |- context [rmatch (RAlt ?a ?b) ?p ?s ?c ?k] => rewrite (rmatch_alt k a b p s c)
  end; cbv beta iota.
