(* ===== verification/Effects.v ===== *)
(** * Stateful code that talks to the outside world

    The program's services keep an in-memory state, call Redis, start processes
    and read clocks, and any such call may raise.  A computation here takes the
    state and the trace of the calls made so far, and gives a value or an
    exception with the state and trace reached: as in Python, what happened
    before an exception stays done.  The outside world is a record of oracles,
    one per kind of call, each of which sees the trace. *)

From S2P Require Import Prelude PyStr.
Local Open Scope string_scope.
Local Open Scope list_scope.

(** ** The calls *)

Definition fields := list (string * string).

(** What is asked of Redis, of the process table, of the repository provider, of
    programs, of the model (by the ReAct loop, or for a post-mortem), of the code
    inspector, of a signing-key server, of container engines, of git and of a
    forge. *)
Inductive cmd :=
| XAdd (stream : string) (f : fields)
| XAddTrim (stream : string) (f : fields) (maxlen : Z)
| XAck (stream group id : string)
| XGroupCreate (stream group : string) (id : option string)
| XReadGroup (group consumer stream id : string)
| XPending (stream group : string)
| XRange (stream id : string)
| XAutoClaim (stream group consumer : string)
| SMembers (key : string)
| SAdd (key member : string)
| SRem (key member : string)
| HGetAll (key : string)
| HSet (key : string) (f : fields)
| Expire (key : string) (seconds : Z)
| Delete (key : string)
| Exists (key : string)
| Get (key : string)
| SetEx (key value : string) (seconds : Z)
| Ttl (key : string)
| StartProcess (bug_id : string) (env : fields)
| StopProcess (bug_id : string)
| ProviderCall (method : string) (args : list string)
| Subprocess (argv : list string)
| LlmInvoke (messages : nat)
| PostMortem (messages : nat)
| Inspect (paths : list string)
| Jwks (method url : string)
| CreateWorker (api bug_id : string) (spec : list (string * pyval))
| StopWorker (id : string)
| PollWorker (id : string)
| Git (cwd : string) (args : list string)
| Http (method url : string) (headers params : fields) (proxy : option string)
| FileOp (op path : string).

#[export] Instance cmd_eq_dec : EqDecision cmd.
Proof. solve_decision. Defined.

(** A call and whether it succeeded. *)
Definition event : Type := cmd * bool.
Definition trace := list event.

(** ** The monad *)

Definition M (S A : Type) : Type := S → trace → res A * (S * trace).

#[export] Instance M_ret S : MRet (M S) := λ A a s h, (Ok a, (s, h)).
#[export] Instance M_bind S : MBind (M S) := λ A B f m s h,
  match m s h with
  | (Ok a, (s', h')) => f a s' h'
  | (Raise e, (s', h')) => (Raise e, (s', h'))
  end.

Definition get {S} : M S S := λ s h, (Ok s, (s, h)).
Definition modify {S} (f : S → S) : M S unit := λ s h, (Ok tt, (f s, h)).
Definition throw {S A} (e : exn) : M S A := λ s h, (Raise e, (s, h)).
Definition lift {S A} (r : res A) : M S A := λ s h, (r, (s, h)).

(** Something read off the world without a call that could fail. *)
Definition observe {S A} (f : trace → A) : M S A := λ s h, (Ok (f h), (s, h)).

(** A call whose reply the oracle [f] gives, from the trace before it. *)
Definition call {S A} (c : cmd) (f : trace → res A) : M S A := λ s h,
  (f h, (s, h ++ [(c, is_ok (f h))])).

(** A call to a world that has a state of its own. *)
Definition act {S A} (c : cmd) (f : S → res A * S) : M S A := λ s h,
  ((f s).1, ((f s).2, h ++ [(c, is_ok (f s).1)])).

(** [try: m  except Exception as e: handler(e)] *)
Definition try_ {S A} (m : M S A) (handler : exn → M S A) : M S A := λ s h,
  match m s h with
  | (Ok a, st) => (Ok a, st)
  | (Raise e, (s', h')) => handler e s' h'
  end.

(** [try: m  except Exception: pass] *)
Definition ignore {S} (m : M S unit) : M S unit := try_ m (λ _, mret tt).

(** [for x in l: f(x)] *)
Fixpoint for_ {S A} (l : list A) (f : A → M S unit) : M S unit :=
  match l with
  | [] => mret tt
  | x :: l' => _ ← f x; for_ l' f
  end.

Definition run {S A} (m : M S A) (s : S) (h : trace) : res A * (S * trace) := m s h.
Definition end_state {S A} (r : res A * (S * trace)) : S := r.2.1.
Definition end_trace {S A} (r : res A * (S * trace)) : trace := r.2.2.

(** ** Reasoning *)

(** [m] keeps a relation between the trace and state before and after, however
    it ends. *)
Definition preserves {S A} (R : S → trace → S → trace → Prop) (m : M S A) : Prop :=
  ∀ s h, R s h (end_state (m s h)) (end_trace (m s h)).

Section preserves.
Context {S : Type} (R : S → trace → S → trace → Prop).
Context (R_refl : ∀ s h, R s h s h).
Context (R_trans : ∀ s h s1 h1 s2 h2, R s h s1 h1 → R s1 h1 s2 h2 → R s h s2 h2).

Lemma preserves_ret {A} (a : A) : preserves R (mret a).
Proof. intros s h. apply R_refl. Qed.

Lemma preserves_throw {A} (e : exn) : preserves R (throw (A := A) e).
Proof. intros s h. apply R_refl. Qed.

Lemma preserves_lift {A} (r : res A) : preserves R (lift r).
Proof. intros s h. apply R_refl. Qed.

Lemma preserves_get : preserves R get.
Proof. intros s h. apply R_refl. Qed.

Lemma preserves_observe {A} (f : trace → A) : preserves R (observe f).
Proof. intros s h. apply R_refl. Qed.

Lemma preserves_bind {A B} (m : M S A) (f : A → M S B) :
  preserves R m → (∀ a, preserves R (f a)) → preserves R (m ≫= f).
Proof.
  intros Hm Hf s h. specialize (Hm s h). unfold mbind, M_bind, end_state, end_trace in *.
  destruct (m s h) as [[a|e] [s1 h1]]; simpl in *; [|done].
  eapply R_trans; [exact Hm|]. apply Hf.
Qed.

Lemma preserves_try {A} (m : M S A) handler :
  preserves R m → (∀ e, preserves R (handler e)) → preserves R (try_ m handler).
Proof.
  intros Hm Hf s h. specialize (Hm s h). unfold try_, end_state, end_trace in *.
  destruct (m s h) as [[a|e] [s1 h1]]; simpl in *; [done|].
  eapply R_trans; [exact Hm|]. apply Hf.
Qed.

Lemma preserves_ignore (m : M S unit) : preserves R m → preserves R (ignore m).
Proof. intros Hm. apply preserves_try; [done|]. intros e. apply preserves_ret. Qed.

Lemma preserves_for {A} (l : list A) (f : A → M S unit) :
  (∀ x, preserves R (f x)) → preserves R (for_ l f).
Proof.
  intros Hf. induction l as [|x l IH]; simpl; [apply preserves_ret|].
  apply preserves_bind; auto.
Qed.

Lemma preserves_for_in {A} (l : list A) (f : A → M S unit) :
  (∀ x, x ∈ l → preserves R (f x)) → preserves R (for_ l f).
Proof.
  induction l as [|x l IH]; simpl; intros Hf; [apply preserves_ret|].
  apply preserves_bind; [apply Hf, elem_of_cons; by left|].
  intros _. apply IH. intros y Hy. apply Hf, elem_of_cons. by right.
Qed.

(** What follows a guarded call knows where its value comes from. *)
Lemma preserves_bind_guarded {A B} c (f : trace → res A) (a : A) (k : A → M S B) :
  (∀ s h b, R s h s (h ++ [(c, b)])) →
  (∀ v, v = a ∨ (∃ h, f h = Ok v) → preserves R (k v)) →
  preserves R (try_ (call c f) (λ _, mret a) ≫= k).
Proof.
  intros Hc Hk s h. unfold try_, call, mbind, M_bind, end_state, end_trace. simpl.
  destruct (f h) as [v|e] eqn:E; simpl; (eapply R_trans; [apply Hc|]); apply Hk; eauto.
Qed.

Lemma preserves_call {A} c (f : trace → res A) :
  (∀ s h b, R s h s (h ++ [(c, b)])) → preserves R (call c f).
Proof. intros Hc s h. apply Hc. Qed.

Lemma preserves_act {A} c (f : S → res A * S) :
  (∀ s h b, R s h (f s).2 (h ++ [(c, b)])) → preserves R (act c f).
Proof. intros Hc s h. apply Hc. Qed.

Lemma preserves_modify (f : S → S) : (∀ s h, R s h (f s) h) → preserves R (modify f).
Proof. intros Hf s h. apply Hf. Qed.

End preserves.

(** The hint set that walks through a computation built from these pieces. *)
Create HintDb effects.
#[export] Hint Resolve preserves_ret preserves_throw preserves_lift preserves_get preserves_observe
  preserves_bind preserves_try preserves_ignore preserves_for preserves_call
  preserves_modify : effects.

Lemma bind_run {S A B} (m : M S A) (f : A → M S B) s h :
  (m ≫= f) s h = match m s h with
                 | (Ok a, (s', h')) => f a s' h'
                 | (Raise e, (s', h')) => (Raise e, (s', h'))
                 end.
Proof. done. Qed.

Lemma bind_ok {S A B} (m : M S A) (f : A → M S B) s h b st :
  (m ≫= f) s h = (Ok b, st) →
  ∃ a s1 h1, m s h = (Ok a, (s1, h1)) ∧ f a s1 h1 = (Ok b, st).
Proof.
  rewrite bind_run. destruct (m s h) as [[a|e] [s1 h1]]; [|done]. intros Hf. by exists a, s1, h1.
Qed.

(** One step of a computation, for each way it can start. *)
Section steps.
Context {S A B : Type}.

Lemma bind_get (k : S → M S B) s h : (get ≫= k) s h = k s s h.
Proof. done. Qed.
Lemma bind_observe (f : trace → A) (k : A → M S B) s h : (observe f ≫= k) s h = k (f h) s h.
Proof. done. Qed.
Lemma bind_modify (f : S → S) (k : unit → M S B) s h : (modify f ≫= k) s h = k tt (f s) h.
Proof. done. Qed.
Lemma bind_call_ok c (f : trace → res A) (k : A → M S B) s h a :
  f h = Ok a → (call c f ≫= k) s h = k a s (h ++ [(c, true)]).
Proof. intros Hf. rewrite bind_run. unfold call. by rewrite Hf. Qed.
Lemma bind_call_raise c (f : trace → res A) (k : A → M S B) s h e :
  f h = Raise e → (call c f ≫= k) s h = (Raise e, (s, h ++ [(c, false)])).
Proof. intros Hf. rewrite bind_run. unfold call. by rewrite Hf. Qed.
Lemma ignore_call c (f : trace → res unit) (s : S) h :
  ignore (call c f) s h = (Ok tt, (s, h ++ [(c, is_ok (f h))])).
Proof. unfold ignore, try_, call. by destruct (f h) as [[]|e]. Qed.
Lemma bind_ignore_call c (f : trace → res unit) (k : unit → M S B) s h :
  (ignore (call c f) ≫= k) s h = k tt s (h ++ [(c, is_ok (f h))]).
Proof. rewrite bind_run, ignore_call. done. Qed.
End steps.

(** Runs a computation one call at a time, splitting on what the oracle says. *)
Ltac step_call :=
  match goal with
  | |- context [(call ?c ?f ≫= ?k) ?s ?h] =>
      let E := fresh "E" in
      destruct (f h) as [?|?] eqn:E;
      [rewrite (bind_call_ok c f k s h _ E)|rewrite (bind_call_raise c f k s h _ E)]
  | |- context [(get ≫= ?k) ?s ?h] => rewrite (bind_get k s h)
  | |- context [(observe ?f ≫= ?k) ?s ?h] => rewrite (bind_observe f k s h)
  | |- context [(modify ?f ≫= ?k) ?s ?h] => rewrite (bind_modify f k s h)
  | |- context [(ignore (call ?c ?f) ≫= ?k) ?s ?h] => rewrite (bind_ignore_call c f k s h)
  end.

(** ** Triples

    From a state and trace where [P] holds, [m] ends where [Q] holds of what it
    returns, or where [E] holds of what it raises. *)
Definition hoare {S A} (P : S → trace → Prop) (m : M S A) (Q : A → S → trace → Prop)
    (E : exn → S → trace → Prop) : Prop :=
  ∀ s h, P s h →
  match m s h with
  | (Ok a, (s', h')) => Q a s' h'
  | (Raise e, (s', h')) => E e s' h'
  end.

Section hoare.
Context {S : Type}.
Implicit Types P : S → trace → Prop.

Lemma hoare_ret {A} (a : A) P (Q : A → S → trace → Prop) E :
  (∀ s h, P s h → Q a s h) → hoare P (mret a) Q E.
Proof. intros HQ s h Hp. by apply HQ. Qed.

Lemma hoare_throw {A} e P (Q : A → S → trace → Prop) (E : exn → S → trace → Prop) :
  (∀ s h, P s h → E e s h) → hoare P (throw e) Q E.
Proof. intros HE s h Hp. by apply HE. Qed.

Lemma hoare_lift {A} (r : res A) P (Q : A → S → trace → Prop) (E : exn → S → trace → Prop) :
  (∀ a s h, r = Ok a → P s h → Q a s h) → (∀ e s h, r = Raise e → P s h → E e s h) → hoare P (lift r) Q E.
Proof. intros HQ HE s h Hp. unfold lift. destruct r; [by apply HQ|by apply HE]. Qed.

Lemma hoare_get P (Q : S → S → trace → Prop) E : (∀ s h, P s h → Q s s h) → hoare P get Q E.
Proof. intros HQ s h Hp. by apply HQ. Qed.

Lemma hoare_bind {A B} P (m : M S A) (f : A → M S B) R Q E :
  hoare P m R E → (∀ a, hoare (R a) (f a) Q E) → hoare P (m ≫= f) Q E.
Proof.
  intros Hm Hf s h Hp. rewrite bind_run. specialize (Hm s h Hp).
  destruct (m s h) as [[a|e] [s' h']]; [|done]. by apply Hf.
Qed.

Lemma hoare_try {A} P (m : M S A) handler (Q : A → S → trace → Prop) E E' :
  hoare P m Q E' → (∀ e, hoare (E' e) (handler e) Q E) → hoare P (try_ m handler) Q E.
Proof.
  intros Hm Hf s h Hp. unfold try_. specialize (Hm s h Hp).
  destruct (m s h) as [[a|e] [s' h']]; [done|]. by apply Hf.
Qed.

Lemma hoare_act {A} c (f : S → res A * S) P (Q : A → S → trace → Prop) E :
  (∀ s h, P s h → match (f s).1 with
                  | Ok a => Q a (f s).2 (h ++ [(c, true)])
                  | Raise e => E e (f s).2 (h ++ [(c, false)])
                  end) → hoare P (act c f) Q E.
Proof. intros Hf s h Hp. unfold act. specialize (Hf s h Hp). by destruct (f s).1. Qed.

Lemma hoare_weaken {A} P P' (m : M S A) (Q Q' : A → S → trace → Prop) (E E' : exn → S → trace → Prop) :
  hoare P' m Q' E' → (∀ s h, P s h → P' s h) → (∀ a s h, Q' a s h → Q a s h) →
  (∀ e s h, E' e s h → E e s h) → hoare P m Q E.
Proof.
  intros Hm HP HQ HE s h Hp. specialize (Hm s h (HP s h Hp)).
  destruct (m s h) as [[a|e] [s' h']]; [by apply HQ|by apply HE].
Qed.
End hoare.

(** The successful calls of a trace. *)
Definition done_calls (h : trace) : list cmd := map fst (List.filter snd h).

Lemma done_calls_app h h' : done_calls (h ++ h') = done_calls h ++ done_calls h'.
Proof. unfold done_calls. by rewrite List.filter_app, map_app. Qed.

(** How many calls of a trace satisfy [P], successful or not. *)
Definition count_calls (P : cmd → bool) (h : trace) : nat :=
  List.length (List.filter (λ e, P e.1) h).

Lemma count_calls_app P h h' : count_calls P (h ++ h') = (count_calls P h + count_calls P h')%nat.
Proof. unfold count_calls. by rewrite List.filter_app, length_app. Qed.
