(* ===== verification/ApplyPatch.v ===== *)
(** * Applying the line edits of a fix

    Model of [bf_worker/services/apply_patch.py]: a change anchors on the text
    of an existing line, its line number is a hint, the replacement is rebased
    onto the indentation found on disk and spliced in.  A file system is a
    finite map from paths to file contents. *)

From S2P Require Import Prelude PyStr.
Local Open Scope string_scope.
Local Open Scope list_scope.

Module ApplyPatch.

(** Path to contents; a missing key is a missing file. *)
Notation fs := (gmap string string).

Definition PatchAnchorError (m : string) : exn := Exn "PatchAnchorError" m.
Definition FileNotFoundError (m : string) : exn := Exn "FileNotFoundError" m.

(** [Path.read_text()] in text mode. *)
Definition read_text (f : fs) (path : string) : res string :=
  match f !! path with
  | Some t => Ok (universal_newlines t)
  | None => Raise (FileNotFoundError
                     ("[Errno 2] No such file or directory: " +:+ repr_str path))
  end.

Definition is_indent (c : ascii) : bool := ch_eq c " "%char || ch_eq c c_tab.

(** The leading blanks of a line. *)
Definition leading_ws (s : string) : string :=
  str_take (String.length s - String.length (str_lstrip is_indent s)) s.

Definition reindent_line (source_indent on_disk_indent line : string) : string :=
  if negb (str_nonempty (str_strip line)) then line
  else if str_nonempty on_disk_indent && startswith on_disk_indent line then line
  else if str_nonempty source_indent && startswith source_indent line
       then on_disk_indent +:+ str_drop (String.length source_indent) line
  else if bool_decide (source_indent = EmptyString) then on_disk_indent +:+ line
  else line.

Definition reindent_new_line (new_line source_indent on_disk_indent : string) : string :=
  if bool_decide (source_indent = on_disk_indent) then new_line
  else str_join nl (map (reindent_line source_indent on_disk_indent) (str_split c_nl new_line)).

(** [[i for i, s in enumerate(l) if P(s)]], counting from [k]. *)
Fixpoint positions (P : string → bool) (k : nat) (l : list string) : list nat :=
  match l with
  | [] => []
  | s :: l' => if P s then k :: positions P (S k) l' else positions P (S k) l'
  end.

(** The element a zero-based integer index denotes, when [0 <= hint < n]. *)
Definition line_at (src_lines : list string) (hint : option Z) : option string :=
  match hint with
  | Some h => if (0 <=? h)%Z then src_lines !! Z.to_nat h else None
  | None => None
  end.

Section with_repr.
Context {Hrepr : FloatRepr}.

Definition resolve_index (src_lines : list string) (change : pyval) (src_filepath : string) :
    res nat :=
  match change with
  | PDict ch =>
      let ln := dget "line_number" ch in
      match dget "original_line" ch with
      | (PNone | PStr EmptyString) as original =>
          Raise (PatchAnchorError
            (src_filepath +:+ ": fix is missing `original_line` (got " +:+ py_repr original +:+
             "). This applier REPLACES one existing line; it cannot insert. Set " +:+
             "`original_line` to the verbatim current text of the line to change."))
      | original =>
          let hint := (λ z, z - 1)%Z <$> as_int ln in
          let is_original s := match original with
                               | PStr o => bool_decide (s = o) | _ => false end in
          let exact := positions is_original 0 src_lines in
          if default false (is_original <$> line_at src_lines hint)
          then Ok (Z.to_nat (default 0%Z hint))
          else match exact with
          | [i] => Ok i
          | _ :: _ :: _ =>
              if default false ((λ h, mem h (Z.of_nat <$> exact)) <$> hint)
              then Ok (Z.to_nat (default 0%Z hint))
              else Raise (PatchAnchorError
                (src_filepath +:+ ": `original_line` " +:+ py_repr original +:+ " occurs " +:+
                 str_of_nat (List.length exact) +:+ " times and line_number=" +:+ py_str ln +:+
                 " points at none of them. " +:+
                 "Give a line_number that matches one of the occurrences."))
          | [] =>
              match original with
              | PStr o =>
                  let key := str_strip o in
                  match (if str_nonempty key
                         then positions (λ s, bool_decide (str_strip s = key)) 0 src_lines
                         else []) with
                  | [i] => Ok i
                  | _ =>
                      Raise (PatchAnchorError
                        (src_filepath +:+ ": could not find `original_line` " +:+
                         py_repr original +:+ " in the current file (line_number=" +:+
                         py_str ln +:+ " currently holds " +:+
                         match line_at src_lines hint with
                         | Some s => repr_str s | None => "<out of range>" end +:+
                         "). The file may have been changed by a previous attempt — set " +:+
                         "`original_line` to the verbatim CURRENT text of the line you want to replace."))
                  end
              | v => Raise (attribute_error
                       ("'" +:+ type_name v +:+ "' object has no attribute 'strip'"))
              end
          end
      end
  | v =>
      Raise (PatchAnchorError
        (src_filepath +:+ ": each fix must be an object with line_number/original_line/new_line, got "
         +:+ type_name v +:+ ": " +:+ str_take 80 (py_repr v)))
  end.

(** [l[i:i+1] = new] *)
Definition splice (i : nat) (new l : list string) : list string :=
  take i l ++ new ++ drop (S i) l.

(** One turn of the loop of [apply_change_infos]. *)
Definition apply_one (src_filepath : string) (src_lines : list string) (change : pyval) :
    res (list string) :=
  idx ← resolve_index src_lines change src_filepath;
  match change with
  | PDict ch =>
      let source_indent := leading_ws (py_str (default (PStr EmptyString) (dict_get "original_line" ch))) in
      let on_disk_indent := leading_ws (default EmptyString (src_lines !! idx)) in
      match dict_get "new_line" ch with
      | None => Raise (key_error "'new_line'")
      | Some v =>
          let rebased := reindent_new_line (py_str v) source_indent on_disk_indent in
          Ok (splice idx (str_split c_nl rebased) src_lines)
      end
  | _ => Raise (attribute_error "get")
  end.

Fixpoint apply_all (src_filepath : string) (src_lines : list string) (changes : list pyval) :
    res (list string) :=
  match changes with
  | [] => Ok src_lines
  | c :: cs =>
      src_lines' ← apply_one src_filepath src_lines c;
      apply_all src_filepath src_lines' cs
  end.

Definition apply_change_infos (f : fs) (src_filepath : string) (change_infos : list pyval) :
    res fs :=
  text ← read_text f src_filepath;
  src_lines ← apply_all src_filepath (str_split c_nl text) change_infos;
  Ok (<[src_filepath := str_join nl src_lines]> f).

(** ** Resolution *)

Lemma elem_of_positions P k l i :
  i ∈ positions P k l ↔ ∃ j s, i = (k + j)%nat ∧ l !! j = Some s ∧ P s = true.
Proof.
  revert k. induction l as [|s l IH]; intros k; simpl.
  - split; [by intros ?%elem_of_nil|]. naive_solver.
  - destruct (P s) eqn:E; rewrite ?elem_of_cons, IH; split.
    + intros [->|(j & s' & -> & Hj & Hp)].
      * exists 0%nat, s. by rewrite Nat.add_0_r.
      * exists (S j), s'. split; [lia|done].
    + intros ([|j] & s' & -> & Hj & Hp); simplify_eq/=; [left; lia|].
      right. exists j, s'. split; [lia|done].
    + intros (j & s' & -> & Hj & Hp). exists (S j), s'. split; [lia|done].
    + intros ([|j] & s' & -> & Hj & Hp); simplify_eq/=; [congruence|].
      exists j, s'. split; [lia|done].
Qed.

Lemma elem_of_positions0 P l i :
  i ∈ positions P 0 l ↔ ∃ s, l !! i = Some s ∧ P s = true.
Proof. rewrite elem_of_positions. naive_solver. Qed.

Lemma positions_NoDup P k l : NoDup (positions P k l).
Proof.
  revert k. induction l as [|s l IH]; intros k; simpl; [constructor|].
  destruct (P s); [|done]. constructor; [|done].
  rewrite elem_of_positions. intros (j & s' & Hk & _). lia.
Qed.

Lemma positions_nil P l : positions P 0 l = [] ↔ ∀ s, s ∈ l → P s = false.
Proof.
  split.
  - intros Hnil s [i Hi]%list_elem_of_lookup. destruct (P s) eqn:E; [|done].
    assert (i ∈ positions P 0 l) as Hin by (apply elem_of_positions0; eauto).
    rewrite Hnil in Hin. by apply elem_of_nil in Hin.
  - intros Hall. destruct (positions P 0 l) as [|i r] eqn:E; [done|].
    assert (i ∈ positions P 0 l) as (s & Hi & Hp)%elem_of_positions0
      by (rewrite E; left).
    rewrite Hall in Hp; [done|]. by eapply list_elem_of_lookup_2.
Qed.

(** Exactly one position satisfies [P]. *)
Lemma positions_single P l i :
  positions P 0 l = [i] ↔
  (∃ s, l !! i = Some s ∧ P s = true) ∧
  ∀ j s, l !! j = Some s → P s = true → j = i.
Proof.
  split.
  - intros E. split; [apply elem_of_positions0; rewrite E; left|].
    intros j s Hj Hp.
    assert (j ∈ positions P 0 l) as Hin by (apply elem_of_positions0; eauto).
    rewrite E in Hin. by apply list_elem_of_singleton in Hin.
  - intros [Hi Huniq]. apply elem_of_positions0 in Hi.
    pose proof (positions_NoDup P 0 l) as Hnd.
    assert (∀ j, j ∈ positions P 0 l → j = i) as Hall.
    { intros j (s & Hj & Hp)%elem_of_positions0. eauto. }
    destruct (positions P 0 l) as [|a [|b r]]; [by apply elem_of_nil in Hi| |].
    + f_equal. apply Hall. left.
    + apply NoDup_cons in Hnd as [Hnot _]. destruct Hnot.
      rewrite (Hall a), (Hall b); [left| |]; repeat constructor.
Qed.

(** What it means for the text [o], with a hint, to anchor at line [i]. *)
Definition anchored_at (src_lines : list string) (hint : option Z) (o : string) (i : nat) : Prop :=
  (src_lines !! i = Some o ∧ hint = Some (Z.of_nat i)) ∨
  (src_lines !! i = Some o ∧ ∀ j, src_lines !! j = Some o → j = i) ∨
  (o ∉ src_lines ∧ str_strip o ≠ EmptyString ∧
   (∃ s, src_lines !! i = Some s ∧ str_strip s = str_strip o) ∧
   ∀ j s, src_lines !! j = Some s → str_strip s = str_strip o → j = i).

Definition hint_of (ch : list (string * pyval)) : option Z :=
  (λ z, z - 1)%Z <$> as_int (dget "line_number" ch).

Lemma line_at_Some l hint s :
  line_at l hint = Some s ↔ ∃ i, hint = Some (Z.of_nat i) ∧ l !! i = Some s.
Proof.
  destruct hint as [h|]; simpl; [|naive_solver].
  destruct (Z.leb_spec 0 h) as [Hh|Hh].
  - split; [intros Hl; exists (Z.to_nat h); rewrite Z2Nat.id; auto|].
    intros (i & [= ->] & Hl). by rewrite Nat2Z.id.
  - split; [done|]. intros (i & [= ->] & _). lia.
Qed.

Lemma positions_exact_nil o l :
  positions (λ s, bool_decide (s = o)) 0 l = [] ↔ o ∉ l.
Proof.
  rewrite positions_nil. split.
  - intros Hall Hin%Hall. by rewrite bool_decide_eq_false in Hin.
  - intros Hnot s Hs. apply bool_decide_eq_false. by intros ->.
Qed.

Lemma positions_exact_single o l i :
  positions (λ s, bool_decide (s = o)) 0 l = [i] ↔
  l !! i = Some o ∧ ∀ j, l !! j = Some o → j = i.
Proof.
  rewrite positions_single. setoid_rewrite bool_decide_eq_true. naive_solver.
Qed.

Lemma anchored_hint l hint o i :
  line_at l hint = Some o → anchored_at l hint o i ↔ i = Z.to_nat (default 0%Z hint).
Proof.
  intros (h & -> & Hh)%line_at_Some. simpl. rewrite Nat2Z.id. split.
  - intros [[_ ?]|[[_ Hu]|(Hnot & _)]]; [by simplify_eq|symmetry; auto|].
    destruct Hnot. by eapply list_elem_of_lookup_2.
  - intros ->. by left.
Qed.

(** The hint points at no occurrence: only a unique occurrence anchors. *)
Lemma anchored_no_hint l hint o i :
  line_at l hint ≠ Some o →
  anchored_at l hint o i ↔
  positions (λ s, bool_decide (s = o)) 0 l = [i] ∨
  (positions (λ s, bool_decide (s = o)) 0 l = [] ∧
   str_nonempty (str_strip o) = true ∧
   positions (λ s, bool_decide (str_strip s = str_strip o)) 0 l = [i]).
Proof.
  intros Hh. rewrite positions_exact_single, positions_exact_nil, positions_single.
  setoid_rewrite bool_decide_eq_true.
  assert (str_nonempty (str_strip o) = true ↔ str_strip o ≠ EmptyString) as ->
    by (destruct (str_strip o); simpl; split; congruence).
  unfold anchored_at. split; [|naive_solver].
  intros [[Hi ->]|[?|?]]; [|by left|by right].
  destruct Hh. apply line_at_Some. eauto.
Qed.

Lemma line_at_is_original l hint o :
  default false ((λ s, bool_decide (s = o)) <$> line_at l hint) = true ↔
  line_at l hint = Some o.
Proof. destruct (line_at l hint); simpl; rewrite ?bool_decide_eq_true; naive_solver. Qed.

Lemma hint_not_among l hint o :
  line_at l hint ≠ Some o →
  default false ((λ h, mem h (Z.of_nat <$> positions (λ s, bool_decide (s = o)) 0 l)) <$> hint)
  = false.
Proof.
  intros Hne. destruct hint as [h|]; [simpl|done].
  apply not_true_iff_false. rewrite mem_spec.
  intros (i & -> & (s & Hi & ->%bool_decide_eq_true)%elem_of_positions0)%list_elem_of_fmap.
  destruct Hne. apply line_at_Some. eauto.
Qed.

Lemma resolve_index_str l ch o path i :
  dget "original_line" ch = PStr o → o ≠ EmptyString →
  resolve_index l (PDict ch) path = Ok i ↔ anchored_at l (hint_of ch) o i.
Proof.
  intros Ho Hne. unfold resolve_index. rewrite Ho. fold (hint_of ch).
  destruct o as [|a o]; [done|]. set (oo := String a o) in *.
  destruct (default false _) eqn:Eh.
  - apply line_at_is_original in Eh. rewrite (anchored_hint _ _ _ i Eh). naive_solver.
  - apply not_true_iff_false in Eh. rewrite line_at_is_original in Eh.
    rewrite (anchored_no_hint _ _ _ i Eh).
    pose proof (hint_not_among l (hint_of ch) oo Eh) as Hnh.
    destruct (positions _ 0 l) as [|a1 [|a2 r]] eqn:Ep.
    + destruct (str_nonempty (str_strip oo)).
      2:{ split; [discriminate|]. by intros [?|(_ & ? & _)]. }
      destruct (positions (λ s, bool_decide (str_strip s = _)) 0 l) as [|b1 [|b2 r]]; split;
        try discriminate; [by intros [?|(_ & _ & ?)]| | |by intros [?|(_ & _ & ?)]].
      * intros [= ->]. by right.
      * intros [?|(_ & _ & ?)]; by simplify_eq.
    + split; [intros [= ->]; by left|]. intros [?|(? & _)]; by simplify_eq.
    + rewrite Hnh. split; [discriminate|]. by intros [?|(? & _)].
Qed.

Lemma positions_none k l : positions (λ _, false) k l = [].
Proof. revert k. induction l as [|s l IH]; intros k; [done|apply IH]. Qed.

Lemma fmap_false {A} (o : option A) : default false ((λ _, false) <$> o) = false.
Proof. by destruct o. Qed.

(** Only a non-empty text can be resolved. *)
Lemma resolve_index_Ok_inv l change path i :
  resolve_index l change path = Ok i →
  ∃ ch o, change = PDict ch ∧ dget "original_line" ch = PStr o ∧ o ≠ EmptyString.
Proof.
  destruct change as [| | | | | |ch]; try discriminate. unfold resolve_index.
  destruct (dget "original_line" ch) as [| | | |[|c o]| |] eqn:Ho; try discriminate;
    rewrite ?fmap_false, ?positions_none; simpl; try discriminate.
  intros _. by exists ch, (String c o).
Qed.

(** C30: a change is resolved to line [i] exactly when its [original_line] is a
    non-empty text anchored there: [i] is the hinted line and holds the text, or
    is the only line that does, or no line holds it and [i] is the only line
    equal to it up to surrounding blanks. *)
Theorem resolve_index_sound_complete (src_lines : list string) (change : pyval)
    (path : string) (i : nat) :
  resolve_index src_lines change path = Ok i ↔
  ∃ ch o, change = PDict ch ∧ dget "original_line" ch = PStr o ∧ o ≠ EmptyString ∧
          anchored_at src_lines (hint_of ch) o i.
Proof.
  split.
  - intros Hr. destruct (resolve_index_Ok_inv _ _ _ _ Hr) as (ch & o & -> & Ho & Hne).
    exists ch, o. repeat split; auto. by apply (resolve_index_str _ _ _ path).
  - intros (ch & o & -> & Ho & Hne & Ha). by apply resolve_index_str with o.
Qed.

(** ** The effect of one change and of a list of changes *)

Lemma anchored_strip l hint o i :
  anchored_at l hint o i → ∃ s, l !! i = Some s ∧ str_strip s = str_strip o.
Proof. unfold anchored_at. naive_solver. Qed.

Lemma apply_one_Ok path l c l' :
  apply_one path l c = Ok l' →
  ∃ ch o i s v, c = PDict ch ∧ dget "original_line" ch = PStr o ∧
    l !! i = Some s ∧ str_strip s = str_strip o ∧ dict_get "new_line" ch = Some v ∧
    l' = splice i (str_split c_nl (reindent_new_line (py_str v) (leading_ws o) (leading_ws s))) l.
Proof.
  unfold apply_one. intros (i & Hi & Hl)%res_bind_ok.
  destruct (resolve_index_Ok_inv _ _ _ _ Hi) as (ch & o & -> & Ho & Hne).
  apply (resolve_index_str l ch o path i Ho Hne) in Hi.
  destruct (anchored_strip _ _ _ _ Hi) as (s & Hs & Hstrip).
  rewrite Hs, (dget_str _ _ _ Ho) in Hl. simpl in Hl.
  destruct (dict_get "new_line" ch) as [v|] eqn:Hv; [|done].
  injection Hl as <-. by exists ch, o, i, s, v.
Qed.

(** No change of the list names this line, up to surrounding blanks. *)
Definition untouched (cs : list pyval) (s : string) : bool :=
  forallb (λ c, match c with
                | PDict ch => match dget "original_line" ch with
                              | PStr o => negb (bool_decide (str_strip s = str_strip o))
                              | _ => true end
                | _ => true end) cs.

Definition keep (P : string → bool) (l : list string) : list string :=
  List.filter P l.

Lemma keep_app P l l' : keep P (l ++ l') = keep P l ++ keep P l'.
Proof. apply List.filter_app. Qed.

Lemma keep_and (R P Q : string → bool) l :
  (∀ s, R s = P s && Q s) → keep R l = keep P (keep Q l).
Proof.
  intros HR. induction l as [|s l IH]; simpl; [done|]. rewrite HR, IH.
  destruct (Q s); simpl; destruct (P s); done.
Qed.

Lemma keep_sublist P l l' : l `sublist_of` l' → keep P l `sublist_of` keep P l'.
Proof.
  induction 1 as [|x l l' _ IH|x l l' _ IH]; simpl; [constructor| |];
    destruct (P x); auto using sublist_skip, sublist_cons.
Qed.

Lemma keep_all P l : keep P l `sublist_of` l.
Proof. induction l as [|s l IH]; simpl; [constructor|]. destruct (P s); auto using sublist_skip, sublist_cons.
Qed.

Lemma splice_keep P i new l s :
  l !! i = Some s → P s = false → keep P l `sublist_of` splice i new l.
Proof.
  intros Hi HP. rewrite <- (take_drop_middle l i s Hi) at 1. unfold splice.
  rewrite keep_app. simpl. rewrite HP.
  apply sublist_app; [apply keep_all|]. apply sublist_inserts_l, keep_all.
Qed.

Lemma apply_all_keeps path cs l l' :
  apply_all path l cs = Ok l' → keep (untouched cs) l `sublist_of` l'.
Proof.
  revert l. induction cs as [|c cs IH]; intros l Hrun; simpl in Hrun.
  - injection Hrun as ->. apply keep_all.
  - apply res_bind_ok in Hrun as (l1 & H1 & Hrest%IH).
    destruct (apply_one_Ok _ _ _ _ H1) as (ch & o & i & s & v & -> & Ho & Hs & Hst & _ & ->).
    set (new := str_split _ _) in *.
    rewrite (keep_and _ (untouched cs) (untouched [PDict ch]))
      by (intros x; simpl; by rewrite andb_true_r, andb_comm).
    etrans; [|exact Hrest]. apply keep_sublist, splice_keep with s; [done|].
    simpl. by rewrite Ho, bool_decide_eq_true_2.
Qed.

(** An edit of line [i] (from 0) in the form the tool schema asks for. *)
Definition edit (i : nat) (o n : string) : pyval :=
  PDict [("line_number", PInt (Z.of_nat i + 1)); ("original_line", PStr o);
         ("new_line", PStr n)].

Definition no_char (c0 : ascii) (s : string) : bool := str_forallb (λ c, negb (ch_eq c c0)) s.

Lemma apply_one_edit path l i o n :
  l !! i = Some o → o ≠ EmptyString → no_char c_nl n = true →
  apply_one path l (edit i o n) = Ok (<[i := n]> l).
Proof.
  intros Hi Ho Hn. unfold apply_one.
  assert (resolve_index l (edit i o n) path = Ok i) as ->.
  { apply (resolve_index_str _ _ o); [done..|]. left. split; [done|].
    unfold hint_of. simpl. f_equal. lia. }
  simpl. rewrite Hi. simpl. unfold reindent_new_line.
  rewrite bool_decide_eq_true_2 by done. rewrite str_split_no_sep by done.
  rewrite insert_take_drop by (by eapply lookup_lt_Some). done.
Qed.

Lemma no_char_join c l :
  no_char c nl = true → Forall (λ w, no_char c w = true) l → no_char c (str_join nl l) = true.
Proof.
  intros Hnl. induction 1 as [|w l Hw Hl IH]; [done|]. destruct l as [|w' l]; [done|].
  change (str_join nl (w :: w' :: l)) with (w +:+ nl +:+ str_join nl (w' :: l)).
  unfold no_char in *. rewrite !str_forallb_app, Hw, Hnl. done.
Qed.

Lemma no_char_split c sep s : no_char c s = true →
  Forall (λ w, no_char c w = true) (str_split sep s).
Proof.
  unfold no_char. induction s as [|a s IH]; simpl; [by repeat constructor|].
  intros [Ha Hs]%andb_true_iff. specialize (IH Hs). destruct (ch_eq a sep).
  - by constructor.
  - destruct (str_split sep s) as [|w ws]; [repeat constructor; simpl; by rewrite Ha|].
    apply Forall_cons in IH as [Hw Hws]. constructor; [simpl; by rewrite Ha|done].
Qed.

Lemma apply_edit f path text i o n :
  f !! path = Some text → no_char c_cr text = true →
  str_split c_nl text !! i = Some o → o ≠ EmptyString → no_char c_nl n = true →
  apply_change_infos f path [edit i o n] =
  Ok (<[path := str_join nl (<[i := n]> (str_split c_nl text))]> f).
Proof.
  intros Hf Hcr Hi Ho Hn. unfold apply_change_infos, read_text. rewrite Hf.
  rewrite universal_newlines_id by done. simpl.
  by rewrite (apply_one_edit path (str_split c_nl text)).
Qed.

(** ** Properties *)

(** A change list only ever touches lines it names.  When a file is
    rewritten, no other file changes, and the lines of the file that no change
    names (even up to surrounding blanks) all survive, in their order. *)
Theorem apply_change_infos_frame (f f' : fs) (path : string) (cs : list pyval) :
  apply_change_infos f path cs = Ok f' →
  ∃ text lines', f !! path = Some text ∧ f' = <[path := str_join nl lines']> f ∧
    keep (untouched cs) (str_split c_nl (universal_newlines text)) `sublist_of` lines'.
Proof.
  unfold apply_change_infos, read_text. destruct (f !! path) as [text|]; [|done].
  intros (t & [= <-] & (l' & Hl & [= <-])%res_bind_ok)%res_bind_ok.
  exists text, l'. repeat split. by apply apply_all_keeps with path.
Qed.

(** An edit of one line is undone by the opposite edit. *)
Theorem apply_change_infos_undo (f : fs) (path text o n : string) (i : nat) :
  f !! path = Some text → no_char c_cr text = true →
  str_split c_nl text !! i = Some o → o ≠ EmptyString →
  n ≠ EmptyString → no_char c_nl n = true → no_char c_cr n = true →
  ∃ f1, apply_change_infos f path [edit i o n] = Ok f1 ∧
        apply_change_infos f1 path [edit i n o] = Ok f.
Proof.
  intros Hf Hcr Hi Ho Hne Hn Hncr. eexists. split; [by apply apply_edit|].
  set (l := str_split c_nl text) in *.
  assert (Forall (λ w, no_char c_nl w = true) l) as Hl by apply str_split_words.
  assert (Forall (λ w, no_char c_nl w = true) (<[i := n]> l)) as Hl'
    by by apply Forall_insert.
  assert (i < List.length l)%nat as Hlt by (by eapply lookup_lt_Some).
  assert (str_split c_nl (str_join nl (<[i := n]> l)) = <[i := n]> l) as Hsplit.
  { apply str_split_join; [|done]. intros Hnil.
    apply (f_equal List.length) in Hnil. rewrite length_insert in Hnil. simpl in Hnil. lia. }
  erewrite apply_edit; [|apply lookup_insert_eq| | | |].
  - rewrite Hsplit, list_insert_insert_eq, list_insert_id by done.
    unfold l. rewrite str_join_lines. rewrite insert_insert_eq. by rewrite insert_id.
  - apply no_char_join; [done|]. apply Forall_insert; [by apply no_char_split|done].
  - rewrite Hsplit. by apply list_lookup_insert_eq.
  - done.
  - by eapply (Forall_lookup_1 _ _ _ _ Hl).
Qed.

(** ** Rebasing *)

Lemma leading_ws_prefix s : ∃ r, s = leading_ws s +:+ r ∧ str_forallb is_indent (leading_ws s) = true.
Proof.
  assert (∃ p, s = p +:+ str_lstrip is_indent s ∧ str_forallb is_indent p = true) as (p & Hp & Hi).
  { induction s as [|c s (p & Hp & Hi)]; simpl; [by exists EmptyString|].
    destruct (is_indent c) eqn:E; [|by exists EmptyString].
    exists (String c p). simpl. by rewrite <- Hp, E, Hi. }
  assert (leading_ws s = p) as Hl.
  { unfold leading_ws. set (r := str_lstrip is_indent s) in *. clearbody r. subst s.
    by rewrite str_length_app, Nat.add_sub, str_take_app. }
  rewrite Hl. eauto.
Qed.

Lemma indent_is_space c : is_indent c = true → is_space c = true ∧ ch_eq c c_nl = false.
Proof.
  unfold is_indent. rewrite orb_true_iff, !ch_eq_true. by intros [-> | ->].
Qed.

Lemma strip_indent d r : str_forallb is_indent d = true → str_strip (d +:+ r) = str_strip r.
Proof.
  unfold str_strip, str_strip_by. induction d as [|c d IH]; simpl; [done|].
  intros [Hc Hd]%andb_true_iff. apply indent_is_space in Hc as [Hc _].
  rewrite Hc. auto.
Qed.

Lemma indent_no_nl d : str_forallb is_indent d = true → no_char c_nl d = true.
Proof.
  unfold no_char. induction d as [|c d IH]; simpl; [done|].
  intros [Hc Hd]%andb_true_iff. apply indent_is_space in Hc as [_ Hc].
  rewrite Hc. auto.
Qed.

Lemma reindent_line_cases src disk w :
  reindent_line src disk w = w ∨
  ∃ p r, w = p +:+ r ∧ (p = src) ∧ reindent_line src disk w = disk +:+ r.
Proof.
  unfold reindent_line. destruct (negb _); [by left|].
  destruct (str_nonempty disk && startswith disk w); [by left|].
  destruct (str_nonempty src && startswith src w) eqn:E.
  - apply andb_true_iff in E as [_ [r ->]%startswith_spec]. right.
    exists src, r. by rewrite str_drop_app.
  - case_bool_decide as Hs; [|by left]. right. exists EmptyString, w. by subst.
Qed.

Lemma reindent_line_strip src disk w :
  str_forallb is_indent src = true → str_forallb is_indent disk = true →
  str_strip (reindent_line src disk w) = str_strip w.
Proof.
  intros Hs Hd. destruct (reindent_line_cases src disk w) as [->|(p & r & -> & -> & ->)];
    [done|]. by rewrite !strip_indent.
Qed.

Lemma reindent_line_no_nl src disk w :
  str_forallb is_indent disk = true → no_char c_nl w = true →
  no_char c_nl (reindent_line src disk w) = true.
Proof.
  intros Hd Hw. destruct (reindent_line_cases src disk w) as [->|(p & r & -> & -> & ->)];
    [done|]. apply indent_no_nl in Hd. unfold no_char in *. rewrite str_forallb_app in *.
  apply andb_true_iff in Hw as [_ ->]. by rewrite Hd.
Qed.

Lemma reindent_line_aligned src disk w :
  str_strip w ≠ EmptyString → startswith src w = true →
  startswith disk (reindent_line src disk w) = true.
Proof.
  intros Hw Hsrc. unfold reindent_line.
  destruct (str_strip w) eqn:E; [done|]. simpl.
  destruct disk as [|d disk]; [done|]. set (dd := String d disk). simpl (str_nonempty dd).
  destruct (startswith dd w) eqn:Ed; [done|]. simpl. rewrite Hsrc.
  destruct src as [|x src]; apply (startswith_app dd).
Qed.

(** Rebasing a replacement from the indentation of the submitted line [o]
    onto that of the line on disk [s] never changes the text of a line beyond
    its surrounding blanks, and every non-blank line that is submitted at the
    indentation of [o] (or deeper) lands at the indentation of [s] (or deeper). *)
Theorem reindent_new_line_spec (o s new : string) :
  map str_strip (str_split c_nl (reindent_new_line new (leading_ws o) (leading_ws s))) =
  map str_strip (str_split c_nl new) ∧
  ∀ k w, str_split c_nl new !! k = Some w → str_strip w ≠ EmptyString →
    startswith (leading_ws o) w = true →
    ∃ w', str_split c_nl (reindent_new_line new (leading_ws o) (leading_ws s)) !! k = Some w' ∧
          startswith (leading_ws s) w' = true.
Proof.
  destruct (leading_ws_prefix o) as (_ & _ & Ho), (leading_ws_prefix s) as (_ & _ & Hs).
  unfold reindent_new_line. case_bool_decide as Heq.
  { split; [done|]. rewrite <- Heq. eauto. }
  rewrite str_split_lines; [|by destruct (str_split c_nl new) eqn:E; [apply str_split_nonnil in E|]|].
  - split.
    + rewrite map_map. apply map_ext. intros w. by apply reindent_line_strip.
    + intros k w Hk Hw Hp. eexists. split; [by apply list_lookup_fmap_Some_2|].
      by apply reindent_line_aligned.
  - apply Forall_map. eapply Forall_impl; [apply str_split_words|].
    intros w Hw. by apply reindent_line_no_nl.
Qed.

End with_repr.

(** ** Witnesses *)

Definition sample_repr : FloatRepr := λ _, "0.5".
Definition sample_fs : fs := {[ "a.py" := "x = 1"; "b.py" := "y" ]}.

Lemma apply_change_infos_frame_witness :
  ∃ text lines', sample_fs !! "a.py" = Some text ∧
    (<["a.py" := "x = 2"]> sample_fs) = <["a.py" := str_join nl lines']> sample_fs ∧
    keep (untouched [edit 0 "x = 1" "x = 2"]) (str_split c_nl (universal_newlines text))
      `sublist_of` lines'.
Proof.
  exact (@apply_change_infos_frame sample_repr sample_fs _ "a.py"
           [edit 0 "x = 1" "x = 2"] eq_refl).
Defined.

Lemma apply_change_infos_undo_witness :
  ∃ f1, @apply_change_infos sample_repr sample_fs "a.py" [edit 0 "x = 1" "x = 2"] = Ok f1 ∧
        @apply_change_infos sample_repr f1 "a.py" [edit 0 "x = 2" "x = 1"] = Ok sample_fs.
Proof. by apply (@apply_change_infos_undo sample_repr _ "a.py" "x = 1"). Defined.

End ApplyPatch.
