(* ===== verification/Retry.v ===== *)
(** * Bounded retry of transient failures

    Model of [bf_worker/services/transient_retry.py].  The failing call is an
    oracle: its [i]-th invocation returns a value or raises. *)

From S2P Require Import Prelude PyStr.
Local Open Scope string_scope.
Local Open Scope list_scope.

Module Retry.

Definition DEFAULT_RETRY_DELAYS : list Z := [1; 2]%Z.
Definition RETRY_AFTER_CAP_S : Z := 30.

(** [errno.EAGAIN, EBUSY, EIO, ENFILE, EMFILE, ENOMEM, ETIMEDOUT] on Linux. *)
Definition TRANSIENT_OS_ERRNOS : list Z := [11; 16; 5; 23; 24; 12; 110]%Z.

(** The [response] of an HTTP error: its status and its Retry-After header. *)
Record http_response := HttpResponse {
  status_code : option Z;
  retry_after : pyval
}.

(** What the classifier distinguishes of an exception, in the order of its
    [isinstance] tests. *)
Inductive io_exn :=
| RequestsConnectionError
| RequestsTimeout
| RequestsChunkedEncodingError
| RequestsHTTPError (resp : option http_response)
| FileNotFound | PermissionDenied | IsADirectory | NotADirectory
| OSErr (err : option Z)
| RedisConnectionError | RedisTimeoutError | RedisBusyLoadingError
| OtherExn (e : exn).

(** [int(str(v).strip())], or [None] where it raises. *)
Definition int_of_str `{FloatRepr} (v : pyval) : option Z := str_int (py_str v).

Definition parse_retry_after `{FloatRepr} (value : pyval) : option Z :=
  if truthy value then
    match int_of_str value with
    | None => None
    | Some delay => if (delay <=? 0)%Z then None else Some (Z.min delay RETRY_AFTER_CAP_S)
    end
  else None.

Definition classify_transient `{FloatRepr} (e : io_exn) : bool * option Z :=
  match e with
  | RequestsConnectionError | RequestsTimeout | RequestsChunkedEncodingError => (true, None)
  | RequestsHTTPError resp =>
      let status := resp ≫= status_code in
      if bool_decide (status = Some 429%Z) ||
         match status with Some s => (500 <=? s)%Z && (s <? 600)%Z | None => false end
      then (true, match resp with Some r => parse_retry_after (retry_after r) | None => None end)
      else (false, None)
  | FileNotFound | PermissionDenied | IsADirectory | NotADirectory => (false, None)
  | OSErr err =>
      (match err with Some n => mem n TRANSIENT_OS_ERRNOS | None => false end, None)
  | RedisConnectionError | RedisTimeoutError | RedisBusyLoadingError => (true, None)
  | OtherExn _ => (false, None)
  end.

Inductive outcome (A : Type) :=
| Returned (v : A) (retries : nat)
| Raised (e : io_exn).
Arguments Returned {A} v retries.
Arguments Raised {A} e.

Section retry.
Context {Hrepr : FloatRepr} {A : Type} (fn : nat → A + io_exn).

(** The pause before the attempt after [i]. *)
Definition pause (delays : list Z) (i : nat) (e : io_exn) : Z :=
  match (classify_transient e).2 with
  | Some d => d
  | None => default 0%Z (delays !! i)
  end.

(** The loop over [range(attempts)], from attempt [i]; [sleeps] are the pauses
    taken so far.  [left] counts the attempts not yet made. *)
Fixpoint attempt_loop (op_name : string) (delays : list Z) (left i retries : nat)
    (sleeps : list Z) : outcome A * list Z :=
  match left with
  | O => (Raised (OtherExn (Exn "RuntimeError"
                   (op_name +:+ ": with_transient_retry fell through"))), sleeps)
  | S left' =>
      match fn i with
      | inl v => (Returned v retries, sleeps)
      | inr e =>
          if negb (classify_transient e).1 || (i =? List.length delays)%nat
          then (Raised e, sleeps)
          else attempt_loop op_name delays left' (S i) (S retries) (sleeps ++ [pause delays i e])
      end
  end.

Definition with_transient_retry (op_name : string) (delays : list Z) : outcome A * list Z :=
  attempt_loop op_name delays (S (List.length delays)) 0 0 [].

(** Attempt [i] failed in a way worth retrying. *)
Definition transient_at (i : nat) : Prop :=
  ∃ e, fn i = inr e ∧ (classify_transient e).1 = true.

(** Attempt [k] settles the call. *)
Inductive settles (delays : list Z) (k : nat) : outcome A → Prop :=
| settles_value v : fn k = inl v → settles delays k (Returned v k)
| settles_error e :
    fn k = inr e → (classify_transient e).1 = false ∨ k = List.length delays →
    settles delays k (Raised e).

Definition pause_at (delays : list Z) (i : nat) : Z :=
  match fn i with inr e => pause delays i e | inl _ => 0%Z end.

Lemma attempt_loop_spec op delays left i sleeps :
  (i + left = S (List.length delays))%nat → (0 < left)%nat →
  ∃ k, (i ≤ k ≤ List.length delays)%nat ∧ (∀ j, (i ≤ j < k)%nat → transient_at j) ∧
    settles delays k (attempt_loop op delays left i i sleeps).1 ∧
    (attempt_loop op delays left i i sleeps).2 = sleeps ++ map (pause_at delays) (seq i (k - i)).
Proof.
  revert i sleeps. induction left as [|left IH]; intros i sleeps Hi Hl; [lia|].
  simpl. destruct (fn i) as [v|e] eqn:Ef; simpl.
  - exists i. rewrite Nat.sub_diag, app_nil_r. repeat split; [lia..| |by constructor].
    intros j Hj. lia.
  - destruct (classify_transient e).1 eqn:Et; simpl.
    + destruct (Nat.eqb_spec i (List.length delays)) as [->|Hne].
      * exists (List.length delays). rewrite Nat.sub_diag, app_nil_r.
        repeat split; [lia..| |constructor; auto]. intros j Hj. lia.
      * destruct (IH (S i) (sleeps ++ [pause delays i e])) as (k & Hk & Ht & Hs & Hp); [lia..|].
        exists k. split; [lia|]. split; [|split; [done|]].
        -- intros j Hj. destruct (decide (j = i)) as [->|]; [by exists e|]. apply Ht. lia.
        -- rewrite Hp. replace (k - i)%nat with (S (k - S i)) by lia. simpl.
           rewrite <- app_assoc. simpl. unfold pause_at at 2. by rewrite Ef.
    + exists i. rewrite Nat.sub_diag, app_nil_r. repeat split; [lia..| |constructor; auto].
      intros j Hj. lia.
Qed.

(** The call is settled by its first attempt that returns, fails for good,
    or is the last one allowed; every earlier attempt failed transiently and
    was followed by exactly one pause.  So at most [1 + len(delays)] attempts
    are made, a permanent error is raised at once, and the loop never falls
    through. *)
Theorem with_transient_retry_spec (op_name : string) (delays : list Z) :
  ∃ k, (k ≤ List.length delays)%nat ∧ (∀ j, (j < k)%nat → transient_at j) ∧
    settles delays k (with_transient_retry op_name delays).1 ∧
    (with_transient_retry op_name delays).2 = map (pause_at delays) (seq 0 k).
Proof.
  destruct (attempt_loop_spec op_name delays (S (List.length delays)) 0 [])
    as (k & Hk & Ht & Hs & Hp); [lia..|].
  exists k. rewrite Nat.sub_0_r in Hp. repeat split; [lia| |done|done].
  intros j Hj. apply Ht. lia.
Qed.

(** A server can stretch a pause, but not beyond the cap. *)
Lemma pause_bounded delays i e :
  Forall (λ d, 0 ≤ d)%Z delays →
  (0 ≤ pause delays i e ≤ Z.max RETRY_AFTER_CAP_S (default 0%Z (delays !! i)))%Z.
Proof.
  intros Hd. unfold pause.
  assert (0 ≤ default 0%Z (delays !! i))%Z as H0.
  { destruct (delays !! i) eqn:E; simpl; [|lia]. by eapply (Forall_lookup_1 _ _ _ _ Hd). }
  destruct (classify_transient e).2 as [d|] eqn:E; [|lia].
  enough (0 < d ≤ RETRY_AFTER_CAP_S)%Z by lia.
  destruct e as [| | |[r|]| | | | | | | | |]; simpl in E; try done.
  destruct (bool_decide _ || _); [|done]. simpl in E. unfold parse_retry_after in E.
  destruct (truthy _); [|done]. destruct (int_of_str _) as [z|]; [|done].
  destruct (Z.leb_spec z 0); [done|]. injection E as <-. unfold RETRY_AFTER_CAP_S. lia.
Qed.

End retry.
End Retry.
