(* ===== verification/Budget.v ===== *)
(** * What a run may spend, and what a call costs

    Models of [bf_worker/services/budget.py] (the per-run budget and the token
    counts it is debited with), [bf_worker/services/pricing.py] and the usage
    half of [llm_gateway/cost.py].  Money and time are exact rationals. *)

From S2P Require Import Prelude PyStr.
From Stdlib Require Import Lqa.
Local Open Scope string_scope.
Local Open Scope list_scope.

Module Budget.

Definition DEFAULT_MAX_CALLS : Z := 30.
Definition DEFAULT_MAX_TOKENS : Z := 200000.
Definition DEFAULT_MAX_WALLCLOCK_S : Z := 300.

(** Which cap tripped, with the figures of the message. *)
Inductive exhaustion :=
| CallLimit (calls max_calls : Z)
| TokenLimit (tokens max_tokens : Z)
| CostLimit (cost max_cost : Q)
| WallclockLimit (elapsed max_wallclock : Z).

Record RunBudget := mkRunBudget {
  max_calls : Z;
  max_tokens : Z;
  max_wallclock_s : Z;
  max_cost_usd : option Q;
  calls : Z;
  input_tokens : Z;
  output_tokens : Z;
  cost_usd : option Q;
  started_at : Q;
  exhausted_reason : option exhaustion
}.

Definition fresh_budget (now : Q) : RunBudget :=
  mkRunBudget DEFAULT_MAX_CALLS DEFAULT_MAX_TOKENS DEFAULT_MAX_WALLCLOCK_S None
    0 0 0 None now None.

Definition total_tokens (b : RunBudget) : Z := input_tokens b + output_tokens b.
Definition elapsed_s (b : RunBudget) (now : Q) : Q := (now - started_at b)%Q.

Definition with_reason (b : RunBudget) (r : option exhaustion) : RunBudget :=
  mkRunBudget (max_calls b) (max_tokens b) (max_wallclock_s b) (max_cost_usd b)
    (calls b) (input_tokens b) (output_tokens b) (cost_usd b) (started_at b) r.

(** [int(q)], towards zero. *)
Definition Q_trunc (q : Q) : Z := Z.quot (Qnum q) (Zpos (Qden q)).

(** The [if]/[elif] chain of [check]. *)
Definition tripped (b : RunBudget) (now : Q) : option exhaustion :=
  if (max_calls b <=? calls b)%Z then Some (CallLimit (calls b) (max_calls b))
  else if (max_tokens b <=? total_tokens b)%Z then
    Some (TokenLimit (total_tokens b) (max_tokens b))
  else if match max_cost_usd b, cost_usd b with
          | Some m, Some c => Qle_bool m c
          | _, _ => false
          end then Some (CostLimit (default 0%Q (cost_usd b)) (default 0%Q (max_cost_usd b)))
  else if Qle_bool (inject_Z (max_wallclock_s b)) (elapsed_s b now) then
    Some (WallclockLimit (Q_trunc (elapsed_s b now)) (max_wallclock_s b))
  else None.

Definition check (b : RunBudget) (now : Q) : RunBudget * option exhaustion :=
  match exhausted_reason b with
  | Some r => (b, Some r)
  | None => let r := tripped b now in (with_reason b r, r)
  end.

Definition is_exhausted (b : RunBudget) (now : Q) : bool :=
  match (check b now).2 with Some _ => true | None => false end.

(** [max(0.0, float(c))] *)
Definition clamp_cost (c : Q) : Q := if Qle_bool c 0 then 0%Q else c.

Definition record_call (b : RunBudget) (input output : Z) (cost : option Q) : RunBudget :=
  mkRunBudget (max_calls b) (max_tokens b) (max_wallclock_s b) (max_cost_usd b)
    (calls b + 1) (input_tokens b + Z.max 0 input) (output_tokens b + Z.max 0 output)
    (match cost with
     | Some c => Some (default 0%Q (cost_usd b) + clamp_cost c)%Q
     | None => cost_usd b
     end)
    (started_at b) (exhausted_reason b).

(** ** Token counts of a response *)

(** [int(v or 0)] *)
Definition int_or_0 (v : pyval) : res Z := py_int (py_or v (PInt 0)).

(** The conditional [_fold_reasoning] that both programs carry. *)
Definition fold_reasoning (prompt completion reasoning : Z) (total : pyval) : Z :=
  if (reasoning <=? 0)%Z then completion
  else match total with
  | PInt t => if (t =? prompt + completion + reasoning)%Z then completion + reasoning else completion
  | PFloat q =>
      if (Q_trunc q =? prompt + completion + reasoning)%Z then completion + reasoning else completion
  | _ => completion
  end.

(** [max(0, int(v or 0))], 0 where [int] raises. *)
Definition clamped_int (v : pyval) : Z :=
  match int_or_0 v with Ok z => Z.max 0 z | Raise _ => 0 end.

(** The first key of the details that counts reasoning tokens. *)
Fixpoint reasoning_entry (details : list (string * pyval)) : Z :=
  match details with
  | [] => 0
  | (key, value) :: rest =>
      if bool_decide (key = "reasoning") || endswith "_reasoning" key
      then clamped_int value else reasoning_entry rest
  end.

Definition reasoning_count (details : pyval) : Z :=
  match details with PDict d => reasoning_entry d | _ => 0 end.

Definition as_dict (v : pyval) : list (string * pyval) :=
  match v with PDict d => d | _ => [] end.

(** The two attributes the worker reads off an assistant message; both are
    mappings or absent. *)
Record assistant_msg := AssistantMsg {
  usage_metadata : pyval;
  response_metadata : list (string * pyval)
}.

Definition raw_usage (m : assistant_msg) : pyval :=
  py_or (py_or (dget "token_usage" (response_metadata m)) (dget "usage" (response_metadata m)))
    (PDict []).

Definition extract_token_usage (m : assistant_msg) : res (Z * Z) :=
  if truthy (usage_metadata m) then
    let meta := as_dict (usage_metadata m) in
    in_tok ← int_or_0 (dget "input_tokens" meta);
    out_tok ← int_or_0 (dget "output_tokens" meta);
    mret (in_tok, fold_reasoning in_tok out_tok
                    (reasoning_count (dget "output_token_details" meta))
                    (dget "total_tokens" meta))
  else if truthy (raw_usage m) then
    let usage := as_dict (raw_usage m) in
    in_tok ← int_or_0 (dget "prompt_tokens" usage);
    out_tok ← int_or_0 (dget "completion_tokens" usage);
    let reasoning := match py_or (dget "completion_tokens_details" usage) (PDict []) with
                     | PDict d => match dget "reasoning_tokens" d with
                                  | PNone => 0%Z
                                  | v => clamped_int v
                                  end
                     | _ => 0%Z
                     end in
    mret (in_tok, fold_reasoning in_tok out_tok reasoning (dget "total_tokens" usage))
  else mret (0, 0)%Z.

(** [d["key"]] when the details are a mapping with a non-null [key]. *)
Definition detail (key : string) (details : pyval) : option pyval :=
  match details with
  | PDict d => match dget key d with PNone => None | v => Some v end
  | _ => None
  end.

Definition extract_cached_input_tokens (m : assistant_msg) : res (option Z) :=
  match detail "cache_read" (dget "input_token_details" (as_dict (usage_metadata m))) with
  | Some v => Some <$> int_or_0 v
  | None =>
      match detail "cached_tokens" (dget "prompt_tokens_details" (as_dict (raw_usage m))) with
      | Some v => Some <$> int_or_0 v
      | None => mret None
      end
  end.

(** ** The gateway's reading of the same response *)

Record Usage := mkUsage {
  prompt_tokens : Z;
  completion_tokens : Z;
  cached_tokens : Z;
  reasoning_tokens : Z
}.

Definition extract_usage (body : pyval) : res (option Usage) :=
  match body with
  | PDict b =>
      match dget "usage" b with
      | PDict usage =>
          cached ← match detail "cached_tokens" (dget "prompt_tokens_details" usage) with
                   | Some v => int_or_0 v | None => mret 0%Z end;
          reasoning ← match detail "reasoning_tokens" (dget "completion_tokens_details" usage) with
                      | Some v => int_or_0 v | None => mret 0%Z end;
          prompt ← int_or_0 (dget "prompt_tokens" usage);
          completion ← int_or_0 (dget "completion_tokens" usage);
          mret (Some (mkUsage prompt
                        (fold_reasoning prompt completion reasoning (dget "total_tokens" usage))
                        cached reasoning))
      | _ => mret None
      end
  | _ => mret None
  end.

(** ** Prices *)

Record ModelPrice := mkModelPrice {
  input_per_1m : Q;
  output_per_1m : Q;
  cached_input_per_1m : option Q;
  currency : string
}.

Definition per_million (n : Z) (rate : Q) : Q := (inject_Z n * rate / 1000000)%Q.

Definition price_cost_usd (p : ModelPrice) (prompt completion cached : Z) : Q :=
  let cached := Z.max 0 (Z.min cached prompt) in
  let full := Z.max 0 (prompt - cached) in
  let cached_rate := match cached_input_per_1m p with Some r => r | None => input_per_1m p end in
  (per_million full (input_per_1m p) + per_million cached cached_rate
   + per_million (Z.max 0 completion) (output_per_1m p))%Q.

(** [_coerce]: one row of the price table, [None] where it is unusable. *)
Definition coerce_price `{FloatParse, FloatRepr} (raw : pyval) : option ModelPrice :=
  match raw with
  | PDict d =>
      match (i ← py_float (py_or (default (PInt 0) (dict_get "input_per_1m" d)) (PInt 0));
             o ← py_float (py_or (default (PInt 0) (dict_get "output_per_1m" d)) (PInt 0));
             c ← match dget "cached_input_per_1m" d with
                 | PNone => mret None
                 | v => Some <$> py_float v
                 end;
             mret (mkModelPrice i o c (py_str (default (PStr "USD") (dict_get "currency" d))))) with
      | Ok p => Some p
      | Raise _ => None
      end
  | _ => None
  end.

(** The [models] mapping of the file, unusable rows left out. *)
Definition load_table `{FloatParse, FloatRepr} (models : list (string * pyval)) :
    list (string * ModelPrice) :=
  fold_left (λ t '(model, raw), match coerce_price raw with
                                | Some p => dict_set model p t
                                | None => t end) models [].

Definition cost_for (table : list (string * ModelPrice)) (model : string)
    (prompt completion cached : Z) : option Q :=
  if str_nonempty model
  then (λ p, price_cost_usd p prompt completion cached) <$> dict_get model table
  else None.

Definition cost_of (pricing : option ModelPrice) (usage : option Usage) : option Q :=
  match usage, pricing with
  | Some u, Some p =>
      Some (price_cost_usd p (prompt_tokens u) (completion_tokens u) (cached_tokens u))
  | _, _ => None
  end.

(** ** The budget as a fence around a sequence of calls *)

(** One attempted call: when it is attempted, and what it turns out to use. *)
Record attempt := mkAttempt { at_time : Q; used_in : Z; used_out : Z; used_cost : option Q }.

(** The discipline of the call sites: [check] first, call and record only when
    no cap is reached.  Returns the budget and the calls that were made. *)
Fixpoint run_guarded (b : RunBudget) (l : list attempt) : RunBudget * list attempt :=
  match l with
  | [] => (b, [])
  | a :: l' =>
      match check b (at_time a) with
      | (b1, Some _) => (b1, [])
      | (b1, None) =>
          let '(b2, made) := run_guarded (record_call b1 (used_in a) (used_out a) (used_cost a)) l' in
          (b2, a :: made)
      end
  end.

Definition attempt_tokens (a : attempt) : Z := Z.max 0 (used_in a) + Z.max 0 (used_out a).

Lemma check_fields b now :
  calls (check b now).1 = calls b ∧ total_tokens (check b now).1 = total_tokens b ∧
  max_calls (check b now).1 = max_calls b ∧ max_tokens (check b now).1 = max_tokens b ∧
  cost_usd (check b now).1 = cost_usd b ∧ max_cost_usd (check b now).1 = max_cost_usd b.
Proof. unfold check. by destruct (exhausted_reason b). Qed.

Lemma check_None b now :
  (check b now).2 = None →
  (calls b < max_calls b)%Z ∧ (total_tokens b < max_tokens b)%Z ∧
  (∀ m c, max_cost_usd b = Some m → cost_usd b = Some c → (c < m)%Q).
Proof.
  unfold check. destruct (exhausted_reason b); [done|]. unfold tripped. simpl.
  destruct (Z.leb_spec (max_calls b) (calls b)); [done|].
  destruct (Z.leb_spec (max_tokens b) (total_tokens b)); [done|].
  destruct (max_cost_usd b) as [m|], (cost_usd b) as [c|]; try done.
  destruct (Qle_bool m c) eqn:E; [done|]. intros _. split; [done|]. split; [done|].
  intros m' c' [= <-] [= <-]. apply Qnot_le_lt. intros Hle%Qle_bool_iff. congruence.
Qed.

Lemma run_guarded_bounds T b l :
  (0 ≤ T)%Z → Forall (λ a, attempt_tokens a ≤ T)%Z l →
  (calls b ≤ max_calls b)%Z → (total_tokens b < max_tokens b + T)%Z →
  let '(b', made) := run_guarded b l in
  calls b' = (calls b + Z.of_nat (List.length made))%Z ∧ (calls b' ≤ max_calls b)%Z ∧
  (total_tokens b' < max_tokens b + T)%Z.
Proof.
  intros HT Hl. revert b. induction Hl as [|a l Ha Hl IH]; intros b Hc Ht; simpl.
  { repeat split; [lia..]. }
  pose proof (check_fields b (at_time a)) as (H1 & H2 & H3 & H4 & _).
  pose proof (check_None b (at_time a)) as Hn.
  destruct (check b (at_time a)) as [b1 [r|]]; simpl in *; [lia|].
  destruct (Hn eq_refl) as (Hn1 & Hn2 & _).
  specialize (IH (record_call b1 (used_in a) (used_out a) (used_cost a))).
  unfold total_tokens, attempt_tokens in *. simpl in IH.
  destruct (run_guarded _ l) as [b' made]. simpl.
  destruct IH as (? & ? & ?); lia.
Qed.

(** With every call behind a [check], a run makes at most [max_calls]
    calls, overshoots the token cap by less than one call's tokens, and once a
    check has refused, every later check refuses for the same reason. *)
Theorem run_guarded_within_caps (T : Z) (now : Q) (l : list attempt) (max_c max_t max_w : Z)
    (max_cost : option Q) :
  (0 ≤ T)%Z → Forall (λ a, attempt_tokens a ≤ T)%Z l → (0 ≤ max_c)%Z → (0 ≤ max_t)%Z →
  (0 < T)%Z →
  let '(b', made) :=
    run_guarded (mkRunBudget max_c max_t max_w max_cost 0 0 0 None now None) l in
  calls b' = Z.of_nat (List.length made) ∧ (calls b' ≤ max_c)%Z ∧
  (total_tokens b' < max_t + T)%Z ∧
  (∀ t r, (check b' t).2 = Some r → ∀ t', (check (check b' t).1 t').2 = Some r).
Proof.
  intros HT Hl Hc Ht HT0.
  pose proof (run_guarded_bounds T
    (mkRunBudget max_c max_t max_w max_cost 0 0 0 None now None) l HT Hl) as H.
  destruct (run_guarded _ l) as [b' made]. unfold total_tokens in H at 1. simpl in H.
  destruct H as (H1 & H2 & H3); [lia..|]. repeat split; [lia..|].
  intros t r. unfold check. destruct (exhausted_reason b') eqn:E; simpl; [by rewrite E|].
  by intros ->.
Qed.

Lemma run_guarded_within_caps_witness :
  let '(b', made) := run_guarded (mkRunBudget 1 100 300 None 0 0 0 None 0 None)
                       [mkAttempt 1 5 5 None; mkAttempt 2 5 5 None] in
  calls b' = Z.of_nat (List.length made) ∧ (calls b' ≤ 1)%Z ∧ (total_tokens b' < 100 + 10)%Z ∧
  (∀ t r, (check b' t).2 = Some r → ∀ t', (check (check b' t).1 t').2 = Some r).
Proof.
  apply (run_guarded_within_caps 10 0 [mkAttempt 1 5 5 None; mkAttempt 2 5 5 None]
           1 100 300 None); try lia.
  repeat constructor; unfold attempt_tokens; simpl; lia.
Defined.

(** The total a backend reported, as [int(total)]. *)
Definition reported_total (total : pyval) : option Z :=
  match total with PInt t => Some t | PFloat q => Some (Q_trunc q) | _ => None end.

(** Reasoning tokens are billed on top of the completion exactly when the
    reported total proves they are extra, and then prompt and billed output add
    up to that total: no token is invented. *)
Theorem fold_reasoning_spec (prompt completion reasoning : Z) (total : pyval) :
  let billed := fold_reasoning prompt completion reasoning total in
  (billed ≠ completion ↔
   (0 < reasoning)%Z ∧ reported_total total = Some (prompt + completion + reasoning)%Z) ∧
  (billed ≠ completion → reported_total total = Some (prompt + billed)%Z).
Proof.
  unfold fold_reasoning. destruct (Z.leb_spec reasoning 0) as [Hr|Hr].
  { simpl. split; [split; [done|lia]|done]. }
  destruct total as [| |t|q| | |]; simpl; try (split; [split; [done|by intros [_ ?]]|done]).
  - destruct (Z.eqb_spec t (prompt + completion + reasoning)) as [->|Hne].
    + split; [split; [done|lia]|]. intros _. f_equal. lia.
    + split; [split; [done|]|done]. intros [_ [= ->]]. done.
  - destruct (Z.eqb_spec (Q_trunc q) (prompt + completion + reasoning)) as [Heq|Hne].
    + rewrite Heq. split; [split; [done|lia]|]. intros _. f_equal. lia.
    + split; [split; [done|]|done]. by intros [_ [= ?]].
Qed.

Lemma fold_reasoning_clamp p c r t : fold_reasoning p c (Z.max 0 r) t = fold_reasoning p c r t.
Proof.
  unfold fold_reasoning. destruct (Z.leb_spec r 0).
  - by rewrite Z.max_l by lia.
  - rewrite Z.max_r by lia. by destruct (Z.leb_spec r 0); [lia|].
Qed.

Lemma clamped_int_Ok v r : int_or_0 v = Ok r → clamped_int v = Z.max 0 r.
Proof. unfold clamped_int. by intros ->. Qed.

Lemma reasoning_detail details r :
  match detail "reasoning_tokens" details with Some v => int_or_0 v | None => mret 0%Z end = Ok r →
  match py_or details (PDict []) with
  | PDict d => match dget "reasoning_tokens" d with PNone => 0%Z | v => clamped_int v end
  | _ => 0%Z
  end = Z.max 0 r.
Proof.
  unfold detail, py_or. destruct details as [| | | | | |[|y d]]; simpl.
  1-6: intros [= <-]; try reflexivity.
  1-5: match goal with |- context [match ?b with _ => _ end] => by destruct b end.
  - by intros [= <-].
  - destruct (dget "reasoning_tokens" (y :: d)); try apply clamped_int_Ok. by intros [= <-].
Qed.

(** The worker and the gateway read the same token counts off the same
    [usage] block, whenever the gateway can read it. *)
Theorem usage_readers_agree (body usage : list (string * pyval)) (u : Usage)
    (m : list (string * pyval)) :
  dget "usage" body = PDict usage → usage ≠ [] → dget "token_usage" m = PDict usage →
  extract_usage (PDict body) = Ok (Some u) →
  extract_token_usage (AssistantMsg PNone m) = Ok (prompt_tokens u, completion_tokens u).
Proof.
  intros Hu Hne Hm. unfold extract_usage. rewrite Hu.
  intros (cached & _ & (r & Hr & (p & Hp & (c & Hc & [= <-])%res_bind_ok)%res_bind_ok)%res_bind_ok)%res_bind_ok.
  unfold extract_token_usage, raw_usage. cbn [usage_metadata response_metadata truthy].
  rewrite Hm. destruct usage as [|x usage]; [done|]. set (us := x :: usage) in *.
  change (py_or (py_or (PDict us) (dget "usage" m)) (PDict [])) with (PDict us).
  cbn [truthy as_dict]. change (truthy (PDict us)) with true. cbv beta iota.
  rewrite Hp, Hc. simpl. do 2 f_equal.
  rewrite <- (fold_reasoning_clamp p c r). f_equal.
  apply reasoning_detail. exact Hr.
Qed.

Definition sample_usage : list (string * pyval) :=
  [("prompt_tokens", PInt 7); ("completion_tokens", PInt 8); ("total_tokens", PInt 81);
   ("completion_tokens_details", PDict [("reasoning_tokens", PInt 66)])].

Lemma usage_readers_agree_witness :
  extract_token_usage (AssistantMsg PNone [("token_usage", PDict sample_usage)]) = Ok (7, 74)%Z.
Proof.
  by apply (usage_readers_agree [("usage", PDict sample_usage)] sample_usage (mkUsage 7 74 0 66)).
Defined.

(** ** Prices *)

Definition fair_price (p : ModelPrice) : Prop :=
  (0 <= input_per_1m p)%Q ∧ (0 <= output_per_1m p)%Q ∧
  ∀ r, cached_input_per_1m p = Some r → (0 <= r <= input_per_1m p)%Q.

Lemma per_million_nonneg n r : (0 ≤ n)%Z → (0 <= r)%Q → (0 <= per_million n r)%Q.
Proof.
  intros Hn Hr. unfold per_million. apply Qle_shift_div_l; [done|].
  assert (0 <= inject_Z n)%Q by (change 0%Q with (inject_Z 0); by rewrite <- Zle_Qle). nra.
Qed.

(** The prompt splits into its full-price and cached parts. *)
Lemma price_cost_split p prompt completion cached :
  (0 ≤ prompt)%Z → (0 ≤ cached ≤ prompt)%Z →
  (price_cost_usd p prompt completion cached ==
   price_cost_usd p prompt completion 0
   - per_million cached (input_per_1m p -
       match cached_input_per_1m p with Some r => r | None => input_per_1m p end))%Q.
Proof.
  intros Hp Hc. unfold price_cost_usd, per_million.
  rewrite (Z.min_l cached prompt), (Z.max_r 0 cached), (Z.max_r 0 (prompt - cached)) by lia.
  rewrite (Z.min_l 0 prompt), (Z.max_l 0 0), (Z.max_r 0 (prompt - 0)) by lia.
  rewrite Z.sub_0_r. unfold Zminus. rewrite inject_Z_plus, inject_Z_opp.
  change (inject_Z 0) with 0%Q. field.
Qed.

(** At fair prices a call never costs less than nothing, and serving part
    of the prompt from the provider's cache never makes it dearer: the more is
    cached, the cheaper the call. *)
Theorem price_cost_bounds (p : ModelPrice) (prompt completion c1 c2 : Z) :
  fair_price p → (0 ≤ prompt)%Z → (0 ≤ c1 ≤ c2)%Z → (c2 ≤ prompt)%Z →
  (0 <= price_cost_usd p prompt completion c2 <= price_cost_usd p prompt completion c1)%Q.
Proof.
  intros (Hi & Ho & Hr) Hp Hc H2. split.
  - unfold price_cost_usd.
    assert (0 <= match cached_input_per_1m p with Some r => r | None => input_per_1m p end)%Q.
    { destruct (cached_input_per_1m p); [by apply Hr|done]. }
    repeat match goal with |- (0 <= _ + _)%Q => apply Qle_trans with (0 + 0)%Q; [done|apply Qplus_le_compat] end;
      apply per_million_nonneg; auto; lia.
  - rewrite (price_cost_split p prompt completion c2), (price_cost_split p prompt completion c1) by lia.
    set (d := (input_per_1m p - _)%Q).
    assert (0 <= d)%Q.
    { unfold d. destruct (cached_input_per_1m p) as [r|]; [destruct (Hr r eq_refl); lra|lra]. }
    assert (per_million c1 d <= per_million c2 d)%Q; [|lra].
    unfold per_million. apply Qmult_le_compat_r; [|done].
    apply Qmult_le_compat_r; [|done]. rewrite <- Zle_Qle. lia.
Qed.

Lemma price_cost_bounds_witness :
  (0 <= price_cost_usd (mkModelPrice 2 8 (Some 1) "USD") 1000 50 400 <=
   price_cost_usd (mkModelPrice 2 8 (Some 1) "USD") 1000 50 100)%Q.
Proof.
  apply price_cost_bounds; [|lia..]. repeat split; simpl; try (by vm_compute).
  all: injection H as <-; by vm_compute.
Defined.

End Budget.
