(* ===== verification/BugIds.v ===== *)
(** * Bug identities: minting, branch names, and reading them back

    Models of [orchestrator/parser.py] (which webhook payloads are new bugs,
    which are CI verdicts on a fix branch), of the identity minted by
    [Orchestrator._handle_message], of the branch name a provider derives from
    it, and of the Kubernetes names [orchestrator/spawner.py] derives from it. *)

From S2P Require Import Prelude PyStr Regex.
Local Open Scope string_scope.
Local Open Scope list_scope.

Module BugIds.

(** ** Minting *)

(** [datetime.now()] *)
Record datetime := mkDatetime {
  year : N; month : N; day : N; hour : N; minute : N; second : N; microsecond : N
}.

Definition valid_datetime (t : datetime) : Prop :=
  (1000 ≤ year t ≤ 9999 ∧ 1 ≤ month t ≤ 12 ∧ 1 ≤ day t ≤ 31 ∧ hour t ≤ 23 ∧
   minute t ≤ 59 ∧ second t ≤ 59 ∧ microsecond t ≤ 999999)%N.

Definition two_digits (n : N) : string :=
  String (digit_char (n / 10)) (String (digit_char (n mod 10)) EmptyString).
Definition four_digits (n : N) : string :=
  two_digits (n / 100) +:+ two_digits (n mod 100).

(** [secrets.token_hex(2)] of the two random bytes. *)
Definition hex_byte (b : N) : string :=
  String (hex_digit (b / 16)) (String (hex_digit (b mod 16)) EmptyString).

Definition mint_bug_id (now : datetime) (b1 b2 : N) : string :=
  four_digits (year now) +:+ "_" +:+ two_digits (month now) +:+ "_" +:+ two_digits (day now) +:+
  "-" +:+ two_digits (hour now) +:+ "_" +:+ two_digits (minute now) +:+ "_" +:+
  two_digits (second now) +:+
  "_" +:+ str_of_N (microsecond now / 100000) +:+
  "_" +:+ hex_byte b1 +:+ hex_byte b2.

Definition deterministic_branch_name (bug_id base_commit : string) : string :=
  "auto/bf/" +:+ bug_id +:+ "-" +:+ str_take 8 base_commit.

(** ** Parsing *)

Definition BUG_ID_RE : string := "\d{4}_\d{2}_\d{2}-\d{2}_\d{2}_\d{2}_\d{1}(?:_[0-9a-f]{4})?".

Definition FIX_BRANCH_TEXTS : list string :=
  ["^auto/bug_(" +:+ BUG_ID_RE +:+ ")-patch_(\d{2}_\d{2}_\d{2}_\d{1})$";
   "^auto/bf/(" +:+ BUG_ID_RE +:+ ")-[0-9a-f]{8}$"].

Definition FIX_BRANCH_PATTERNS : list re := Eval vm_compute in map (rx no_flags) FIX_BRANCH_TEXTS.

(** The captures of the first pattern that matches. *)
Definition parse_branch (branch_name : string) : option caps :=
  (fix go (l : list re) : option caps :=
     match l with
     | [] => None
     | r :: l' => match re_match r branch_name with
                  | Some (_, _, c) => Some c
                  | None => go l'
                  end
     end) FIX_BRANCH_PATTERNS.

Inductive parsed_event :=
| BugReportedEvent (project_id project_web_url job_id : pyval) (source_branch : string) (raw : pyval)
| ValidationStatusEvent (bug_id : string) (status raw : pyval)
| OtherEvent (raw : pyval).

Definition ParseError (m : string) : exn := Exn "ParseError" m.

(** [kind == "pipeline" and status == "failed"] *)
Definition pipeline_failed (kind status : pyval) : bool :=
  match kind, status with
  | PStr k, PStr s => bool_decide (k = "pipeline") && bool_decide (s = "failed")
  | _, _ => false
  end.

(** The part of [parse_message] after the ref and the status are read. *)
Definition classify_ref (payload : pyval) (branch_name : string) (status : pyval) :
    res parsed_event :=
  match parse_branch branch_name with
  | Some groups =>
      Ok (ValidationStatusEvent (default EmptyString (cap_get 1 groups)) status payload)
  | None =>
      if startswith "auto/" branch_name then Ok (OtherEvent payload)
      else
        kind ← py_getitem payload "object_kind";
        if pipeline_failed kind status then
          project ← py_get payload "project" (PDict []);
          project_id ← py_get project "id" (PStr "");
          project' ← py_get payload "project" (PDict []);
          project_web_url ← py_get project' "web_url" (PStr "");
          builds ← py_get payload "builds" (PList [PDict []]);
          first ← py_first builds;
          job_id ← py_get first "id" (PStr "");
          Ok (BugReportedEvent project_id project_web_url job_id branch_name payload)
        else Ok (OtherEvent payload)
  end.

(** [parse_message], from the result of [json.loads]. *)
Definition parse_message (loaded : res pyval) : res parsed_event :=
  payload ← loaded;
  has ← py_contains "object_attributes" payload;
  if negb has then Raise (ParseError "payload does not have key object_attributes.")
  else
    attrs ← py_getitem payload "object_attributes";
    ref ← py_getitem attrs "ref";
    attrs' ← py_getitem payload "object_attributes";
    status ← py_getitem attrs' "status";
    match ref with
    | PStr branch_name => classify_ref payload branch_name status
    | v => Raise (type_error "expected string or bytes-like object")
    end.

(** ** Kubernetes names *)

Definition SLUG_RE : re := Eval vm_compute in rx no_flags "[^a-z0-9]+".

Definition k8s_job_name (bug_id : string) (restart_count : nat) : string :=
  let slug := str_strip_by (λ c, ch_eq c "-"%char)
                (re_sub SLUG_RE [PLit "-"] (str_lower bug_id)) in
  let name := "bf-worker-" +:+ slug in
  let name := if (restart_count =? 0)%nat then name
              else name +:+ "-r" +:+ str_of_nat restart_count in
  str_rstrip (λ c, ch_eq c "-"%char) (str_take 63 name).

Definition LABEL_VALUE_RE : re :=
  Eval vm_compute in rx no_flags "^[A-Za-z0-9]([-A-Za-z0-9_.]*[A-Za-z0-9])?$".
Definition LABEL_BAD_RE : re := Eval vm_compute in rx no_flags "[^-A-Za-z0-9_.]".

Definition k8s_label_value (value : string) : string :=
  let value := str_take 63 value in
  match re_match LABEL_VALUE_RE value with
  | Some _ => value
  | None =>
      let cleaned := str_take 63 (str_strip_by (λ c, mem c ["-"; "."; "_"]%char)
                                    (re_sub LABEL_BAD_RE [PLit "-"] value)) in
      if str_nonempty cleaned then cleaned else "unknown"
  end.

Example mint_ex :
  mint_bug_id (mkDatetime 2026 5 15 12 30 45 312345) 177 15 = "2026_05_15-12_30_45_3_b10f".
Proof. vm_compute. reflexivity. Qed.
Example branch_ex :
  parse_branch "auto/bf/2026_05_15-12_30_45_3-abcdef01" =
  Some [(1%nat, "2026_05_15-12_30_45_3")].
Proof. vm_compute. reflexivity. Qed.
Example legacy_ex :
  cap_get 1 <$> parse_branch "auto/bug_2026_05_15-12_30_45_3_ab12-patch_12_30_45_3" =
  Some (Some "2026_05_15-12_30_45_3_ab12").
Proof. vm_compute. reflexivity. Qed.
Example job_ex : k8s_job_name "2026_05_15-12_30_45_3" 2 = "bf-worker-2026-05-15-12-30-45-3-r2".
Proof. vm_compute. reflexivity. Qed.
Example label_ex : k8s_label_value "__a b" = "a-b".
Proof. vm_compute. reflexivity. Qed.

(** ** Symbolic matching of fixed shapes *)

Definition digit_set (c : ascii) : bool := set_has false false [(48, 57)]%N c.
Definition hex_set (c : ascii) : bool := set_has false false [(48, 57); (97, 102)]%N c.

Lemma digit_char_set n : (n < 10)%N → digit_set (digit_char n) = true.
Proof.
  intros Hn. unfold digit_set, set_has, in_ranges, code, digit_char. simpl.
  rewrite N_ascii_embedding by lia.
  assert ((48 <=? 48 + n)%N = true ∧ (48 + n <=? 57)%N = true) as [-> ->]; [|done].
  split; apply N.leb_le; lia.
Qed.

Lemma hex_digit_set n : (n < 16)%N → hex_set (hex_digit n) = true.
Proof.
  intros Hn. unfold hex_set, set_has, in_ranges, code, hex_digit. simpl.
  destruct (N.ltb_spec n 10); rewrite N_ascii_embedding by lia.
  - assert ((48 <=? 48 + n)%N = true ∧ (48 + n <=? 57)%N = true) as [-> ->]; [|done].
    split; apply N.leb_le; lia.
  - assert ((97 <=? 87 + n)%N = true ∧ (87 + n <=? 102)%N = true) as [-> ->].
    { split; apply N.leb_le; lia. }
    by rewrite andb_true_r, orb_true_r.
Qed.

(** Eight characters of a commit id. *)
Definition hex8 (s : string) : Prop :=
  String.length s = 8%nat ∧ str_forallb hex_set s = true.

(** The symbolic step: matching one character of a set whose answer is known. *)
Lemma branch_with_tail d1 d2 d3 d4 d5 d6 d7 d8 d9 d10 d11 d12 d13 d14 d15 h1 h2 h3 h4 commit :
  Forall (λ c, digit_set c = true)
    [d1; d2; d3; d4; d5; d6; d7; d8; d9; d10; d11; d12; d13; d14; d15] →
  Forall (λ c, hex_set c = true) [h1; h2; h3; h4] → hex8 commit →
  let id := string_of_list_ascii
    [d1; d2; d3; d4; "_"; d5; d6; "_"; d7; d8; "-"; d9; d10; "_"; d11; d12; "_"; d13; d14;
     "_"; d15; "_"; h1; h2; h3; h4]%char in
  parse_branch ("auto/bf/" +:+ id +:+ "-" +:+ commit) = Some [(1%nat, id)].
Proof.
  intros Hd Hh [Hl Hc] id.
  do 9 (destruct commit as [|?c commit]; try discriminate Hl). clear Hl.
  cbn [str_forallb] in Hc. unfold digit_set, hex_set in *.
  repeat match goal with H : _ && _ = true |- _ => apply andb_true_iff in H as [? ?] end.
  repeat match goal with H : Forall _ (_ :: _) |- _ => apply Forall_cons in H as [? H] end.
  unfold parse_branch, FIX_BRANCH_PATTERNS, re_match, re_match_at.
  cbn [id string_of_list_ascii String.append].
  repeat re_step. reflexivity.
Qed.

Lemma two_digits_set n : (n < 100)%N →
  digit_set (digit_char (n / 10)) = true ∧ digit_set (digit_char (n mod 10)) = true.
Proof.
  intros Hn. split; apply digit_char_set.
  - by apply N.Div0.div_lt_upper_bound.
  - by apply N.mod_lt.
Qed.

Lemma hex_byte_set b : (b < 256)%N →
  hex_set (hex_digit (b / 16)) = true ∧ hex_set (hex_digit (b mod 16)) = true.
Proof.
  intros Hn. split; apply hex_digit_set.
  - by apply N.Div0.div_lt_upper_bound.
  - by apply N.mod_lt.
Qed.

Lemma parse_minted_branch now b1 b2 commit :
  valid_datetime now → (b1 < 256)%N → (b2 < 256)%N → hex8 (str_take 8 commit) →
  parse_branch (deterministic_branch_name (mint_bug_id now b1 b2) commit) =
  Some [(1%nat, mint_bug_id now b1 b2)].
Proof.
  intros (Hy & Hmo & Hd & Hh & Hmi & Hs & Hus) H1 H2 Hc.
  assert (microsecond now / 100000 < 10)%N as Hus'.
  { apply N.Div0.div_lt_upper_bound. lia. }
  destruct (two_digits_set (year now / 100)) as [Y1 Y2]; [apply N.Div0.div_lt_upper_bound; lia|].
  destruct (two_digits_set (year now mod 100)) as [Y3 Y4]; [by apply N.mod_lt|].
  destruct (two_digits_set (month now)) as [M1 M2]; [lia|].
  destruct (two_digits_set (day now)) as [D1 D2]; [lia|].
  destruct (two_digits_set (hour now)) as [A1 A2]; [lia|].
  destruct (two_digits_set (minute now)) as [I1 I2]; [lia|].
  destruct (two_digits_set (second now)) as [S1 S2]; [lia|].
  destruct (hex_byte_set b1 H1) as [X1 X2], (hex_byte_set b2 H2) as [X3 X4].
  pose proof (digit_char_set _ Hus') as U.
  unfold deterministic_branch_name, mint_bug_id. rewrite (str_of_N_digit _ Hus').
  by apply branch_with_tail; [repeat (apply Forall_cons_2; [assumption|]); apply Forall_nil_2..|].
Qed.

Lemma pipeline_failed_spec kind status :
  pipeline_failed kind status = true ↔ kind = PStr "pipeline" ∧ status = PStr "failed".
Proof.
  unfold pipeline_failed. destruct kind, status; try (by split; [done|intros [? ?]]).
  rewrite andb_true_iff, !bool_decide_eq_true.
  split; [by intros [-> ->]|by intros [[= ->] [= ->]]].
Qed.

(** Reads one literal character off the front of a match. *)
Ltac lead_char :=
  match goal with
  | H : matches (RSeq _ _) _ _ _ _ _ _ |- _ => inversion H; subst; clear H
  end;
  match goal with
  | H : matches (RBol _) _ _ _ _ _ _ |- _ => inversion H; subst; clear H
  | H : matches (RSet _ _ _) _ _ _ _ _ _ |- _ =>
      inversion H; subst; clear H;
      match goal with
      | E : set_has _ _ _ _ = true |- _ => apply set_has_single in E; subst
      end
  end.

(** Every recognised fix branch lies in the worker's namespace. *)
Lemma parse_branch_auto b c : parse_branch b = Some c → startswith "auto/" b = true.
Proof.
  assert (∀ r, r ∈ FIX_BRANCH_PATTERNS → is_Some (re_match r b) → startswith "auto/" b = true) as Hall.
  { intros r Hr [x Hx]. unfold re_match in Hx.
    destruct (re_match_at r None b) as [[s' c']|] eqn:E; [|done]. unfold re_match_at in E.
    apply rmatch_sound in E as (p' & s1 & c1 & Hm & _). clear Hx.
    apply (λ H, matches_right_nested _ _ _ _ _ _ _ _ _ _ _ H (m_eps _ _ _)) in Hm.
    unfold FIX_BRANCH_PATTERNS in Hr. rewrite !elem_of_cons in Hr.
    destruct Hr as [->|[->|[]%elem_of_nil]]; cbv [right_nested] in Hm.
    all: do 6 lead_char.
    all: done. }
  unfold parse_branch. remember FIX_BRANCH_PATTERNS as l eqn:Hl. clear Hl.
  induction l as [|r l IH]; [done|]. destruct (re_match r b) as [[[m t] c']|] eqn:E.
  - intros _. apply (Hall r); [apply elem_of_cons; by left|by rewrite E].
  - apply IH. intros r' Hr'. apply Hall, elem_of_cons. by right.
Qed.

(** ** Properties *)

(** The payload of a pipeline on a branch. *)
Definition pipeline_payload (ref status : pyval) (rest : list (string * pyval)) : pyval :=
  PDict (("object_attributes", PDict [("ref", ref); ("status", status)]) :: rest).

Lemma parse_message_verdict branch groups status rest :
  parse_branch branch = Some groups →
  parse_message (Ok (pipeline_payload (PStr branch) status rest)) =
  Ok (ValidationStatusEvent (default EmptyString (cap_get 1 groups)) status
        (pipeline_payload (PStr branch) status rest)).
Proof.
  intros Hb. transitivity (classify_ref (pipeline_payload (PStr branch) status rest) branch status);
    [done|]. unfold classify_ref. by rewrite Hb.
Qed.

(** Whatever identity the orchestrator mints for a bug and whatever commit
    the fix is based on, the CI verdict on the branch the worker pushes is read
    back as a verdict on exactly that bug. *)
Theorem fix_branch_round_trip (now : datetime) (b1 b2 : N) (commit : string) (status : pyval)
    (rest : list (string * pyval)) :
  valid_datetime now → (b1 < 256)%N → (b2 < 256)%N → hex8 (str_take 8 commit) →
  let bug_id := mint_bug_id now b1 b2 in
  let payload := pipeline_payload (PStr (deterministic_branch_name bug_id commit)) status rest in
  parse_message (Ok payload) = Ok (ValidationStatusEvent bug_id status payload).
Proof.
  intros Ht H1 H2 Hc. cbv zeta.
  by rewrite (parse_message_verdict _ _ _ _ (parse_minted_branch now b1 b2 commit Ht H1 H2 Hc)).
Qed.

Lemma fix_branch_round_trip_witness :
  parse_message (Ok (pipeline_payload (PStr "auto/bf/2026_05_15-12_30_45_3_b10f-0a1b2c3d")
                       (PStr "success") [])) =
  Ok (ValidationStatusEvent "2026_05_15-12_30_45_3_b10f" (PStr "success")
        (pipeline_payload (PStr "auto/bf/2026_05_15-12_30_45_3_b10f-0a1b2c3d") (PStr "success") [])).
Proof.
  apply (fix_branch_round_trip (mkDatetime 2026 5 15 12 30 45 312345) 177 15
           "0a1b2c3d4e5f" (PStr "success") []); try lia.
  - unfold valid_datetime; simpl; lia.
  - split; reflexivity.
Defined.

(** Only a failed pipeline on a branch outside the worker's own [auto/]
    namespace starts a bug fix, and the fix is based on that branch: the worker
    cannot trigger itself. *)
Theorem bug_report_origin (payload : pyval) (pid url job raw : pyval) (branch : string) :
  parse_message (Ok payload) = Ok (BugReportedEvent pid url job branch raw) →
  raw = payload ∧ startswith "auto/" branch = false ∧ parse_branch branch = None ∧
  py_getitem payload "object_kind" = Ok (PStr "pipeline") ∧
  ∃ attrs, py_getitem payload "object_attributes" = Ok attrs ∧
           py_getitem attrs "ref" = Ok (PStr branch) ∧
           py_getitem attrs "status" = Ok (PStr "failed").
Proof.
  unfold parse_message. change (Ok payload ≫= ?f) with (f payload). cbv beta.
  intros (has & _ & H)%res_bind_ok. destruct (negb has); [done|].
  apply res_bind_ok in H as (attrs & Ha & H).
  apply res_bind_ok in H as (ref & Hr & H).
  apply res_bind_ok in H as (attrs' & Ha' & H). rewrite Ha in Ha'. injection Ha' as <-.
  apply res_bind_ok in H as (status & Hs & H).
  destruct ref as [| | | |b| |]; try done. unfold classify_ref in H.
  destruct (parse_branch b) eqn:Hb; [done|].
  destruct (startswith "auto/" b) eqn:Hauto; [done|].
  apply res_bind_ok in H as (kind & Hk & H).
  destruct (pipeline_failed kind status) eqn:Hpf.
  2:{ done. }
  apply pipeline_failed_spec in Hpf as [-> ->].
  apply res_bind_ok in H as (p1 & _ & H). apply res_bind_ok in H as (v1 & _ & H).
  apply res_bind_ok in H as (p2 & _ & H). apply res_bind_ok in H as (v2 & _ & H).
  apply res_bind_ok in H as (bs & _ & H). apply res_bind_ok in H as (f & _ & H).
  apply res_bind_ok in H as (v3 & _ & H). injection H as <- <- <- <- <-.
  repeat split; auto. by exists attrs.
Qed.

Lemma bug_report_origin_witness :
  py_getitem (pipeline_payload (PStr "main") (PStr "failed") [("object_kind", PStr "pipeline")])
    "object_kind" = Ok (PStr "pipeline").
Proof.
  by apply (bug_report_origin
    (pipeline_payload (PStr "main") (PStr "failed") [("object_kind", PStr "pipeline")])
    (PStr "") (PStr "") (PStr "")
    (pipeline_payload (PStr "main") (PStr "failed") [("object_kind", PStr "pipeline")]) "main").
Defined.

(** ** Kubernetes names are legal *)

(** [[a-z0-9]] and [[a-z0-9-]] *)
Definition dns_alnum (c : ascii) : bool := is_lower c || is_digit c.
Definition dns_char (c : ascii) : bool := dns_alnum c || ch_eq c "-"%char.

(** A DNS-1123 label. *)
Definition dns_label (s : string) : Prop :=
  (1 ≤ String.length s ≤ 63)%nat ∧ str_forallb dns_char s = true ∧
  (∃ c r, s = String c r ∧ dns_alnum c = true) ∧ str_ends dns_alnum s = true.

Definition slug (bug_id : string) : string :=
  str_strip_by (λ c, ch_eq c "-"%char) (re_sub SLUG_RE [PLit "-"] (str_lower bug_id)).

Lemma slug_chars b : str_forallb dns_char (slug b) = true.
Proof.
  unfold slug, str_strip_by. apply str_forallb_rstrip, str_forallb_lstrip.
  apply re_sub_chars; [|by intros c].
  intros prev a s Ha. apply (re_match_at_plus false true _ prev a s).
  unfold dns_char, dns_alnum in Ha. apply orb_false_iff in Ha as [Ha _].
  apply orb_false_iff in Ha as [H1 H2]. unfold set_has, in_ranges. simpl.
  unfold is_lower, is_digit, in_range in *. by rewrite H1, H2.
Qed.

Lemma dns_char_end s :
  str_forallb dns_char s = true → str_ends (λ c, negb (ch_eq c "-"%char)) s = true →
  str_ends dns_alnum s = true.
Proof.
  induction s as [|c s IH]; [done|]. cbn [str_forallb str_ends].
  intros [Hc Hs]%andb_true_iff. destruct s as [|d s]; [|by apply IH].
  unfold dns_char in Hc. intros Hd%negb_true_iff. rewrite Hd in Hc. by rewrite orb_false_r in Hc.
Qed.

Lemma dns_name_label x :
  str_forallb dns_char x = true →
  dns_label (str_rstrip (λ c, ch_eq c "-"%char) (str_take 63 ("bf-worker-" +:+ x))).
Proof.
  intros Hx.
  assert (∃ y, str_rstrip (λ c, ch_eq c "-"%char) (str_take 63 ("bf-worker-" +:+ x)) = String "b" y)
    as [y Hy].
  { cbn [String.append str_take]. rewrite rstrip_cons_keep by done. eauto. }
  assert (str_forallb dns_char (str_rstrip (λ c, ch_eq c "-"%char)
            (str_take 63 ("bf-worker-" +:+ x))) = true) as Hall.
  { apply str_forallb_rstrip, str_forallb_take. rewrite str_forallb_app, Hx. done. }
  assert (String.length (str_rstrip (λ c, ch_eq c "-"%char) (str_take 63 ("bf-worker-" +:+ x)))
            ≤ 63)%nat as Hlen.
  { etransitivity; [apply str_length_rstrip|]. apply str_length_take. }
  destruct (rstrip_end (λ c, ch_eq c "-"%char) (str_take 63 ("bf-worker-" +:+ x))) as [E|E];
    [rewrite Hy in E; discriminate|].
  rewrite Hy in *. repeat split; auto.
  - simpl. lia.
  - by exists "b"%char, y.
  - by apply dns_char_end.
Qed.

(** The Job of any bug, restarted any number of times, has a name the
    Kubernetes API accepts. *)
Theorem k8s_job_name_valid (bug_id : string) (restart_count : nat) :
  dns_label (k8s_job_name bug_id restart_count).
Proof.
  unfold k8s_job_name. cbv zeta. fold (slug bug_id).
  destruct (restart_count =? 0)%nat; [apply dns_name_label, slug_chars|].
  rewrite <- str_app_assoc. apply dns_name_label.
  rewrite !str_forallb_app, slug_chars. simpl.
  eapply str_forallb_impl; [|apply str_of_nat_digits].
  intros c Hc. unfold dns_char, dns_alnum. rewrite Hc. by rewrite orb_true_r.
Qed.

(** The restart suffix is cut off a long identity: two restarts of one bug can
    then ask for the same Job name. *)
Lemma k8s_job_name_collision :
  let b := "django__django-a-very-long-instance-identifier-0123456789-0123456789" in
  k8s_job_name b 1 = k8s_job_name b 2.
Proof. by vm_compute. Qed.

(** [[A-Za-z0-9]] and [[-A-Za-z0-9_.]] *)
Definition label_alnum (c : ascii) : bool :=
  set_has false false [(65, 90); (97, 122); (48, 57)]%N c.
Definition label_char (c : ascii) : bool :=
  set_has false false [(45, 45); (65, 90); (97, 122); (48, 57); (95, 95); (46, 46)]%N c.

(** A Kubernetes label value: it may not be empty here. *)
Definition label_value (s : string) : Prop :=
  (1 ≤ String.length s ≤ 63)%nat ∧ str_forallb label_char s = true ∧
  (∃ c r, s = String c r ∧ label_alnum c = true) ∧ str_ends label_alnum s = true.

(** A newline at the end slips through the pattern's [$]. *)
Lemma k8s_label_value_newline :
  k8s_label_value ("abc" +:+ nl) = "abc" +:+ nl.
Proof. by vm_compute. Qed.

Lemma at_eol_end s : str_forallb (λ c, negb (ch_eq c c_nl)) s = true → at_eol false s = true →
  s = EmptyString.
Proof.
  destruct s as [|c s]; [done|]. simpl. intros [Hc _]%andb_true_iff.
  apply negb_true_iff in Hc. by rewrite Hc.
Qed.

Lemma label_alnum_char c : label_alnum c = true → label_char c = true.
Proof.
  unfold label_alnum, label_char, set_has, in_ranges. simpl. rewrite !orb_false_r.
  intros H. by rewrite !orb_true_iff in *; tauto.
Qed.

Lemma str_ends_app P u c : str_ends P (u +:+ String c EmptyString) = P c.
Proof. induction u as [|d u IH]; [done|]. simpl. by destruct u. Qed.

Lemma label_match_valid v m t c :
  str_forallb (λ c, negb (ch_eq c c_nl)) v = true → (String.length v ≤ 63)%nat →
  re_match LABEL_VALUE_RE v = Some (m, t, c) → label_value v.
Proof.
  intros Hnl Hlen Hm. unfold re_match, re_match_at in Hm.
  destruct (rmatch LABEL_VALUE_RE None v [] (λ _ s' c0, Some (s', c0))) as [[t' c']|] eqn:E; [|done].
  apply rmatch_sound in E as (p' & s' & c'' & Hmat & _). unfold LABEL_VALUE_RE in Hmat.
  inversion Hmat as [| |? ? ? ? ? ? ? ? ? ? ? H1 H2| | | | | | | | ]; subst; clear Hmat.
  inversion H1 as [| |? ? ? ? ? ? ? ? ? ? ? H3 H4| | | | | | | | ]; subst; clear H1.
  inversion H3 as [| |? ? ? ? ? ? ? ? ? ? ? H5 H6| | | | | | | | ]; subst; clear H3.
  inversion H5; subst; clear H5. inversion H6 as [|? ? ? ? a ? ? Ha| | | | | | | | | ]; subst; clear H6.
  inversion H2 as [| | | | | | | | |? ? ? ? Heol|]; subst; clear H2.
  cbn [str_forallb] in Hnl. apply andb_true_iff in Hnl as [_ Hnl].
  change (label_alnum a = true) in Ha.
  inversion H4 as [| | |? ? ? ? ? ? ? ? Hg|? ? ? ? ? ? ? ? Hg| | | | | | ]; subst; clear H4.
  - inversion Hg; subst; clear Hg.
    match goal with H : matches REps _ _ _ _ _ _ |- _ => inversion H; subst; clear H end.
    match goal with H : matches (RGroup _ _) _ _ _ _ _ _ |- _ => inversion H; subst; clear H end.
    match goal with H : matches (RSeq (RStar _ _) _) _ _ _ _ _ _ |- _ => rename H into Hs end.
    inversion Hs as [| |? ? ? ? ? ? ? ? ? ? ? Hstar Hset| | | | | | | | ]; subst; clear Hs.
    apply matches_star_set in Hstar as (u & -> & Hu).
    inversion Hset as [|? ? ? ? b ? ? Hb| | | | | | | | | ]; subst; clear Hset.
    change (label_alnum b = true) in Hb.
    rewrite str_forallb_app in Hnl. cbn [str_forallb] in Hnl.
    apply andb_true_iff in Hnl as [_ [_ Hnl]%andb_true_iff].
    rewrite (at_eol_end _ Hnl Heol) in *.
    split; [split; [simpl; lia|done]|]. split; [|split; [by exists a, (u +:+ String b EmptyString)|]].
    + cbn [str_forallb]. rewrite str_forallb_app. cbn [str_forallb].
      rewrite (label_alnum_char _ Ha), (label_alnum_char _ Hb).
      change (str_forallb label_char u = true) in Hu. by rewrite Hu.
    + change (String a (u +:+ String b EmptyString)) with (String a u +:+ String b EmptyString).
      by rewrite str_ends_app.
  - inversion Hg; subst; clear Hg. rewrite (at_eol_end _ Hnl Heol) in *.
    split; [split; [simpl; lia|done]|]. split; [|split; [by exists a, EmptyString|done]].
    cbn [str_forallb]. by rewrite (label_alnum_char _ Ha).
Qed.

Definition is_edge (c : ascii) : bool := mem c ["-"; "."; "_"]%char.

Lemma label_char_inner c : label_char c = true → is_edge c = false → label_alnum c = true.
Proof. destruct c as [[] [] [] [] [] [] [] []]; vm_compute; congruence. Qed.

Lemma str_ends_impl (P Q : ascii → bool) s :
  (∀ c, P c = true → Q c = true) → str_ends P s = true → str_ends Q s = true.
Proof.
  intros HPQ. induction s as [|c s IH]; [done|]. cbn [str_ends]. destruct s; auto.
Qed.

Lemma label_cleaned_valid v :
  (String.length v ≤ 63)%nat →
  let cleaned := str_take 63 (str_strip_by is_edge (re_sub LABEL_BAD_RE [PLit "-"] v)) in
  cleaned ≠ EmptyString → label_value cleaned.
Proof.
  intros Hlen. cbv zeta.
  assert (str_forallb label_char (re_sub LABEL_BAD_RE [PLit "-"] v) = true) as Hall.
  { apply re_sub_chars; [|by intros c]. intros prev a s Ha. exists s, [].
    split; [|simpl; lia]. apply re_match_at_set. unfold label_char, set_has in *.
    change (xorb false ?b) with b in Ha. simpl. simpl in Ha. by rewrite Ha. }
  assert (String.length (str_strip_by is_edge (re_sub LABEL_BAD_RE [PLit "-"] v)) ≤ 63)%nat as Hl.
  { unfold str_strip_by. etransitivity; [apply str_length_rstrip|].
    etransitivity; [apply str_length_lstrip|].
    unfold LABEL_BAD_RE. by rewrite (re_sub_set_length _ _ _ "-"). }
  rewrite str_take_short by done. intros Hne.
  assert (str_forallb label_char (str_strip_by is_edge (re_sub LABEL_BAD_RE [PLit "-"] v)) = true)
    as Hc by (by apply str_forallb_rstrip, str_forallb_lstrip).
  unfold str_strip_by in *. set (body := str_lstrip _ _) in *.
  destruct (rstrip_end is_edge body) as [E|E]; [done|].
  destruct body as [|a r] eqn:Eb; [done|].
  assert (is_edge a = false) as Ha by (eapply lstrip_head; exact Eb).
  destruct (rstrip_head is_edge _ a r Ha eq_refl) as [r' Hr]. rewrite Hr in *.
  assert (label_char a = true) as Hca by (by apply andb_true_iff in Hc as [? _]).
  split; [split; [simpl; lia|done]|]. split; [done|]. split.
  - exists a, r'. split; [done|]. by apply label_char_inner.
  - eapply str_ends_impl; [|exact (str_ends_all _ _ _ Hc E)].
    intros c [H1 H2]%andb_true_iff. apply label_char_inner; [done|]. by apply negb_true_iff.
Qed.

(** Any identity without a newline becomes a label value the Kubernetes API
    accepts. *)
Theorem k8s_label_value_valid (value : string) :
  str_forallb (λ c, negb (ch_eq c c_nl)) value = true → label_value (k8s_label_value value).
Proof.
  intros Hnl. unfold k8s_label_value. cbv zeta.
  pose proof (str_length_take 63 value) as Hlen.
  destruct (re_match LABEL_VALUE_RE (str_take 63 value)) as [[[m t] c]|] eqn:E.
  - eapply label_match_valid; [by apply str_forallb_take|done|exact E].
  - destruct (str_nonempty _) eqn:Ene.
    + apply (label_cleaned_valid _ Hlen). intros E0. unfold is_edge in E0. by rewrite E0 in Ene.
    + split; [simpl; lia|]. split; [done|]. split; [by exists "u"%char, "nknown"|done].
Qed.

Lemma k8s_label_value_valid_witness : label_value (k8s_label_value "__a b").
Proof. by apply k8s_label_value_valid. Defined.

End BugIds.
