(* ===== verification/PyJson.v ===== *)
(** * [json.dumps]

    The serialiser with the options the source uses: sorted keys or insertion
    order, the separators, and [ensure_ascii].  With [ensure_ascii=False] a
    Latin-1 character is written as it is; the UTF-8 encoding that follows in
    the source is not modelled. *)

From S2P Require Import Prelude PyStr.
From stdpp Require Import sorting.
From Stdlib Require Import Sorting.Sorted.
Local Open Scope string_scope.
Local Open Scope list_scope.

Definition hex4 (n : N) : string :=
  String (hex_digit (n / 4096 mod 16)) (String (hex_digit (n / 256 mod 16))
    (String (hex_digit (n / 16 mod 16)) (String (hex_digit (n mod 16)) EmptyString))).

Definition json_char (ensure_ascii : bool) (c : ascii) : string :=
  let esc x := String c_backslash (String x EmptyString) in
  if ch_eq c c_dquote then esc c_dquote
  else if ch_eq c c_backslash then esc c_backslash
  else if ch_eq c c_nl then esc "n"%char
  else if ch_eq c c_cr then esc "r"%char
  else if ch_eq c c_tab then esc "t"%char
  else if (code c =? 8)%N then esc "b"%char
  else if (code c =? 12)%N then esc "f"%char
  else if ((code c <? 32) || ensure_ascii && (127 <=? code c))%N
  then String c_backslash (String "u" (hex4 (code c)))
  else String c EmptyString.

Fixpoint json_chars (ensure_ascii : bool) (s : string) : string :=
  match s with
  | EmptyString => EmptyString
  | String c s' => json_char ensure_ascii c +:+ json_chars ensure_ascii s'
  end.

Definition json_str (ensure_ascii : bool) (s : string) : string :=
  dquote +:+ json_chars ensure_ascii s +:+ dquote.

(** Lexicographic order on code points. *)
Fixpoint str_leb (a b : string) : bool :=
  match a, b with
  | EmptyString, _ => true
  | String _ _, EmptyString => false
  | String c a', String d b' =>
      if (code c <? code d)%N then true
      else if (code d <? code c)%N then false else str_leb a' b'
  end.

(** Insertion into a list sorted by key: a stable insertion sort. *)
Fixpoint insert_by {A} (key : A → string) (x : A) (l : list A) : list A :=
  match l with
  | [] => [x]
  | y :: l' => if str_leb (key y) (key x) then y :: insert_by key x l' else x :: l
  end.
(** [sorted(l, key=key)] *)
Definition sort_by {A} (key : A → string) (l : list A) : list A :=
  fold_left (λ acc x, insert_by key x acc) l [].

Record json_opts := mkJsonOpts {
  sort_keys : bool; item_sep : string; key_sep : string; ensure_ascii : bool
}.
Definition default_opts : json_opts := mkJsonOpts false ", " ": " true.
Definition canonical_opts : json_opts := mkJsonOpts true "," ":" false.

Fixpoint json_dumps `{FloatRepr} (o : json_opts) (v : pyval) : string :=
  match v with
  | PNone => "null"
  | PBool b => if b then "true" else "false"
  | PInt z => str_of_Z z
  | PFloat q => float_repr q
  | PStr s => json_str (ensure_ascii o) s
  | PList l => "[" +:+ str_join (item_sep o) (map (json_dumps o) l) +:+ "]"
  | PDict d =>
      let items := map (λ '(k, x), (k, json_dumps o x)) d in
      let items := if sort_keys o then sort_by fst items else items in
      "{" +:+ str_join (item_sep o)
                (map (λ '(k, t), json_str (ensure_ascii o) k +:+ key_sep o +:+ t) items) +:+ "}"
  end.

Lemma insert_by_perm {A} (key : A → string) x l : insert_by key x l ≡ₚ x :: l.
Proof.
  induction l as [|y l IH]; simpl; [done|]. destruct (str_leb (key y) (key x)); [|done].
  rewrite IH. constructor.
Qed.

Lemma sort_by_perm {A} (key : A → string) l : sort_by key l ≡ₚ l.
Proof.
  unfold sort_by. enough (∀ acc, fold_left (λ acc x, insert_by key x acc) l acc ≡ₚ l ++ acc) as H
    by (rewrite H; by rewrite app_nil_r).
  induction l as [|x l IH]; intros acc; simpl; [done|].
  rewrite IH, insert_by_perm. by rewrite Permutation_middle.
Qed.

(** The order is total, so sorting by distinct keys has one outcome. *)
Lemma str_leb_total a b : str_leb a b = true ∨ str_leb b a = true.
Proof.
  revert b. induction a as [|c a IH]; intros [|d b]; simpl; auto.
  destruct (N.ltb_spec (code c) (code d)), (N.ltb_spec (code d) (code c)); auto; lia.
Qed.

Lemma str_leb_antisym a b : str_leb a b = true → str_leb b a = true → a = b.
Proof.
  revert b. induction a as [|c a IH]; intros [|d b]; simpl; try done.
  destruct (N.ltb_spec (code c) (code d)), (N.ltb_spec (code d) (code c)); try done; try lia.
  intros Hab Hba. f_equal; [|by apply IH]. rewrite <- (ascii_N_embedding c), <- (ascii_N_embedding d).
  unfold code in *. f_equal. lia.
Qed.

Lemma str_leb_trans a b c : str_leb a b = true → str_leb b c = true → str_leb a c = true.
Proof.
  revert b c. induction a as [|x a IH]; intros [|y b] [|z c]; simpl; try done.
  destruct (N.ltb_spec (code x) (code y)), (N.ltb_spec (code y) (code z)),
    (N.ltb_spec (code x) (code z)), (N.ltb_spec (code y) (code x)), (N.ltb_spec (code z) (code y)),
    (N.ltb_spec (code z) (code x)); try done; try lia. intros Hab Hbc. by apply (IH b).
Qed.

Definition key_le {A} (key : A → string) (x y : A) : Prop := str_leb (key x) (key y) = true.

Lemma insert_by_sorted {A} (key : A → string) x l :
  StronglySorted (key_le key) l → StronglySorted (key_le key) (insert_by key x l).
Proof.
  induction l as [|y l IH]; intros Hs; simpl; [by repeat constructor|].
  apply StronglySorted_inv in Hs as [Hs Hy]. destruct (str_leb (key y) (key x)) eqn:E.
  - constructor; [by apply IH|]. rewrite insert_by_perm. by constructor.
  - assert (key_le key x y) as Hxy by (destruct (str_leb_total (key x) (key y)); [done|congruence]).
    constructor; [by constructor|]. constructor; [done|].
    eapply Forall_impl; [exact Hy|]. intros z Hz. by eapply str_leb_trans.
Qed.

Lemma sort_by_sorted {A} (key : A → string) l : StronglySorted (key_le key) (sort_by key l).
Proof.
  unfold sort_by. enough (∀ acc, StronglySorted (key_le key) acc →
    StronglySorted (key_le key) (fold_left (λ acc x, insert_by key x acc) l acc)) as H
    by (apply H; constructor).
  induction l as [|x l IH]; intros acc Hacc; simpl; [done|]. by apply IH, insert_by_sorted.
Qed.

Lemma NoDup_map_inj {A B} (f : A → B) l x y :
  NoDup (map f l) → x ∈ l → y ∈ l → f x = f y → x = y.
Proof.
  induction l as [|z l IH]; [by intros _ ?%elem_of_nil|]. simpl.
  intros [Hz Hl]%NoDup_cons [->|Hx]%elem_of_cons [->|Hy]%elem_of_cons Heq; auto.
  - destruct Hz. rewrite Heq. by apply list_elem_of_fmap_2.
  - destruct Hz. rewrite <- Heq. by apply list_elem_of_fmap_2.
Qed.

Lemma sort_by_unique {A} (key : A → string) l l' :
  NoDup (map key l) → l ≡ₚ l' → sort_by key l = sort_by key l'.
Proof.
  intros Hnd Hp. apply (StronglySorted_unique_strong (key_le key)).
  - intros x y Hx Hy Hxy Hyx. rewrite sort_by_perm in Hx. rewrite sort_by_perm, <- Hp in Hy.
    apply (NoDup_map_inj key l); auto. by apply str_leb_antisym.
  - apply sort_by_sorted.
  - apply sort_by_sorted.
  - by rewrite !sort_by_perm.
Qed.
