(* ===== verification/PyJsonLoads.v ===== *)
(** * [json.loads]

    The reader of the Standard Library's [json] module on texts whose code
    points are below 256: a text with a higher [\u] escape, and the constants
    [NaN] and [Infinity], have no value here.  The main lemma is the round trip
    with [json_dumps]. *)

From S2P Require Import Prelude PyStr PyJson.
Local Open Scope string_scope.
Local Open Scope list_scope.

Definition json_ws (c : ascii) : bool :=
  (ch_eq c " "%char || ch_eq c c_tab || ch_eq c c_nl || ch_eq c c_cr)%bool.
Definition skip_ws (s : string) : string := str_lstrip json_ws s.

Definition hex_digit_val (c : ascii) : option N :=
  let n := code c in
  if is_digit c then Some (n - 48)%N
  else if in_range 97 102 c then Some (n - 87)%N
  else if in_range 65 70 c then Some (n - 55)%N else None.

Definition unescape (e : ascii) : option ascii :=
  if ch_eq e c_dquote then Some c_dquote
  else if ch_eq e c_backslash then Some c_backslash
  else if ch_eq e "/"%char then Some "/"%char
  else if ch_eq e "n"%char then Some c_nl
  else if ch_eq e "r"%char then Some c_cr
  else if ch_eq e "t"%char then Some c_tab
  else if ch_eq e "b"%char then Some (ascii_of_N 8)
  else if ch_eq e "f"%char then Some (ascii_of_N 12)
  else None.

Definition hex4_val (a b c d : ascii) : option ascii :=
  match hex_digit_val a, hex_digit_val b, hex_digit_val c, hex_digit_val d with
  | Some a, Some b, Some c, Some d =>
      let n := (((a * 16 + b) * 16 + c) * 16 + d)%N in
      if (n <? 256)%N then Some (ascii_of_N n) else None
  | _, _, _, _ => None
  end.

Definition cons_res (c : option ascii) (r : option (string * string)) : option (string * string) :=
  match c, r with
  | Some c, Some (u, rest) => Some (String c u, rest)
  | _, _ => None
  end.

(** The characters after an opening quote, and what follows the closing one. *)
Fixpoint scan_string (s : string) : option (string * string) :=
  match s with
  | EmptyString => None
  | String c s' =>
      if ch_eq c c_dquote then Some (EmptyString, s')
      else if ch_eq c c_backslash then
        match s' with
        | EmptyString => None
        | String e s'' =>
            if ch_eq e "u"%char then
              match s'' with
              | String h1 (String h2 (String h3 (String h4 r))) =>
                  cons_res (hex4_val h1 h2 h3 h4) (scan_string r)
              | _ => None
              end
            else cons_res (unescape e) (scan_string s'')
        end
      else if (code c <? 32)%N then None
      else cons_res (Some c) (scan_string s')
  end.

Fixpoint span_digits (s : string) : string * string :=
  match s with
  | String c s' =>
      if is_digit c then let '(ds, r) := span_digits s' in (String c ds, r) else (EmptyString, s)
  | EmptyString => (EmptyString, s)
  end.

(** The integer part: a lone zero, or digits that do not start with one. *)
Definition scan_int (s : string) : option (string * string) :=
  match span_digits s with
  | (EmptyString, _) => None
  | (String c ds, r) =>
      if ch_eq c "0"%char then Some ("0", ds +:+ r) else Some (String c ds, r)
  end.

Definition scan_frac (s : string) : string * string :=
  match s with
  | String c s' =>
      if ch_eq c "."%char then
        match span_digits s' with
        | (EmptyString, _) => (EmptyString, s)
        | (ds, r) => (String c ds, r)
        end
      else (EmptyString, s)
  | EmptyString => (EmptyString, s)
  end.

Definition split_sign (s : string) : string * string :=
  match s with
  | String c s' => if (ch_eq c "-" || ch_eq c "+")%char then (String c EmptyString, s') else (EmptyString, s)
  | EmptyString => (EmptyString, s)
  end.

Definition scan_exp (s : string) : string * string :=
  match s with
  | String c s' =>
      if (ch_eq c "e" || ch_eq c "E")%char then
        let '(sign, s1) := split_sign s' in
        match span_digits s1 with
        | (EmptyString, _) => (EmptyString, s)
        | (ds, r) => (String c (sign +:+ ds), r)
        end
      else (EmptyString, s)
  | EmptyString => (EmptyString, s)
  end.

Definition split_minus (s : string) : string * string :=
  match s with
  | String c s' => if ch_eq c "-"%char then ("-", s') else (EmptyString, s)
  | EmptyString => (EmptyString, s)
  end.

Definition scan_number `{FloatParse} (s : string) : option (pyval * string) :=
  let '(sign, s1) := split_minus s in
  match scan_int s1 with
  | None => None
  | Some (ds, s2) =>
      let '(frac, s3) := scan_frac s2 in
      let '(ex, s4) := scan_exp s3 in
      if str_nonempty (frac +:+ ex)
      then (λ q, (PFloat q, s4)) <$> float_parse (sign +:+ ds +:+ frac +:+ ex)
      else (λ z, (PInt z, s4)) <$> str_int (sign +:+ ds)
  end.

(** [c] is the first character, and what follows it. *)
Definition eat (c : ascii) (s : string) : option string :=
  match s with String d s' => if ch_eq c d then Some s' else None | EmptyString => None end.

(** The fuel is a bound on the length of the text, one per value or item. *)
Fixpoint scan_value `{FloatParse} (n : nat) (s : string) {struct n} : option (pyval * string) :=
  match n with
  | O => None
  | S n' =>
      match s with
      | EmptyString => None
      | String c s' =>
          if ch_eq c c_dquote then (λ '(t, r), (PStr t, r)) <$> scan_string s'
          else if ch_eq c "["%char then
            match eat "]" (skip_ws s') with
            | Some r => Some (PList [], r)
            | None => scan_items n' (skip_ws s') []
            end
          else if ch_eq c "{"%char then
            match eat "}" (skip_ws s') with
            | Some r => Some (PDict [], r)
            | None => scan_members n' (skip_ws s') []
            end
          else if startswith "null" s then Some (PNone, str_drop 4 s)
          else if startswith "true" s then Some (PBool true, str_drop 4 s)
          else if startswith "false" s then Some (PBool false, str_drop 5 s)
          else scan_number s
      end
  end
with scan_items `{FloatParse} (n : nat) (s : string) (acc : list pyval) {struct n} :
    option (pyval * string) :=
  match n with
  | O => None
  | S n' =>
      match scan_value n' s with
      | None => None
      | Some (v, r) =>
          let r := skip_ws r in
          match eat "]" r, eat "," r with
          | Some r', _ => Some (PList (acc ++ [v]), r')
          | None, Some r' => scan_items n' (skip_ws r') (acc ++ [v])
          | None, None => None
          end
      end
  end
with scan_members `{FloatParse} (n : nat) (s : string) (acc : list (string * pyval)) {struct n} :
    option (pyval * string) :=
  match n with
  | O => None
  | S n' =>
      match eat c_dquote s ≫= scan_string with
      | None => None
      | Some (k, r) =>
          match eat ":" (skip_ws r) with
          | None => None
          | Some r1 =>
              match scan_value n' (skip_ws r1) with
              | None => None
              | Some (v, r2) =>
                  let r2 := skip_ws r2 in
                  match eat "}" r2, eat "," r2 with
                  | Some r3, _ => Some (PDict (dict_set k v acc), r3)
                  | None, Some r3 => scan_members n' (skip_ws r3) (dict_set k v acc)
                  | None, None => None
                  end
              end
          end
      end
  end.

(** [json.loads(s)], [None] where it raises [JSONDecodeError]. *)
Definition json_loads `{FloatParse} (s : string) : option pyval :=
  match scan_value (S (String.length s)) (skip_ws s) with
  | Some (v, r) => if str_nonempty (skip_ws r) then None else Some v
  | None => None
  end.

(** ** Round trip *)

(** What comes back: the same value, with its keys in the order they are
    written in. *)
Definition key_order {V} (o : json_opts) (d : list (string * V)) : list (string * V) :=
  if sort_keys o then sort_by fst d else d.

Fixpoint canon (o : json_opts) (v : pyval) : pyval :=
  match v with
  | PList l => PList (map (canon o) l)
  | PDict d => PDict (key_order o (map (λ '(k, x), (k, canon o x)) d))
  | v => v
  end.

Definition value_end (s : string) : bool :=
  match s with
  | EmptyString => true
  | String c _ => negb (is_digit c || mem c ["."; "e"; "E"]%char)
  end.

(** The text of a float is a JSON number that reads back as that float, as
    [float.__repr__] documents. *)
Definition json_float `{FloatRepr, FloatParse} (q : Q) : Prop :=
  (∃ c t, float_repr q = String c t ∧ (is_digit c = true ∨ c = "-"%char)) ∧
  ∀ rest, value_end rest = true → scan_number (float_repr q +:+ rest) = Some (PFloat q, rest).

(** A value [json.dumps] was given: keys are unique, floats are finite. *)
Fixpoint json_ok `{FloatRepr, FloatParse} (v : pyval) : Prop :=
  match v with
  | PFloat q => json_float q
  | PList l => foldr (λ x P, json_ok x ∧ P) True l
  | PDict d => NoDup (map fst d) ∧ foldr (λ '(_, x) P, json_ok x ∧ P) True d
  | _ => True
  end.

Definition plain_seps (o : json_opts) : Prop :=
  (item_sep o = "," ∨ item_sep o = ", ") ∧ (key_sep o = ":" ∨ key_sep o = ": ").

Lemma scan_string_char ea c t : scan_string (json_char ea c +:+ t) = cons_res (Some c) (scan_string t).
Proof. destruct ea, c as [[] [] [] [] [] [] [] []]; reflexivity. Qed.

Lemma scan_string_chars ea s rest :
  scan_string (json_chars ea s +:+ String c_dquote rest) = Some (s, rest).
Proof.
  induction s as [|c s IH]; cbn [json_chars]; [by cbn [String.append scan_string]; rewrite ch_eq_refl|].
  by rewrite <- str_app_assoc, scan_string_char, IH.
Qed.

Lemma span_digits_app ds rest :
  str_forallb is_digit ds = true → value_end rest = true → span_digits (ds +:+ rest) = (ds, rest).
Proof.
  intros Hd Hr. induction ds as [|c ds IH]; simpl in *.
  - destruct rest as [|c r]; [done|]. simpl in *. apply negb_true_iff, orb_false_iff in Hr as [-> _]. done.
  - apply andb_true_iff in Hd as [-> Hd]. by rewrite IH.
Qed.

(** A decimal numeral does not start with a zero, but for zero itself. *)
Lemma digits_go_head fuel n acc :
  (0 < n)%N → (n < 10 ^ N.of_nat fuel)%N →
  ∃ c t, digits_go fuel n acc = String c t ∧ ch_eq c "0"%char = false.
Proof.
  revert n acc. induction fuel as [|fuel IH]; intros n acc Hpos Hlt; [simpl in Hlt; lia|].
  simpl. destruct (N.ltb_spec n 10) as [Hn|Hn].
  - rewrite N.mod_small by done. eexists _, _. split; [done|]. apply ch_eq_false. unfold digit_char.
    intros Heq. apply (f_equal N_of_ascii) in Heq. rewrite N_ascii_embedding in Heq by lia.
    change (N_of_ascii "0") with 48%N in Heq. lia.
  - apply IH; [apply N.div_str_pos; lia|]. apply N.Div0.div_lt_upper_bound.
    rewrite Nat2N.inj_succ, N.pow_succ_r' in Hlt. lia.
Qed.

Lemma scan_int_str_of_N n rest :
  value_end rest = true → scan_int (str_of_N n +:+ rest) = Some (str_of_N n, rest).
Proof.
  intros Hr. unfold scan_int. rewrite span_digits_app by (done || apply str_of_N_digits).
  destruct (decide (n = 0)%N) as [->|Hn]; [done|].
  destruct (digits_go_head (S (N.to_nat (N.log2 n))) n EmptyString ltac:(lia) (log2_fuel n))
    as (c & t & E & Hc).
  unfold str_of_N. by rewrite E, Hc.
Qed.

Lemma value_end_scan rest : value_end rest = true → scan_frac rest = (EmptyString, rest) ∧ scan_exp rest = (EmptyString, rest).
Proof.
  destruct rest as [|c r]; [done|]. unfold value_end, scan_frac, scan_exp. intros H.
  apply negb_true_iff, orb_false_iff in H as [_ H]. unfold mem in H. apply bool_decide_eq_false in H.
  assert (∀ x, x ∈ ["."; "e"; "E"]%char → ch_eq c x = false) as Hx.
  { intros x Hx. apply ch_eq_false. by intros ->. }
  rewrite !Hx by set_solver. done.
Qed.

Lemma scan_number_int `{FloatParse} z rest :
  value_end rest = true → scan_number (str_of_Z z +:+ rest) = Some (PInt z, rest).
Proof.
  intros Hr. destruct (value_end_scan rest Hr) as [Hf He]. unfold scan_number.
  pose proof (str_int_of_Z z) as Hz. unfold str_of_Z in *. destruct (Z.ltb_spec z 0) as [Hlt|Hlt].
  - cbn [String.append split_minus]. rewrite ch_eq_refl, scan_int_str_of_N, Hf, He by done.
    simpl. by rewrite Hz.
  - assert (split_minus (str_of_N (Z.to_N z) +:+ rest) = (EmptyString, str_of_N (Z.to_N z) +:+ rest)) as ->.
    { pose proof (str_of_N_digits (Z.to_N z)) as Hd. pose proof (int_digits_str_of_N (Z.to_N z)) as Hi.
      destruct (str_of_N (Z.to_N z)) as [|c s]; [done|]. simpl in *.
      apply andb_true_iff in Hd as [Hc _]. by destruct (ch_eq_false c "-") as [_ ->]; [|intros ->]. }
    rewrite scan_int_str_of_N, Hf, He by done. simpl. by rewrite Hz.
Qed.

(** The first character of a value tells what it is. *)
Lemma str_of_Z_head z : ∃ c t, str_of_Z z = String c t ∧ (is_digit c = true ∨ c = "-"%char).
Proof.
  unfold str_of_Z. destruct (z <? 0)%Z; [eauto|].
  pose proof (str_of_N_digits (Z.to_N z)) as Hd. pose proof (int_digits_str_of_N (Z.to_N z)) as Hi.
  destruct (str_of_N (Z.to_N z)) as [|c s]; [done|]. simpl in Hd. apply andb_true_iff in Hd as [Hd _]. eauto.
Qed.

Lemma scan_value_number `{FloatParse} n c t :
  is_digit c = true ∨ c = "-"%char → scan_value (S n) (String c t) = scan_number (String c t).
Proof.
  intros Hc. cbn [scan_value startswith].
  destruct c as [[] [] [] [] [] [] [] []]; try reflexivity; destruct Hc as [Hc|Hc]; discriminate.
Qed.

(** No value starts with a blank or with a closing bracket. *)
Definition opens_value (c : ascii) : bool :=
  negb (json_ws c || ch_eq c "]"%char || ch_eq c "}"%char).

Lemma dumps_head `{FloatRepr, FloatParse} o v :
  json_ok v → ∃ c t, json_dumps o v = String c t ∧ opens_value c = true.
Proof.
  assert (∀ c, is_digit c = true ∨ c = "-"%char → opens_value c = true) as Hn.
  { intros [[] [] [] [] [] [] [] []] [Hc|Hc]; (reflexivity || discriminate). }
  destruct v as [|[]|z|q|s|l|d]; simpl; intros Hok; try (eexists _, _; split; [reflexivity|done]).
  - destruct (str_of_Z_head z) as (c & t & -> & Hc). eauto.
  - destruct Hok as [(c & t & -> & Hc) _]. eauto.
Qed.

Lemma skip_ws_head c t : json_ws c = false → skip_ws (String c t) = String c t.
Proof. intros Hc. unfold skip_ws. simpl. by rewrite Hc. Qed.

Lemma skip_dumps `{FloatRepr, FloatParse} o v rest :
  json_ok v → skip_ws (json_dumps o v +:+ rest) = json_dumps o v +:+ rest ∧
  eat "]" (json_dumps o v +:+ rest) = None.
Proof.
  intros Hok. destruct (dumps_head o v Hok) as (c & t & -> & Hc). unfold opens_value in Hc.
  apply negb_true_iff, orb_false_iff in Hc as [[Hw Hb]%orb_false_iff _]. simpl.
  rewrite skip_ws_head by done. split; [done|]. apply ch_eq_false in Hb.
  rewrite (proj2 (ch_eq_false _ _)); [done|congruence].
Qed.

(** The texts of the members, in the order they are written in. *)
Definition member_text `{FloatRepr} (o : json_opts) (m : string * pyval) : string :=
  json_str (ensure_ascii o) m.1 +:+ key_sep o +:+ json_dumps o m.2.

Lemma insert_by_map {A B} (f : A → B) (key : A → string) (key' : B → string) x l :
  (∀ a, key' (f a) = key a) → map f (insert_by key x l) = insert_by key' (f x) (map f l).
Proof.
  intros Hk. induction l as [|y l IH]; simpl; [done|]. rewrite !Hk.
  destruct (str_leb (key y) (key x)); simpl; [by rewrite IH|done].
Qed.

Lemma sort_by_map {A B} (f : A → B) (key : A → string) (key' : B → string) l :
  (∀ a, key' (f a) = key a) → map f (sort_by key l) = sort_by key' (map f l).
Proof.
  intros Hk. unfold sort_by.
  enough (∀ acc, map f (fold_left (λ acc x, insert_by key x acc) l acc) =
                 fold_left (λ acc x, insert_by key' x acc) (map f l) (map f acc)) as H by apply (H []).
  induction l as [|x l IH]; intros acc; simpl; [done|]. by rewrite IH, (insert_by_map f key key').
Qed.

Lemma key_order_map {V W} o (f : V → W) (d : list (string * V)) :
  key_order o (map (λ '(k, x), (k, f x)) d) = map (λ '(k, x), (k, f x)) (key_order o d).
Proof.
  unfold key_order. destruct (sort_keys o); [|done].
  symmetry. apply sort_by_map. by intros [].
Qed.

Lemma key_order_perm {V} o (d : list (string * V)) : key_order o d ≡ₚ d.
Proof. unfold key_order. destruct (sort_keys o); [apply sort_by_perm|done]. Qed.

Lemma dumps_dict `{FloatRepr} o d :
  json_dumps o (PDict d) = "{" +:+ str_join (item_sep o) (map (member_text o) (key_order o d)) +:+ "}".
Proof.
  cbn [json_dumps]. do 3 f_equal.
  fold (key_order o (map (λ '(k, x), (k, json_dumps o x)) d)).
  rewrite key_order_map, map_map. apply map_ext. by intros [].
Qed.

Lemma json_ok_list `{FloatRepr, FloatParse} l : json_ok (PList l) ↔ Forall json_ok l.
Proof. simpl. induction l as [|x l IH]; simpl; [done|]. by rewrite Forall_cons, IH. Qed.

Lemma json_ok_dict `{FloatRepr, FloatParse} d :
  json_ok (PDict d) ↔ NoDup (map fst d) ∧ Forall (λ m, json_ok m.2) d.
Proof.
  simpl. enough (foldr (λ '(_, x) P, json_ok x ∧ P) True d ↔ Forall (λ m, json_ok m.2) d) as ->; [done|].
  induction d as [|[k x] d IH]; simpl; [done|]. by rewrite Forall_cons, IH.
Qed.

Lemma json_ok_set `{FloatRepr, FloatParse} k v d :
  json_ok (PDict d) → json_ok v → json_ok (PDict (dict_set k v d)).
Proof.
  rewrite !json_ok_dict. intros [Hn Hd] Hv. split; [by apply dict_set_nodup|]. clear Hn.
  induction Hd as [|[k' v'] d Hx Hd IH]; simpl; [by repeat constructor|]. destruct (decide _); by constructor.
Qed.

Section round_trip.
Context {Hrepr : FloatRepr} {Hparse : FloatParse}.
Context (o : json_opts) (Hseps : plain_seps o).

Definition items_text (l : list pyval) : string := str_join (item_sep o) (map (json_dumps o) l).
Definition members_text (d : list (string * pyval)) : string :=
  str_join (item_sep o) (map (member_text o) d).
Definition canon_member (m : string * pyval) : string * pyval := (m.1, canon o m.2).

Lemma item_sep_step s :
  value_end (item_sep o +:+ s) = true ∧ eat "]" (skip_ws (item_sep o +:+ s)) = None ∧
  eat "}" (skip_ws (item_sep o +:+ s)) = None ∧
  ∃ r, eat "," (skip_ws (item_sep o +:+ s)) = Some r ∧ skip_ws r = skip_ws s.
Proof. destruct Hseps as [[-> | ->] _]; repeat split; by eexists. Qed.

Lemma key_sep_step s : ∃ r, eat ":" (skip_ws (key_sep o +:+ s)) = Some r ∧ skip_ws r = skip_ws s.
Proof. destruct Hseps as [_ [-> | ->]]; by eexists. Qed.

Lemma join_cons sep x y l : str_join sep (x :: y :: l) = x +:+ sep +:+ str_join sep (y :: l).
Proof. done. Qed.

(** The scanner, with enough fuel for the text, reads back what was written. *)
Definition reads_values (n : nat) : Prop := ∀ v rest,
  (String.length (json_dumps o v) ≤ n)%nat → json_ok v → value_end rest = true →
  scan_value n (json_dumps o v +:+ rest) = Some (canon o v, rest).

Definition reads_items (n : nat) : Prop := ∀ v l rest acc,
  (String.length (items_text (v :: l)) < n)%nat → Forall json_ok (v :: l) →
  scan_items n (items_text (v :: l) +:+ String "]" rest) acc =
  Some (PList (acc ++ map (canon o) (v :: l)), rest).

Definition reads_members (n : nat) : Prop := ∀ m d rest acc,
  (String.length (members_text (m :: d)) < n)%nat → Forall (λ m, json_ok m.2) (m :: d) →
  NoDup (map fst acc ++ map fst (m :: d)) →
  scan_members n (members_text (m :: d) +:+ String "}" rest) acc =
  Some (PDict (acc ++ map canon_member (m :: d)), rest).

Lemma dumps_nonempty v : json_ok v → (0 < String.length (json_dumps o v))%nat.
Proof. intros Hok. destruct (dumps_head o v Hok) as (c & t & -> & _). simpl. lia. Qed.

Lemma read_items_step n : reads_values n → reads_items n → reads_items (S n).
Proof.
  intros IHv IHi v l rest acc Hlen [Hv Hl]%Forall_cons. cbn [scan_items].
  pose proof (dumps_nonempty v Hv). destruct l as [|w l].
  - change (items_text [v]) with (json_dumps o v) in *. rewrite IHv by (done || lia). done.
  - unfold items_text in *. cbn [map] in *. rewrite join_cons in *.
    rewrite !str_length_app in Hlen. rewrite <- !str_app_assoc.
    destruct (item_sep_step (str_join (item_sep o) (json_dumps o w :: map (json_dumps o) l) +:+ String "]" rest))
      as (Hend & Hb & _ & r & Hr & Hskip).
    rewrite IHv by (done || lia). rewrite Hb, Hr, Hskip.
    change (str_join (item_sep o) (json_dumps o w :: map (json_dumps o) l)) with (items_text (w :: l)).
    assert (skip_ws (items_text (w :: l) +:+ String "]" rest) = items_text (w :: l) +:+ String "]" rest) as ->.
    { pose proof (Forall_inv Hl) as Hw. unfold items_text. destruct l as [|x l]; cbn [map str_join].
      - by apply skip_dumps.
      - rewrite <- !str_app_assoc. by apply skip_dumps. }
    rewrite IHi; [|unfold items_text; cbn [map]; lia|done]. by rewrite <- app_assoc.
Qed.

Lemma member_text_scan m s :
  ∃ r r', eat c_dquote (member_text o m +:+ s) ≫= scan_string = Some (m.1, r) ∧
    eat ":" (skip_ws r) = Some r' ∧ skip_ws r' = skip_ws (json_dumps o m.2 +:+ s).
Proof.
  unfold member_text, json_str, dquote. rewrite <- !str_app_assoc. cbn [String.append eat].
  rewrite ch_eq_refl. cbn [mbind option_bind]. rewrite scan_string_chars.
  destruct (key_sep_step (json_dumps o m.2 +:+ s)) as (r' & H1 & H2). eauto.
Qed.

Lemma read_members_step n : reads_values n → reads_members n → reads_members (S n).
Proof.
  intros IHv IHm [k x] d rest acc Hlen [Hx Hd]%Forall_cons Hnd. cbn [scan_members].
  simpl in Hx. pose proof (dumps_nonempty x Hx).
  assert (dict_get k acc = None) as Hk.
  { destruct (dict_get k acc) eqn:E; [|done]. exfalso.
    apply NoDup_app in Hnd as (_ & Hdisj & _). apply (Hdisj k); [|by left].
    apply dict_get_key. by rewrite E. }
  assert (String.length (json_dumps o x) < String.length (member_text o (k, x)))%nat as Hlt.
  { unfold member_text, json_str, dquote. rewrite !str_length_app. simpl. lia. }
  destruct d as [|[k' x'] d].
  - change (members_text [(k, x)]) with (member_text o (k, x)) in *.
    destruct (member_text_scan (k, x) (String "}" rest)) as (r & r' & -> & -> & ->). simpl fst; simpl snd.
    rewrite (proj1 (skip_dumps o x _ Hx)), IHv by (done || lia). cbv zeta.
    change (eat "}" (skip_ws (String "}" rest))) with (Some rest). cbv iota beta.
    by rewrite dict_set_fresh.
  - unfold members_text in *. cbn [map] in *. rewrite join_cons in *. rewrite !str_length_app in Hlen.
    rewrite <- !str_app_assoc.
    destruct (item_sep_step (str_join (item_sep o) (member_text o (k', x') :: map (member_text o) d) +:+ String "}" rest))
      as (Hend & _ & Hb & q & Hq & Hskip).
    destruct (member_text_scan (k, x) (item_sep o +:+ str_join (item_sep o)
      (member_text o (k', x') :: map (member_text o) d) +:+ String "}" rest)) as (r & r' & -> & -> & ->).
    simpl fst; simpl snd. rewrite (proj1 (skip_dumps o x _ Hx)), IHv by (done || lia). cbv zeta.
    rewrite Hb, Hq, Hskip.
    change (str_join (item_sep o) (member_text o (k', x') :: map (member_text o) d))
      with (members_text ((k', x') :: d)).
    assert (skip_ws (members_text ((k', x') :: d) +:+ String "}" rest) =
            members_text ((k', x') :: d) +:+ String "}" rest) as ->.
    { by destruct d. }
    rewrite dict_set_fresh by done. rewrite IHm.
    + by rewrite <- app_assoc.
    + unfold members_text. cbn [map]. lia.
    + done.
    + rewrite map_app. simpl. by rewrite <- app_assoc.
Qed.

Lemma canon_dict d : canon o (PDict d) = PDict (map canon_member (key_order o d)).
Proof. simpl. rewrite key_order_map. f_equal. apply map_ext. by intros []. Qed.

Lemma read_value_step n : reads_items n → reads_members n → reads_values (S n).
Proof.
  intros IHi IHm v rest Hlen Hok Hrest. destruct v as [|[]|z|q|s|l|d]; try reflexivity.
  - cbn [json_dumps]. destruct (str_of_Z_head z) as (c & t & E & Hc).
    pose proof (scan_number_int z rest Hrest) as Hz. rewrite E in *. cbn [String.append] in *.
    by rewrite scan_value_number.
  - destruct Hok as [(c & t & E & Hc) Hq]. specialize (Hq rest Hrest). cbn [json_dumps].
    rewrite E in *. cbn [String.append] in *. by rewrite scan_value_number.
  - cbn [json_dumps]. unfold json_str, dquote. rewrite <- !str_app_assoc. cbn [String.append scan_value].
    rewrite ch_eq_refl, scan_string_chars. done.
  - apply json_ok_list in Hok. destruct l as [|v l]; [done|].
    change (json_dumps o (PList (v :: l))) with ("[" +:+ items_text (v :: l) +:+ "]") in *.
    rewrite <- !str_app_assoc. rewrite !str_length_app in Hlen. cbn [String.append String.length] in *.
    cbn [scan_value]. change (ch_eq "[" c_dquote) with false. rewrite ch_eq_refl. cbv iota.
    pose proof (Forall_inv Hok) as Hv.
    assert (skip_ws (items_text (v :: l) +:+ String "]" rest) = items_text (v :: l) +:+ String "]" rest ∧
            eat "]" (items_text (v :: l) +:+ String "]" rest) = None) as [-> ->].
    { unfold items_text. destruct l as [|x l]; cbn [map str_join].
      - by apply skip_dumps.
      - rewrite <- !str_app_assoc. by apply skip_dumps. }
    rewrite IHi; [done|lia|done].
  - apply json_ok_dict in Hok as [Hnd Hd]. rewrite dumps_dict, canon_dict in *.
    assert (NoDup (map fst (key_order o d)) ∧ Forall (λ m, json_ok m.2) (key_order o d)) as [Hnd' Hd'].
    { by rewrite !key_order_perm. }
    destruct (key_order o d) as [|[k x] d'] eqn:Ed; [done|].
    change (str_join (item_sep o) (map (member_text o) ((k, x) :: d'))) with (members_text ((k, x) :: d')) in *.
    rewrite <- !str_app_assoc. rewrite !str_length_app in Hlen. cbn [String.append String.length] in *.
    cbn [scan_value]. change (ch_eq "{" c_dquote) with false. change (ch_eq "{" "[") with false.
    rewrite ch_eq_refl. cbv iota.
    assert (skip_ws (members_text ((k, x) :: d') +:+ String "}" rest) =
            members_text ((k, x) :: d') +:+ String "}" rest ∧
            eat "}" (members_text ((k, x) :: d') +:+ String "}" rest) = None) as [-> ->].
    { by destruct d'. }
    rewrite IHm; [done|lia|done|done].
Qed.

Lemma scan_round n : reads_values n ∧ reads_items n ∧ reads_members n.
Proof.
  induction n as [|n (IHv & IHi & IHm)].
  - split; [|split].
    + intros v rest Hl Hok _. pose proof (dumps_nonempty v Hok). lia.
    + intros v l rest acc Hl. lia.
    + intros m d rest acc Hl. lia.
  - split; [by apply read_value_step|]. split; [by apply read_items_step|by apply read_members_step].
Qed.

(** Reading what was written gives the value back, its keys in the order they
    were written in. *)
Lemma json_loads_dumps v : json_ok v → json_loads (json_dumps o v) = Some (canon o v).
Proof.
  intros Hok. unfold json_loads.
  pose proof (proj1 (skip_dumps o v EmptyString Hok)) as Hskip. rewrite str_app_nil_r in Hskip.
  rewrite Hskip. destruct (scan_round (S (String.length (json_dumps o v)))) as [Hv _].
  specialize (Hv v EmptyString). rewrite str_app_nil_r in Hv. rewrite Hv; [done|lia|done|done].
Qed.

(** Two values written the same are the same, up to the order of their keys. *)
Lemma json_dumps_inj v v' :
  json_ok v → json_ok v' → json_dumps o v = json_dumps o v' → canon o v = canon o v'.
Proof.
  intros Hv Hv' Heq. pose proof (json_loads_dumps v Hv) as H. rewrite Heq in H.
  rewrite (json_loads_dumps v' Hv') in H. congruence.
Qed.

End round_trip.

(** Without [sort_keys] nothing moves. *)
Lemma canon_unsorted o v : sort_keys o = false → canon o v = v.
Proof.
  intros Ho. revert v. fix IH 1. intros [| | | | |l|d]; simpl; try reflexivity.
  - f_equal. induction l as [|x l IHl]; simpl; [reflexivity|]. f_equal; [apply IH|apply IHl].
  - unfold key_order. rewrite Ho. f_equal.
    induction d as [|[k x] d IHd]; simpl; [reflexivity|]. f_equal; [|apply IHd]. f_equal. apply IH.
Qed.

(** A value without floats, checked by computation. *)
Fixpoint json_flat (v : pyval) : bool :=
  match v with
  | PFloat _ => false
  | PList l => forallb json_flat l
  | PDict d => bool_decide (NoDup (map fst d)) && forallb (λ '(_, x), json_flat x) d
  | _ => true
  end.

Lemma json_ok_flat `{FloatRepr, FloatParse} v : json_flat v = true → json_ok v.
Proof.
  revert v. fix IH 1. intros [| | | | |l|d]; simpl; try done.
  - induction l as [|x l IHl]; simpl; [done|]. intros [Hx Hl]%andb_true_iff.
    split; [by apply IH|by apply IHl].
  - intros [Hnd Hd]%andb_true_iff. apply bool_decide_eq_true in Hnd. split; [done|]. clear Hnd.
    induction d as [|[k x] d IHd]; simpl in *; [done|]. apply andb_true_iff in Hd as [Hx Hd].
    split; [by apply IH|by apply IHd].
Qed.
