(* ===== verification/PyJsonIndent.v ===== *)
(** * [json.dumps(v, indent=2)]

    The layout the program writes its files in - run records, journals, the
    memory store - and the round trip with [json.loads]. *)

From S2P Require Import Prelude PyStr PyJson PyJsonLoads.
Local Open Scope string_scope.
Local Open Scope list_scope.

Fixpoint blanks (n : nat) : string :=
  match n with O => EmptyString | S n' => String " " (blanks n') end.

(** A new line at depth [d]. *)
Definition break (d : nat) : string := nl +:+ blanks (2 * d).

Fixpoint json_indent `{FloatRepr} (d : nat) (v : pyval) : string :=
  match v with
  | PList ((_ :: _) as l) =>
      "[" +:+ break (S d) +:+ str_join ("," +:+ break (S d)) (map (json_indent (S d)) l)
      +:+ break d +:+ "]"
  | PDict ((_ :: _) as m) =>
      "{" +:+ break (S d) +:+ str_join ("," +:+ break (S d))
        (map (λ '(k, x), json_str true k +:+ ": " +:+ json_indent (S d) x) m)
      +:+ break d +:+ "}"
  | v => json_dumps default_opts v
  end.

Definition json_pretty `{FloatRepr} (v : pyval) : string := json_indent 0 v.

(** ** Blanks *)

Lemma skip_blanks n s : skip_ws (blanks n +:+ s) = skip_ws s.
Proof. induction n as [|n IH]; [done|]. exact IH. Qed.

Lemma skip_break d s : skip_ws (break d +:+ s) = skip_ws s.
Proof. unfold break. exact (skip_blanks (2 * d) s). Qed.

Lemma value_end_break d s : value_end (break d +:+ s) = true.
Proof. done. Qed.

Section round_trip.
Context {Hrepr : FloatRepr} {Hparse : FloatParse}.

Definition entry (d : nat) (m : string * pyval) : string :=
  json_str true m.1 +:+ ": " +:+ json_indent d m.2.

Definition items (d : nat) (l : list pyval) : string := str_join ("," +:+ break d) (map (json_indent d) l).
Definition entries (d : nat) (m : list (string * pyval)) : string :=
  str_join ("," +:+ break d) (map (entry d) m).

Lemma indent_list d v l :
  json_indent d (PList (v :: l)) =
  "[" +:+ break (S d) +:+ items (S d) (v :: l) +:+ break d +:+ "]".
Proof. reflexivity. Qed.

Lemma indent_dict d m ms :
  json_indent d (PDict (m :: ms)) =
  "{" +:+ break (S d) +:+ entries (S d) (m :: ms) +:+ break d +:+ "}".
Proof.
  unfold entries. rewrite <- (map_ext (λ '(k, x), json_str true k +:+ ": " +:+ json_indent (S d) x));
    [reflexivity|by intros []].
Qed.

Lemma indent_head d v :
  json_ok v → ∃ c t, json_indent d v = String c t ∧ opens_value c = true.
Proof.
  intros Hok. destruct v as [| | | | |[|v l]|[|m ms]];
    try (apply (dumps_head default_opts); exact Hok); by eexists _, _.
Qed.

(** A value is found where it starts. *)
Lemma skip_indent d v s :
  json_ok v → skip_ws (json_indent d v +:+ s) = json_indent d v +:+ s ∧
  eat "]" (json_indent d v +:+ s) = None ∧ (0 < String.length (json_indent d v))%nat.
Proof.
  intros Hok. destruct (indent_head d v Hok) as (c & t & -> & Hc). unfold opens_value in Hc.
  apply negb_true_iff, orb_false_iff in Hc as [[Hw Hb]%orb_false_iff _].
  cbn [String.append eat String.length].
  rewrite skip_ws_head by done. split; [done|]. split; [|lia].
  apply ch_eq_false in Hb. rewrite (proj2 (ch_eq_false _ _)); [done|congruence].
Qed.

Definition reads (d : nat) (v : pyval) : Prop := ∀ n rest,
  (String.length (json_indent d v) ≤ n)%nat → value_end rest = true →
  scan_value n (json_indent d v +:+ rest) = Some (v, rest).

Lemma items_cons d v w l : items d (v :: w :: l) = json_indent d v +:+ ("," +:+ break d) +:+ items d (w :: l).
Proof. done. Qed.
Lemma entries_cons d v w l : entries d (v :: w :: l) = entry d v +:+ ("," +:+ break d) +:+ entries d (w :: l).
Proof. done. Qed.

Lemma skip_items d v l s : json_ok v → skip_ws (items d (v :: l) +:+ s) = items d (v :: l) +:+ s ∧
  eat "]" (items d (v :: l) +:+ s) = None.
Proof.
  intros Hok. destruct l as [|w l].
  - destruct (skip_indent d v s Hok) as (H1 & H2 & _). by split.
  - rewrite items_cons, <- str_app_assoc.
    destruct (skip_indent d v (("," +:+ break d) +:+ items d (w :: l) +:+ s) Hok) as (H1 & H2 & _).
    rewrite <- !str_app_assoc. by split.
Qed.

(** A comma and a closing bracket, where they are expected. *)
Lemma read_items d e l : Forall (λ v, json_ok v ∧ reads d v) l → ∀ v n rest acc,
  json_ok v → reads d v → (String.length (items d (v :: l)) < n)%nat →
  scan_items n (items d (v :: l) +:+ break e +:+ String "]" rest) acc =
  Some (PList (acc ++ v :: l), rest).
Proof.
  induction 1 as [|w l [Hw Hrw] Hl IH]; intros v [|n] rest acc Hv Hrv Hlen; try lia.
  - change (items d [v]) with (json_indent d v) in *. cbn [scan_items].
    rewrite Hrv by (done || lia). rewrite skip_break.
    change (skip_ws (String "]" rest)) with (String "]" rest). cbn [eat]. by rewrite ch_eq_refl.
  - rewrite items_cons in *. rewrite !str_length_app in Hlen. change (String.length ",") with 1%nat in Hlen.
    rewrite <- !str_app_assoc. cbn [scan_items]. rewrite Hrv by (done || lia).
    set (s := items d (w :: l) +:+ break e +:+ String "]" rest).
    change (skip_ws ("," +:+ break d +:+ s)) with (String "," (break d +:+ s)).
    change (eat "]" (String "," (break d +:+ s))) with (@None string). cbn [eat].
    rewrite ch_eq_refl, skip_break. unfold s. rewrite (proj1 (skip_items d w l _ Hw)).
    rewrite IH by (done || lia). by rewrite <- app_assoc.
Qed.

Lemma entry_scan d m s :
  ∃ r, eat c_dquote (entry d m +:+ s) ≫= scan_string = Some (m.1, r) ∧
    ∃ r', eat ":" (skip_ws r) = Some r' ∧ skip_ws r' = skip_ws (json_indent d m.2 +:+ s).
Proof.
  unfold entry, json_str, dquote. rewrite <- !str_app_assoc. cbn [String.append eat].
  rewrite ch_eq_refl. cbn [mbind option_bind]. rewrite scan_string_chars. eexists. split; [done|].
  by eexists.
Qed.

Lemma entry_length d m : (String.length (json_indent d m.2) < String.length (entry d m))%nat.
Proof. unfold entry, json_str, dquote. rewrite !str_length_app. simpl. lia. Qed.

Lemma skip_entries d m l s : skip_ws (entries d (m :: l) +:+ s) = entries d (m :: l) +:+ s ∧
  eat "}" (entries d (m :: l) +:+ s) = None.
Proof. by destruct l. Qed.

Lemma read_entries d e l : Forall (λ m, json_ok m.2 ∧ reads d m.2) l → ∀ m n rest acc,
  json_ok m.2 → reads d m.2 → NoDup (map fst acc ++ map fst (m :: l)) →
  (String.length (entries d (m :: l)) < n)%nat →
  scan_members n (entries d (m :: l) +:+ break e +:+ String "}" rest) acc =
  Some (PDict (acc ++ m :: l), rest).
Proof.
  induction 1 as [|w l [Hw Hrw] Hl IH]; intros m [|n] rest acc Hv Hrv Hnd Hlen; try lia;
    pose proof (entry_length d m) as Hm;
    assert (dict_get m.1 acc = None) as Hk
      by (destruct (dict_get m.1 acc) eqn:E; [|done]; exfalso;
          apply NoDup_app in Hnd as (_ & Hdisj & _); apply (Hdisj m.1); [|by left];
          apply dict_get_key; by rewrite E).
  - change (entries d [m]) with (entry d m) in *. cbn [scan_members].
    destruct (entry_scan d m (break e +:+ String "}" rest)) as (r & -> & r' & -> & ->).
    destruct (skip_indent d m.2 (break e +:+ String "}" rest) Hv) as (-> & _ & _).
    rewrite Hrv by (done || lia). rewrite skip_break.
    change (skip_ws (String "}" rest)) with (String "}" rest). cbn [eat]. rewrite ch_eq_refl.
    rewrite dict_set_fresh by done. by destruct m.
  - rewrite entries_cons in *. rewrite !str_length_app in Hlen. change (String.length ",") with 1%nat in Hlen.
    rewrite <- !str_app_assoc. cbn [scan_members].
    set (s := entries d (w :: l) +:+ break e +:+ String "}" rest).
    destruct (entry_scan d m ("," +:+ break d +:+ s)) as (r & -> & r' & -> & ->).
    destruct (skip_indent d m.2 ("," +:+ break d +:+ s) Hv) as (-> & _ & _).
    rewrite Hrv by (done || lia).
    change (skip_ws ("," +:+ break d +:+ s)) with (String "," (break d +:+ s)).
    change (eat "}" (String "," (break d +:+ s))) with (@None string). cbn [eat].
    rewrite ch_eq_refl, skip_break. unfold s. rewrite (proj1 (skip_entries d w l _)).
    rewrite dict_set_fresh, IH; try (done || lia).
    + destruct m. by rewrite <- app_assoc.
    + rewrite map_app. cbn [map fst]. by rewrite <- app_assoc.
Qed.

Lemma reads_list d v l :
  Forall (λ v, json_ok v ∧ reads (S d) v) (v :: l) → reads d (PList (v :: l)).
Proof.
  intros [[Hv Hr] Hl]%Forall_cons [|n] rest Hlen Hrest; rewrite indent_list in *; [simpl in Hlen; lia|].
  rewrite !str_length_app in Hlen. rewrite <- !str_app_assoc. cbn [String.append String.length] in *.
  cbn [scan_value]. change (ch_eq "[" c_dquote) with false. rewrite ch_eq_refl. cbv iota.
  rewrite skip_break. destruct (skip_items (S d) v l (break d +:+ String "]" rest) Hv) as [-> ->].
  by rewrite (read_items (S d) d l Hl) by (done || lia).
Qed.

Lemma reads_dict d m l :
  NoDup (map fst (m :: l)) → Forall (λ m, json_ok m.2 ∧ reads (S d) m.2) (m :: l) →
  reads d (PDict (m :: l)).
Proof.
  intros Hnd [[Hv Hr] Hl]%Forall_cons [|n] rest Hlen Hrest; rewrite indent_dict in *; [simpl in Hlen; lia|].
  rewrite !str_length_app in Hlen. rewrite <- !str_app_assoc. cbn [String.append String.length] in *.
  cbn [scan_value]. change (ch_eq "{" c_dquote) with false. change (ch_eq "{" "[") with false.
  rewrite ch_eq_refl. cbv iota.
  rewrite skip_break. destruct (skip_entries (S d) m l (break d +:+ String "}" rest)) as [-> ->].
  by rewrite (read_entries (S d) d l Hl) by (done || lia).
Qed.

Lemma reads_scalar d v :
  json_ok v → json_indent d v = json_dumps default_opts v → reads d v.
Proof.
  intros Hok E n rest Hlen Hrest. rewrite E in *.
  assert (plain_seps default_opts) as Hs by (split; by right).
  destruct (scan_round default_opts Hs n) as (Hv & _). rewrite (Hv v rest Hlen Hok Hrest).
  by rewrite canon_unsorted.
Qed.

Lemma reads_value v : json_ok v → ∀ d, reads d v.
Proof.
  induction v as [| | | | |l IH|m IH] using pyval_nested_ind; intros Hok d; try by apply reads_scalar.
  - apply json_ok_list in Hok. destruct l as [|v l]; [by apply reads_scalar|]. apply reads_list.
    apply Forall_forall. intros x Hx. rewrite Forall_forall in Hok, IH. split; [by apply Hok|].
    apply IH; [done|by apply Hok].
  - pose proof Hok as [Hnd Hm]%json_ok_dict. destruct m as [|x m]; [by apply reads_scalar|].
    apply reads_dict; [done|]. apply Forall_forall. intros y Hy. rewrite Forall_forall in Hm, IH.
    split; [by apply Hm|]. apply IH; [done|by apply Hm].
Qed.

Lemma json_loads_pretty v : json_ok v → json_loads (json_pretty v) = Some v.
Proof.
  intros Hok. unfold json_loads, json_pretty.
  pose proof (proj1 (skip_indent 0 v EmptyString Hok)) as Hskip. rewrite str_app_nil_r in Hskip.
  rewrite Hskip. pose proof (reads_value v Hok 0 (S (String.length (json_indent 0 v))) EmptyString) as Hv.
  rewrite str_app_nil_r in Hv. rewrite Hv; [done|lia|done].
Qed.

End round_trip.

(** ** One line break for another

    The text has no carriage return, so reading it in text mode changes
    nothing. *)

Definition no_cr (s : string) : bool := str_forallb (λ c, negb (ch_eq c c_cr)) s.

Lemma no_cr_app a b : no_cr (a +:+ b) = no_cr a && no_cr b.
Proof. apply str_forallb_app. Qed.

Lemma no_cr_join sep l : no_cr sep = true → Forall (λ s, no_cr s = true) l → no_cr (str_join sep l) = true.
Proof.
  intros Hs Hl. induction Hl as [|x l Hx Hl IH]; [done|]. destruct l as [|y l]; [done|].
  rewrite join_cons, !no_cr_app, Hx, Hs. exact IH.
Qed.

Lemma no_cr_blanks n : no_cr (blanks n) = true.
Proof. induction n as [|n IH]; [done|]. exact IH. Qed.

Lemma no_cr_break d : no_cr (break d) = true.
Proof. unfold break. rewrite no_cr_app. apply no_cr_blanks. Qed.

Lemma no_cr_digits s : str_forallb is_digit s = true → no_cr s = true.
Proof. apply str_forallb_impl. intros c Hc. apply negb_true_iff, ch_eq_false. by intros ->. Qed.

Lemma no_cr_json_str s : no_cr (json_str true s) = true.
Proof.
  unfold json_str. rewrite !no_cr_app. apply andb_true_iff. split; [done|].
  rewrite andb_true_r. induction s as [|c s IH]; [done|]. cbn [json_chars]. rewrite no_cr_app, IH, andb_true_r.
  by destruct c as [[] [] [] [] [] [] [] []].
Qed.

Lemma json_flat_list l : json_flat (PList l) = true ↔ Forall (λ v, json_flat v = true) l.
Proof. simpl. by rewrite forallb_forall, <- List.Forall_forall. Qed.

Lemma json_flat_dict d :
  json_flat (PDict d) = true → Forall (λ m, json_flat m.2 = true) d.
Proof.
  simpl. intros [_ Hd]%andb_true_iff. rewrite forallb_forall in Hd. apply List.Forall_forall.
  intros [k v] Hm. exact (Hd _ Hm).
Qed.

Lemma no_cr_int z : no_cr (str_of_Z z) = true.
Proof.
  unfold str_of_Z. destruct (z <? 0)%Z; [|apply no_cr_digits, str_of_N_digits].
  change (no_cr (str_of_N (Z.to_N (- z))) = true). apply no_cr_digits, str_of_N_digits.
Qed.

Lemma no_cr_block o c d l :
  no_cr o = true → no_cr c = true → Forall (λ s, no_cr s = true) l →
  no_cr (o +:+ break (S d) +:+ str_join ("," +:+ break (S d)) l +:+ break d +:+ c) = true.
Proof.
  intros Ho Hc Hl. rewrite !no_cr_app, Ho, Hc, !no_cr_break, no_cr_join; [done| |done].
  by rewrite no_cr_app, no_cr_break.
Qed.

(** [repr] of a float has no line break. *)
Class PlainFloats `{FloatRepr} : Prop := plain_floats : ∀ q, no_cr (float_repr q) = true.

Lemma no_cr_indent `{FloatRepr} v : json_flat v = true ∨ PlainFloats → ∀ d, no_cr (json_indent d v) = true.
Proof.
  induction v as [|[]|z|q|s|l IH|m IH] using pyval_nested_ind; intros Hv d; try done.
  - apply no_cr_int.
  - destruct Hv as [Hv|Hv]; [done|apply Hv].
  - apply no_cr_json_str.
  - destruct l as [|v l]; [done|]. rewrite indent_list. apply no_cr_block; [done..|].
    apply Forall_map, Forall_forall. intros x Hx. rewrite Forall_forall in IH. apply IH; [done|].
    destruct Hv as [Hv|Hv]; [left|by right]. apply json_flat_list in Hv. rewrite Forall_forall in Hv. by apply Hv.
  - destruct m as [|x m]; [done|]. rewrite indent_dict. apply no_cr_block; [done..|].
    apply Forall_map, Forall_forall. intros y Hy. simpl. unfold entry. rewrite !no_cr_app, no_cr_json_str.
    rewrite Forall_forall in IH. rewrite IH; [done..|].
    destruct Hv as [Hv|Hv]; [left|by right]. apply json_flat_dict in Hv. rewrite Forall_forall in Hv. by apply Hv.
Qed.

(** What a program reads of a file it wrote. *)
Lemma json_loads_written `{FloatRepr, FloatParse} v :
  json_flat v = true → json_loads (universal_newlines (json_pretty v)) = Some v.
Proof.
  intros Hv. rewrite universal_newlines_id by apply (no_cr_indent v (or_introl Hv) 0).
  by apply json_loads_pretty, json_ok_flat.
Qed.

Lemma json_loads_written_ok `{FloatRepr, FloatParse} v :
  PlainFloats → json_ok v → json_loads (universal_newlines (json_pretty v)) = Some v.
Proof.
  intros Hp Hv. rewrite universal_newlines_id by apply (no_cr_indent v (or_intror Hp) 0).
  by apply json_loads_pretty.
Qed.
