(* ===== verification/Files.v ===== *)
(** * A file system

    What the journal and the evaluation ask of [pathlib] and [shutil]: a tree of
    directories and text files, and the refusals of the operating system.  A path
    is the list of its components. *)

From S2P Require Import Prelude PyStr Effects Guards PyJson.
Local Open Scope string_scope.
Local Open Scope list_scope.

Module Files.

Notation path := (list string).
Inductive node := File (text : string) | Dir.
Notation fs := (gmap path node).

#[export] Instance node_eq_dec : EqDecision node.
Proof. solve_decision. Defined.

(** [p / rel], for a relative name that may have several components. *)
Definition join (p : path) (rel : string) : path := p ++ PatchGuard.pure_parts rel.
Definition show (p : path) : string := PatchGuard.abs_posix p.

(** [p] is [root] or below it. *)
Definition below (root p : path) : bool := bool_decide (root `prefix_of` p).

(** What the operating system refuses, beyond what the tree itself rules out; a
    refused removal leaves a part of the tree, a refused write may leave a part of
    the text. *)
Record os := mkOs {
  refuse : string → path → fs → option exn;
  torn : path → string → fs → option string;
  leaves : path → fs → path → bool
}.

Definition OS_ERRORS : list string :=
  ["OSError"; "PermissionError"; "FileNotFoundError"; "FileExistsError"; "NotADirectoryError";
   "IsADirectoryError"].
Definition is_os_error (e : exn) : bool := mem (exn_class e) OS_ERRORS.

Section ops.
Context (o : os).

Definition exists_ (p : path) (f : fs) : bool := bool_decide (is_Some (f !! p)).
Definition is_dir (p : path) (f : fs) : bool := bool_decide (f !! p = Some Dir).
Definition is_file (p : path) (f : fs) : bool :=
  match f !! p with Some (File _) => true | _ => false end.

(** The operation, unless it is refused. *)
Definition guarded {A} (op : string) (p : path) (m : M fs A) : M fs A :=
  f ← get;
  match refuse o op p f with Some e => throw e | None => m end.

Definition not_found (p : path) : exn := Exn "FileNotFoundError" (show p).

Definition read_text (p : path) : M fs string :=
  guarded "read" p
    (f ← get;
     match f !! p with
     | Some (File t) => mret (universal_newlines t)
     | Some Dir => throw (Exn "IsADirectoryError" (show p))
     | None => throw (not_found p)
     end).

(** The parent has to be there; a directory is no file. *)
Definition parent (p : path) : path := removelast p.
Definition write_text (p : path) (text : string) : M fs unit :=
  f ← get;
  if negb (is_dir (parent p) f) then throw (not_found p)
  else if is_dir p f then throw (Exn "IsADirectoryError" (show p))
  else match refuse o "write" p f with
  | Some e =>
      _ ← match torn o p text f with Some t => modify (<[p := File t]>) | None => mret tt end;
      throw e
  | None => modify (<[p := File text]>)
  end.

(** [p.mkdir(parents=True, exist_ok=True)], component by component. *)
Definition mkdir_one (p : path) : M fs unit :=
  f ← get;
  match f !! p with
  | Some Dir => mret tt
  | Some (File _) => throw (Exn "FileExistsError" (show p))
  | None => guarded "mkdir" p (modify (<[p := Dir]>))
  end.

Fixpoint prefixes (p : path) : list path :=
  [] :: match p with [] => [] | x :: p' => map (cons x) (prefixes p') end.

Definition mkdir_parents (p : path) : M fs unit := for_ (prefixes p) mkdir_one.

(** The names of the children, sorted. *)
Definition child_of (p q : path) : option string :=
  match PatchGuard.relative_to q p with Some [x] => Some x | _ => None end.
Definition names_in (p : path) (f : fs) : list string :=
  sort_by id (omap (λ kv, child_of p kv.1) (map_to_list f)).

(** [sorted(p.iterdir())] *)
Definition sorted_iterdir (p : path) : M fs (list path) :=
  guarded "iterdir" p
    (f ← get;
     match f !! p with
     | Some Dir => mret (map (λ x, p ++ [x]) (names_in p f))
     | Some (File _) => throw (Exn "NotADirectoryError" (show p))
     | None => throw (not_found p)
     end).

(** [shutil.rmtree(p)] *)
Definition without (p : path) (keep : path → bool) (f : fs) : fs :=
  filter (λ kv, below p kv.1 = false ∨ keep kv.1 = true) f.

Definition rmtree (p : path) : M fs unit :=
  f ← get;
  match refuse o "rmtree" p f with
  | Some e => _ ← modify (without p (leaves o p f)); throw e
  | None =>
      match f !! p with
      | Some Dir => modify (without p (λ _, false))
      | Some (File _) => throw (Exn "NotADirectoryError" (show p))
      | None => throw (not_found p)
      end
  end.

End ops.

(** ** Laws *)

Lemma below_refl p : below p p = true.
Proof. by apply bool_decide_eq_true. Qed.

Lemma below_child p x q : below (p ++ [x]) q = true → below p q = true.
Proof.
  unfold below. rewrite !bool_decide_eq_true. intros Hq. etrans; [|exact Hq]. by apply prefix_app_r.
Qed.

Lemma without_lookup p keep f q : below p q = false → without p keep f !! q = f !! q.
Proof.
  intros Hq. unfold without. rewrite map_lookup_filter.
  destruct (f !! q); simpl; [|done]. rewrite option_guard_True; [done|by left].
Qed.

Lemma without_gone p f q : below p q = true → without p (λ _, false) f !! q = None.
Proof.
  intros Hq. unfold without. rewrite map_lookup_filter. destruct (f !! q); simpl; [|done].
  rewrite option_guard_False; [done|]. rewrite Hq. by intros [|].
Qed.

Lemma without_sub p keep f q n : without p keep f !! q = Some n → f !! q = Some n.
Proof. unfold without. rewrite map_lookup_filter. destruct (f !! q); simpl; [|done]. by destruct (guard _). Qed.

Lemma relative_to_app p q r : PatchGuard.relative_to q p = Some r ↔ q = p ++ r.
Proof.
  revert q. induction p as [|x p IH]; intros q; simpl; [naive_solver|].
  destruct q as [|y q]; [done|]. destruct (decide (x = y)) as [->|Hne]; [|naive_solver].
  rewrite IH. naive_solver.
Qed.

Lemma child_of_spec p q x : child_of p q = Some x ↔ q = p ++ [x].
Proof.
  unfold child_of. destruct (PatchGuard.relative_to q p) as [r|] eqn:E.
  - apply relative_to_app in E as ->. transitivity (r = [x]).
    + destruct r as [|y [|z r]]; naive_solver.
    + split; [by intros ->|]. apply app_inv_head.
  - split; [done|]. intros ->. by rewrite (proj2 (relative_to_app p (p ++ [x]) [x]) eq_refl) in E.
Qed.

Lemma elem_of_names p f x : x ∈ names_in p f ↔ is_Some (f !! (p ++ [x])).
Proof.
  unfold names_in. rewrite sort_by_perm, list_elem_of_omap. split.
  - intros ((q & n) & Hq & Hx). apply child_of_spec in Hx. simpl in Hx. subst q.
    apply elem_of_map_to_list in Hq. eauto.
  - intros [n Hn]. exists (p ++ [x], n). split; [by apply elem_of_map_to_list|]. by apply child_of_spec.
Qed.

Lemma names_nodup p f : NoDup (names_in p f).
Proof.
  unfold names_in. rewrite sort_by_perm. assert (NoDup (map fst (map_to_list f))) as Hn by apply NoDup_fst_map_to_list.
  induction (map_to_list f) as [|[q n] l IH]; simpl in *; [constructor|].
  apply NoDup_cons in Hn as [Hq Hn]. destruct (child_of p q) as [x|] eqn:E; [|by apply IH].
  constructor; [|by apply IH]. intros ((q' & n') & Hq' & Hx)%list_elem_of_omap.
  apply child_of_spec in E, Hx. simpl in Hx. subst q'. apply Hq. apply list_elem_of_fmap.
  exists (q, n'). by subst q.
Qed.

(** ** Runs of a system that refuses nothing *)

Definition willing (o : os) : Prop := ∀ op p f, refuse o op p f = None.

Lemma guarded_willing {A} (o : os) (op : string) (p : path) (m : M fs A) (f : fs) h : willing o → guarded o op p m f h = m f h.
Proof. intros Hw. unfold guarded. rewrite bind_get. by rewrite Hw. Qed.

Lemma elem_of_prefixes (p q : path) : q ∈ prefixes p ↔ q `prefix_of` p.
Proof.
  revert q. induction p as [|x p IH]; intros q; simpl.
  - rewrite list_elem_of_singleton. split; [by intros ->|]. by intros ?%prefix_nil_inv.
  - rewrite elem_of_cons, list_elem_of_fmap. split.
    + intros [->|(q' & -> & Hq)]; [apply prefix_nil|]. apply prefix_cons. by apply IH.
    + destruct q as [|y q]; [by left|]. intros Hq. right. exists q.
      pose proof (prefix_cons_inv_1 _ _ _ _ Hq) as ->. split; [done|].
      apply IH. by eapply prefix_cons_inv_2.
Qed.

(** Directories that are there or can be made. *)
Definition room (f : fs) (q : path) : Prop := f !! q = None ∨ f !! q = Some Dir.

Lemma mkdir_for (o : os) (l : list path) (f : fs) h :
  willing o → Forall (room f) l →
  ∃ f', for_ l (mkdir_one o) f h = (Ok tt, (f', h)) ∧
    ∀ q, f' !! q = if decide (q ∈ l) then Some Dir else f !! q.
Proof.
  intros Hw. revert f. induction l as [|p l IH]; intros f Hl; cbn [for_].
  { exists f. split; [done|]. intros q. rewrite decide_False; [done|]. apply not_elem_of_nil. }
  apply Forall_cons in Hl as [Hp Hl].
  assert (∃ f1, mkdir_one o p f h = (Ok tt, (f1, h)) ∧ ∀ q, f1 !! q = if decide (q = p) then Some Dir else f !! q)
    as (f1 & Hrun & Hf1).
  { unfold mkdir_one. rewrite bind_get. destruct Hp as [Hp|Hp]; rewrite Hp.
    - rewrite guarded_willing by done. exists (<[p := Dir]> f). split; [done|]. intros q.
      case_decide; subst; [by rewrite lookup_insert_eq|by rewrite lookup_insert_ne].
    - exists f. split; [done|]. intros q. case_decide; by subst. }
  rewrite bind_run, Hrun. destruct (IH f1) as (f2 & Hrun2 & Hf2).
  { eapply Forall_impl; [exact Hl|]. intros q Hq. unfold room. rewrite Hf1. case_decide; [by right|done]. }
  exists f2. split; [done|]. intros q. rewrite Hf2, Hf1.
  destruct (decide (q ∈ l)) as [Hq|Hq], (decide (q ∈ p :: l)) as [Hq'|Hq'], (decide (q = p)); set_solver.
Qed.

Lemma mkdir_parents_run (o : os) (p : path) (f : fs) h :
  willing o → (∀ q, q `prefix_of` p → room f q) →
  ∃ f', mkdir_parents o p f h = (Ok tt, (f', h)) ∧
    ∀ q, f' !! q = if decide (q `prefix_of` p) then Some Dir else f !! q.
Proof.
  intros Hw Hp. destruct (mkdir_for o (prefixes p) f h Hw) as (f' & Hrun & Hf').
  { apply Forall_forall. intros q Hq. by apply Hp, elem_of_prefixes. }
  exists f'. split; [done|]. intros q. rewrite Hf'. pose proof (elem_of_prefixes p q).
  repeat case_decide; tauto.
Qed.

(** A file per name of [files] in one directory. *)
Definition put_all (d : path) (files : list (string * string)) (f : fs) : fs :=
  foldl (λ f kv, <[d ++ [kv.1] := File kv.2]> f) f files.

Lemma put_all_other (d : path) (files : list (string * string)) (f : fs) q : q ∉ map (λ kv, d ++ [kv.1]) files → put_all d files f !! q = f !! q.
Proof.
  revert f. induction files as [|[n t] files IH]; intros f Hq; [done|]. simpl in *.
  apply not_elem_of_cons in Hq as [Hq1 Hq]. unfold put_all in *. simpl. rewrite IH by done.
  by rewrite lookup_insert_ne.
Qed.

Lemma put_all_lookup (d : path) (files : list (string * string)) (f : fs) n t :
  NoDup (map fst files) → (n, t) ∈ files → put_all d files f !! (d ++ [n]) = Some (File t).
Proof.
  revert f. induction files as [|[n' t'] files IH]; intros f; simpl; [by intros _ ?%elem_of_nil|].
  intros [Hn Hd]%NoDup_cons [[= -> ->]|Hin]%elem_of_cons; [|by apply IH].
  unfold put_all. simpl. fold (put_all d files (<[d ++ [n'] := File t']> f)).
  rewrite put_all_other; [by rewrite lookup_insert_eq|]. intros ([x y] & He & Hx)%list_elem_of_fmap.
  apply app_inv_head in He. simplify_eq/=. apply Hn. apply list_elem_of_fmap. by exists (x, y).
Qed.

Lemma write_text_run (o : os) (d : path) (n t : string) (f : fs) h :
  willing o → f !! d = Some Dir → f !! (d ++ [n]) ≠ Some Dir →
  write_text o (d ++ [n]) t f h = (Ok tt, (<[d ++ [n] := File t]> f, h)).
Proof.
  intros Hw Hd Hn. unfold write_text. rewrite bind_get. unfold parent, is_dir.
  rewrite removelast_last, !bool_decide_eq_true_2, bool_decide_eq_false_2 by done. simpl.
  by rewrite Hw.
Qed.

Lemma write_all_run (o : os) (d : path) (files : list (string * string)) (f : fs) h :
  willing o → f !! d = Some Dir → (∀ n, f !! (d ++ [n]) ≠ Some Dir) →
  for_ files (λ '(n, t), write_text o (d ++ [n]) t) f h = (Ok tt, (put_all d files f, h)).
Proof.
  intros Hw. revert f. induction files as [|[n t] files IH]; intros f Hd Hn; [done|]. simpl.
  rewrite bind_run, write_text_run by done. apply IH.
  - rewrite lookup_insert_ne; [done|]. intros He. by apply (f_equal List.length) in He; rewrite length_app in He; simpl in He; lia.
  - intros n'. destruct (decide (n' = n)) as [->|Hne]; [by rewrite lookup_insert_eq|].
    rewrite lookup_insert_ne; [done|]. intros He%app_inv_head. congruence.
Qed.

(** A name without a slash is one component. *)
Lemma pure_parts_plain n :
  str_forallb (λ c, negb (ch_eq c "/"%char)) n = true → PatchGuard.clean_segment n = true →
  PatchGuard.pure_parts n = [n].
Proof. intros Hn Hc. unfold PatchGuard.pure_parts. rewrite str_split_no_sep by done. simpl. by rewrite Hc. Qed.

End Files.
