(* ===== verification/Webhook.v ===== *)
(** * The webhook gateway

    Models of [gateway/webhook_auth.py] (who may trigger a run, and for which
    project), of the request handler and its counters in [gateway/gateway.py]
    and [gateway/metrics.py], and of the settings they read.  PyJWT, the clock
    and Redis are oracles; a request is handled from start to end, and the
    interleaving of two requests around the resolver's lock is treated by the
    throttle on its own. *)

From S2P Require Import Prelude PyStr PyJson PyJsonLoads Effects BugIds.
Local Open Scope string_scope.
Local Open Scope Q_scope.
Local Open Scope Z_scope.
Local Open Scope list_scope.

Module Webhook.
Import BugIds.

(** ** Settings *)

Record settings := mkSettings {
  use_redis : bool;
  gateway_stream : string;
  gateway_stream_maxlen : Z;
  webhook_auth_mode : string;
  oidc_issuer : string;
  oidc_audience : string;
  oidc_jwks_url : string;
  oidc_jwks_cache_seconds : Z;
  oidc_jwks_min_refresh_seconds : Z;
  oidc_leeway_seconds : Z
}.

Definition default_settings : settings :=
  mkSettings true "gateway:stream" 10000 "none" "" "" "" 300 60 30.

Definition ALGORITHMS : list string := ["RS256"].
Definition DEFAULT_JWKS_PATH : string := "/oauth/discovery/keys".
Definition REQUIRED_CLAIMS : list string := ["exp"; "iat"; "aud"; "iss"; "project_id"].

(** ** Exceptions

    Each carries its reason, the label under which the refusal is counted. *)

Inductive auth_exn :=
| WebhookAuthError (message reason : string)
| WebhookAuthzError (message reason : string)
| WebhookAuthConfigError (message reason : string)
| Unhandled (e : exn).

(** How [jwt.decode] fails: PyJWT's tree, and anything else. *)
Inductive jwt_failure :=
| ExpiredSignatureError (e : exn)
| InvalidAudienceError (e : exn)
| InvalidIssuerError (e : exn)
| InvalidSignatureError (e : exn)
| MissingRequiredClaimError (e : exn)
| InvalidTokenError (e : exn)
| OtherFailure (e : exn).

(** ** State *)

(** [_last_forced_refresh] is [None] for minus infinity. *)
Record resolver := mkResolver {
  jwks_url : string;
  cache_seconds : Z;
  min_refresh_seconds : Z;
  last_forced_refresh : option Q
}.

(** The process-wide resolvers, and the counters with their labels. *)
Record gateway := mkGateway {
  resolvers : list (string * resolver);
  received : list (string * string);
  forwarded : nat;
  rejected : list string
}.

Definition initial : gateway := mkGateway [] [] 0 [].

Definition with_resolvers (r : list (string * resolver)) (s : gateway) : gateway :=
  mkGateway r (received s) (forwarded s) (rejected s).

(** ** The world: PyJWT with its key cache, the clock, Redis *)

Record world := mkWorld {
  KeySet : Type;
  Key : Type;
  pyjwt_installed : bool;
  get_signing_keys : string → trace → res KeySet;
  match_kid : KeySet → pyval → option Key;
  get_signing_key_from_jwt : string → string → trace → res Key;
  get_unverified_header : string → res (list (string * pyval));
  decode : Key → list string → string → string → Z → list string → string → trace →
           jwt_failure + list (string * pyval);
  monotonic : trace → Q;
  xadd : trace → res unit
}.

Section gateway.
Context `{Hrepr : FloatRepr} (w : world).

(** A computation of the authentication code: it returns, or raises one of its
    own exceptions. *)
Local Notation A X := (M gateway (auth_exn + X)%type).

Definition aret {X} (x : X) : A X := mret (inr x).
Definition raise {X} (e : auth_exn) : A X := mret (inl e).
Definition abind {X Y} (m : A X) (f : X → A Y) : A Y :=
  r ← m; match r with inl e => raise e | inr x => f x end.
Local Notation "x <-- m ; k" := (abind m (λ x, k)) (at level 20, m at level 100, k at level 200).

(** [try: m  except Exception as e: handler(e)] around calls of a library. *)
Definition guard {X} (m : M gateway X) (handler : exn → A X) : A X :=
  try_ (x ← m; aret x) handler.

(** ** Signing keys *)

Definition jwks_url_for (cfg : settings) : string :=
  let explicit := str_strip (oidc_jwks_url cfg) in
  if str_nonempty explicit then explicit
  else str_rstrip (λ c, ch_eq c "/"%char) (str_strip (oidc_issuer cfg)) +:+ DEFAULT_JWKS_PATH.

(** [int(x or d)] *)
Definition int_or (x d : Z) : Z := if x =? 0 then d else x.

Definition resolver_for (cfg : settings) : A resolver :=
  let url := jwks_url_for cfg in
  let cache_seconds := int_or (oidc_jwks_cache_seconds cfg) 300 in
  let min_refresh := int_or (oidc_jwks_min_refresh_seconds cfg) 0 in
  s ← get;
  match dict_get url (resolvers s) with
  | Some r => aret r
  | None =>
      let r := mkResolver url cache_seconds min_refresh None in
      _ ← modify (with_resolvers (dict_set url r (resolvers s)));
      aret r
  end.

Definition reset_resolvers : M gateway unit := modify (with_resolvers []).

Definition client_or_raise : A unit :=
  if pyjwt_installed w then aret tt
  else raise (WebhookAuthConfigError
    ("webhook_auth_mode=oidc needs the `PyJWT[crypto]` package " +:+
     "(pip install 'PyJWT[crypto]').") "misconfigured").

(** The critical section: is a forced refresh allowed now, and the resolver after it. *)
Definition throttle (now : Q) (r : resolver) : bool * resolver :=
  match last_forced_refresh r with
  | Some t =>
      if negb (Qle_bool (inject_Z (min_refresh_seconds r)) (now - t)) then (false, r)
      else (true, mkResolver (jwks_url r) (cache_seconds r) (min_refresh_seconds r) (Some now))
  | None => (true, mkResolver (jwks_url r) (cache_seconds r) (min_refresh_seconds r) (Some now))
  end.

(** The fast path: the key in the cached set, if there is one and the cache works. *)
Definition cached_key (r : resolver) (kid : pyval) : A (option (Key w)) :=
  if truthy kid then
    guard (cached ← call (Jwks "get_signing_keys" (jwks_url r)) (get_signing_keys w (jwks_url r));
           mret (match_kid w cached kid))
          (λ _, aret None)
  else aret None.

(** The throttled refresh, for a key that is not in the cached set. *)
Definition forced_key (r : resolver) (token : string) (kid : pyval) : A (Key w) :=
  now ← observe (monotonic w);
  s ← get;
  let '(allowed, r') := throttle now (default r (dict_get (jwks_url r) (resolvers s))) in
  if (allowed : bool) then
    _ ← modify (with_resolvers (dict_set (jwks_url r) r' (resolvers s)));
    guard (call (Jwks "get_signing_key_from_jwt" (jwks_url r))
                (get_signing_key_from_jwt w (jwks_url r) token))
          (λ exc, raise (WebhookAuthError
             ("could not resolve a signing key from " +:+ jwks_url r +:+ ": " +:+ exn_msg exc)
             "unknown_key"))
  else
    raise (WebhookAuthError
      ("unrecognised signing key " +:+ py_repr kid +:+ " and the JWKS refresh is " +:+
       "rate-limited; retry shortly") "unknown_key").

Definition signing_key (r : resolver) (token : string) (kid : pyval) : A (Key w) :=
  _ <-- client_or_raise;
  match_ <-- cached_key r kid;
  match match_ with
  | Some k => aret k
  | None => forced_key r token kid
  end.

(** ** Authentication *)

(** [s.split(None, 1)] *)
Definition split_ws_once (s : string) : list string :=
  let s := str_lstrip is_space s in
  let fix go (s : string) : string * string :=
    match s with
    | EmptyString => (EmptyString, EmptyString)
    | String c s' => if is_space c then (EmptyString, str_lstrip is_space s')
                     else let '(a, b) := go s' in (String c a, b)
    end in
  let '(a, b) := go s in
  if str_nonempty a then if str_nonempty b then [a; b] else [a] else [].

Definition extract_bearer (authorization : option string) : auth_exn + string :=
  match authorization with
  | Some auth =>
      if str_nonempty (str_strip auth) then
        match split_ws_once (str_strip auth) with
        | [scheme; token] =>
            if bool_decide (str_lower scheme = "bearer") && str_nonempty (str_strip token)
            then inr (str_strip token)
            else inl (WebhookAuthError "Authorization header is not a Bearer token" "malformed_token")
        | _ => inl (WebhookAuthError "Authorization header is not a Bearer token" "malformed_token")
        end
      else inl (WebhookAuthError
        ("missing Authorization header; webhook_auth_mode=oidc requires " +:+
         "`Authorization: Bearer <gitlab-ci-id-token>`") "missing_token")
  | None => inl (WebhookAuthError
        ("missing Authorization header; webhook_auth_mode=oidc requires " +:+
         "`Authorization: Bearer <gitlab-ci-id-token>`") "missing_token")
  end.

Definition validate_config (cfg : settings) : auth_exn + unit :=
  let issuer := str_strip (oidc_issuer cfg) in
  let audience := str_strip (oidc_audience cfg) in
  let missing := map fst (List.filter (λ nv, negb (str_nonempty nv.2))
                            [("OIDC_ISSUER", issuer); ("OIDC_AUDIENCE", audience)]) in
  match missing with
  | [] => inr tt
  | _ => inl (WebhookAuthConfigError
      ("webhook_auth_mode=oidc requires " +:+ str_join " and " missing +:+
       " to be set; refusing to accept webhooks rather than fall back to " +:+
       "unauthenticated.") "misconfigured")
  end.

(** The [except] clauses around [jwt.decode], in the order of the source. *)
Definition translate (cfg : settings) (f : jwt_failure) : auth_exn :=
  match f with
  | ExpiredSignatureError e => WebhookAuthError ("token expired: " +:+ exn_msg e) "expired_token"
  | InvalidAudienceError e => WebhookAuthError
      ("token audience does not match " +:+ repr_str (oidc_audience cfg) +:+ ": " +:+ exn_msg e)
      "invalid_audience"
  | InvalidIssuerError e => WebhookAuthError
      ("token issuer does not match " +:+ repr_str (oidc_issuer cfg) +:+ ": " +:+ exn_msg e)
      "invalid_issuer"
  | InvalidSignatureError e => WebhookAuthError ("bad signature: " +:+ exn_msg e) "invalid_signature"
  | MissingRequiredClaimError e => WebhookAuthError ("missing claim: " +:+ exn_msg e) "invalid_claims"
  | InvalidTokenError e => WebhookAuthError ("invalid token: " +:+ exn_msg e) "invalid_token"
  | OtherFailure e => Unhandled e
  end.

Definition verify_token (token : string) (cfg : settings) : A (list (string * pyval)) :=
  _ <-- mret (validate_config cfg);
  match get_unverified_header w token with
  | Raise exc => raise (WebhookAuthError ("malformed JWT: " +:+ exn_msg exc) "malformed_token")
  | Ok header =>
      r <-- resolver_for cfg;
      key <-- signing_key r token (dget "kid" header);
      outcome ← observe (λ h, decode w key ALGORITHMS (str_strip (oidc_audience cfg))
                   (str_strip (oidc_issuer cfg)) (int_or (oidc_leeway_seconds cfg) 0)
                   REQUIRED_CLAIMS token h);
      match outcome with
      | inl f => raise (translate cfg f)
      | inr claims => aret claims
      end
  end.

(** ** Authorization *)

Definition as_id (value : pyval) : string :=
  match value with
  | PNone => ""
  | PBool _ => ""
  | v => str_strip (py_str v)
  end.

Definition project_mismatch (message : string) : auth_exn + string :=
  inl (WebhookAuthzError message "project_mismatch").

Definition payload_project_id (payload : list (string * pyval)) : pyval :=
  match dget "project" payload with
  | PDict project => dget "id" project
  | _ => PNone
  end.

Definition authorize_project (claims payload : list (string * pyval)) : auth_exn + string :=
  let claim_pid := as_id (dget "project_id" claims) in
  if negb (str_nonempty claim_pid) then
    project_mismatch "token carries no usable project_id claim"
  else
    let payload_pid := as_id (payload_project_id payload) in
    if negb (str_nonempty payload_pid) then
      project_mismatch "payload carries no project.id to authorize against"
    else if negb (bool_decide (claim_pid = payload_pid)) then
      project_mismatch ("token is scoped to project " +:+ claim_pid +:+
                        " but the payload targets " +:+ "project " +:+ payload_pid)
    else inr claim_pid.

Definition authenticate_and_authorize (authorization : option string)
    (payload : list (string * pyval)) (cfg : settings) : A (list (string * pyval)) :=
  token <-- mret (extract_bearer authorization);
  claims <-- verify_token token cfg;
  _ <-- mret (authorize_project claims payload);
  aret claims.

(** ** The request handler *)

Definition reject (reason : string) : M gateway unit :=
  modify (λ s, mkGateway (resolvers s) (received s) (forwarded s) (rejected s ++ [reason])).

Definition http_exception (code : Z) (detail : string) : exn :=
  Exn "HTTPException" (str_of_Z code +:+ ": " +:+ detail).

Definition enforce_webhook_auth (cfg : settings) (authorization : option string)
    (payload : list (string * pyval)) : M gateway unit :=
  let mode := str_lower (str_strip (if str_nonempty (webhook_auth_mode cfg)
                                    then webhook_auth_mode cfg else "none")) in
  if bool_decide (mode = "none") then mret tt
  else if negb (bool_decide (mode = "oidc")) then
    _ ← reject "misconfigured";
    throw (http_exception 500 ("unknown webhook_auth_mode " +:+ repr_str mode))
  else
    r ← authenticate_and_authorize authorization payload cfg;
    match r with
    | inr claims => mret tt
    | inl (WebhookAuthError m reason) => _ ← reject reason; throw (http_exception 401 m)
    | inl (WebhookAuthzError m reason) => _ ← reject reason; throw (http_exception 403 m)
    | inl (WebhookAuthConfigError m reason) => _ ← reject reason; throw (http_exception 500 m)
    | inl (Unhandled e) => throw e
    end.

(** [payload["object_attributes"] or {}] *)
Definition attributes (payload : list (string * pyval)) : pyval :=
  py_or (dget "object_attributes" payload) (PDict []).

Definition str_eqb (v : pyval) (s : string) : bool :=
  match v with PStr t => bool_decide (t = s) | _ => false end.

Definition classify_webhook (payload : list (string * pyval)) : res string :=
  if negb (dict_has "object_attributes" payload) then Ok "invalid"
  else
    ref ← py_get (attributes payload) "ref" (PStr "");
    status ← py_get (attributes payload) "status" (PStr "");
    let auto := match ref with PStr r => startswith "auto/" r | _ => false end in
    if auto then Ok "validation"
    else if str_eqb (dget "object_kind" payload) "pipeline" && str_eqb status "failed"
    then Ok "bug_reported"
    else Ok "other".

(** What the handler reads for its log line; it raises like the source. *)
Definition log_line (payload : list (string * pyval)) : res unit :=
  ref ← py_get (attributes payload) "ref" (PStr "");
  let builds := py_or (dget "builds" payload) (PList [PDict []]) in
  first ← py_first builds;
  job_id ← py_get first "id" (PStr "");
  Ok tt.

(** The [object_kind] label: what the client library renders of the value. *)
Definition webhook (cfg : settings) (payload : list (string * pyval))
    (authorization : option string) : M gateway unit :=
  let raw := json_dumps default_opts (PDict payload) in
  _ ← lift (log_line payload);
  let object_kind := default (PStr "unknown") (dict_get "object_kind" payload) in
  classification ← lift (classify_webhook payload);
  _ ← modify (λ s, mkGateway (resolvers s) (received s ++ [(py_str object_kind, classification)])
                (forwarded s) (rejected s));
  _ ← enforce_webhook_auth cfg authorization payload;
  if use_redis cfg then
    _ ← call (XAddTrim (gateway_stream cfg) [("data", raw)] (gateway_stream_maxlen cfg)) (xadd w);
    modify (λ s, mkGateway (resolvers s) (received s) (S (forwarded s)) (rejected s))
  else mret tt.

End gateway.
End Webhook.
