(* ===== verification/WebhookSpec.v ===== *)
(** * What the webhook gateway promises

    Under [oidc] only a request whose token was verified, and whose token and
    payload name the same project, reaches the stream, and the run it starts is
    for that project; every request is accounted for; forced key refreshes are
    spaced; the metric's classification is the parser's. *)

From S2P Require Import Prelude PyStr PyJson PyJsonLoads Effects BugIds Webhook.
From Stdlib Require Import Lqa.
Local Open Scope string_scope.
Local Open Scope list_scope.

Module WebhookSpec.
Import BugIds Webhook.

Section auth.
Context `{Hrepr : FloatRepr} (w : world).

(** ** Computations that end well *)

Lemma bind_Ok {S X Y} (m : M S X) (f : X → M S Y) s h y st :
  (m ≫= f) s h = (Ok y, st) →
  ∃ x s1 h1, m s h = (Ok x, (s1, h1)) ∧ f x s1 h1 = (Ok y, st).
Proof.
  rewrite bind_run. destruct (m s h) as [[x|e] [s1 h1]]; [|done]. intros Hf. by exists x, s1, h1.
Qed.

Lemma abind_inr {X Y} (m : M gateway (auth_exn + X)) (f : X → M gateway (auth_exn + Y)) s h y st :
  abind m f s h = (Ok (inr y), st) →
  ∃ x s1 h1, m s h = (Ok (inr x), (s1, h1)) ∧ f x s1 h1 = (Ok (inr y), st).
Proof. unfold abind. intros ([e|x] & s1 & h1 & Hm & Hf)%bind_Ok; [done|]. by exists x, s1, h1. Qed.

(** ** Invariants of the authentication code

    An invariant of the state and the trace only has to survive a look at the key
    cache, the entry of a new resolver and a throttled refresh of a resolver that
    came from the table. *)

Definition stays {X} (J : gateway → trace → Prop) (m : M gateway X) : Prop :=
  ∀ s h, J s h → J (end_state (m s h)) (end_trace (m s h)).

Section stays.
Context (J : gateway → trace → Prop).

Lemma stays_ret {X} (x : X) : stays J (mret x).
Proof. by intros s h. Qed.
Lemma stays_lift {X} (r : res X) : stays J (lift r).
Proof. by intros s h. Qed.
Lemma stays_throw {X} e : stays J (throw (A := X) e).
Proof. by intros s h. Qed.
Lemma stays_observe {X} (f : trace → X) : stays J (observe f).
Proof. by intros s h. Qed.
Lemma stays_modify f : (∀ s h, J s h → J (f s) h) → stays J (modify f).
Proof. intros Hf s h. apply Hf. Qed.
Lemma stays_call {X} c (f : trace → res X) : (∀ s h b, J s h → J s (h ++ [(c, b)])) → stays J (call c f).
Proof. intros Hc s h. apply Hc. Qed.

Lemma stays_bind {X Y} (m : M gateway X) (f : X → M gateway Y) :
  stays J m → (∀ x, stays J (f x)) → stays J (m ≫= f).
Proof.
  apply (preserves_bind (λ s h s1 h1, J s h → J s1 h1)). auto.
Qed.

Lemma stays_try {X} (m : M gateway X) handler :
  stays J m → (∀ e, stays J (handler e)) → stays J (try_ m handler).
Proof. apply (preserves_try (λ s h s1 h1, J s h → J s1 h1)). auto. Qed.

Lemma keeps_abind {X Y} (m : M gateway (auth_exn + X)) (f : X → M gateway (auth_exn + Y)) :
  stays J m → (∀ x, stays J (f x)) → stays J (abind m f).
Proof. intros Hm Hf. apply stays_bind; [done|]. intros [e|x]; [apply stays_ret|apply Hf]. Qed.

(** When the value of the first part is known to satisfy [P]. *)
Lemma keeps_abind_known {X Y} (P : X → Prop) (m : M gateway (auth_exn + X))
    (f : X → M gateway (auth_exn + Y)) :
  stays J m → (∀ s h x st, J s h → m s h = (Ok (inr x), st) → P x) →
  (∀ x, P x → stays J (f x)) → stays J (abind m f).
Proof.
  intros Hm HP Hf s h HJ. specialize (Hm s h HJ). specialize (HP s h). unfold abind, end_state, end_trace in *.
  rewrite !bind_run. destruct (m s h) as [[[e|x]|e] [s1 h1]]; simpl in *; [done| |done].
  apply (Hf x); [by eapply HP|done].
Qed.

Lemma keeps_guard {X} (m : M gateway X) handler :
  stays J m → (∀ e, stays J (handler e)) → stays J (guard m handler).
Proof. intros Hm Hh. apply stays_try; [|done]. apply stays_bind; [done|]. intros x. apply stays_ret. Qed.
End stays.

Create HintDb stays.
Local Hint Resolve stays_ret stays_lift stays_throw stays_observe stays_modify stays_call stays_bind
  stays_try keeps_abind keeps_guard : stays.

Section keeps.
Context (J : gateway → trace → Prop) (P : resolver → Prop) (cfg : settings).
Context (R_cached : ∀ s h u b, J s h → J s (h ++ [(Jwks "get_signing_keys" u, b)])).
Context (R_resolver : stays J (resolver_for cfg)).
Context (R_resolved : ∀ s h r st, J s h → resolver_for cfg s h = (Ok (inr r), st) → P r).
Context (R_forced : ∀ r token kid, P r → stays J (forced_key w r token kid)).

Lemma keeps_signing_key r token kid : P r → stays J (signing_key w r token kid).
Proof.
  intros Hr. unfold signing_key, cached_key, client_or_raise, raise, aret. apply keeps_abind.
  { destruct (pyjwt_installed w); auto with stays. }
  intros _. apply keeps_abind.
  { destruct (truthy kid); auto 6 with stays. }
  intros [k|]; auto with stays.
Qed.

Lemma keeps_verify token : stays J (verify_token w token cfg).
Proof.
  unfold verify_token, raise. apply keeps_abind; [auto with stays|]. intros _.
  destruct (get_unverified_header w token); [|auto with stays].
  apply (keeps_abind_known J P); [done|done|]. intros r Hr.
  apply keeps_abind; [by apply keeps_signing_key|]. intros k.
  apply stays_bind; [auto with stays|]. intros [f|c]; unfold aret; auto with stays.
Qed.

Lemma keeps_auth a p : stays J (authenticate_and_authorize w a p cfg).
Proof.
  unfold authenticate_and_authorize, aret. pose proof keeps_verify. auto 8 with stays.
Qed.

(** A request, when the counters and the forwarding do not matter either. *)
Lemma keeps_webhook p a :
  (∀ s h rec fwd rej, J s h → J (mkGateway (resolvers s) rec fwd rej) h) →
  (∀ s h st f n b, J s h → J s (h ++ [(XAddTrim st f n, b)])) →
  stays J (webhook w cfg p a).
Proof.
  intros Hc Hx. pose proof (keeps_auth a p) as Ha.
  assert (stays J (enforce_webhook_auth w cfg a p)) as He.
  { unfold enforce_webhook_auth, reject. cbv zeta.
    destruct (bool_decide (_ = "none")); [auto with stays|].
    destruct (negb _); [auto with stays|].
    apply stays_bind; [done|]. intros [[]|]; auto with stays. }
  unfold webhook. destruct (use_redis cfg); auto 8 with stays.
Qed.

End keeps.

(** ** What the gate does to the counters and the trace *)

Definition is_jwks (c : cmd) : bool := match c with Jwks _ _ => true | _ => false end.

Definition counters (s : gateway) := (received s, forwarded s, rejected s).

(** The counters stay, and only the key server is called. *)
Definition quiet (s : gateway) (h : trace) (s' : gateway) (h' : trace) : Prop :=
  counters s' = counters s ∧ ∃ t, h' = h ++ t ∧ Forall (λ e, is_jwks e.1 = true) t.

Lemma quiet_refl s h : quiet s h s h.
Proof. split; [done|]. exists []. by rewrite app_nil_r. Qed.

Lemma quiet_trans s h s1 h1 s2 h2 : quiet s h s1 h1 → quiet s1 h1 s2 h2 → quiet s h s2 h2.
Proof.
  intros [Hc (t & -> & Ht)] [Hc' (t' & -> & Ht')]. split; [congruence|].
  exists (t ++ t'). rewrite app_assoc. split; [done|]. by apply Forall_app.
Qed.

Lemma quiet_jwks s h m u b : quiet s h s (h ++ [(Jwks m u, b)]).
Proof. split; [done|]. eexists. split; [done|]. by constructor. Qed.

Lemma quiet_resolvers r s h : quiet s h (with_resolvers r s) h.
Proof. split; [done|]. exists []. by rewrite app_nil_r. Qed.

Local Hint Resolve quiet_refl quiet_trans quiet_resolvers : effects.

Lemma quiet_resolver_for cfg : preserves quiet (resolver_for cfg).
Proof.
  apply preserves_bind; eauto with effects. intros s. unfold aret.
  destruct (dict_get _ _); eauto 6 with effects.
Qed.

(** A refresh changes one resolver and makes at most one call. *)
Lemma forced_key_run r token kid s h :
  let old := default r (dict_get (jwks_url r) (resolvers s)) in
  let new := throttle (monotonic w h) old in
  let res := forced_key w r token kid s h in
  if new.1
  then end_state res = with_resolvers (dict_set (jwks_url r) new.2 (resolvers s)) s ∧
       end_trace res = h ++ [(Jwks "get_signing_key_from_jwt" (jwks_url r),
                              is_ok (get_signing_key_from_jwt w (jwks_url r) token h))]
  else end_state res = s ∧ end_trace res = h.
Proof.
  intros old new res. subst res. unfold forced_key. rewrite bind_observe, bind_get. fold old new.
  destruct new as [[|] r'] eqn:E; simpl; [|done]. rewrite bind_modify. unfold guard, try_.
  rewrite bind_run. unfold call. by destruct (get_signing_key_from_jwt _ _ _ _).
Qed.

Lemma quiet_forced_key r token kid : preserves quiet (forced_key w r token kid).
Proof.
  intros s h. pose proof (forced_key_run r token kid s h) as H. simpl in H.
  destruct (throttle _ _) as [[|] r']; destruct H as [-> ->]; [|apply quiet_refl].
  eapply quiet_trans; [apply quiet_resolvers|apply quiet_jwks].
Qed.

Lemma quiet_auth a p cfg : preserves quiet (authenticate_and_authorize w a p cfg).
Proof.
  intros s h. apply (keeps_auth (quiet s h) (λ _, True)); auto.
  - intros s' h' u b Hq. eapply quiet_trans; [exact Hq|apply quiet_jwks].
  - intros s' h' Hq. eapply quiet_trans; [exact Hq|apply quiet_resolver_for].
  - intros r token kid _ s' h' Hq. eapply quiet_trans; [exact Hq|apply quiet_forced_key].
  - apply quiet_refl.
Qed.

(** ** What a success of the gate means *)

(** A key the configured key server vouches for. *)
Definition trusted_key (url token : string) (kid : pyval) (key : Key w) : Prop :=
  (∃ h ks, get_signing_keys w url h = Ok ks ∧ match_kid w ks kid = Some key) ∨
  (∃ h, get_signing_key_from_jwt w url token h = Ok key).

(** The resolvers are filed under their URLs. *)
Definition filed (s : gateway) : Prop :=
  ∀ url r, dict_get url (resolvers s) = Some r → jwks_url r = url.

(** The bearer token of a request, verified against the configured issuer and
    audience with RS256 and the required claims, and the claims it carries. *)
Definition verified (cfg : settings) (authorization : option string)
    (claims : list (string * pyval)) : Prop :=
  ∃ token header key h,
    extract_bearer authorization = inr token ∧
    str_nonempty (str_strip (oidc_issuer cfg)) = true ∧
    str_nonempty (str_strip (oidc_audience cfg)) = true ∧
    get_unverified_header w token = Ok header ∧
    trusted_key (jwks_url_for cfg) token (dget "kid" header) key ∧
    decode w key ["RS256"] (str_strip (oidc_audience cfg)) (str_strip (oidc_issuer cfg))
      (oidc_leeway_seconds cfg) ["exp"; "iat"; "aud"; "iss"; "project_id"] token h = inr claims.

Lemma signing_key_trusted r token kid s h key st :
  signing_key w r token kid s h = (Ok (inr key), st) → trusted_key (jwks_url r) token kid key.
Proof.
  unfold signing_key. intros (u1 & s1 & h1 & Hc & H)%abind_inr.
  apply abind_inr in H as ([k|] & s2 & h2 & Hk & H).
  - injection H as <- _. left. unfold cached_key in Hk. destruct (truthy kid); [|done].
    unfold guard, try_ in Hk. rewrite !bind_run in Hk. unfold call, aret, mret, M_ret in Hk.
    destruct (get_signing_keys w (jwks_url r) h1) as [ks|e] eqn:E; [|done].
    exists h1, ks. split; [done|]. by injection Hk.
  - clear Hk Hc. right. unfold forced_key in H. rewrite bind_observe, bind_get in H.
    destruct (throttle _ _) as [[|] r']; [|done]. rewrite bind_modify in H.
    unfold guard, try_ in H. rewrite bind_run in H. unfold call in H. simpl in H.
    destruct (get_signing_key_from_jwt w (jwks_url r) token h2) as [k|e] eqn:E; [|done].
    exists h2. injection H as <- _. done.
Qed.

Lemma resolver_for_url cfg s h r st :
  filed s → resolver_for cfg s h = (Ok (inr r), st) → jwks_url r = jwks_url_for cfg ∧ filed st.1.
Proof.
  intros Hf. unfold resolver_for. rewrite bind_get.
  destruct (dict_get (jwks_url_for cfg) (resolvers s)) as [r0|] eqn:E.
  - intros [= <- <-]. split; [by apply Hf|done].
  - rewrite bind_modify. intros [= <- <-]. split; [done|]. intros url r. simpl.
    rewrite dict_get_set. destruct (decide _) as [<-|]; [by intros [= <-]|apply Hf].
Qed.

Lemma validate_config_ok cfg :
  validate_config cfg = inr tt →
  str_nonempty (str_strip (oidc_issuer cfg)) = true ∧
  str_nonempty (str_strip (oidc_audience cfg)) = true.
Proof.
  unfold validate_config. simpl. destruct (str_nonempty (str_strip (oidc_issuer cfg)));
    destruct (str_nonempty (str_strip (oidc_audience cfg))); done.
Qed.

Lemma int_or_0 z : int_or z 0 = z.
Proof. unfold int_or. by destruct (Z.eqb_spec z 0). Qed.

Lemma auth_verified cfg a p s h claims st :
  filed s → authenticate_and_authorize w a p cfg s h = (Ok (inr claims), st) →
  verified cfg a claims ∧ ∃ pid, authorize_project claims p = inr pid.
Proof.
  intros Hf. unfold authenticate_and_authorize.
  intros (token & s1 & h1 & [= Ht <- <-] & H)%abind_inr.
  apply abind_inr in H as (cl & s2 & h2 & Hv & H).
  apply abind_inr in H as (pid & s3 & h3 & [= Hp <- <-] & [= <- _]).
  split; [|by exists pid]. unfold verify_token in Hv.
  apply abind_inr in Hv as ([] & s4 & h4 & [= Hc <- <-] & Hv).
  destruct (get_unverified_header w token) as [header|e] eqn:Hh; [|done].
  apply abind_inr in Hv as (r & s5 & h5 & Hr & Hv).
  apply abind_inr in Hv as (key & s6 & h6 & Hk & Hv). rewrite bind_observe, int_or_0 in Hv.
  destruct (resolver_for_url _ _ _ _ _ Hf Hr) as [Hu _]. apply validate_config_ok in Hc as [Hi Ha].
  destruct (decode _ _ _ _ _ _ _ _ _) as [f|c'] eqn:Hd; [done|]. injection Hv as <- _ _.
  exists token, header, key, h6. apply signing_key_trusted in Hk. rewrite Hu in Hk.
  repeat split; assumption.
Qed.

Lemma authorize_project_spec claims p pid :
  authorize_project claims p = inr pid →
  pid = as_id (dget "project_id" claims) ∧ pid = as_id (payload_project_id p) ∧ pid ≠ "".
Proof.
  unfold authorize_project.
  destruct (str_nonempty (as_id (dget "project_id" claims))) eqn:E1; [|done]. simpl.
  destruct (str_nonempty (as_id (payload_project_id p))) eqn:E2; [|done]. simpl.
  case_bool_decide as E; [|done]. simpl. intros [= <-]. split; [done|]. split; [done|].
  intros E0. by rewrite E0 in E1.
Qed.

(** ** The resolvers stay filed under their URLs *)

Lemma throttle_url now r : jwks_url (throttle now r).2 = jwks_url r.
Proof. unfold throttle. destruct (last_forced_refresh r); [destruct (negb _)|]; done. Qed.

Lemma filed_set url r s : filed s → jwks_url r = url → filed (with_resolvers (dict_set url r (resolvers s)) s).
Proof.
  intros Hf Hr url' r'. simpl. rewrite dict_get_set.
  destruct (decide _) as [<-|]; [by intros [= <-]|apply Hf].
Qed.

Lemma filed_webhook cfg p a s h : filed s → filed (end_state (webhook w cfg p a s h)).
Proof.
  revert s h. apply (keeps_webhook (λ s _, filed s) (λ _, True)); auto.
  - intros s h Hf. unfold resolver_for. rewrite bind_get.
    destruct (dict_get _ _); [done|]. by apply filed_set.
  - intros r token kid _ s h Hf. pose proof (forced_key_run r token kid s h) as H. simpl in H.
    set (old := default r _) in H. destruct (throttle _ old) as [[|] r'] eqn:E; simpl in H;
      [|by destruct H as [-> _]].
    destruct H as [-> _]. apply filed_set; [done|].
    pose proof (throttle_url (monotonic w h) old) as Hu. rewrite E in Hu. simpl in Hu. rewrite Hu.
    unfold old. destruct (dict_get (jwks_url r) (resolvers s)) eqn:Eg; [by apply Hf|done].
Qed.

(** ** The gate as the handler sees it *)

(** The switch, as the handler reads it. *)
Definition auth_mode (cfg : settings) : string := str_lower (str_strip (webhook_auth_mode cfg)).

Lemma enforce_oidc cfg a p s h :
  auth_mode cfg = "oidc" →
  enforce_webhook_auth w cfg a p s h =
  (r ← authenticate_and_authorize w a p cfg;
   match r with
   | inr claims => mret tt
   | inl (WebhookAuthError m reason) => _ ← reject reason; throw (http_exception 401 m)
   | inl (WebhookAuthzError m reason) => _ ← reject reason; throw (http_exception 403 m)
   | inl (WebhookAuthConfigError m reason) => _ ← reject reason; throw (http_exception 500 m)
   | inl (Unhandled e) => throw e
   end) s h.
Proof.
  unfold auth_mode. intros Hm. unfold enforce_webhook_auth.
  destruct (webhook_auth_mode cfg) as [|c m]; [discriminate Hm|]. cbn [str_nonempty].
  cbv zeta. rewrite Hm. done.
Qed.

(** Whatever the gate answers, it only called the key server; when it lets the
    request pass, the token was verified and the projects agree. *)
Lemma enforce_run cfg a p s h r s' h' :
  auth_mode cfg = "oidc" → filed s → enforce_webhook_auth w cfg a p s h = (r, (s', h')) →
  (∃ t, h' = h ++ t ∧ Forall (λ e, is_jwks e.1 = true) t) ∧
  (r = Ok tt → ∃ claims pid, verified cfg a claims ∧ authorize_project claims p = inr pid).
Proof.
  intros Hm Hf E. rewrite (enforce_oidc _ _ _ _ _ Hm), bind_run in E.
  pose proof (quiet_auth a p cfg s h) as [_ Ht].
  destruct (authenticate_and_authorize w a p cfg s h) as [[[e|claims]|e] [s1 h1]] eqn:Ea;
    unfold end_trace in Ht; simpl in Ht.
  - destruct e; injection E as <- <- <-; split; done.
  - injection E as <- <- <-. split; [done|]. intros _.
    apply auth_verified in Ea as [Hv [pid Hp]]; [|done]. by exists claims, pid.
  - injection E as <- <- <-. split; done.
Qed.

Lemma webhook_run cfg p a s h r s' h' :
  auth_mode cfg = "oidc" → filed s → webhook w cfg p a s h = (r, (s', h')) →
  ∃ t, h' = h ++ t ∧
  ∀ c b, (c, b) ∈ t → is_jwks c = false →
    c = XAddTrim (gateway_stream cfg) [("data", json_dumps default_opts (PDict p))]
          (gateway_stream_maxlen cfg) ∧
    ∃ claims pid, verified cfg a claims ∧ authorize_project claims p = inr pid.
Proof.
  intros Hm Hf E. unfold webhook in E.
  assert (∃ t, h = h ++ t ∧ ∀ (c : cmd) (b : bool), (c, b) ∈ t → False) as (t0 & Ht0 & Hno).
  { exists []. rewrite app_nil_r. split; [done|]. by intros c b ?%elem_of_nil. }
  rewrite bind_run in E. unfold lift in E.
  destruct (log_line p) as [u|e]; [|injection E as <- <- <-; exists t0; naive_solver].
  rewrite bind_run in E.
  destruct (classify_webhook p) as [cl|e]; [|injection E as <- <- <-; exists t0; naive_solver].
  rewrite bind_modify, bind_run in E. clear t0 Ht0 Hno.
  destruct (enforce_webhook_auth w cfg a p _ h) as [[[]|e] [s1 h1]] eqn:Ee;
    (eapply enforce_run in Ee as [(t & -> & Ht) Hok]; [|done|exact Hf]).
  2:{ injection E as <- <- <-. exists t. split; [done|]. rewrite Forall_forall in Ht.
      intros c b Hin Hc. specialize (Ht _ Hin). simpl in Ht. congruence. }
  specialize (Hok eq_refl). rewrite Forall_forall in Ht.
  destruct (use_redis cfg).
  - exists (t ++ [(XAddTrim (gateway_stream cfg) [("data", json_dumps default_opts (PDict p))]
          (gateway_stream_maxlen cfg), is_ok (xadd w (h ++ t)))]).
    rewrite bind_run in E. unfold call in E.
    split; [destruct (xadd w (h ++ t)); injection E as <- <- <-; by rewrite app_assoc|].
    intros c b [Hin|Hin]%elem_of_app Hc.
    + specialize (Ht _ Hin). simpl in Ht. congruence.
    + apply list_elem_of_singleton in Hin. by injection Hin as -> ->.
  - injection E as <- <- <-. exists t. split; [done|]. intros c b Hin Hc.
    specialize (Ht _ Hin). simpl in Ht. congruence.
Qed.

(** ** A sequence of requests: each answered, whatever it raised *)

Definition serve (cfg : settings) (reqs : list (list (string * pyval) * option string)) :
    M gateway unit :=
  for_ reqs (λ q, ignore (webhook w cfg q.1 q.2)).

Lemma serve_stays (J : gateway → trace → Prop) cfg reqs s h :
  (∀ p a s h, J s h → J (end_state (webhook w cfg p a s h)) (end_trace (webhook w cfg p a s h))) →
  J s h → J (end_state (serve cfg reqs s h)) (end_trace (serve cfg reqs s h)).
Proof.
  intros Hw. revert s h.
  apply (preserves_for (λ s h s' h', J s h → J s' h')); [auto|auto|].
  intros q. apply preserves_ignore; auto. intros s h. apply Hw.
Qed.

Lemma filed_serve cfg reqs h : filed (end_state (serve cfg reqs initial h)).
Proof. apply (serve_stays (λ s _, filed s)); [|done]. intros p a s h'. apply filed_webhook. Qed.

(** ** Accounting *)

Definition failed_adds (h : trace) : nat :=
  List.length (List.filter (λ e, match e with (XAddTrim _ _ _, false) => true | _ => false end) h).

Lemma failed_adds_app h t : failed_adds (h ++ t) = (failed_adds h + failed_adds t)%nat.
Proof. unfold failed_adds. by rewrite List.filter_app, length_app. Qed.

Lemma failed_adds_jwks t : Forall (λ e, is_jwks e.1 = true) t → failed_adds t = 0%nat.
Proof.
  induction 1 as [|[c b] t Hc _ IH]; [done|]. unfold failed_adds in *. simpl in *. by destruct c.
Qed.

(** The books: every request received was forwarded, refused, or lost to Redis. *)
Definition balanced (s : gateway) (h : trace) : Prop :=
  List.length (received s) = (forwarded s + List.length (rejected s) + failed_adds h)%nat.

(** PyJWT raises nothing but its own errors. *)
Definition decode_declared : Prop := ∀ k a i l al r t h e,
  decode w k al a i l r t h ≠ inl (OtherFailure e).

(** A computation that raises only what the handler catches. *)
Definition handled {X} (m : M gateway (auth_exn + X)) : Prop :=
  ∀ s h, ∃ x, (m s h).1 = Ok x ∧ ∀ e, x ≠ inl (Unhandled e).

Lemma handled_ret {X} (x : X) : handled (mret (inr x)).
Proof. intros s h. by exists (inr x). Qed.

Lemma handled_fail {X} (x : auth_exn + X) : (∀ e, x ≠ inl (Unhandled e)) → handled (mret x).
Proof. intros Hx s h. by exists x. Qed.

Lemma handled_abind {X Y} (m : M gateway (auth_exn + X)) (f : X → M gateway (auth_exn + Y)) :
  handled m → (∀ x, handled (f x)) → handled (abind m f).
Proof.
  intros Hm Hf s h. unfold abind. rewrite bind_run. destruct (Hm s h) as (x & E & Hx).
  destruct (m s h) as [r [s1 h1]]. simpl in E. subst r. destruct x as [e|x]; [|apply Hf].
  exists (inl e). split; [done|]. intros e'. specialize (Hx e'). congruence.
Qed.

Lemma handled_observe {X Y} (g : trace → X) (f : X → M gateway (auth_exn + Y)) :
  (∀ h, handled (f (g h))) → handled (observe g ≫= f).
Proof. intros Hf s h. rewrite bind_observe. apply Hf. Qed.

Lemma handled_get {Y} (f : gateway → M gateway (auth_exn + Y)) :
  (∀ s, handled (f s)) → handled (get ≫= f).
Proof. intros Hf s h. rewrite bind_get. apply Hf. Qed.

Lemma handled_modify {Y} g (f : unit → M gateway (auth_exn + Y)) :
  handled (f tt) → handled (modify g ≫= f).
Proof. intros Hf s h. rewrite bind_modify. apply Hf. Qed.

Lemma handled_guard {X Z} c (g : trace → res Z) (k : Z → X) handler :
  (∀ e, handled (handler e)) → handled (guard (x ← call c g; mret (k x)) handler).
Proof.
  intros Hh s h. unfold guard, try_. rewrite !bind_run. unfold call.
  destruct (g h) as [z|e]; simpl; [by eexists|apply Hh].
Qed.

Lemma handled_guard_call {X} c (g : trace → res X) handler :
  (∀ e, handled (handler e)) → handled (guard (call c g) handler).
Proof.
  intros Hh s h. unfold guard, try_. rewrite !bind_run. unfold call.
  destruct (g h) as [z|e]; simpl; [by eexists|apply Hh].
Qed.

Local Hint Resolve handled_ret handled_fail handled_abind handled_observe handled_get handled_modify
  handled_guard handled_guard_call : stays.

Lemma handled_auth cfg a p : decode_declared → handled (authenticate_and_authorize w a p cfg).
Proof.
  intros Hd. unfold authenticate_and_authorize, aret. apply handled_abind.
  { apply handled_fail. intros e. unfold extract_bearer. repeat case_match; done. }
  intros token. apply handled_abind.
  2:{ intros claims. apply handled_abind; [|auto with stays]. apply handled_fail. intros e.
      unfold authorize_project, project_mismatch. repeat case_match; done. }
  unfold verify_token. apply handled_abind.
  { apply handled_fail. intros e. unfold validate_config. repeat case_match; done. }
  intros _. destruct (get_unverified_header w token); [|by apply handled_fail].
  apply handled_abind. { apply handled_get. intros s. unfold aret. case_match; auto with stays. }
  intros r. apply handled_abind.
  { unfold signing_key, client_or_raise, cached_key, forced_key, raise, aret. apply handled_abind.
    { case_match; [auto with stays|by apply handled_fail]. }
    intros _. apply handled_abind. { case_match; auto with stays. }
    intros [k|]; [auto with stays|]. apply handled_observe. intros h. apply handled_get. intros s.
    case_match. case_match; [|by apply handled_fail]. apply handled_modify, handled_guard_call.
    intros e. by apply handled_fail. }
  intros key. apply handled_observe. intros h. destruct (decode _ _ _ _ _ _ _ _ _) as [f|c] eqn:E.
  - apply handled_fail. intros e. destruct f; simpl; try done. by apply Hd in E.
  - apply handled_ret.
Qed.

Lemma auth_balanced cfg a p s h r s' h' :
  decode_declared → authenticate_and_authorize w a p cfg s h = (r, (s', h')) →
  counters s' = counters s ∧ failed_adds h' = failed_adds h ∧
  ∃ x, r = Ok x ∧ ∀ e, x ≠ inl (Unhandled e).
Proof.
  intros Hd E. pose proof (quiet_auth a p cfg s h) as [Hc (t & Ht & Hj)].
  destruct (handled_auth cfg a p Hd s h) as (x & Hx & Hu). rewrite E in *.
  unfold end_state, end_trace in *. simpl in *. subst h'. split; [done|].
  rewrite failed_adds_app, (failed_adds_jwks t Hj). split; [lia|by exists x].
Qed.

(** The gate refuses and counts, or lets pass. *)
Lemma enforce_balanced cfg a p s h r s' h' :
  decode_declared → enforce_webhook_auth w cfg a p s h = (r, (s', h')) →
  received s' = received s ∧ forwarded s' = forwarded s ∧ failed_adds h' = failed_adds h ∧
  List.length (rejected s') = (List.length (rejected s) + if is_ok r then 0 else 1)%nat.
Proof.
  intros Hd E. unfold enforce_webhook_auth in E. cbv zeta in E.
  destruct (bool_decide (_ = "none")); [injection E as <- <- <-; simpl; repeat split; lia|].
  destruct (negb _).
  { unfold reject in E. rewrite bind_modify in E. injection E as <- <- <-. simpl.
    rewrite length_app. simpl. repeat split; lia. }
  rewrite bind_run in E.
  destruct (authenticate_and_authorize w a p cfg s h) as [ra [s1 h1]] eqn:Ea.
  apply auth_balanced in Ea as (Hc & Hf & x & -> & Hu); [|done]. injection Hc as Hr Hfw Hrj.
  destruct x as [e|claims].
  - destruct e; try (by destruct (Hu e)); unfold reject in E; rewrite bind_modify in E;
      injection E as <- <- <-; simpl; rewrite length_app, Hrj; simpl; repeat split; auto; lia.
  - injection E as <- <- <-. simpl. rewrite Hrj. repeat split; auto; lia.
Qed.

Lemma webhook_balanced cfg p a s h :
  decode_declared → use_redis cfg = true →
  balanced s h → balanced (end_state (webhook w cfg p a s h)) (end_trace (webhook w cfg p a s h)).
Proof.
  intros Hd Hredis Hb. destruct (webhook w cfg p a s h) as [r [s' h']] eqn:E.
  unfold end_state, end_trace. simpl. unfold webhook in E. rewrite bind_run in E. unfold lift in E.
  destruct (log_line p) as [u|e]; [|by injection E as <- <- <-]. rewrite bind_run in E.
  destruct (classify_webhook p) as [cl|e]; [|by injection E as <- <- <-].
  rewrite bind_modify, bind_run in E. unfold balanced in *.
  destruct (enforce_webhook_auth w cfg a p _ h) as [r1 [s1 h1]] eqn:Ee.
  apply enforce_balanced in Ee as (Hr & Hf & Hh & Hj); [|done]. simpl in *.
  destruct r1 as [[]|e]; simpl in Hj.
  2:{ injection E as <- <- <-. rewrite Hr, Hf, Hh, Hj, length_app. simpl. lia. }
  rewrite Hredis, bind_run in E. unfold call in E.
  destruct (xadd w h1) as [[]|e]; injection E as <- <- <-; simpl;
    rewrite Hr, ?Hf, Hj, failed_adds_app, Hh, length_app; cbn; lia.
Qed.

(** ** Forced refreshes are spaced *)

Definition forced (url : string) (h : trace) : nat :=
  count_calls (λ c, bool_decide (c = Jwks "get_signing_key_from_jwt" url)) h.

Lemma forced_other url h c b :
  c ≠ Jwks "get_signing_key_from_jwt" url → forced url (h ++ [(c, b)]) = forced url h.
Proof.
  intros Hc. unfold forced. rewrite count_calls_app. unfold count_calls at 2. simpl.
  rewrite bool_decide_eq_false_2 by done. simpl. lia.
Qed.

Lemma forced_one url h b :
  forced url (h ++ [(Jwks "get_signing_key_from_jwt" url, b)]) = S (forced url h).
Proof.
  unfold forced. rewrite count_calls_app. unfold count_calls at 2. simpl.
  rewrite bool_decide_eq_true_2 by done. simpl. lia.
Qed.

(** [time.monotonic] never goes back. *)
Definition clock_monotone : Prop := ∀ h t, (monotonic w h <= monotonic w (h ++ t))%Q.

(** [n] refreshes up to [t] left the configured time between them. *)
Definition spaced (cfg : settings) (n : nat) (t : Q) : Prop :=
  ((inject_Z (Z.of_nat n) - 1) * inject_Z (oidc_jwks_min_refresh_seconds cfg) <=
   t - monotonic w [])%Q.

Definition resolver_ok (cfg : settings) (h : trace) (url : string) (o : option resolver) : Prop :=
  match o with
  | None => forced url h = 0%nat
  | Some r =>
      jwks_url r = url ∧ min_refresh_seconds r = oidc_jwks_min_refresh_seconds cfg ∧
      match last_forced_refresh r with
      | None => forced url h = 0%nat
      | Some t => (t <= monotonic w h)%Q ∧ spaced cfg (forced url h) t
      end
  end.

Definition throttled (cfg : settings) (s : gateway) (h : trace) : Prop :=
  ∀ url, resolver_ok cfg h url (dict_get url (resolvers s)).

Lemma resolver_ok_extend cfg h c b url o :
  clock_monotone → c ≠ Jwks "get_signing_key_from_jwt" url →
  resolver_ok cfg h url o → resolver_ok cfg (h ++ [(c, b)]) url o.
Proof.
  intros Hm Hc. unfold resolver_ok. rewrite forced_other by done.
  destruct o as [r|]; [|done]. destruct (last_forced_refresh r) as [t|]; [|done].
  intros (Hu & Hmin & Ht & Hs). repeat split; try done. pose proof (Hm h [(c, b)]). lra.
Qed.

Lemma spaced_succ cfg n t now :
  spaced cfg n t → (inject_Z (oidc_jwks_min_refresh_seconds cfg) <= now - t)%Q →
  spaced cfg (S n) now.
Proof.
  unfold spaced. intros Hs Hgap. rewrite Nat2Z.inj_succ, <- Z.add_1_r, inject_Z_plus.
  set (x := inject_Z (Z.of_nat n)) in *. set (m := inject_Z _) in *.
  change (inject_Z 1) with 1%Q. lra.
Qed.

Lemma spaced_first cfg h : clock_monotone → spaced cfg 1 (monotonic w h).
Proof.
  intros Hm. unfold spaced. pose proof (Hm [] h) as H. simpl in H.
  change (inject_Z (Z.of_nat 1)) with 1%Q. lra.
Qed.

(** The critical section keeps a resolver in order. *)
Lemma throttle_ok cfg h url r b :
  clock_monotone → min_refresh_seconds r = oidc_jwks_min_refresh_seconds cfg → jwks_url r = url →
  (forced url h = 0%nat ∨ resolver_ok cfg h url (Some r)) →
  (throttle (monotonic w h) r).1 = true →
  resolver_ok cfg (h ++ [(Jwks "get_signing_key_from_jwt" url, b)]) url
    (Some (throttle (monotonic w h) r).2).
Proof.
  intros Hm Hmin Hu Hold. unfold resolver_ok. rewrite forced_one. unfold throttle.
  pose proof (Hm h [(Jwks "get_signing_key_from_jwt" url, b)]) as Hclk.
  destruct (last_forced_refresh r) as [t|] eqn:El.
  - destruct (Qle_bool (inject_Z (min_refresh_seconds r)) (monotonic w h - t)) eqn:Eq; [|done].
    simpl. intros _. split; [done|]. split; [done|]. split; [done|].
    destruct Hold as [->|Hok]; [by apply spaced_first|]. simpl in Hok. rewrite El in Hok.
    apply Qle_bool_iff in Eq. rewrite Hmin in Eq. eapply spaced_succ; [apply Hok|done].
  - simpl. intros _. split; [done|]. split; [done|]. split; [done|].
    assert (forced url h = 0%nat) as ->.
    { destruct Hold as [?|Hok]; [done|]. simpl in Hok. rewrite El in Hok. apply Hok. }
    by apply spaced_first.
Qed.

Lemma throttled_webhook cfg p a s h :
  clock_monotone → throttled cfg s h →
  throttled cfg (end_state (webhook w cfg p a s h)) (end_trace (webhook w cfg p a s h)).
Proof.
  intros Hm. revert s h.
  apply (keeps_webhook (throttled cfg) (λ r, min_refresh_seconds r = oidc_jwks_min_refresh_seconds cfg)).
  - intros s h u b HJ url. by apply resolver_ok_extend.
  - intros s h HJ. unfold resolver_for. rewrite bind_get.
    destruct (dict_get (jwks_url_for cfg) (resolvers s)) eqn:E; [done|].
    intros url. simpl. rewrite dict_get_set. destruct (decide _) as [<-|]; [|apply HJ].
    simpl. rewrite int_or_0. repeat split. specialize (HJ (jwks_url_for cfg)). by rewrite E in HJ.
  - intros s h r st HJ. unfold resolver_for. rewrite bind_get.
    destruct (dict_get (jwks_url_for cfg) (resolvers s)) as [r0|] eqn:E.
    + intros [= <- _]. specialize (HJ (jwks_url_for cfg)). rewrite E in HJ. apply HJ.
    + rewrite bind_modify. intros [= <- _]. apply int_or_0.
  - intros r token kid Hr s h HJ. pose proof (forced_key_run r token kid s h) as H. simpl in H.
    pose proof (HJ (jwks_url r)) as Hold.
    assert (min_refresh_seconds (default r (dict_get (jwks_url r) (resolvers s))) =
              oidc_jwks_min_refresh_seconds cfg ∧
            jwks_url (default r (dict_get (jwks_url r) (resolvers s))) = jwks_url r ∧
            (forced (jwks_url r) h = 0%nat ∨
             resolver_ok cfg h (jwks_url r)
               (Some (default r (dict_get (jwks_url r) (resolvers s)))))) as (H1 & H2 & H3).
    { destruct (dict_get (jwks_url r) (resolvers s)) as [r0|]; simpl in *; [|auto].
      destruct Hold as (E1 & E2 & E3). split; [done|]. split; [done|]. by right. }
    pose proof (throttle_ok cfg h (jwks_url r) _
      (is_ok (get_signing_key_from_jwt w (jwks_url r) token h)) Hm H1 H2 H3) as Hok.
    set (old := default r _) in *. destruct (throttle _ old) as [[|] r']; simpl in H, Hok;
      [|by destruct H as [-> ->]].
    destruct H as [-> ->]. specialize (Hok eq_refl). intros url. simpl. rewrite dict_get_set.
    destruct (decide _) as [<-|Hne]; [done|]. apply resolver_ok_extend; [done|congruence|apply HJ].
  - intros s h rec fwd rej HJ. exact HJ.
  - intros s h st f n b HJ url. by apply resolver_ok_extend.
Qed.

Lemma throttled_serve cfg reqs :
  clock_monotone → throttled cfg (end_state (serve cfg reqs initial [])) (end_trace (serve cfg reqs initial [])).
Proof.
  intros Hm. apply (serve_stays (throttled cfg)); [|done].
  intros p a s h. by apply throttled_webhook.
Qed.

End auth.

(** ** A world to instantiate the theorems in

    One signing key named [k1]; a token is the text [<audience>.<project>], and
    verification checks the audience.  The clock ticks with every call. *)

Definition sample_decode (key : unit) (algs : list string) (aud iss : string) (leeway : Z)
    (required : list string) (token : string) (h : trace) : jwt_failure + list (string * pyval) :=
  let '(a, p) := str_partition "."%char token in
  if bool_decide (a = aud) then inr [("aud", PStr a); ("project_id", PStr p)]
  else inl (InvalidAudienceError (Exn "InvalidAudienceError" "Audience doesn't match")).

Definition sample_gateway_world : world :=
  mkWorld unit unit true (λ _ _, Ok tt) (λ _ kid, match kid with PStr _ => None | _ => Some tt end)
    (λ _ _ _, Ok tt) (λ _, Ok [("kid", PStr "k1")]) sample_decode
    (λ h, inject_Z (Z.of_nat (List.length h))) (λ _, Ok tt).

Definition sample_settings : settings :=
  mkSettings true "gateway:stream" 10000 " OIDC " "https://gitlab.com" "sdlcma" "" 300 60 30.

Definition sample_payload : list (string * pyval) :=
  [("object_kind", PStr "pipeline");
   ("object_attributes", PDict [("ref", PStr "main"); ("status", PStr "failed")]);
   ("project", PDict [("id", PInt 42); ("web_url", PStr "http://g/p")])].

#[local] Instance floats : FloatRepr := λ _, "0".

Example sample_accepted :
  webhook sample_gateway_world sample_settings sample_payload
    (Some "Bearer sdlcma.42") initial [] =
  (Ok tt,
   (mkGateway [("https://gitlab.com/oauth/discovery/keys",
                mkResolver "https://gitlab.com/oauth/discovery/keys" 300 60 (Some 1%Q))]
      [("pipeline", "bug_reported")] 1 [],
    [(Jwks "get_signing_keys" "https://gitlab.com/oauth/discovery/keys", true);
     (Jwks "get_signing_key_from_jwt" "https://gitlab.com/oauth/discovery/keys", true);
     (XAddTrim "gateway:stream"
        [("data", json_dumps default_opts (PDict sample_payload))] 10000, true)])).
Proof. vm_compute. reflexivity. Qed.

Example sample_refused :
  (webhook sample_gateway_world sample_settings sample_payload
    (Some "Bearer sdlcma.43") initial []).1 =
  Raise (Exn "HTTPException"
    "403: token is scoped to project 43 but the payload targets project 42").
Proof. vm_compute. reflexivity. Qed.

(** ** The properties *)

(** C23: with [webhook_auth_mode] set to [oidc], whatever requests came before, a
    request that appends anything anywhere appends exactly its own payload to the
    gateway's stream, and only after its bearer token was verified (RS256, the
    configured issuer and audience, the required claims, a key the issuer's key
    set vouches for) and its [project_id] claim was found equal to the payload's
    project id, neither being empty. *)
Theorem only_vouched_forwarded `{FloatRepr} (w : world) (cfg : settings)
    (earlier : list (list (string * pyval) * option string)) (h0 : trace)
    (payload : list (string * pyval)) (authorization : option string) :
  auth_mode cfg = "oidc" →
  let before := serve w cfg earlier initial h0 in
  let after := webhook w cfg payload authorization (end_state before) (end_trace before) in
  ∃ t, end_trace after = end_trace before ++ t ∧
  ∀ c b, (c, b) ∈ t → is_jwks c = false →
    c = XAddTrim (gateway_stream cfg) [("data", json_dumps default_opts (PDict payload))]
          (gateway_stream_maxlen cfg) ∧
    ∃ claims, verified w cfg authorization claims ∧
      as_id (dget "project_id" claims) = as_id (payload_project_id payload) ∧
      as_id (dget "project_id" claims) ≠ "".
Proof.
  intros Hm before after. destruct after as [r [s' h']] eqn:E.
  destruct (webhook_run w cfg payload authorization _ _ r s' h' Hm
              (filed_serve w cfg earlier h0) E) as (t & Ht & Hall).
  exists t. split; [done|]. intros c b Hin Hc.
  destruct (Hall c b Hin Hc) as (-> & claims & pid & Hv & Hp). split; [done|].
  apply authorize_project_spec in Hp as (-> & Hp & Hne). by exists claims.
Qed.

Lemma only_vouched_forwarded_witness :
  ∃ claims, verified sample_gateway_world sample_settings (Some "Bearer sdlcma.42") claims ∧
    as_id (dget "project_id" claims) = "42".
Proof.
  destruct (only_vouched_forwarded sample_gateway_world sample_settings [] []
              sample_payload (Some "Bearer sdlcma.42") eq_refl) as (t & Ht & Hall).
  vm_compute in Ht.
  assert ((XAddTrim "gateway:stream"
            [("data", json_dumps default_opts (PDict sample_payload))] 10000, true) ∈ t) as Hin.
  { rewrite <- Ht. apply (bool_decide_unpack _). by vm_compute. }
  destruct (Hall _ _ Hin eq_refl) as (_ & claims & Hv & Hp & _).
  exists claims. split; [done|]. rewrite Hp. reflexivity.
Defined.

(** The URL of the project, as the payload has it. *)
Definition payload_project_url (p : list (string * pyval)) : pyval :=
  match dget "project" p with PDict d => default (PStr "") (dict_get "web_url" d) | _ => PStr "" end.

(** What the parser reads as the project of a bug is the payload's project, its id
    and its URL. *)
Lemma bug_report_project `{FloatRepr} p pid url job branch raw :
  parse_message (Ok (PDict p)) = Ok (BugReportedEvent pid url job branch raw) →
  as_id pid = as_id (payload_project_id p) ∧ url = payload_project_url p ∧ raw = PDict p.
Proof.
  unfold parse_message. change (Ok ?x ≫= ?f) with (f x). cbv beta.
  intros (has & _ & E)%res_bind_ok. destruct (negb has); [done|].
  apply res_bind_ok in E as (attrs & _ & E). apply res_bind_ok in E as (ref & _ & E).
  apply res_bind_ok in E as (attrs' & _ & E). apply res_bind_ok in E as (status & _ & E).
  destruct ref as [| | | |b| |]; try done. unfold classify_ref in E.
  destruct (parse_branch b); [done|]. destruct (startswith "auto/" b); [done|].
  apply res_bind_ok in E as (kind & _ & E). destruct (pipeline_failed kind status); [|done].
  apply res_bind_ok in E as (project & Hp & E). apply res_bind_ok in E as (v & Hv & E).
  apply res_bind_ok in E as (project' & Hp' & E). apply res_bind_ok in E as (u & Hu & E).
  apply res_bind_ok in E as (? & _ & E). apply res_bind_ok in E as (? & _ & E).
  apply res_bind_ok in E as (? & _ & E). injection E as <- <- _ _ <-.
  rewrite Hp in Hp'. injection Hp' as <-. unfold payload_project_id, payload_project_url, dget. simpl in Hp. injection Hp as <-.
  destruct (dict_get "project" p) as [[]|]; simpl in *; try done; injection Hv as <-; injection Hu as <-; [|done].
  by destruct (dict_get "id" _).
Qed.

(** The consumer's reading of an entry of the gateway's stream. *)
Definition read_entry `{FloatParse} (data : string) : res pyval :=
  match json_loads data with
  | Some v => Ok v
  | None => Raise (Exn "JSONDecodeError" data)
  end.

(** C24: the gateway and the orchestrator composed: under [oidc], when the
    orchestrator reads an entry that a request appended and takes it for a bug report,
    the report is that request's payload, and its project id is the one the verified
    token of the request is scoped to, as text and not empty, whatever requests came
    before.  That holds of the id alone: the URL, which the worker clones, is the one
    the caller wrote into the payload and nothing vouches for it.  The payload is taken
    to be JSON the writer and the parser agree on. *)
Theorem run_has_the_vouched_project_id `{FloatRepr, FloatParse} (w : world) (cfg : settings)
    (earlier : list (list (string * pyval) * option string))
    (payload : list (string * pyval)) (authorization : option string)
    (stream data : string) (maxlen : Z) (ok : bool) (t : trace)
    (pid url job raw : pyval) (branch : string) :
  auth_mode cfg = "oidc" → json_ok (PDict payload) →
  let before := serve w cfg earlier initial [] in
  let after := webhook w cfg payload authorization (end_state before) (end_trace before) in
  end_trace after = end_trace before ++ t → (XAddTrim stream [("data", data)] maxlen, ok) ∈ t →
  parse_message (read_entry data) = Ok (BugReportedEvent pid url job branch raw) →
  ∃ claims, verified w cfg authorization claims ∧
    as_id pid = as_id (dget "project_id" claims) ∧ as_id pid ≠ "" ∧
    raw = PDict payload ∧ url = payload_project_url payload.
Proof.
  intros Hm Hok before after Ht Hin Hparse. destruct after as [r [s' h']] eqn:E.
  destruct (webhook_run w cfg payload authorization _ _ r s' h' Hm
              (filed_serve w cfg earlier []) E) as (t' & Ht' & Hall).
  unfold end_trace in Ht. simpl in Ht. rewrite Ht' in Ht. apply app_inv_head in Ht as ->.
  destruct (Hall _ _ Hin eq_refl) as (Heq & claims & p & Hv & Hp).
  assert (data = json_dumps default_opts (PDict payload)) as -> by congruence.
  exists claims. split; [done|]. unfold read_entry in Hparse.
  assert (plain_seps default_opts) as Hseps by (split; by right).
  rewrite (json_loads_dumps default_opts Hseps (PDict payload) Hok), canon_unsorted in Hparse by done.
  apply bug_report_project in Hparse as (-> & -> & ->). by apply authorize_project_spec in Hp as (-> & -> & ?).
Qed.

#[local] Instance no_floats : FloatParse := λ _, None.

Lemma run_has_the_vouched_project_id_witness :
  ∃ claims, verified sample_gateway_world sample_settings (Some "Bearer sdlcma.42") claims ∧
    as_id (PInt 42) = as_id (dget "project_id" claims) ∧ as_id (PInt 42) ≠ "" ∧
    PDict sample_payload = PDict sample_payload ∧ PStr "http://g/p" = payload_project_url sample_payload.
Proof.
  apply (run_has_the_vouched_project_id sample_gateway_world sample_settings [] sample_payload
           (Some "Bearer sdlcma.42") "gateway:stream" (json_dumps default_opts (PDict sample_payload))
           10000 true
           [(Jwks "get_signing_keys" "https://gitlab.com/oauth/discovery/keys", true);
            (Jwks "get_signing_key_from_jwt" "https://gitlab.com/oauth/discovery/keys", true);
            (XAddTrim "gateway:stream"
               [("data", json_dumps default_opts (PDict sample_payload))] 10000, true)]
           (PInt 42) (PStr "http://g/p") (PStr "") (PDict sample_payload) "main").
  - reflexivity.
  - apply json_ok_flat. reflexivity.
  - vm_compute. reflexivity.
  - apply (bool_decide_unpack _). by vm_compute.
  - vm_compute. reflexivity.
Defined.

(** A token of project 42 sends the worker to clone another project: the payload has
    the id of the first and the URL of the second. *)
Definition foreign_payload : list (string * pyval) :=
  dict_set "project" (PDict [("id", PInt 42); ("web_url", PStr "http://g/somebody/elses")]) sample_payload.

Example foreign_project_is_taken :
  (webhook sample_gateway_world sample_settings foreign_payload (Some "Bearer sdlcma.42") initial []).1 = Ok tt ∧
  parse_message (Ok (PDict foreign_payload)) =
    Ok (BugReportedEvent (PInt 42) (PStr "http://g/somebody/elses") (PStr "") "main" (PDict foreign_payload)).
Proof. split; vm_compute; reflexivity. Qed.

(** The identity the metrics are read by: with the stream on, over any
    sequence of requests, every request counted as received was forwarded, was
    refused (and counted under a reason), or was lost to a failed append. *)
Theorem requests_accounted `{FloatRepr} (w : world) (cfg : settings)
    (reqs : list (list (string * pyval) * option string)) :
  decode_declared w → use_redis cfg = true →
  let after := serve w cfg reqs initial [] in
  List.length (received (end_state after)) =
  (forwarded (end_state after) + List.length (rejected (end_state after)) +
   failed_adds (end_trace after))%nat.
Proof.
  intros Hd Hr. apply (serve_stays w (λ s h, balanced s h)); [|done].
  intros p a s h. by apply webhook_balanced.
Qed.

Definition sample_requests : list (list (string * pyval) * option string) :=
  [(sample_payload, Some "Bearer sdlcma.42"); (sample_payload, Some "Bearer other.42");
   (sample_payload, None); ([], None); (sample_payload, Some "bearer sdlcma.42")].

Lemma requests_accounted_witness :
  let after := serve sample_gateway_world sample_settings sample_requests initial [] in
  List.length (received (end_state after)) =
  (forwarded (end_state after) + List.length (rejected (end_state after)) +
   failed_adds (end_trace after))%nat.
Proof.
  apply (requests_accounted sample_gateway_world sample_settings sample_requests); [|reflexivity].
  intros k a i l al r t h e. simpl. unfold sample_decode.
  destruct (str_partition _ t) as [x y]. by destruct (bool_decide _).
Defined.

(** However many requests with unknown key ids come in, the forced refreshes
    of a key set are spaced: [n] of them take at least [n - 1] times the
    configured floor on the clock. *)
Theorem forced_refreshes_bounded `{FloatRepr} (w : world) (cfg : settings) (url : string)
    (reqs : list (list (string * pyval) * option string)) :
  clock_monotone w →
  let h := end_trace (serve w cfg reqs initial []) in
  (0 < forced url h)%nat →
  ((inject_Z (Z.of_nat (forced url h)) - 1) * inject_Z (oidc_jwks_min_refresh_seconds cfg) <=
   monotonic w h - monotonic w [])%Q.
Proof.
  intros Hm h Hpos. pose proof (throttled_serve w cfg reqs Hm url) as Hok. fold h in Hok.
  unfold resolver_ok in Hok. destruct (dict_get url _) as [r|]; [|lia].
  destruct Hok as (_ & _ & Hok). destruct (last_forced_refresh r) as [t|]; [|lia].
  destruct Hok as [Ht Hs]. unfold spaced in Hs. lra.
Qed.

Lemma forced_refreshes_bounded_witness :
  let h := end_trace (serve sample_gateway_world sample_settings sample_requests initial []) in
  ((inject_Z (Z.of_nat (forced "https://gitlab.com/oauth/discovery/keys" h)) - 1) * inject_Z 60 <=
   monotonic sample_gateway_world h - monotonic sample_gateway_world [])%Q.
Proof.
  apply (forced_refreshes_bounded sample_gateway_world sample_settings
           "https://gitlab.com/oauth/discovery/keys" sample_requests).
  - intros h t. simpl. rewrite length_app, Nat2Z.inj_add, inject_Z_plus.
    assert (0 <= inject_Z (Z.of_nat (List.length t)))%Q by (change 0%Q with (inject_Z 0); rewrite <- Zle_Qle; lia).
    lra.
  - vm_compute. lia.
Defined.

(** The pipeline of the payload ran on a ref below [auto/]. *)
Definition below_auto (p : list (string * pyval)) : bool :=
  match attributes p with
  | PDict d => match dget "ref" d with PStr b => startswith "auto/" b | _ => false end
  | _ => false
  end.

(** C38: how the label of a payload in the metrics relates to what the parser makes of
    it.  It is [invalid] exactly for a payload without attributes, which the parser
    refuses.  When the parser takes the payload, a bug report is labelled
    [bug_reported], a verdict on a fix branch [validation], and any other event
    [other], except on a ref below [auto/] that is no fix branch: the parser ignores
    it, and the label is [validation] all the same. *)
Theorem classification_follows_the_parser (p : list (string * pyval)) :
  (classify_webhook p = Ok "invalid" ↔ dict_has "object_attributes" p = false) ∧
  (dict_has "object_attributes" p = false →
   parse_message (Ok (PDict p)) = Raise (ParseError "payload does not have key object_attributes.")) ∧
  ∀ event, parse_message (Ok (PDict p)) = Ok event →
    classify_webhook p = Ok match event with
                            | BugReportedEvent _ _ _ _ _ => "bug_reported"
                            | ValidationStatusEvent _ _ _ => "validation"
                            | OtherEvent _ => if below_auto p then "validation" else "other"
                            end.
Proof.
  split; [|split].
  { unfold classify_webhook. destruct (dict_has "object_attributes" p); simpl; [|done]. split; [|done].
    destruct (py_get (attributes p) "ref" (PStr "")) as [ref|]; simpl; [|done].
    destruct (py_get (attributes p) "status" (PStr "")) as [status|]; simpl; [|done].
    by repeat case_match. }
  { intros Hno. unfold parse_message. simpl. by rewrite Hno. }
  intros event. unfold parse_message. change (Ok ?x ≫= ?f) with (f x). cbv beta.
  intros (has & Hh & E)%res_bind_ok. simpl in Hh. injection Hh as <-.
  unfold classify_webhook, below_auto. destruct (dict_has "object_attributes" p) eqn:Hhas; [|done]. simpl in E.
  apply res_bind_ok in E as (attrs & Ha & E). apply res_bind_ok in E as (ref & Hr & E).
  apply res_bind_ok in E as (attrs' & Ha' & E). rewrite Ha in Ha'. injection Ha' as <-.
  apply res_bind_ok in E as (status & Hs & E).
  assert (attributes p = attrs) as ->.
  { unfold attributes, dget. simpl in Ha. destruct (dict_get _ p); [|done]. injection Ha as ->.
    destruct attrs as [| | | | | |[|]]; try done. }
  destruct attrs as [| | | | | |d]; try done. simpl in Hr, Hs. cbn [negb py_get].
  destruct (dict_get "ref" d) as [v|] eqn:Er; [|done]. injection Hr as ->.
  destruct (dict_get "status" d) as [v|] eqn:Es; [|done]. injection Hs as ->.
  cbn -[startswith].
  destruct ref as [| | | |b| |]; try done. unfold classify_ref in E.
  assert (dget "ref" d = PStr b) as -> by (unfold dget; by rewrite Er).
  destruct (parse_branch b) as [c|] eqn:Hb.
  { injection E as <-. by rewrite (parse_branch_auto b c Hb). }
  destruct (startswith "auto/" b); [by injection E as <-|].
  apply res_bind_ok in E as (kind & Hk & E). simpl in Hk.
  unfold dget. destruct (dict_get "object_kind" p) as [k|]; [|done]. injection Hk as ->. simpl.
  assert (pipeline_failed kind status = str_eqb kind "pipeline" && str_eqb status "failed") as Hpf.
  { destruct kind, status; simpl; rewrite ?andb_false_r; done. }
  rewrite <- Hpf. destruct (pipeline_failed kind status).
  - repeat (apply res_bind_ok in E as (? & _ & E)). by injection E as <-.
  - by injection E as <-.
Qed.

(** A label that is not the verdict of the parser. *)
Definition unknown_auto_ref : list (string * pyval) :=
  dict_set "object_attributes" (PDict [("ref", PStr "auto/cleanup"); ("status", PStr "failed")]) sample_payload.

Example ignored_but_validation :
  parse_message (Ok (PDict unknown_auto_ref)) = Ok (OtherEvent (PDict unknown_auto_ref)) ∧
  classify_webhook unknown_auto_ref = Ok "validation".
Proof. split; vm_compute; reflexivity. Qed.

Lemma classification_follows_the_parser_witness : classify_webhook sample_payload = Ok "bug_reported".
Proof.
  by apply (proj2 (proj2 (classification_follows_the_parser sample_payload))
    (BugReportedEvent (PInt 42) (PStr "http://g/p") (PStr "") "main" (PDict sample_payload))).
Defined.

End WebhookSpec.
