(* ===== verification/Orchestrator.v ===== *)
(** * The orchestrator

    Models of [orchestrator/registry.py], the local spawner of
    [orchestrator/spawner.py], [orchestrator/monitor.py], [router.py],
    [consumer.py] and the message handler of [orchestrator/orchestrator.py].
    The registry is the state; Redis, processes and the clock are oracles.  A
    tick of the monitor and the handling of one message are each atomic: the
    event loop's interleaving inside them is not modelled. *)

From S2P Require Import Prelude PyStr PyJson Regex Effects BugIds.
Local Open Scope string_scope.
Local Open Scope list_scope.

Module Orchestrator.
Import BugIds.

Definition WARMUP_GRACE : Q := 120.
Definition MAX_WORKER_RESTARTS : nat := 3.

Inductive WorkerStatus := warmup | running | failed | finished.
#[export] Instance WorkerStatus_eq_dec : EqDecision WorkerStatus.
Proof. solve_decision. Defined.

(** [process] names the process; [finished] is the source's ["done"]. *)
Record WorkerEntry := mkEntry {
  bug_id : string;
  process : string;
  project_id : string;
  project_web_url : string;
  job_id : string;
  source_branch : string;
  started_at : Q;
  warmup_deadline : Q;
  restart_count : nat;
  status : WorkerStatus;
  done_at : option Q
}.

Definition terminal (s : WorkerStatus) : bool :=
  match s with finished | failed => true | _ => false end.
Definition active (e : WorkerEntry) : bool := negb (terminal (status e)).

(** ** The registry *)

Definition registry := list (string * WorkerEntry).

Definition register (entry : WorkerEntry) (r : registry) : registry :=
  dict_set (bug_id entry) entry r.

Definition set_status (s : WorkerStatus) (now : Q) (e : WorkerEntry) : WorkerEntry :=
  mkEntry (bug_id e) (process e) (project_id e) (project_web_url e) (job_id e) (source_branch e)
    (started_at e) (warmup_deadline e) (restart_count e) s
    (match done_at e with
     | Some t => Some t
     | None => if terminal s then Some now else None
     end).

Definition update_status (b : string) (s : WorkerStatus) (now : Q) (r : registry) : registry :=
  match dict_get b r with
  | Some e => dict_set b (set_status s now e) r
  | None => r
  end.

Definition remove (b : string) (r : registry) : registry := dict_pop b r.

Definition all_active (r : registry) : registry := List.filter (λ '(_, e), active e) r.

Definition exists_ (b : string) (r : registry) : bool :=
  match dict_get b r with Some e => active e | None => false end.

(** A terminal entry older than the grace period. *)
Definition stale (now grace_seconds : Q) (e : WorkerEntry) : bool :=
  terminal (status e) &&
  match done_at e with
  | Some t => negb (Qle_bool (now - t) grace_seconds)
  | None => false
  end.

Definition sweep_stale (now grace_seconds : Q) (r : registry) : registry * nat :=
  fold_left (λ '(r', removed) b,
    match dict_get b r' with
    | Some e => if stale now grace_seconds e then (dict_pop b r', S removed) else (r', removed)
    | None => (r', removed)
    end) (map fst r) (r, 0%nat).

(** ** The outside world *)

Record world := mkWorld {
  w_clock : trace → Q;
  w_now : trace → datetime;
  w_token : trace → N * N;
  w_start : trace → res string;
  w_stop : trace → res unit;
  w_kill : trace → res unit;
  w_returncode : trace → string → option Z;
  w_ttl : trace → res Z;
  w_exists : trace → res bool;
  w_get : trace → res (option string);
  w_xadd : trace → res unit;
  w_xack : trace → res unit
}.

(** The state of the service: the registry, and whatever its spawner keeps. *)
Definition svc (D : Type) : Type := registry * D.
Definition get_reg {D} : M (svc D) registry := s ← get; mret s.1.
Definition mod_reg {D} (f : registry → registry) : M (svc D) unit :=
  modify (λ s, (f s.1, s.2)).

(** What the monitor and the message handler ask of a spawner.  [poll] refreshes
    what is known of a worker's process, where it has a [reload_status], and gives
    its [returncode]. *)
Class Spawner (D : Type) := {
  spawn : string → string → string → string → string → M (svc D) unit;
  restart : string → string → string → string → string → M (svc D) unit;
  poll : string → string → M (svc D) (option Z)
}.

Section service.
Context {Hrepr : FloatRepr} (w : world).

(** ** Local processes *)

(** The environment of the worker, over the orchestrator's own. *)
Definition worker_env (environ : fields) (redis_url b pid url job branch : string) : fields :=
  let env := dict_set "REDIS_URL" redis_url environ in
  let env := dict_set "BUG_ID" b env in
  let env := dict_set "project_id" pid env in
  let env := dict_set "project_web_url" url env in
  let env := dict_set "job_id" job env in
  let env := dict_set "BUG_SOURCE_BRANCH" branch env in
  match dict_get "BF_AGENT_CONFIG" environ with
  | Some v => if str_nonempty v then dict_set "BF_AGENT_CONFIG" v env else env
  | None => env
  end.

Section local_spawner.
Context {D : Type} (environ : fields) (redis_url : string).

Definition start_process (b pid url job branch : string) (rc : nat) : M (svc D) WorkerEntry :=
  proc ← call (StartProcess b (worker_env environ redis_url b pid url job branch)) (w_start w);
  now ← observe (w_clock w);
  mret (mkEntry b proc pid url job branch now (now + WARMUP_GRACE) rc warmup None).

Definition local_spawn (b pid url job branch : string) : M (svc D) unit :=
  r ← get_reg;
  if exists_ b r then mret tt
  else entry ← start_process b pid url job branch 0;
       mod_reg (register entry).

Definition local_restart (b pid url job branch : string) : M (svc D) unit :=
  r ← get_reg;
  let old := dict_get b r in
  let rc := match old with Some e => S (restart_count e) | None => 1%nat end in
  _ ← match old with
      | Some _ => try_ (call (StopProcess b) (w_stop w))
                       (λ _, ignore (call (StopProcess b) (w_kill w)))
      | None => mret tt
      end;
  entry ← start_process b pid url job branch rc;
  mod_reg (register entry).

#[export] Instance WorkerSpawner : Spawner D := {
  spawn := local_spawn;
  restart := local_restart;
  poll := λ _ proc, observe (λ h, w_returncode w h proc)
}.
End local_spawner.

(** ** The health monitor *)

Section monitor.
Context {D : Type} `{Spawner D}.
Context (heartbeat_key completed_key : string → string) (done_grace_seconds : Q).

Definition clock : M (svc D) Q := observe (w_clock w).
Definition mark (b : string) (s : WorkerStatus) : M (svc D) unit :=
  now ← clock; mod_reg (update_status b s now).

(** [_restart]: the cap, then the spawner; a failing spawner fails the entry. *)
Definition monitor_restart (b : string) : M (svc D) unit :=
  r ← get_reg;
  match dict_get b r with
  | None => throw (attribute_error "'NoneType' object has no attribute 'restart_count'")
  | Some e =>
      if (MAX_WORKER_RESTARTS <=? restart_count e)%nat then mark b failed
      else try_ (restart b (project_id e) (project_web_url e) (job_id e) (source_branch e))
                (λ _, mark b failed)
  end.

(** The body of the loop of [_check_all]. *)
Definition check_one (now : Q) (b : string) (entry : WorkerEntry) : M (svc D) unit :=
  ttl ← call (Ttl (heartbeat_key b)) (w_ttl w);
  rc ← poll b (process entry);
  match rc with
  | Some rc =>
      completed ← (if (rc =? 0)%Z then mret true
                   else call (Exists (completed_key b)) (w_exists w));
      if (completed : bool) then mark b finished else monitor_restart b
  | None =>
      if (0 <? ttl)%Z then
        match status entry with warmup => mark b running | _ => mret tt end
      else match status entry with
      | warmup =>
          if negb (Qle_bool (warmup_deadline entry) now) then mret tt else mark b failed
      | _ =>
          completed ← call (Exists (completed_key b)) (w_exists w);
          if (completed : bool) then mark b finished else monitor_restart b
      end
  end.

Definition check_all : M (svc D) unit :=
  now ← clock;
  now' ← clock;
  _ ← mod_reg (λ r, (sweep_stale now' done_grace_seconds r).1);
  r ← get_reg;
  for_ (all_active r) (λ '(b, e), check_one now b e).

(** ** Routing and handling messages *)

Context (inbox_stream : string → string).

Definition route (b : string) (raw : pyval) : M (svc D) bool :=
  r ← get_reg;
  let deliver := _ ← call (XAdd (inbox_stream b) [("data", json_dumps default_opts raw)]) (w_xadd w);
                 mret true in
  if exists_ b r then deliver
  else
    owner ← call (Get ("task:owner:" +:+ b)) (w_get w);
    match owner with
    | Some o => if str_nonempty o then deliver else mret false
    | None => mret false
    end.

(** A project URL that is not a text is refused by every spawner. *)
Definition handle_message (loaded : res pyval) : M (svc D) unit :=
  event ← lift (parse_message loaded);
  match event with
  | BugReportedEvent pid url job branch _ =>
      b ← observe (λ h, mint_bug_id (w_now w h) (w_token w h).1 (w_token w h).2);
      match url with
      | PStr url => spawn b (py_str pid) url (py_str job) branch
      | v => throw (type_error ("expected str, bytes or os.PathLike object, not " +:+ type_name v))
      end
  | ValidationStatusEvent b st raw => _ ← route b raw; mret tt
  | OtherEvent _ => mret tt
  end.

End monitor.
End service.

(** ** The stream consumer *)

Section consumer.
Context {S : Type} (w : world) (handler : string → M S unit).
Context (stream_key group dead_letter_stream : string).

(** [fields.get(b"data") or fields.get("data", b"")] *)
Definition body (f : fields) : string := default EmptyString (dict_get "data" f).

Definition ack (id : string) : M S unit := call (XAck stream_key group id) (w_xack w).

Definition process_entry (id : string) (f : fields) : M S unit :=
  let raw := body f in
  try_ (_ ← handler raw; ack id)
       (λ e, ignore (
          _ ← call (XAdd dead_letter_stream
                      [("data", raw); ("error", exn_msg e); ("origin_stream", stream_key);
                       ("origin_id", id)]) (w_xadd w);
          ack id)).

Context (xreadgroup : trace → res (list (string * fields))) (consumer_name : string).

(** [_drain_pending]: at most [passes] reads of the pending list. *)
Fixpoint drain_pending (passes : nat) : M S unit :=
  match passes with
  | O => mret tt
  | Datatypes.S passes' =>
      r ← try_ (l ← call (XReadGroup group consumer_name stream_key "0") xreadgroup; mret (Some l))
               (λ _, mret None);
      match r with
      | None | Some [] => mret tt
      | Some entries => _ ← for_ entries (λ '(id, f), process_entry id f);
                        drain_pending passes'
      end
  end.

Definition MAX_DRAIN_PASSES : nat := 100.

(** One turn of [_consume_loop]; its [except] swallows everything. *)
Definition consume_once : M S unit :=
  ignore (entries ← call (XReadGroup group consumer_name stream_key ">") xreadgroup;
          for_ entries (λ '(id, f), process_entry id f)).

End consumer.

(** ** Sweeping *)

Lemma sweep_fold now grace l r n b :
  dict_get b (fold_left (λ '(r', removed) b,
    match dict_get b r' with
    | Some e => if stale now grace e then (dict_pop b r', Datatypes.S removed) else (r', removed)
    | None => (r', removed)
    end) l (r, n)).1 =
  match dict_get b r with
  | Some e => if mem b l && stale now grace e then None else Some e
  | None => None
  end.
Proof.
  revert r n. induction l as [|x l IH]; intros r n; simpl.
  - by destruct (dict_get b r).
  - assert (∀ r', dict_get b r' = dict_get b r → x ≠ b →
      match dict_get b r' with
      | Some e => if mem b l && stale now grace e then None else Some e
      | None => None end =
      match dict_get b r with
      | Some e => if mem b (x :: l) && stale now grace e then None else Some e
      | None => None end) as Hother.
    { intros r' -> Hne. assert (mem b (x :: l) = mem b l) as ->; [|done].
      apply bool_decide_ext. rewrite elem_of_cons. naive_solver. }
    destruct (dict_get x r) as [e|] eqn:Ex; [destruct (stale now grace e) eqn:Es|]; rewrite IH.
    + destruct (decide (x = b)) as [->|Hne]; [|apply Hother; [by apply dict_get_pop_ne|done]].
      rewrite dict_get_pop_eq, Ex, Es. unfold mem.
      rewrite bool_decide_eq_true_2 by left. done.
    + destruct (decide (x = b)) as [->|Hne]; [|by apply Hother].
      rewrite Ex, Es. by rewrite !andb_false_r.
    + destruct (decide (x = b)) as [->|Hne]; [|by apply Hother]. by rewrite Ex.
Qed.

(** The sweep drops exactly the entries that reached a terminal status more
    than the grace period ago; an active entry, or one that was never stamped,
    stays as it is. *)
Theorem sweep_stale_spec (now grace : Q) (r : registry) (b : string) :
  dict_get b (sweep_stale now grace r).1 =
  match dict_get b r with
  | Some e => if stale now grace e then None else Some e
  | None => None
  end.
Proof.
  unfold sweep_stale. rewrite sweep_fold. destruct (dict_get b r) as [e|] eqn:E; [|done].
  unfold mem. rewrite bool_decide_eq_true_2; [done|]. apply dict_get_key. by rewrite E.
Qed.

Lemma bind_get_reg {D A} (f : registry → M (svc D) A) (s : svc D) h :
  (get_reg ≫= f) s h = f s.1 s h.
Proof. done. Qed.

(** ** Restarts are bounded *)

Definition is_start (b : string) (c : cmd) : bool :=
  match c with
  | StartProcess b' _ | CreateWorker _ b' _ => bool_decide (b = b')
  | _ => false
  end.

(** Processes started for a bug. *)
Definition starts (b : string) (h : trace) : nat :=
  List.length (List.filter (is_start b) (done_calls h)).

Lemma starts_app b h c ok :
  starts b (h ++ [(c, ok)]) = (starts b h + if ok && is_start b c then 1 else 0)%nat.
Proof.
  unfold starts. rewrite done_calls_app, List.filter_app, length_app. f_equal.
  unfold done_calls. destruct ok; simpl; [|done]. by destruct (is_start b c).
Qed.

(** Restarts an entry has left. *)
Definition credit (b : string) (r : registry) : nat :=
  match dict_get b r with Some e => MAX_WORKER_RESTARTS - restart_count e | None => 0 end.

Definition capped (r : registry) : Prop :=
  ∀ b e, dict_get b r = Some e → (restart_count e ≤ MAX_WORKER_RESTARTS)%nat.

(** The monitor only spends credit: starts and credit together never grow. *)
Definition spends {D} (s : svc D) (h : trace) (s' : svc D) (h' : trace) : Prop :=
  (∀ b, starts b h' + credit b s'.1 ≤ starts b h + credit b s.1)%nat ∧
  (capped s.1 → capped s'.1).

(** ** What a spawner promises

    A request buys one start and the restarts that go with it; a restart spends
    one of them, and starts nothing for another bug; polling starts nothing and
    leaves the registry alone. *)

Definition requested {D} (b : string) (s : svc D) (h : trace) (s' : svc D) (h' : trace) : Prop :=
  (∀ b', starts b' h' + credit b' s'.1 ≤
         starts b' h + credit b' s.1 + if decide (b = b') then 1 + MAX_WORKER_RESTARTS else 0)%nat ∧
  (capped s.1 → capped s'.1).

Definition idle {D} (s : svc D) (h : trace) (s' : svc D) (h' : trace) : Prop :=
  s'.1 = s.1 ∧ ∀ b, starts b h' = starts b h.

Class LawfulSpawner (D : Type) `{!Spawner D} : Prop := {
  spawn_requested : ∀ b pid url job branch, preserves (requested b) (spawn b pid url job branch);
  restart_spends : ∀ b pid url job branch (s : svc D) h e,
    dict_get b s.1 = Some e → (restart_count e < MAX_WORKER_RESTARTS)%nat →
    let r := restart b pid url job branch s h in spends s h (end_state r) (end_trace r);
  restart_own : ∀ b pid url job branch b', b' ≠ b →
    preserves (λ _ h _ h', starts b' h' = starts b' h) (restart b pid url job branch);
  poll_idle : ∀ b proc, preserves idle (poll b proc)
}.

(** What every spawner that registers the process it starts shares. *)
Section starting.
Context {D : Type}.

Lemma idle_refl (s : svc D) h : idle s h s h.
Proof. done. Qed.

Lemma idle_trans (s : svc D) h s1 h1 s2 h2 : idle s h s1 h1 → idle s1 h1 s2 h2 → idle s h s2 h2.
Proof. intros [E1 H1] [E2 H2]. split; [congruence|]. intros b. by rewrite H2. Qed.

Lemma idle_call {A} c (f : trace → res A) :
  (∀ b, is_start b c = false) → preserves (idle (D := D)) (call c f).
Proof.
  intros Hc s h. split; [done|]. intros b. unfold call, end_trace. simpl.
  rewrite starts_app, Hc, andb_false_r. lia.
Qed.

(** A start that failed, or was not needed, followed by the new entry. *)
Lemma register_spends b e e' (s s' : svc D) h h' :
  dict_get b s.1 = Some e → (restart_count e < MAX_WORKER_RESTARTS)%nat →
  bug_id e' = b → restart_count e' = Datatypes.S (restart_count e) → s'.1 = register e' s.1 →
  (∀ b', starts b' h' ≤ starts b' h + if decide (b = b') then 1 else 0)%nat → spends s h s' h'.
Proof.
  intros He Hlt Hb Hrc Hs Hh. split.
  - intros b'. specialize (Hh b'). unfold credit. rewrite Hs. unfold register. rewrite Hb, dict_get_set.
    destruct (decide (b = b')) as [<-|Hne]; [|lia]. rewrite He, Hrc. unfold MAX_WORKER_RESTARTS in *. lia.
  - intros Hcap b' e0. rewrite Hs. unfold register. rewrite Hb, dict_get_set.
    destruct (decide (b = b')) as [<-|Hne]; [|apply Hcap]. intros [= <-]. lia.
Qed.

Lemma register_requested b e' (s s' : svc D) h h' :
  bug_id e' = b → restart_count e' = 0%nat → s'.1 = register e' s.1 →
  (∀ b', starts b' h' ≤ starts b' h + if decide (b = b') then 1 else 0)%nat → requested b s h s' h'.
Proof.
  intros Hb Hrc Hs Hh. split.
  - intros b'. specialize (Hh b'). unfold credit. rewrite Hs. unfold register. rewrite Hb, dict_get_set.
    destruct (decide (b = b')) as [<-|Hne]; [|lia]. rewrite Hrc. lia.
  - intros Hcap b' e0. rewrite Hs. unfold register. rewrite Hb, dict_get_set.
    destruct (decide (b = b')) as [<-|Hne]; [|apply Hcap]. intros [= <-]. lia.
Qed.

Lemma idle_spends (s s' : svc D) h h' : idle s h s' h' → spends s h s' h'.
Proof. intros [E Hh]. split; [|by rewrite E]. intros b. rewrite E, Hh. lia. Qed.

Lemma idle_requested b (s s' : svc D) h h' : idle s h s' h' → requested b s h s' h'.
Proof. intros [E Hh]. split; [|by rewrite E]. intros b'. rewrite E, Hh. lia. Qed.

Lemma spends_after_idle (s s1 s2 : svc D) h h1 h2 :
  idle s h s1 h1 → spends s1 h1 s2 h2 → spends s h s2 h2.
Proof. intros [E Hh] [H C]. split; [|by rewrite <- E]. intros b. rewrite <- Hh, <- E. apply H. Qed.
End starting.

(** *** The local spawner *)

Section local_laws.
Context (w : world) {D : Type} (environ : fields) (redis_url : string).

Lemma start_process_run b pid url job branch rc (s : svc D) h :
  let r := start_process w environ redis_url b pid url job branch rc s h in
  end_state r = s ∧
  (∀ b', starts b' (end_trace r) = starts b' h + if is_ok r.1 then if decide (b = b') then 1 else 0 else 0)%nat ∧
  ∀ e, r.1 = Ok e → bug_id e = b ∧ restart_count e = rc.
Proof.
  unfold start_process, call, observe, mret, M_ret, mbind, M_bind, end_state, end_trace.
  destruct (w_start w h) as [proc|ex]; simpl; (split; [done|]); (split; [|by intros e [= <-]]); intros b';
    rewrite starts_app; simpl; [|done]. case_bool_decide; destruct (decide (b = b')); congruence.
Qed.

Lemma stop_idle b :
  preserves (idle (D := D)) (try_ (call (StopProcess b) (w_stop w)) (λ _, ignore (call (StopProcess b) (w_kill w)))).
Proof.
  apply preserves_try; [exact idle_trans|by apply idle_call|]. intros e.
  apply preserves_ignore; [exact idle_refl|exact idle_trans|]. by apply idle_call.
Qed.

#[export] Instance local_lawful : LawfulSpawner D (Spawner0 := WorkerSpawner w environ redis_url).
Proof.
  split.
  - intros b pid url job branch s h. cbn [spawn WorkerSpawner]. unfold local_spawn. rewrite bind_get_reg.
    destruct (exists_ b s.1); [by apply idle_requested|]. rewrite bind_run.
    destruct (start_process_run b pid url job branch 0 s h) as (Hs & Hh & He).
    unfold end_state, end_trace in Hs, Hh.
    destruct (start_process _ _ _ _ _ _ _ _ _ s h) as [[e|ex] [s1 h1]]; simpl in Hs, Hh; subst s1.
    + destruct (He e eq_refl) as [Hb Hrc]. eapply (register_requested b e); [done..|]. intros b'. simpl. rewrite Hh. lia.
    + apply idle_requested. split; [done|]. intros b'. simpl. rewrite Hh. lia.
  - intros b pid url job branch s h e He Hlt. cbv zeta. cbn [restart WorkerSpawner]. unfold local_restart.
    rewrite bind_get_reg. cbv beta zeta. rewrite He, bind_run. destruct (stop_idle b s h) as [Es Eh].
    unfold end_state, end_trace in Es, Eh.
    destruct (try_ _ _ s h) as [[[]|ex] [s1 h1]]; simpl in Es, Eh; [|by apply idle_spends].
    eapply spends_after_idle; [by split|]. rewrite bind_run.
    destruct (start_process_run b pid url job branch (Datatypes.S (restart_count e)) s1 h1) as (Hs & Hh & Hent).
    unfold end_state, end_trace in Hs, Hh.
    destruct (start_process _ _ _ _ _ _ _ _ _ s1 h1) as [[e'|ex] [s2 h2]]; simpl in Hs, Hh; subst s2.
    + destruct (Hent e' eq_refl) as [Hb Hrc]. eapply (register_spends b e e'); [by rewrite Es|done..|].
      intros b'. simpl. rewrite Hh. lia.
    + apply idle_spends. split; [done|]. intros b'. simpl. rewrite Hh. lia.
  - intros b pid url job branch b' Hne. cbn [restart WorkerSpawner]. unfold local_restart.
    intros s h. rewrite bind_get_reg. cbv beta zeta. rewrite bind_run.
    set (stop := match dict_get b s.1 with Some _ => _ | None => _ end).
    assert (preserves (idle (D := D)) stop) as Hstop.
    { unfold stop. destruct (dict_get b s.1); [apply stop_idle|apply preserves_ret, idle_refl]. }
    destruct (Hstop s h) as [_ Eh]. unfold end_trace in Eh.
    destruct (stop s h) as [[[]|ex] [s1 h1]]; simpl in Eh; [|apply Eh].
    rewrite bind_run, <- (Eh b').
    destruct (start_process_run b pid url job branch (match dict_get b s.1 with Some e => Datatypes.S (restart_count e) | None => 1%nat end) s1 h1) as (Hs & Hh & _).
    specialize (Hh b'). rewrite decide_False in Hh by done. unfold end_trace in Hh.
    destruct (start_process _ _ _ _ _ _ _ _ _ s1 h1) as [[e'|ex] [s2 h2]]; simpl in *; unfold end_trace; simpl; lia.
  - done.
Qed.
End local_laws.

Section bounded.
Context (w : world) {D : Type} `{Hlaw : LawfulSpawner D}.
Context (heartbeat_key completed_key : string → string) (grace : Q).

Notation spends := (@spends D).

Lemma spends_refl s h : spends s h s h.
Proof. split; [lia|done]. Qed.

Lemma spends_trans s h s1 h1 s2 h2 : spends s h s1 h1 → spends s1 h1 s2 h2 → spends s h s2 h2.
Proof. intros [H1 C1] [H2 C2]. split; [|tauto]. intros b. specialize (H1 b). specialize (H2 b). lia. Qed.

Lemma spends_call {A} c (f : trace → res A) :
  (∀ b, is_start b c = false) → preserves spends (call c f).
Proof.
  intros Hc. apply preserves_call. intros s h ok. split; [|done]. intros b.
  rewrite starts_app, Hc, andb_false_r. lia.
Qed.

Lemma update_status_get b b' st now r :
  dict_get b' (update_status b st now r) =
  if decide (b = b') then set_status st now <$> dict_get b r else dict_get b' r.
Proof.
  unfold update_status. destruct (dict_get b r) as [e|] eqn:E.
  - rewrite dict_get_set. by destruct (decide (b = b')).
  - destruct (decide (b = b')) as [->|]; [by rewrite E|done].
Qed.

Lemma spends_registry (f : registry → registry) :
  (∀ r b, dict_get b (f r) = None ∨
     ∃ e e', dict_get b r = Some e ∧ dict_get b (f r) = Some e' ∧ restart_count e' = restart_count e) →
  preserves spends (mod_reg f).
Proof.
  intros Hf. apply preserves_modify. intros [r d] h. split; simpl.
  - intros b. unfold credit.
    destruct (Hf r b) as [->|(e & e' & -> & -> & ->)]; [destruct (dict_get b r)|]; lia.
  - intros Hcap b e' He'. destruct (Hf r b) as [Hn|(e & e1 & He & He1 & Hrc)]; [congruence|].
    rewrite He' in He1. injection He1 as <-. rewrite Hrc. by apply (Hcap b).
Qed.

Lemma spends_mark b st : preserves spends (mark w b st).
Proof.
  apply preserves_bind; [exact spends_trans|apply preserves_observe, spends_refl|].
  intros now. apply spends_registry. intros r b'. rewrite update_status_get.
  destruct (decide (b = b')) as [<-|].
  - destruct (dict_get b r) as [e|]; [|by left]. right. by exists e, (set_status st now e).
  - destruct (dict_get b' r) as [e|]; [|by left]. right. by exists e, e.
Qed.

Lemma spends_sweep now : preserves spends (mod_reg (λ r, (sweep_stale now grace r).1)).
Proof.
  apply spends_registry. intros r b. rewrite sweep_stale_spec.
  destruct (dict_get b r) as [e|]; [|by left]. destruct (stale now grace e); [by left|].
  right. by exists e, e.
Qed.

Lemma spends_monitor_restart b :
  preserves spends (monitor_restart w b).
Proof.
  intros s h. unfold monitor_restart. rewrite bind_get_reg.
  destruct (dict_get b s.1) as [e|] eqn:He; [|apply spends_refl].
  destruct (Nat.leb_spec MAX_WORKER_RESTARTS (restart_count e)) as [|Hlt]; [apply spends_mark|].
  unfold try_.
  pose proof (restart_spends b (project_id e) (project_web_url e) (job_id e)
                (source_branch e) s h e He Hlt) as Hr.
  cbv zeta in Hr. destruct (restart _ _ _ _ _ s h) as [[[]|ex] [s1 h1]]; [done|].
  eapply spends_trans; [exact Hr|]. apply spends_mark.
Qed.

Lemma spends_check_one now b entry :
  preserves spends (check_one w heartbeat_key completed_key now b entry).
Proof.
  assert (∀ b, preserves spends (@mark w D b finished)) by (intros; apply spends_mark).
  unfold check_one.
  apply preserves_bind; [exact spends_trans|by apply spends_call|]. intros ttl.
  apply preserves_bind; [exact spends_trans|intros s h; apply idle_spends, poll_idle|].
  intros [rc|].
  - apply preserves_bind; [exact spends_trans| |].
    + destruct (rc =? 0)%Z; [apply preserves_ret, spends_refl|by apply spends_call].
    + intros []; [done|]. apply spends_monitor_restart.
  - destruct (0 <? ttl)%Z.
    { destruct (status entry); try apply spends_mark; apply preserves_ret, spends_refl. }
    assert (preserves spends (completed ← call (Exists (completed_key b)) (w_exists w);
      if (completed : bool) then mark w b finished
      else monitor_restart w b)) as Hother.
    { apply preserves_bind; [exact spends_trans|by apply spends_call|].
      intros []; [done|]. apply spends_monitor_restart. }
    destruct (status entry); try exact Hother.
    destruct (negb _); [apply preserves_ret, spends_refl|apply spends_mark].
Qed.

Lemma spends_check_all : preserves spends (check_all w heartbeat_key completed_key grace).
Proof.
  unfold check_all, clock.
  apply preserves_bind; [exact spends_trans|apply preserves_observe, spends_refl|]. intros now.
  apply preserves_bind; [exact spends_trans|apply preserves_observe, spends_refl|]. intros now'.
  apply preserves_bind; [exact spends_trans|apply spends_sweep|]. intros _.
  apply preserves_bind; [exact spends_trans| |].
  { apply preserves_bind; [exact spends_trans|apply preserves_get, spends_refl|].
    intros s. apply preserves_ret, spends_refl. }
  intros r. apply preserves_for; [exact spends_refl|exact spends_trans|].
  intros [b e]. apply spends_check_one.
Qed.

(** What drives the service: requests to spawn, and monitor ticks.  An exception
    ends the request or the tick it was raised in. *)
Inductive op := OpSpawn (b pid url job branch : string) | OpTick.

Definition run_op (o : op) : M (svc D) unit :=
  match o with
  | OpSpawn b pid url job branch => ignore (spawn b pid url job branch)
  | OpTick => ignore (check_all w heartbeat_key completed_key grace)
  end.

Definition requests (b : string) (ops : list op) : nat :=
  List.length (List.filter
    (λ o, match o with OpSpawn b' _ _ _ _ => bool_decide (b = b') | OpTick => false end) ops).

Lemma ignore_end (m : M (svc D) unit) s h :
  end_state (ignore m s h) = end_state (m s h) ∧ end_trace (ignore m s h) = end_trace (m s h).
Proof. unfold ignore, try_. by destruct (m s h) as [[[]|e] [s1 h1]]. Qed.

Lemma ops_bounded ops (s : svc D) h b :
  let r := for_ ops run_op s h in
  (starts b (end_trace r) + credit b (end_state r).1 ≤
   starts b h + credit b s.1 + (1 + MAX_WORKER_RESTARTS) * requests b ops)%nat ∧
  (capped s.1 → capped (end_state r).1).
Proof.
  cbv zeta. revert s h. induction ops as [|o ops IH]; intros s h.
  { split; [simpl; unfold end_trace, end_state; simpl; lia|done]. }
  cbn [for_]. rewrite bind_run.
  assert (∃ s1 h1, run_op o s h = (Ok tt, (s1, h1)) ∧
    (starts b h1 + credit b s1.1 ≤ starts b h + credit b s.1 +
      (1 + MAX_WORKER_RESTARTS) * requests b [o])%nat ∧ (capped s.1 → capped s1.1))
    as (s1 & h1 & -> & H1 & C1).
  { destruct o as [b0 pid url job branch|]; cbn [run_op].
    - destruct (spawn_requested b0 pid url job branch s h) as [Hb C]. specialize (Hb b).
      unfold ignore, try_, end_state, end_trace in *.
      destruct (spawn _ _ _ _ _ s h) as [[[]|e] [s1 h1]]; simpl in *;
        exists s1, h1; (split; [done|]); (split; [|done]); unfold requests; simpl; revert Hb;
        destruct (decide (b0 = b)); case_bool_decide; simpl; intros Hb;
        try congruence; unfold MAX_WORKER_RESTARTS in *; lia.
    - destruct (spends_check_all s h) as [H C]. specialize (H b).
      unfold ignore, try_, end_state, end_trace in *.
      destruct (check_all _ _ _ _ s h) as [[[]|e] [s1 h1]]; simpl in *;
        exists s1, h1; (split; [done|]); (split; [|done]); unfold requests; simpl; lia. }
  destruct (IH s1 h1) as [H2 C2]. split; [|auto].
  assert (requests b (o :: ops) = requests b [o] + requests b ops)%nat as ->; [|lia].
  unfold requests. simpl. by destruct (match o with OpTick => false | _ => _ end).
Qed.

End bounded.

(** C31: however requests and monitor ticks interleave, and whatever Redis, the
    clock and the processes do, with every lawful spawner a bug gets at most
    [1 + MAX_WORKER_RESTARTS] workers per request, and no entry's counter passes
    the cap. *)
Theorem worker_starts_bounded (w : world) {D : Type} `{!Spawner D} `{!LawfulSpawner D}
    (heartbeat_key completed_key : string → string) (grace : Q) (d : D) (ops : list op) (b : string) :
  let r := for_ ops (run_op w heartbeat_key completed_key grace) ([], d) [] in
  (starts b (end_trace r) ≤ (1 + MAX_WORKER_RESTARTS) * requests b ops)%nat ∧
  ∀ e, dict_get b (end_state r).1 = Some e → (restart_count e ≤ MAX_WORKER_RESTARTS)%nat.
Proof.
  cbv zeta. destruct (ops_bounded w heartbeat_key completed_key grace ops ([], d) [] b) as [Hb C].
  split; [|by apply C]. change (starts b []) with 0%nat in Hb.
  change (credit b ([], d).1) with 0%nat in Hb. lia.
Qed.

(** ** What a restart is a sign of *)

Section dead.
Context (w : world) {D : Type} `{Hlaw : LawfulSpawner D}.
Context (heartbeat_key completed_key : string → string).

Lemma mark_trace b st (s : svc D) h : end_trace (mark w b st s h) = h.
Proof. done. Qed.

Lemma monitor_restart_starts b (s : svc D) h b' :
  starts b' (end_trace (monitor_restart w b s h)) ≠ starts b' h →
  b' = b ∧ ∃ e, dict_get b s.1 = Some e ∧ (restart_count e < MAX_WORKER_RESTARTS)%nat.
Proof.
  unfold monitor_restart. rewrite bind_get_reg. destruct (dict_get b s.1) as [e|]; [|done].
  destruct (Nat.leb_spec MAX_WORKER_RESTARTS (restart_count e)) as [|Hlt]; [done|].
  intros Hne. split; [|by exists e]. destruct (decide (b' = b)) as [|Hb]; [done|]. destruct Hne.
  pose proof (restart_own b (project_id e) (project_web_url e) (job_id e) (source_branch e) b' Hb s h) as Hr.
  unfold try_, end_trace in *. by destruct (restart _ _ _ _ _ s h) as [[[]|ex] [s1 h1]].
Qed.

(** The monitor starts a worker only for the bug it is looking at, and only
    on evidence that the bug's worker is dead: its process exited with a non-zero
    code, or its heartbeat is gone after it had been running; and in both cases
    the completion key is absent and restarts are left. *)
Theorem restart_only_dead (now : Q) (b b' : string) (entry : WorkerEntry) (s : svc D) (h : trace) :
  starts b' (end_trace (check_one w heartbeat_key completed_key now b entry s h)) ≠ starts b' h →
  let h1 := h ++ [(Ttl (heartbeat_key b), true)] in
  b' = b ∧ ∃ rc s2 h2, poll b (process entry) s h1 = (Ok rc, (s2, h2)) ∧
  (match rc with
   | Some rc => rc ≠ 0%Z
   | None => status entry ≠ warmup ∧ ∃ ttl, w_ttl w h = Ok ttl ∧ (ttl ≤ 0)%Z
   end) ∧
  w_exists w h2 = Ok false ∧
  ∃ e, dict_get b s.1 = Some e ∧ (restart_count e < MAX_WORKER_RESTARTS)%nat.
Proof.
  unfold check_one. rewrite bind_run. unfold call at 1.
  destruct (w_ttl w h) as [ttl|ex] eqn:Ettl; simpl is_ok; cbv beta iota.
  2:{ intros Hne. destruct Hne. unfold end_trace. simpl. rewrite starts_app. simpl. lia. }
  set (h1 := h ++ [(Ttl (heartbeat_key b), true)]).
  assert (starts b' h1 = starts b' h) as Hh1 by (unfold h1; rewrite starts_app; simpl; lia).
  rewrite <- Hh1. rewrite bind_run. destruct (poll_idle b (process entry) s h1) as [Es Eh].
  unfold end_state, end_trace in Es, Eh.
  destruct (poll b (process entry) s h1) as [[rc|ex] [s2 h2]] eqn:Epoll; simpl in Es, Eh; cbv beta iota.
  2:{ intros Hne. destruct Hne. apply Eh. }
  rewrite <- (Eh b'). intros Hne.
  enough (b' = b ∧ (match rc with
     | Some rc => rc ≠ 0%Z
     | None => status entry ≠ warmup ∧ ∃ ttl', Ok (A := Z) ttl = Ok ttl' ∧ (ttl' ≤ 0)%Z end) ∧
     w_exists w h2 = Ok false ∧
     ∃ e, dict_get b s2.1 = Some e ∧ (restart_count e < MAX_WORKER_RESTARTS)%nat) as (H1 & H2 & H3 & H4).
  { split; [done|]. exists rc, s2, h2. rewrite <- Es. done. }
  revert Hne. assert (∀ P : Prop,
    (starts b' (end_trace ((completed ← call (Exists (completed_key b)) (w_exists w);
       if (completed : bool) then mark w b finished else monitor_restart w b) s2 h2))
       ≠ starts b' h2) → (w_exists w h2 = Ok false → b' = b →
         (∃ e, dict_get b s2.1 = Some e ∧ (restart_count e < MAX_WORKER_RESTARTS)%nat) → P) → P)
    as Hask.
  { intros P Hne HP. rewrite bind_run in Hne. unfold call in Hne.
    assert (∀ ok, starts b' (h2 ++ [(Exists (completed_key b), ok)]) = starts b' h2) as Hs.
    { intros ok. rewrite starts_app. simpl. rewrite andb_false_r. lia. }
    destruct (w_exists w h2) as [[]|ex] eqn:Ee; simpl in Hne.
    - destruct Hne. unfold end_trace. simpl. apply Hs.
    - rewrite <- (Hs true) in Hne. apply monitor_restart_starts in Hne as [? ?]. by apply HP.
    - destruct Hne. unfold end_trace. simpl. apply Hs. }
  cbv zeta. destruct rc as [rc|].
  - destruct (Z.eqb_spec rc 0) as [->|Hrc]; [done|].
    intros Hne. apply (Hask _ Hne). auto.
  - destruct (Z.ltb_spec 0 ttl); [by destruct (status entry)|].
    destruct (status entry) eqn:Est; try (intros Hne; apply (Hask _ Hne); eauto 10).
    by destruct (negb _).
Qed.

End dead.

(** ** The verdict of CI reaches the worker *)

(** When CI reports on the branch a worker pushed for a bug the orchestrator
    minted, and that worker is registered as active, the payload is appended to
    the bug's own inbox, nothing else is called, and the registry is untouched. *)
Theorem verdict_delivered {Hrepr : FloatRepr} (w : world) {D : Type} `{Spawner D}
    (inbox_stream : string → string) (now : datetime) (b1 b2 : N) (commit : string)
    (st : pyval) (rest : list (string * pyval)) (s : svc D) (h : trace) :
  let b := mint_bug_id now b1 b2 in
  let payload := pipeline_payload (PStr (deterministic_branch_name b commit)) st rest in
  valid_datetime now → (b1 < 256)%N → (b2 < 256)%N → hex8 (str_take 8 commit) →
  exists_ b s.1 = true → w_xadd w h = Ok tt →
  handle_message w inbox_stream (Ok payload) s h =
  (Ok tt, (s, h ++ [(XAdd (inbox_stream b) [("data", json_dumps default_opts payload)], true)])).
Proof.
  intros b payload Ht H1 H2 Hc Hex Hadd. unfold handle_message. rewrite bind_run. unfold lift.
  unfold payload. erewrite parse_message_verdict; [|by apply parse_minted_branch].
  change (default EmptyString (cap_get 1 [(1%nat, mint_bug_id now b1 b2)])) with b.
  fold payload. rewrite bind_run. unfold route. rewrite bind_get_reg, Hex. cbv zeta.
  rewrite bind_run. unfold call. by rewrite Hadd.
Qed.

(** ** The consumer loses no entry *)

Section entries.
Context {S : Type} (w : world) (handler : string → M S unit).
Context (stream_key group dead_letter_stream : string).

Definition ack_cmd (id : string) : cmd := XAck stream_key group id.
Definition dead_letter_cmd (id raw : string) (e : exn) : cmd :=
  XAdd dead_letter_stream
    [("data", raw); ("error", exn_msg e); ("origin_stream", stream_key); ("origin_id", id)].

Lemma swallow_ack id (s : S) h :
  match call (ack_cmd id) (w_xack w) s h with
  | (Ok a, st) => (Ok a, st)
  | (Raise _, (s', h')) => (mret tt : M S unit) s' h'
  end = (Ok tt, (s, h ++ [(ack_cmd id, is_ok (w_xack w h))])).
Proof. unfold call. by destruct (w_xack w h) as [[]|e]. Qed.

(** Processing an entry never raises; it runs the handler once and then, in
    this order, acknowledges the entry if the handler returned, or appends the
    original data to the dead-letter stream and acknowledges it.  An
    acknowledgement only ever follows a handled entry or a stored dead letter. *)
Theorem process_entry_spec (id : string) (f : fields) (s : S) (h : trace) :
  let '(r, (s1, h1)) := handler (body f) s h in
  ∃ after, process_entry w handler stream_key group dead_letter_stream id f s h =
           (Ok tt, (s1, h1 ++ after)) ∧
  match r with
  | Ok _ => after = [(ack_cmd id, true)] ∨
      ∃ e more, after = (ack_cmd id, false) :: (dead_letter_cmd id (body f) e, is_ok (w_xadd w (h1 ++ [(ack_cmd id, false)]))) :: more ∧
        ∀ x, x ∈ more → is_ok (w_xadd w (h1 ++ [(ack_cmd id, false)])) = true ∧ x.1 = ack_cmd id
  | Raise e =>
      ∃ more, after = (dead_letter_cmd id (body f) e, is_ok (w_xadd w h1)) :: more ∧
        ∀ x, x ∈ more → is_ok (w_xadd w h1) = true ∧ x.1 = ack_cmd id
  end.
Proof.
  unfold process_entry, ack, try_, ignore, try_, ack_cmd, dead_letter_cmd.
  rewrite !bind_run. destruct (handler (body f) s h) as [[[]|e] [s1 h1]].
  - unfold call at 1. destruct (w_xack w h1) as [[]|e] eqn:Ea; simpl is_ok; cbv beta iota.
    { eexists. split; [done|by left]. }
    set (h2 := h1 ++ _). rewrite bind_run. unfold call at 1.
    destruct (w_xadd w h2) as [[]|e'] eqn:Ed; simpl is_ok; cbv beta iota.
    + rewrite (swallow_ack id). unfold h2. rewrite <- !app_assoc.
      eexists. split; [done|]. right. exists e. eexists. split; [done|].
      by intros x ->%list_elem_of_singleton.
    + unfold h2. rewrite <- !app_assoc. eexists. split; [done|]. right. exists e, [].
      split; [done|]. by intros x ?%elem_of_nil.
  - rewrite bind_run. unfold call at 1.
    destruct (w_xadd w h1) as [[]|e'] eqn:Ed; simpl is_ok; cbv beta iota.
    + rewrite (swallow_ack id). rewrite <- !app_assoc.
      eexists. split; [done|]. eexists. split; [done|].
      by intros x ->%list_elem_of_singleton.
    + eexists. split; [done|]. exists []. split; [done|]. by intros x ?%elem_of_nil.
Qed.

End entries.

(** ** Witnesses *)

Definition sample_repr : FloatRepr := λ _, "0.5".

(** A world in which every call succeeds and processes have died with code 1. *)
Definition sample_world : world :=
  mkWorld (λ _, 0%Q) (λ _, mkDatetime 2026 5 15 12 30 45 312345) (λ _, (177, 15)%N)
    (λ _, Ok "p1") (λ _, Ok tt) (λ _, Ok tt) (λ _ _, Some 1%Z) (λ _, Ok 5%Z) (λ _, Ok false)
    (λ _, Ok None) (λ _, Ok tt) (λ _, Ok tt).

Definition sample_entry (b : string) : WorkerEntry :=
  mkEntry b "p0" "1" "http://x" "2" "main" 0 120 0 running None.

#[local] Instance sample_spawner : Spawner unit :=
  WorkerSpawner sample_world [] "redis".
#[local] Instance sample_lawful : LawfulSpawner unit :=
  local_lawful sample_world [] "redis".

Lemma worker_starts_bounded_witness :
  let r := for_ [OpSpawn "b" "1" "http://x" "2" "main"; OpTick; OpTick]
             (run_op sample_world (λ b, b) (λ b, b) 10) ([], tt) [] in
  (starts "b" (end_trace r) ≤ (1 + MAX_WORKER_RESTARTS) * 1)%nat ∧
  ∀ e, dict_get "b" (end_state r).1 = Some e → (restart_count e ≤ MAX_WORKER_RESTARTS)%nat.
Proof.
  exact (worker_starts_bounded sample_world (λ b, b) (λ b, b) 10 tt
           [OpSpawn "b" "1" "http://x" "2" "main"; OpTick; OpTick] "b").
Defined.

Lemma restart_only_dead_witness :
  "b" = "b" ∧ ∃ rc s2 h2,
    poll "b" "p0" ([("b", sample_entry "b")], tt) [(Ttl "b", true)] = (Ok rc, (s2, h2)) ∧
    (match rc with
     | Some rc => rc ≠ 0%Z
     | None => running ≠ warmup ∧ ∃ ttl, @Ok Z 5%Z = Ok ttl ∧ (ttl ≤ 0)%Z
     end) ∧
    @Ok bool false = Ok false ∧
    ∃ e, dict_get "b" [("b", sample_entry "b")] = Some e ∧ (restart_count e < MAX_WORKER_RESTARTS)%nat.
Proof.
  refine (restart_only_dead sample_world (λ b, b) (λ b, b) 10 "b" "b"
            (sample_entry "b") ([("b", sample_entry "b")], tt) [] _).
  vm_compute. discriminate.
Defined.

Lemma verdict_delivered_witness :
  handle_message (Hrepr := sample_repr) (D := unit) (H := WorkerSpawner sample_world [] "redis")
    sample_world (λ b, "inbox:" +:+ b)
    (Ok (pipeline_payload (PStr "auto/bf/2026_05_15-12_30_45_3_b10f-0a1b2c3d") (PStr "success") []))
    ([("2026_05_15-12_30_45_3_b10f", sample_entry "2026_05_15-12_30_45_3_b10f")], tt) [] =
  (Ok tt,
   (([("2026_05_15-12_30_45_3_b10f", sample_entry "2026_05_15-12_30_45_3_b10f")], tt),
    [(XAdd "inbox:2026_05_15-12_30_45_3_b10f"
        [("data", json_dumps (H := sample_repr) default_opts
            (pipeline_payload (PStr "auto/bf/2026_05_15-12_30_45_3_b10f-0a1b2c3d")
               (PStr "success") []))], true)])).
Proof.
  apply (verdict_delivered (Hrepr := sample_repr) (D := unit)
           (H := WorkerSpawner sample_world [] "redis") sample_world (λ b, "inbox:" +:+ b)
           (mkDatetime 2026 5 15 12 30 45 312345) 177 15 "0a1b2c3d4e5f" (PStr "success") []);
    try lia; try reflexivity.
  - unfold valid_datetime; simpl; lia.
  - split; reflexivity.
Defined.

End Orchestrator.
