(* ===== verification/Daemons.v ===== *)
(** * Distributed dispatch

    Models of [orchestrator/dispatcher.py] (round-robin choice of a daemon),
    [orchestrator/daemon_monitor.py] (re-dispatch of what dead daemons and full
    queues left behind) and [bf_worker/worker_daemon.py] (a daemon's inbox,
    slots and reaping).  Redis replies, clocks, memory and processes are
    oracles. *)

From S2P Require Import Prelude PyStr PyJson Effects Orchestrator.
Local Open Scope string_scope.
Local Open Scope list_scope.

(** What the three services ask the world. *)
Record dworld := mkDWorld {
  dw_monotonic : trace → Q;
  dw_time_ms : trace → Z;
  dw_smembers : trace → res (list string);
  dw_hgetall : trace → res fields;
  dw_xgroup_create : trace → res unit;
  dw_xadd : trace → res unit;
  dw_xack : trace → res unit;
  dw_exists : trace → res bool;
  dw_unit : trace → res unit;
  dw_xpending : trace → res nat;
  dw_xpending_range : trace → res (list string);
  dw_xrange : trace → res (option fields);
  dw_xreadgroup : trace → res (list (string * fields));
  dw_xautoclaim : trace → res (list (string * fields));
  dw_start : trace → res string;
  dw_free_memory_bytes : trace → Z;
  dw_hostname : string
}.

Definition inbox_key (daemon_id : string) : string := "worker-daemon:" +:+ daemon_id +:+ ":inbox".
Definition daemon_hash (daemon_id : string) : string := "worker-daemon:" +:+ daemon_id.
Definition PENDING_STREAM : string := "worker-daemon:pending".
Definition REJECTED_STREAM : string := "worker-daemon:rejected".
Definition DAEMONS_SET : string := "worker-daemons".
Definition DAEMON_GROUP : string := "daemon-group".
Definition ORCH_GROUP : string := "orch-group".
Definition DEFAULT_MIN_FREE_MEMORY_MB : Z := 2048.

Module Dispatcher.

Record DaemonInfo := mkDaemonInfo {
  daemon_id : string;
  free_slots : Z;
  free_memory_mb : Z;
  hostname : string;
  concurrency : Z;
  last_hb_ts : Z
}.

(** [int(raw.get(key, b"0"))] *)
Definition hash_int (key : string) (raw : fields) : res Z :=
  py_int (PStr (default "0" (dict_get key raw))).

Definition from_hash (id : string) (raw : fields) : res DaemonInfo :=
  slots ← hash_int "free_slots" raw;
  mem ← hash_int "free_memory_mb" raw;
  conc ← hash_int "concurrency" raw;
  ts ← hash_int "last_hb_ts" raw;
  mret (mkDaemonInfo id slots mem (default "" (dict_get "hostname" raw)) conc ts).

Definition is_alive (i : DaemonInfo) : bool := (0 <? last_hb_ts i)%Z.
Definition can_accept (min_free_memory_mb : Z) (i : DaemonInfo) : bool :=
  (0 <? free_slots i)%Z && (min_free_memory_mb <=? free_memory_mb i)%Z.

Record dispatcher := mkDispatcher {
  judge_pointer : nat;
  daemon_cache : list (string * DaemonInfo);
  cache_fetched_at : Q
}.

Definition eligible (min_mem : Z) (cache : list (string * DaemonInfo)) (id : string) : bool :=
  match dict_get id cache with
  | Some info => is_alive info && can_accept min_mem info
  | None => false
  end.

(** The loop over [range(n)]: the first eligible index from the pointer on. *)
Fixpoint scan (min_mem : Z) (cache : list (string * DaemonInfo)) (ids : list string)
    (pointer offset left : nat) : option nat :=
  match left with
  | O => None
  | S left' =>
      let idx := ((pointer + offset) mod List.length ids)%nat in
      if eligible min_mem cache (default EmptyString (ids !! idx)) then Some idx
      else scan min_mem cache ids pointer (S offset) left'
  end.

(** [_choose_daemon] after the cache refresh: the choice and the new pointer. *)
Definition choose (min_mem : Z) (cache : list (string * DaemonInfo)) (pointer : nat) :
    option string * nat :=
  let ids := sort_by id (map fst cache) in
  let n := List.length ids in
  if (n =? 0)%nat then (None, pointer)
  else
    let pointer := if (n <=? pointer)%nat then 0%nat else pointer in
    match scan min_mem cache ids pointer 0 n with
    | Some idx => (ids !! idx, (S idx mod n)%nat)
    | None => (None, (S pointer mod n)%nat)
    end.

Section dispatch.
Context (w : dworld) (cache_ttl : Q) (min_mem : Z).

(** The dispatcher keeps its own state next to the registry it does not use. *)
Notation St := (Orchestrator.svc dispatcher).

Definition get_disp : M St dispatcher := s ← get; mret s.2.
Definition put_disp (d : dispatcher) : M St unit := modify (λ s, (s.1, d)).

Fixpoint read_daemons (ids : list string) (acc : list (string * DaemonInfo)) :
    M St (list (string * DaemonInfo)) :=
  match ids with
  | [] => mret acc
  | i :: ids' =>
      data ← call (HGetAll (daemon_hash i)) (dw_hgetall w);
      match data with
      | [] => read_daemons ids' acc
      | _ => info ← lift (from_hash i data); read_daemons ids' (dict_set i info acc)
      end
  end.

Definition maybe_refresh_cache : M St unit :=
  now ← observe (dw_monotonic w);
  d ← get_disp;
  if Qle_bool cache_ttl (now - cache_fetched_at d) then
    ids ← call (SMembers DAEMONS_SET) (dw_smembers w);
    cache ← read_daemons ids [];
    put_disp (mkDispatcher (judge_pointer d) cache now)
  else mret tt.

Definition choose_daemon : M St (option string) :=
  _ ← maybe_refresh_cache;
  d ← get_disp;
  let '(choice, pointer) := choose min_mem (daemon_cache d) (judge_pointer d) in
  _ ← put_disp (mkDispatcher pointer (daemon_cache d) (cache_fetched_at d));
  mret choice.

Definition task_fields (b pid url job branch : string) : fields :=
  [("bug_id", b); ("project_id", pid); ("project_web_url", url); ("job_id", job);
   ("source_branch", branch)].

Definition dispatch_to (id b pid url job branch : string) : M St unit :=
  _ ← ignore (call (XGroupCreate (inbox_key id) DAEMON_GROUP None) (dw_xgroup_create w));
  call (XAdd (inbox_key id) (task_fields b pid url job branch)) (dw_xadd w).

Definition enqueue_pending (b pid url job branch : string) : M St unit :=
  _ ← ignore (call (XGroupCreate PENDING_STREAM ORCH_GROUP None) (dw_xgroup_create w));
  call (XAdd PENDING_STREAM (task_fields b pid url job branch)) (dw_xadd w).

Definition dispatch_spawn (b pid url job branch : string) : M St unit :=
  choice ← choose_daemon;
  match choice with
  | Some id => dispatch_to id b pid url job branch
  | None => enqueue_pending b pid url job branch
  end.

Definition spawn_raw (f : fields) : M St unit :=
  choice ← choose_daemon;
  match choice with
  | Some id =>
      match dict_get "bug_id" f with
      | None => throw (key_error "'bug_id'")
      | Some b =>
          dispatch_to id b (default "" (dict_get "project_id" f))
            (default "" (dict_get "project_web_url" f)) (default "" (dict_get "job_id" f))
            (default "" (dict_get "source_branch" f))
      end
  | None => call (XAdd PENDING_STREAM f) (dw_xadd w)
  end.

(** The dispatcher in the place of a spawner: a restart does nothing, and since it
    registers no entry there is nothing to poll. *)
#[export] Instance DistributedDispatcher : Orchestrator.Spawner dispatcher := {
  Orchestrator.spawn := dispatch_spawn;
  Orchestrator.restart := λ _ _ _ _ _, mret tt;
  Orchestrator.poll := λ _ _, mret None
}.

(** ** The daemon monitor *)

(** Re-dispatch a task, then acknowledge it on the stream it came from. *)
Definition redispatch (stream group id : string) (f : fields) : M St unit :=
  _ ← spawn_raw f; call (XAck stream group id) (dw_xack w).

(** One entry of a dead daemon's pending list; its acknowledgement may fail. *)
Definition recover_entry (inbox id : string) : M St unit :=
  body ← call (XRange inbox id) (dw_xrange w);
  match body with
  | None => mret tt
  | Some f => _ ← spawn_raw f; ignore (call (XAck inbox DAEMON_GROUP id) (dw_xack w))
  end.

Definition recover_inbox (id : string) : M St unit :=
  let inbox := inbox_key id in
  pending ← try_ (call (XPending inbox DAEMON_GROUP) (dw_xpending w)) (λ _, mret 0%nat);
  if (pending =? 0)%nat then mret tt
  else
    ids ← call (XPending inbox DAEMON_GROUP) (dw_xpending_range w);
    _ ← for_ ids (recover_entry inbox);
    ignore (call (Delete inbox) (dw_unit w)).

Definition recover_dead_daemons : M St unit :=
  ids ← call (SMembers DAEMONS_SET) (dw_smembers w);
  for_ ids (λ id,
    alive ← call (Exists (daemon_hash id)) (dw_exists w);
    if (alive : bool) then mret tt
    else
      _ ← recover_inbox id;
      _ ← call (SRem DAEMONS_SET id) (dw_unit w);
      call (Delete (daemon_hash id)) (dw_unit w)).

Definition claim_and_retry (stream : string) : M St unit :=
  claimed ← try_ (call (XAutoClaim stream ORCH_GROUP "orchestrator") (dw_xautoclaim w)) (λ _, mret []);
  for_ claimed (λ '(id, f), redispatch stream ORCH_GROUP id f).

Definition retry_stream (stream : string) : M St unit :=
  _ ← ignore (call (XGroupCreate stream ORCH_GROUP None) (dw_xgroup_create w));
  pending ← try_ (call (XPending stream ORCH_GROUP) (dw_xpending w)) (λ _, mret 0%nat);
  _ ← (if (0 <? pending)%nat then claim_and_retry stream else mret tt);
  msgs ← try_ (call (XReadGroup ORCH_GROUP "orchestrator" stream ">") (dw_xreadgroup w))
              (λ _, mret []);
  for_ msgs (λ '(id, f), redispatch stream ORCH_GROUP id f).

Definition tick : M St unit :=
  _ ← recover_dead_daemons;
  _ ← retry_stream PENDING_STREAM;
  retry_stream REJECTED_STREAM.

(** One turn of the monitor's loop: an error is logged and the tick is over. *)
Definition monitor_turn : M St unit := ignore tick.

End dispatch.

(** ** Acknowledging only what was queued again *)

(** The task two field lists describe, with the defaults the code fills in. *)
Definition same_task (f f' : fields) : Prop :=
  ∀ k, k ∈ ["bug_id"; "project_id"; "project_web_url"; "job_id"; "source_branch"] →
    default "" (dict_get k f) = default "" (dict_get k f').

Definition requeued (f : fields) (n : trace) : Prop :=
  ∃ stream f', (XAdd stream f', true) ∈ n ∧ same_task f f'.

Definition is_ack (c : cmd) : bool := match c with XAck _ _ _ => true | _ => false end.

Section requeue.
Context (w : dworld) (cache_ttl : Q) (min_mem : Z).
Notation St := (Orchestrator.svc dispatcher).

(** Redis handed out the entry [id] with the fields [f]. *)
Definition delivered (id : string) (f : fields) : Prop :=
  ∃ h msgs, (dw_xreadgroup w h = Ok msgs ∨ dw_xautoclaim w h = Ok msgs) ∧ (id, f) ∈ msgs.

(** The calls added between two points hold no acknowledgement. *)
Definition no_ack (_ : St) (h : trace) (_ : St) (h' : trace) : Prop :=
  ∃ n, h' = h ++ n ∧ ∀ c b, (c, b) ∈ n → is_ack c = false.

(** Every acknowledgement added follows the re-queueing of what it acknowledges. *)
Definition acks_after (_ : St) (h : trace) (_ : St) (h' : trace) : Prop :=
  ∃ n, h' = h ++ n ∧ ∀ l1 l2 s g id b, n = l1 ++ (XAck s g id, b) :: l2 →
    ∃ f, delivered id f ∧ requeued f l1.

Lemma no_ack_refl s h : no_ack s h s h.
Proof. exists []. rewrite app_nil_r. split; [done|]. by intros c b ?%elem_of_nil. Qed.

Lemma no_ack_trans s h s1 h1 s2 h2 : no_ack s h s1 h1 → no_ack s1 h1 s2 h2 → no_ack s h s2 h2.
Proof.
  intros (n & -> & Hn) (n' & -> & Hn'). exists (n ++ n'). rewrite app_assoc. split; [done|].
  intros c b [Hc|Hc]%elem_of_app; eauto.
Qed.

Lemma no_ack_call s h c b : is_ack c = false → no_ack s h s (h ++ [(c, b)]).
Proof. intros Hc. exists [(c, b)]. split; [done|]. by intros c' b' [= -> ->]%list_elem_of_singleton. Qed.

Lemma no_ack_modify s s' h : no_ack s h s' h.
Proof. exists []. rewrite app_nil_r. split; [done|]. by intros c b ?%elem_of_nil. Qed.

Lemma acks_after_refl s h : acks_after s h s h.
Proof. exists []. rewrite app_nil_r. split; [done|]. intros [|? ?] ? ? ? ? ? [=]. Qed.

Lemma requeued_app f n n' : requeued f n' → requeued f (n ++ n').
Proof. intros (s & f' & Hin & Hs). exists s, f'. split; [|done]. apply elem_of_app. by right. Qed.

Lemma acks_after_trans s h s1 h1 s2 h2 :
  acks_after s h s1 h1 → acks_after s1 h1 s2 h2 → acks_after s h s2 h2.
Proof.
  intros (n & -> & Hn) (n' & -> & Hn'). exists (n ++ n'). rewrite app_assoc. split; [done|].
  intros l1 l2 st g id b Hsplit. symmetry in Hsplit.
  apply app_eq_app in Hsplit as (l & [[-> Hr]|[-> Hr]]).
  - destruct (Hn' l l2 st g id b Hr) as (f & Hd & Hq). exists f. split; [done|]. by apply requeued_app.
  - destruct l as [|e l]; simpl in Hr.
    + destruct (Hn' [] l2 st g id b) as (f & Hd & Hq); [done|]. exists f. split; [done|].
      rewrite <- (app_nil_r l1). by apply requeued_app.
    + injection Hr as <- ->. by apply (Hn l1 l st g id b).
Qed.

Lemma no_ack_acks_after s h s' h' : no_ack s h s' h' → acks_after s h s' h'.
Proof.
  intros (n & -> & Hn). exists n. split; [done|]. intros l1 l2 st g id b ->.
  specialize (Hn (XAck st g id) b). simpl in Hn. discriminate Hn.
  apply elem_of_app. right. by left.
Qed.

Hint Resolve no_ack_refl no_ack_trans no_ack_call no_ack_modify
  acks_after_refl acks_after_trans : effects.

Lemma read_daemons_no_ack ids acc : preserves no_ack (read_daemons w ids acc).
Proof.
  revert acc. induction ids as [|i ids IH]; intros acc; simpl; [eauto with effects|].
  apply preserves_bind; [eauto with effects..|]. intros [|x l]; [done|]. eauto with effects.
Qed.
Hint Resolve read_daemons_no_ack : effects.

Lemma choose_daemon_no_ack : preserves no_ack (choose_daemon w cache_ttl min_mem).
Proof.
  unfold choose_daemon, maybe_refresh_cache, get_disp, put_disp.
  apply preserves_bind; [eauto with effects| |].
  - apply preserves_bind; [eauto with effects..|]. intros now.
    apply preserves_bind; [eauto 6 with effects..|]. intros d.
    destruct (Qle_bool _ _); eauto 8 with effects.
  - intros _. apply preserves_bind; [eauto 6 with effects..|]. intros d.
    destruct (choose _ _ _). eauto 6 with effects.
Qed.

(** What [spawn_raw] adds: no acknowledgement and, when it returns, the task. *)
Lemma spawn_raw_requeues f s h :
  ∃ n, end_trace (spawn_raw w cache_ttl min_mem f s h) = h ++ n ∧
    (∀ c b, (c, b) ∈ n → is_ack c = false) ∧
    (is_ok (spawn_raw w cache_ttl min_mem f s h).1 = true → requeued f n).
Proof.
  unfold spawn_raw. pose proof (choose_daemon_no_ack s h) as (n & Hh & Hn).
  unfold end_trace in *. rewrite bind_run.
  destruct (choose_daemon w cache_ttl min_mem s h) as [[[id|]|e] [s1 h1]]; simpl in Hh; subst h1.
  - destruct (dict_get "bug_id" f) as [b|] eqn:Eb; [|by exists n].
    unfold dispatch_to. rewrite bind_ignore_call. unfold call. simpl. rewrite <- !app_assoc.
    eexists. split; [reflexivity|]. split.
    + intros c b'. rewrite !elem_of_app, !list_elem_of_singleton. intros [?|[[= -> ->]|[= -> ->]]]; eauto.
    + intros Hok. eexists _, _. split.
      * rewrite !elem_of_app, !list_elem_of_singleton. right. right. by rewrite Hok.
      * intros k Hk. repeat (apply elem_of_cons in Hk as [->|Hk]; [simpl; by rewrite ?Eb|]).
        by apply elem_of_nil in Hk.
  - unfold call. simpl. exists (n ++ [(XAdd PENDING_STREAM f, is_ok (dw_xadd w (h ++ n)))]).
    rewrite app_assoc. split; [done|]. split.
    + intros c b'. rewrite !elem_of_app, !list_elem_of_singleton. intros [?|[= -> ->]]; eauto.
    + intros Hok. exists PENDING_STREAM, f. split; [|by intros].
      rewrite elem_of_app, list_elem_of_singleton, Hok. by right.
  - by exists n.
Qed.

Lemma redispatch_acks_after stream group id f :
  delivered id f → preserves acks_after (redispatch w cache_ttl min_mem stream group id f).
Proof.
  intros Hd s h. unfold redispatch, end_trace. rewrite bind_run.
  destruct (spawn_raw_requeues f s h) as (n & Hh & Hn & Hq). unfold end_trace in Hh.
  destruct (spawn_raw w cache_ttl min_mem f s h) as [[[]|e] [s1 h1]]; simpl in *; subst h1.
  - unfold call. simpl. eexists. rewrite <- app_assoc. split; [reflexivity|].
    intros l1 l2 st g i b Hsplit. destruct l2 as [|e2 l2 _] using rev_ind.
    + apply app_inj_tail in Hsplit as [<- [= -> -> -> _]]. eauto.
    + rewrite app_comm_cons, app_assoc in Hsplit. apply app_inj_tail in Hsplit as [-> _].
      specialize (Hn (XAck st g i) b). simpl in Hn. discriminate Hn.
      apply elem_of_app. right. by left.
  - apply no_ack_acks_after. by exists n.
Qed.

(** Re-dispatching the entries of a stream (claimed from a dead consumer or
    newly read) never loses a task: an entry is acknowledged only after the
    same task was added to a daemon's inbox or to the pending stream. *)
Theorem retry_acks_after_requeue (stream : string) (s : St) (h : trace) :
  ∃ n, end_trace (retry_stream w cache_ttl min_mem stream s h) = h ++ n ∧
    ∀ l1 l2 st g id b, n = l1 ++ (XAck st g id, b) :: l2 → ∃ f, delivered id f ∧ requeued f l1.
Proof.
  enough (preserves acks_after (retry_stream w cache_ttl min_mem stream)) as H by apply (H s h).
  assert (∀ s h c b, is_ack c = false → acks_after s h s (h ++ [(c, b)])) as Hc.
  { intros. apply no_ack_acks_after. by apply no_ack_call. }
  assert (∀ msgs, (msgs = [] ∨ (∃ h, dw_xreadgroup w h = Ok msgs) ∨ (∃ h, dw_xautoclaim w h = Ok msgs)) →
    preserves acks_after (for_ msgs (λ '(id, f), redispatch w cache_ttl min_mem stream ORCH_GROUP id f)))
    as Hfor.
  { intros msgs Hm. apply preserves_for_in; [eauto with effects..|]. intros [id f] Hin.
    apply redispatch_acks_after. destruct Hm as [->|[[h' Hm]|[h' Hm]]]; [by apply elem_of_nil in Hin|..];
      exists h', msgs; auto. }
  unfold retry_stream. apply preserves_bind; [eauto with effects..|]. intros _.
  apply preserves_bind_guarded; [eauto with effects|auto|]. intros pending _.
  apply preserves_bind; [eauto with effects| |].
  - destruct (0 <? pending)%nat; [|eauto with effects].
    apply preserves_bind_guarded; [eauto with effects|auto|]. intros v [->|Hv]; apply Hfor; auto.
  - intros _. apply preserves_bind_guarded; [eauto with effects|auto|].
    intros v [->|Hv]; apply Hfor; auto.
Qed.

End requeue.

(** ** The choice of a daemon *)

Definition sorted_ids (cache : list (string * DaemonInfo)) : list string :=
  sort_by id (map fst cache).

Lemma sorted_ids_elem cache d : d ∈ sorted_ids cache ↔ is_Some (dict_get d cache).
Proof. unfold sorted_ids. rewrite sort_by_perm. apply dict_get_key. Qed.

(** Where [offset] steps from [pointer] lead, around a ring of [n]. *)
Lemma ring_step n pointer offset :
  (pointer < n)%nat → (offset < n)%nat →
  ((pointer + offset) mod n = if pointer + offset <? n then pointer + offset
                              else pointer + offset - n)%nat.
Proof.
  intros Hp Ho. destruct (Nat.ltb_spec (pointer + offset) n); [by apply Nat.mod_small|].
  replace (pointer + offset)%nat with (pointer + offset - n + 1 * n)%nat at 1 by lia.
  rewrite Nat.Div0.mod_add. apply Nat.mod_small. lia.
Qed.

Section choice.
Context (min_mem : Z) (cache : list (string * DaemonInfo)).
Notation ids := (sorted_ids cache).
Notation len := (List.length ids).
Notation ok i := (eligible min_mem cache (default EmptyString (ids !! i))).

Lemma scan_spec pointer offset left :
  match scan min_mem cache ids pointer offset left with
  | Some idx => ∃ o, (offset ≤ o < offset + left)%nat ∧ idx = ((pointer + o) mod len)%nat ∧
      ok idx = true ∧ ∀ o', (offset ≤ o' < o)%nat → ok ((pointer + o') mod len)%nat = false
  | None => ∀ o, (offset ≤ o < offset + left)%nat → ok ((pointer + o) mod len)%nat = false
  end.
Proof.
  revert offset. induction left as [|left IH]; intros offset; cbn [scan]; [intros; lia|].
  destruct (ok ((pointer + offset) mod len)%nat) eqn:E.
  - exists offset. repeat split; auto; lia.
  - specialize (IH (S offset)). destruct (scan _ _ _ _ _ left) as [idx|].
    + destruct IH as (o & Ho & -> & Hok & Hpre). exists o. repeat split; auto; [lia..|].
      intros o' Ho'. destruct (decide (o' = offset)) as [->|]; [done|]. apply Hpre. lia.
    + intros o Ho. destruct (decide (o = offset)) as [->|]; [done|]. apply IH. lia.
Qed.

(** The choice from a pointer within the ring. *)
Lemma choose_in_ring pointer :
  (pointer < len)%nat →
  (∃ o, (o < len)%nat ∧ choose min_mem cache pointer =
      (ids !! ((pointer + o) mod len)%nat, (S ((pointer + o) mod len) mod len)%nat) ∧
      ok ((pointer + o) mod len)%nat = true ∧
      ∀ o', (o' < o)%nat → ok ((pointer + o') mod len)%nat = false) ∨
  (choose min_mem cache pointer = (None, (S pointer mod len)%nat) ∧
   ∀ o, (o < len)%nat → ok ((pointer + o) mod len)%nat = false).
Proof.
  intros Hp. unfold choose. fold ids. destruct (Nat.eqb_spec len 0); [lia|].
  rewrite (proj2 (Nat.leb_gt _ _) Hp). pose proof (scan_spec pointer 0 len) as Hs.
  destruct (scan _ _ _ _ _ _) as [idx|].
  - destruct Hs as (o & Ho & -> & Hok & Hpre). left. exists o.
    repeat split; auto; [lia|]. intros o' Ho'. apply Hpre. lia.
  - right. split; [done|]. intros o Ho. apply Hs. lia.
Qed.

Lemma choose_clamp pointer :
  choose min_mem cache pointer =
  if (len =? 0)%nat then (None, pointer)
  else choose min_mem cache (if (len <=? pointer)%nat then 0%nat else pointer).
Proof.
  unfold choose. fold ids. destruct (Nat.eqb_spec len 0) as [|Hn]; [done|].
  destruct (Nat.leb_spec len pointer).
  - by rewrite (proj2 (Nat.leb_gt len 0)) by lia.
  - by rewrite (proj2 (Nat.leb_gt len pointer)) by lia.
Qed.

(** Going around the ring from any pointer meets every index. *)
Lemma ring_reaches pointer i :
  (pointer < len)%nat → (i < len)%nat → ∃ o, (o < len)%nat ∧ ((pointer + o) mod len = i)%nat.
Proof.
  intros Hp Hi. destruct (Nat.le_gt_cases pointer i).
  - exists (i - pointer)%nat. split; [lia|]. rewrite Nat.mod_small; lia.
  - exists (i + len - pointer)%nat. split; [lia|]. rewrite ring_step by lia.
    rewrite (proj2 (Nat.ltb_ge _ _)) by lia. lia.
Qed.

(** The dispatcher assigns a task to a daemon exactly when some cached
    daemon is alive and has a free slot and enough memory; the daemon it picks
    is such a one; and the pointer stays within the ring. *)
Theorem choose_sound_complete (pointer : nat) :
  let '(choice, pointer') := choose min_mem cache pointer in
  (∀ d, choice = Some d → eligible min_mem cache d = true) ∧
  (choice = None ↔ ∀ d info, dict_get d cache = Some info →
                     is_alive info && can_accept min_mem info = false) ∧
  (cache ≠ [] → (pointer' < len)%nat).
Proof.
  rewrite choose_clamp. destruct (Nat.eqb_spec len 0) as [Hn|Hn].
  - assert (cache = []) as ->; [|repeat split; done].
    destruct cache as [|[k v] c]; [done|]. apply nil_length_inv in Hn.
    assert (k ∈ sorted_ids ((k, v) :: c)) as Hin.
    { apply sorted_ids_elem. simpl. rewrite decide_True by done. eauto. }
    rewrite Hn in Hin. by apply elem_of_nil in Hin.
  - set (p := if (len <=? pointer)%nat then 0%nat else pointer).
    assert (p < len)%nat as Hp by (unfold p; destruct (Nat.leb_spec len pointer); lia).
    destruct (choose_in_ring p Hp) as [(o & Ho & -> & Hok & _)|[-> Hno]].
    + set (i := ((p + o) mod len)%nat) in *.
      assert (i < len)%nat as Hi by (by apply Nat.mod_upper_bound).
      destruct (lookup_lt_is_Some_2 ids i Hi) as [d Hd]. rewrite Hd in *.
      repeat split.
      * intros d' [= <-]. exact Hok.
      * done.
      * intros Hall. exfalso. unfold eligible in Hok. simpl in Hok.
        destruct (dict_get d cache) as [info|] eqn:Ed; [|done].
        rewrite (Hall d info Ed) in Hok. done.
      * intros _. by apply Nat.mod_upper_bound.
    + repeat split; try done.
      * intros _ d info Hd. assert (d ∈ ids) as [i Hi]%list_elem_of_lookup
          by (apply sorted_ids_elem; eauto).
        destruct (ring_reaches p i Hp) as (o & Ho & Hio); [by eapply lookup_lt_Some|].
        specialize (Hno o Ho). rewrite Hio, Hi in Hno. unfold eligible in Hno. simpl in Hno.
        by rewrite Hd in Hno.
      * intros _. by apply Nat.mod_upper_bound.
Qed.

(** The daemons chosen by [k] dispatches in a row, the cache unchanged. *)
Fixpoint choices (k pointer : nat) : list (option string) :=
  match k with
  | O => []
  | S k' => let '(c, p) := choose min_mem cache pointer in c :: choices k' p
  end.

Lemma choices_mono a b p x : x ∈ choices a p → (a ≤ b)%nat → x ∈ choices b p.
Proof.
  revert b p. induction a as [|a IH]; intros b p Hx Hab; [by apply elem_of_nil in Hx|].
  destruct b as [|b]; [lia|]. cbn [choices] in *. destruct (choose min_mem cache p) as [c p'].
  apply elem_of_cons in Hx as [->|Hx]; [left|]. right. apply IH; [done|lia].
Qed.

(** A pointer past the end counts as one at the start. *)
Lemma choices_clamp k pointer : len ≠ 0%nat →
  choices k pointer = choices k (if (len <=? pointer)%nat then 0%nat else pointer).
Proof.
  intros Hn. destruct k as [|k]; [done|]. cbn [choices]. rewrite choose_clamp.
  by rewrite (proj2 (Nat.eqb_neq _ _) Hn).
Qed.

Lemma no_starvation_ring dist pointer i d :
  (pointer < len)%nat → ids !! i = Some d → eligible min_mem cache d = true →
  (dist < len)%nat → ((pointer + dist) mod len = i)%nat →
  Some d ∈ choices (S dist) pointer.
Proof.
  intros Hp Hi Hd. revert pointer Hp. induction dist as [dist IH] using lt_wf_ind.
  intros pointer Hp Hdist Hidx. cbn [choices].
  destruct (choose_in_ring pointer Hp) as [(o & Ho & -> & Hok & Hpre)|[_ Hno]].
  2:{ specialize (Hno dist Hdist). rewrite Hidx, Hi in Hno. simpl in Hno. congruence. }
  destruct (decide (o = dist)) as [->|Hne]; [rewrite Hidx, Hi; left|]. right.
  assert (o < dist)%nat as Hlt.
  { destruct (Nat.lt_trichotomy o dist) as [?|[?|Hgt]]; [done|done|].
    specialize (Hpre dist Hgt). rewrite Hidx, Hi in Hpre. simpl in Hpre. congruence. }
  assert ((S ((pointer + o) mod len) mod len = (pointer + S o) mod len)%nat) as Hnext.
  { rewrite <- Nat.add_1_r, Nat.Div0.add_mod_idemp_l. f_equal. lia. }
  rewrite Hnext.
  assert (Some d ∈ choices (S (dist - S o)) ((pointer + S o) mod len)%nat) as Hin.
  { apply IH; [lia| |lia|].
    - apply Nat.mod_upper_bound. lia.
    - rewrite Nat.Div0.add_mod_idemp_l, <- Hidx. f_equal. lia. }
  eapply choices_mono; [exact Hin|lia].
Qed.

(** C40: no daemon starves.  As long as the cache stands, a daemon that can accept
    is chosen within as many dispatches as there are daemons, whoever else can
    accept and whatever the pointer is, one left behind by a longer list of daemons
    included, which starts again at the first. *)
Theorem no_starvation (pointer : nat) (d : string) :
  eligible min_mem cache d = true → Some d ∈ choices (List.length cache) pointer.
Proof.
  assert (len = List.length cache) as Hn.
  { unfold sorted_ids. rewrite sort_by_perm. apply length_map. }
  intros Hd. rewrite <- Hn in *.
  assert (d ∈ ids) as [i Hi]%list_elem_of_lookup.
  { apply sorted_ids_elem. unfold eligible in Hd. destruct (dict_get d cache); [eauto|done]. }
  pose proof (lookup_lt_Some _ _ _ Hi) as Hlt.
  rewrite choices_clamp by lia. set (p := if (len <=? pointer)%nat then 0%nat else pointer).
  assert (p < len)%nat as Hp by (unfold p; destruct (Nat.leb_spec len pointer); lia).
  destruct (ring_reaches p i Hp Hlt) as (o & Ho & Hio).
  pose proof (no_starvation_ring o p i d Hp Hi Hd Ho Hio) as Hin.
  by eapply choices_mono.
Qed.

End choice.

Lemma no_starvation_witness :
  let info := mkDaemonInfo "d1" 2 4096 "h" 4 7 in
  let busy := mkDaemonInfo "d0" 0 4096 "h" 4 7 in
  Some "d1" ∈ choices 2048 [("d1", info); ("d0", busy)] 2 5.
Proof.
  exact (no_starvation 2048
    [("d1", mkDaemonInfo "d1" 2 4096 "h" 4 7); ("d0", mkDaemonInfo "d0" 0 4096 "h" 4 7)] 5 "d1" eq_refl).
Defined.

End Dispatcher.

Module WorkerDaemon.
Import Dispatcher.

(** Where the inbox task waits while it accepts a task: for the ownership key to be
    set, for the process to start, for the daemon to be back with a process that
    runs, for the acknowledgement.  An error ends the inbox task. *)
Inductive phase :=
| PIdle
| POwning (msg_id b : string) (task : fields)
| PStarting (msg_id b : string) (task : fields)
| PStarted (msg_id b proc : string)
| PAcking (msg_id b proc : string)
| PDied (e : exn).

(** The daemon's state.  [d_active] is the source's [_active]; [d_procs] are the
    worker processes that run, which the source does not track; [d_reapers] the
    background reaping tasks, each waiting for one process; [d_inbox] is where the
    inbox task is. *)
Record daemon := mkDaemon {
  d_active : list (string * string);
  d_procs : list (string * string);
  d_reapers : list (string * string);
  d_inbox : phase
}.

Definition fresh_daemon : daemon := mkDaemon [] [] [] PIdle.

Section daemon.
Context (w : dworld) (self : string) (conc min_free_memory_bytes hb_ttl : Z).
Context (environ : fields) (redis_url : string).

Definition free_slots_of (d : daemon) : Z := conc - Z.of_nat (List.length (d_active d)).

Definition can_accept_task (d : daemon) (h : trace) : bool :=
  (0 <? free_slots_of d)%Z && (min_free_memory_bytes <=? dw_free_memory_bytes w h)%Z.

(** The fields of one heartbeat. *)
Definition heartbeat_fields (d : daemon) (h : trace) : fields :=
  [("free_slots", str_of_Z (free_slots_of d));
   ("free_memory_mb", str_of_Z (dw_free_memory_bytes w h / 2 ^ 20));
   ("hostname", dw_hostname w);
   ("concurrency", str_of_Z conc);
   ("last_hb_ts", str_of_Z (dw_time_ms w h))].

Definition write_heartbeat : M daemon unit :=
  d ← get;
  f ← observe (heartbeat_fields d);
  _ ← call (HSet (daemon_hash self) f) (dw_unit w);
  call (Expire (daemon_hash self) hb_ttl) (dw_unit w).

Definition register_daemon : M daemon unit :=
  _ ← call (SAdd DAEMONS_SET self) (dw_unit w);
  _ ← ignore (call (XGroupCreate (inbox_key self) DAEMON_GROUP None) (dw_xgroup_create w));
  write_heartbeat.

Definition owner_key (b : string) : string := "task:owner:" +:+ b.

Definition task_env (b : string) (task : fields) : fields :=
  let at_ k := default "" (dict_get k task) in
  let env := dict_set "REDIS_URL" redis_url environ in
  let env := dict_set "BUG_ID" b env in
  let env := dict_set "project_id" (at_ "project_id") env in
  let env := dict_set "project_web_url" (at_ "project_web_url") env in
  let env := dict_set "job_id" (at_ "job_id") env in
  let env := dict_set "BUG_SOURCE_BRANCH" (at_ "source_branch") env in
  match dict_get "BF_AGENT_CONFIG" environ with
  | Some v => if str_nonempty v then dict_set "BF_AGENT_CONFIG" v env else env
  | None => env
  end.

(** The parts of [_accept] between the points where it waits. *)
Definition own_task (b : string) : M daemon unit := call (SetEx (owner_key b) self 3600) (dw_unit w).

(** The process runs from here on; the daemon has no handle of it yet. *)
Definition start_worker (b : string) (task : fields) : M daemon string :=
  proc ← call (StartProcess b (task_env b task)) (dw_start w);
  _ ← modify (λ d, mkDaemon (d_active d) ((b, proc) :: d_procs d) (d_reapers d) (d_inbox d));
  mret proc.

Definition record_worker (b proc : string) : M daemon unit :=
  modify (λ d, mkDaemon (dict_set b proc (d_active d)) (d_procs d) (d_reapers d) (d_inbox d)).

Definition ack_task (msg_id : string) : M daemon unit := call (XAck (inbox_key self) DAEMON_GROUP msg_id) (dw_xack w).

Definition start_reaper (b proc : string) : M daemon unit :=
  modify (λ d, mkDaemon (d_active d) (d_procs d) ((b, proc) :: d_reapers d) (d_inbox d)).

(** [_accept], when nothing else runs while it waits. *)
Definition accept (msg_id : string) (task : fields) : M daemon unit :=
  match dict_get "bug_id" task with
  | None => throw (key_error "'bug_id'")
  | Some b =>
      _ ← own_task b;
      proc ← start_worker b task;
      _ ← record_worker b proc;
      _ ← ack_task msg_id;
      start_reaper b proc
  end.

Definition rejected_fields (task : fields) (reason : string) : fields :=
  let at_ k := default "" (dict_get k task) in
  [("daemon_id", self); ("bug_id", at_ "bug_id"); ("project_id", at_ "project_id");
   ("project_web_url", at_ "project_web_url"); ("job_id", at_ "job_id");
   ("source_branch", at_ "source_branch"); ("reason", reason)].

Definition reject (msg_id : string) (task : fields) : M daemon unit :=
  d ← get;
  let reason := if (free_slots_of d =? 0)%Z then "no_free_slots" else "insufficient_memory" in
  _ ← ignore (call (XGroupCreate REJECTED_STREAM ORCH_GROUP None) (dw_xgroup_create w));
  _ ← call (XAdd REJECTED_STREAM (rejected_fields task reason)) (dw_xadd w);
  call (XAck (inbox_key self) DAEMON_GROUP msg_id) (dw_xack w).

Definition handle_task (msg_id : string) (task : fields) : M daemon unit :=
  d ← get;
  ok ← observe (can_accept_task d);
  if (ok : bool) then accept msg_id task else reject msg_id task.

(** One turn of [_inbox_loop]: only the read is guarded. *)
Definition inbox_turn : M daemon unit :=
  msgs ← try_ (call (XReadGroup DAEMON_GROUP self (inbox_key self) ">") (dw_xreadgroup w))
              (λ _, mret []);
  for_ msgs (λ '(id, f), handle_task id f).

(** [del self._active[bug_id]], then the ownership key. *)
Definition reap (b : string) : M daemon unit :=
  d ← get;
  if dict_has b (d_active d) then
    _ ← modify (λ d, mkDaemon (dict_pop b (d_active d)) (d_procs d) (d_reapers d) (d_inbox d));
    ignore (call (Delete (owner_key b)) (dw_unit w))
  else throw (key_error (repr_str b)).

Definition without (x : string * string) (l : list (string * string)) : list (string * string) :=
  List.filter (λ y, negb (bool_decide (y = x))) l.

(** A worker process exits. *)
Definition process_exits (b proc : string) : M daemon unit :=
  modify (λ d, mkDaemon (d_active d) (without (b, proc) (d_procs d)) (d_reapers d) (d_inbox d)).

(** The reaper of a process that has exited goes on. *)
Definition reaper_runs (b proc : string) : M daemon unit :=
  d ← get;
  if mem (b, proc) (d_reapers d) && negb (mem (b, proc) (d_procs d)) then
    _ ← modify (λ d, mkDaemon (d_active d) (d_procs d) (without (b, proc) (d_reapers d)) (d_inbox d));
    ignore (reap b)
  else mret tt.

(** Who has not exited when the drain times out is stopped, one by one. *)
Definition shutdown_kill : M daemon unit :=
  d ← get;
  for_ (d_active d) (λ '(b, _),
    _ ← ignore (call (StopProcess b) (dw_unit w));
    ignore (call (Delete (owner_key b)) (dw_unit w))).

Definition deregister : M daemon unit :=
  ignore (_ ← call (SRem DAEMONS_SET self) (dw_unit w);
          call (Delete (daemon_hash self)) (dw_unit w)).

(** [exits]: the workers that end while the daemon drains. *)
Definition shutdown (exits : list (string * string)) : M daemon unit :=
  _ ← deregister;
  d ← get;
  match d_active d with
  | [] => mret tt
  | _ => _ ← for_ exits (λ '(b, proc), _ ← process_exits b proc; reaper_runs b proc); shutdown_kill
  end.

(** ** The daemon as the event loop runs it

    The inbox task gives way wherever it waits; the heartbeat and the reapers run
    there, and processes exit when they like. *)

Definition park (p : phase) : M daemon unit :=
  modify (λ d, mkDaemon (d_active d) (d_procs d) (d_reapers d) p).

(** What the inbox task waits for has come. *)
Definition resume : M daemon unit :=
  d ← get;
  match d_inbox d with
  | POwning id b task => _ ← own_task b; park (PStarting id b task)
  | PStarting id b task => proc ← start_worker b task; park (PStarted id b proc)
  | PStarted id b proc => _ ← record_worker b proc; park (PAcking id b proc)
  | PAcking id b proc => _ ← ack_task id; _ ← start_reaper b proc; park PIdle
  | PIdle | PDied _ => mret tt
  end.

(** A task is read from the inbox, when the inbox task is there to read it. *)
Definition take (msg_id : string) (task : fields) : M daemon unit :=
  d ← get;
  match d_inbox d with
  | PIdle =>
      ok ← observe (can_accept_task d);
      if (ok : bool) then
        match dict_get "bug_id" task with
        | None => throw (key_error "'bug_id'")
        | Some b => park (POwning msg_id b task)
        end
      else reject msg_id task
  | _ => mret tt
  end.

(** The end of [run]: the inbox task is cancelled where it waits; one that had
    ended with an error raises it there. *)
Definition wind_down (exits : list (string * string)) : M daemon unit :=
  d ← get;
  match d_inbox d with
  | PDied e => throw e
  | _ => shutdown exits
  end.

(** What happens to a daemon, one event at a time. *)
Inductive event :=
| ETask (msg_id : string) (task : fields)
| EResume
| EBeat
| EExit (b proc : string)
| EReap (b proc : string).

Definition inbox_step (m : M daemon unit) : M daemon unit := try_ m (λ e, park (PDied e)).

Definition step_event (e : event) : M daemon unit :=
  match e with
  | ETask id f => inbox_step (take id f)
  | EResume => inbox_step resume
  | EBeat => ignore write_heartbeat
  | EExit b proc => process_exits b proc
  | EReap b proc => reaper_runs b proc
  end.

Fixpoint run_events (es : list event) : M daemon unit :=
  match es with
  | [] => mret tt
  | e :: es' => _ ← step_event e; run_events es'
  end.

(** ** Lemmas *)

Lemma reject_state msg_id task d h : end_state (reject msg_id task d h) = d.
Proof.
  unfold reject. do 2 step_call. by step_call.
Qed.

(** Left alone, the inbox task does what [accept] does: reading a task that can be
    accepted and going on four times is the whole of it. *)
Theorem accept_uninterrupted msg_id task d h d' h' :
  d_inbox d = PIdle → can_accept_task d h = true →
  accept msg_id task d h = (Ok tt, (d', h')) →
  run_events [ETask msg_id task; EResume; EResume; EResume; EResume] d h = (Ok tt, (d', h')).
Proof.
  destruct d as [act pr re ib]. intros Hi Hc. simpl in Hi. subst ib. unfold accept.
  destruct (dict_get "bug_id" task) as [b|] eqn:Eb; [|done].
  cbn [run_events step_event]. unfold inbox_step, take, resume.
  unfold own_task, start_worker, record_worker, ack_task, start_reaper, park, try_, call, modify, get, observe, mbind, M_bind,
    mret, M_ret.
  cbn [d_inbox d_active d_procs d_reapers]. rewrite Hc, Eb. cbn [d_inbox d_active d_procs d_reapers].
  repeat (match goal with |- context [match ?f ?x with Ok _ => _ | Raise _ => _ end] => destruct (f x) as [[]|] eqn:? end; cbn;
    try done).
Qed.

(** ** Slots *)

(** No task arrives for a bug the daemon is already working on. *)
Definition fresh_task (d : daemon) (e : event) : Prop :=
  match e with
  | ETask _ f => ∀ b, dict_get "bug_id" f = Some b → b ∉ map fst (d_procs d) ∧ dict_get b (d_active d) = None
  | _ => True
  end.

Inductive reach : daemon → trace → Prop :=
| reach_start : reach fresh_daemon []
| reach_step d h e : reach d h → fresh_task d e →
    reach (end_state (step_event e d h)) (end_trace (step_event e d h)).

(** The bug whose slot is promised but not taken, the process without a handle, and
    the one that has a handle and no reaper. *)
Definition promised (p : phase) : option string :=
  match p with POwning _ b _ | PStarting _ b _ | PStarted _ b _ => Some b | _ => None end.
Definition unrecorded (p : phase) : option (string * string) :=
  match p with PStarted _ b proc => Some (b, proc) | _ => None end.
Definition unreaped (p : phase) : option (string * string) :=
  match p with PAcking _ b proc => Some (b, proc) | _ => None end.

(** Every running process holds the slot of its bug, or is the one whose handle is
    about to be recorded and whose slot is kept free. *)
Record slots_ok (d : daemon) : Prop := {
  procs_once : NoDup (map fst (d_procs d));
  active_once : NoDup (map fst (d_active d));
  procs_held : ∀ b proc, (b, proc) ∈ d_procs d →
    dict_get b (d_active d) = Some proc ∨ unrecorded (d_inbox d) = Some (b, proc);
  reapers_held : ∀ b proc, (b, proc) ∈ d_reapers d → dict_get b (d_active d) = Some proc;
  promise_kept : ∀ b, promised (d_inbox d) = Some b →
    dict_get b (d_active d) = None ∧ (Z.of_nat (List.length (d_active d)) < conc)%Z ∧
    (unrecorded (d_inbox d) = None → b ∉ map fst (d_procs d));
  ack_held : ∀ b proc, unreaped (d_inbox d) = Some (b, proc) → dict_get b (d_active d) = Some proc;
  ack_alone : ∀ b proc, unreaped (d_inbox d) = Some (b, proc) → b ∉ map fst (d_reapers d);
  active_fits : (Z.of_nat (List.length (d_active d)) ≤ Z.max 0 conc)%Z
}.

Lemma key_in {V} (b : string) (v : V) l : (b, v) ∈ l → b ∈ map fst l.
Proof. intros Hin. apply list_elem_of_fmap. by exists (b, v). Qed.

Lemma key_of {V} (b : string) (l : list (string * V)) : b ∈ map fst l → ∃ v, (b, v) ∈ l.
Proof. intros ([b' v] & -> & Hin)%list_elem_of_fmap. by exists v. Qed.

Lemma without_elem x y l : y ∈ without x l ↔ y ∈ l ∧ y ≠ x.
Proof.
  unfold without. rewrite !list_elem_of_In, filter_In, negb_true_iff, bool_decide_eq_false. done.
Qed.

Lemma length_filter_le {A} (P : A → bool) l : (List.length (List.filter P l) ≤ List.length l)%nat.
Proof. induction l as [|x l IH]; simpl; [done|]. destruct (P x); simpl; lia. Qed.

Lemma filter_fst_NoDup {V} (P : string * V → bool) l :
  NoDup (map fst l) → NoDup (map fst (List.filter P l)).
Proof.
  induction l as [|x l IH]; simpl; [done|]. intros [Hx Hl]%NoDup_cons.
  destruct (P x); simpl; [|by apply IH]. constructor; [|by apply IH].
  intros (y & Hy & Hin)%list_elem_of_fmap. apply Hx. apply list_elem_of_fmap. exists y.
  split; [done|]. by apply list_elem_of_In, filter_In in Hin as [Hin%list_elem_of_In _].
Qed.

(** The inbox task moves to a point with no promise of its own. *)
Lemma slots_park d p :
  slots_ok d → promised p = None → unreaped p = None → unrecorded (d_inbox d) = None →
  slots_ok (mkDaemon (d_active d) (d_procs d) (d_reapers d) p).
Proof.
  intros Hd Hp Hu Hi. destruct Hd. split; simpl; try done; try (intros; congruence).
  intros b proc Hin. destruct (procs_held0 b proc Hin); [by left|congruence].
Qed.

(** A task is accepted. *)
Lemma slots_own d msg_id b task :
  slots_ok d → d_inbox d = PIdle → (0 < free_slots_of d)%Z → b ∉ map fst (d_procs d) → dict_get b (d_active d) = None →
  slots_ok (mkDaemon (d_active d) (d_procs d) (d_reapers d) (POwning msg_id b task)).
Proof.
  intros [] Hi Hfree Hb Hg. unfold free_slots_of in Hfree. rewrite Hi in *.
  split; simpl; try done. intros b' [= <-]. split; [done|]. split; [lia|done].
Qed.

(** The process of a promised slot starts. *)
Lemma slots_started d msg_id b task proc :
  slots_ok d → d_inbox d = PStarting msg_id b task →
  slots_ok (mkDaemon (d_active d) ((b, proc) :: d_procs d) (d_reapers d) (PStarted msg_id b proc)).
Proof.
  intros [] Hi. rewrite Hi in *. simpl in *. destruct (promise_kept0 b eq_refl) as (Hg & Hlt & Hb).
  split; simpl; try done.
  - constructor; [by apply Hb|done].
  - intros b' p' [[= -> ->]|Hin]%elem_of_cons; [by right|]. left. by destruct (procs_held0 _ _ Hin).
  - intros b' [= <-]. by repeat split.
Qed.

(** Its handle takes the slot. *)
Lemma slots_recorded d msg_id b proc :
  slots_ok d → d_inbox d = PStarted msg_id b proc →
  slots_ok (mkDaemon (dict_set b proc (d_active d)) (d_procs d) (d_reapers d) (PAcking msg_id b proc)).
Proof.
  intros [] Hi. rewrite Hi in *. simpl in *. destruct (promise_kept0 b eq_refl) as (Hg & Hlt & _).
  assert (b ∉ map fst (d_active d)) as Hba by (rewrite dict_get_key, Hg; by intros [? [=]]).
  assert (∀ b', b' ≠ b → dict_get b' (dict_set b proc (d_active d)) = dict_get b' (d_active d)) as Hne
    by (intros b' Hb'; by apply dict_get_set_ne).
  assert (b ∉ map fst (d_reapers d)) as Hbr.
  { intros (p' & Hin)%key_of. apply reapers_held0 in Hin. congruence. }
  split; simpl; try done.
  - rewrite dict_set_fresh by done. rewrite map_app. apply NoDup_app. split; [done|].
    split; [|by repeat constructor; apply not_elem_of_nil]. by intros x Hx ->%list_elem_of_singleton.
  - intros b' p' Hin. left. destruct (procs_held0 _ _ Hin) as [Ha|[= <- <-]]; [|apply dict_get_set_eq].
    rewrite Hne; [done|]. intros ->. congruence.
  - intros b' p' Hin. rewrite Hne; [by apply reapers_held0|]. intros ->. by apply Hbr, (key_in _ p').
  - intros b' p' [= <- <-]. apply dict_get_set_eq.
  - intros b' p' [= <- <-]. done.
  - rewrite dict_set_fresh by done. rewrite length_app. simpl. lia.
Qed.

(** Its reaper is there. *)
Lemma slots_reaper d msg_id b proc :
  slots_ok d → d_inbox d = PAcking msg_id b proc →
  slots_ok (mkDaemon (d_active d) (d_procs d) ((b, proc) :: d_reapers d) PIdle).
Proof.
  intros [] Hi. rewrite Hi in *. simpl in *. split; simpl; try done.
  intros b' p' [[= -> ->]|Hin]%elem_of_cons; [by apply ack_held0|by apply reapers_held0].
Qed.

(** A process exits. *)
Lemma slots_exit d x :
  slots_ok d → slots_ok (mkDaemon (d_active d) (without x (d_procs d)) (d_reapers d) (d_inbox d)).
Proof.
  intros []. split; simpl; try done.
  - by apply filter_fst_NoDup.
  - intros b proc [Hin _]%without_elem. by apply procs_held0.
  - intros b Hb. destruct (promise_kept0 b Hb) as (Hg & Hlt & Hn). repeat split; [done|done|].
    intros Hi. intros (p & [Hin _]%without_elem)%key_of. by apply (Hn Hi), (key_in _ p).
Qed.

(** A reaper frees the slot of a process that has exited. *)
Lemma slots_reaped d b proc :
  slots_ok d → (b, proc) ∈ d_reapers d → (b, proc) ∉ d_procs d →
  slots_ok (mkDaemon (dict_pop b (d_active d)) (d_procs d) (without (b, proc) (d_reapers d)) (d_inbox d)).
Proof.
  intros Hd Hr Hp. pose proof (reapers_held d Hd b proc Hr) as Hg. destruct Hd.
  assert (∀ b' p', b' ≠ b → dict_get b' (d_active d) = Some p' → dict_get b' (dict_pop b (d_active d)) = Some p') as Hkeep
    by (intros b' p' Hb'; by rewrite dict_get_pop_ne).
  pose proof (length_filter_le (λ '(k', _), negb (bool_decide (b = k'))) (d_active d)) as Hlen.
  split; simpl; try done.
  - by apply filter_fst_NoDup.
  - intros b' p' Hin. destruct (procs_held0 _ _ Hin) as [Ha|Ha]; [left|by right].
    apply Hkeep; [|done]. intros ->. congruence.
  - intros b' p' [Hin Hne]%without_elem. apply reapers_held0 in Hin. apply Hkeep; [|done]. intros ->. congruence.
  - intros b' Hb'. destruct (promise_kept0 b' Hb') as (Hg' & Hlt & Hn). split; [|split; [unfold dict_pop; lia|done]].
    rewrite dict_get_pop_ne; [done|]. intros ->. congruence.
  - intros b' p' Hb'. apply Hkeep; [|by apply ack_held0]. intros ->. by apply (ack_alone0 _ _ Hb'), (key_in _ proc).
  - intros b' p' Hb' (p & [Hin _]%without_elem)%key_of. by apply (ack_alone0 _ _ Hb'), (key_in _ p).
  - unfold dict_pop. lia.
Qed.

Lemma slots_dead d e : slots_ok d → unrecorded (d_inbox d) = None →
  slots_ok (mkDaemon (d_active d) (d_procs d) (d_reapers d) (PDied e)).
Proof. intros Hd Hi. by apply slots_park. Qed.

Lemma inbox_step_state (m : M daemon unit) d h :
  end_state (inbox_step m d h) =
  match (m d h).1 with
  | Ok _ => end_state (m d h)
  | Raise e => let d' := end_state (m d h) in mkDaemon (d_active d') (d_procs d') (d_reapers d') (PDied e)
  end.
Proof. unfold inbox_step, try_, end_state, park, modify. by destruct (m d h) as [[[]|e] [s1 h1]]. Qed.

Lemma slots_resume d h : slots_ok d → slots_ok (end_state (step_event EResume d h)).
Proof.
  intros Hd. cbn [step_event]. rewrite inbox_step_state. unfold resume. step_call.
  destruct (d_inbox d) as [|id b task|id b task|id b proc|id b proc|] eqn:Ei; try done.
  - unfold own_task. step_call; simpl; [|apply slots_dead; [done|by cbn; rewrite Ei]].
    destruct Hd. rewrite Ei in *. by split.
  - rewrite bind_run. unfold start_worker. step_call; simpl.
    + by apply (slots_started d id b task).
    + apply slots_dead; [done|by cbn; rewrite Ei].
  - by apply (slots_recorded d id).
  - unfold ack_task. step_call; simpl; [by apply (slots_reaper d id)|]. apply slots_dead; [done|by cbn; rewrite Ei].
Qed.

Lemma slots_take d h id f : slots_ok d → fresh_task d (ETask id f) → slots_ok (end_state (step_event (ETask id f) d h)).
Proof.
  intros Hd Hf. cbn [step_event]. rewrite inbox_step_state. unfold take. step_call.
  destruct (d_inbox d) eqn:Ei; try done. step_call. destruct (can_accept_task d h) eqn:Ec.
  - unfold can_accept_task in Ec. apply andb_true_iff in Ec as [Hfree%Z.ltb_lt _].
    destruct (dict_get "bug_id" f) as [b|] eqn:Eb; simpl; [|apply slots_dead; [done|by cbn; rewrite Ei]].
    destruct (Hf b Eb). by apply slots_own.
  - cbv zeta. rewrite reject_state. destruct (reject _ _ _ _).1; [done|]. apply slots_dead; [done|by cbn; rewrite Ei].
Qed.

Lemma slots_reap d h b proc : slots_ok d → slots_ok (end_state (step_event (EReap b proc) d h)).
Proof.
  intros Hd. cbn [step_event]. unfold reaper_runs. step_call.
  destruct (mem (b, proc) (d_reapers d)) eqn:Er; [|done]. destruct (mem (b, proc) (d_procs d)) eqn:Ep; [done|]. simpl.
  apply mem_spec in Er. assert ((b, proc) ∉ d_procs d) as Hp by (intros Hin; apply mem_spec in Hin; congruence).
  pose proof (reapers_held d Hd b proc Er) as Hg. step_call. unfold reap, ignore, try_. rewrite bind_get. cbn [d_active].
  unfold dict_has. rewrite Hg. simpl. rewrite bind_modify. unfold call. simpl.
  destruct (dw_unit w h); by apply slots_reaped.
Qed.

Lemma beat_state d h : end_state (step_event EBeat d h) = d.
Proof.
  cbn [step_event]. unfold ignore, try_, write_heartbeat, end_state, call, observe, get, mbind, M_bind. cbn.
  destruct (dw_unit w h); [|done]. by destruct (dw_unit w _).
Qed.

Lemma reach_slots d h : reach d h → slots_ok d.
Proof.
  induction 1 as [|d h e Hr IH Hf].
  { split; simpl; try done; try constructor; try (intros; by apply elem_of_nil in H) || lia. all: try lia.
    all: intros b proc ?%elem_of_nil; done. }
  destruct e as [id f| | |b proc|b proc].
  - by apply slots_take.
  - by apply slots_resume.
  - by rewrite beat_state.
  - by apply slots_exit.
  - by apply slots_reap.
Qed.

(** Running processes and the slots of the daemon. *)
Lemma procs_counted d : slots_ok d →
  (List.length (d_procs d) ≤ List.length (d_active d) + if unrecorded (d_inbox d) then 1 else 0)%nat.
Proof.
  intros Hd. rewrite <- (length_map fst (d_procs d)), <- (length_map fst (d_active d)).
  set (extra := match unrecorded (d_inbox d) with Some x => [x.1] | None => [] end).
  assert (List.length extra = if unrecorded (d_inbox d) then 1 else 0)%nat as <- by (unfold extra; by destruct (unrecorded _)).
  rewrite <- length_app. apply submseteq_length, NoDup_submseteq; [apply Hd|].
  intros b ([b' proc] & -> & Hx)%list_elem_of_fmap. apply elem_of_app. simpl.
  destruct (procs_held d Hd b' proc Hx) as [Ha|Ha]; [left; apply dict_get_key; eauto|right]. unfold extra. rewrite Ha.
  by apply elem_of_cons; left.
Qed.

(** ** Heartbeats *)

Definition is_beat (c : cmd) : bool := match c with HSet k _ => bool_decide (k = daemon_hash self) | _ => false end.

Definition no_beat (_ : daemon) (h : trace) (_ : daemon) (h' : trace) : Prop :=
  ∃ n, h' = h ++ n ∧ Forall (λ x, is_beat x.1 = false) n.

Lemma no_beat_refl s h : no_beat s h s h.
Proof. exists []. by rewrite app_nil_r. Qed.
Lemma no_beat_trans s h s1 h1 s2 h2 : no_beat s h s1 h1 → no_beat s1 h1 s2 h2 → no_beat s h s2 h2.
Proof. intros (n & -> & Hn) (n' & -> & Hn'). exists (n ++ n'). rewrite app_assoc. split; [done|]. by apply Forall_app. Qed.
Lemma no_beat_call s h c b : is_beat c = false → no_beat s h s (h ++ [(c, b)]).
Proof. intros Hc. exists [(c, b)]. split; [done|]. by apply Forall_singleton. Qed.
Lemma no_beat_modify s s' h : no_beat s h s' h.
Proof. exists []. by rewrite app_nil_r. Qed.

Ltac no_beats :=
  first
    [ apply preserves_bind; [apply no_beat_trans|no_beats|intros; no_beats]
    | apply preserves_try; [apply no_beat_trans|no_beats|intros; no_beats]
    | apply preserves_call; intros; by apply no_beat_call
    | apply preserves_modify; intros; apply no_beat_modify
    | apply preserves_ret, no_beat_refl | apply preserves_throw, no_beat_refl
    | apply preserves_get, no_beat_refl | apply preserves_observe, no_beat_refl
    | case_match; no_beats ].

Lemma step_no_beat e : e ≠ EBeat → preserves no_beat (step_event e).
Proof.
  intros He. destruct e as [id f| | |b proc|b proc]; try done; cbn [step_event]; unfold inbox_step, take, reject, resume, ignore,
    own_task, start_worker, record_worker, ack_task, start_reaper, park, process_exits, reaper_runs, reap, ignore; no_beats.
Qed.

(** What a heartbeat says of a daemon: the slots without a handle, which are the
    ones without a running process or fewer, but for the process whose handle is
    about to be recorded. *)
Definition advertises (d : daemon) (f : fields) : Prop :=
  ∃ info, from_hash self f = Ok info ∧ concurrency info = conc ∧ free_slots info = free_slots_of d ∧
    (free_slots info ≤ conc - Z.of_nat (List.length (d_procs d)) + if unrecorded (d_inbox d) then 1 else 0)%Z.

(** The orchestrator reads in a daemon's hash exactly what the daemon wrote
    in its last heartbeat. *)
Theorem heartbeat_round_trip (d : daemon) (h : trace) :
  from_hash self (heartbeat_fields d h) =
  Ok (mkDaemonInfo self (free_slots_of d) (dw_free_memory_bytes w h / 2 ^ 20) (dw_hostname w)
        conc (dw_time_ms w h)).
Proof.
  unfold from_hash, hash_int, heartbeat_fields. simpl. by rewrite !str_int_of_Z.
Qed.

Lemma beat_advertises d h : slots_ok d → advertises d (heartbeat_fields d h).
Proof.
  intros Hd. eexists. split; [apply heartbeat_round_trip|]. simpl. split; [done|]. split; [done|].
  pose proof (procs_counted d Hd). unfold free_slots_of. destruct (unrecorded _); lia.
Qed.

Lemma beat_trace d h : ∃ n, end_trace (step_event EBeat d h) = h ++ n ∧
  ∀ h1 f ok h2, h ++ n = h1 ++ (HSet (daemon_hash self) f, ok) :: h2 →
    (∃ h2', h = h1 ++ (HSet (daemon_hash self) f, ok) :: h2') ∨ h1 = h ∧ f = heartbeat_fields d h.
Proof.
  assert (∀ x n, Forall (λ y : cmd * bool, is_beat y.1 = false) n → ∀ h1 f ok h2,
    h ++ (HSet (daemon_hash self) (heartbeat_fields d h), x) :: n = h1 ++ (HSet (daemon_hash self) f, ok) :: h2 →
    (∃ h2', h = h1 ++ (HSet (daemon_hash self) f, ok) :: h2') ∨ h1 = h ∧ f = heartbeat_fields d h) as Hone.
  { intros x n Hn h1 f ok h2 E. apply app_eq_app in E as (l & [[-> E]|[-> E]]).
    - destruct l as [|y l]; simpl in E; [injection E as -> _ _; right; by rewrite app_nil_r|]. injection E as <- ->. left. by exists l.
    - destruct l as [|y l]; simpl in E; [injection E as <- _ _; right; by rewrite app_nil_r|]. injection E as _ ->. exfalso.
      apply Forall_app in Hn as [_ Hn]. apply Forall_cons in Hn as [Hn _]. simpl in Hn. by rewrite bool_decide_eq_true_2 in Hn. }
  cbn [step_event]. unfold ignore, try_, write_heartbeat, end_trace, call, observe, get, mbind, M_bind. cbn.
  destruct (dw_unit w h) as [[]|e]; cbn.
  - destruct (dw_unit w _) as [[]|e]; cbn; rewrite <- app_assoc; eexists; (split; [reflexivity|]); apply Hone; by repeat constructor.
  - eexists; split; [reflexivity|]. by apply (Hone false []).
Qed.

(** C39: a daemon never runs more workers than its concurrency, as long as it is not
    handed a bug it is already working on, with its inbox task, its heartbeat and
    its reapers interleaved wherever they wait, with processes that exit at any
    point and calls that fail.  Every heartbeat it has written told, at the point
    where it was written, its concurrency and its free slots, which are the slots no
    handle is recorded for: never more than the slots without a running process,
    except while the handle of a process that has just started is not recorded,
    when there is one more. *)
Theorem daemon_within_concurrency (d : daemon) (h : trace) :
  reach d h →
  (Z.of_nat (List.length (d_procs d)) ≤ Z.max 0 conc)%Z ∧
  ∀ h1 f ok h2, h = h1 ++ (HSet (daemon_hash self) f, ok) :: h2 → ∃ d1, reach d1 h1 ∧ advertises d1 f.
Proof.
  intros Hr. split.
  { pose proof (reach_slots d h Hr) as Hd. pose proof (procs_counted d Hd) as Hc. pose proof (active_fits d Hd) as Hf.
    destruct (unrecorded (d_inbox d)) as [[b p]|] eqn:Eu; [|lia].
    destruct (promise_kept d Hd b) as (_ & Hlt & _); [|lia]. by destruct (d_inbox d) as [| | |? ? ?| |?]; [..|injection Eu as <- _| |]. }
  induction Hr as [|d h e Hr IH Hf]; intros h1 f ok h2 E; [by destruct h1|].
  assert (e = EBeat ∨ e ≠ EBeat) as [->|He] by (destruct e; [by right|by right|by left|by right|by right]).
  - destruct (beat_trace d h) as (n & Hn & Hsplit). rewrite Hn in E.
    destruct (Hsplit _ _ _ _ E) as [[h2' Hh]|[-> ->]]; [by eapply IH|]. exists d. split; [done|].
    apply beat_advertises. by apply (reach_slots d h).
  - destruct (step_no_beat e He d h) as (n & Hn & Hno). rewrite Hn in E. apply app_eq_app in E as (l & [[-> E]|[-> E]]).
    + destruct l as [|y l]; simpl in E.
      * subst n. apply Forall_cons in Hno as [Hno _]. simpl in Hno. by rewrite bool_decide_eq_true_2 in Hno.
      * injection E as <- ->. by eapply IH.
    + rewrite E in Hno. apply Forall_app in Hno as [_ Hno]. apply Forall_cons in Hno as [Hno _]. simpl in Hno.
      by rewrite bool_decide_eq_true_2 in Hno.
Qed.

End daemon.

(** A world in which every call succeeds and memory is plentiful. *)
Definition calm_world : dworld := mkDWorld
  (λ _, 0%Q) (λ _, 1%Z) (λ _, Ok []) (λ _, Ok []) (λ _, Ok tt) (λ _, Ok tt) (λ _, Ok tt)
  (λ _, Ok true) (λ _, Ok tt) (λ _, Ok 0%nat) (λ _, Ok []) (λ _, Ok None) (λ _, Ok []) (λ _, Ok [])
  (λ _, Ok "p1") (λ _, 2 ^ 40)%Z "host".

Definition one_task : event := ETask "1-0" [("bug_id", "B1"); ("project_id", "7")].

(** The daemon of [calm_world], with one slot, some events after it started. *)
Definition after (es : list event) := run_events calm_world "d1" 1 0 30 [] "redis://" es fresh_daemon [].

(** The slots its last heartbeat told. *)
Definition told (es : list event) : option string :=
  match List.find (λ x, is_beat "d1" x.1) (rev (end_trace (after es))) with
  | Some (HSet _ f, _) => dict_get "free_slots" f
  | _ => None
  end.

(** A heartbeat between the start of a process and the recording of its handle tells
    a free slot, of a daemon whose only slot is taken; the next one does not. *)
Example beat_before_the_handle :
  let es := [one_task; EResume; EResume; EBeat] in
  List.length (d_procs (end_state (after es))) = 1%nat ∧ told es = Some "1" ∧ told (es ++ [EResume; EBeat]) = Some "0".
Proof. vm_compute. done. Qed.

(** A daemon whose inbox task has ended with an error takes no task, still tells its
    slots, and when it is stopped neither deregisters nor waits for its workers. *)
Example deaf_daemon :
  let x := after [ETask "1-0" []; one_task; EResume; EBeat] in
  d_procs (end_state x) = [] ∧ told [ETask "1-0" []; one_task; EResume; EBeat] = Some "1" ∧
  let y := wind_down calm_world "d1" [] (end_state x) (end_trace x) in
  y.1 = Raise (key_error "'bug_id'") ∧ end_trace y = end_trace x.
Proof. vm_compute. done. Qed.

Lemma daemon_within_concurrency_witness :
  let x := after [one_task; EResume; EResume; EBeat] in
  (Z.of_nat (List.length (d_procs (end_state x))) ≤ Z.max 0 1)%Z ∧
  ∀ h1 f ok h2, end_trace x = h1 ++ (HSet (daemon_hash "d1") f, ok) :: h2 →
    ∃ d1, reach calm_world "d1" 1 0 30 [] "redis://" d1 h1 ∧ advertises "d1" 1 d1 f.
Proof.
  intros x. apply (daemon_within_concurrency calm_world "d1" 1 0 30 [] "redis://" (end_state x) (end_trace x)).
  change (end_state x) with (end_state (step_event calm_world "d1" 1 0 30 [] "redis://" EBeat (end_state (after [one_task; EResume; EResume]))
    (end_trace (after [one_task; EResume; EResume])))).
  change (end_trace x) with (end_trace (step_event calm_world "d1" 1 0 30 [] "redis://" EBeat (end_state (after [one_task; EResume; EResume]))
    (end_trace (after [one_task; EResume; EResume])))).
  apply reach_step; [|done].
  refine (reach_step _ _ _ _ _ _ _ _ _ EResume (reach_step _ _ _ _ _ _ _ _ _ EResume
    (reach_step _ _ _ _ _ _ _ _ _ one_task (reach_start _ _ _ _ _ _ _) _) I) I).
  intros b _. split; [by apply not_elem_of_nil|done].
Defined.

End WorkerDaemon.
