(* ===== verification/Spawners.v ===== *)
(** * The container spawners

    Models of the Docker, ECS and Kubernetes spawners of
    [orchestrator/spawner.py]: what they ask for when a worker starts, what they
    make of the status of a worker, and how they restart one.  The three client
    libraries are oracles; a request is the document of the keyword arguments it
    is built from.  Each spawner is shown to keep the promises the health monitor
    relies on. *)

From S2P Require Import Prelude PyStr PyJson PyJsonLoads Regex Effects BugIds Orchestrator.
Local Open Scope string_scope.
Local Open Scope list_scope.

Module Spawners.
Import BugIds Orchestrator.

Notation doc := (list (string * pyval)).

(** What the client libraries and the environment answer. *)
Record cloud := mkCloud {
  cl_clock : trace → Q;
  cl_environ : fields;
  cl_run_container : doc → trace → res string;
  cl_container : trace → res (string * option Z);
  cl_wait : trace → res Z;
  cl_unit : trace → res unit;
  cl_run_task : trace → res doc;
  cl_describe : trace → res doc;
  cl_job_status : trace → res (bool * bool);
  cl_pods : trace → res (list (option string));
  cl_api_status : exn → option Z
}.

(** [os.getenv(var)] when it is set and not empty. *)
Definition getenv (cl : cloud) (var : string) : option string :=
  match dict_get var (cl_environ cl) with
  | Some v => if str_nonempty v then Some v else None
  | None => None
  end.

(** The variables forwarded to a worker. *)
Definition forwarded (cl : cloud) (vars : list string) : fields :=
  omap (λ var, (λ v, (var, v)) <$> getenv cl var) vars.

(** ** The shape the spawners share *)

Section shape.
Context {D X : Type}.
Context (start : X → string → string → string → string → string → nat → M (svc D) WorkerEntry).

Definition spawn_with (x : X) (b pid url job branch : string) : M (svc D) unit :=
  r ← get_reg;
  if exists_ b r then mret tt
  else entry ← start x b pid url job branch 0; mod_reg (register entry).

(** [before] stops the old process and says what is kept of it. *)
Definition restart_with (before : string → option WorkerEntry → M (svc D) X)
    (b pid url job branch : string) : M (svc D) unit :=
  r ← get_reg;
  let old := dict_get b r in
  let rc := match old with Some e => S (restart_count e) | None => 1%nat end in
  x ← before b old;
  entry ← start x b pid url job branch rc;
  mod_reg (register entry).

(** A start asks for at most one worker, for the bug it is told, and touches no
    other entry. *)
Definition lawful_start : Prop := ∀ x b pid url job branch rc (s : svc D) h,
  let r := start x b pid url job branch rc s h in
  (end_state r).1 = s.1 ∧
  (∀ b', starts b' (end_trace r) =
         starts b' h + if is_ok r.1 then if decide (b = b') then starts b (end_trace r) - starts b h else 0 else 0)%nat ∧
  (starts b (end_trace r) ≤ S (starts b h))%nat ∧
  ∀ e, r.1 = Ok e → bug_id e = b ∧ restart_count e = rc.

Context (Hstart : lawful_start).

Lemma spawn_with_requested x b pid url job branch :
  preserves (requested b) (spawn_with x b pid url job branch).
Proof.
  intros s h. unfold spawn_with. rewrite bind_get_reg. destruct (exists_ b s.1); [by apply idle_requested|].
  rewrite bind_run. destruct (Hstart x b pid url job branch 0 s h) as (Hs & Hh & Hle & He).
  unfold end_state, end_trace in Hs, Hh, Hle.
  destruct (start _ _ _ _ _ _ _ s h) as [[e|ex] [s1 h1]]; simpl in *.
  - destruct (He e eq_refl) as [Hb Hrc]. eapply (register_requested b e); [done|done|by simpl; rewrite <- Hs|].
    intros b'. unfold end_trace. simpl. rewrite Hh. destruct (decide (b = b')); lia.
  - apply idle_requested. split; [done|]. intros b'. unfold end_trace. simpl. rewrite Hh. lia.
Qed.

Context (before : string → option WorkerEntry → M (svc D) X).
Context (Hbefore : ∀ b old, preserves idle (before b old)).

Lemma restart_with_spends b pid url job branch (s : svc D) h e :
  dict_get b s.1 = Some e → (restart_count e < MAX_WORKER_RESTARTS)%nat →
  let r := restart_with before b pid url job branch s h in spends s h (end_state r) (end_trace r).
Proof.
  intros He Hlt. cbv zeta. unfold restart_with. rewrite bind_get_reg. cbv beta zeta. rewrite He, bind_run.
  destruct (Hbefore b (Some e) s h) as [Es Eh]. unfold end_state, end_trace in Es, Eh.
  destruct (before b (Some e) s h) as [[x|ex] [s1 h1]]; simpl in Es, Eh; [|by apply idle_spends].
  eapply spends_after_idle; [by split|]. rewrite bind_run.
  destruct (Hstart x b pid url job branch (S (restart_count e)) s1 h1) as (Hs & Hh & Hle & Hent).
  unfold end_state, end_trace in Hs, Hh, Hle.
  destruct (start _ _ _ _ _ _ _ s1 h1) as [[e'|ex] [s2 h2]]; simpl in *.
  - destruct (Hent e' eq_refl) as [Hb Hrc].
    eapply (register_spends b e e'); [by rewrite Es|done|done|done|by simpl; rewrite <- Hs|].
    intros b'. unfold end_trace. simpl. rewrite Hh. destruct (decide (b = b')); lia.
  - apply idle_spends. split; [done|]. intros b'. unfold end_trace. simpl. rewrite Hh. lia.
Qed.

Lemma restart_with_own b pid url job branch b' : b' ≠ b →
  preserves (λ _ h _ h', starts b' h' = starts b' h) (restart_with before b pid url job branch).
Proof.
  intros Hne s h. unfold restart_with. rewrite bind_get_reg. cbv beta zeta. rewrite bind_run.
  destruct (Hbefore b (dict_get b s.1) s h) as [_ Eh]. unfold end_trace in Eh.
  destruct (before b _ s h) as [[x|ex] [s1 h1]]; simpl in Eh; [|apply Eh]. rewrite bind_run, <- (Eh b').
  destruct (Hstart x b pid url job branch
    (match dict_get b s.1 with Some e => S (restart_count e) | None => 1%nat end) s1 h1) as (_ & Hh & _).
  specialize (Hh b'). rewrite decide_False in Hh by done. unfold end_trace in Hh.
  destruct (start _ _ _ _ _ _ _ s1 h1) as [[e'|ex] [s2 h2]]; simpl in *; unfold end_trace; simpl; lia.
Qed.
End shape.

(** The entry every start ends with. *)
Definition new_entry (cl : cloud) (h : trace) (b proc pid url job branch : string) (rc : nat) : WorkerEntry :=
  let now := cl_clock cl h in
  mkEntry b proc pid url job branch now (now + WARMUP_GRACE) rc warmup None.

(** What is kept of a process: its [returncode], by bug id. *)
Definition returncodes := list (string * option Z).

Definition returncode (b : string) (s : svc returncodes) : option Z :=
  default None (dict_get b s.2).

Definition set_returncode (b : string) (rc : option Z) : M (svc returncodes) unit :=
  modify (λ s, (s.1, dict_set b rc s.2)).

(** ** Docker *)

Module Docker.

Record DockerSettings := mkDockerSettings {
  redis_url : string;
  worker_image : string;
  docker_network : string;
  ssh_private_key : string;
  env : string
}.

Section docker.
Context (cl : cloud) (cfg : DockerSettings).
Notation St := (svc returncodes).

Definition docker_environment (b pid url job branch : string) : fields :=
  let e := [("BUG_ID", b); ("REDIS_URL", redis_url cfg); ("project_id", pid); ("project_web_url", url);
            ("job_id", job); ("BUG_SOURCE_BRANCH", branch); ("ENV", env cfg);
            ("BF_CHECKPOINT_BACKEND", "none")] in
  let e := fold_left (λ e '(k, v), dict_set k v e)
             (forwarded cl ["MINI_IMPL"; "BF_STEP_CHECKPOINT"; "BF_AGENT_CONFIG"]) e in
  if str_nonempty (ssh_private_key cfg) then dict_set "SSH_PRIVATE_KEY" (ssh_private_key cfg) e else e.

Definition container_name (b : string) : string := "dh-bf-worker-" +:+ b.

Definition docker_run_kwargs (b pid url job branch : string) : doc :=
  [("image", PStr (worker_image cfg)); ("command", PList [PStr "--bug-id"; PStr b]);
   ("environment", PDict (map (λ '(k, v), (k, PStr v)) (docker_environment b pid url job branch)));
   ("network", PStr (docker_network cfg)); ("name", PStr (container_name b)); ("detach", PBool true)].

Definition start_container (_ : unit) (b pid url job branch : string) (rc : nat) : M St WorkerEntry :=
  let kwargs := docker_run_kwargs b pid url job branch in
  proc ← call (CreateWorker "docker" b kwargs) (cl_run_container cl kwargs);
  _ ← set_returncode b None;
  observe (λ h, new_entry cl h b proc pid url job branch rc).

(** [docker_reload_status]: an error counts as an exit. *)
Definition docker_reload_status (b proc : string) : M St unit :=
  rc ← try_ (r ← call (PollWorker proc) (cl_container cl);
             s ← get;
             mret (if bool_decide (r.1 = "exited") then Some (default (-1)%Z r.2) else returncode b s))
            (λ _, mret (Some (-1)%Z));
  set_returncode b rc.

(** [terminate], then [wait] with a limit, and [kill] when that fails. *)
Definition docker_stop_old (b : string) (old : option WorkerEntry) : M St unit :=
  match old with
  | Some e =>
      _ ← ignore (call (StopWorker (process e)) (cl_unit cl));
      try_ (rc ← call (PollWorker (process e)) (cl_wait cl); set_returncode b (Some rc))
           (λ _, ignore (call (StopWorker (process e)) (cl_unit cl)))
  | None => mret tt
  end.

#[export] Instance DockerWorkerSpawner : Spawner returncodes := {
  spawn := spawn_with start_container tt;
  restart := restart_with start_container docker_stop_old;
  poll := λ b proc, _ ← docker_reload_status b proc; s ← get; mret (returncode b s)
}.
End docker.
End Docker.

(** ** ECS *)

Module Ecs.

Record EcsSettings := mkEcsSettings {
  redis_url : string;
  cluster : string;
  task_def : string;
  subnets : list string;
  security_groups : list string;
  worker_env : string;
  worker_network_mode : string
}.

(** [[s.strip() for s in v.split(",") if s.strip()]] *)
Definition comma_list (v : string) : list string :=
  List.filter str_nonempty (map str_strip (str_split ","%char v)).

Section ecs.
Context (cl : cloud) (cfg : EcsSettings).
Notation St := (svc returncodes).

Definition ecs_environment (b pid url job branch : string) : fields :=
  fold_left (λ e '(k, v), dict_set k v e)
    (forwarded cl ["MINI_IMPL"; "BF_STEP_CHECKPOINT"; "BF_AGENT_CONFIG"])
    [("BUG_ID", b); ("REDIS_URL", redis_url cfg); ("project_id", pid); ("project_web_url", url);
     ("job_id", job); ("BUG_SOURCE_BRANCH", branch); ("ENV", worker_env cfg);
     ("BF_CHECKPOINT_BACKEND", "none")].

Definition ecs_run_kwargs (b pid url job branch : string) : doc :=
  [("cluster", PStr (cluster cfg)); ("taskDefinition", PStr (task_def cfg));
   ("launchType", PStr "EC2"); ("count", PInt 1);
   ("overrides", PDict [("containerOverrides", PList [PDict
      [("name", PStr "bf-worker"); ("command", PList [PStr "--bug-id"; PStr b]);
       ("environment", PList (map (λ '(k, v), PDict [("name", PStr k); ("value", PStr v)])
                                  (ecs_environment b pid url job branch)))]])])] ++
  if bool_decide (worker_network_mode cfg = "awsvpc") then
    [("networkConfiguration", PDict [("awsvpcConfiguration", PDict
       [("subnets", PList (map PStr (subnets cfg)));
        ("securityGroups", PList (map PStr (security_groups cfg)))])])]
  else [].

(** The task of a reply to [run_task]; without one, none was started. *)
Definition first_task (b : string) (resp : doc) : res string :=
  tasks ← py_get (PDict resp) "tasks" (PList []);
  match tasks with
  | PList (t :: _) =>
      arn ← py_getitem t "taskArn";
      match arn with
      | PStr arn => mret arn
      | v => Raise (type_error ("expected string, got " +:+ type_name v))
      end
  | _ => Raise (Exn "RuntimeError" ("ecs:RunTask returned no tasks for bug_id=" +:+ b))
  end.

Definition start_task (_ : unit) (b pid url job branch : string) (rc : nat) : M St WorkerEntry :=
  arn ← call (CreateWorker "ecs" b (ecs_run_kwargs b pid url job branch))
             (λ h, resp ← cl_run_task cl h; first_task b resp);
  _ ← set_returncode b None;
  observe (λ h, new_entry cl h b arn pid url job branch rc).

(** The exit codes the containers of a task report. *)
Definition exit_codes (containers : pyval) : list Z :=
  match containers with
  | PList cs => omap (λ c, match c with
      | PDict d => match dict_get "exitCode" d with Some (PInt z) => Some z | _ => None end
      | _ => None end) cs
  | _ => []
  end.

Definition missing (failures : pyval) : bool :=
  match failures with
  | PList fs => existsb (λ f, match f with
      | PDict d => bool_decide (dget "reason" d = PStr "MISSING") | _ => false end) fs
  | _ => false
  end.

(** What [ecs_reload_status] makes of a description: a new return code, or nothing. *)
Definition described (resp : doc) : option Z :=
  let tasks := default (PList []) (dict_get "tasks" resp) in
  if negb (truthy tasks) then
    if missing (default (PList []) (dict_get "failures" resp)) then Some (-1)%Z else None
  else match tasks with
       | PList (PDict t :: _) =>
           if bool_decide (dget "lastStatus" t = PStr "STOPPED") then
             Some (default (-1)%Z (head (exit_codes (default (PList []) (dict_get "containers" t)))))
           else None
       | _ => None
       end.

(** An error of the call changes nothing. *)
Definition ecs_reload_status (b proc : string) : M St unit :=
  r ← try_ (resp ← call (PollWorker proc) (cl_describe cl); mret (described resp)) (λ _, mret None);
  match r with
  | Some rc => set_returncode b (Some rc)
  | None => mret tt
  end.

Definition ecs_stop_old (_ : string) (old : option WorkerEntry) : M St unit :=
  match old with
  | Some e => ignore (call (StopWorker (process e)) (cl_unit cl))
  | None => mret tt
  end.

#[export] Instance EcsWorkerSpawner : Spawner returncodes := {
  spawn := spawn_with start_task tt;
  restart := restart_with start_task ecs_stop_old;
  poll := λ b proc, _ ← ecs_reload_status b proc; s ← get; mret (returncode b s)
}.
End ecs.
End Ecs.

(** ** Kubernetes *)

Module K8s.

(** The settings as they are read from the k8s_environment. *)
Record raw_settings := mkRaw {
  r_redis_url : string;
  r_worker_image : string;
  r_namespace : string;
  r_worker_config_map : string;
  r_secret_name : string;
  r_job_ttl_seconds : Z;
  r_host_aliases : list (string * list string);
  r_journal_host_path : string;
  r_cpu_request : string;
  r_mem_request : string;
  r_cpu_limit : string;
  r_mem_limit : string;
  r_ephemeral_storage_request : string;
  r_docker_sock : string;
  r_step_checkpoint_host_path : string;
  r_node_selector : string;
  r_tolerations : string;
  r_resume_affinity : string
}.

Record K8sSettings := mkK8sSettings {
  raw : raw_settings;
  requests : fields;
  limits : fields;
  node_selector : pyval;
  tolerations : list pyval;
  resume_affinity : string
}.

Definition QUANTITY_RE : re :=
  Eval vm_compute in rx no_flags "^\d+(\.\d+)?(m|k|M|G|T|P|E|Ki|Mi|Gi|Ti|Pi|Ei)?$".

Definition RESUME_AFFINITY_MODES : list string := ["preferred"; "required"; "off"].

(** [_quantities]: the non-empty ones, each of which must be a quantity. *)
Fixpoint quantities (kind : string) (values : fields) : res fields :=
  match values with
  | [] => Ok []
  | (key, v) :: values' =>
      let v := str_strip v in
      if negb (str_nonempty v) then quantities kind values'
      else match re_match QUANTITY_RE v with
           | None => Raise (value_error
               ("worker " +:+ key +:+ " " +:+ kind +:+ " " +:+ repr_str v +:+
                " is not a valid k8s quantity " +:+ "(e.g. '3', '500m', '4Gi')"))
           | Some _ => rest ← quantities kind values'; Ok ((key, v) :: rest)
           end
  end.

(** [_parse_json_setting]: garbage counts as unset. *)
Definition parse_json_setting `{FloatParse} (text : string) (expected : pyval → bool) : option pyval :=
  if negb (str_nonempty (str_strip text)) then None
  else match json_loads text with
       | None => None
       | Some v => if expected v && truthy v then Some v else None
       end.

Definition is_dict (v : pyval) : bool := match v with PDict _ => true | _ => false end.
Definition is_list (v : pyval) : bool := match v with PList _ => true | _ => false end.

(** The checks of [__init__]; the connection to the cluster is not made. *)
Definition init `{FloatParse} (r : raw_settings) : res K8sSettings :=
  requests ← quantities "request"
    [("cpu", r_cpu_request r); ("memory", r_mem_request r);
     ("ephemeral-storage", r_ephemeral_storage_request r)];
  limits ← quantities "limit" [("cpu", r_cpu_limit r); ("memory", r_mem_limit r)];
  let selector := default PNone (parse_json_setting (r_node_selector r) is_dict) in
  let tols := match parse_json_setting (r_tolerations r) is_list with Some (PList l) => l | _ => [] end in
  let given := if str_nonempty (r_resume_affinity r) then r_resume_affinity r else "preferred" in
  let mode := str_lower (str_strip given) in
  if negb (mem mode RESUME_AFFINITY_MODES) then
    Raise (value_error ("K8S_WORKER_RESUME_AFFINITY=" +:+ repr_str (r_resume_affinity r) +:+
                        " is not valid " +:+ "(expected one of preferred|required|off)"))
  else Ok (mkK8sSettings r requests limits selector tols mode).

(** [re.sub(r"(?<!^)(?=[A-Z])", "_", key).lower()] *)
Definition is_upper (c : ascii) : bool := (65 <=? code c)%N && (code c <=? 90)%N.

Fixpoint snake_tail (s : string) : string :=
  match s with
  | EmptyString => EmptyString
  | String c s' => if is_upper c then String "_" (String c (snake_tail s')) else String c (snake_tail s')
  end.

Definition snake (key : string) : string :=
  str_lower (match key with EmptyString => EmptyString | String c s => String c (snake_tail s) end).

Definition TOLERATION_FIELDS : list string :=
  ["key"; "operator"; "value"; "effect"; "toleration_seconds"].

(** [_toleration]: both spellings of a field, unknown fields dropped. *)
Definition toleration (t : doc) : pyval :=
  PDict (fold_left (λ kw '(k, v), if mem (snake k) TOLERATION_FIELDS then dict_set (snake k) v kw else kw) t []).

(** What is kept of a worker: its return code, and the node its pod was seen on. *)
Record proxy := mkProxy {
  job_name : string;
  rc : option Z;
  node_name : string;
  node_lookups : nat
}.

Definition proxies := list (string * proxy).
Definition MAX_NODE_LOOKUPS : nat := 20.

Section k8s.
Context (cl : cloud) (cfg : K8sSettings).
Notation St := (svc proxies).

Definition set_proxy (b : string) (p : proxy) : M St unit := modify (λ s, (s.1, dict_set b p s.2)).

(** The nodes the pods of a job are on, those that have been scheduled. *)
Definition named_nodes (pods : list (option string)) : list string :=
  omap (λ n, match n with Some n => if str_nonempty n then Some n else None | None => None end) pods.

(** [lookup_node]: asks while the node is unknown, a bounded number of times. *)
Definition lookup_node (b : string) (p : proxy) : M St proxy :=
  if str_nonempty (node_name p) || (MAX_NODE_LOOKUPS <=? node_lookups p)%nat then mret p
  else
    let p := mkProxy (job_name p) (rc p) (node_name p) (S (node_lookups p)) in
    pods ← try_ (call (PollWorker ("job-name=" +:+ job_name p)) (cl_pods cl)) (λ _, mret []);
    let p := match named_nodes pods with
             | n :: _ => mkProxy (job_name p) (rc p) n (node_lookups p)
             | [] => p
             end in
    _ ← set_proxy b p;
    mret p.

(** [k8s_reload_status]: only the exceptions of the API are handled. *)
Definition k8s_reload_status (b : string) (p : proxy) : M St unit :=
  r ← try_ (r ← call (PollWorker (job_name p)) (cl_job_status cl); mret (Some r))
           (λ e, match cl_api_status cl e with
                 | Some 404%Z =>
                     _ ← set_proxy b (mkProxy (job_name p) (Some (default 0%Z (rc p))) (node_name p) (node_lookups p));
                     mret None
                 | Some _ => mret None
                 | None => throw e
                 end);
  match r with
  | None => mret tt
  | Some (true, _) => set_proxy b (mkProxy (job_name p) (Some 0%Z) (node_name p) (node_lookups p))
  | Some (false, true) => set_proxy b (mkProxy (job_name p) (Some 1%Z) (node_name p) (node_lookups p))
  | Some (false, false) => _ ← lookup_node b p; mret tt
  end.

Definition env_var (name value : string) : pyval := PDict [("name", PStr name); ("value", PStr value)].

Definition host_path_volume (name path type : string) : pyval :=
  PDict [("name", PStr name); ("host_path", PDict [("path", PStr path); ("type", PStr type)])].

Definition volume_mount (name path : string) : pyval :=
  PDict [("name", PStr name); ("mount_path", PStr path)].

(** [l or None] *)
Definition or_none (l : list pyval) : pyval := match l with [] => PNone | _ => PList l end.

Definition FORWARDED : list string :=
  ["MINI_IMPL"; "BF_STEP_CHECKPOINT"; "BF_STEP_LEDGER"; "BF_MINI_CONTAINER_TIMEOUT";
   "BF_MAX_COST_USD"; "BF_AGENT_CONFIG"].

(** The k8s_environment of the worker, in the order it is built. *)
Definition worker_variables (b pid url job branch : string) : fields :=
  [("BUG_ID", b); ("project_id", pid); ("project_web_url", url); ("job_id", job);
   ("REDIS_URL", r_redis_url (raw cfg)); ("BUG_SOURCE_BRANCH", branch);
   ("BF_CHECKPOINT_BACKEND", "none")] ++
  forwarded cl FORWARDED ++
  (if str_nonempty (r_journal_host_path (raw cfg))
   then [("BF_JOURNAL_DIR", r_journal_host_path (raw cfg))] else []) ++
  (if str_nonempty (r_step_checkpoint_host_path (raw cfg))
   then [("BF_STEP_CHECKPOINT_DIR", r_step_checkpoint_host_path (raw cfg))] else []).

(** The directories and the socket of the node the worker sees. *)
Definition host_paths : list (string * string * string) :=
  (if str_nonempty (r_journal_host_path (raw cfg))
   then [("journal", r_journal_host_path (raw cfg), "DirectoryOrCreate")] else []) ++
  (if str_nonempty (r_step_checkpoint_host_path (raw cfg))
   then [("step-checkpoint", r_step_checkpoint_host_path (raw cfg), "DirectoryOrCreate")] else []) ++
  (if str_nonempty (r_docker_sock (raw cfg))
   then [("docker-sock", r_docker_sock (raw cfg), "Socket")] else []).

Definition str_dict (f : fields) : pyval :=
  match f with [] => PNone | _ => PDict (map (λ '(k, v), (k, PStr v)) f) end.

Definition resources : pyval :=
  match requests cfg, limits cfg with
  | [], [] => PNone
  | r, l => PDict [("requests", str_dict r); ("limits", str_dict l)]
  end.

(** [_worker_resume_enabled] *)
Definition worker_resume_enabled : bool :=
  negb (bool_decide (str_lower (str_strip (default "none" (getenv cl "BF_STEP_CHECKPOINT"))) = "none")).

(** [_resume_affinity_spec] *)
Definition resume_affinity_spec (node_hint : string) : pyval :=
  if negb (str_nonempty node_hint) || bool_decide (resume_affinity cfg = "off") ||
     negb worker_resume_enabled
  then PNone
  else
    let term := PDict [("match_expressions", PList [PDict
      [("key", PStr "kubernetes.io/hostname"); ("operator", PStr "In");
       ("values", PList [PStr node_hint])]])] in
    if bool_decide (resume_affinity cfg = "required") then
      PDict [("node_affinity", PDict [("required_during_scheduling_ignored_during_execution",
        PDict [("node_selector_terms", PList [term])])])]
    else
      PDict [("node_affinity", PDict [("preferred_during_scheduling_ignored_during_execution",
        PList [PDict [("weight", PInt 100); ("preference", term)]])])].

Definition labels (name b : string) : pyval :=
  PDict [("app", PStr "bf-worker"); ("job-name", PStr name); ("bug-id", PStr (k8s_label_value b))].

Definition container (b pid url job branch : string) : pyval :=
  PDict [("name", PStr "bf-worker"); ("image", PStr (r_worker_image (raw cfg)));
         ("image_pull_policy", PStr "IfNotPresent"); ("args", PList [PStr "--bug-id"; PStr b]);
         ("env", PList (map (λ '(k, v), env_var k v) (worker_variables b pid url job branch)));
         ("env_from", PList [
            PDict [("config_map_ref", PDict [("name", PStr (r_worker_config_map (raw cfg)))])];
            PDict [("secret_ref", PDict [("name", PStr (r_secret_name (raw cfg)))])]]);
         ("volume_mounts", or_none (map (λ '(n, path, _), volume_mount n path) host_paths));
         ("resources", resources)].

Definition pod_spec (b pid url job branch node_hint : string) : doc :=
  [("restart_policy", PStr "Never"); ("automount_service_account_token", PBool false);
   ("containers", PList [container b pid url job branch]);
   ("host_aliases", or_none (map (λ '(ip, names), PDict [("ip", PStr ip); ("hostnames", PList (map PStr names))])
                                 (r_host_aliases (raw cfg))));
   ("volumes", or_none (map (λ '(n, path, type), host_path_volume n path type) host_paths));
   ("node_selector", node_selector cfg);
   ("tolerations", or_none (omap (λ t, match t with PDict d => Some (toleration d) | _ => None end)
                                 (tolerations cfg)));
   ("affinity", resume_affinity_spec node_hint)].

Definition build_job (name b pid url job branch node_hint : string) : doc :=
  [("metadata", PDict [("name", PStr name); ("namespace", PStr (r_namespace (raw cfg)));
                       ("labels", labels name b)]);
   ("spec", PDict [("backoff_limit", PInt 0);
                   ("ttl_seconds_after_finished", PInt (r_job_ttl_seconds (raw cfg)));
                   ("template", PDict [("metadata", PDict [("labels", labels name b)]);
                                       ("spec", PDict (pod_spec b pid url job branch node_hint))])])].

(** [_start_job]: a name that is taken is adopted. *)
Definition start_job (node_hint : string) (b pid url job branch : string) (rc : nat) : M St WorkerEntry :=
  let name := k8s_job_name b rc in
  _ ← try_ (_ ← call (CreateWorker "k8s" b (build_job name b pid url job branch node_hint)) (cl_unit cl); mret tt)
           (λ e, if bool_decide (cl_api_status cl e = Some 409%Z) then mret tt else throw e);
  _ ← set_proxy b (mkProxy name None "" 0);
  observe (λ h, new_entry cl h b name pid url job branch rc).

(** The node is read before the old job is deleted. *)
Definition before_restart (b : string) (old : option WorkerEntry) : M St string :=
  match old with
  | None => mret ""
  | Some e =>
      s ← get;
      match dict_get b s.2 with
      | None => mret ""
      | Some p =>
          p ← lookup_node b p;
          _ ← ignore (call (StopWorker (job_name p)) (cl_unit cl));
          mret (node_name p)
      end
  end.

#[export] Instance K8sJobSpawner : Spawner proxies := {
  spawn := spawn_with start_job "";
  restart := restart_with start_job before_restart;
  poll := λ b _,
    s ← get;
    match dict_get b s.2 with
    | None => mret None
    | Some p =>
        _ ← k8s_reload_status b p;
        s ← get;
        mret (dict_get b s.2 ≫= rc)
    end
}.
End k8s.
End K8s.

(** ** The spawners keep their promises *)

Section laws.
Context {D : Type}.

(** A start that asks for one worker, notes something of its own, and makes the
    entry. *)
Lemma start_of_call {X A} api (spec : X → string → string → string → string → string → nat → doc)
    (f : doc → X → string → trace → res A) (g : X → string → string → string → string → string → nat → A → D → D)
    (entry : string → string → string → string → string → nat → A → trace → WorkerEntry) :
  (∀ b pid url job branch rc a h, bug_id (entry b pid url job branch rc a h) = b ∧
     restart_count (entry b pid url job branch rc a h) = rc) →
  lawful_start (λ x b pid url job branch rc,
    a ← call (CreateWorker api b (spec x b pid url job branch rc)) (f (spec x b pid url job branch rc) x b);
    _ ← modify (λ s : svc D, (s.1, g x b pid url job branch rc a s.2));
    observe (entry b pid url job branch rc a)).
Proof.
  intros He x b pid url job branch rc s h.
  unfold call, modify, observe, mbind, M_bind, end_state, end_trace.
  destruct (f _ x b h) as [a|e]; simpl.
  - split; [done|]. split; [|split].
    + intros b'. rewrite !starts_app. simpl. rewrite (bool_decide_eq_true_2 (b = b)) by done.
      case_bool_decide; destruct (decide (b = b')); congruence || lia.
    + rewrite starts_app. simpl. rewrite bool_decide_eq_true_2 by done. lia.
    + intros e [= <-]. apply He.
  - split; [done|]. split; [|split; [|done]].
    + intros b'. rewrite starts_app. simpl. lia.
    + rewrite starts_app. simpl. lia.
Qed.

Lemma poll_by {B} (m : M (svc D) B) (f : svc D → option Z) :
  preserves idle m → preserves idle (_ ← m; s ← get; mret (f s)).
Proof.
  intros Hm. apply preserves_bind; [exact idle_trans|done|]. intros _.
  apply preserves_bind; [exact idle_trans|apply preserves_get, idle_refl|]. intros s.
  apply preserves_ret, idle_refl.
Qed.

Lemma idle_own (f : svc D → D) : preserves idle (modify (λ s : svc D, (s.1, f s))).
Proof. apply preserves_modify. by intros [r d] h. Qed.

Lemma idle_ignore_call {A} c (f : trace → res A) (k : A → unit) :
  (∀ b, is_start b c = false) → preserves (idle (D := D)) (ignore (a ← call c f; mret (k a))).
Proof.
  intros Hc. apply preserves_ignore; [exact idle_refl|exact idle_trans|].
  apply preserves_bind; [exact idle_trans|by apply idle_call|]. intros a. apply preserves_ret, idle_refl.
Qed.
End laws.

Section docker_laws.
Context (cl : cloud) (cfg : Docker.DockerSettings).

Lemma docker_start_lawful : lawful_start (Docker.start_container cl cfg).
Proof.
  apply (start_of_call "docker" (λ _ b pid url job branch _, Docker.docker_run_kwargs cl cfg b pid url job branch)
    (λ kw _ _, cl_run_container cl kw) (λ _ b _ _ _ _ _ _ d, dict_set b None d)
    (λ b pid url job branch rc proc h, new_entry cl h b proc pid url job branch rc)). done.
Qed.

#[export] Instance docker_lawful : LawfulSpawner returncodes (Spawner0 := Docker.DockerWorkerSpawner cl cfg).
Proof.
  assert (∀ b old, preserves idle (Docker.docker_stop_old cl b old)) as Hstop.
  { intros b [e|]; [|apply preserves_ret, idle_refl]. cbn [Docker.docker_stop_old].
    assert (preserves (idle (D := returncodes)) (ignore (call (StopWorker (process e)) (cl_unit cl)))) as Hc.
    { apply preserves_ignore; [exact idle_refl|exact idle_trans|by apply idle_call]. }
    apply preserves_bind; [exact idle_trans|done|]. intros _.
    apply preserves_try; [exact idle_trans| |done].
    apply preserves_bind; [exact idle_trans|by apply idle_call|]. intros rc. apply (idle_own (λ s, dict_set b (Some rc) s.2)). }
  split.
  - intros. by apply spawn_with_requested, docker_start_lawful.
  - intros b pid url job branch s h e. by apply (restart_with_spends _ docker_start_lawful _ Hstop).
  - intros b pid url job branch b'. by apply (restart_with_own _ docker_start_lawful _ Hstop).
  - intros b proc. cbn [poll Docker.DockerWorkerSpawner]. apply poll_by. unfold Docker.docker_reload_status.
    apply preserves_bind; [exact idle_trans| |intros rc; apply (idle_own (λ s, dict_set b rc s.2))].
    apply preserves_try; [exact idle_trans| |intros e; apply preserves_ret, idle_refl].
    apply preserves_bind; [exact idle_trans|by apply idle_call|]. intros r.
    apply preserves_bind; [exact idle_trans|apply preserves_get, idle_refl|]. intros s.
    apply preserves_ret, idle_refl.
Qed.
End docker_laws.

Section ecs_laws.
Context (cl : cloud) (cfg : Ecs.EcsSettings).

Lemma ecs_start_lawful : lawful_start (Ecs.start_task cl cfg).
Proof.
  apply (start_of_call "ecs" (λ _ b pid url job branch _, Ecs.ecs_run_kwargs cl cfg b pid url job branch)
    (λ _ _ b h, resp ← cl_run_task cl h; Ecs.first_task b resp) (λ _ b _ _ _ _ _ _ d, dict_set b None d)
    (λ b pid url job branch rc proc h, new_entry cl h b proc pid url job branch rc)). done.
Qed.

#[export] Instance ecs_lawful : LawfulSpawner returncodes (Spawner0 := Ecs.EcsWorkerSpawner cl cfg).
Proof.
  assert (∀ b old, preserves idle (Ecs.ecs_stop_old cl b old)) as Hstop.
  { intros b [e|]; [|apply preserves_ret, idle_refl].
    apply preserves_ignore; [exact idle_refl|exact idle_trans|by apply idle_call]. }
  split.
  - intros. by apply spawn_with_requested, ecs_start_lawful.
  - intros b pid url job branch s h e. by apply (restart_with_spends _ ecs_start_lawful _ Hstop).
  - intros b pid url job branch b'. by apply (restart_with_own _ ecs_start_lawful _ Hstop).
  - intros b proc. cbn [poll Ecs.EcsWorkerSpawner]. apply poll_by. unfold Ecs.ecs_reload_status.
    apply preserves_bind; [exact idle_trans| |].
    + apply preserves_try; [exact idle_trans| |intros e; apply preserves_ret, idle_refl].
      apply preserves_bind; [exact idle_trans|by apply idle_call|]. intros r. apply preserves_ret, idle_refl.
    + intros [rc|]; [apply (idle_own (λ s, dict_set b (Some rc) s.2))|apply preserves_ret, idle_refl].
Qed.
End ecs_laws.

Section k8s_laws.
Context (cl : cloud) (cfg : K8s.K8sSettings).

Lemma k8s_start_lawful : lawful_start (K8s.start_job cl cfg).
Proof.
  pose proof (start_of_call (A := unit) "k8s"
    (λ n b pid url job branch rc, K8s.build_job cl cfg (k8s_job_name b rc) b pid url job branch n)
    (λ _ _ _ h, match cl_unit cl h with
              | Raise e => if bool_decide (cl_api_status cl e = Some 409%Z) then Ok tt else Raise e
              | r => r end)
    (λ n b pid url job branch rc _ d, dict_set b (K8s.mkProxy (k8s_job_name b rc) None "" 0) d)
    (λ b pid url job branch rc _ h, new_entry cl h b (k8s_job_name b rc) pid url job branch rc)
    (λ _ _ _ _ _ _ _ _, conj eq_refl eq_refl)) as Hl.
  intros n b pid url job branch rc s h. specialize (Hl n b pid url job branch rc s h). revert Hl.
  unfold K8s.start_job, K8s.set_proxy, call, try_, modify, observe, throw, mret, M_ret, mbind, M_bind,
    end_state, end_trace. destruct (cl_unit cl h) as [[]|e]; simpl; [done|].
  destruct (bool_decide (cl_api_status cl e = Some 409%Z)) eqn:E409; simpl; [|done]. intros _.
  split; [done|]. split; [|split; [|by intros e' [= <-]]].
  - intros b'. rewrite !starts_app. simpl. destruct (decide _); lia.
  - rewrite starts_app. simpl. lia.
Qed.

Lemma lookup_node_idle b p : preserves idle (K8s.lookup_node cl b p).
Proof.
  unfold K8s.lookup_node. destruct (_ || _); [apply preserves_ret, idle_refl|].
  apply preserves_bind; [exact idle_trans| |].
  - apply preserves_try; [exact idle_trans|by apply idle_call|]. intros e. apply preserves_ret, idle_refl.
  - intros pods. apply preserves_bind; [exact idle_trans|apply (idle_own (λ s, dict_set b _ s.2))|].
    intros _. apply preserves_ret, idle_refl.
Qed.

#[export] Instance k8s_lawful : LawfulSpawner K8s.proxies (Spawner0 := K8s.K8sJobSpawner cl cfg).
Proof.
  assert (∀ b p, preserves idle (K8s.set_proxy b p)) as Hset by (intros b p; apply (idle_own (λ s, dict_set b p s.2))).
  assert (∀ b old, preserves idle (K8s.before_restart cl b old)) as Hstop.
  { intros b [e|]; [|apply preserves_ret, idle_refl]. cbn [K8s.before_restart].
    apply preserves_bind; [exact idle_trans|apply preserves_get, idle_refl|]. intros s.
    destruct (dict_get b s.2) as [p|]; [|apply preserves_ret, idle_refl].
    apply preserves_bind; [exact idle_trans|apply lookup_node_idle|]. intros p'.
    apply preserves_bind; [exact idle_trans| |intros _; apply preserves_ret, idle_refl].
    apply preserves_ignore; [exact idle_refl|exact idle_trans|by apply idle_call]. }
  split.
  - intros. by apply spawn_with_requested, k8s_start_lawful.
  - intros b pid url job branch s h e. by apply (restart_with_spends _ k8s_start_lawful _ Hstop).
  - intros b pid url job branch b'. by apply (restart_with_own _ k8s_start_lawful _ Hstop).
  - intros b proc. cbn [poll K8s.K8sJobSpawner].
    apply preserves_bind; [exact idle_trans|apply preserves_get, idle_refl|]. intros s.
    destruct (dict_get b s.2) as [p|]; [|apply preserves_ret, idle_refl]. apply poll_by.
    unfold K8s.k8s_reload_status. apply preserves_bind; [exact idle_trans| |].
    + apply preserves_try; [exact idle_trans| |].
      * apply preserves_bind; [exact idle_trans|by apply idle_call|]. intros r. apply preserves_ret, idle_refl.
      * intros e. destruct (cl_api_status cl e) as [st|]; [|apply preserves_throw, idle_refl].
        assert (preserves (idle (D := K8s.proxies)) (mret (None : option (bool * bool)))) as Hn
          by apply preserves_ret, idle_refl.
        assert (∀ p', preserves idle (_ ← K8s.set_proxy b p'; mret (None : option (bool * bool)))) as Hsn.
        { intros p'. apply preserves_bind; [exact idle_trans|apply Hset|done]. }
        destruct st as [|st|]; [done| |done]. do 10 (destruct st; try done; try apply Hsn).
    + intros [[[] []]|]; try apply Hset; try apply preserves_ret, idle_refl.
      apply preserves_bind; [exact idle_trans|apply lookup_node_idle|]. intros _. apply preserves_ret, idle_refl.
Qed.
End k8s_laws.

(** ** A restart on Docker *)

(** Docker refuses to create a container with a name that is in use, and a stopped
    container keeps its name. *)
Definition names_unique (cl : cloud) : Prop := ∀ kw kw' b h,
  (CreateWorker "docker" b kw', true) ∈ h → dget "name" kw = dget "name" kw' →
  ∃ e, cl_run_container cl kw h = Raise e.

Lemma docker_stop_run cl b old (s : svc returncodes) h :
  ∃ d l, Docker.docker_stop_old cl b old s h = (Ok tt, ((s.1, d), h ++ l)) ∧ ∀ b', starts b' (h ++ l) = starts b' h.
Proof.
  assert (∀ c ok, (∀ b', is_start b' c = false) → ∀ h' b', starts b' (h' ++ [(c, ok)]) = starts b' h') as Hq.
  { intros c ok Hc h' b'. rewrite starts_app, Hc, andb_false_r. lia. }
  destruct old as [e|]; cbn [Docker.docker_stop_old].
  2:{ exists s.2, []. rewrite app_nil_r. by destruct s. }
  rewrite bind_run. unfold ignore at 1, try_, call, mbind, M_bind.
  destruct s as [r d].
  destruct (cl_unit cl h) as [[]|e0]; simpl;
    (destruct (cl_wait cl (h ++ _)) as [rc|e1]; simpl;
      [|unfold ignore, try_, call; destruct (cl_unit cl _) as [[]|e2]; simpl]);
    rewrite <- !app_assoc; (do 2 eexists; split; [done|]; intros b'; rewrite !app_assoc; rewrite !Hq by done; done).
Qed.

(** No worker that ran in a Docker container is ever restarted.  The container
    is named after the bug and only stopped, never removed, so with an engine that
    keeps names unique the restart raises: no container starts and the entry stays
    as it was, for the monitor to mark as failed. *)
Theorem docker_restart_refused (cl : cloud) (cfg : Docker.DockerSettings) (b pid url job branch : string)
    (pid0 url0 job0 branch0 : string) (s : svc returncodes) (h : trace) :
  names_unique cl →
  (CreateWorker "docker" b (Docker.docker_run_kwargs cl cfg b pid0 url0 job0 branch0), true) ∈ h →
  ∃ e d' h', restart (Spawner := Docker.DockerWorkerSpawner cl cfg) b pid url job branch s h =
               (Raise e, ((s.1, d'), h')) ∧
             ∀ b', starts b' h' = starts b' h.
Proof.
  intros Hu Hin. cbn [restart Docker.DockerWorkerSpawner]. unfold restart_with.
  rewrite bind_get_reg. cbv beta zeta. rewrite bind_run.
  destruct (docker_stop_run cl b (dict_get b s.1) s h) as (d & l & -> & Hl).
  rewrite bind_run. unfold Docker.start_container. rewrite bind_run. unfold call.
  set (kw := Docker.docker_run_kwargs _ _ _ _ _ _ _).
  destruct (Hu kw (Docker.docker_run_kwargs cl cfg b pid0 url0 job0 branch0) b (h ++ l)) as [e ->];
    [apply elem_of_app; by left|done|].
  exists e, d. eexists. split; [done|]. intros b'. rewrite starts_app. simpl. by rewrite Nat.add_0_r.
Qed.

(** ** A restart on Kubernetes *)

(** The node a job is steered to, read off the request. *)
Definition under (k : string) (v : pyval) : pyval := match v with PDict d => dget k d | _ => PNone end.
Definition affinity_of (spec : doc) : pyval :=
  under "affinity" (under "spec" (under "template" (under "spec" (PDict spec)))).

Definition node_hint (affinity : pyval) : option string :=
  let terms := under "node_affinity" affinity in
  let term :=
    match under "preferred_during_scheduling_ignored_during_execution" terms with
    | PList (t :: _) => under "preference" t
    | _ => match under "node_selector_terms" (under "required_during_scheduling_ignored_during_execution" terms) with
           | PList (t :: _) => t
           | _ => PNone
           end
    end in
  match under "match_expressions" term with
  | PList (e :: _) => match under "values" e with PList [PStr n] => Some n | _ => None end
  | _ => None
  end.

Lemma resume_affinity_node cl cfg n :
  node_hint (K8s.resume_affinity_spec cl cfg n) =
  if str_nonempty n && negb (bool_decide (K8s.resume_affinity cfg = "off")) && K8s.worker_resume_enabled cl
  then Some n else None.
Proof.
  unfold K8s.resume_affinity_spec. destruct (str_nonempty n), (bool_decide (_ = "off")), (K8s.worker_resume_enabled cl);
    try reflexivity. simpl. destruct (bool_decide (_ = "required")); reflexivity.
Qed.

(** The node an answer of the API names. *)
Definition answered_node (r : res (list (option string))) : string :=
  match r with Ok pods => default "" (head (K8s.named_nodes pods)) | Raise _ => "" end.

(** A lookup asks when the node is not known and the limit is not reached. *)
Definition asks (p : K8s.proxy) : bool :=
  negb (str_nonempty (K8s.node_name p)) && (K8s.node_lookups p <? K8s.MAX_NODE_LOOKUPS)%nat.

Lemma lookup_node_run cl b p (s : svc K8s.proxies) h :
  ∃ p' s', K8s.lookup_node cl b p s h =
      (Ok p', (s', h ++ if asks p then [(PollWorker ("job-name=" +:+ K8s.job_name p), is_ok (cl_pods cl h))] else [])) ∧
    s'.1 = s.1 ∧ K8s.job_name p' = K8s.job_name p ∧
    K8s.node_name p' = if asks p then answered_node (cl_pods cl h) else K8s.node_name p.
Proof.
  unfold K8s.lookup_node, asks. destruct (str_nonempty (K8s.node_name p)) eqn:En; cbn [orb negb andb].
  { exists p, s. by rewrite app_nil_r. }
  assert (K8s.node_name p = "") as En' by (by destruct (K8s.node_name p)).
  rewrite Nat.ltb_antisym. destruct (_ <=? _)%nat; cbn [negb].
  { exists p, s. by rewrite app_nil_r. }
  rewrite bind_run. unfold try_, call, K8s.set_proxy, modify, mbind, M_bind.
  destruct (cl_pods cl h) as [pods|ex]; simpl; [destruct (K8s.named_nodes pods) as [|n ns]|]; by do 2 eexists.
Qed.

(** A restarted Kubernetes worker is sent back to the node of its predecessor.
    The restart reads the node first, asking the API only when it is not known
    yet and the lookups are not used up, then deletes the old job, then asks for
    the new one; and the new job is steered to the node if there is one, resuming
    is on and the operator has not turned the steering off, and only then. *)
Theorem k8s_restart_returns (cl : cloud) (cfg : K8s.K8sSettings) (b pid url job branch : string)
    (s : svc K8s.proxies) (h : trace) (e : WorkerEntry) (p : K8s.proxy) :
  dict_get b s.1 = Some e → dict_get b s.2 = Some p →
  let node := if asks p then answered_node (cl_pods cl h) else K8s.node_name p in
  let asked := if asks p then [(PollWorker ("job-name=" +:+ K8s.job_name p), is_ok (cl_pods cl h))] else [] in
  ∃ deleted spec ok,
    end_trace (restart (Spawner := K8s.K8sJobSpawner cl cfg) b pid url job branch s h) =
      h ++ asked ++ [(StopWorker (K8s.job_name p), deleted); (CreateWorker "k8s" b spec, ok)] ∧
    node_hint (affinity_of spec) =
      if str_nonempty node && negb (bool_decide (K8s.resume_affinity cfg = "off")) && K8s.worker_resume_enabled cl
      then Some node else None.
Proof.
  intros He Hp node asked. cbn [restart K8s.K8sJobSpawner]. unfold restart_with.
  rewrite bind_get_reg. cbv beta zeta. rewrite He, bind_run. cbn [K8s.before_restart].
  rewrite bind_run. change (get s h) with (@Ok (svc K8s.proxies) s, (s, h)). cbv beta iota.
  destruct s as [r d]. cbn [fst snd] in *. rewrite Hp.
  rewrite bind_run. destruct (lookup_node_run cl b p (r, d) h) as (p' & s' & -> & _ & Hj & Hn).
  change (if asks p then [_] else []) with asked. change (if asks p then _ else _) with node in Hn.
  rewrite bind_run. unfold ignore, try_, call. rewrite Hj.
  set (spec := K8s.build_job cl cfg (k8s_job_name b (S (restart_count e))) b pid url job branch node).
  set (h1 := (h ++ asked) ++ [(StopWorker (K8s.job_name p), is_ok (cl_unit cl (h ++ asked)))]).
  exists (is_ok (cl_unit cl (h ++ asked))), spec, (is_ok (cl_unit cl h1)).
  split; [|apply resume_affinity_node].
  assert (∀ s2, end_trace ((entry ← K8s.start_job cl cfg node b pid url job branch (S (restart_count e));
             mod_reg (register entry)) s2 h1) = h1 ++ [(CreateWorker "k8s" b spec, is_ok (cl_unit cl h1))]) as Hstart.
  { intros s2. rewrite bind_run. unfold K8s.start_job. rewrite bind_run. unfold try_ at 1. rewrite bind_run.
    unfold call. fold spec. destruct (cl_unit cl h1) as [[]|ex]; [done|]. cbv beta iota.
    by destruct (bool_decide _). }
  replace (h ++ asked ++ _) with (h1 ++ [(CreateWorker "k8s" b spec, is_ok (cl_unit cl h1))])
    by (unfold h1; rewrite <- !app_assoc; done).
  subst h1. destruct (cl_unit cl (h ++ asked)) as [[]|ex] eqn:Ed; cbn [is_ok] in *;
    rewrite ?Hn; apply Hstart.
Qed.

(** ** Samples *)

Definition no_cloud : cloud :=
  mkCloud (λ _, 0%Q) [("BF_STEP_CHECKPOINT", "file")] (λ _ _, Ok "c1") (λ _, Ok ("running", None)) (λ _, Ok 0%Z)
    (λ _, Ok tt) (λ _, Ok []) (λ _, Ok []) (λ _, Ok (false, false)) (λ _, Ok [None; Some "node-7"]) (λ _, None).

(** An engine that keeps the names of its containers unique. *)
Definition name_taken (kw : doc) (x : cmd * bool) : bool :=
  match x with
  | (CreateWorker "docker" _ kw', true) => bool_decide (dget "name" kw = dget "name" kw')
  | _ => false
  end.

Definition docker_cloud : cloud :=
  mkCloud (λ _, 0%Q) []
    (λ kw h, if existsb (name_taken kw) h then Raise (Exn "APIError" "409 Conflict") else Ok "c1")
    (λ _, Ok ("running", None)) (λ _, Ok 0%Z) (λ _, Ok tt) (λ _, Ok []) (λ _, Ok []) (λ _, Ok (false, false))
    (λ _, Ok []) (λ _, None).

Lemma docker_cloud_unique : names_unique docker_cloud.
Proof.
  intros kw kw' b h Hin Heq. exists (Exn "APIError" "409 Conflict"). simpl.
  replace (existsb (name_taken kw) h) with true; [done|]. symmetry. apply existsb_exists.
  eexists. split; [by apply list_elem_of_In|]. simpl. by apply bool_decide_eq_true_2.
Qed.

Definition docker_settings : Docker.DockerSettings := Docker.mkDockerSettings "redis://r" "worker:1" "net" "" "prod".

Definition old_worker (proc : string) : WorkerEntry :=
  mkEntry "BUG-1" proc "1" "http://gl/p" "9" "" 0 15 0 running None.

Lemma docker_restart_refused_witness :
  ∃ e d' h', restart (Spawner := Docker.DockerWorkerSpawner docker_cloud docker_settings)
               "BUG-1" "1" "http://gl/p" "9" "" ([("BUG-1", old_worker "c1")], [])
               [(CreateWorker "docker" "BUG-1"
                   (Docker.docker_run_kwargs docker_cloud docker_settings "BUG-1" "1" "http://gl/p" "9" ""), true)] =
             (Raise e, (([("BUG-1", old_worker "c1")], d'), h')) ∧
             ∀ b', starts b' h' = starts b' [(CreateWorker "docker" "BUG-1"
                   (Docker.docker_run_kwargs docker_cloud docker_settings "BUG-1" "1" "http://gl/p" "9" ""), true)].
Proof.
  apply (docker_restart_refused docker_cloud docker_settings "BUG-1" "1" "http://gl/p" "9" "" "1" "http://gl/p" "9" ""
    ([("BUG-1", old_worker "c1")], [])).
  - exact docker_cloud_unique.
  - apply list_elem_of_singleton. reflexivity.
Defined.

Definition k8s_raw : K8s.raw_settings :=
  K8s.mkRaw "redis://r" "worker:1" "harness" "worker-config" "worker-secret" 600 [] "/journal" " 500m " "4Gi" "" "" ""
    "" "" "" "" "".

Definition k8s_settings : K8s.K8sSettings :=
  K8s.mkK8sSettings k8s_raw [("cpu", "500m"); ("memory", "4Gi")] [] PNone [] "preferred".

(** A quantity is stripped before it is checked. *)
Example init_sample `{FloatParse} : K8s.init k8s_raw = Ok k8s_settings.
Proof. vm_compute. reflexivity. Qed.

Example init_refuses `{FloatParse} :
  K8s.quantities "limit" [("cpu", ""); ("memory", "4 GB")] =
  Raise (value_error "worker memory limit '4 GB' is not a valid k8s quantity (e.g. '3', '500m', '4Gi')").
Proof. vm_compute. reflexivity. Qed.

Example toleration_sample :
  K8s.toleration [("key", PStr "pool"); ("tolerationSeconds", PInt 30); ("colour", PStr "red")] =
  PDict [("key", PStr "pool"); ("toleration_seconds", PInt 30)].
Proof. vm_compute. reflexivity. Qed.

Lemma k8s_restart_returns_witness :
  ∃ deleted spec ok,
    end_trace (restart (Spawner := K8s.K8sJobSpawner no_cloud k8s_settings) "BUG-1" "1" "http://gl/p" "9" ""
                 ([("BUG-1", old_worker "bf-bug-1")], [("BUG-1", K8s.mkProxy "bf-bug-1" None "" 3)]) []) =
      [(PollWorker "job-name=bf-bug-1", true); (StopWorker "bf-bug-1", deleted); (CreateWorker "k8s" "BUG-1" spec, ok)] ∧
    node_hint (affinity_of spec) = Some "node-7".
Proof.
  apply (k8s_restart_returns no_cloud k8s_settings "BUG-1" "1" "http://gl/p" "9" ""
    ([("BUG-1", old_worker "bf-bug-1")], [("BUG-1", K8s.mkProxy "bf-bug-1" None "" 3)]) []
    (old_worker "bf-bug-1") (K8s.mkProxy "bf-bug-1" None "" 3)); reflexivity.
Defined.

End Spawners.
