(* ===== verification/Sha256.v ===== *)
(** * SHA-256

    The digest the gateway keys its cache with ([hashlib.sha256]), as FIPS 180-4
    defines it: bytes are characters, words are [Z] modulo 2^32. *)

From S2P Require Import Prelude PyStr.
Local Open Scope Z_scope.
Local Open Scope list_scope.

Module Sha256.

Definition wmask : Z := 2 ^ 32 - 1.
Definition wadd (a b : Z) : Z := Z.land (a + b) wmask.
Definition wnot (a : Z) : Z := Z.lxor a wmask.
Definition rotr (n x : Z) : Z :=
  Z.lor (Z.shiftr x n) (Z.land (Z.shiftl x (32 - n)) wmask).

Definition big_sigma0 x := Z.lxor (rotr 2 x) (Z.lxor (rotr 13 x) (rotr 22 x)).
Definition big_sigma1 x := Z.lxor (rotr 6 x) (Z.lxor (rotr 11 x) (rotr 25 x)).
Definition sigma0 x := Z.lxor (rotr 7 x) (Z.lxor (rotr 18 x) (Z.shiftr x 3)).
Definition sigma1 x := Z.lxor (rotr 17 x) (Z.lxor (rotr 19 x) (Z.shiftr x 10)).
Definition ch x y z := Z.lxor (Z.land x y) (Z.land (wnot x) z).
Definition maj x y z := Z.lxor (Z.land x y) (Z.lxor (Z.land x z) (Z.land y z)).

(** The constants are what FIPS 180-4 derives them from: the first 32 bits of the
    fractional parts of the cube roots of the first 64 primes, and of the square
    roots of the first eight. *)
Definition is_prime (n : nat) : bool :=
  forallb (fun d => negb (n mod d =? 0)%nat) (seq 2 (n - 2)).

Definition primes_below (n : nat) : list Z :=
  map Z.of_nat (List.filter is_prime (seq 2 (n - 2))).

(** The integer cube root, one bit at a time from bit [bits] down. *)
Fixpoint cube_root (bits : nat) (n acc : Z) : Z :=
  let acc' := acc + 2 ^ Z.of_nat bits in
  let best := if acc' ^ 3 <=? n then acc' else acc in
  match bits with
  | O => best
  | S bits' => cube_root bits' n best
  end.

Definition round_constants : list Z :=
  Eval vm_compute in
  map (fun p => Z.land (cube_root 36 (p * 2 ^ 96) 0) wmask) (primes_below 312).

Definition initial_hash : list Z :=
  Eval vm_compute in
  map (fun p => Z.land (Z.sqrt (p * 2 ^ 64)) wmask) (primes_below 20).

Fixpoint to_bytes (s : string) : list Z :=
  match s with
  | EmptyString => []
  | String c s' => Z.of_N (code c) :: to_bytes s'
  end.

(** [n] bytes of [z], the most significant first. *)
Fixpoint be_bytes (n : nat) (z : Z) : list Z :=
  match n with
  | O => []
  | S n' => Z.land (Z.shiftr z (8 * Z.of_nat n')) 255 :: be_bytes n' z
  end.

Definition pad (m : list Z) : list Z :=
  let len := Z.of_nat (List.length m) in
  m ++ 128 :: List.repeat 0 (Z.to_nat ((55 - len) mod 64)) ++ be_bytes 8 (8 * len).

Fixpoint words (l : list Z) : list Z :=
  match l with
  | a :: b :: c :: d :: l' => (((a * 256 + b) * 256 + c) * 256 + d) :: words l'
  | _ => []
  end.

(** Sixteen words at a time. *)
Fixpoint blocks (fuel : nat) (l : list Z) : list (list Z) :=
  match fuel, l with
  | S fuel', _ :: _ => firstn 16 l :: blocks fuel' (skipn 16 l)
  | _, _ => []
  end.

(** The message schedule, the latest word first. *)
Fixpoint extend (n : nat) (w : list Z) : list Z :=
  match n with
  | O => w
  | S n' =>
      let at_ i := nth i w 0 in
      extend n' (wadd (wadd (sigma1 (at_ 1%nat)) (at_ 6%nat)) (wadd (sigma0 (at_ 14%nat)) (at_ 15%nat)) :: w)
  end.

Definition schedule (block : list Z) : list Z := rev (extend 48 (rev block)).

Definition round (h : list Z) (kw : Z * Z) : list Z :=
  match h with
  | [a; b; c; d; e; f; g; h] =>
      let t1 := wadd (wadd h (big_sigma1 e)) (wadd (ch e f g) (wadd kw.1 kw.2)) in
      let t2 := wadd (big_sigma0 a) (maj a b c) in
      [wadd t1 t2; a; b; c; wadd d t1; e; f; g]
  | _ => h
  end.

Definition compress (h block : list Z) : list Z :=
  zip_with wadd h (fold_left round (combine round_constants (schedule block)) h).

Definition digest (m : list Z) : list Z :=
  let ws := words (pad m) in
  flat_map (be_bytes 4) (fold_left compress (blocks (List.length ws) ws) initial_hash).

Fixpoint hex (l : list Z) : string :=
  match l with
  | [] => EmptyString
  | b :: l' => String (hex_digit (Z.to_N (b / 16))) (String (hex_digit (Z.to_N (b mod 16))) (hex l'))
  end.

(** [hashlib.sha256(s).hexdigest()] *)
Definition sha256_hex (s : string) : string := hex (digest (to_bytes s)).

Lemma be_bytes_range n z : Forall (λ b, 0 <= b < 256) (be_bytes n z).
Proof.
  induction n as [|n IH]; simpl; constructor; [|done].
  change 255 with (Z.ones 8). rewrite Z.land_ones by lia. apply Z.mod_pos_bound. lia.
Qed.

Lemma hex_digit_lower n : (n < 16)%N → is_hex_lower (hex_digit n) = true.
Proof.
  intros Hn. unfold hex_digit, is_hex_lower, is_digit, in_range, code.
  destruct (N.ltb_spec n 10); rewrite N_ascii_embedding by lia; apply orb_true_iff; [left|right];
    apply andb_true_iff; split; apply N.leb_le; lia.
Qed.

Lemma hex_lower l : Forall (λ b, 0 <= b < 256) l → str_forallb is_hex_lower (hex l) = true.
Proof.
  induction 1 as [|b l Hb _ IH]; [done|]. simpl.
  assert (0 <= b / 16 < 16 ∧ 0 <= b mod 16 < 16) as [H1 H2].
  { split; [split; [apply Z.div_pos; lia|apply Z.div_lt_upper_bound; lia]|apply Z.mod_pos_bound; lia]. }
  rewrite !hex_digit_lower, IH by lia. done.
Qed.

(** A digest is lower-case hexadecimal. *)
Lemma sha256_hex_lower s : str_forallb is_hex_lower (sha256_hex s) = true.
Proof.
  apply hex_lower. unfold digest. induction (fold_left _ _ _) as [|x l IH]; [constructor|].
  change (flat_map (be_bytes 4) (x :: l)) with (be_bytes 4 x ++ flat_map (be_bytes 4) l).
  apply Forall_app. split; [apply be_bytes_range|done].
Qed.

Example sha256_abc :
  sha256_hex "abc" = "ba7816bf8f01cfea414140de5dae2223b00361a396177a9cb410ff61f20015ad"%string.
Proof. vm_compute. reflexivity. Qed.

Example sha256_two_blocks :
  sha256_hex "abcdbcdecdefdefgefghfghighijhijkijkljklmklmnlmnomnopnopq" =
  "248d6a61d20638b8e5c026930c3e6039a33ce45964ff2167f6ecedd419db06c1"%string.
Proof. vm_compute. reflexivity. Qed.

End Sha256.
