(* ===== verification/StepCheckpoint.v ===== *)
(** * Step checkpoints

    Model of [bf_worker/services/step_checkpoint.py]: the store of small JSON
    documents that lets an interrupted agent loop continue, its interface, the
    store that keeps nothing, and the store of one directory per run.  A file
    system is a finite map from (directory, file) below the store's root to
    contents; that a disk may be full is not modelled. *)

From S2P Require Import Prelude PyStr PyJson PyJsonLoads Regex Sha256.
From Stdlib Require Import Lqa.
Local Open Scope string_scope.
Local Open Scope Z_scope.
Local Open Scope list_scope.

Module StepCheckpoint.
Import Sha256.

Definition doc := list (string * pyval).

Definition SCHEMA : Z := 1.
Definition DEFAULT_TTL_S : Z := 14400.
Definition UNSAFE : re := Eval vm_compute in rx no_flags "[^A-Za-z0-9._-]".

Definition fingerprint_opts : json_opts := mkJsonOpts true ", " ": " false.

Definition run_fingerprint `{FloatRepr} (parts : doc) : string :=
  sha256_hex (json_dumps fingerprint_opts (PDict parts)).

(** ** The interface

    [load], [save] and [purge_run] act on the store; the clock is passed in. *)

Class Store (S : Type) := {
  enabled : bool;
  load : Q → string → string → S → res (option doc) * S;
  save : Q → string → string → doc → S → res unit * S;
  purge_run : string → S → S;
  names : string → S → list string
}.

(** A document name that needs no sanitising. *)
Definition plain_char (c : ascii) : bool :=
  is_alnum c || mem c ["."; "_"; "-"]%char.
Definition plain_name (n : string) : Prop := str_forallb plain_char n = true.

(** What a client of an enabled store relies on.  [fresh t t'] says that a record
    written at [t] has not expired at [t']. *)
Class LawfulStore (S : Type) `{!Store S} (fresh : Q → Q → Prop) (storable : Q → doc → Prop) := {
  load_save : ∀ t t' k n d s s', save t k n d s = (Ok tt, s') → storable t d → fresh t t' →
    ∃ d', load t' k n s' = (Ok (Some d'), s') ∧
      ∀ f, f ≠ "schema" → f ≠ "updated_at" → dict_get f d' = dict_get f d;
  save_total : ∀ t k n d s, storable t d → ∃ s', save t k n d s = (Ok tt, s');
  load_save_ne : ∀ t t' k n n' d s s', save t k n d s = (Ok tt, s') → plain_name n → plain_name n' →
    n ≠ n' → (load t' k n' s').1 = (load t' k n' s).1;
  load_purge : ∀ t k n s, load t k n (purge_run k s) = (Ok None, purge_run k s);
  load_named : ∀ t k n s d s', load t k n s = (Ok (Some d), s') → plain_name n →
    n ∈ names k s ∧ s' = s;
  load_pure : (∀ t t', fresh t t') → ∀ t k n s, (load t k n s).2 = s
}.

(** ** The store that keeps nothing *)

#[export] Instance NoopStore : Store unit := {
  enabled := false;
  load := λ _ _ _ s, (Ok None, s);
  save := λ _ _ _ _ s, (Ok tt, s);
  purge_run := λ _ s, s;
  names := λ _ _, []
}.

(** ** The store of files *)

Notation fs := (gmap (string * string) string).

Section files.
Context `{FloatRepr, FloatParse} (ttl_s : Z).

Definition safe_ (run_key : string) : string :=
  let safe := str_take 120 (re_sub UNSAFE [PLit "_"] run_key) in
  let safe := if bool_decide (safe = run_key) then safe
              else safe +:+ "-" +:+ str_take 8 (sha256_hex run_key) in
  if str_nonempty safe then safe else "unnamed".

Definition path_ (run_key name : string) : string * string :=
  (safe_ run_key, re_sub UNSAFE [PLit "_"] name +:+ ".json").

Definition file_purge_run (run_key : string) (s : fs) : fs :=
  filter (λ e, e.1.1 ≠ safe_ run_key) s.

(** [v == 1] *)
Definition is_schema (v : pyval) : bool :=
  match v with
  | PInt z => (z =? SCHEMA)%Z
  | PBool b => b
  | PFloat q => Qeq_bool q (inject_Z SCHEMA)
  | _ => false
  end.

Definition file_load (now : Q) (run_key name : string) (s : fs) : res (option doc) * fs :=
  match s !! path_ run_key name with
  | None => (Ok None, s)
  | Some text =>
      match json_loads text with
      | None => (Ok None, s)
      | Some (PDict d) =>
          if negb (is_schema (dget "schema" d)) then (Ok None, s)
          else
            match py_float (py_or (dget "updated_at" d) (PInt 0)) with
            | Raise e => (Raise e, s)
            | Ok updated =>
                if (0 <? ttl_s) && negb (Qle_bool (now - updated)%Q (inject_Z ttl_s))
                then (Ok None, file_purge_run run_key s)
                else (Ok (Some d), s)
            end
      | Some v => (Raise (attribute_error
          ("'" +:+ type_name v +:+ "' object has no attribute 'get'")), s)
      end
  end.

Definition file_save (now : Q) (run_key name : string) (d : doc) (s : fs) : res unit * fs :=
  let payload := dict_set "updated_at" (PFloat now) (dict_set "schema" (PInt SCHEMA) d) in
  let blob := json_dumps (mkJsonOpts false ", " ": " false) (PDict payload) in
  let '(dir, file) := path_ run_key name in
  let tmp := (dir, file +:+ ".tmp") in
  (Ok tt, delete tmp (<[(dir, file) := blob]> s)).

Definition file_names (run_key : string) (s : fs) : list string :=
  let stem f := str_take (String.length f - 5) f in
  sort_by id
    (map stem (List.filter (endswith ".json")
       (map (λ e, e.1.2) (List.filter (λ e, bool_decide (e.1.1 = safe_ run_key)) (map_to_list s))))).

#[export] Instance FileStore : Store fs := {
  enabled := true;
  load := file_load;
  save := file_save;
  purge_run := file_purge_run;
  names := file_names
}.
End files.

(** ** Configuration *)

Definition StepCheckpointError (m : string) : exn := Exn "StepCheckpointError" m.

Inductive backend := NoBackend | FileBackend (root : string) (ttl_s : Z).

Definition env := list (string * string).

(** [os.environ.get(k) or d] *)
Definition getenv_or (e : env) (k d : string) : string :=
  match dict_get k e with
  | Some (String _ _ as v) => v
  | _ => d
  end.

Definition default_dir (e : env) (expanduser : string) : string :=
  match getenv_or e "BF_STEP_CHECKPOINT_DIR" "" with
  | EmptyString => getenv_or e "HOME" expanduser +:+ "/.sdlcma/step_checkpoints"
  | override => override
  end.

(** [writable] is the outcome of the probe below the root. *)
Definition build_step_checkpoint_store (e : env) (expanduser : string)
    (writable : string → res unit) (arg : option string) : res backend :=
  let chosen := match arg with
                | Some (String _ _ as a) => a
                | _ => getenv_or e "BF_STEP_CHECKPOINT" "none"
                end in
  let b := str_lower (str_strip chosen) in
  if bool_decide (b = "none") then Ok NoBackend
  else if bool_decide (b = "file") then
    match (match getenv_or e "BF_STEP_CHECKPOINT_TTL_S" "" with
           | EmptyString => Some DEFAULT_TTL_S
           | t => str_int t
           end) with
    | None => Raise (StepCheckpointError
        ("BF_STEP_CHECKPOINT_TTL_S=" +:+ repr_str (getenv_or e "BF_STEP_CHECKPOINT_TTL_S" "") +:+
         " " +:+ "is not an integer"))
    | Some ttl =>
        let root := default_dir e expanduser in
        match writable root with
        | Raise exc => Raise (StepCheckpointError
            ("BF_STEP_CHECKPOINT=file but " +:+ root +:+ " is not writable (" +:+ exn_msg exc +:+ ")"))
        | Ok _ => Ok (FileBackend root ttl)
        end
    end
  else if bool_decide (b = "redis") then
    Raise (StepCheckpointError
      ("BF_STEP_CHECKPOINT=redis will not be implemented (decided in plan item " +:+
       "W4). A redis-backed record is readable from any node, but the eval " +:+
       "container it points at is not: it lives on one node's dockerd. So the " +:+
       "backend would only make a replacement worker on another node believe it " +:+
       "can resume, find no container, and purge — an ability that does not " +:+
       "exist, plus more traffic through the hardest branch to get right. On k8s " +:+
       "the answer is 'file' on a node-local hostPath (K8S_WORKER_STEP_CHECKPOINT" +:+
       "_HOST_PATH) plus soft node affinity on restart, so 'record readable' and " +:+
       "'container attachable' stay true together. Use 'file'."))
  else
    Raise (StepCheckpointError
      ("unknown BF_STEP_CHECKPOINT=" +:+ repr_str b +:+ " (expected one of: none, file)")).

(** Drops a finished run's records and never raises. *)
Definition purge_run_records (built : res backend) (run_key : string) (s : fs) : fs :=
  if str_nonempty run_key then
    match built with
    | Ok (FileBackend _ _) => file_purge_run run_key s
    | _ => s
    end
  else s.

(** ** Reasoning *)

Section laws.
Context `{FloatRepr, FloatParse} (ttl_s : Z).

(** A document whose payload survives JSON. *)
Definition storable (t : Q) (d : doc) : Prop :=
  json_ok (PDict (dict_set "updated_at" (PFloat t) (dict_set "schema" (PInt SCHEMA) d))).

Definition fresh (t t' : Q) : Prop := 0 < ttl_s → (t' - t <= inject_Z ttl_s)%Q.

Lemma sub_plain s : str_forallb plain_char s = true → re_sub UNSAFE [PLit "_"] s = s.
Proof.
  intros Hs. unfold UNSAFE. apply re_sub_set_id. revert Hs. apply str_forallb_impl.
  intros [[] [] [] [] [] [] [] []]; vm_compute; done.
Qed.

(** The last character tells a document from its temporary file. *)
Lemma tmp_file_ne a b : a +:+ ".json" ≠ (b +:+ ".json") +:+ ".tmp".
Proof.
  intros E. apply (f_equal str_final) in E.
  change (a +:+ ".json") with (a +:+ (".jso" +:+ "n")) in E.
  change ((b +:+ ".json") +:+ ".tmp") with ((b +:+ ".json") +:+ (".tm" +:+ "p")) in E.
  rewrite !(str_app_assoc _ _ (String _ EmptyString)), !str_final_app in E. done.
Qed.

Lemma file_load_lookup t k n s s' :
  s !! path_ k n = s' !! path_ k n → (file_load ttl_s t k n s).1 = (file_load ttl_s t k n s').1.
Proof. intros E. unfold file_load. rewrite E. by repeat case_match. Qed.

Lemma path_ne k n n' : plain_name n → plain_name n' → n ≠ n' → path_ k n ≠ path_ k n'.
Proof.
  intros Hn Hn' Hne. unfold path_. rewrite !sub_plain by done. intros [= E].
  by apply str_app_inj_r in E.
Qed.

Lemma file_save_run t k n d s :
  file_save t k n d s =
  (Ok tt, delete ((path_ k n).1, (path_ k n).2 +:+ ".tmp")
            (<[path_ k n := json_dumps (mkJsonOpts false ", " ": " false)
                 (PDict (dict_set "updated_at" (PFloat t) (dict_set "schema" (PInt SCHEMA) d)))]> s)).
Proof. done. Qed.

Lemma saved_lookup t k n d s s' :
  file_save t k n d s = (Ok tt, s') →
  s' !! path_ k n = Some (json_dumps (mkJsonOpts false ", " ": " false)
    (PDict (dict_set "updated_at" (PFloat t) (dict_set "schema" (PInt SCHEMA) d)))).
Proof.
  rewrite file_save_run. intros E. assert (s' = _) as -> by (injection E as E; symmetry; exact E). clear E.
  rewrite lookup_delete_ne, lookup_insert_eq; [done|].
  unfold path_. simpl. intros [= E]. symmetry in E. by apply tmp_file_ne in E.
Qed.

Lemma saved_lookup_ne t k n n' d s s' :
  file_save t k n d s = (Ok tt, s') → plain_name n → plain_name n' → n ≠ n' →
  s' !! path_ k n' = s !! path_ k n'.
Proof.
  rewrite file_save_run. intros E Hn Hn' Hne. assert (s' = _) as -> by (injection E as E; symmetry; exact E). clear E.
  rewrite lookup_delete_ne.
  - rewrite lookup_insert_ne; [done|]. by apply path_ne.
  - unfold path_. simpl. intros [= E]. symmetry in E. by apply tmp_file_ne in E.
Qed.

Lemma saved_loads t t' k n d s s' :
  file_save t k n d s = (Ok tt, s') → storable t d → fresh t t' →
  file_load ttl_s t' k n s' =
  (Ok (Some (dict_set "updated_at" (PFloat t) (dict_set "schema" (PInt SCHEMA) d))), s').
Proof.
  intros Hs Hd Hf. unfold file_load. rewrite (saved_lookup _ _ _ _ _ _ Hs).
  assert (plain_seps (mkJsonOpts false ", " ": " false)) as Hseps by (split; by right).
  rewrite (json_loads_dumps _ Hseps _ Hd), canon_unsorted by done.
  unfold dget. rewrite (dict_get_set_ne "updated_at" "schema"), !dict_get_set_eq by done. simpl.
  assert (∃ u, py_float (py_or (PFloat t) (PInt 0)) = Ok u ∧ (u == t)%Q) as (u & -> & Hut).
  { unfold py_or. simpl. destruct (Qeq_bool t 0) eqn:E; simpl; [|by exists t].
    exists 0%Q. split; [done|]. symmetry. by apply Qeq_bool_iff. }
  destruct (0 <? ttl_s) eqn:Ettl; [|done]. simpl.
  assert (Qle_bool (t' - u) (inject_Z ttl_s) = true) as ->; [|done].
  apply Qle_bool_iff. rewrite Hut. apply Hf. by apply Z.ltb_lt.
Qed.

Lemma file_load_state t k n s d s' : file_load ttl_s t k n s = (Ok (Some d), s') →
  s' = s ∧ is_Some (s !! path_ k n).
Proof.
  unfold file_load. destruct (s !! path_ k n); [|done]. repeat case_match; try done.
  intros [= _ <-]. done.
Qed.

Lemma named k n s : plain_name n → is_Some (s !! path_ k n) → n ∈ file_names k s.
Proof.
  intros Hn [text Ht]. unfold file_names. rewrite sort_by_perm.
  apply list_elem_of_fmap. exists (n +:+ ".json"). split.
  { rewrite str_length_app. simpl. replace (String.length n + 5 - 5)%nat with (String.length n) by lia.
    by rewrite str_take_app. }
  apply list_elem_of_In, filter_In. split.
  2:{ unfold endswith. rewrite str_length_app. change (String.length ".json") with 5%nat.
      apply andb_true_iff. split.
      - apply Nat.leb_le. lia.
      - apply bool_decide_eq_true.
        replace (String.length n + 5 - 5)%nat with (String.length n) by lia. apply str_drop_app. }
  apply list_elem_of_In, list_elem_of_fmap. exists (path_ k n, text). split.
  { unfold path_. simpl. by rewrite sub_plain. }
  apply list_elem_of_In, filter_In. split; [|by apply bool_decide_eq_true].
  by apply list_elem_of_In, elem_of_map_to_list.
Qed.

#[export] Instance file_store_lawful : LawfulStore fs (Store0 := FileStore ttl_s) fresh storable.
Proof.
  split.
  - intros t t' k n d s s' Hs Hd Hf. eexists. split; [exact (saved_loads t t' k n d s s' Hs Hd Hf)|].
    intros f H1 H2. by rewrite !dict_get_set_ne.
  - intros t k n d s _. by eexists.
  - intros t t' k n n' d s s' Hs Hn Hn' Hne. apply file_load_lookup.
    exact (saved_lookup_ne t k n n' d s s' Hs Hn Hn' Hne).
  - intros t k n s. simpl. unfold file_load.
    assert (file_purge_run k s !! path_ k n = None) as ->; [|done].
    apply map_lookup_filter_None. right. intros x _ Hx. by apply Hx.
  - intros t k n s d s' [-> Hs]%file_load_state Hn. split; [by apply named|done].
  - intros Hf t k n s. simpl. unfold file_load. destruct (s !! path_ k n); [|done].
    repeat case_match; try done.
    match goal with E : _ && _ = true |- _ => apply andb_true_iff in E as [Ettl%Z.ltb_lt _] end.
    pose proof (Hf 0%Q (inject_Z (ttl_s + 1)) Ettl) as Hle. exfalso.
    rewrite inject_Z_plus in Hle. change (inject_Z 1) with 1%Q in Hle. lra.
Qed.
End laws.

(** ** Properties *)

(** A run key that needs neither sanitising nor cutting: bug ids and instance ids
    are such. *)
Definition plain_key (k : string) : Prop :=
  plain_name k ∧ (String.length k ≤ 120)%nat ∧ k ≠ "".

Lemma safe_plain k : plain_key k → safe_ k = k.
Proof.
  intros (Hp & Hl & Hne). unfold safe_. rewrite sub_plain by done.
  rewrite str_take_short, bool_decide_eq_true_2 by done. by destruct k.
Qed.

Lemma path_dir_ne k k' n n' : safe_ k ≠ safe_ k' → path_ k n ≠ path_ k' n'.
Proof. unfold path_. congruence. Qed.

(** C37: the file store keeps its contract towards one run and isolates it from the
    others.  A saved document is read back, within its time to live, with every
    field it was saved with; and for two runs with different plain keys, saving or
    purging one changes nothing that is loaded for the other. *)
Theorem records_kept_and_isolated `{FloatRepr, FloatParse} (ttl_s : Z) (t t' : Q)
    (k k' n n' : string) (d : doc) (s : fs) :
  storable t d → fresh ttl_s t t' → plain_key k → plain_key k' → k ≠ k' →
  let s' := (file_save t k n d s).2 in
  (∃ d', file_load ttl_s t' k n s' = (Ok (Some d'), s') ∧
     ∀ f, f ≠ "schema" → f ≠ "updated_at" → dict_get f d' = dict_get f d) ∧
  (file_load ttl_s t' k' n' s').1 = (file_load ttl_s t' k' n' s).1 ∧
  (file_load ttl_s t' k' n' (file_purge_run k s)).1 = (file_load ttl_s t' k' n' s).1 ∧
  file_load ttl_s t' k n (file_purge_run k s) = (Ok None, file_purge_run k s).
Proof.
  intros Hd Hf Hk Hk' Hne s'. assert (safe_ k ≠ safe_ k') as Hs by (by rewrite !safe_plain).
  assert (file_save t k n d s = (Ok tt, s')) as E by (unfold s'; by rewrite file_save_run).
  split; [|split; [|split]].
  - eexists. split; [exact (saved_loads ttl_s t t' k n d s s' E Hd Hf)|].
    intros f H1 H2. by rewrite !dict_get_set_ne.
  - apply file_load_lookup. unfold s'. rewrite file_save_run. cbn [snd].
    rewrite lookup_delete_ne; [|unfold path_; simpl; congruence].
    rewrite lookup_insert_ne; [done|]. by apply path_dir_ne.
  - apply file_load_lookup. unfold file_purge_run. destruct (s !! path_ k' n') eqn:E'.
    + apply map_lookup_filter_Some. split; [done|]. simpl. congruence.
    + apply map_lookup_filter_None. by left.
  - unfold file_load. assert (file_purge_run k s !! path_ k n = None) as ->; [|done].
    apply map_lookup_filter_None. right. intros x _ Hx. by apply Hx.
Qed.

#[local] Instance sample_repr : FloatRepr := λ q, if Qeq_bool q 7 then "7.0" else "0.0".
#[local] Instance sample_parse : FloatParse := λ s,
  if bool_decide (s = "7.0") then Some 7%Q else Some 0%Q.

Definition sample_doc : doc := [("status", PStr "running"); ("step", PInt 3)].

Example sample_saved :
  (file_load 100 9 "bug-1" "agent-0" (file_save 7 "bug-1" "agent-0" sample_doc ∅).2).1 =
  Ok (Some (sample_doc ++ [("schema", PInt 1); ("updated_at", PFloat 7)])).
Proof. vm_compute. reflexivity. Qed.

(** A record past its time to live takes the whole run with it. *)
Example sample_expired :
  let '(r, s) := file_load 100 108 "bug-1" "agent-0"
    (file_save 7 "bug-1" "env" [] (file_save 7 "bug-1" "agent-0" sample_doc ∅).2).2 in
  (r, file_names "bug-1" s) = (Ok None, []).
Proof. vm_compute. reflexivity. Qed.

Lemma records_kept_and_isolated_witness :
  let s' := (file_save 7 "bug-1" "agent-0" sample_doc ∅).2 in
  (file_load 100 9 "bug-2" "agent-0" s').1 = (file_load 100 9 "bug-2" "agent-0" ∅).1.
Proof.
  refine (proj1 (proj2 (records_kept_and_isolated 100 7 9 "bug-1" "bug-2" "agent-0" "agent-0"
                          sample_doc ∅ _ _ _ _ _))).
  - unfold storable. apply json_ok_dict. split; [apply (bool_decide_unpack _); by vm_compute|].
    do 3 (constructor; [exact I|]). constructor; [|constructor]. split.
    + exists "7"%char, ".0". split; [reflexivity|by left].
    + intros rest Hr. destruct rest as [|c rest]; [reflexivity|].
      destruct c as [[] [] [] [] [] [] [] []]; try discriminate Hr; reflexivity.
  - intros _. vm_compute. discriminate.
  - split; [reflexivity|]. split; [simpl; lia|discriminate].
  - split; [reflexivity|]. split; [simpl; lia|discriminate].
  - discriminate.
Defined.

(** Two run keys with one directory: the hash suffix marks the sanitised key, but
    a key may already have that shape. *)
Lemma safe_not_injective : ∃ k k', k ≠ k' ∧ safe_ k = safe_ k'.
Proof. exists "a/b", "a_b-c14cddc0". split; [done|]. vm_compute. reflexivity. Qed.

(** A document that is JSON but no object makes [load] raise where an unreadable
    one is ignored. *)
Lemma load_raises_on_list (t : Q) :
  (file_load 0 t "bug-1" "env" {[path_ "bug-1" "env" := "[]"]}).1 =
  Raise (Exn "AttributeError" "'list' object has no attribute 'get'").
Proof. unfold file_load. rewrite lookup_singleton_eq. reflexivity. Qed.

End StepCheckpoint.
