(* ===== verification/MiniResume.v ===== *)
(** * The resumable agent loop

    Models of [bf_worker/agents/mini_resume.py] (the loop that records every
    half step), [bf_worker/agents/mini_resume_env.py] (the container environment
    with its ledger of commands), and the vendored loop they extend
    ([bf_worker/agents/vendor/mini/agent.py], [docker_env.py]).  A worker may be
    killed before any call it makes to the store, to docker or to the model; what
    it keeps in memory is then lost, and the store and the containers stay.  The
    small scripts the worker sends to a container are modelled by what they do to
    the ledger's files; model, message formatting and docker itself are the
    world's.  Saving the trajectory file is left out. *)

From S2P Require Import Prelude PyStr PyJson Sha256 StepCheckpoint.
From Stdlib Require Import QArith.Qround.
Local Open Scope string_scope.
Local Open Scope Z_scope.
Local Open Scope list_scope.

Module MiniResume.
Import Sha256 StepCheckpoint.

(** ** Containers

    The ledger directory of a container, one slot per command number; what of it
    the commands themselves write ([out], [rc]) is the world's.  [launched] is
    the history of the commands that were started, with their numbers. *)

Record slot := mkSlot { slot_cmd : string; slot_started : option Z }.

Record container := mkContainer {
  slots : gmap Z slot;
  marker : option Z;
  launched : list (Z * string)
}.

Definition new_container : container := mkContainer ∅ None [].

(** ** State *)

Record agent := mkAgent {
  messages : list pyval;
  n_calls : Z;
  cost : Q;
  start_time : Q;
  extra_template_vars : doc
}.

Record resume_ctx := mkCtx {
  step_ : Z;
  message_count : Z;
  resume_count : Z;
  resumed_from_step : option Z;
  replayed_commands : Z;
  pending : option pyval
}.

Record environment := mkEnv {
  seq : Z;
  attached : bool;
  marker_enabled : bool;
  container_id : string;
  pending_commands : Z
}.

Definition new_agent (now : Q) : agent := mkAgent [] 0 0 now [].
Definition new_ctx : resume_ctx := mkCtx 0 0 0 None 0 None.
Definition new_env : environment := mkEnv 0 false false "" 0.

(** What is asked of the world, for its oracles. *)
Inductive ask :=
| AskStore (op name : string)
| AskDocker (op container : string) (seq : Z)
| AskModel
| Killed.

Definition history := list ask.

(** The worker's memory, and what survives it. *)
Record sys (S : Type) := mkSys {
  ag : agent;
  cx : resume_ctx;
  en : environment;
  store : S;
  docker : gmap string container;
  past : history
}.
Arguments mkSys {S}. Arguments ag {S}. Arguments cx {S}. Arguments en {S}.
Arguments store {S}. Arguments docker {S}. Arguments past {S}.

(** [InterruptAgentFlow] carries messages; anything else is an exception. *)
Inductive err := Interrupt (msgs : list pyval) | Error (e : exn).

Inductive outcome (A : Type) := Ret (a : A) | Exc (e : err) | Crash.
Arguments Ret {A}. Arguments Exc {A}. Arguments Crash {A}.

Definition C (S A : Type) : Type := sys S → outcome A * sys S.

#[export] Instance C_ret S : MRet (C S) := λ A a s, (Ret a, s).
#[export] Instance C_bind S : MBind (C S) := λ A B f m s,
  match m s with
  | (Ret a, s') => f a s'
  | (Exc e, s') => (Exc e, s')
  | (Crash, s') => (Crash, s')
  end.

Definition cget {S} : C S (sys S) := λ s, (Ret s, s).
Definition raise {S A} (e : err) : C S A := λ s, (Exc e, s).
Definition error {S A} (e : exn) : C S A := raise (Error e).
Definition of_res {S A} (r : res A) : C S A :=
  match r with Ok a => mret a | Raise e => error e end.

(** [try: m  except Exception as e: handler(e)]; a kill is not caught. *)
Definition attempt {S A} (m : C S A) (handler : err → C S A) : C S A := λ s,
  match m s with
  | (Exc e, s') => handler e s'
  | r => r
  end.

Definition set_ag {S} (f : agent → agent) : C S unit := λ s,
  (Ret tt, mkSys (f (ag s)) (cx s) (en s) (store s) (docker s) (past s)).
Definition set_cx {S} (f : resume_ctx → resume_ctx) : C S unit := λ s,
  (Ret tt, mkSys (ag s) (f (cx s)) (en s) (store s) (docker s) (past s)).
Definition set_en {S} (f : environment → environment) : C S unit := λ s,
  (Ret tt, mkSys (ag s) (cx s) (f (en s)) (store s) (docker s) (past s)).

(** ** The world *)

(** How a docker call ends: done, refused with an exit code and a text, not
    started at all, or cut by the client's timeout. *)
Inductive docker_reply := Up | Down (code : Z) (text : string) | Failed (e : exn) | TimedOut.

Inductive answer := Answer (message : pyval) | Flow (msgs : list pyval) | Broken (e : exn).

Record world := mkWorld {
  die : history → bool;
  now : history → Q;
  query_model : list pyval → history → answer;
  format_observation_messages : pyval → list pyval → history → list pyval;
  format_exit : exn → pyval;
  intro : doc → history → list pyval;
  docker_call : history → docker_reply;
  run_container : history → res string;
  running : history → string → bool;
  epoch : history → Z;
  rc_file : history → string → Z → option Z;
  out_file : history → string → Z → string;
  has_sha256sum : bool;
  marker_readable : history → bool
}.

Record config := mkConfig {
  run_key : string;
  name : string;
  fingerprint : string;
  run_fingerprint_ : string;
  image : string;
  cwd : string;
  marker_path : string;
  ledger_mode : bool;
  restart_on_ambiguous : bool;
  step_limit : Z;
  cost_limit : Q;
  wall_time_limit_seconds : Z;
  timeout : Z;
  executable : string;
  interpreter : list string;
  env_flags : list string
}.

Definition StepResumeAborted (m : string) : exn := Exn "StepResumeAborted" m.
Definition LedgerMismatch (m : string) : exn := Exn "LedgerMismatch" m.

Section loop.
Context `{Hrepr : FloatRepr} `{Hparse : FloatParse} {S : Type} `{Hstore : !Store S}.
Context (w : world) (cfg : config).

Local Notation M := (C S).

(** One call to the outside: the worker may be killed before it. *)
Definition prim {A} (a : ask) (f : sys S → outcome A * sys S) : M A := λ s,
  if die w (past s) then
    (Crash, mkSys (ag s) (cx s) (en s) (store s) (docker s) (past s ++ [Killed]))
  else f (mkSys (ag s) (cx s) (en s) (store s) (docker s) (past s ++ [a])).

Definition clock : M Q := λ s, (Ret (now w (past s)), s).

(** ** The store *)

Definition set_store (st : S) (s : sys S) : sys S :=
  mkSys (ag s) (cx s) (en s) st (docker s) (past s).

Definition st_load (n : string) : M (option doc) := prim (AskStore "load" n) (λ s,
  let '(r, st) := load (now w (past s)) (run_key cfg) n (store s) in
  (match r with Ok d => Ret d | Raise e => Exc (Error e) end, set_store st s)).

Definition st_save (n : string) (d : doc) : M unit := prim (AskStore "save" n) (λ s,
  let '(r, st) := save (now w (past s)) (run_key cfg) n d (store s) in
  (match r with Ok _ => Ret tt | Raise e => Exc (Error e) end, set_store st s)).

Definition st_purge : M unit := prim (AskStore "purge" "") (λ s,
  (Ret tt, set_store (purge_run (run_key cfg) (store s)) s)).

Definition st_names : M (list string) := prim (AskStore "names" "") (λ s,
  (Ret (names (run_key cfg) (store s)), s)).

(** ** Docker *)

Definition set_container (cid : string) (c : container) (s : sys S) : sys S :=
  mkSys (ag s) (cx s) (en s) (store s) (<[cid := c]> (docker s)) (past s).

Definition the_container (cid : string) (s : sys S) : container :=
  default new_container (docker s !! cid).

(** One docker command about the environment's container.  [effect] is what it
    does in the container, [reply] what it prints. *)
Definition docker_op {A} (op : string) (k : Z) (effect : history → container → container)
    (reply : docker_reply → history → container → A) : M A := λ s0,
  prim (AskDocker op (container_id (en s0)) k) (λ s,
    let cid := container_id (en s) in
    let c := the_container cid s in
    match docker_call w (past s) with
    | Up => (Ret (reply Up (past s) (effect (past s) c)), set_container cid (effect (past s) c) s)
    | r => (Ret (reply r (past s) c), s)
    end) s0.

(** [_docker]: the text printed, nothing when the call failed. *)
Definition printed (text : history → container → string) (r : docker_reply) (h : history)
    (c : container) : option string :=
  match r with Up => Some (text h c) | _ => None end.

Definition keep (h : history) (c : container) : container := c.

(** ** Lifecycle of the container *)

Definition resume_active : bool := str_nonempty (run_key cfg) && enabled.

Definition container_running (cid : string) : M bool := λ s0,
  prim (AskDocker "inspect" cid 0) (λ s,
    (Ret match docker_call w (past s) with Up => running w (past s) cid | _ => false end, s)) s0.

(** [v == s] for a text. *)
Definition eq_str (v : pyval) (s : string) : bool :=
  match v with PStr t => bool_decide (t = s) | _ => false end.

Definition can_attach (rec : doc) : M bool :=
  if negb (truthy (dget "container_id" rec)) then mret false
  else if negb (eq_str (dget "fingerprint" rec) (run_fingerprint_ cfg)) then mret false
  else if negb (eq_str (dget "image" rec) (image cfg)) || negb (eq_str (dget "cwd" rec) (cwd cfg))
  then mret false
  else match dget "container_id" rec with
       | PStr cid => container_running cid
       | v => container_running (py_str v)
       end.

(** Whether some agent of the run is still mid-conversation. *)
Fixpoint any_unfinished (ns : list string) : M bool :=
  match ns with
  | [] => mret false
  | n :: ns' =>
      if negb (startswith "agent-" n) then any_unfinished ns'
      else
        d ← st_load n;
        match d with
        | Some d => if negb (eq_str (dget "status" d) "done") then mret true else any_unfinished ns'
        | None => any_unfinished ns'
        end
  end.

Definition has_unfinished_agent_records : M bool := ns ← st_names; any_unfinished ns.

(** The vendored start: [docker run]. *)
Definition docker_run : M unit := prim (AskDocker "run" "" 0) (λ s,
  match run_container w (past s) with
  | Raise e => (Exc (Error e), s)
  | Ok cid =>
      (Ret tt, mkSys (ag s) (cx s)
         (mkEnv (seq (en s)) (attached (en s)) (marker_enabled (en s)) cid (pending_commands (en s)))
         (store s) (<[cid := new_container]> (docker s)) (past s))
  end).

Definition with_marker (b : bool) (e : environment) : environment :=
  mkEnv (seq e) (attached e) b (container_id e) (pending_commands e).

(** The self test writes 0 to the marker file and reads it back. *)
Definition marker_selftest : M bool :=
  docker_op "selftest" 0 (λ h c, mkContainer (slots c) (if marker_readable w h then Some 0 else marker c) (launched c))
    (λ r h c, match r with Up => marker_readable w h && bool_decide (marker c = Some 0) | _ => false end).

Definition env_doc (e : environment) : doc :=
  [("container_id", PStr (container_id e)); ("fingerprint", PStr (run_fingerprint_ cfg));
   ("image", PStr (image cfg)); ("cwd", PStr (cwd cfg));
   ("marker_enabled", PBool (marker_enabled e)); ("marker_path", PStr (marker_path cfg))].

Definition attach (rec : doc) (e : environment) : environment :=
  mkEnv (seq e) true (truthy (dget "marker_enabled" rec))
    (match dget "container_id" rec with PStr cid => cid | v => py_str v end) (pending_commands e).

Definition start_container : M unit :=
  if negb resume_active then docker_run
  else
    rec ← st_load "env";
    let rec := match rec with Some [] => None | r => r end in
    can ← match rec with Some r => can_attach r | None => mret false end;
    match rec with
    | Some r =>
        if (can : bool) then set_en (attach r)
        else
          unfinished ← has_unfinished_agent_records;
          _ ← (if (unfinished : bool) then st_purge else mret tt);
          _ ← docker_run;
          m ← marker_selftest;
          _ ← set_en (with_marker m);
          s ← cget;
          st_save "env" (env_doc (en s))
    | None =>
        _ ← docker_run;
        m ← marker_selftest;
        _ ← set_en (with_marker m);
        s ← cget;
        st_save "env" (env_doc (en s))
    end.

(** ** The ledger *)

Record Probe := mkProbe {
  present : bool;
  cmd_sha256 : string;
  started : option Q;
  rc : option Z;
  out_size : Z
}.

Definition absent : Probe := mkProbe false "" None None 0.

(** What [probe_script] prints of slot [k]. *)
Definition probe_script (k : Z) (h : history) (cid : string) (c : container) : string :=
  match slots c !! k with
  | None => "ABSENT" +:+ nl
  | Some sl =>
      "CMD " +:+ (if has_sha256sum w then sha256_hex (slot_cmd sl) else "") +:+ nl +:+
      match slot_started sl with
      | Some t => "STARTED " +:+ str_of_Z t +:+ nl +:+
          match rc_file w h cid k with Some r => "RC " +:+ str_of_Z r +:+ nl | None => "" end
      | None => ""
      end +:+
      "SIZE " +:+ str_of_nat (String.length (out_file w h cid k)) +:+ nl
  end.

(** One line of the probe; a field that does not parse is skipped. *)
Definition parse_probe_line (p : Probe) (line : string) : Probe :=
  let '(key, value) := str_partition " "%char line in
  let value := str_strip value in
  if bool_decide (key = "CMD") then mkProbe true value (started p) (rc p) (out_size p)
  else if bool_decide (key = "STARTED") then
    match py_float (PStr value) with
    | Ok q => mkProbe true (cmd_sha256 p) (Some q) (rc p) (out_size p)
    | Raise _ => p
    end
  else if bool_decide (key = "RC") then
    match str_int value with
    | Some z => mkProbe true (cmd_sha256 p) (started p) (Some z) (out_size p)
    | None => p
    end
  else if bool_decide (key = "SIZE") then
    match str_int value with
    | Some z => mkProbe true (cmd_sha256 p) (started p) (rc p) z
    | None => p
    end
  else p.

Definition parse_probe (text : option string) : Probe :=
  match text with
  | Some (String _ _ as t) =>
      if str_contains "ABSENT" (hd "" (str_split c_nl t)) then absent
      else fold_left parse_probe_line (splitlines t) (mkProbe true "" None None 0)
  | _ => absent
  end.

Definition probe (k : Z) : M Probe := λ s0,
  (t ← docker_op "probe" k keep (printed (λ h c, probe_script k h (container_id (en s0)) c));
   mret (parse_probe t)) s0.

(** [_read_file] of a slot's [out]. *)
Definition read_out (k : Z) : M string := λ s0,
  (t ← docker_op "read_out" k keep (printed (λ h c, out_file w h (container_id (en s0)) k));
   mret (default "" t)) s0.

Definition read_cmd (k : Z) : M string :=
  t ← docker_op "read_cmd" k keep
        (printed (λ h c, match slots c !! k with Some sl => slot_cmd sl | None => "" end));
  mret (default "" t).

(** [write_cmd_script]: the slot is cleared and holds the command's text. *)
Definition write_cmd (k : Z) (command : string) : M bool :=
  docker_op "write" k
    (λ h c, mkContainer (<[k := mkSlot command None]> (slots c)) (marker c) (launched c))
    (λ r h c, match r with Up => true | _ => false end).

(** [launch_script]: the marker, the start time, then the command in a session of
    its own. *)
Definition launch_effect (m : bool) (k : Z) (h : history) (c : container) : container :=
  let marker' := if m then Some k else marker c in
  match slots c !! k with
  | Some sl => mkContainer (<[k := mkSlot (slot_cmd sl) (Some (epoch w h))]> (slots c)) marker'
                 (launched c ++ [(k, slot_cmd sl)])
  | None => mkContainer (slots c) marker' (launched c)
  end.

Definition launch (k : Z) : M bool :=
  s ← cget;
  docker_op "launch" k (launch_effect (marker_enabled (en s)) k)
    (λ r h c, match r with Up => true | _ => false end).

Definition issue (k : Z) (command : pyval) : M unit :=
  recorded ← match command with PStr t => write_cmd k t | _ => mret false end;
  if negb recorded then
    error (LedgerMismatch ("could not record command #" +:+ str_of_Z k +:+ " in the container"))
  else
    ok ← launch k;
    if negb ok then
      error (LedgerMismatch ("could not launch command #" +:+ str_of_Z k +:+ " in the container"))
    else mret tt.

Definition output_dict (out : string) (code : Z) (info : string) : doc :=
  [("output", PStr out); ("returncode", PInt code); ("exception_info", PStr info)].

Definition failed_output (out : string) (e : exn) : doc :=
  output_dict out (-1) ("An error occurred while executing the command: " +:+ exn_msg e) ++
  [("extra", PDict [("exception_type", PStr (exn_class e)); ("exception", PStr (exn_msg e))])].

(** [str(subprocess.TimeoutExpired(cmd, seconds))] *)
Definition timeout_expired (argv : list string) (seconds : string) : exn :=
  Exn "TimeoutExpired" ("Command '" +:+ py_str (PList (map PStr argv)) +:+ "' timed out after " +:+
                        seconds +:+ " seconds").

Definition harvest (k code : Z) : M doc := out ← read_out k; mret (output_dict out code "").

Definition timeout_output (k budget : Z) : M doc :=
  out ← read_out k;
  s ← cget;
  mret (failed_output out (timeout_expired
    ([executable cfg; "exec"; container_id (en s)] ++ interpreter cfg ++
     ["<ledger #" +:+ str_of_Z k +:+ ">"]) (str_of_Z budget +:+ ".0"))).

(** [wait_script] through [_exec_capture]: the exit code and text, or nothing when
    the client timed out. *)
Definition exec_wait (k : Z) : M (exn + option (Z * string)) := λ s0,
  docker_op "wait" k keep (λ r h c,
    match r with
    | Up => match rc_file w h (container_id (en s0)) k with
            | Some code => inr (Some (code, out_file w h (container_id (en s0)) k))
            | None => inr (Some (99, ""))
            end
    | Down code text => inr (Some (code, text))
    | Failed e => inl e
    | TimedOut => inr None
    end) s0.

Definition wait (k : Z) (deadline : Q) (budget : Z) : M doc :=
  t ← clock;
  got ← (if Qle_bool deadline t then mret (inr None) else exec_wait k);
  match got with
  | inl e => mret (failed_output "" e)
  | inr got =>
      match (match got with
             | Some (code, out) => if bool_decide (code = 99) then None else Some (code, out)
             | None => None
             end) with
      | Some (code, out) => mret (output_dict out code "")
      | None =>
          st ← probe k;
          match rc st with
          | Some code => harvest k code
          | None => timeout_output k budget
          end
      end
  end.

Definition on_mismatch {A} (k : Z) : M A :=
  _ ← attempt st_purge (λ _, mret tt);
  error (LedgerMismatch ("ledger slot #" +:+ str_of_Z k +:+ " holds a different command for " +:+
                         run_key cfg)).

Definition same_command (st : Probe) (k : Z) (command : pyval) : M bool :=
  match command with
  | PStr t =>
      if str_nonempty (cmd_sha256 st) then mret (bool_decide (cmd_sha256 st = sha256_hex t))
      else body ← read_cmd k; mret (bool_decide (body = t))
  | v => error (attribute_error ("'" +:+ type_name v +:+ "' object has no attribute 'encode'"))
  end.

(** ** Executing a command *)

Definition with_seq (k : Z) (e : environment) : environment :=
  mkEnv k (attached e) (marker_enabled e) (container_id e) (pending_commands e).

Definition ledger_enabled (e : environment) : bool :=
  ledger_mode cfg && resume_active && str_nonempty (container_id e).

Definition exit_message (status content submission : string) : pyval :=
  PDict [("role", PStr "exit"); ("content", PStr content);
         ("extra", PDict [("exit_status", PStr status); ("submission", PStr submission)])].

(** [_check_finished]: the sentinel on the first line ends the run. *)
Definition check_finished (output : doc) : M unit :=
  let text := match dget "output" output with PStr t => t | _ => "" end in
  match splitlines_keep (str_lstrip is_space text) with
  | first :: rest =>
      if bool_decide (str_strip first = "COMPLETE_TASK_AND_SUBMIT_FINAL_OUTPUT") &&
         match dget "returncode" output with PInt 0 => true | _ => false end
      then raise (Interrupt [exit_message "Submitted" (str_join "" rest) (str_join "" rest)])
      else mret tt
  | [] => mret tt
  end.

(** The vendored [execute], with the marker in front of the command. *)
Definition execute_plain (k : Z) (command : pyval) : M doc := λ s0,
  let cid := container_id (en s0) in
  let text := match command with PStr t => t | v => py_str v end in
  let expired := timeout_expired
    ([executable cfg; "exec"; "-w"; cwd cfg] ++ env_flags cfg ++ [cid] ++ interpreter cfg ++ [text])
    (str_of_Z (timeout cfg)) in
  (out ← docker_op "exec" k
     (λ h c, mkContainer (slots c) (if marker_enabled (en s0) then Some k else marker c)
               (launched c ++ [(k, text)]))
     (λ r h c, match r with
       | Up => match rc_file w h cid k with
               | Some code => output_dict (out_file w h cid k) code ""
               | None => failed_output (out_file w h cid k) expired
               end
       | Down code text => output_dict text code ""
       | Failed e => failed_output "" e
       | TimedOut => failed_output (out_file w h cid k) expired
       end);
   _ ← check_finished out;
   mret out) s0.

Definition execute_ledger (k : Z) (command : pyval) : M doc :=
  let budget := timeout cfg in
  st ← probe k;
  same ← (if present st then same_command st k command else mret true);
  if negb same then on_mismatch k
  else
    st ← (if negb (present st) || negb (bool_decide (is_Some (started st)))
          then _ ← issue k command; probe k
          else mret st);
    t ← clock;
    output ← wait k (default t (started st) + inject_Z budget)%Q budget;
    _ ← check_finished output;
    mret output.

Definition execute (action : pyval) : M doc :=
  s ← cget;
  let k := seq (en s) + 1 in
  _ ← set_en (with_seq k);
  raw ← of_res (py_get action "command" (PStr ""));
  if negb (ledger_enabled (en s)) then execute_plain k (py_or raw (PStr ""))
  else execute_ledger k (py_or raw (PStr "")).

(** ** Reconciliation with the marker *)

Inductive verdict := CLEAN | AMBIGUOUS | MISMATCH | UNKNOWN.

Definition read_marker : M (option Z) :=
  docker_op "read_marker" 0 keep (λ r h c, match r with Up => marker c | _ => None end).

Definition reconcile (env_seq : Z) : M verdict :=
  _ ← set_en (λ e, mkEnv env_seq (attached e) (marker_enabled e) (container_id e) 0);
  s ← cget;
  if negb (attached (en s)) || negb (marker_enabled (en s)) then mret UNKNOWN
  else
    m ← read_marker;
    match m with
    | None => mret (if 0 <? env_seq then MISMATCH else CLEAN)
    | Some m =>
        if m <=? env_seq then mret CLEAN
        else
          _ ← set_en (λ e, mkEnv env_seq (attached e) (marker_enabled e) (container_id e) (m - env_seq));
          mret AMBIGUOUS
    end.

Definition align (k : Z) : M unit := set_en (with_seq (Z.max 0 k)).

(** ** The agent *)

Definition add_messages (ms : list pyval) : M unit :=
  set_ag (λ a, mkAgent (messages a ++ ms) (n_calls a) (cost a) (start_time a) (extra_template_vars a)).

(** [d | e] *)
Definition dict_update (d e : doc) : doc := fold_left (λ acc '(k, v), dict_set k v acc) e d.

Definition bind_ctx (f : resume_ctx → resume_ctx) : M unit := set_cx f.
Definition with_count (n : Z) (c : resume_ctx) : resume_ctx :=
  mkCtx (step_ c) n (resume_count c) (resumed_from_step c) (replayed_commands c) (pending c).
Definition with_pending (p : option pyval) (c : resume_ctx) : resume_ctx :=
  mkCtx (step_ c) (message_count c) (resume_count c) (resumed_from_step c) (replayed_commands c) p.

(** [message.get("extra", {}).get("actions", [])] *)
Definition actions_of (message : pyval) : res pyval :=
  extra ← py_get message "extra" (PDict []);
  py_get extra "actions" (PList []).

Fixpoint execute_all (actions : list pyval) : M (list pyval) :=
  match actions with
  | [] => mret []
  | a :: actions' =>
      out ← execute a;
      outs ← execute_all actions';
      mret (PDict out :: outs)
  end.

(** The observations are appended once every action has its output. *)
Definition execute_actions (message : pyval) : M unit :=
  actions ← of_res (actions_of message);
  match actions with
  | PList l =>
      outputs ← execute_all l;
      s ← cget;
      add_messages (format_observation_messages w message outputs (past s))
  | v => error (type_error ("'" +:+ type_name v +:+ "' object is not iterable"))
  end.

Definition limits_exceeded (a : agent) : bool :=
  ((0 <? step_limit cfg) && (step_limit cfg <=? n_calls a)) ||
  (negb (Qle_bool (cost_limit cfg) 0) && Qle_bool (cost_limit cfg) (cost a)).

Definition query : M pyval :=
  s ← cget;
  if limits_exceeded (ag s) then
    raise (Interrupt [exit_message "LimitsExceeded" "LimitsExceeded" ""])
  else
    t ← clock;
    if (0 <? wall_time_limit_seconds cfg) &&
       Qle_bool (inject_Z (wall_time_limit_seconds cfg)) (inject_Z (Qround.Qfloor (t - start_time (ag s))))
    then raise (Interrupt [exit_message "TimeExceeded" "TimeExceeded" ""])
    else
      _ ← set_ag (λ a, mkAgent (messages a) (n_calls a + 1) (cost a) (start_time a) (extra_template_vars a));
      reply ← prim AskModel (λ s, (Ret (query_model w (messages (ag s)) (past s)), s));
      match reply with
      | Flow msgs => raise (Interrupt msgs)
      | Broken e => error e
      | Answer message =>
          extra ← of_res (py_get message "extra" (PDict []));
          c ← of_res (py_get extra "cost" (PFloat 0));
          c ← of_res (py_float c);
          _ ← set_ag (λ a, mkAgent (messages a) (n_calls a) (cost a + c)%Q (start_time a) (extra_template_vars a));
          _ ← add_messages [message];
          mret message
      end.

(** ** Records *)

Definition record (s : sys S) (t : Q) (status : string) (step : Z) (msgs : list pyval)
    (rest : doc) : doc :=
  [("fingerprint", PStr (fingerprint cfg)); ("status", PStr status); ("step", PInt step);
   ("env_seq", PInt (seq (en s))); ("n_calls", PInt (n_calls (ag s))); ("cost", PFloat (cost (ag s)));
   ("elapsed_s", PFloat (t - start_time (ag s))); ("resume_count", PInt (resume_count (cx s)));
   ("replayed_command_count", PInt (replayed_commands (cx s)));
   ("extra_template_vars", PDict (extra_template_vars (ag s))); ("messages", PList msgs)] ++ rest.

Definition pending_doc (s : sys S) (t : Q) (message : pyval) : pyval :=
  PDict [("message", message); ("first_seq", PInt (seq (en s) + 1)); ("issued_at", PFloat t)].

(** [messages[:-1]] *)
Definition but_last (l : list pyval) : list pyval := take (List.length l - 1) l.

Definition set_message_count : M unit :=
  s ← cget; bind_ctx (with_count (Z.of_nat (List.length (messages (ag s))))).

Definition write_pending (message : pyval) : M unit :=
  s ← cget;
  if negb enabled || negb (ledger_enabled (en s)) then mret tt
  else
    t ← clock;
    attempt
      (_ ← st_save (name cfg)
             (record s t "running" (step_ (cx s)) (but_last (messages (ag s)))
                [("pending", pending_doc s t message)]);
       set_message_count)
      (λ _, mret tt).

Definition checkpoint : M unit :=
  attempt
    (s ← cget;
     match last (messages (ag s)) with
     | None => mret tt
     | Some m =>
         if Z.of_nat (List.length (messages (ag s))) =? message_count (cx s) then mret tt
         else
           role ← of_res (py_get m "role" PNone);
           if eq_str role "assistant" then mret tt
           else
             _ ← bind_ctx (λ c, mkCtx (step_ c + 1) (message_count c) (resume_count c)
                                  (resumed_from_step c) (replayed_commands c) (pending c));
             s ← cget;
             t ← clock;
             _ ← st_save (name cfg)
                   (record s t (if eq_str role "exit" then "done" else "running") (step_ (cx s))
                      (messages (ag s)) []);
             set_message_count
     end)
    (λ _, mret tt).

Definition load_record : M (option doc) :=
  r ← st_load (name cfg);
  match r with
  | None => mret None
  | Some rec => if eq_str (dget "fingerprint" rec) (fingerprint cfg) then mret (Some rec) else mret None
  end.

(** [int(rec.get(k) or 0)] and the like. *)
Definition int_of (rec : doc) (k : string) : res Z := py_int (py_or (dget k rec) (PInt 0)).

Definition list_of (v : pyval) : res (list pyval) :=
  match v with
  | PList l => Ok l
  | v => if truthy v then Raise (type_error ("'" +:+ type_name v +:+ "' object is not iterable")) else Ok []
  end.

Definition dict_of (v : pyval) : res doc :=
  match v with
  | PDict d => Ok d
  | v => if truthy v then Raise (type_error ("'" +:+ type_name v +:+ "' object is not iterable")) else Ok []
  end.

Definition restore (rec : doc) : M unit :=
  msgs ← of_res (list_of (dget "messages" rec));
  _ ← set_ag (λ a, mkAgent msgs (n_calls a) (cost a) (start_time a) (extra_template_vars a));
  n ← of_res (int_of rec "n_calls");
  _ ← set_ag (λ a, mkAgent (messages a) n (cost a) (start_time a) (extra_template_vars a));
  c ← of_res (py_float (py_or (dget "cost" rec) (PFloat 0)));
  _ ← set_ag (λ a, mkAgent (messages a) (n_calls a) c (start_time a) (extra_template_vars a));
  t ← clock;
  el ← of_res (py_float (py_or (dget "elapsed_s" rec) (PFloat 0)));
  _ ← set_ag (λ a, mkAgent (messages a) (n_calls a) (cost a) (t - el)%Q (extra_template_vars a));
  vars ← of_res (dict_of (dget "extra_template_vars" rec));
  _ ← set_ag (λ a, mkAgent (messages a) (n_calls a) (cost a) (start_time a)
                     (dict_update (extra_template_vars a) vars));
  st ← of_res (int_of rec "step");
  rcount ← of_res (int_of rec "resume_count");
  rep ← of_res (int_of rec "replayed_command_count");
  let p := if truthy (dget "pending" rec) then Some (dget "pending" rec) else None in
  _ ← bind_ctx (λ c, mkCtx st (message_count c) (rcount + 1) (resumed_from_step c) rep p);
  m ← match p with
      | Some p => of_res (py_get p "message" PNone)
      | None => mret PNone
      end;
  _ ← (if truthy m then add_messages [m] else mret tt);
  set_message_count.

Definition settle (env_seq : Z) : M unit :=
  v ← reconcile env_seq;
  match v with
  | CLEAN | UNKNOWN => mret tt
  | AMBIGUOUS =>
      s ← cget;
      let p := Z.max 1 (pending_commands (en s)) in
      if restart_on_ambiguous cfg then
        _ ← st_purge;
        error (StepResumeAborted
          ("command(s) #" +:+ str_of_Z (env_seq + 1) +:+ "..#" +:+ str_of_Z (env_seq + p) +:+
           " may already have executed; " +:+ "restarting per BF_STEP_ON_AMBIGUOUS=restart"))
      else
        bind_ctx (λ c, mkCtx (step_ c) (message_count c) (resume_count c) (resumed_from_step c)
                         (replayed_commands c + p) (pending c))
  | MISMATCH =>
      _ ← st_purge;
      error (StepResumeAborted
        ("step marker disagrees with checkpoint (env_seq=" +:+ str_of_Z env_seq +:+ ") for " +:+
         run_key cfg))
  end.

Definition is_aborted (e : err) : bool :=
  match e with Error x => bool_decide (exn_class x = "StepResumeAborted") | _ => false end.

Definition resume_from (rec : doc) : M unit :=
  _ ← restore rec;
  env_seq ← of_res (int_of rec "env_seq");
  _ ← align env_seq;
  s ← cget;
  _ ← match pending (cx s) with
      | Some p =>
          v ← of_res (py_get p "first_seq" PNone);
          first ← of_res (py_int (py_or v (PInt (env_seq + 1))));
          align (first - 1)
      | None => settle env_seq
      end;
  bind_ctx (λ c, mkCtx (step_ c) (message_count c) (resume_count c) (Some (step_ c))
                   (replayed_commands c) (pending c)).

Definition resume : M unit :=
  attempt
    (rec ← load_record;
     match rec with
     | None => mret tt
     | Some rec => if eq_str (dget "status" rec) "done" then mret tt else resume_from rec
     end)
    (λ e, if is_aborted e then raise e else mret tt).

(** ** The loop *)

Definition step : M unit :=
  s ← cget;
  match pending (cx s) with
  | Some p =>
      _ ← bind_ctx (with_pending None);
      m ← of_res (py_get p "message" PNone);
      execute_actions (py_or m (PDict []))
  | None =>
      message ← query;
      _ ← write_pending message;
      execute_actions message
  end.

(** One iteration: [true] when the exit message was reached. *)
Definition iteration : M bool :=
  r ← attempt (_ ← step; mret None)
        (λ e, match e with
              | Interrupt ms => _ ← add_messages ms; mret None
              | Error x => _ ← add_messages [format_exit w x]; mret (Some x)
              end);
  _ ← checkpoint;
  match r with
  | Some x => error x
  | None =>
      s ← cget;
      match last (messages (ag s)) with
      | Some m => role ← of_res (py_get m "role" PNone); mret (eq_str role "exit")
      | None => error (index_error "list index out of range")
      end
  end.

Fixpoint loop (fuel : nat) : M unit :=
  match fuel with
  | O => error (Exn "OutOfFuel" "")
  | Datatypes.S fuel' => stop ← iteration; if (stop : bool) then mret tt else loop fuel'
  end.

(** [messages[-1].get("extra", {})] *)
Definition last_extra : M pyval :=
  s ← cget;
  match last (messages (ag s)) with
  | Some m => of_res (py_get m "extra" (PDict []))
  | None => mret (PDict [])
  end.

Definition run_fresh (fuel : nat) (kwargs : doc) : M pyval :=
  _ ← set_ag (λ a, mkAgent (messages a) (n_calls a) (cost a) (start_time a)
                     (dict_update (extra_template_vars a) kwargs));
  s ← cget;
  _ ← set_ag (λ a, mkAgent (intro w (extra_template_vars a) (past s)) (n_calls a) (cost a)
                     (start_time a) (extra_template_vars a));
  _ ← resume;
  _ ← loop fuel;
  last_extra.

Definition run (fuel : nat) (kwargs : doc) : M pyval :=
  rec ← load_record;
  match rec with
  | Some rec =>
      if eq_str (dget "status" rec) "done" then
        _ ← set_ag (λ a, mkAgent (messages a) (n_calls a) (cost a) (start_time a)
                           (dict_update (extra_template_vars a) kwargs));
        _ ← restore rec;
        last_extra
      else
        run_fresh fuel kwargs
  | None => run_fresh fuel kwargs
  end.

(** ** A life of the worker

    What a process does from its start: the environment, a fresh agent bound to
    the run, the loop, and the release of the container when it ended by itself. *)

Definition release : M unit :=
  prim (AskDocker "stop" "" 0) (λ s, (Ret tt, s)).

Definition boot (s : sys S) : sys S :=
  mkSys (new_agent (now w (past s))) new_ctx new_env (store s) (docker s) (past s).

Definition life (fuel : nat) (kwargs : doc) (s : sys S) : outcome (err + pyval) * sys S :=
  (_ ← start_container;
   t ← clock;
   _ ← set_ag (λ _, new_agent t);
   info ← attempt (v ← run fuel kwargs; mret (inr v)) (λ e, mret (inl e));
   _ ← release;
   mret info) (boot s).

(** The run is over: its records go. *)
Definition finish_run : M unit := attempt st_purge (λ _, mret tt).

(** The worker is started again as long as it is killed, at most [n] times. *)
Fixpoint lives (n fuel : nat) (kwargs : doc) (s : sys S) : outcome (err + pyval) * sys S :=
  match n with
  | O => (Crash, s)
  | Datatypes.S n' =>
      match life fuel kwargs s with
      | (Crash, s') => lives n' fuel kwargs s'
      | r => r
      end
  end.

End loop.
End MiniResume.
