(* ===== verification/MiniLedger.v ===== *)
(** * The ledger of a resumable run

    The uninterrupted run that a resumed one is compared with, what a container's
    ledger says of the commands started in it, and that a probe of a slot reads
    the ledger right. *)

From S2P Require Import Prelude PyStr PyJson PyJsonLoads Sha256 StepCheckpoint MiniResume.
Local Open Scope string_scope.
Local Open Scope Z_scope.
Local Open Scope nat_scope.
Local Open Scope list_scope.

Module MiniLedger.
Import Sha256 StepCheckpoint MiniResume.

(** ** The uninterrupted run, as a specification

    A turn is atomic: the model is asked with the conversation so far, all the
    commands of its answer run, and the observations follow. *)

Definition command_text (action : pyval) : string :=
  match py_get action "command" (PStr "") with
  | Ok v => match py_or v (PStr "") with PStr t => t | v => "" end
  | Raise _ => ""
  end.

Definition commands (message : pyval) : list string :=
  match actions_of message with
  | Ok (PList l) => map command_text l
  | _ => []
  end.

Inductive ideal (w : world) : list pyval → list string → Prop :=
| ideal_intro vars h : ideal w (intro w vars h) []
| ideal_turn conv l h h' m outs :
    ideal w conv l → query_model w conv h = Answer m →
    ideal w (conv ++ m :: format_observation_messages w m outs h') (l ++ commands m)
| ideal_note conv l h ms :
    ideal w conv l → query_model w conv h = Flow ms → ideal w (conv ++ ms) l.

(** The message a conversation is closed with. *)
Definition last_words (w : world) (ms : list pyval) : Prop :=
  ∃ m, ms = [m] ∧ ((∃ e, m = format_exit w e) ∨
                   ∃ status content submission, m = exit_message status content submission).

(** How it can end: after whole turns, or inside a turn after [j] of its commands. *)
Inductive ends (w : world) : list pyval → list string → Prop :=
| ends_whole conv l : ideal w conv l → ends w conv l
| ends_said conv l ms : ideal w conv l → last_words w ms → ends w (conv ++ ms) l
| ends_cut conv l h m j ms :
    ideal w conv l → query_model w conv h = Answer m → ms = [] ∨ last_words w ms →
    ends w (conv ++ m :: ms) (l ++ take j (commands m)).

(** What is said in the run can be written as JSON. *)
Record speaks_json `{FloatRepr, FloatParse} (w : world) : Prop := {
  intro_json vars h : Forall json_ok (intro w vars h);
  answer_json ms h m : query_model w ms h = Answer m → json_ok m;
  flow_json ms h ms' : query_model w ms h = Flow ms' → Forall json_ok ms';
  observations_json m outs h : Forall json_ok (format_observation_messages w m outs h);
  exit_json e : json_ok (format_exit w e)
}.

Lemma ideal_json `{FloatRepr, FloatParse} w conv l : speaks_json w → ideal w conv l → Forall json_ok conv.
Proof.
  intros Hj. induction 1 as [vars h|conv l h h' m outs _ IH Hq|conv l h ms _ IH Hq]; [by apply (intro_json w Hj)|..];
    apply Forall_app; (split; [done|]).
  - constructor; [by eapply answer_json|by apply (observations_json w Hj)].
  - by eapply flow_json.
Qed.

Lemma last_words_json `{FloatRepr, FloatParse} w ms : speaks_json w → last_words w ms → Forall json_ok ms.
Proof.
  intros Hj (m & -> & Hm). apply Forall_singleton. destruct Hm as [[e ->]|(status & content & submission & ->)].
  - by apply (exit_json w Hj).
  - apply json_ok_flat. reflexivity.
Qed.

Lemma ends_json `{FloatRepr, FloatParse} w conv l : speaks_json w → ends w conv l → Forall json_ok conv.
Proof.
  intros Hj [conv' l' Hi|conv' l' ms Hi Hw|conv' l' h m j ms Hi Hq Hms]; pose proof (ideal_json _ _ _ Hj Hi); [done|..];
    apply Forall_app; (split; [done|]).
  - by apply (last_words_json w).
  - constructor; [by eapply answer_json|]. destruct Hms as [->|?]; [done|by apply (last_words_json w)].
Qed.

(** The commands with their numbers. *)
Definition numbered (l : list string) : list (Z * string) := imap (λ i c, (Z.of_nat (S i), c)) l.

Lemma numbered_snoc l c :
  numbered (l ++ [c]) = numbered l ++ [(Z.of_nat (S (List.length l)), c)].
Proof. unfold numbered. rewrite imap_app. simpl. by rewrite Nat.add_0_r. Qed.

(** ** The ledger of a container that has run [l]

    [next] is the command that may be written down without having been started. *)
Record ledger (w : world) (c : container) (l : list string) (m : bool) (next : option string) : Prop := {
  led_launched : launched c = numbered l;
  led_started : ∀ i cmd, l !! i = Some cmd →
    ∃ h, slots c !! Z.of_nat (S i) = Some (mkSlot cmd (Some (epoch w h)));
  led_only : ∀ k sl, slots c !! k = Some sl →
    (∃ i, k = Z.of_nat (S i) ∧ i < List.length l) ∨
    (k = Z.of_nat (S (List.length l)) ∧ slot_started sl = None ∧ next = Some (slot_cmd sl));
  led_marker : m = true → marker c = Some (Z.of_nat (List.length l))
}.

Lemma ledger_weaken w c l m next : ledger w c l m None → ledger w c l m next.
Proof.
  intros [H1 H2 H3 H4]. split; try done. intros k sl Hk.
  destruct (H3 k sl Hk) as [?|(_ & _ & [=])]. by left.
Qed.

(** The slot the next command will find. *)
Lemma ledger_next_slot w c l m next sl :
  ledger w c l m next → slots c !! Z.of_nat (S (List.length l)) = Some sl →
  slot_started sl = None ∧ next = Some (slot_cmd sl).
Proof.
  intros [_ _ H3 _] Hk. destruct (H3 _ _ Hk) as [(i & Hi & Hlt)|(_ & ? & ?)]; [lia|done].
Qed.

Lemma ledger_write w c l m next cmd :
  ledger w c l m next →
  ledger w (mkContainer (<[Z.of_nat (S (List.length l)) := mkSlot cmd None]> (slots c)) (marker c) (launched c))
    l m (Some cmd).
Proof.
  intros [H1 H2 H3 H4]. split; try done.
  - intros i cmd' Hi. destruct (H2 i cmd' Hi) as [t Ht]. exists t. simpl.
    rewrite lookup_insert_ne; [done|]. apply lookup_lt_Some in Hi. lia.
  - intros k sl. simpl. destruct (decide (k = Z.of_nat (S (List.length l)))) as [->|Hne].
    + rewrite lookup_insert_eq. intros [= <-]. by right.
    + rewrite lookup_insert_ne by done. intros Hk.
      destruct (H3 k sl Hk) as [?|(-> & _ & _)]; [by left|done].
Qed.

Lemma ledger_launch w c l m next cmd h :
  ledger w c l m next → slots c !! Z.of_nat (S (List.length l)) = Some (mkSlot cmd None) →
  ledger w (launch_effect w m (Z.of_nat (S (List.length l))) h c) (l ++ [cmd]) m None.
Proof.
  intros [H1 H2 H3 H4] Hs. unfold launch_effect. rewrite Hs. split; simpl.
  - by rewrite H1, numbered_snoc.
  - intros i cmd' Hi. apply lookup_app_Some in Hi as [Hi|[Hlt Hi]].
    + destruct (H2 i cmd' Hi) as [t Ht]. exists t. apply lookup_lt_Some in Hi.
      rewrite lookup_insert_ne by lia. done.
    + apply list_lookup_singleton_Some in Hi as [Hi <-].
      assert (i = List.length l) as -> by lia. exists h. by rewrite lookup_insert_eq.
  - intros k sl. rewrite length_app. simpl.
    destruct (decide (k = Z.of_nat (S (List.length l)))) as [->|Hne].
    + intros _. left. exists (List.length l). split; [done|lia].
    + rewrite lookup_insert_ne by done. intros Hk. left.
      destruct (H3 k sl Hk) as [(i & -> & Hi)|(-> & _ & _)]; [|done]. exists i. split; [done|lia].
  - intros ->. rewrite length_app. simpl. f_equal. lia.
Qed.

(** ** What a probe tells of a slot *)

Section probe.
Context `{Hparse : FloatParse} (w : world).
Hypothesis epoch_ok : ∀ h, (0 <= epoch w h)%Z ∧ is_Some (float_parse (str_of_Z (epoch w h))).

Lemma splitlines_keep_cons c d t :
  is_linebreak c = false →
  splitlines_keep (String c (String d t)) =
  match splitlines_keep (String d t) with
  | [] => [String c EmptyString]
  | l :: ls => String c l :: ls
  end.
Proof.
  intros Hc. assert (ch_eq c c_cr = false) as Hcr.
  { apply ch_eq_false. intros ->. discriminate Hc. }
  transitivity (if ch_eq c c_cr && ch_eq d c_nl then String c (String d EmptyString) :: splitlines_keep t
    else if is_linebreak c then String c EmptyString :: splitlines_keep (String d t)
    else match splitlines_keep (String d t) with
         | [] => [String c EmptyString] | l :: ls => String c l :: ls end); [reflexivity|].
  by rewrite Hcr, Hc.
Qed.

Lemma splitlines_line a s :
  str_forallb (λ c, negb (is_linebreak c)) a = true →
  splitlines (a +:+ nl +:+ s) = a :: splitlines s.
Proof.
  unfold splitlines. intros Ha.
  enough (splitlines_keep (a +:+ nl +:+ s) = (a +:+ nl) :: splitlines_keep s) as ->.
  { cbn [map]. f_equal. clear -Ha. induction a as [|c a IH]; [done|].
    cbn [String.append]. cbn [str_forallb] in Ha. apply andb_true_iff in Ha as [Hc Ha].
    apply negb_true_iff in Hc. rewrite rstrip_cons_keep by done. f_equal. by apply IH. }
  induction a as [|c a IH]; cbn [String.append].
  - destruct s; reflexivity.
  - cbn [str_forallb] in Ha. apply andb_true_iff in Ha as [Hc Ha]. apply negb_true_iff in Hc.
    specialize (IH Ha). destruct (a +:+ nl +:+ s) as [|d t] eqn:E; [by destruct a|].
    rewrite splitlines_keep_cons by done. by rewrite IH.
Qed.

(** Characters that neither end a line nor are blank. *)
Definition solid (c : ascii) : bool := negb (is_linebreak c) && negb (is_space c).

Lemma solid_line s : str_forallb solid s = true → str_forallb (λ c, negb (is_linebreak c)) s = true.
Proof. apply str_forallb_impl. intros c [? _]%andb_true_iff. done. Qed.

Lemma solid_strip s : str_forallb solid s = true → str_strip s = s.
Proof. intros Hs. apply strip_id. revert Hs. apply str_forallb_impl. by intros c [_ ?]%andb_true_iff. Qed.

Lemma solid_hex s : str_forallb is_hex_lower s = true → str_forallb solid s = true.
Proof. apply str_forallb_impl. intros [[] [] [] [] [] [] [] []]; vm_compute; done. Qed.

Lemma solid_digits s : str_forallb is_digit s = true → str_forallb solid s = true.
Proof. apply str_forallb_impl. intros [[] [] [] [] [] [] [] []]; vm_compute; done. Qed.

Lemma solid_Z z : str_forallb solid (str_of_Z z) = true.
Proof.
  unfold str_of_Z. destruct (z <? 0)%Z; cbn [str_forallb]; [apply andb_true_iff; split; [done|]|];
    apply solid_digits, str_of_N_digits.
Qed.

Lemma no_absent s : str_forallb (λ c, negb (ch_eq c "S"%char)) s = true → str_contains "ABSENT" s = false.
Proof.
  induction s as [|c s IH]; [done|]. cbn [str_forallb]. intros [Hc Hs]%andb_true_iff.
  cbn [str_contains]. rewrite (IH Hs), orb_false_r. apply not_true_is_false.
  intros [r Hr]%startswith_spec. injection Hr as -> ->. discriminate Hs.
Qed.

Lemma keeps_fields (p : Probe) (key v : string) :
  key = "RC" ∨ key = "SIZE" → present p = true →
  let q := parse_probe_line p (key +:+ " " +:+ v) in
  present q = true ∧ cmd_sha256 q = cmd_sha256 p ∧ started q = started p.
Proof.
  intros [-> | ->] Hp.
  - change (parse_probe_line p ("RC" +:+ " " +:+ v)) with
      (match str_int (str_strip v) with
       | Some z => mkProbe true (cmd_sha256 p) (started p) (Some z) (out_size p) | None => p end).
    by destruct (str_int (str_strip v)).
  - change (parse_probe_line p ("SIZE" +:+ " " +:+ v)) with
      (match str_int (str_strip v) with
       | Some z => mkProbe true (cmd_sha256 p) (started p) (rc p) z | None => p end).
    by destruct (str_int (str_strip v)).
Qed.

Lemma splitlines_field key v s :
  str_forallb (λ c, negb (is_linebreak c)) key = true → str_forallb solid v = true →
  splitlines (key +:+ v +:+ nl +:+ s) = (key +:+ v) :: splitlines s.
Proof.
  intros Hk Hv. rewrite str_app_assoc. apply splitlines_line. rewrite str_forallb_app, Hk.
  by apply solid_line.
Qed.

Lemma parse_probe_cmd sha tail :
  str_forallb is_hex_lower sha = true →
  parse_probe (Some ("CMD " +:+ sha +:+ nl +:+ tail)) =
  fold_left parse_probe_line (splitlines tail) (mkProbe true sha None None 0).
Proof.
  intros Hsha. unfold parse_probe.
  assert (hd "" (str_split c_nl ("CMD " +:+ sha +:+ nl +:+ tail)) = "CMD " +:+ sha) as Hhd.
  { rewrite str_app_assoc. change (nl +:+ tail) with (String c_nl tail).
    rewrite str_split_app_sep; [done|]. rewrite str_forallb_app. apply andb_true_iff. split; [done|].
    revert Hsha. apply str_forallb_impl. intros [[] [] [] [] [] [] [] []]; vm_compute; done. }
  assert (∃ c t, "CMD " +:+ sha +:+ nl +:+ tail = String c t) as (c & t & E) by (by do 2 eexists).
  rewrite E in *. rewrite Hhd, no_absent.
  2:{ rewrite str_forallb_app. apply andb_true_iff. split; [done|].
      revert Hsha. apply str_forallb_impl. intros [[] [] [] [] [] [] [] []]; vm_compute; done. }
  rewrite <- E, splitlines_field by (done || by apply solid_hex). cbn [fold_left]. f_equal.
  change (parse_probe_line (mkProbe true "" None None 0) ("CMD " +:+ sha))
    with (mkProbe true (str_strip sha) None None 0).
  by rewrite solid_strip by (by apply solid_hex).
Qed.

(** A probe reports whether a command is written down, which, and whether it was
    started. *)
Lemma probe_reports k h cid c :
  let p := parse_probe (Some (probe_script w k h cid c)) in
  match slots c !! k with
  | None => p = absent
  | Some sl =>
      (slot_started sl = None ∨ ∃ h', slot_started sl = Some (epoch w h')) →
      present p = true ∧
      cmd_sha256 p = (if has_sha256sum w then sha256_hex (slot_cmd sl) else "") ∧
      (is_Some (started p) ↔ slot_started sl ≠ None)
  end.
Proof.
  intros p. subst p. unfold probe_script. destruct (slots c !! k) as [sl|]; [|done]. intros Hst.
  set (sha := if has_sha256sum w then sha256_hex (slot_cmd sl) else "").
  assert (str_forallb is_hex_lower sha = true) as Hsha.
  { subst sha. destruct (has_sha256sum w); [apply sha256_hex_lower|done]. }
  rewrite parse_probe_cmd by done.
  assert (∀ p, present p = true →
    let q := fold_left parse_probe_line
               (splitlines ("SIZE " +:+ str_of_nat (String.length (out_file w h cid k)) +:+ nl)) p in
    present q = true ∧ cmd_sha256 q = cmd_sha256 p ∧ started q = started p) as Hsize.
  { intros p Hp. change nl with (nl +:+ "") at 1.
    rewrite splitlines_field by (done || apply solid_digits, str_of_nat_digits).
    cbn [fold_left splitlines splitlines_keep map].
    by apply (keeps_fields p "SIZE"); [right|]. }
  destruct (slot_started sl) as [t|] eqn:Est.
  - destruct Hst as [[=]|[h' [= ->]]]. destruct (epoch_ok h') as [Hpos [q Hq]].
    assert (parse_probe_line (mkProbe true sha None None 0) ("STARTED " +:+ str_of_Z (epoch w h')) =
            mkProbe true sha (Some q) None 0) as Hline.
    { change (parse_probe_line (mkProbe true sha None None 0) ("STARTED " +:+ str_of_Z (epoch w h')))
        with (match py_float (PStr (str_strip (str_of_Z (epoch w h')))) with
              | Ok q => mkProbe true sha (Some q) None 0
              | Raise _ => mkProbe true sha None None 0 end).
      rewrite solid_strip by apply solid_Z. simpl. by rewrite Hq. }
    rewrite <- !str_app_assoc, splitlines_field by (done || apply solid_Z).
    cbn [fold_left]. rewrite Hline. destruct (rc_file w h cid k) as [r|].
    + rewrite <- !str_app_assoc, splitlines_field by (done || apply solid_Z). cbn [fold_left].
      destruct (keeps_fields (mkProbe true sha (Some q) None 0) "RC" (str_of_Z r)) as (H1 & H2 & H3);
        [by left|done|].
      destruct (Hsize _ H1) as (H4 & H5 & H6). change ("RC " +:+ str_of_Z r) with ("RC" +:+ " " +:+ str_of_Z r).
      rewrite H4, H5, H6, H2, H3. simpl. split; [done|]. split; [done|]. split; [done|by eexists].
    + destruct (Hsize (mkProbe true sha (Some q) None 0) eq_refl) as (H4 & H5 & H6).
      match goal with |- context [EmptyString +:+ ?x] => change (EmptyString +:+ x) with x end.
      rewrite H4, H5, H6. simpl. split; [done|]. split; [done|]. split; [done|by eexists].
  - destruct (Hsize (mkProbe true sha None None 0) eq_refl) as (H4 & H5 & H6).
    match goal with |- context [EmptyString +:+ ?x] => change (EmptyString +:+ x) with x end.
    rewrite H4, H5, H6. simpl. split; [done|]. split; [done|].
    split; [by intros [? [=]]|done].
Qed.

End probe.
End MiniLedger.
