(* ===== verification/MiniResumeSpec.v ===== *)
(** * A killed worker and its replacement make one run

    However often the worker is killed and started again, each command of the
    conversation is started at most once in its container, in order, and the
    conversation and the commands at the end are those of a run that was never
    interrupted. *)

From S2P Require Import Prelude PyStr PyJson PyJsonLoads Sha256 StepCheckpoint MiniResume MiniLedger.
Local Open Scope string_scope.
Local Open Scope nat_scope.
Local Open Scope list_scope.

Module MiniResumeSpec.
Import Sha256 StepCheckpoint MiniResume MiniLedger.

Section resume.
Context `{Hrepr : FloatRepr} `{Hparse : FloatParse} {S : Type} `{Hstore : !Store S}.
Context (w : world) (cfg : config) (fuel : nat) (kwargs : doc).
Context (fresh : Q → Q → Prop) (storable : Q → doc → Prop) `{Hlaw : !LawfulStore S fresh storable}.

(** The store is on, keeps every document that is JSON and forgets nothing by
    itself; what is said in the run is JSON; docker answers; ids of containers are
    new; the commands go through the ledger. *)
Context (Hfresh : ∀ t t', fresh t t') (Hstorable : ∀ t d, json_ok (PDict d) → storable t d).
Context (Hfloat : ∀ q, json_float q) (Hjson : speaks_json w) (Hkwargs : json_ok (PDict kwargs)).
Context (Henabled : enabled = true) (Hmode : ledger_mode cfg = true).
Context (Hkey : str_nonempty (run_key cfg) = true).
Context (Hname : plain_name (name cfg)) (Hagent : startswith "agent-" (name cfg) = true).
Context (Hup : ∀ h, docker_call w h = Up).
Context (Hids : ∀ h h' cid, run_container w h = Ok cid → run_container w h' = Ok cid →
  List.length h = List.length h').
Context (Hidne : ∀ h, run_container w h ≠ Ok "").
Context (Hepoch : ∀ h, (0 <= epoch w h)%Z ∧ is_Some (float_parse (str_of_Z (epoch w h)))).
Context (Hexit : ∀ e, ∃ d, format_exit w e = PDict d ∧ dict_get "role" d = Some (PStr "exit")).
Context (Hanswer : ∀ ms h m, query_model w ms h = Answer m → truthy m = true).

Local Notation M := (C S).
Local Notation sys := (sys S).

(** ** What the store says *)

Definition agree (d d' : doc) : Prop :=
  ∀ f, f ≠ "schema" → f ≠ "updated_at" → dict_get f d' = dict_get f d.

Definition holds (st : S) (n : string) (o : option doc) : Prop :=
  ∀ t, ∃ o', load t (run_key cfg) n st = (Ok o', st) ∧
    match o, o' with
    | None, None => True
    | Some d, Some d' => agree d d'
    | _, _ => False
    end.

Lemma env_plain : plain_name "env".
Proof. done. Qed.

Lemma name_ne : name cfg ≠ "env".
Proof. intros E. by rewrite E in Hagent. Qed.

Lemma holds_save t n d st st' :
  json_ok (PDict d) → save t (run_key cfg) n d st = (Ok tt, st') → holds st' n (Some d).
Proof.
  intros Hd Hs t'. destruct (load_save _ _ _ _ _ _ _ Hs (Hstorable t d Hd) (Hfresh t t')) as (d' & Hl & Ha).
  exists (Some d'). split; [exact Hl|]. exact Ha.
Qed.

Lemma holds_save_ne t n n' d st st' o :
  save t (run_key cfg) n d st = (Ok tt, st') → plain_name n → plain_name n' → n ≠ n' →
  holds st n' o → holds st' n' o.
Proof.
  intros Hs Hn Hn' Hne Ho t'. destruct (Ho t') as (o' & Hl & Ha). exists o'. split; [|done].
  pose proof (load_save_ne t t' _ _ _ _ _ _ Hs Hn Hn' Hne) as E. rewrite Hl in E. simpl in E.
  pose proof (load_pure Hfresh t' (run_key cfg) n' st') as Hp.
  destruct (load t' (run_key cfg) n' st'). simpl in *. by subst.
Qed.

Lemma holds_purge st n : holds (purge_run (run_key cfg) st) n None.
Proof. intros t. exists None. split; [apply load_purge|done]. Qed.

(** ** Durable states

    What a kill leaves behind.  [l] is what the recorded container has run. *)

Definition field (d : doc) (k : string) (v : pyval) : Prop := dict_get k d = Some v.

(** A record the agent wrote, with the conversation and the number of commands. *)
Record written (d : doc) (status : string) (msgs : list pyval) (n : Z) : Prop := {
  rd_fingerprint : field d "fingerprint" (PStr (fingerprint cfg));
  rd_status : field d "status" (PStr status);
  rd_step : ∃ z, field d "step" (PInt z);
  rd_env_seq : field d "env_seq" (PInt n);
  rd_calls : ∃ z, field d "n_calls" (PInt z);
  rd_cost : ∃ q, field d "cost" (PFloat q);
  rd_elapsed : ∃ q, field d "elapsed_s" (PFloat q);
  rd_resumes : ∃ z, field d "resume_count" (PInt z);
  rd_replays : ∃ z, field d "replayed_command_count" (PInt z);
  rd_vars : ∃ v, field d "extra_template_vars" (PDict v) ∧ json_ok (PDict v);
  rd_messages : field d "messages" (PList msgs)
}.

Definition running_doc (d : doc) (msgs : list pyval) (n : nat) : Prop :=
  written d "running" msgs (Z.of_nat n).

Definition half_doc (d : doc) (m : pyval) (n : nat) : Prop :=
  ∃ t, field d "pending" (PDict [("message", m); ("first_seq", PInt (Z.of_nat n + 1)); ("issued_at", PFloat t)]).

(** The agent's record, against the commands run: none yet, a boundary, or the
    middle of a turn. *)
Inductive agent_view (st : S) : list string → option string → Prop :=
| av_none : holds st (name cfg) None → agent_view st [] None
| av_boundary d conv l :
    holds st (name cfg) (Some d) → running_doc d conv (List.length l) →
    dict_get "pending" d = None → ideal w conv l → agent_view st l None
| av_half d conv l h m j :
    holds st (name cfg) (Some d) → running_doc d conv (List.length l) →
    half_doc d m (List.length l) → ideal w conv l → query_model w conv h = Answer m →
    j ≤ List.length (commands m) →
    agent_view st (l ++ take j (commands m)) (commands m !! j).

Definition env_at (st : S) (cid : string) (mk : bool) : Prop :=
  ∃ d, holds st "env" (Some d) ∧
    field d "container_id" (PStr cid) ∧ field d "fingerprint" (PStr (run_fingerprint_ cfg)) ∧
    field d "image" (PStr (image cfg)) ∧ field d "cwd" (PStr (cwd cfg)) ∧
    field d "marker_enabled" (PBool mk).

(** What was launched in a container is what an uninterrupted run launches. *)
Definition sound (c : container) (msgs : list pyval) : Prop :=
  ∃ l, ends w msgs l ∧ launched c = numbered l.

(** The agent's record is that of a finished run. *)
Definition done_record (s : sys) : Prop :=
  ∃ d n msgs, holds (store s) (name cfg) (Some d) ∧ written d "done" msgs n ∧
    dict_get "pending" d = None ∧ ∃ cid c, docker s !! cid = Some c ∧ sound c msgs.

(** Every container came from [docker run] and is sound. *)
Definition tidy (s : sys) : Prop :=
  ∀ cid c, docker s !! cid = Some c →
    (∃ msgs, sound c msgs) ∧
    ∃ h, run_container w h = Ok cid ∧ List.length h ≤ List.length (past s).

(** The container [cid] has run [l] and may have [next] written down. *)
Definition ran (s : sys) (cid : string) (mk : bool) (l : list string) (next : option string) : Prop :=
  cid ≠ "" ∧ env_at (store s) cid mk ∧ ∃ c, docker s !! cid = Some c ∧ ledger w c l mk next.

Definition durable (s : sys) : Prop :=
  tidy s ∧
  ((holds (store s) "env" None ∧ holds (store s) (name cfg) None) ∨ done_record s ∨
   ∃ cid mk l next, ran s cid mk l next ∧ agent_view (store s) l next).

(** ** A logic for computations that may be killed *)

Definition triple {A} (P : sys → Prop) (m : M A) (Q : A → sys → Prop) (E : err → sys → Prop) : Prop :=
  ∀ s, P s → match m s with
             | (Ret a, s') => Q a s'
             | (Exc e, s') => E e s'
             | (Crash, s') => durable s'
             end.

Lemma triple_ret {A} (a : A) (P : sys → Prop) (Q : A → sys → Prop) E :
  (∀ s, P s → Q a s) → triple P (mret a) Q E.
Proof. intros H s Hs. by apply H. Qed.

Lemma triple_raise {A} e (P : sys → Prop) (Q : A → sys → Prop) (E : err → sys → Prop) :
  (∀ s, P s → E e s) → triple P (raise e) Q E.
Proof. intros H s Hs. by apply H. Qed.

Lemma triple_bind {A B} P (m : M A) (f : A → M B) R Q E :
  triple P m R E → (∀ a, triple (R a) (f a) Q E) → triple P (m ≫= f) Q E.
Proof.
  intros Hm Hf s Hs. specialize (Hm s Hs). unfold mbind, C_bind.
  destruct (m s) as [[a|e|] s1]; [|done|done]. by apply Hf.
Qed.

Lemma triple_attempt {A} P (m : M A) handler Q E E' :
  triple P m Q E' → (∀ e, triple (E' e) (handler e) Q E) → triple P (attempt m handler) Q E.
Proof.
  intros Hm Hh s Hs. specialize (Hm s Hs). unfold attempt.
  destruct (m s) as [[a|e|] s1]; [done| |done]. by apply Hh.
Qed.

Lemma triple_weaken {A} (P P' : sys → Prop) (m : M A) (Q Q' : A → sys → Prop) (E E' : err → sys → Prop) :
  triple P' m Q' E' → (∀ s, P s → P' s) → (∀ a s, Q' a s → Q a s) → (∀ e s, E' e s → E e s) →
  triple P m Q E.
Proof.
  intros Hm HP HQ HE s Hs. specialize (Hm s (HP s Hs)).
  destruct (m s) as [[a|e|] s1]; auto.
Qed.

Lemma triple_post {A} P (m : M A) (Q Q' : A → sys → Prop) E :
  triple P m Q' E → (∀ a s, Q' a s → Q a s) → triple P m Q E.
Proof. intros Hm HQ. by eapply triple_weaken; [exact Hm| |exact HQ|]. Qed.

Lemma triple_pre {A} (P P' : sys → Prop) (m : M A) Q E :
  triple P' m Q E → (∀ s, P s → P' s) → triple P m Q E.
Proof. intros Hm HP. by eapply triple_weaken; [exact Hm|exact HP| |]. Qed.

Lemma triple_get {A} (f : sys → M A) P Q E :
  (∀ s, P s → triple (λ s', s' = s) (f s) Q E) → triple P (cget ≫= f) Q E.
Proof. intros Hf s Hs. by apply (Hf s Hs s). Qed.

Lemma triple_clock {A} (f : Q → M A) P Q E :
  (∀ t, triple P (f t) Q E) → triple P (clock w ≫= f) Q E.
Proof. intros Hf s Hs. by apply Hf. Qed.

Lemma triple_of_res {A B} (r : res A) (f : A → M B) P Q E :
  (∀ a, r = Ok a → triple P (f a) Q E) → (∀ e s, r = Raise e → P s → E (Error e) s) →
  triple P (of_res r ≫= f) Q E.
Proof. intros Hf He s Hs. destruct r as [a|e]; [by apply Hf|by apply He]. Qed.

Definition asked (a : ask) (s : sys) : sys :=
  mkSys (ag s) (cx s) (en s) (store s) (docker s) (past s ++ [a]).

Lemma tidy_ext s s' :
  docker s' = docker s → List.length (past s) ≤ List.length (past s') → tidy s → tidy s'.
Proof.
  intros Hd Hp Ht cid c Hc. rewrite Hd in Hc. destruct (Ht cid c Hc) as [? (h & ? & ?)].
  split; [done|]. exists h. split; [done|lia].
Qed.

Lemma durable_ext s s' :
  store s' = store s → docker s' = docker s → List.length (past s) ≤ List.length (past s') →
  durable s → durable s'.
Proof.
  intros Hs Hd Hp [Ht Hv]. split; [by eapply tidy_ext|]. rewrite Hs.
  destruct Hv as [?|[Hr|(cid & mk & l & next & Hr & Ha)]]; [by left|right; left|right; right].
  { unfold done_record in *. by rewrite Hs, Hd. }
  exists cid, mk, l, next. split; [|done]. unfold ran in *. by rewrite Hs, Hd.
Qed.

Lemma tidy_asked a s : tidy s → tidy (asked a s).
Proof. apply tidy_ext; [done|]. simpl. rewrite length_app. lia. Qed.

Lemma durable_asked a s : durable s → durable (asked a s).
Proof. apply durable_ext; [done|done|]. simpl. rewrite length_app. lia. Qed.

(** A call may be the last thing before a kill; else it happens. *)
Lemma triple_prim {A} a (f : sys → outcome A * sys) P Q E :
  (∀ s, P s → durable s) →
  (∀ s, P s → match f (mkSys (ag s) (cx s) (en s) (store s) (docker s) (past s ++ [a])) with
              | (Ret x, s') => Q x s'
              | (Exc e, s') => E e s'
              | (Crash, s') => durable s'
              end) →
  triple P (prim w a f) Q E.
Proof. intros HD Hf s Hs. unfold prim. destruct (die w (past s)); [by apply durable_asked, HD|by apply Hf]. Qed.

(** ** What the calls leave untouched *)

(** A container that only changes in its ledger. *)
Lemma tidy_set cid c s :
  tidy s → is_Some (docker s !! cid) → (∃ msgs, sound c msgs) → tidy (set_container cid c s).
Proof.
  intros Ht [c0 H0] Hl cid' c'. simpl. destruct (decide (cid = cid')) as [<-|Hne].
  - rewrite lookup_insert_eq. intros [= <-]. split; [done|]. by apply (Ht cid c0).
  - rewrite lookup_insert_ne by done. apply Ht.
Qed.

(** ** What is written down is JSON *)

Definition known (s : sys) : Prop := json_ok (PDict (extra_template_vars (ag s))).

Lemma known_update d e : json_ok (PDict d) → json_ok (PDict e) → json_ok (PDict (dict_update d e)).
Proof.
  intros Hd He%json_ok_dict. destruct He as [_ He]. unfold dict_update. revert d Hd.
  induction He as [|[k v] e Hv _ IH]; intros d Hd; [done|]. simpl. by apply IH, json_ok_set.
Qed.

Lemma record_json s t status k msgs : known s → Forall json_ok msgs →
  json_ok (PDict (record cfg s t status k msgs [])).
Proof.
  intros Hk Hm. apply json_ok_dict. split; [apply (bool_decide_unpack _); by vm_compute|].
  unfold record. simpl app. repeat (apply Forall_cons; split; [try exact I|]); [apply Hfloat..|exact Hk| |done].
  by apply json_ok_list.
Qed.

Lemma pending_json s t t' status k msgs m : known s → Forall json_ok msgs → json_ok m →
  json_ok (PDict (record cfg s t status k msgs [("pending", pending_doc s t' m)])).
Proof.
  intros Hk Hm Hp. change (record cfg s t status k msgs [("pending", pending_doc s t' m)])
    with (record cfg s t status k msgs [] ++ [("pending", pending_doc s t' m)]).
  rewrite <- dict_set_fresh by done. apply json_ok_set; [by apply record_json|]. unfold pending_doc. apply json_ok_dict.
  split; [apply (bool_decide_unpack _); by vm_compute|]. repeat (apply Forall_cons; split; [try done|]); [apply Hfloat|done].
Qed.

(** ** Between turns *)

(** The memory and the disk after whole turns. *)
Record boundary_at (cid : string) (mk : bool) (l : list string) (s : sys) : Prop := {
  bd_cid : container_id (en s) = cid;
  bd_mk : marker_enabled (en s) = mk;
  bd_seq : seq (en s) = Z.of_nat (List.length l);
  bd_tidy : tidy s;
  bd_ran : ran s cid mk l None;
  bd_view : agent_view (store s) l None;
  bd_ideal : ideal w (messages (ag s)) l;
  bd_pending : pending (cx s) = None;
  bd_known : known s
}.

Definition boundary (s : sys) : Prop := ∃ cid mk l, boundary_at cid mk l s.

Lemma boundary_durable s : boundary s → durable s.
Proof. intros (cid & mk & l & []). split; [done|]. right. right. by exists cid, mk, l, None. Qed.

(** The messages of the agent are those of a run that launched what one of the
    containers launched. *)
Definition ended (s : sys) : Prop :=
  ∃ cid c, docker s !! cid = Some c ∧ sound c (messages (ag s)).

Definition said (ms : list pyval) (s : sys) : sys :=
  mkSys (mkAgent (messages (ag s) ++ ms) (n_calls (ag s)) (cost (ag s)) (start_time (ag s))
           (extra_template_vars (ag s))) (cx s) (en s) (store s) (docker s) (past s).

(** Closing messages end with the exit message. *)
Definition closes (ms : list pyval) : Prop :=
  ∃ d, last ms = Some (PDict d) ∧ dict_get "role" d = Some (PStr "exit").

(** The conversation is over, recorded or not. *)
Definition closing (s : sys) : Prop := durable s ∧ known s ∧ ended s ∧ closes (messages (ag s)).

Lemma closes_app ms ms' : closes ms' → closes (ms ++ ms').
Proof.
  intros (d & Hl & Hr). exists d. split; [|done]. rewrite last_app. by rewrite Hl.
Qed.

Lemma last_words_close ms : last_words w ms → closes ms.
Proof.
  intros (m & -> & [[e ->]|(? & ? & ? & ->)]); [|by eexists].
  destruct (Hexit e) as (d & -> & Hr). by exists d.
Qed.

Lemma said_durable ms s : durable s → durable (said ms s).
Proof. by apply durable_ext. Qed.

Lemma boundary_closing ms s : boundary s → last_words w ms → closing (said ms s).
Proof.
  intros Hb Hc. split; [by apply said_durable, boundary_durable|].
  destruct Hb as (cid & mk & l & Hb). split; [apply (bd_known _ _ _ _ Hb)|].
  split; [|by apply closes_app, last_words_close]. destruct (bd_ran _ _ _ _ Hb) as (_ & _ & c & Hc' & Hl).
  exists cid, c. split; [done|]. exists l. split; [|apply (led_launched _ _ _ _ _ Hl)].
  apply ends_said; [apply (bd_ideal _ _ _ _ Hb)|done].
Qed.

Lemma exit_last_words status content submission : last_words w [exit_message status content submission].
Proof. eexists. split; [done|]. right. by do 3 eexists. Qed.

Lemma error_last_words e : last_words w [format_exit w e].
Proof. eexists. split; [done|]. left. by eexists. Qed.

(** ** Inside a turn

    The record on disk holds the turn [m] after the conversation [conv]; [l0] ran
    before it, and [j] of its commands have been started. *)

Section turn.
Context (cid : string) (mk : bool) (d : doc) (conv : list pyval) (l0 : list string).
Context (hq : history) (m : pyval).
Context (Hrun : running_doc d conv (List.length l0)) (Hhalf : half_doc d m (List.length l0)).
Context (Hideal : ideal w conv l0) (Hasked : query_model w conv hq = Answer m).

Record mid (j : nat) (s : sys) : Prop := {
  mid_le : j ≤ List.length (commands m);
  mid_cid : container_id (en s) = cid;
  mid_mk : marker_enabled (en s) = mk;
  mid_tidy : tidy s;
  mid_ran : ran s cid mk (l0 ++ take j (commands m)) (commands m !! j);
  mid_rec : holds (store s) (name cfg) (Some d);
  mid_msgs : messages (ag s) = conv ++ [m];
  mid_pending : pending (cx s) = None;
  mid_known : known s
}.

Lemma mid_durable j s : mid j s → durable s.
Proof.
  intros []. split; [done|]. right. right. do 4 eexists. split; [done|]. by eapply av_half.
Qed.

Lemma mid_asked a j s : mid j s → mid j (asked a s).
Proof. intros []. split; try done. by apply tidy_asked. Qed.

(** What the environment's counter is does not matter to it. *)
Lemma mid_with_seq k j s :
  mid j s → mid j (mkSys (ag s) (cx s) (with_seq k (en s)) (store s) (docker s) (past s)).
Proof. intros []. split; try done. Qed.

Definition at_seq (k : Z) (j : nat) (s : sys) : Prop := mid j s ∧ seq (en s) = k.

Lemma mid_container j s : mid j s →
  ∃ c, docker s !! cid = Some c ∧ the_container cid s = c ∧
       ledger w c (l0 ++ take j (commands m)) mk (commands m !! j).
Proof.
  intros [_ _ _ _ (_ & _ & c & Hc & Hl) _ _ _]. exists c. unfold the_container. by rewrite Hc.
Qed.

(** A call that reads the container. *)
Lemma mid_read {A} op k (rep : docker_reply → history → container → A) j (P : sys → Prop)
    (Q : A → sys → Prop) E :
  (∀ s, P s → mid j s) →
  (∀ s s' c, P s → docker s !! cid = Some c → past s' = past s ++ [AskDocker op cid k] →
     mid j s' → en s' = en s → ag s' = ag s → docker s' = docker s → store s' = store s →
     cx s' = cx s → Q (rep Up (past s') c) s') →
  triple P (docker_op w op k keep rep) Q E.
Proof.
  intros HP HQ s Hs. pose proof (HP s Hs) as Hm. destruct (mid_container j s Hm) as (c & Hc & Ht & _).
  unfold docker_op, prim. destruct (die w (past s)); [by eapply durable_asked, mid_durable|].
  rewrite Hup. cbn [en]. rewrite (mid_cid _ _ Hm). unfold keep.
  unfold the_container in *. cbn [docker]. rewrite Hc. simpl.
  unfold set_container. cbn [ag cx en store docker past]. rewrite insert_id by done.
  apply (HQ s (asked (AskDocker op cid k) s) c); try done. by apply mid_asked.
Qed.

(** A call that changes the ledger. *)
Lemma mid_write {A} op k (eff : history → container → container)
    (rep : docker_reply → history → container → A) j j' (P : sys → Prop) (Q : A → sys → Prop) E :
  (∀ s, P s → mid j s) →
  (∀ s c h, P s → docker s !! cid = Some c →
     ledger w c (l0 ++ take j (commands m)) mk (commands m !! j) →
     ledger w (eff h c) (l0 ++ take j' (commands m)) mk (commands m !! j')) →
  j' ≤ List.length (commands m) →
  (∀ s s' c h, P s → docker s !! cid = Some c → mid j' s' → en s' = en s →
     docker s' !! cid = Some (eff h c) → Q (rep Up h (eff h c)) s') →
  triple P (docker_op w op k eff rep) Q E.
Proof.
  intros HP Heff Hj' HQ s Hs. pose proof (HP s Hs) as Hm.
  destruct (mid_container j s Hm) as (c & Hc & Ht & Hl).
  unfold docker_op, prim. destruct (die w (past s)); [by eapply durable_asked, mid_durable|].
  rewrite Hup. cbn [en past]. rewrite (mid_cid _ _ Hm). unfold the_container in *. cbn [docker].
  rewrite Hc. simpl. pose proof (Heff s c (past s ++ [AskDocker op cid k]) Hs Hc Hl) as Hl'.
  apply (HQ s); [done|done| |done|].
  - destruct Hm as [H1 H2 H3 H4 (H5 & H6 & _) H7 H8 H9]. split; try done.
    + apply (tidy_set cid _ (asked (AskDocker op cid k) s)); [by apply tidy_asked|by eexists|].
      exists (conv ++ [m]), (l0 ++ take j' (commands m)). split; [by eapply ends_cut; [..|left]|].
      apply (led_launched _ _ _ _ _ Hl').
    + split; [done|]. split; [done|]. exists (eff (past s ++ [AskDocker op cid k]) c).
      split; [|done]. simpl. by rewrite lookup_insert_eq.
  - simpl. by rewrite lookup_insert_eq.
Qed.

(** How a turn is cut short. *)
Definition cut (e : err) (s : sys) : Prop :=
  (∃ j, mid j s) ∧ match e with Interrupt ms => last_words w ms | Error _ => True end.

(** At least [i] commands of the turn were started, and the counter says [k]. *)
Definition from (k : Z) (i : nat) (s : sys) : Prop := ∃ j, i ≤ j ∧ mid j s ∧ seq (en s) = k.

Lemma from_durable k i s : from k i s → durable s.
Proof. intros (j & _ & Hm & _). by eapply mid_durable. Qed.

Lemma from_cut k i e s : from k i s → cut (Error e) s.
Proof. intros (j & _ & Hm & _). split; [by exists j|done]. Qed.

(** A call that only reads keeps what was started. *)
Lemma from_read {A} op n (rep : docker_reply → history → container → A) k i E :
  triple (from k i) (docker_op w op n keep rep) (λ _, from k i) E.
Proof.
  intros s (j & Hij & Hm & Hk). revert s Hm Hk.
  enough (triple (at_seq k j) (docker_op w op n keep rep) (λ _, from k i) E) as Ht.
  { intros s Hm Hk. by apply (Ht s). }
  eapply (mid_read op n rep j); [by intros s [? _]|].
  intros s s' c [_ Hk] _ _ Hm' He _ _ _ _. exists j. by rewrite He.
Qed.

Lemma probe_from n k i E : triple (from k i) (probe w n) (λ _, from k i) E.
Proof.
  intros s Hs. unfold probe. eapply triple_bind; [apply from_read| |exact Hs].
  intros t. by apply triple_ret.
Qed.

Lemma read_out_from n k i E : triple (from k i) (read_out w n) (λ _, from k i) E.
Proof.
  intros s Hs. unfold read_out. eapply triple_bind; [apply from_read| |exact Hs].
  intros t. by apply triple_ret.
Qed.

Lemma exec_wait_from n k i E : triple (from k i) (exec_wait w n) (λ _, from k i) E.
Proof. intros s Hs. unfold exec_wait. by apply from_read. Qed.

Lemma wait_from n t b k i E : triple (from k i) (wait w cfg n t b) (λ _, from k i) E.
Proof.
  unfold wait. apply triple_clock. intros t'.
  eapply triple_bind with (R := λ _, from k i).
  { destruct (Qle_bool t t'); [by apply triple_ret|apply exec_wait_from]. }
  intros [e|got]; [by apply triple_ret|].
  destruct (match got with Some _ => _ | None => _ end) as [[code out]|]; [by apply triple_ret|].
  eapply triple_bind; [apply probe_from|]. intros st. destruct (rc st).
  - unfold harvest. eapply triple_bind; [apply read_out_from|]. intros; by apply triple_ret.
  - unfold timeout_output. eapply triple_bind; [apply read_out_from|]. intros out.
    apply triple_get. intros s Hs s' ->. exact Hs.
Qed.

(** The sentinel of the task ends the conversation. *)
Lemma check_finished_from out k i :
  triple (from k i) (check_finished out) (λ _, from k i) cut.
Proof.
  unfold check_finished. destruct (splitlines_keep _) as [|first rest]; [by apply triple_ret|].
  destruct (_ && _); [|by apply triple_ret]. intros s (j & _ & Hm & _). split; [by exists j|]. apply exit_last_words.
Qed.

(** *** One command

    The [i]-th command of the turn, its text [t] and its slot. *)

Section command.
Context (i : nat) (t : string) (Hcmd : commands m !! i = Some t).
Let k : Z := Z.of_nat (Datatypes.S (List.length l0 + i)).

Lemma length_started j : j ≤ List.length (commands m) →
  List.length (l0 ++ take j (commands m)) = List.length l0 + j.
Proof. intros Hj. rewrite length_app, length_take. lia. Qed.

Lemma slot_started_before j c :
  i < j → ledger w c (l0 ++ take j (commands m)) mk (commands m !! j) →
  ∃ h, slots c !! k = Some (mkSlot t (Some (epoch w h))).
Proof.
  intros Hij Hl. apply (led_started _ _ _ _ _ Hl).
  rewrite lookup_app_r by lia. replace (_ + i - _) with i by lia. by rewrite lookup_take_lt.
Qed.

Lemma slot_to_start c sl :
  ledger w c (l0 ++ take i (commands m)) mk (commands m !! i) → slots c !! k = Some sl →
  sl = mkSlot t None.
Proof.
  intros Hl Hsl. apply lookup_lt_Some in Hcmd as Hlt.
  destruct (ledger_next_slot _ _ _ _ _ sl Hl) as [Hn Hc].
  { by rewrite length_started by lia. }
  rewrite Hcmd in Hc. destruct sl as [sc ss]. simpl in *. congruence.
Qed.

(** What a probe has told of the slot. *)
Definition seen_at (st : Probe) (j : nat) (s : sys) : Prop :=
  i ≤ j ∧ mid j s ∧ seq (en s) = k ∧
  (if bool_decide (i < j) then present st = true ∧ is_Some (started st) else started st = None) ∧
  (present st = true → cmd_sha256 st = (if has_sha256sum w then sha256_hex t else "") ∧
     ∃ c sl, docker s !! cid = Some c ∧ slots c !! k = Some sl ∧ slot_cmd sl = t).

Definition seen (st : Probe) (s : sys) : Prop := ∃ j, seen_at st j s.

Lemma seen_from st s : seen st s → from k i s.
Proof. intros (j & Hij & Hm & Hk & _). by exists j. Qed.

Lemma probe_seen E : triple (from k i) (probe w k) seen E.
Proof.
  intros s (j & Hij & Hm & Hk). revert s Hm Hk.
  enough (triple (at_seq k j) (probe w k) seen E) as Ht by (intros s Hm Hk; by apply (Ht s)).
  intros s0 Hs0. unfold probe. eapply triple_bind;
    [|intros o; apply (triple_ret (parse_probe o) (λ s, seen (parse_probe o) s)); done|exact Hs0].
  eapply (mid_read _ _ _ j); [by intros s [? _]|].
  intros s s' c [Hm Hk] Hc _ Hm' He _ Hd _ _. simpl. exists j. unfold seen_at. rewrite He.
  do 3 (split; [done|]). destruct (mid_container j s Hm) as (c' & Hc' & _ & Hl).
  rewrite Hc in Hc'. injection Hc' as <-.
  pose proof (probe_reports w Hepoch k (past s') (container_id (en s0)) c) as Hrep. simpl in Hrep.
  destruct (decide (i < j)) as [Hlt|Hge].
  - destruct (slot_started_before j c Hlt Hl) as [h Hsl]. rewrite Hsl in Hrep.
    destruct Hrep as (Hp & Hsha & Hst); [right; by exists h|]. rewrite bool_decide_eq_true_2 by done.
    split; [split; [done|]; by apply Hst|]. intros _. split; [done|]. by exists c, (mkSlot t (Some (epoch w h))); rewrite Hd.
  - assert (j = i) as -> by lia. rewrite bool_decide_eq_false_2 by lia.
    destruct (slots c !! k) as [sl|] eqn:Hsl.
    + pose proof (slot_to_start c sl Hl Hsl) as ->. destruct Hrep as (Hp & Hsha & Hst); [by left|].
      split.
      { simpl in Hst. destruct (started _); [|done]. exfalso. by apply Hst. }
      intros _. split; [done|]. by exists c, (mkSlot t None); rewrite Hd.
    + rewrite Hrep. done.
Qed.

Lemma read_cmd_seen st E :
  present st = true → triple (seen st) (read_cmd w k) (λ b s, b = t ∧ seen st s) E.
Proof.
  intros Hp s (j & Hs). revert s Hs.
  enough (triple (seen_at st j) (read_cmd w k) (λ b s, b = t ∧ seen st s) E) as Ht
    by (intros s Hs; by apply (Ht s)).
  unfold read_cmd. eapply triple_bind with (R := λ b s, b = Some t ∧ seen st s);
    [|intros b; apply triple_ret; by intros s [-> Hs]].
  eapply (mid_read _ _ _ j); [by intros s (_ & ? & _)|].
  intros s s' c (Hij & Hm & Hk & Hst & Hsl) Hc _ Hm' He _ Hd _ _. simpl.
  destruct (Hsl Hp) as [Hsha (c' & sl & Hc' & Hk' & Ht)]. rewrite Hc in Hc'. injection Hc' as <-.
  rewrite Hk'. split; [by rewrite Ht|]. exists j. unfold seen_at. rewrite He.
  do 4 (split; [done|]). intros _. split; [done|]. exists c, sl. by rewrite Hd.
Qed.

Lemma same_command_seen st v :
  t = match v with PStr t => t | _ => "" end → present st = true →
  triple (seen st) (same_command w st k v) (λ b s, b = true ∧ (∃ t', v = PStr t') ∧ seen st s) cut.
Proof.
  intros Hv Hp. destruct v; try (apply triple_raise; intros s0 Hs0%seen_from; by eapply from_cut).
  subst s. simpl. destruct (str_nonempty (cmd_sha256 st)) eqn:Hne.
  - apply triple_ret. intros s0 (j & Hs0). destruct Hs0 as (? & ? & ? & ? & Hsl).
    split; [|split; [by eexists|by exists j]]. destruct (Hsl Hp) as [Hsha _].
    apply bool_decide_eq_true_2. rewrite Hsha in Hne |- *. by destruct (has_sha256sum w).
  - eapply triple_bind; [by apply read_cmd_seen|]. intros b. apply triple_ret.
    intros s0 [-> Hs0]. split; [by apply bool_decide_eq_true_2|]. split; [by eexists|done].
Qed.

(** A command not started yet is written down and started. *)
Lemma issue_from st v :
  t = match v with PStr t => t | _ => "" end → started st = None →
  triple (seen st) (issue w k v) (λ _, from k (Datatypes.S i)) cut.
Proof.
  intros Hv Hst. apply lookup_lt_Some in Hcmd as Hlt.
  set (ready := λ s, at_seq k i s ∧
         ∃ c, docker s !! cid = Some c ∧ slots c !! k = Some (mkSlot t None)).
  assert (∀ s0, seen st s0 → at_seq k i s0) as Hat.
  { intros s0 (j & Hij & Hm & Hk & Hs & _). destruct (decide (i < j)).
    - rewrite bool_decide_eq_true_2 in Hs by done. destruct Hs as [_ [? Hs]]. congruence.
    - by replace i with j by lia. }
  unfold issue. eapply triple_bind with
    (R := λ (b : bool) s, (b = true → (∃ t', v = PStr t') ∧ ready s) ∧ at_seq k i s).
  - destruct v; try (apply triple_ret; intros s0 Hs0%Hat; done). subst s.
    eapply (mid_write _ _ _ _ i i); [by intros s0 [? _]%Hat| |lia|].
    + intros s0 c h _ _ Hl. rewrite Hcmd. unfold k. rewrite <- (length_started i) by lia. by eapply ledger_write.
    + intros s0 s1 c h Hs0%Hat Hc Hm' He Hd. destruct Hs0 as [_ Hk]. simpl.
      assert (at_seq k i s1) as Hs1 by (split; [done|by rewrite He]). split; [|done].
      intros _. split; [by eexists|]. split; [done|]. eexists. split; [exact Hd|].
      simpl. by rewrite lookup_insert_eq.
  - intros [|]; simpl.
    2:{ apply triple_raise. intros s0 [_ [Hm _]]. split; [by exists i|done]. }
    eapply triple_bind with (R := λ b s, b = true ∧ from k (Datatypes.S i) s).
    2:{ intros b s0 [-> Hs0]. exact Hs0. }
    unfold launch. apply triple_get. intros s0 [Hr Hs0]. destruct (Hr eq_refl) as [[t' ->] Hs1].
    clear Hr. simpl in Hv. subst t'. destruct Hs0 as [Hm _]. rewrite (mid_mk _ _ Hm).
    apply (triple_pre _ ready); [|by intros s1 ->].
    eapply (mid_write _ _ _ _ i (Datatypes.S i)); [by intros s2 [[? _] _]| |lia|].
    + intros s2 c h [_ (c' & Hc' & Hk)] Hc Hl. rewrite Hc in Hc'. injection Hc' as <-.
      apply ledger_weaken. rewrite (take_S_r _ _ _ Hcmd), app_assoc. unfold k in *.
      rewrite <- (length_started i) in * by lia. by eapply ledger_launch.
    + intros s2 s3 c h [[_ Hk] _] _ Hm' He _. split; [done|]. exists (Datatypes.S i).
      rewrite He. done.
Qed.

(** The ledger's own decision: a command that was started is waited for, another
    is written down and started. *)
Lemma execute_ledger_from v :
  t = match v with PStr t => t | _ => "" end →
  triple (from k i) (execute_ledger w cfg k v) (λ _, from k (Datatypes.S i)) cut.
Proof.
  intros Hv. unfold execute_ledger. eapply triple_bind; [apply probe_seen|]. intros st.
  eapply triple_bind with (R := λ b s, b = true ∧ seen st s).
  { destruct (present st) eqn:Hp; [|by apply triple_ret].
    eapply triple_post; [by apply same_command_seen|]. by intros b s0 (-> & _ & ?). }
  intros b s0 [-> Hs0]. simpl. revert s0 Hs0.
  eapply triple_bind with (R := λ _, from k (Datatypes.S i)).
  { destruct (started st) as [q|] eqn:Hst.
    - rewrite (bool_decide_eq_true_2 (is_Some _)) by done. intros s0 (j & Hs0).
      destruct (Hs0) as (Hij & Hm & Hk & Hb & _). destruct (decide (i < j)).
      + rewrite bool_decide_eq_true_2 in Hb by done. destruct Hb as [-> _]. simpl. by exists j.
      + rewrite bool_decide_eq_false_2 in Hb by done. congruence.
    - rewrite orb_true_r. eapply triple_bind; [by apply issue_from|]. intros u. apply probe_from. }
  intros st'. apply triple_clock. intros t'. eapply triple_bind; [apply wait_from|]. intros out.
  eapply triple_bind; [apply check_finished_from|]. intros []. by apply triple_ret.
Qed.

End command.

Lemma ledger_on k i s : from k i s → ledger_enabled cfg (en s) = true.
Proof.
  intros (j & _ & Hm & _). unfold ledger_enabled, resume_active. rewrite Hmode, Hkey, Henabled.
  rewrite (mid_cid _ _ Hm). destruct (mid_ran _ _ Hm) as [Hne _]. by destruct cid.
Qed.

Lemma execute_from i a :
  commands m !! i = Some (command_text a) →
  triple (from (Z.of_nat (List.length l0 + i)) i) (execute w cfg a)
    (λ _, from (Z.of_nat (List.length l0 + Datatypes.S i)) (Datatypes.S i)) cut.
Proof.
  intros Hc. unfold execute. apply triple_get. intros s (j & Hij & Hm & Hk).
  set (k := Z.of_nat (Datatypes.S (List.length l0 + i))). rewrite Hk.
  replace (_ + 1)%Z with k by lia. replace (List.length l0 + _) with (Datatypes.S (List.length l0 + i)) by lia.
  fold k. eapply triple_bind with (R := λ _, from k i).
  { intros s' ->. exists j. split; [done|]. split; [|done]. by apply mid_with_seq. }
  intros u. unfold command_text in Hc.
  apply triple_of_res; [|intros e s0 _; apply from_cut].
  intros raw Hraw. rewrite Hraw in Hc. rewrite (ledger_on (seq (en s)) i) by (by exists j).
  apply (execute_ledger_from i _ Hc). done.
Qed.

(** All the commands of the turn, from the [i]-th on. *)
Lemma execute_all_from actions i :
  drop i (commands m) = map command_text actions →
  triple (from (Z.of_nat (List.length l0 + i)) i) (execute_all w cfg actions)
    (λ _, from (Z.of_nat (List.length l0 + (i + List.length actions))) (i + List.length actions)) cut.
Proof.
  revert i. induction actions as [|a actions IH]; intros i Hd; simpl.
  - apply triple_ret. intros s. by rewrite !Nat.add_0_r.
  - eapply triple_bind.
    + apply (execute_from i a). rewrite <- (Nat.add_0_r i), <- lookup_drop, Hd. done.
    + intros out. eapply triple_bind.
      * apply IH. rewrite <- Nat.add_1_r, <- drop_drop, Hd. done.
      * intros outs. apply triple_ret. intros s. by rewrite <- !Nat.add_succ_comm.
Qed.

(** The whole turn, from wherever it was left. *)
Lemma execute_actions_from :
  triple (from (Z.of_nat (List.length l0)) 0) (execute_actions w cfg m) (λ _, boundary) cut.
Proof.
  unfold execute_actions. apply triple_of_res; [|intros e s _; apply from_cut].
  intros v Hv.
  destruct v as [| | | | |actions|]; try (apply triple_raise; intros s1; apply from_cut).
  assert (commands m = map command_text actions) as Hc by (unfold commands; by rewrite Hv).
  eapply triple_bind.
  { eapply triple_pre; [by apply (execute_all_from actions 0)|]. intros s. by rewrite Nat.add_0_r. }
  intros outs. apply triple_get. intros s (j & Hij & Hm & Hk) s' ->.
  simpl in *. assert (j = List.length actions) as ->.
  { pose proof (mid_le _ _ Hm) as Hle. rewrite Hc, length_map in Hle. lia. }
  assert (List.length (commands m) = List.length actions) as Hn by (by rewrite Hc, length_map).
  assert (take (List.length actions) (commands m) = commands m) as Ht by (apply take_ge; lia).
  assert (commands m !! List.length actions = None) as Hnone by (apply lookup_ge_None; lia).
  pose proof (ideal_turn w conv l0 hq (past s) m outs Hideal Hasked) as Hi.
  destruct Hm as [H1 H2 H3 H4 H5 H6 H7 H8]. rewrite Ht, Hnone in H5.
  exists cid, mk, (l0 ++ commands m). split; try done.
  - simpl. rewrite Hk, length_app. f_equal. lia.
  - rewrite <- Ht at 1. rewrite <- Hnone. by eapply av_half.
  - simpl. by rewrite H7, <- app_assoc.
Qed.

Lemma cut_closing e s :
  cut e s → closing (said (match e with Interrupt ms => ms | Error x => [format_exit w x] end) s).
Proof.
  intros [[j Hm] He]. split; [|split; [apply (mid_known _ _ Hm)|split]].
  - apply (durable_ext s); [done..|]. by eapply mid_durable.
  - destruct (mid_ran _ _ Hm) as (_ & _ & c & Hc & Hl). exists cid, c. split; [done|].
    exists (l0 ++ take j (commands m)). split; [|apply (led_launched _ _ _ _ _ Hl)].
    simpl. rewrite (mid_msgs _ _ Hm), <- app_assoc. eapply ends_cut; [done|done|right].
    destruct e; [done|apply error_last_words].
  - apply closes_app, last_words_close. destruct e; [done|apply error_last_words].
Qed.

End turn.

(** ** The store's calls *)

Lemma triple_save n d P Q E :
  json_ok (PDict d) → (∀ s, P s → durable s) →
  (∀ s t st, P s → save t (run_key cfg) n d (store s) = (Ok tt, st) →
     Q tt (set_store st (asked (AskStore "save" n) s))) →
  triple P (st_save w cfg n d) Q E.
Proof.
  intros Hd HD HQ. apply triple_prim; [done|]. intros s Hs. cbn [store past].
  destruct (save_total (now w (past s ++ [AskStore "save" n])) (run_key cfg) n d (store s)) as [st Hst];
    [by apply Hstorable|]. rewrite Hst. by eapply HQ.
Qed.

Lemma triple_load n P (Q : option doc → sys → Prop) (E : err → sys → Prop) :
  (∀ s, P s → durable s) →
  (∀ s t, P s → match (load t (run_key cfg) n (store s)).1 with
                | Ok o => Q o (asked (AskStore "load" n) s)
                | Raise e => E (Error e) (asked (AskStore "load" n) s)
                end) →
  triple P (st_load w cfg n) Q E.
Proof.
  intros HD HQ. apply triple_prim; [done|]. intros s Hs. cbn [store past].
  set (t := now w (past s ++ [AskStore "load" n])). specialize (HQ s t Hs).
  pose proof (load_pure Hfresh t (run_key cfg) n (store s)) as Hp.
  destruct (load t (run_key cfg) n (store s)) as [r st]. simpl in Hp. subst st. simpl in HQ.
  by destruct r.
Qed.

Lemma env_at_saved t d st st' cid mk :
  save t (run_key cfg) (name cfg) d st = (Ok tt, st') → env_at st cid mk → env_at st' cid mk.
Proof.
  intros Hs (d' & Hh & Hf). exists d'. split; [|done].
  eapply holds_save_ne; [exact Hs|done|done|apply name_ne|done].
Qed.

Lemma ran_saved a t d st s cid mk l next :
  save t (run_key cfg) (name cfg) d (store s) = (Ok tt, st) → ran s cid mk l next →
  ran (set_store st (asked a s)) cid mk l next.
Proof. intros Hs (H1 & H2 & H3). split; [done|]. split; [by eapply env_at_saved|done]. Qed.

(** ** A step of the agent *)

(** The model's answer has been appended; nothing of it is on disk. *)
Definition answered (m : pyval) (s : sys) : Prop :=
  ∃ cid mk l s' h, boundary_at cid mk l s' ∧ query_model w (messages (ag s')) h = Answer m ∧
    s = said [m] s'.

(** A turn is on disk and none of its commands has been waited for. *)
Definition in_turn (m : pyval) (s : sys) : Prop :=
  ∃ cid mk d conv l0 h, running_doc d conv (List.length l0) ∧ half_doc d m (List.length l0) ∧
    ideal w conv l0 ∧ query_model w conv h = Answer m ∧
    from cid mk d conv l0 m (Z.of_nat (List.length l0)) 0 s.

(** How a step is cut short: the loop adds some messages and looks again. *)
Definition stopped (e : err) (s : sys) : Prop :=
  match e with
  | Interrupt ms => boundary (said ms s) ∨ closing (said ms s)
  | Error x => closing (said [format_exit w x] s)
  end.

Lemma boundary_error x s : boundary s → stopped (Error x) s.
Proof. intros Hb. apply boundary_closing; [done|apply error_last_words]. Qed.

Lemma boundary_ag a s cid mk l :
  messages a = messages (ag s) → extra_template_vars a = extra_template_vars (ag s) → boundary_at cid mk l s →
  boundary_at cid mk l (mkSys a (cx s) (en s) (store s) (docker s) (past s)).
Proof. intros Hm Hx []. split; try done; [by rewrite <- Hm in *|]. unfold known in *. simpl. by rewrite Hx. Qed.

Lemma boundary_asked a s cid mk l : boundary_at cid mk l s → boundary_at cid mk l (asked a s).
Proof. intros []. split; try done. by apply tidy_asked. Qed.

Lemma execute_actions_in_turn m :
  triple (in_turn m) (execute_actions w cfg m) (λ _, boundary) stopped.
Proof.
  intros s (cid & mk & d & conv & l0 & h & Hr & Hh & Hi & Hq & Hs).
  eapply triple_weaken; [eapply execute_actions_from; eassumption|intros s' H; exact H|done| |exact Hs].
  intros e s' Hc. eapply cut_closing in Hc; [|eassumption..]. destruct e; [by right|done].
Qed.

Lemma query_boundary : triple boundary (query w cfg) answered stopped.
Proof.
  unfold query. apply triple_get. intros s Hb. destruct (limits_exceeded cfg (ag s)).
  { apply triple_raise. intros s' ->. right. apply boundary_closing; [done|apply exit_last_words]. }
  apply triple_clock. intros t. destruct (_ && _).
  { apply triple_raise. intros s' ->. right. apply boundary_closing; [done|apply exit_last_words]. }
  eapply triple_bind with (R := λ _, boundary).
  { intros s' ->. destruct Hb as (cid & mk & l & Hb). exists cid, mk, l. by apply boundary_ag. }
  intros u. eapply triple_bind with (R := λ r s, boundary s ∧ ∃ h, query_model w (messages (ag s)) h = r).
  { apply triple_prim; [apply boundary_durable|]. intros s' (cid & mk & l & Hb').
    split; [|by eexists]. exists cid, mk, l. by apply boundary_asked. }
  clear s Hb t u.
  intros [m|ms|e].
  2:{ apply triple_raise. intros s [(cid & mk & l & []) [h Hq]]. left. exists cid, mk, l. split; try done.
      by eapply ideal_note. }
  2:{ apply triple_raise. intros s [Hb _]. by apply boundary_error. }
  do 3 (apply triple_of_res; [intros ? ?|intros x s _ [Hb _]; by apply boundary_error]).
  eapply triple_bind with (R := λ _ s, boundary s ∧ ∃ h, query_model w (messages (ag s)) h = Answer m).
  { intros s [(cid & mk & l & Hb) Hq]. split; [|done]. exists cid, mk, l. by apply boundary_ag. }
  intros u s [(cid & mk & l & Hb) [h Hq]]. by exists cid, mk, l, s, h.
Qed.

Lemma record_written (s : sys) t status k msgs rest : known s →
  written (record cfg s t status k msgs rest) status msgs (seq (en s)).
Proof. intros Hk. split; try (by eexists); done. Qed.

Lemma boundary_ledger cid mk l s : boundary_at cid mk l s → ledger_enabled cfg (en s) = true.
Proof.
  intros Hb. unfold ledger_enabled, resume_active. rewrite Hmode, Hkey, Henabled.
  rewrite (bd_cid _ _ _ _ Hb). destruct (bd_ran _ _ _ _ Hb) as [Hne _]. by destruct cid.
Qed.

Lemma but_last_snoc l (x : pyval) : but_last (l ++ [x]) = l.
Proof. unfold but_last. rewrite length_app. simpl. rewrite Nat.add_sub. by rewrite take_app_length. Qed.

Lemma write_pending_answered m E :
  triple (answered m) (write_pending w cfg m) (λ _, in_turn m) E.
Proof.
  unfold write_pending. apply triple_get.
  intros s (cid & mk & l & s0 & h & Hb & Hq & ->). set (s1 := said [m] s0).
  rewrite (boundary_ledger cid mk l s0 Hb : ledger_enabled cfg (en s1) = true), Henabled. simpl negb.
  cbn [orb]. apply triple_clock. intros t.
  replace (but_last (messages (ag s1))) with (messages (ag s0)) by (symmetry; apply but_last_snoc).
  eapply triple_attempt with (E' := λ _ _, False); [|by intros e s2 []].
  eapply triple_bind with (R := λ _, in_turn m).
  2:{ intros u s2 (cid2 & mk2 & d2 & conv2 & l2 & h2 & H1 & H2 & H3 & H4 & j & Hj & Hm & Hk).
      exists cid2, mk2, d2, conv2, l2, h2. do 4 (split; [done|]). exists j. split; [done|]. split; [|done].
      by destruct Hm. }
  pose proof (bd_known _ _ _ _ Hb : known s1) as Hk.
  pose proof (ideal_json _ _ _ Hjson (bd_ideal _ _ _ _ Hb)) as Hms.
  pose proof (pending_json s1 t t "running" (step_ (cx s1)) _ m Hk Hms (answer_json _ Hjson _ _ _ Hq)) as Hdoc.
  apply triple_save; [done|..].
  { intros s2 ->. apply said_durable, boundary_durable. by exists cid, mk, l. }
  intros s2 t' st -> Hs. destruct Hb as [H1 H2 H3 H4 H5 H6 H7 H8].
  set (d := record _ _ _ _ _ _ _) in *.
  exists cid, mk, d, (messages (ag s0)), l, h. split; [|split; [|do 2 (split; [done|])]].
  - unfold running_doc. rewrite <- H3. exact (record_written s1 t "running" _ _ _ Hk).
  - exists t. transitivity (Some (pending_doc s1 t m)); [reflexivity|]. unfold pending_doc. simpl. by rewrite H3.
  - exists 0. split; [lia|]. split; [|exact H3]. split; try done; simpl; [lia|by apply tidy_asked| |].
    + rewrite app_nil_r. eapply (ran_saved _ _ _ _ s1); [exact Hs|].
      destruct H5 as (Hne & He & c & Hc & Hl). split; [done|]. split; [done|]. exists c.
      split; [done|]. by apply ledger_weaken.
    + by eapply holds_save.
Qed.

(** What the agent is about to do: ask for a turn, or go on with the recorded one. *)
Definition halfway (s : sys) : Prop :=
  ∃ p m, pending (cx s) = Some p ∧ py_get p "message" PNone = Ok m ∧
    in_turn m (mkSys (ag s) (with_pending None (cx s)) (en s) (store s) (docker s) (past s)).

Lemma step_live : triple (λ s, boundary s ∨ halfway s) (step w cfg) (λ _, boundary) stopped.
Proof.
  unfold step. apply triple_get. intros s Hs. destruct (pending (cx s)) as [p|] eqn:Hp.
  - destruct Hs as [(? & ? & ? & Hb)|(p' & m & Hp' & Hm & Ht)].
    { destruct Hb. congruence. }
    rewrite Hp in Hp'. injection Hp' as <-.
    eapply triple_bind with (R := λ _, in_turn m); [by intros s' ->|]. intros u.
    apply triple_of_res; rewrite Hm; [intros m' [= <-]|done]. replace (py_or m (PDict [])) with m; [apply execute_actions_in_turn|].
    destruct Ht as (? & ? & ? & ? & ? & h & _ & _ & _ & Hq & _). unfold py_or.
    by rewrite (Hanswer _ _ _ Hq).
  - destruct Hs as [Hb|(? & ? & ? & _)]; [|congruence].
    eapply triple_bind; [eapply triple_pre; [apply query_boundary|by intros s' ->]|]. intros m.
    eapply triple_bind; [apply write_pending_answered|]. intros u. apply execute_actions_in_turn.
Qed.

(** ** The record after a step *)

Lemma done_record_saved a t s st d n :
  json_ok (PDict d) → save t (run_key cfg) (name cfg) d (store s) = (Ok tt, st) →
  written d "done" (messages (ag s)) n → dict_get "pending" d = None → ended s →
  done_record (set_store st (asked a s)).
Proof.
  intros Hd Hs Hw Hp He. exists d, n, (messages (ag s)). split; [by eapply holds_save|]. done.
Qed.

(** Saving the whole conversation as done. *)
Definition over (s : sys) : Prop := durable s ∧ ended s.

Lemma closing_cx c s :
  closing s → closing (mkSys (ag s) c (en s) (store s) (docker s) (past s)).
Proof. intros [Hd H]. split; [by apply (durable_ext s)|exact H]. Qed.

Lemma closing_record s t k : closing s → json_ok (PDict (record cfg s t "done" k (messages (ag s)) [])).
Proof.
  intros (_ & Hk & (cid & c & _ & l & He & _) & _). apply record_json; [done|]. by eapply ends_json.
Qed.

Lemma checkpoint_closing E :
  triple closing (checkpoint w cfg) (λ _, closing) E.
Proof.
  unfold checkpoint. eapply triple_attempt with (E' := λ _, closing); [|intros e; by apply triple_ret].
  apply triple_get. intros s Hc. pose proof Hc as (Hd & _ & He & d & Hl & Hr). rewrite Hl.
  destruct (_ =? _)%Z; [apply triple_ret; by intros s' ->|].
  assert (py_get (PDict d) "role" PNone = Ok (PStr "exit")) as Hrole by (simpl; by rewrite Hr).
  apply triple_of_res; rewrite Hrole; [intros v [= <-]|done]. eapply triple_bind with (R := λ _, closing).
  { intros s' ->. by apply closing_cx. }
  intros u. apply triple_get. intros s1 Hc1. apply triple_clock. intros t.
  eapply triple_bind with (R := λ _, closing).
  { pose proof (closing_record s1 t (step_ (cx s1)) Hc1) as Hdoc.
    apply triple_save; [exact Hdoc|intros s' ->; apply Hc1|]. intros s' t' st -> Hs.
    destruct Hc1 as (Hd1 & Hk1 & He1 & Hl1). split; [|done]. split; [by apply tidy_asked, Hd1|].
    right. left. eapply done_record_saved; [exact Hdoc|exact Hs|by apply record_written|done|done]. }
  intros v s2 Hc2. by apply closing_cx.
Qed.

Lemma boundary_cx c s :
  pending c = pending (cx s) → boundary s →
  boundary (mkSys (ag s) c (en s) (store s) (docker s) (past s)).
Proof. intros Hp (cid & mk & l & []). exists cid, mk, l. split; try done. simpl. by rewrite Hp. Qed.

Lemma boundary_over s : boundary s → over s.
Proof.
  intros Hb. split; [by apply boundary_durable|]. destruct Hb as (cid & mk & l & Hb).
  destruct (bd_ran _ _ _ _ Hb) as (_ & _ & c & Hc & Hl). exists cid, c. split; [done|]. exists l.
  split; [|apply (led_launched _ _ _ _ _ Hl)]. apply ends_whole, (bd_ideal _ _ _ _ Hb).
Qed.

Lemma role_exit m role :
  py_get m "role" PNone = Ok role → eq_str role "exit" = true →
  ∃ d, m = PDict d ∧ dict_get "role" d = Some (PStr "exit").
Proof.
  destruct m; try done. simpl. intros [= <-] He. exists d. split; [done|].
  destruct (dict_get "role" d) as [[]|]; try done. simpl in *. by apply bool_decide_eq_true_1 in He as ->.
Qed.

Definition settled (s : sys) : Prop := boundary s ∨ closing s.

Lemma checkpoint_boundary E : triple boundary (checkpoint w cfg) (λ _, settled) E.
Proof.
  unfold checkpoint. eapply triple_attempt with (E' := λ _, boundary);
    [|intros e; apply triple_ret; by left].
  apply triple_get. intros s Hb. destruct (last (messages (ag s))) as [m|] eqn:Hl;
    [|apply triple_ret; intros s' ->; by left].
  destruct (_ =? _)%Z; [apply triple_ret; intros s' ->; by left|].
  apply triple_of_res; [|by intros e s' _ ->]. intros role Hr.
  destruct (eq_str role "assistant"); [apply triple_ret; intros s' ->; by left|].
  eapply triple_bind with (R := λ _ s', boundary s' ∧ messages (ag s') = messages (ag s)).
  { intros s' ->. split; [by apply boundary_cx|done]. }
  clear Hb. intros u. apply triple_get. intros s1 [Hb Hm]. apply triple_clock. intros t.
  eapply triple_bind with (R := λ _, settled).
  - assert (known s1 ∧ Forall json_ok (messages (ag s1))) as [Hk1 Hms].
    { destruct Hb as (cid & mk & l & Hb). split; [apply (bd_known _ _ _ _ Hb)|].
      apply (ideal_json _ _ _ Hjson (bd_ideal _ _ _ _ Hb)). }
    pose proof (record_json s1 t (if eq_str role "exit" then "done" else "running") (step_ (cx s1)) _ Hk1 Hms) as Hdoc.
    apply triple_save; [exact Hdoc|intros s' ->; by apply boundary_durable|]. intros s' t' st -> Hs.
    destruct (eq_str role "exit") eqn:He.
    + right. destruct (boundary_over s1 Hb) as [Hd Hen]. destruct (role_exit m role Hr He) as (d & -> & Hd').
      split; [|split; [done|split; [done|]]]; [|exists d; simpl; by rewrite Hm].
      split; [by apply tidy_asked, Hd|]. right. left.
      eapply done_record_saved; [exact Hdoc|exact Hs|by apply record_written|done|done].
    + left. destruct Hb as (cid & mk & l & []). exists cid, mk, l. split; try done.
      * by apply tidy_asked.
      * by eapply ran_saved.
      * eapply av_boundary; [by eapply holds_save| |done|done].
        unfold running_doc. rewrite <- bd_seq0. exact (record_written s1 t "running" _ _ _ Hk1).
  - intros v s2 [Hb2|Hc2]; [left|right; by apply closing_cx]. by apply boundary_cx.
Qed.

Lemma iteration_live :
  triple (λ s, boundary s ∨ halfway s) (iteration w cfg)
    (λ stop s, if stop then over s else boundary s) (λ _, over).
Proof.
  unfold iteration. eapply triple_bind with
    (R := λ r s, match r with None => settled s | Some _ => closing s end).
  { eapply triple_attempt with (E' := stopped).
    - eapply triple_bind; [apply step_live|]. intros u. apply triple_ret. intros s Hs. by left.
    - intros [ms|x]; [apply triple_bind with (R := λ _, settled)|apply triple_bind with (R := λ _, closing)];
        (intros s Hs; exact Hs) || (intros u; by apply triple_ret). }
  intros r. eapply triple_bind with
    (R := λ _ s, match r with None => settled s | Some _ => closing s end).
  { destruct r as [x|]; [apply checkpoint_closing|]. intros s [Hs|Hs]; revert s Hs.
    - apply checkpoint_boundary.
    - eapply triple_post; [apply checkpoint_closing|]. by right. }
  intros u. destruct r as [x|]; [apply triple_raise; by intros s (? & _ & ? & _)|].
  apply triple_get. intros s [Hb|(Hd & _ & He & d & Hl & Hr)].
  - apply boundary_over in Hb as Ho.
    destruct (last (messages (ag s))) as [m|]; [|apply triple_raise; by intros s' ->].
    apply triple_of_res; [|by intros e s' _ ->]. intros role _. apply triple_ret.
    intros s' ->. by destruct (eq_str role "exit").
  - rewrite Hl. assert (py_get (PDict d) "role" PNone = Ok (PStr "exit")) as Hrole by (simpl; by rewrite Hr).
    apply triple_of_res; rewrite Hrole; [intros v [= <-]|done]. apply triple_ret. by intros s' ->.
Qed.

Lemma halfway_over s : halfway s → over s.
Proof.
  intros (p & m & _ & _ & cid & mk & d & conv & l0 & h & Hr & Hh & Hi & Hq & j & _ & Hm & _).
  split.
  - eapply (durable_ext (mkSys (ag s) (with_pending None (cx s)) (en s) (store s) (docker s) (past s)));
      [done..|]. by eapply mid_durable.
  - destruct (mid_ran _ _ _ _ _ _ _ _ Hm) as (_ & _ & c & Hc & Hl). exists cid, c. split; [done|].
    exists (l0 ++ take j (commands m)). split; [|apply (led_launched _ _ _ _ _ Hl)].
    pose proof (mid_msgs _ _ _ _ _ _ _ _ Hm) as Hmsg. simpl in Hmsg. rewrite Hmsg.
    by eapply ends_cut; [..|left].
Qed.

Lemma loop_live n :
  triple (λ s, boundary s ∨ halfway s) (loop w cfg n) (λ _, over) (λ _, over).
Proof.
  induction n as [|n IH]; simpl.
  - apply triple_raise. intros s [Hs|Hs]; [by apply boundary_over|by apply halfway_over].
  - eapply triple_bind; [apply iteration_live|]. intros [|]; [by apply triple_ret|].
    eapply triple_pre; [exact IH|]. by left.
Qed.

(** ** Taking a record up again *)

Lemma dget_field rec k v : field rec k v → dget k rec = v.
Proof. unfold field, dget. by intros ->. Qed.

Lemma agree_field d d' k v : agree d d' → k ≠ "schema" → k ≠ "updated_at" → field d k v → field d' k v.
Proof. intros Ha H1 H2 Hf. unfold field in *. by rewrite Ha. Qed.

Lemma agree_written d d' status msgs n : agree d d' → written d status msgs n → written d' status msgs n.
Proof.
  intros Ha [H1 H2 [? H3] H4 [? H5] [? H6] [? H7] [? H8] [? H9] (v & H10 & Hv) H11].
  split; try match goal with |- ∃ _, _ => eexists end; try (eapply agree_field; eassumption || done).
  split; [|exact Hv]. eapply agree_field; eassumption || done.
Qed.

Lemma int_field rec k z : field rec k (PInt z) → int_of rec k = Ok z.
Proof.
  intros Hf. unfold int_of. rewrite (dget_field _ _ _ Hf). unfold py_or. simpl.
  destruct (Z.eqb_spec z 0) as [->|]; done.
Qed.

Lemma float_field rec k q : field rec k (PFloat q) → ∃ q', py_float (py_or (dget k rec) (PFloat 0)) = Ok q'.
Proof.
  intros Hf. rewrite (dget_field _ _ _ Hf). unfold py_or.
  by destruct (truthy (PFloat q)); eexists.
Qed.

(** What restoring leaves in memory. *)
Record restored (s0 : sys) (msgs : list pyval) (p : option pyval) (s : sys) : Prop := {
  rs_messages : messages (ag s) = msgs;
  rs_pending : pending (cx s) = p;
  rs_en : en s = en s0;
  rs_store : store s = store s0;
  rs_docker : docker s = docker s0;
  rs_past : past s = past s0;
  rs_known : known s
}.

(** The two shapes of a record: with a turn under way, or without. *)
Definition pending_of (rec : doc) (p : option pyval) (extra : list pyval) : Prop :=
  match p with
  | None => dget "pending" rec = PNone ∧ extra = []
  | Some p => dget "pending" rec = p ∧ truthy p = true ∧
      ∃ m, py_get p "message" PNone = Ok m ∧ truthy m = true ∧ extra = [m]
  end.

Local Ltac value := apply triple_of_res; [intros ? [= <-]|done].
Local Ltac update s msgs := eapply triple_bind with (R := λ _, restored s msgs (pending (cx s)));
  [intros ? []; by split|intros ?].

Lemma restore_ok rec status msgs n p extra s E :
  known s → written rec status msgs n → pending_of rec p extra →
  triple (λ s', s' = s) (restore w rec) (λ _, restored s (msgs ++ extra) p) E.
Proof.
  intros Hk [H1 H2 [? H3] H4 [? H5] [? H6] [? H7] [? H8] [? H9] (? & H10 & Hv) H11] Hp.
  destruct (float_field _ _ _ H6) as [c Hc], (float_field _ _ _ H7) as [el Hel].
  unfold restore. rewrite (dget_field _ _ _ H11), (dget_field _ _ _ H10), Hc, Hel,
    (int_field _ _ _ H3), (int_field _ _ _ H5), (int_field _ _ _ H8), (int_field _ _ _ H9).
  value. eapply triple_bind with (R := λ _, restored s msgs (pending (cx s))); [intros s' ->; by split|intros u].
  value. update s msgs. value. update s msgs. apply triple_clock. intros t. value. update s msgs.
  value. eapply triple_bind with (R := λ _, restored s msgs (pending (cx s))).
  { intros ? []. split; try done. by apply known_update. }
  intros ?. do 3 value.
  eapply triple_bind with (R := λ _, restored s msgs p).
  { intros s' []. split; try done. simpl. destruct p as [p|].
    - by destruct Hp as (-> & -> & _).
    - by destruct Hp as [-> _]. }
  intros u1. destruct p as [p|].
  - destruct Hp as (-> & Htp & m & Hm & Htm & ->). rewrite Htp.
    apply triple_of_res; rewrite Hm; [intros m' [= <-]|done]. rewrite Htm.
    eapply triple_bind with (R := λ _, restored s (msgs ++ [m]) (Some p)).
    + intros s' []. split; try done. simpl. by f_equal.
    + intros u2 s' []. by split.
  - destruct Hp as [-> ->]. simpl. rewrite app_nil_r.
    eapply triple_bind with (R := λ v s', v = PNone ∧ restored s msgs None s'); [by apply triple_ret|].
    intros v. eapply triple_bind with (R := λ _, restored s msgs None).
    + by intros s' [-> ?].
    + intros u2 s' []. by split.
Qed.

(** A docker call that only reads. *)
Lemma triple_docker_read {A} op n (rep : docker_reply → history → container → A) P Q E :
  (∀ s, P s → durable s ∧ ∃ c, docker s !! container_id (en s) = Some c ∧
     Q (rep Up (past s ++ [AskDocker op (container_id (en s)) n]) c)
       (asked (AskDocker op (container_id (en s)) n) s)) →
  triple P (docker_op w op n keep rep) Q E.
Proof.
  intros HP s Hs. destruct (HP s Hs) as (Hd & c & Hc & HQ). unfold docker_op, prim.
  destruct (die w (past s)); [by apply durable_asked|]. rewrite Hup. cbn [en past docker]. unfold the_container, keep.
  cbn [docker]. rewrite Hc. simpl. unfold set_container. cbn [ag cx en store docker past].
  by rewrite insert_id.
Qed.

(** The worker is in its container, which has run [l]. *)
Record working (cid : string) (mk : bool) (l : list string) (next : option string) (s : sys) : Prop := {
  wk_cid : container_id (en s) = cid;
  wk_mk : marker_enabled (en s) = mk;
  wk_seq : seq (en s) = 0%Z;
  wk_pending : pending (cx s) = None;
  wk_tidy : tidy s;
  wk_ran : ran s cid mk l next;
  wk_view : agent_view (store s) l next
}.

Definition placed (s : sys) : Prop :=
  tidy s ∧ (done_record s ∨ ∃ cid mk l next, working cid mk l next s).

Lemma working_durable cid mk l next s : working cid mk l next s → durable s.
Proof. intros []. split; [done|]. right. right. by exists cid, mk, l, next. Qed.

Lemma placed_durable s : placed s → durable s.
Proof. intros [Ht [Hd|(? & ? & ? & ? & Hw)]]; [split; [done|]; by right; left|by eapply working_durable]. Qed.

Lemma placed_asked a s : placed s → placed (asked a s).
Proof.
  intros [Ht Hp]. split; [by apply tidy_asked|]. destruct Hp as [?|(cid & mk & l & next & [])]; [by left|right].
  exists cid, mk, l, next. split; try done. by apply tidy_asked.
Qed.

Lemma placed_ag a s : placed s → placed (mkSys a (cx s) (en s) (store s) (docker s) (past s)).
Proof.
  intros [Ht Hp]. split; [done|]. destruct Hp as [?|(cid & mk & l & next & [])]; [by left|right].
  exists cid, mk, l, next. by split.
Qed.

(** The marker agrees with a record that is at a boundary. *)
Lemma settle_clean cid mk l s E :
  boundary_at cid mk l s →
  triple (λ s', s' = s) (settle w cfg (Z.of_nat (List.length l))) (λ _, boundary) E.
Proof.
  intros Hb. unfold settle.
  assert (∀ s1, boundary_at cid mk l s1 → boundary s1) as Hbd by (intros s1 H1; by exists cid, mk, l).
  eapply triple_bind with (R := λ v s', (v = CLEAN ∨ v = UNKNOWN) ∧ boundary s').
  2:{ intros v s1 [[-> | ->] H1]; exact H1. }
  unfold reconcile. eapply triple_bind with (R := λ _, boundary_at cid mk l).
  { intros s' ->. destruct Hb. by split. }
  clear s Hb. intros u. apply triple_get. intros s Hb.
  destruct (negb _ || negb _) eqn:Hm; [apply triple_ret; intros s' ->; split; [by right|by apply Hbd]|].
  apply orb_false_iff in Hm as [_ Hm%negb_false_iff].
  eapply triple_bind with (R := λ r s', r = Some (Z.of_nat (List.length l)) ∧ boundary_at cid mk l s').
  - apply triple_docker_read. intros s' ->. split; [by apply boundary_durable, Hbd|].
    destruct (bd_ran _ _ _ _ Hb) as (_ & _ & c & Hc & Hl). exists c. rewrite (bd_cid _ _ _ _ Hb).
    split; [done|]. split; [|by apply boundary_asked]. rewrite (bd_mk _ _ _ _ Hb) in Hm.
    by apply (led_marker _ _ _ _ _ Hl).
  - intros r s1 [-> H1]. rewrite Z.leb_refl. split; [by left|by apply Hbd].
Qed.

Lemma holds_load st n d t : holds st n (Some d) →
  ∃ d', (load t (run_key cfg) n st).1 = Ok (Some d') ∧ agree d d'.
Proof.
  intros Hh. destruct (Hh t) as ([d'|] & Hl & Ha); [|done]. exists d'. by rewrite Hl.
Qed.

Lemma holds_load_none st n t : holds st n None → (load t (run_key cfg) n st).1 = Ok None.
Proof. intros Hh. destruct (Hh t) as ([d'|] & Hl & Ha); [done|]. by rewrite Hl. Qed.

(** Loading the agent's own record. *)
Lemma load_record_some d status msgs n P E :
  (∀ s, P s → durable s ∧ holds (store s) (name cfg) (Some d)) → written d status msgs n →
  (∀ a s, P s → P (asked a s)) →
  triple P (load_record w cfg) (λ r s, P s ∧ ∃ d', r = Some d' ∧ agree d d') E.
Proof.
  intros HP Hw Ha. unfold load_record.
  eapply triple_bind with (R := λ r s, P s ∧ ∃ d', r = Some d' ∧ agree d d').
  - apply triple_load; [intros s Hs; by apply HP|]. intros s t Hs. destruct (HP s Hs) as [_ Hh].
    destruct (holds_load _ _ _ t Hh) as (d' & -> & Hag). split; [by apply Ha|by exists d'].
  - intros r s [Hs (d' & -> & Hag)]. revert s Hs.
    rewrite (dget_field _ _ _ (rd_fingerprint _ _ _ _ (agree_written _ _ _ _ _ Hag Hw))). simpl.
    rewrite bool_decide_eq_true_2 by done. apply triple_ret. intros s Hs. split; [done|]. by exists d'.
Qed.

Lemma load_record_none P E :
  (∀ s, P s → durable s ∧ holds (store s) (name cfg) None) →
  (∀ a s, P s → P (asked a s)) →
  triple P (load_record w cfg) (λ r s, r = None ∧ P s) E.
Proof.
  intros HP Ha. unfold load_record.
  eapply triple_bind with (R := λ r s, r = None ∧ P s).
  - apply triple_load; [intros s Hs; by apply HP|]. intros s t Hs.
    rewrite holds_load_none by (by apply HP). split; [done|by apply Ha].
  - intros r s [-> Hs]. by revert s Hs; apply triple_ret.
Qed.

Lemma restored_ran s0 msgs p s cid mk l next :
  restored s0 msgs p s → ran s0 cid mk l next → ran s cid mk l next.
Proof. intros [] H. unfold ran in *. by rewrite rs_store0, rs_docker0. Qed.

Lemma restored_tidy s0 msgs p s : restored s0 msgs p s → tidy s0 → tidy s.
Proof. intros []. apply tidy_ext; [done|]. by rewrite rs_past0. Qed.

Lemma restored_boundary s0 s cid mk l next conv :
  restored s0 conv None s → working cid mk l next s0 → ran s0 cid mk l None →
  agent_view (store s0) l None → ideal w conv l →
  boundary_at cid mk l (mkSys (ag s) (cx s) (with_seq (Z.max 0 (Z.of_nat (List.length l))) (en s))
                          (store s) (docker s) (past s)).
Proof.
  intros Hrs [] Hran Hv Hi. pose proof (restored_tidy _ _ _ _ Hrs wk_tidy0) as Ht.
  pose proof (restored_ran _ _ _ _ _ _ _ _ Hrs Hran) as Hr. destruct Hrs.
  split; simpl; try done; try (by rewrite rs_en0); [lia|by rewrite rs_store0|by rewrite rs_messages0].
Qed.

Lemma resume_boundary rec conv cid mk l s E :
  written rec "running" conv (Z.of_nat (List.length l)) → dget "pending" rec = PNone →
  ideal w conv l → working cid mk l None s → known s →
  triple (λ s', s' = s) (resume_from w cfg rec) (λ _, boundary) E.
Proof.
  intros Hw Hp Hi Hwk Hkn. unfold resume_from.
  eapply triple_bind; [by eapply (restore_ok _ _ _ _ None []); [exact Hkn|exact Hw|]|]. rewrite app_nil_r. intros u.
  apply triple_of_res; rewrite (int_field _ _ _ (rd_env_seq _ _ _ _ Hw)); [intros ? [= <-]|done].
  eapply triple_bind with (R := λ _, boundary_at cid mk l).
  { intros s1 Hr. eapply restored_boundary; [exact Hr|exact Hwk|by destruct Hwk..|done]. }
  intros u1. apply triple_get. intros s1 Hb. rewrite (bd_pending _ _ _ _ Hb).
  eapply triple_bind; [by apply (settle_clean cid mk)|].
  intros u2 s2 Hb2. by apply boundary_cx.
Qed.

Lemma resume_half rec d conv cid mk l h m j s E :
  agree d rec → holds (store s) (name cfg) (Some d) → running_doc d conv (List.length l) →
  half_doc d m (List.length l) → ideal w conv l → query_model w conv h = Answer m →
  j ≤ List.length (commands m) → working cid mk (l ++ take j (commands m)) (commands m !! j) s → known s →
  triple (λ s', s' = s) (resume_from w cfg rec) (λ _, halfway) E.
Proof.
  intros Hag Hh Hw [t Hp] Hi Hq Hj Hwk Hkn. unfold resume_from.
  pose proof (agree_written _ _ _ _ _ Hag Hw) as Hw'.
  set (p := PDict _) in Hp.
  assert (dget "pending" rec = p) as Hpr.
  { apply dget_field. by eapply agree_field. }
  eapply triple_bind.
  { eapply (restore_ok _ _ _ _ (Some p) [m]); [exact Hkn|exact Hw'|]. split; [done|]. split; [done|].
    exists m. split; [done|]. split; [by eapply Hanswer|done]. }
  intros u. apply triple_of_res; rewrite (int_field _ _ _ (rd_env_seq _ _ _ _ Hw')); [intros ? [= <-]|done].
  eapply triple_bind with (R := λ _ s1, restored s (conv ++ [m]) (Some p)
    (mkSys (ag s1) (cx s1) (en s) (store s1) (docker s1) (past s1)) ∧ ∃ k, en s1 = with_seq k (en s)).
  { intros s1 Hr. destruct Hr. split; [done|]. eexists. simpl. by rewrite rs_en0. }
  intros u1. apply triple_get. intros s1 [Hr [k He]].
  pose proof (rs_pending _ _ _ _ Hr) as Hps. simpl in Hps. rewrite Hps.
  set (s2 := mkSys (ag s1) (cx s1) (with_seq (Z.of_nat (List.length l)) (en s)) (store s1) (docker s1) (past s1)).
  eapply triple_bind with (R := λ _ s', s' = s2).
  - apply triple_of_res; [|done]. intros v [= <-]. apply triple_of_res.
    + intros z Hz s' ->. unfold align, set_en, s2. rewrite He. simpl.
      replace (Z.max 0 _) with (Z.of_nat (List.length l)); [done|].
      unfold py_or in Hz. destruct (truthy _); injection Hz as <-; lia.
    + intros e s' Hz. unfold py_or in Hz. by destruct (truthy _) in Hz.
  - intros u2 s' ->. exists p, m. split; [done|]. split; [done|].
    exists cid, mk, d, conv, l, h. split; [done|]. split; [by exists t|]. do 2 (split; [done|]).
    exists j. split; [lia|]. split; [|done]. destruct Hwk. split; try done.
    + by apply (restored_tidy _ _ _ _ Hr).
    + by apply (restored_ran _ _ _ _ _ _ _ _ Hr).
    + pose proof (rs_store _ _ _ _ Hr) as Hst. simpl in *. by rewrite Hst.
    + apply (rs_messages _ _ _ _ Hr).
    + exact (rs_known _ _ _ _ Hr).
Qed.

Lemma working_asked a cid mk l next s : working cid mk l next s → working cid mk l next (asked a s).
Proof. intros []. split; try done. by apply tidy_asked. Qed.

(** The introduction is in memory; the record says where to go on. *)
Definition introduced (cid : string) (mk : bool) (l : list string) (next : option string) (s : sys) : Prop :=
  working cid mk l next s ∧ known s ∧ ∃ vars h, messages (ag s) = intro w vars h.

Lemma resume_introduced cid mk l next E :
  triple (introduced cid mk l next) (resume w cfg) (λ _ s, boundary s ∨ halfway s) E.
Proof.
  intros s0 Hs0. pose proof (wk_view _ _ _ _ _ (proj1 Hs0)) as Hv. revert s0 Hs0 Hv.
  assert (∀ d msgs n s, (introduced cid mk l next s ∧ holds (store s) (name cfg) (Some d)) →
    written d "running" msgs n →
    (∀ rec s', agree d rec → holds (store s') (name cfg) (Some d) → working cid mk l next s' → known s' →
       triple (λ s'', s'' = s') (resume_from w cfg rec) (λ _ s, boundary s ∨ halfway s) (λ _ _, False)) →
    match resume w cfg s with
    | (Ret _, s') => boundary s' ∨ halfway s' | (Exc e, s') => E e s' | (Crash, s') => durable s' end) as Hgo.
  { intros d msgs n s Hs Hw Hk. revert s Hs. unfold resume.
    eapply triple_attempt with (E' := λ _ _, False); [|by intros ? ? []].
    eapply triple_bind.
    - eapply (load_record_some d "running" msgs n (λ s, introduced cid mk l next s ∧ holds (store s) (name cfg) (Some d)));
        [|exact Hw|].
      + intros s [[Hwk _] Hh]. split; [by eapply working_durable|done].
      + intros a s [[Hwk Hi] Hh]. split; [|done]. split; [by apply working_asked|done].
    - intros r s [[[Hwk [Hkn _]] Hh] (rec & -> & Hag)].
      rewrite (dget_field _ _ _ (rd_status _ _ _ _ (agree_written _ _ _ _ _ Hag Hw))). simpl.
      by apply (Hk rec s). }
  intros s0 [Hwk Hi] Hv. inversion Hv as [Hnone El En|d conv l' Hh Hw Hp Hid El En|d conv l' h m j Hh Hw Hhd Hid Hq Hj El En].
  - subst. assert (introduced cid mk [] None s0 ∧ holds (store s0) (name cfg) None) as Hs by done.
    clear Hwk Hi Hv Hgo Hnone. revert s0 Hs. unfold resume.
    eapply triple_attempt with (E' := λ _ _, False); [|by intros ? ? []].
    eapply triple_bind.
    + apply (load_record_none (λ s, introduced cid mk [] None s ∧ holds (store s) (name cfg) None)).
      * intros s [[Hwk _] Hh]. split; [by eapply working_durable|done].
      * intros a s [[Hwk Hi] Hh]. split; [|done]. split; [by apply working_asked|done].
    + intros r. intros s [-> [[[] (Hkn & vars & h & Hi)] Hh]]. left. exists cid, mk, []. split; try done.
      rewrite Hi. apply ideal_intro.
  - subst. apply (Hgo d conv (Z.of_nat (List.length l)) s0); [done|done|]. intros rec s' Hag Hh' Hwk' Hkn'.
    apply triple_post with (Q' := λ _, boundary); [|by left].
    eapply resume_boundary; [eapply agree_written; eassumption| |done..].
    unfold dget. by rewrite (Hag "pending"), Hp.
  - subst. apply (Hgo d conv (Z.of_nat (List.length l')) s0); [done|done|]. intros rec s' Hag Hh' Hwk' Hkn'.
    apply triple_post with (Q' := λ _, halfway); [|by right]. eapply (resume_half rec d); eassumption.
Qed.

Lemma working_ag a cid mk l next s :
  working cid mk l next s → working cid mk l next (mkSys a (cx s) (en s) (store s) (docker s) (past s)).
Proof. intros []. by split. Qed.

Lemma last_extra_over : triple over last_extra (λ _, over) (λ _, over).
Proof.
  unfold last_extra. apply triple_get. intros s Hs. destruct (last _) as [m|]; [|apply triple_ret; by intros s' ->].
  intros s' ->. by destruct (py_get m "extra" (PDict [])).
Qed.

Lemma run_fresh_working cid mk l next :
  triple (λ s, working cid mk l next s ∧ known s) (run_fresh w cfg fuel kwargs) (λ _, over) (λ _, over).
Proof.
  unfold run_fresh. eapply triple_bind with (R := λ _ s, working cid mk l next s ∧ known s).
  { intros s [Hs Hk]. split; [by apply working_ag|]. by apply known_update. }
  intros u. apply triple_get. intros s [Hs Hk]. eapply triple_bind with (R := λ _, introduced cid mk l next).
  { intros s' ->. split; [by apply working_ag|]. split; [done|]. by do 2 eexists. }
  intros u1. eapply triple_bind; [apply resume_introduced|]. intros u2.
  eapply triple_bind; [apply loop_live|]. intros u3. apply last_extra_over.
Qed.

(** A finished run is only replayed. *)
Lemma run_done : triple (λ s, known s ∧ tidy s ∧ done_record s) (run w cfg fuel kwargs) (λ _, over) (λ _, over).
Proof.
  intros s (Hk & Ht & d & n & msgs & Hh & Hw & Hp & He).
  set (P := λ s', known s' ∧ tidy s' ∧ holds (store s') (name cfg) (Some d) ∧
              ∃ cid c, docker s' !! cid = Some c ∧ sound c msgs).
  assert (∀ s', P s' → durable s') as HPd.
  { intros s' (_ & Ht' & Hh' & He'). split; [done|]. right. left. by exists d, n, msgs. }
  assert (P s) as Hs by done. clear Hk Ht Hh He. revert s Hs. unfold run.
  eapply triple_bind.
  - eapply (load_record_some d "done" msgs n P); [|exact Hw|].
    + intros s Hs. split; [by apply HPd|apply Hs].
    + intros a s (H1 & H2 & H3). split; [done|]. split; [by apply tidy_asked|done].
  - intros r s [Hs (rec & -> & Hag)]. pose proof (agree_written _ _ _ _ _ Hag Hw) as Hw'.
    rewrite (dget_field _ _ _ (rd_status _ _ _ _ Hw')). simpl. revert s Hs.
    eapply triple_bind with (R := λ _, P).
    { intros s [Hk Hs]. split; [|done]. by apply known_update. }
    intros u.
    eapply triple_bind with (R := λ _, over); [|intros v; apply last_extra_over].
    intros s Hs. eapply triple_post; [eapply (restore_ok rec _ msgs n None [] s); [apply Hs|exact Hw'|]| |done].
    { split; [|done]. unfold dget. by rewrite (Hag "pending"), Hp. }
    rewrite app_nil_r. intros v s' Hr. destruct Hs as (Hk & Ht & Hh & cid & c & Hc & Hso). destruct Hr. split.
    + apply (durable_ext s); [done|done|by rewrite rs_past0|]. apply HPd. do 3 (split; [done|]). by exists cid, c.
    + exists cid, c. by rewrite rs_docker0, rs_messages0.
Qed.

Lemma run_working cid mk l next :
  triple (λ s, working cid mk l next s ∧ known s) (run w cfg fuel kwargs) (λ _, over) (λ _, over).
Proof.
  intros s [Hs Hk]. pose proof (wk_view _ _ _ _ _ Hs) as Hv.
  assert (∀ d msgs n, holds (store s) (name cfg) (Some d) → written d "running" msgs n →
    match run w cfg fuel kwargs s with
    | (Ret _, s') => over s' | (Exc e, s') => over s' | (Crash, s') => durable s' end) as Hgo.
  { intros d msgs n Hh Hw.
    assert ((working cid mk l next s ∧ known s) ∧ holds (store s) (name cfg) (Some d)) as Hs' by done.
    clear Hs Hk Hh Hv. revert s Hs'. unfold run. eapply triple_bind.
    - eapply (load_record_some d "running" msgs n); [|exact Hw|].
      + intros s [[Hwk _] Hh]. split; [by eapply working_durable|exact Hh].
      + intros a s [[Hwk Hk] Hh]. split; [|done]. split; [by apply working_asked|done].
    - intros r s [[Hwk Hh] (rec & -> & Hag)].
      rewrite (dget_field _ _ _ (rd_status _ _ _ _ (agree_written _ _ _ _ _ Hag Hw))). simpl.
      by apply (run_fresh_working cid mk l next s). }
  destruct Hv as [Hnone|d conv l Hh Hw Hp Hid|d conv l' h m j Hh Hw Hhd Hid Hq Hj];
    [|by eapply Hgo|by eapply Hgo].
  assert ((working cid mk [] None s ∧ known s) ∧ holds (store s) (name cfg) None) as Hs' by done.
  clear Hs Hk Hnone Hgo. revert s Hs'. unfold run. eapply triple_bind.
  - apply (load_record_none (λ s, (working cid mk [] None s ∧ known s) ∧ holds (store s) (name cfg) None)).
    + intros s [[Hwk _] Hh]. split; [by eapply working_durable|done].
    + intros a s [[Hwk Hk] Hh]. split; [|done]. split; [by apply working_asked|done].
  - intros r s [-> [Hwk _]]. by apply (run_fresh_working cid mk [] None s).
Qed.

Lemma run_placed : triple (λ s, placed s ∧ known s) (run w cfg fuel kwargs) (λ _, over) (λ _, over).
Proof.
  intros s [[Ht [Hd|(cid & mk & l & next & Hw)]] Hk]; [by apply (run_done s)|by apply (run_working cid mk l next s)].
Qed.

(** ** Finding or starting the container *)

Definition without (cid : string) (s : sys) : sys :=
  mkSys (ag s) (cx s) (en s) (store s) (delete cid (docker s)) (past s).

Lemma ran_readd s cid cid' mk l next :
  ran (without cid' s) cid mk l next → ran s cid mk l next.
Proof.
  intros (H1 & H2 & c & Hc & Hl). split; [done|]. split; [done|]. exists c. split; [|done].
  simpl in Hc. by apply lookup_delete_Some in Hc as [_ ?].
Qed.

Lemma done_readd s cid : done_record (without cid s) → done_record s.
Proof.
  intros (d & n & msgs & H1 & H2 & H3 & cid' & c & Hc & Hs). exists d, n, msgs.
  do 3 (split; [done|]). exists cid', c. split; [|done]. simpl in Hc. by apply lookup_delete_Some in Hc as [_ ?].
Qed.

Lemma no_commands_sound c : launched c = [] → sound c (intro w [] []).
Proof.
  intros Hl. exists []. split; [|done]. apply ends_whole, ideal_intro.
Qed.

(** A container of its own, in which nothing has run. *)
Record vacant_at (cid : string) (mk : bool) (s : sys) : Prop := {
  va_cid : container_id (en s) = cid;
  va_ne : cid ≠ "";
  va_seq : seq (en s) = 0%Z;
  va_pending : pending (cx s) = None;
  va_base : durable (without cid s);
  va_record : done_record (without cid s) ∨ holds (store s) (name cfg) None;
  va_container : ∃ c, docker s !! cid = Some c ∧ launched c = [] ∧ slots c = ∅ ∧
    (mk = true → marker c = Some 0%Z);
  va_origin : ∃ h, run_container w h = Ok cid ∧ List.length h ≤ List.length (past s)
}.

Lemma vacant_tidy cid mk s : vacant_at cid mk s → tidy s.
Proof.
  intros [] cid' c Hc. destruct (decide (cid' = cid)) as [->|Hne].
  - split; [|done]. destruct va_container0 as (c' & Hc' & Hl & _). rewrite Hc in Hc'. injection Hc' as <-.
    eexists. by apply no_commands_sound.
  - apply (proj1 va_base0). simpl. by rewrite lookup_delete_ne.
Qed.

Lemma vacant_durable cid mk s : vacant_at cid mk s → durable s.
Proof.
  intros Hv. split; [by eapply vacant_tidy|]. destruct (va_base _ _ _ Hv) as [_ [H|[H|(cid' & mk' & l & next & Hr & Ha)]]].
  - by left.
  - right. left. by eapply done_readd.
  - right. right. exists cid', mk', l, next. split; [by eapply ran_readd|done].
Qed.

Lemma vacant_ledger cid mk s : vacant_at cid mk s →
  ∃ c, docker s !! cid = Some c ∧ ledger w c [] mk None.
Proof.
  intros []. destruct va_container0 as (c & Hc & Hl & Hs & Hm). exists c. split; [done|]. split; try done.
  intros k sl. by rewrite Hs, lookup_empty.
Qed.

(** The worker has no container yet and its record does not need one. *)
Definition vacant (s : sys) : Prop :=
  durable s ∧ seq (en s) = 0%Z ∧ pending (cx s) = None ∧
  (done_record s ∨ holds (store s) (name cfg) None).

Lemma docker_run_vacant :
  triple vacant (docker_run w) (λ _ s, ∃ cid, vacant_at cid false s) (λ _, durable).
Proof.
  apply triple_prim; [by intros s [? _]|]. intros s (Hd & Hseq & Hp & Hrec). cbn [past].
  set (h := past s ++ [AskDocker "run" "" 0]).
  destruct (run_container w h) as [cid|e] eqn:Hrun; [|by apply (durable_asked (AskDocker "run" "" 0))].
  assert (docker s !! cid = None) as Hnew.
  { destruct (docker s !! cid) as [c|] eqn:Hc; [|done]. exfalso.
    destruct (proj1 Hd cid c Hc) as [_ (h' & Hh' & Hle)]. pose proof (Hids _ _ _ Hh' Hrun) as Heq.
    unfold h in Heq. rewrite length_app in Heq. simpl in Heq. lia. }
  exists cid. split; simpl; try done.
  - intros ->. by apply (Hidne h).
  - eapply (durable_ext s); [done| | |exact Hd]; simpl.
    + by rewrite delete_insert_id.
    + unfold h. rewrite length_app. lia.
  - destruct Hrec as [(d & n & msgs & Hrec)|]; [left|by right]. exists d, n, msgs.
    simpl. by rewrite delete_insert_id.
  - exists new_container. by rewrite lookup_insert_eq.
  - by exists h.
Qed.

Lemma selftest_vacant cid E :
  triple (vacant_at cid false) (marker_selftest w) (λ m, vacant_at cid m) E.
Proof.
  intros s Hv. unfold marker_selftest, docker_op, prim.
  destruct (die w (past s)); [by eapply durable_asked, vacant_durable|]. rewrite Hup. cbn [en past].
  rewrite (va_cid _ _ _ Hv). destruct (va_container _ _ _ Hv) as (c & Hc & Hl & Hs & _).
  unfold the_container. cbn [docker]. rewrite Hc. cbn [default marker slots launched].
  set (h := past s ++ _). destruct Hv. split; simpl; try done.
  - eapply (durable_ext (without cid s)); [done| | |done]; simpl.
    + by rewrite delete_insert_eq.
    + unfold h. rewrite length_app. lia.
  - destruct va_record0 as [(d & n & msgs & Hrec)|]; [left|by right]. exists d, n, msgs.
    simpl. rewrite delete_insert_eq. exact Hrec.
  - eexists. rewrite lookup_insert_eq. split; [done|]. do 2 (split; [done|]). simpl.
    destruct (marker_readable w h); done.
  - destruct va_origin0 as (h0 & Hh0 & Hle). exists h0. split; [done|]. unfold h. rewrite length_app. lia.
Qed.

(** The environment's record makes the new container the one of the run. *)
Lemma save_env_vacant cid mk E :
  triple (λ s, vacant_at cid mk s ∧ marker_enabled (en s) = mk) (s ← cget; st_save w cfg "env" (env_doc cfg (en s)))
    (λ _, placed) E.
Proof.
  apply triple_get. intros s [Hv Hmk]. assert (json_ok (PDict (env_doc cfg (en s)))) as Hdoc by by apply json_ok_flat.
  apply triple_save; [done|intros s' ->; by eapply vacant_durable|].
  intros s' t st -> Hs. set (a := AskStore "save" "env"). pose proof (vacant_tidy _ _ _ Hv) as Ht.
  split; [by apply (tidy_asked a)|].
  assert (∀ o, holds (store s) (name cfg) o → holds st (name cfg) o) as Hkeep.
  { intros o. eapply holds_save_ne; [exact Hs|done|done|]. intros E'. by apply name_ne. }
  destruct (va_record _ _ _ Hv) as [(d & n & msgs & H1 & H2 & H3 & cid' & c & Hc & Hso)|Hnone].
  - left. exists d, n, msgs. split; [by apply Hkeep|]. do 2 (split; [done|]). exists cid', c.
    split; [|done]. simpl in *. by apply lookup_delete_Some in Hc as [_ ?].
  - right. exists cid, mk, [], None. destruct (vacant_ledger _ _ _ Hv) as (c & Hc & Hl).
    destruct Hv. split; try done; [by apply (tidy_asked a)| |by apply av_none, Hkeep].
    split; [done|]. split; [|by exists c]. exists (env_doc cfg (en s)).
    split; [by eapply holds_save|]. unfold field. simpl. by rewrite va_cid0, Hmk.
Qed.

Lemma new_container_placed :
  triple vacant
    (_ ← docker_run w; m ← marker_selftest w; _ ← set_en (with_marker m);
     s ← cget; st_save w cfg "env" (env_doc cfg (en s)))
    (λ _, placed) (λ _, durable).
Proof.
  eapply triple_bind; [apply docker_run_vacant|]. intros u s [cid Hv]. revert s Hv.
  eapply triple_bind; [apply selftest_vacant|]. intros m.
  eapply triple_bind with (R := λ _ s, vacant_at cid m s ∧ marker_enabled (en s) = m).
  { intros s []. by split; [split|]. }
  intros u1. apply save_env_vacant.
Qed.

(** Calls of the search for a container that leave things as they are. *)
Definition steady (P : sys → Prop) : Prop :=
  (∀ s, P s → durable s) ∧ (∀ a s, P s → P (asked a s)).

Lemma can_attach_steady rec P E : steady P → triple P (can_attach w cfg rec) (λ _, P) E.
Proof.
  intros [HD HA]. unfold can_attach.
  assert (∀ c, triple P (container_running w c) (λ _, P) E) as Hrun.
  { intros c. unfold container_running. intros s Hs. eapply (triple_prim _ _ P); [done| |exact Hs].
    intros s' Hs'. by apply HA. }
  repeat match goal with |- context [if ?b then _ else _] => destruct b end; try by apply triple_ret.
  destruct (dget "container_id" rec); apply Hrun.
Qed.

Lemma any_unfinished_steady st P ns :
  steady P → (∀ s, P s → store s = st) →
  triple P (any_unfinished w cfg ns)
    (λ b s, P s ∧ (b = false → name cfg ∈ ns → ∀ d, holds st (name cfg) (Some d) →
                     field d "status" (PStr "running") → False)) (λ _, P).
Proof.
  intros [HD HA] Hst. induction ns as [|n ns IH]; cbn [any_unfinished].
  { apply triple_ret. intros s Hs. split; [done|]. by intros _ ?%elem_of_nil. }
  destruct (startswith "agent-" n) eqn:Ha; cbn [negb].
  2:{ eapply triple_post; [exact IH|]. intros b s [Hs Hb]. split; [done|]. intros -> Hin d Hh Hf.
      apply elem_of_cons in Hin as [<-|Hin]; [congruence|]. by eapply Hb. }
  eapply triple_bind with (R := λ o s, P s ∧
    (n = name cfg → ∀ d, holds st (name cfg) (Some d) → ∃ d', o = Some d' ∧ agree d d')).
  { apply triple_load; [done|]. intros s t Hs. destruct (load t (run_key cfg) n (store s)) as [[o|e] st'] eqn:Hl;
      simpl; [|by apply HA]. split; [by apply HA|]. intros -> d Hh.
    rewrite (Hst s Hs) in Hl. destruct (holds_load _ _ _ t Hh) as (d' & Hl' & Hag). rewrite Hl in Hl'.
    injection Hl' as ->. by exists d'. }
  intros o. assert (triple (λ s, P s ∧ (n = name cfg → ∀ d, holds st (name cfg) (Some d) →
      ∃ d', o = Some d' ∧ agree d d'))
    (any_unfinished w cfg ns) (λ b s, P s ∧ (b = false → name cfg ∈ n :: ns → n ≠ name cfg → ∀ d,
       holds st (name cfg) (Some d) → field d "status" (PStr "running") → False)) (λ _, P)) as Hrest.
  { eapply triple_weaken; [exact IH|by intros s [? _]| |done]. intros b s [Hs Hb]. split; [done|].
    intros -> Hin Hne d Hh Hf. apply elem_of_cons in Hin as [Heq|Hin]; [by subst|by eapply Hb]. }
  destruct o as [d0|].
  - destruct (eq_str (dget "status" d0) "done") eqn:Hdone; simpl; [|by apply triple_ret; intros s [Hs _]].
    intros s Hs. pose proof (Hrest s Hs) as Hr. destruct Hs as [_ Ho].
    destruct (any_unfinished w cfg ns s) as [[b|e|] s']; [|done|done]. destruct Hr as [Hs' Hb].
    split; [done|]. intros -> Hin d Hh Hf. destruct (decide (n = name cfg)) as [Heq|Hne]; [|by eapply Hb].
    destruct (Ho Heq d Hh) as (d' & [= <-] & Hag).
    pose proof (agree_field _ _ "status" _ Hag ltac:(done) ltac:(done) Hf) as Hf'.
    by rewrite (dget_field _ _ _ Hf') in Hdone.
  - intros s Hs. pose proof (Hrest s Hs) as Hr. destruct Hs as [_ Ho].
    destruct (any_unfinished w cfg ns s) as [[b|e|] s']; [|done|done]. destruct Hr as [Hs' Hb].
    split; [done|]. intros -> Hin d Hh Hf. destruct (decide (n = name cfg)) as [Heq|Hne]; [|by eapply Hb].
    by destruct (Ho Heq d Hh) as (d' & ? & _).
Qed.

Lemma has_unfinished_steady st P :
  steady P → (∀ s, P s → store s = st) →
  triple P (has_unfinished_agent_records w cfg)
    (λ b s, P s ∧ (b = false → ∀ d, holds st (name cfg) (Some d) →
                     field d "status" (PStr "running") → False)) (λ _, P).
Proof.
  intros HP Hst. unfold has_unfinished_agent_records.
  eapply triple_bind with (R := λ ns s, P s ∧ ns = names (run_key cfg) st).
  { apply triple_prim; [apply HP|]. intros s Hs. split; [by apply (proj2 HP)|].
    simpl. by rewrite (Hst s Hs). }
  intros ns s [Hs ->]. revert s Hs. eapply triple_post; [by apply (any_unfinished_steady st)|].
  intros b s [Hs Hb]. split; [done|]. intros Hf d Hh Hfi. refine (Hb Hf _ d Hh Hfi).
  destruct (Hh 0%Q) as ([d'|] & Hl & Ha); [|done]. exact (proj1 (load_named _ _ _ _ _ _ Hl Hname)).
Qed.

(** Where a life starts. *)
Definition booted (s : sys) : Prop := durable s ∧ seq (en s) = 0%Z ∧ pending (cx s) = None.

Lemma booted_steady : steady booted.
Proof. split; [by intros s [? _]|]. intros a s (? & ? & ?). split; [by apply durable_asked|done]. Qed.

Lemma vacant_asked a s : vacant s → vacant (asked a s).
Proof. intros (? & ? & ? & ?). split; [by apply durable_asked|done]. Qed.

(** What the search for the container keeps: the store, and what was read of it. *)
Definition searching (st : S) (s : sys) : Prop := booted s ∧ store s = st.

Lemma searching_steady st : steady (searching st).
Proof.
  split; [by intros s [[? _] _]|]. intros a s [Hb Hst]. split; [by apply booted_steady|done].
Qed.

Lemma vacant_purged s : booted s → vacant (set_store (purge_run (run_key cfg) (store s)) (asked (AskStore "purge" "") s)).
Proof.
  intros ([Ht _] & Hseq & Hp). split; [|split; [done|split; [done|right; by apply holds_purge]]].
  split; [by apply (tidy_asked (AskStore "purge" ""))|]. left. split; apply holds_purge.
Qed.

(** Without a container to go back to, an unfinished run starts over. *)
Lemma start_over st (b : bool) E :
  triple (λ s, searching st s ∧ (b = false → ∀ d, holds st (name cfg) (Some d) →
                                   field d "status" (PStr "running") → False))
    (if b then st_purge w cfg else mret tt) (λ _, vacant) E.
Proof.
  destruct b.
  - apply triple_prim; [by intros s [[[? _] _] _]|]. intros s [[Hb _] _]. by apply vacant_purged.
  - apply triple_ret. intros s [[(Hd & Hseq & Hp) Hst] Hb]. split; [done|]. do 2 (split; [done|]).
    destruct Hd as [_ [[_ Hn]|[Hd|(cid & mk & l & next & _ & Hv)]]]; [by right|by left|right]. subst st.
    destruct Hv as [Hn|d conv l Hh Hw _ _|d conv l h m j Hh Hw _ _ _ _]; [done|exfalso..];
      (eapply Hb; [done|exact Hh|by eapply rd_status]).
Qed.

(** The recorded container is there: the worker goes back to it. *)
Lemma attach_placed st r :
  triple (λ s, searching st s ∧ ∃ t, (load t (run_key cfg) "env" st).1 = Ok (Some r))
    (set_en (attach r)) (λ _, placed) (λ _, durable).
Proof.
  intros s [[([Ht Hd] & Hseq & Hp) Hst] [t Hl]]. subst st. split; [done|].
  destruct Hd as [[Hn _]|[Hd|(cid & mk & l & next & Hr & Hv)]].
  - by rewrite holds_load_none in Hl.
  - by left.
  - right. exists cid, mk, l, next. pose proof Hr as (Hne & (d & Hh & Hcid & _ & _ & _ & Hmk) & _).
    destruct (holds_load _ _ _ t Hh) as (d' & Hl' & Hag). rewrite Hl in Hl'. injection Hl' as <-.
    pose proof (agree_field _ _ "container_id" _ Hag ltac:(done) ltac:(done) Hcid) as Hcid'.
    pose proof (agree_field _ _ "marker_enabled" _ Hag ltac:(done) ltac:(done) Hmk) as Hmk'.
    split; try done; unfold set_en, attach; simpl.
    + by rewrite (dget_field _ _ _ Hcid').
    + rewrite (dget_field _ _ _ Hmk'). by destruct mk.
Qed.

Lemma no_record_vacant st s r :
  searching st s → (∃ t, (load t (run_key cfg) "env" st).1 = Ok r) → r = None ∨ r = Some [] → vacant s.
Proof.
  intros [(Hd & Hseq & Hp) Hst] [t Hl] Hr. subst st. split; [done|]. do 2 (split; [done|]).
  destruct Hd as [_ [[_ Hn]|[Hd|(cid & mk & l & next & (_ & (d & Hh & Hcid & _) & _) & _)]]];
    [by right|by left|].
  destruct (holds_load _ _ _ t Hh) as (d' & Hl' & Hag). rewrite Hl in Hl'. injection Hl' as ->.
  destruct Hr as [[=]|[= ->]].
  by pose proof (agree_field _ _ "container_id" _ Hag ltac:(done) ltac:(done) Hcid).
Qed.

Lemma start_container_placed :
  triple booted (start_container w cfg) (λ _, placed) (λ _, durable).
Proof.
  intros s Hs. assert (searching (store s) s) as Hst by done. revert Hst. generalize (store s) as st.
  intros st Hst. clear Hs. revert s Hst.
  assert (∀ s', searching st s' → durable s') as Hdur by (by intros s' [[? _] _]).
  unfold start_container, resume_active. rewrite Hkey, Henabled. cbn [andb negb].
  eapply triple_bind with (R := λ r s, searching st s ∧ ∃ t, (load t (run_key cfg) "env" st).1 = Ok r).
  { apply triple_load; [done|]. intros s t Hs. pose proof (proj2 Hs) as Heq. rewrite Heq.
    destruct (load t (run_key cfg) "env" st) as [[o|e] st'] eqn:Hl; simpl.
    - split; [by apply searching_steady|]. exists t. by rewrite Hl.
    - by apply durable_asked, Hdur. }
  assert (∀ r : option doc, r = None ∨ r = Some [] →
    triple (λ s, searching st s ∧ ∃ t, (load t (run_key cfg) "env" st).1 = Ok r)
      (_ ← mret false; _ ← docker_run w; m ← marker_selftest w; _ ← set_en (with_marker m);
       s ← cget; st_save w cfg "env" (env_doc cfg (en s))) (λ _, placed) (λ _, durable)) as Hnew.
  { intros r Hr. eapply triple_bind with (R := λ (_ : bool), vacant).
    - apply triple_ret. intros s [? ?]. by eapply no_record_vacant.
    - intros b. apply new_container_placed. }
  intros [r|]; [destruct r as [|kv r']; [by apply Hnew; right|]|by apply Hnew; left].
  - set (r := kv :: r'). clearbody r. clear kv r'.
    set (P := λ s, searching st s ∧ ∃ t, (load t (run_key cfg) "env" st).1 = Ok (Some r)).
    assert (steady P) as HP.
    { split; [intros s [? _]; by apply Hdur|]. intros a s [? ?]. split; [by apply searching_steady|done]. }
    eapply triple_bind; [by apply (can_attach_steady r P)|]. intros [|]; [apply attach_placed|].
    eapply triple_bind.
    { eapply triple_weaken; [apply (has_unfinished_steady st P HP)| | |].
      - by intros s [[_ ?] _].
      - done.
      - intros b s H. exact H.
      - intros e s Hs. by apply (proj1 HP). }
    intros b. eapply triple_bind; [eapply triple_pre; [apply (start_over st b)|]|].
    { by intros s [[? _] Hb]. }
    intros u. apply new_container_placed.
Qed.

(** ** Lives *)

Lemma life_durable s :
  durable s →
  match life w cfg fuel kwargs s with
  | (Ret _, s') => over s'
  | (_, s') => durable s'
  end.
Proof.
  intros Hd. assert (booted (boot w s)) as Hb by (split; [by apply (durable_ext s)|done]).
  unfold life. generalize dependent (boot w s). clear s Hd. intros s Hs.
  enough (triple booted
    (_ ← start_container w cfg; t ← clock w; _ ← set_ag (λ _, new_agent t);
     info ← attempt (v ← run w cfg fuel kwargs; mret (inr v)) (λ e, mret (inl e));
     _ ← release w; mret info) (λ _, over) (λ _, durable)) as Ht.
  { specialize (Ht s Hs). by match type of Ht with match ?x with _ => _ end => destruct x as [[]] end. }
  clear s Hs. eapply triple_bind; [apply start_container_placed|]. intros u.
  apply triple_clock. intros t. eapply triple_bind with (R := λ _ s, placed s ∧ known s).
  { intros s Hs. split; [by apply placed_ag|by apply json_ok_flat]. }
  intros u1. eapply triple_bind with (R := λ _, over).
  { eapply triple_attempt with (E' := λ _, over); [|intros e; by apply triple_ret].
    eapply triple_bind; [apply run_placed|]. intros v. by apply triple_ret. }
  intros info. eapply triple_bind with (R := λ _, over); [|intros u2; by apply triple_ret].
  apply triple_prim; [by intros s [? _]|]. intros s [Hd He]. split; [by apply (durable_asked (AskDocker "stop" "" 0))|done].
Qed.

Lemma lives_durable n s :
  durable s →
  match lives w cfg n fuel kwargs s with
  | (Ret _, s') => over s'
  | (_, s') => durable s'
  end.
Proof.
  revert s. induction n as [|n IH]; intros s Hd; simpl; [done|].
  pose proof (life_durable s Hd) as Hl. destruct (life w cfg fuel kwargs s) as [[a|e|] s']; [done|done|].
  by apply IH.
Qed.

(** C3: a run that is killed and started again is one run, under these conditions.
    The store is on, takes every record that JSON can carry and lets none run out
    (as the store of files does without a time to live); the run has a key, its
    agent a plain name that starts with [agent-], and its commands go through the
    ledger.  Docker answers every call: a probe that fails reads as an empty slot,
    and its command is started again.  No two [docker run] give the same id, and
    none is empty; the clock in the container prints as a number.  What templates,
    model and tools say is JSON, floats reading back as they were, an answer of the
    model is not empty, and the message made of an exception has the role exit.

    The worker starts with no container and no record of the run, may be killed
    before any call it makes to the store, to docker or to the model, and is started
    again up to [n] times.  Then in every container the commands were started in the
    order of their numbers, each once, and they are those of a run whose turns are
    never interrupted; and when a life comes to its end, the conversation it returns
    and the commands one of the containers has run belong to one such run. *)
Theorem exactly_once n s :
  docker s = ∅ → (∀ t nm, load t (run_key cfg) nm (store s) = (Ok None, store s)) →
  let '(r, s') := lives w cfg n fuel kwargs s in
  (∀ cid c, docker s' !! cid = Some c → ∃ msgs l, ends w msgs l ∧ launched c = numbered l) ∧
  (∀ x, r = Ret x → ∃ cid c l, docker s' !! cid = Some c ∧ launched c = numbered l ∧
                                ends w (messages (ag s')) l).
Proof.
  intros Hd Hl. assert (durable s) as Hs.
  { split; [intros cid c; by rewrite Hd, lookup_empty|]. left. split; intros t; exists None; by rewrite Hl. }
  pose proof (lives_durable n s Hs) as Hlives. destruct (lives w cfg n fuel kwargs s) as [r s'].
  assert (durable s') as [Ht _] by (destruct r; [apply Hlives|done|done]). split.
  - intros cid c Hc. destruct (Ht cid c Hc) as [(msgs & l & Hso) _]. by exists msgs, l.
  - intros x ->. destruct Hlives as [_ (cid & c & Hc & l & He & Hla)]. by exists cid, c, l.
Qed.

End resume.

(** ** A run with three kills *)

(** Floats as fractions, [3.4] for three quarters: each reads back as it was. *)
#[local] Instance fraction_repr : FloatRepr := λ q, str_of_Z (Qnum q) +:+ String "." (str_of_N (Npos (Qden q))).

#[local] Instance fraction_parse : FloatParse := λ s,
  let '(a, b) := str_partition "." s in
  n ← str_int a;
  match int_digits 0 false b with
  | Some (Zpos d) => Some (n # d)%Q
  | _ => if str_nonempty b then None else Some (n # 1)%Q
  end.

Lemma partition_at c a b : str_forallb (λ d, negb (ch_eq d c)) a = true → str_partition c (a +:+ String c b) = (a, b).
Proof.
  induction a as [|d a IH]; simpl; [by rewrite ch_eq_refl|].
  intros [Hd%negb_true_iff Ha]%andb_true_iff. by rewrite Hd, IH.
Qed.

Lemma span_digits_dot ds t : str_forallb is_digit ds = true → span_digits (ds +:+ String "." t) = (ds, String "." t).
Proof. induction ds as [|d ds IH]; simpl; [done|]. intros [-> Hds]%andb_true_iff. by rewrite IH. Qed.

Lemma scan_int_dot n t : scan_int (str_of_N n +:+ String "." t) = Some (str_of_N n, String "." t).
Proof.
  unfold scan_int. rewrite span_digits_dot by apply str_of_N_digits.
  destruct (decide (n = 0)%N) as [->|Hn]; [done|].
  destruct (digits_go_head (Datatypes.S (N.to_nat (N.log2 n))) n EmptyString ltac:(lia) (log2_fuel n)) as (c & u & E & Hc).
  unfold str_of_N. by rewrite E, Hc.
Qed.

Lemma dotless_Z z : str_forallb (λ d, negb (ch_eq d ".")) (str_of_Z z) = true.
Proof.
  assert (∀ n, str_forallb (λ d, negb (ch_eq d ".")) (str_of_N n) = true) as Hn.
  { intros n. eapply str_forallb_impl; [|apply (str_of_N_digits n)].
    intros [[] [] [] [] [] [] [] []]; vm_compute; congruence. }
  unfold str_of_Z. destruct (z <? 0)%Z; [simpl|]; apply Hn.
Qed.

Lemma parse_fraction q : float_parse (float_repr q) = Some q.
Proof.
  unfold float_parse, fraction_parse, float_repr, fraction_repr. rewrite partition_at by apply dotless_Z.
  rewrite str_int_of_Z. simpl. rewrite int_digits_str_of_N. by destruct q.
Qed.

Lemma parse_whole z : is_Some (float_parse (str_of_Z z)).
Proof.
  unfold float_parse, fraction_parse. assert (str_partition "." (str_of_Z z) = (str_of_Z z, "")) as ->.
  { pose proof (dotless_Z z) as Hz. induction (str_of_Z z) as [|c s IH]; simpl in *; [done|].
    apply andb_true_iff in Hz as [Hc%negb_true_iff Hs]. by rewrite Hc, IH. }
  rewrite str_int_of_Z. by eexists.
Qed.

Lemma fraction_float q : json_float q.
Proof.
  split.
  { destruct (str_of_Z_head (Qnum q)) as (c & t & E & Hc). exists c. eexists. unfold float_repr, fraction_repr.
    rewrite E. split; [reflexivity|done]. }
  intros rest Hr. destruct (value_end_scan rest Hr) as [_ He]. pose proof (parse_fraction q) as Hq.
  unfold float_repr, fraction_repr in *. set (d := str_of_N (Npos (Qden q))) in *.
  assert (str_forallb is_digit d = true) as Hd by apply str_of_N_digits.
  assert (∃ c d', d = String c d') as (c & d' & Ed).
  { pose proof (int_digits_str_of_N (Npos (Qden q))) as Hi. fold d in Hi. destruct d as [|c d']; [done|eauto]. }
  assert (scan_frac (String "." d +:+ rest) = (String "." d, rest)) as Hf.
  { cbn [String.append scan_frac]. rewrite ch_eq_refl, span_digits_app by done. by rewrite Ed. }
  rewrite <- str_app_assoc. unfold scan_number. cbn [String.append] in *.
  unfold str_of_Z in *. destruct (Z.ltb_spec (Qnum q) 0) as [Hlt|Hlt].
  - cbn [String.append split_minus]. rewrite ch_eq_refl, scan_int_dot, Hf, He. simpl.
    rewrite str_app_nil_r. simpl in Hq. by rewrite Hq.
  - assert (split_minus (str_of_N (Z.to_N (Qnum q)) +:+ String "." (d +:+ rest)) =
            (EmptyString, str_of_N (Z.to_N (Qnum q)) +:+ String "." (d +:+ rest))) as ->.
    { pose proof (str_of_N_digits (Z.to_N (Qnum q))) as Hg. destruct (str_of_N (Z.to_N (Qnum q))) as [|x u]; [done|].
      simpl in *. apply andb_true_iff in Hg as [Hx _]. by destruct (ch_eq_false x "-") as [_ ->]; [|intros ->]. }
    rewrite scan_int_dot, Hf, He. simpl. rewrite str_app_nil_r. by rewrite Hq.
Qed.

(** The store of files, whose records do not run out. *)
#[local] Instance lasting_store : Store fs := FileStore 0.

Lemma lasting_storable t d : json_ok (PDict d) → storable t d.
Proof. intros Hd. unfold storable. apply json_ok_set; [by apply json_ok_set|apply fraction_float]. Qed.

Lemma lasting_fresh t t' : fresh 0 t t'.
Proof. by intros ?. Qed.

Definition sample_action (command : string) : pyval := PDict [("command", PStr command)].

Definition sample_answer (commands : list string) : pyval :=
  PDict [("role", PStr "assistant"); ("extra", PDict [("actions", PList (map sample_action commands))])].

Definition sample_exit (e : exn) : doc := [("role", PStr "exit"); ("content", PStr (exn_msg e))].

(** The worker dies at the given numbers of calls. *)
Definition sample_world (kills : list nat) : world := {|
  die := λ h, mem (List.length h) kills;
  now := λ _, 0%Q;
  query_model := λ ms _,
    Answer (sample_answer (if bool_decide (List.length ms = 1) then ["ls"; "make"] else ["echo done"]));
  format_observation_messages := λ _ outs _, [PDict [("role", PStr "user"); ("content", PStr (py_str (PList outs)))]];
  format_exit := λ e, PDict (sample_exit e);
  intro := λ _ _, [PDict [("role", PStr "system")]];
  docker_call := λ _, Up;
  run_container := λ h, Ok ("c" +:+ str_of_nat (List.length h));
  running := λ _ _, true;
  epoch := λ h, Z.of_nat (List.length h);
  rc_file := λ _ _ _, Some 0%Z;
  out_file := λ _ _ k, if (k =? 3)%Z then "COMPLETE_TASK_AND_SUBMIT_FINAL_OUTPUT" +:+ nl else "";
  has_sha256sum := false;
  marker_readable := λ _, true
|}.

Definition sample_config : config := {|
  run_key := "bug-1"; name := "agent-0"; fingerprint := "f"; run_fingerprint_ := "g";
  image := "python"; cwd := "/work"; marker_path := "/tmp/marker"; ledger_mode := true;
  restart_on_ambiguous := false; step_limit := 10; cost_limit := 0; wall_time_limit_seconds := 0;
  timeout := 60; executable := "docker"; interpreter := ["bash"; "-c"]; env_flags := []
|}.

Definition sample_start : sys fs := mkSys (new_agent 0) new_ctx new_env ∅ ∅ [].

(** Killed between two commands, right after the second was started, and while the
    first is waited for again: the container has run three commands. *)
Example sample_lives :
  let '(r, s) := lives (sample_world [14; 25; 33]) sample_config 4 5 [] sample_start in
  (match r with Ret _ => true | _ => false end,
   map (λ e, (e.1, launched e.2)) (map_to_list (docker s)), List.length (messages (ag s))) =
  (true, [("c2", [(1%Z, "ls"); (2%Z, "make"); (3%Z, "echo done")])], 5).
Proof. vm_compute. reflexivity. Qed.

Lemma str_of_nat_inj n n' : str_of_nat n = str_of_nat n' → n = n'.
Proof.
  unfold str_of_nat. intros E%(f_equal (int_digits 0 false)). rewrite !int_digits_str_of_N in E. injection E. lia.
Qed.

Lemma exactly_once_witness :
  let '(r, s') := lives (sample_world [14; 25; 33]) sample_config 4 5 [] sample_start in
  (∀ cid c, docker s' !! cid = Some c →
     ∃ msgs l, ends (sample_world [14; 25; 33]) msgs l ∧ launched c = numbered l) ∧
  (∀ x, r = Ret x → ∃ cid c l, docker s' !! cid = Some c ∧ launched c = numbered l ∧
     ends (sample_world [14; 25; 33]) (messages (ag s')) l).
Proof.
  pose (w := sample_world [14; 25; 33]). fold w.
  assert (∀ h h' cid, run_container w h = Ok cid → run_container w h' = Ok cid →
            List.length h = List.length h') as Hids.
  { intros h h' cid [= <-] [= E]. symmetry. by apply str_of_nat_inj. }
  assert (∀ h, (0 <= epoch w h)%Z ∧ is_Some (float_parse (str_of_Z (epoch w h)))) as Hepoch.
  { intros h. split; [simpl; lia|apply parse_whole]. }
  assert (∀ e, ∃ d, format_exit w e = PDict d ∧ dict_get "role" d = Some (PStr "exit")) as Hexit.
  { intros e. by exists (sample_exit e). }
  assert (∀ ms h m, query_model w ms h = Answer m → truthy m = true) as Hanswer.
  { intros ms h m [= <-]. done. }
  assert (speaks_json w) as Hjson.
  { split; [intros vars h|intros ms h m [= <-]|done|intros m outs h|intros e];
      try match goal with |- Forall _ _ => constructor; [|done] end; apply json_ok_flat; [done|by destruct (bool_decide _)|done..]. }
  assert (∀ h, docker_call w h = Up) as Hup by done.
  assert (∀ h, run_container w h ≠ Ok "") as Hidne by done.
  clearbody w.
  exact (exactly_once w sample_config 5 [] (fresh 0) storable lasting_fresh lasting_storable fraction_float Hjson
    (json_ok_flat (PDict []) eq_refl) eq_refl eq_refl eq_refl eq_refl eq_refl
    Hup Hids Hidne Hepoch Hexit Hanswer 4 sample_start eq_refl (λ _ _, eq_refl)).
Defined.

(** The hypothesis on docker is needed: a probe that fails reads as an empty slot,
    and a command that already ran is started again. *)
Definition failing_world (kills fails : list nat) : world :=
  let w := sample_world kills in
  {| die := die w; now := now w; query_model := query_model w;
     format_observation_messages := format_observation_messages w; format_exit := format_exit w;
     intro := intro w;
     docker_call := λ h, if mem (List.length h) fails then Down 1 "Error response from daemon" else Up;
     run_container := run_container w; running := running w; epoch := epoch w;
     rc_file := rc_file w; out_file := out_file w; has_sha256sum := has_sha256sum w;
     marker_readable := marker_readable w |}.

Lemma failed_probe_reissues :
  map (λ e, launched e.2)
    (map_to_list (docker (lives (failing_world [14] [20]) sample_config 2 5 [] sample_start).2)) =
  [[(1%Z, "ls"); (1%Z, "ls"); (2%Z, "make"); (3%Z, "echo done")]].
Proof. vm_compute. reflexivity. Qed.

End MiniResumeSpec.
