(* ===== verification/Git.v ===== *)
(** * git and the forge

    What the providers of [bf_worker/providers] rely on: git runs in a directory,
    a forge answers HTTP requests, and both have a state of their own.  [Forge]
    is the interface the providers are written against; [GitLaws] states what the
    documentation of git promises about the commands the providers give, seen
    through a small view of a clone; [toy] is a concrete forge that keeps them. *)

From S2P Require Import Prelude PyStr Effects.
Local Open Scope string_scope.
Local Open Scope list_scope.

Module Git.

(** What [subprocess.run] returns, and what [requests] returns. *)
Record gitres := mkGit { g_rc : Z; g_out : string; g_err : string }.

Record response := mkResponse {
  status_code : Z;
  json : res pyval;
  text : string;
  raise_for_status : res unit
}.

Class Forge (S : Type) := {
  git : string → list string → S → res gitres * S;
  http : string → string → fields → fields → option string → S → res response * S;
  path_exists : string → S → bool;
  rmtree : string → S → res unit * S;
  mkdir : string → S → res unit * S
}.

(** Options before the command change nothing of what it does. *)
Definition command (args : list string) : list string :=
  match args with
  | name :: _ :: rest => if bool_decide (name = "-c") then rest else args
  | _ => args
  end.

(** ** What is seen of a clone

    Trees are named by their ids, which their content determines: the one the
    working directory would get, the one of the index, and the one of the commit
    the current branch is at; the parent of that commit, with its tree; whether
    there are files that git does not track; the trees of the branches of the
    remote, and of what was last fetched of them. *)
Record view := mkView {
  wt : string;
  ix : string;
  hd : string;
  parent : option (string * string);
  untracked : bool;
  br : string;
  rem : gmap string string;
  trk : gmap string string
}.

(** Everything but the remote and what is known of it. *)
Definition here (v : view) := (wt v, ix v, hd v, parent v, untracked v, br v).

Definition exited_0 (r : res gitres) : Prop := ∃ g, r = Ok g ∧ g_rc g = 0%Z.
Definition printed (r : res gitres) (out : string) : Prop :=
  ∃ g, r = Ok g ∧ g_rc g = 0%Z ∧ str_strip (g_out g) = out.

(** The commands that only look. *)
Definition looks (cmd : list string) : bool :=
  match cmd with
  | name :: rest =>
      mem name ["status"; "rev-parse"; "merge-base"] ||
      bool_decide (name = "branch") && mem rest [[]; ["-r"]]
  | [] => false
  end.

Definition remote_of (b : string) : string := "origin/" +:+ b.
Definition tree_of (rev : string) : string := rev +:+ "^{tree}".
Definition parent_of (rev : string) : string := rev +:+ "~1".

#[global] Arguments remote_of : simpl never.
#[global] Arguments tree_of : simpl never.
#[global] Arguments parent_of : simpl never.

(** What a commit, a staging and a hard reset make of the view. *)
Definition staged (v : view) : view := mkView (wt v) (wt v) (hd v) (parent v) false (br v) (rem v) (trk v).
Definition reset_to (t : string) (v : view) (p : option (string * string)) : view :=
  mkView t t t p false (br v) (rem v) (trk v).

Class GitLaws (S : Type) `{Forge S} (path : string) (look : S → view) : Prop := {
  looks_only : ∀ args s, looks (command args) = true → look (git path args s).2 = look s;
  status_clean : ∀ args s, command args = ["status"; "--porcelain"] →
    printed (git path args s).1 "" → wt (look s) = hd (look s) ∧ ix (look s) = hd (look s);
  add_all : ∀ args s, command args = ["add"; "-A"] → exited_0 (git path args s).1 →
    look (git path args s).2 = staged (look s);
  add_keeps : ∀ args s, command args = ["add"; "-A"] →
    let v := look s in let v' := look (git path args s).2 in
    (wt v', hd v', br v', rem v') = (wt v, hd v, br v, rem v);
  starts : ∀ args s e, (git path args s).1 = Raise e → exn_class e ≠ "RuntimeError";
  commit_index : ∀ args m s, command args = ["commit"; "-m"; m] → exited_0 (git path args s).1 →
    let v := look s in let v' := look (git path args s).2 in
    ix v ≠ hd v ∧ hd v' = ix v ∧ (wt v', br v', rem v', trk v') = (wt v, br v, rem v, trk v);
  commit_nothing : ∀ args m s, command args = ["commit"; "-m"; m] → ¬ exited_0 (git path args s).1 →
    look (git path args s).2 = look s;
  commit_refused : ∀ args m s g, command args = ["commit"; "-m"; m] → (git path args s).1 = Ok g → g_rc g ≠ 0%Z →
    str_contains "nothing to commit" (str_strip (g_err g)) = true → ix (look s) = hd (look s);
  head_tree : ∀ args s t, command args = ["rev-parse"; tree_of "HEAD"] →
    printed (git path args s).1 t → t = hd (look s);
  current_branch : ∀ args s b, command args = ["rev-parse"; "--abbrev-ref"; "HEAD"] →
    printed (git path args s).1 b → b = br (look s);
  parent_commit : ∀ args s, command args = ["rev-parse"; parent_of (br (look s))] →
    (exited_0 (git path args s).1 → ∃ c t, printed (git path args s).1 c ∧ parent (look s) = Some (c, t)) ∧
    (∀ g, (git path args s).1 = Ok g → g_rc g ≠ 0%Z → parent (look s) = None);
  reset_hard : ∀ args s c t, command args = ["reset"; "--hard"; c] → parent (look s) = Some (c, t) →
    untracked (look s) = false →
    (exited_0 (git path args s).1 → ∃ p, look (git path args s).2 = reset_to t (look s) p) ∧
    (¬ exited_0 (git path args s).1 → look (git path args s).2 = look s);
  fetched_tree : ∀ args s b t, command args = ["rev-parse"; tree_of (remote_of b)] →
    printed (git path args s).1 t → trk (look s) !! b = Some t;
  fetch_branch : ∀ args s b, command args = ["fetch"; "origin"; b] →
    let v := look s in let v' := look (git path args s).2 in
    here v' = here v ∧ rem v' = rem v ∧ (exited_0 (git path args s).1 → trk v' !! b = rem v !! b);
  push_branch : ∀ args s b,
    command args = ["push"; "origin"; b] ∨ command args = ["push"; "--force-with-lease"; "origin"; b] →
    b = br (look s) → exited_0 (git path args s).1 →
    let v := look s in let v' := look (git path args s).2 in
    here v' = here v ∧ rem v' = <[b := hd v]> (rem v);
  get_only : ∀ url headers params proxy s, look (http "GET" url headers params proxy s).2 = look s
}.

(** ** A small git that keeps the laws

    Histories are lists of trees, newest first; a commit is named by how long its
    history is. *)
Module Toy.

Record toy := mkToy {
  t_wt : string;
  t_ix : string;
  t_hist : list string;
  t_untracked : bool;
  t_br : string;
  t_rem : gmap string (list string);
  t_trk : gmap string (list string)
}.

Definition raw (h : list string) : string := default "" (head h).
Definition top (h : list string) : string := str_strip (raw h).
Definition commit_name (h : list string) : string := "c" +:+ str_of_nat (List.length h).
Definition t_parent (h : list string) : option (string * string) :=
  match h with _ :: (_ :: _) as p => Some (commit_name p, top p) | _ => None end.

Definition t_look (s : toy) : view :=
  mkView (str_strip (t_wt s)) (str_strip (t_ix s)) (top (t_hist s)) (t_parent (t_hist s)) (t_untracked s)
    (str_strip (t_br s)) (top <$> t_rem s) (top <$> t_trk s).

Definition out (t : string) : res gitres := Ok (mkGit 0 t "").
Definition fails (t : string) : res gitres := Ok (mkGit 1 "" t).

Definition show (o : option string) : res gitres := match o with Some t => out t | None => fails "unknown revision" end.

(** [origin/b^{tree}] *)
Definition remote_branch (rev : string) : option string :=
  let b := str_take (String.length rev - 14) (str_drop 7 rev) in
  if bool_decide (rev = tree_of (remote_of b)) then Some b else None.

Definition rev_parse (rev : string) (s : toy) : res gitres :=
  match remote_branch rev with
  | Some b => show (raw <$> t_trk s !! b)
  | None =>
      if bool_decide (rev = "HEAD") then out (commit_name (t_hist s))
      else if bool_decide (rev = tree_of "HEAD") then out (raw (t_hist s))
      else if bool_decide (rev = parent_of (str_strip (t_br s))) then show (fst <$> t_parent (t_hist s))
      else fails "unknown revision"
  end.

Definition is_suffix (a b : list string) : bool :=
  bool_decide (drop (List.length b - List.length a) b = a).

Definition pushed (b : string) (forced : bool) (s : toy) : res gitres * toy :=
  if bool_decide (b = str_strip (t_br s)) && (forced || is_suffix (default [] (t_rem s !! b)) (t_hist s)) then
    (out "", mkToy (t_wt s) (t_ix s) (t_hist s) (t_untracked s) (t_br s)
               (<[b := t_hist s]> (t_rem s)) (<[b := t_hist s]> (t_trk s)))
  else (fails "rejected", s).

Definition fetched (b : string) (s : toy) : res gitres * toy :=
  match t_rem s !! b with
  | Some h => (out "", mkToy (t_wt s) (t_ix s) (t_hist s) (t_untracked s) (t_br s) (t_rem s) (<[b := h]> (t_trk s)))
  | None => (fails "no such branch", s)
  end.

Definition committed (s : toy) : res gitres * toy :=
  if bool_decide (str_strip (t_ix s) = top (t_hist s)) then (Ok (mkGit 1 "nothing to commit" ""), s)
  else (out "", mkToy (t_wt s) (t_ix s) (t_ix s :: t_hist s) (t_untracked s) (t_br s) (t_rem s) (t_trk s)).

Definition clean (s : toy) : bool :=
  bool_decide (str_strip (t_wt s) = top (t_hist s)) && bool_decide (str_strip (t_ix s) = top (t_hist s)).

Definition to_parent (c : string) (s : toy) : res gitres * toy :=
  match t_parent (t_hist s) with
  | Some (c', _) =>
      if bool_decide (c = c') then
        (out "", mkToy (raw (tail (t_hist s))) (raw (tail (t_hist s))) (tail (t_hist s)) (t_untracked s) (t_br s)
                   (t_rem s) (t_trk s))
      else (fails "unknown revision", s)
  | None => (fails "unknown revision", s)
  end.

Definition toy_git (args : list string) (s : toy) : res gitres * toy :=
  match command args with
  | [] => (fails "usage", s)
  | name :: rest =>
      if bool_decide (name = "status") then (out (if clean s then "" else " M file"), s)
      else if bool_decide (name = "rev-parse") then
        (match rest with [rev] => rev_parse rev s | _ => out (t_br s) end, s)
      else if bool_decide (name = "merge-base") then
        (if is_suffix (default [] (t_trk s !! t_br s)) (t_hist s) then out "" else fails "", s)
      else if bool_decide (name = "add") then
        (out "", mkToy (t_wt s) (t_wt s) (t_hist s) false (t_br s) (t_rem s) (t_trk s))
      else if bool_decide (name = "commit") then committed s
      else if bool_decide (name = "fetch") then
        match rest with [_; b] => fetched b s | _ => (out "", s) end
      else if bool_decide (name = "push") then
        match rest with [_; b] => pushed b false s | [_; _; b] => pushed b true s | _ => (fails "usage", s) end
      else if bool_decide (name = "reset") then
        match rest with [_; c] => to_parent c s | _ => (fails "usage", s) end
      else (fails "not a command", s)
  end.

(** The server says a branch is there when there is one, and has no merge requests. *)
Definition toy_http (url : string) (s : toy) : res response * toy :=
  (Ok (mkResponse (if bool_decide (t_rem s = ∅) then 404 else 200) (Ok (PList [])) "" (Ok tt)), s).

#[export] Instance toy_forge : Forge toy := {
  git := λ _ args, toy_git args;
  http := λ _ url _ _ _, toy_http url;
  path_exists := λ _ _, true;
  rmtree := λ _ s, (Ok tt, s);
  mkdir := λ _ s, (Ok tt, s)
}.

Lemma commit_name_clean h : str_strip (commit_name h) = commit_name h.
Proof.
  apply strip_id. unfold commit_name. simpl. apply (str_forallb_impl is_digit); [|apply str_of_nat_digits].
  intros c. apply digit_not_space.
Qed.

Lemma remote_branch_of b : remote_branch (tree_of (remote_of b)) = Some b.
Proof.
  unfold remote_branch. set (rev := tree_of (remote_of b)).
  replace (str_take (String.length rev - 14) (str_drop 7 rev)) with b; [by rewrite bool_decide_eq_true_2|].
  assert (String.length rev = String.length b + 14)%nat as ->.
  { unfold rev, tree_of, remote_of. rewrite !str_length_app. simpl. lia. }
  rewrite Nat.add_sub. symmetry. apply str_take_app.
Qed.

Lemma remote_branch_parent b : remote_branch (parent_of b) = None.
Proof.
  unfold remote_branch. case_bool_decide as E; [|done]. exfalso. apply (f_equal str_final) in E. revert E.
  unfold parent_of, tree_of, remote_of.
  change (b +:+ "~1") with (b +:+ ("~" +:+ "1")). rewrite str_app_assoc, str_final_app.
  set (x := "origin/" +:+ _). change "^{tree}" with ("^{tree" +:+ "}"). rewrite str_app_assoc, str_final_app. done.
Qed.

(** Evaluates the comparisons of the names of commands. *)
Ltac compare_names :=
  repeat match goal with
  | |- context [@bool_decide (String ?a ?b = String ?c ?d) ?i] =>
      let v := eval vm_compute in (@bool_decide (String a b = String c d) i) in
      match v with true => idtac | false => idtac end;
      change (@bool_decide (String a b = String c d) i) with v
  end.

Ltac dispatch :=
  unfold git, toy_forge, toy_git; match goal with E : command _ = _ |- _ => rewrite E end; compare_names; cbn.

Lemma out_printed t x : printed (out t) x → x = str_strip t.
Proof. intros (g & [= <-] & _ & E). by rewrite <- E. Qed.

Lemma exited_out t : exited_0 (out t).
Proof. by eexists. Qed.

Lemma not_exited t : ¬ exited_0 (fails t).
Proof. by intros (g & [= <-] & E). Qed.

Lemma show_printed o x : printed (show o) x → ∃ t, o = Some t ∧ x = str_strip t.
Proof. destruct o as [t|]; intros Hp; [exists t; split; [done|by apply out_printed]|]. by destruct Hp as (g & [= <-] & E & _). Qed.

Lemma t_parent_spec h c t : t_parent h = Some (c, t) → c = commit_name (tail h) ∧ t = top (tail h).
Proof. destruct h as [|x [|y h]]; [done|done|]. by intros [= <- <-]. Qed.

#[export] Instance toy_laws path : GitLaws toy path t_look.
Proof.
  split.
  - intros args s. unfold git, toy_forge, toy_git. destruct (command args) as [|name rest]; [done|].
    unfold looks. intros Hl. destruct (mem name _) eqn:Em.
    + apply mem_spec in Em. rewrite !elem_of_cons, elem_of_nil in Em. by destruct Em as [->|[->|[->|[]]]].
    + simpl in Hl. apply andb_true_iff in Hl as [Hn _]. apply bool_decide_eq_true in Hn as ->. done.
  - intros args s E. dispatch. unfold clean. intros Hp.
    destruct (bool_decide (str_strip (t_wt s) = _)) eqn:E1; [|by apply out_printed in Hp].
    destruct (bool_decide (str_strip (t_ix s) = _)) eqn:E2; [|by apply out_printed in Hp].
    apply bool_decide_eq_true in E1, E2. done.
  - intros args s E. by dispatch.
  - intros args s E. by dispatch.
  - intros args s e. unfold git, toy_forge, toy_git, committed, fetched, pushed, to_parent, rev_parse, show, out, fails.
    by repeat case_match.
  - intros args m s E. dispatch. unfold committed. case_bool_decide as Hb; cbn; [by intros (g & [= <-] & ?)|].
    idtac. done.
  - intros args m s E. dispatch. unfold committed. case_bool_decide as Hb; cbn; [done|].
    intros Hn. destruct Hn. apply exited_out.
  - intros args m s g E. dispatch. unfold committed. case_bool_decide as Hb; cbn; [done|]. by intros [= <-].
  - intros args s t E. dispatch. unfold rev_parse. cbn. by intros ->%out_printed.
  - intros args s b E. dispatch. by intros ->%out_printed.
  - intros args s E. dispatch. unfold rev_parse. rewrite remote_branch_parent.
    assert (∀ x, x ∈ ["HEAD"; tree_of "HEAD"] → parent_of (str_strip (t_br s)) ≠ x) as Hne.
    { intros x Hx Ex. apply (f_equal str_final) in Ex. unfold parent_of in Ex.
      change "~1" with ("~" +:+ "1") in Ex. rewrite str_app_assoc, str_final_app in Ex.
      rewrite !elem_of_cons, elem_of_nil in Hx. by destruct Hx as [->|[->|[]]]. }
    rewrite !bool_decide_eq_false_2 by (apply Hne; set_solver). rewrite bool_decide_eq_true_2 by done.
    destruct (t_parent (t_hist s)) as [[c t]|] eqn:Ep; cbn; [|split; [by intros ?%not_exited|done]].
    split; [|by intros g [= <-]]. intros _. exists c, t. split; [|done].
    eexists. split; [done|]. split; [done|]. cbn. apply t_parent_spec in Ep as [-> _]. apply commit_name_clean.
  - intros args s c t E Hp Hu. dispatch. cbn in Hp, Hu. unfold to_parent. rewrite Hp, bool_decide_eq_true_2 by done.
    apply t_parent_spec in Hp as [_ ->]. split; [|intros Hn; destruct Hn; apply exited_out]. intros _.
    eexists. unfold t_look, reset_to. cbn. by rewrite Hu.
  - intros args s b t E. dispatch. unfold rev_parse. rewrite remote_branch_of. intros (h & Hh & ->)%show_printed.
    cbn. rewrite lookup_fmap. destruct (t_trk s !! b); simpl in *; [|done]. by injection Hh as <-.
  - intros args s b E. dispatch. unfold fetched. destruct (t_rem s !! b) as [h|] eqn:Eb; cbn.
    + split; [done|]. split; [done|]. intros _. by rewrite !lookup_fmap, lookup_insert_eq, Eb.
    + split; [done|]. split; [done|]. by intros ?%not_exited.
  - intros args s b [E|E] -> Hx; revert Hx; dispatch; unfold pushed; rewrite bool_decide_eq_true_2 by done; cbn.
    + destruct (is_suffix _ _); [|by intros ?%not_exited]. intros _. cbn. split; [done|]. apply fmap_insert.
    + intros _. split; [done|]. apply fmap_insert.
  - done.
Qed.

End Toy.
End Git.
