(* ===== verification/GitRepo.v ===== *)
(** * A clone and its project on GitLab

    Model of the class [Repo] of [bf_worker/providers/gitlab_provider.py]: the git
    commands of a clone and the REST calls about its project.  The settings of the
    worker are a record, git and the server are a [Forge]. *)

From S2P Require Import Prelude PyStr Regex Effects BugIds Git.
Local Open Scope string_scope.
Local Open Scope list_scope.

Module GitRepo.
Import BugIds Git.

Notation doc := (list (string * pyval)).

(** The settings the class reads. *)
Record settings := mkSettings {
  env : string;
  gitlab_ssh_port : string;
  gitlab_fqdn : string;
  gitlab_ip : string;
  gitlab_private_token : string;
  gitlab_username : string;
  socks5_proxy : string;
  gitlab_api : string;
  repo_base_path : string
}.

(** [repo_url] and [ssh_url] are attributes that some environments do not set. *)
Record Repo := mkRepo {
  repo_path : string;
  repo_url : option string;
  ssh_url : option string
}.

Definition runtime_error (m : string) : exn := Exn "RuntimeError" m.
Definition is_runtime (e : exn) : bool := bool_decide (exn_class e = "RuntimeError").

(** Reading an attribute. *)
Definition attr (name : string) (v : option string) : res string :=
  match v with
  | Some x => Ok x
  | None => Raise (attribute_error ("'Repo' object has no attribute '" +:+ name +:+ "'"))
  end.

Definition SSH_URL_RE : re := Eval vm_compute in rx no_flags "https?://([^/]+)/(.+)$".

Definition to_ssh_url (cfg : settings) (url : string) : res string :=
  match re_match SSH_URL_RE url with
  | None => Raise (value_error ("Invalid repo_url format: " +:+ url))
  | Some (_, _, c) =>
      Ok ("ssh://git@" +:+ default "" (cap_get 1 c) +:+ ":" +:+ gitlab_ssh_port cfg +:+ "/" +:+
          default "" (cap_get 2 c) +:+ ".git")
  end.

(** [Repo.__init__] *)
Definition init (cfg : settings) (path url : string) : res Repo :=
  if bool_decide (env cfg = "local_multi_process") then
    Ok (mkRepo path (Some (str_replace "gitlab.local" "localhost:8080" url)) None)
  else if bool_decide (env cfg = "local_docker_compose") then
    let url := str_replace "gitlab.local" "gitlab" url in
    ssh ← to_ssh_url cfg url;
    Ok (mkRepo path (Some url) (Some ssh))
  else if bool_decide (env cfg = "local_docker_compose_http") then
    Ok (mkRepo path (Some (str_replace "gitlab.local" "gitlab" url)) None)
  else if bool_decide (env cfg = "local_ts_host") then
    ssh ← to_ssh_url cfg url;
    Ok (mkRepo path
         (if negb (str_contains "8080" url)
          then Some (str_replace "xxx.tailnnn.ts.net" "xxx.tailnnn.ts.net:8080" url) else None)
         (Some ssh))
  else if bool_decide (env cfg = "local_ts_host__aca") then
    let url' := str_replace (gitlab_fqdn cfg) (gitlab_ip cfg) url in
    ssh ← to_ssh_url cfg url';
    Ok (mkRepo path
         (Some (if negb (str_contains "8080" url)
                then str_replace (gitlab_ip cfg) (gitlab_ip cfg +:+ ":8080") url' else url'))
         (Some ssh))
  else if bool_decide (env cfg = "gitlab_saas") then Ok (mkRepo path (Some url) None)
  else Ok (mkRepo path None None).

(** The options a proxied environment adds to a command. *)
Definition clone_proxy (proxy : string) : string :=
  " -o " +:+ dquote +:+ "ProxyCommand=nc -X 5 -x " +:+ proxy +:+ " %h %p" +:+ dquote.

Definition remote_proxy (proxy : string) : string :=
  "core.sshCommand=ssh -T -p 2222  -o StrictHostKeyChecking=no -o UserKnownHostsFile=/dev/null -o ProxyCommand=" +:+
  dquote +:+ "nc -X 5 -x " +:+ proxy +:+ " %h %p" +:+ dquote.

Definition rewrite_args (cfg : settings) (args : list string) : res (list string) :=
  if negb (bool_decide (env cfg = "local_ts_host__aca")) then Ok args
  else match args with
       | [] => Raise (index_error "list index out of range")
       | name :: rest =>
           if bool_decide (name = "-c") then
             match rest with
             | opt :: third :: rest =>
                 if bool_decide (third = "clone")
                 then Ok (name :: (opt +:+ clone_proxy (socks5_proxy cfg)) :: third :: rest)
                 else Ok args
             | _ => Raise (index_error "list index out of range")
             end
           else if mem name ["fetch"; "push"; "pull"]
           then Ok (["-c"; remote_proxy (socks5_proxy cfg)] ++ args)
           else Ok args
       end.

Definition PROJECT_RE : re := Eval vm_compute in rx no_flags "(https?://[^/]+)/(.+?)(?:\.git)?$".

(** The host and the path of a project, from its URL. *)
Definition split_url (url : string) : option (string * string) :=
  match re_match PROJECT_RE url with
  | Some (_, _, c) => Some (default "" (cap_get 1 c), default "" (cap_get 2 c))
  | None => None
  end.

Section repo.
Context {S : Type} `{Forge S} (cfg : settings) (request_error : exn → bool).
Notation N := (M S).

(** [run]: the text git prints, or an error with what it complains of.  The
    environment of the process only adds options of ssh. *)
Definition run_git (r : Repo) (args : list string) : N string :=
  args ← lift (rewrite_args cfg args);
  res ← act (Git (repo_path r) args) (git (repo_path r) args);
  if negb (bool_decide (g_rc res = 0%Z)) then throw (runtime_error ("Git error: " +:+ str_strip (g_err res)))
  else mret (str_strip (g_out res)).

Definition run_ (r : Repo) (args : list string) : N unit := _ ← run_git r args; mret tt.

(** [try: ... except RuntimeError: ...] *)
Definition on_git_error {A} (m : N A) (k : exn → N A) : N A :=
  try_ m (λ e, if is_runtime e then k e else throw e).

Definition exists_ (path : string) : N bool := s ← get; mret (path_exists path s).

Definition ensure_origin_ssh (r : Repo) : N unit :=
  url ← lift (attr "ssh_url" (ssh_url r));
  run_ r ["remote"; "set-url"; "origin"; url].

(** [ensure_repo_ready]: always a new clone. *)
Definition ensure_repo_ready (r : Repo) : N unit :=
  there ← exists_ (repo_path r);
  _ ← (if there : bool then act (FileOp "rmtree" (repo_path r)) (rmtree (repo_path r)) else mret tt);
  cloned ← exists_ (repo_path r +:+ "/.git");
  if negb cloned then
    _ ← act (FileOp "mkdir" (repo_path r)) (mkdir (repo_path r));
    if bool_decide (env cfg = "gitlab_saas") then
      url ← lift (attr "repo_url" (repo_url r));
      run_ r ["clone"; str_replace_first "https://" ("https://oauth2:" +:+ gitlab_private_token cfg +:+ "@") url; "."]
    else if negb (mem (env cfg) ["local_ts_host"; "local_ts_host__aca"; "local_docker_compose"]) then
      url ← lift (attr "repo_url" (repo_url r));
      run_ r ["clone"; str_replace "http://"
                ("http://" +:+ gitlab_username cfg +:+ ":" +:+ gitlab_private_token cfg +:+ "@") url; "."]
    else if bool_decide (env cfg = "local_docker_compose") then
      url ← lift (attr "repo_url" (repo_url r));
      _ ← run_ r ["clone"; str_replace "http://"
                    ("http://" +:+ gitlab_username cfg +:+ ":" +:+ gitlab_private_token cfg +:+ "@") url; "."];
      ensure_origin_ssh r
    else
      url ← lift (attr "ssh_url" (ssh_url r));
      _ ← run_ r ["-c"; "core.sshCommand=ssh -o StrictHostKeyChecking=no -o UserKnownHostsFile=/dev/null";
                  "clone"; url; "."];
      ensure_origin_ssh r
  else if mem (env cfg) ["local_ts_host"; "local_ts_host__aca"] then ensure_origin_ssh r
  else mret tt.

(** [ensure_base_branch] *)
Definition ensure_base_branch (r : Repo) (base : string) : N unit :=
  _ ← on_git_error (run_ r ["fetch"; "origin"]) (λ _, mret tt);
  remote_branches ← run_git r ["branch"; "-r"];
  local_branches ← run_git r ["branch"];
  _ ← (if str_contains base local_branches then run_ r ["checkout"; base]
       else if str_contains ("origin/" +:+ base) remote_branches then
         run_ r ["checkout"; "-b"; base; "origin/" +:+ base]
       else if str_contains "origin/master" remote_branches then
         run_ r ["checkout"; "-b"; base; "origin/master"]
       else throw (runtime_error "Neither main nor master branch found in remote."));
  on_git_error (run_ r ["pull"; "origin"; base]) (λ _, mret tt).

Definition branch_exists_local (r : Repo) (branch : string) : N bool :=
  on_git_error (_ ← run_git r ["rev-parse"; "--verify"; "--quiet"; "refs/heads/" +:+ branch]; mret true)
               (λ _, mret false).

(** [create_fix_branch] *)
Definition create_fix_branch (r : Repo) (bug_id base : string) : N doc :=
  _ ← ensure_repo_ready r;
  _ ← ensure_base_branch r base;
  base_commit ← run_git r ["rev-parse"; "HEAD"];
  let branch_name := deterministic_branch_name bug_id base_commit in
  local ← branch_exists_local r branch_name;
  status ← (if local : bool then _ ← run_ r ["checkout"; branch_name]; mret "reused"
            else _ ← run_ r ["checkout"; "-b"; branch_name]; mret "success");
  mret [("status", PStr status); ("branch_name", PStr branch_name); ("base_branch", PStr base);
        ("commit", PStr base_commit)].

(** ** The REST API *)

Definition proxy : option string :=
  if bool_decide (env cfg = "local_ts_host__aca") then Some ("socks5://" +:+ socks5_proxy cfg) else None.

Definition headers : fields :=
  if str_nonempty (gitlab_private_token cfg) then [("PRIVATE-TOKEN", gitlab_private_token cfg)] else [].

Definition http_get (url : string) (params : fields) : N response :=
  act (Http "GET" url headers params proxy) (http "GET" url headers params proxy).

(** A lookup that fails on the way counts as no answer. *)
Definition lookup (url : string) (params : fields) : N (option response) :=
  try_ (resp ← http_get url params; mret (Some resp))
       (λ e, if request_error e then mret None else throw e).

(** [_branch_exists_remote] *)
Definition branch_exists_remote (r : Repo) (branch : string) : N bool :=
  url ← lift (attr "repo_url" (repo_url r));
  match split_url url with
  | None => mret false
  | Some (host, project) =>
      resp ← lookup (host +:+ "/api/v4/projects/" +:+ url_quote project +:+ "/repository/branches/" +:+
                     url_quote branch) [];
      mret (match resp with Some resp => bool_decide (status_code resp = 200%Z) | None => false end)
  end.

(** [_mr_to_dict] *)
Definition mr_to_dict (mr : pyval) : res doc :=
  id ← py_get mr "id" PNone; iid ← py_get mr "iid" PNone; title ← py_get mr "title" PNone;
  url ← py_get mr "web_url" PNone; state ← py_get mr "state" PNone;
  Ok [("id", id); ("iid", iid); ("title", title); ("url", url); ("state", state)].

(** The first of the items in a state. *)
Fixpoint first_in_state (state : string) (items : list pyval) : res (option doc) :=
  match items with
  | [] => Ok None
  | mr :: items' =>
      st ← py_get mr "state" PNone;
      if bool_decide (st = PStr state) then d ← mr_to_dict mr; Ok (Some d)
      else first_in_state state items'
  end.

(** Open ones win over merged ones. *)
Definition open_or_merged (items : list pyval) : res (option doc) :=
  opened ← first_in_state "opened" items;
  match opened with
  | Some d => Ok (Some d)
  | None => first_in_state "merged" items
  end.

(** The first merged one whose source branch is one of the bug's. *)
Fixpoint merged_with_prefix (prefix : string) (items : list pyval) : res (option doc) :=
  match items with
  | [] => Ok None
  | mr :: items' =>
      sb ← py_get mr "source_branch" PNone;
      hit ← match py_or sb (PStr "") with
            | PStr sb => Ok (startswith prefix sb)
            | v => Raise (attribute_error ("'" +:+ type_name v +:+ "' object has no attribute 'startswith'"))
            end;
      if hit : bool then
        st ← py_get mr "state" PNone;
        if bool_decide (st = PStr "merged") then d ← mr_to_dict mr; Ok (Some d)
        else merged_with_prefix prefix items'
      else merged_with_prefix prefix items'
  end.

(** What is made of the list the server answers with. *)
Definition read_items (f : list pyval → res (option doc)) (resp : option response) : res (option doc) :=
  match resp with
  | None => Ok None
  | Some resp =>
      if negb (bool_decide (status_code resp = 200%Z)) then Ok None
      else body ← json resp; items ← py_iter (py_or body (PList [])); f items
  end.

Definition merge_requests_url (host project : string) : string :=
  host +:+ "/api/v4/projects/" +:+ url_quote project +:+ "/merge_requests".

Definition bug_prefix (bug_id : string) : string := "auto/bf/" +:+ bug_id +:+ "-".

Definition find_merged_mr_by_bug_prefix (r : Repo) (bug_id : string) : N (option doc) :=
  url ← lift (attr "repo_url" (repo_url r));
  match split_url url with
  | None => mret None
  | Some (host, project) =>
      resp ← lookup (merge_requests_url host project)
               [("source_branch_search", bug_prefix bug_id); ("state", "merged"); ("order_by", "updated_at")];
      lift (read_items (merged_with_prefix (bug_prefix bug_id)) resp)
  end.

Definition find_open_or_merged_mr_for_branch (r : Repo) (branch : string) : N (option doc) :=
  url ← lift (attr "repo_url" (repo_url r));
  match split_url url with
  | None => mret None
  | Some (host, project) =>
      resp ← lookup (merge_requests_url host project)
               [("source_branch", branch); ("state", "all"); ("order_by", "created_at")];
      lift (read_items open_or_merged resp)
  end.

(** ** Pushing and opening a merge request *)

(** [_idempotent_push] *)
Definition idempotent_push (r : Repo) (branch local_tree : string) : N string :=
  there ← branch_exists_remote r branch;
  if negb there then _ ← run_git r ["push"; "origin"; branch]; mret "success"
  else
    fetched ← on_git_error (_ ← run_git r ["fetch"; "origin"; branch]; mret true) (λ _, mret false);
    if negb fetched then _ ← run_git r ["push"; "--force-with-lease"; "origin"; branch]; mret "updated"
    else
      remote_tree ← on_git_error (run_git r ["rev-parse"; tree_of (remote_of branch)]) (λ _, mret "");
      if str_nonempty remote_tree && bool_decide (remote_tree = local_tree) then mret "reused"
      else
        forward ← on_git_error (_ ← run_git r ["merge-base"; "--is-ancestor"; remote_of branch; "HEAD"]; mret true)
                               (λ _, mret false);
        if forward : bool then _ ← run_git r ["push"; "origin"; branch]; mret "success"
        else _ ← run_git r ["push"; "--force-with-lease"; "origin"; branch]; mret "updated".

(** [commit_changes] *)
Definition commit_changes (r : Repo) (message : string) : N doc :=
  there ← exists_ (repo_path r +:+ "/.git");
  if negb there then throw (runtime_error ("Not a git repo: " +:+ repo_path r))
  else
    status ← run_git r ["status"; "--porcelain"];
    if negb (str_nonempty status) then mret [("status", PStr "no_changes")]
    else
      _ ← run_git r ["add"; "-A"];
      committed ← on_git_error (_ ← run_git r ["commit"; "-m"; message]; mret true)
                    (λ e, if str_contains "nothing to commit" (exn_msg e) then mret false else throw e);
      if negb committed then mret [("status", PStr "no_changes")]
      else
        branch ← run_git r ["rev-parse"; "--abbrev-ref"; "HEAD"];
        local_commit ← run_git r ["rev-parse"; "HEAD"];
        local_tree ← run_git r ["rev-parse"; "HEAD^{tree}"];
        push_status ← idempotent_push r branch local_tree;
        mret [("status", PStr push_status); ("branch", PStr branch); ("commit", PStr local_commit)].

(** [{**mr, "status": status}] *)
Definition with_status (mr : doc) (status : string) : doc := dict_set "status" (PStr status) mr.

(** [title or default], for a text that may be missing *)
Definition text_or (t : option string) (dflt : string) : string :=
  match t with Some t => if str_nonempty t then t else dflt | None => dflt end.

(** [gitlab_create_merge_request] *)
Definition gitlab_create_merge_request (r : Repo) (source target : string) (title description : option string) :
    N doc :=
  if negb (str_nonempty (gitlab_private_token cfg)) then
    throw (Exn "OSError" "Missing GITLAB_TOKEN environment variable")
  else
    existing ← find_open_or_merged_mr_for_branch r source;
    let state := dget "state" (default [] existing) in
    if bool_decide (state = PStr "opened") then mret (with_status (default [] existing) "reused")
    else if bool_decide (state = PStr "merged") then mret (with_status (default [] existing) "already_merged")
    else
      url ← lift (attr "repo_url" (repo_url r));
      match split_url url with
      | None => throw (value_error ("Invalid repo_url format: " +:+ url))
      | Some (host, project) =>
          let api_url := host +:+ "/api/v4/projects/" +:+ str_replace "/" "%2F" project +:+ "/merge_requests" in
          let data := [("source_branch", source); ("target_branch", target);
                       ("title", text_or title ("Merge " +:+ source +:+ " into " +:+ target));
                       ("description", text_or description "Auto-created by ci_agent");
                       ("remove_source_branch", "True")] in
          let headers := [("PRIVATE-TOKEN", gitlab_private_token cfg)] in
          resp ← act (Http "POST" api_url headers data proxy) (http "POST" api_url headers data proxy);
          if bool_decide (status_code resp = 409%Z) then
            again ← find_open_or_merged_mr_for_branch r source;
            match again with
            | Some mr =>
                if bool_decide (dget "state" mr = PStr "opened") then mret (with_status mr "reused")
                else throw (runtime_error ("GitLab 409 but no MR found post-race: " +:+ text resp))
            | None => throw (runtime_error ("GitLab 409 but no MR found post-race: " +:+ text resp))
            end
          else if negb (bool_decide (status_code resp = 201%Z)) then
            throw (runtime_error ("GitLab API error " +:+ str_of_Z (status_code resp) +:+ ": " +:+ text resp))
          else
            mr ← lift (json resp);
            _ ← lift (_ ← py_getitem mr "iid"; py_getitem mr "web_url");
            d ← lift (mr_to_dict mr);
            mret (with_status d "opened")
      end.

(** [gitlab_fetch_file]; decoding the base64 text of the answer is a parameter. *)
Definition gitlab_fetch_file (decode : string → res string) (r : Repo) (file_path branch : string) : N string :=
  url ← lift (attr "repo_url" (repo_url r));
  match split_url url with
  | None => throw (value_error ("Invalid repo_url format: " +:+ url))
  | Some (host, project) =>
      resp ← http_get (host +:+ "/api/v4/projects/" +:+ url_quote project +:+ "/repository/files/" +:+
                       url_quote file_path) [("ref", branch)];
      if negb (bool_decide (status_code resp = 200%Z)) then
        throw (Exn "Exception" ("Failed to fetch file: " +:+ str_of_Z (status_code resp) +:+ " " +:+ text resp))
      else
        data ← lift (json resp);
        content ← lift (py_getitem data "content");
        lift match content with
             | PStr content => decode content
             | v => Raise (type_error ("argument should be a bytes-like object or ASCII string, not '" +:+
                                       type_name v +:+ "'"))
             end
  end.

End repo.
End GitRepo.
