(* ===== verification/GitLab.v ===== *)
(** * The GitLab provider

    Model of [GitLabProvider] of [bf_worker/providers/gitlab_provider.py], the
    provider the graph agent runs with, and of its wait for the verdict of a
    pipeline, which the orchestrator puts on the inbox stream of the worker. *)

From S2P Require Import Prelude PyStr PyJsonLoads Effects Git GitRepo.
Local Open Scope string_scope.
Local Open Scope list_scope.

Module GitLab.
Import Git GitRepo.

(** [Path(a) / b] *)
Definition path_join (a b : string) : string := if startswith "/" b then b else a +:+ "/" +:+ b.

(** A world, and the clones made so far by bug id. *)
Notation St S := (S * list (string * string))%type.

Definition on_world {S X A} (f : S → res A * S) (s : S * X) : res A * (S * X) :=
  ((f s.1).1, ((f s.1).2, s.2)).

#[export] Instance forge_with {S X} `{Forge S} : Forge (S * X) := {
  git := λ cwd args, on_world (git cwd args);
  http := λ m url hs ps p, on_world (http m url hs ps p);
  path_exists := λ p s, path_exists p s.1;
  rmtree := λ p, on_world (rmtree p);
  mkdir := λ p, on_world (mkdir p)
}.

Section provider.
Context {S : Type} `{Forge S} {Hrepr : FloatRepr}.
Context (cfg : settings) (request_error : exn → bool) (project_web_url : string).
Notation N := (M (St S)).

Definition fetch_trace (project_id job_id : string) : N string :=
  if negb (str_nonempty project_id) || negb (str_nonempty job_id) then mret ""
  else
    let url := gitlab_api cfg +:+ "/projects/" +:+ project_id +:+ "/jobs/" +:+ job_id +:+ "/trace" in
    let headers := [("PRIVATE-TOKEN", gitlab_private_token cfg)] in
    resp ← act (Http "GET" url headers [] (proxy cfg)) (http "GET" url headers [] (proxy cfg));
    _ ← lift (raise_for_status resp);
    mret (text resp).

Definition fetch_file (decode : string → res string) (file_path ref : string) : N string :=
  r ← lift (init cfg (path_join (repo_base_path cfg) "_tmp_fetch") project_web_url);
  gitlab_fetch_file cfg decode r file_path ref.

(** One clone for each bug. *)
Definition ensure_repo_ready (bug_id : string) : N string :=
  s ← get;
  match dict_get bug_id s.2 with
  | Some path => mret path
  | None =>
      let path := path_join (repo_base_path cfg) bug_id in
      r ← lift (init cfg path project_web_url);
      _ ← GitRepo.ensure_repo_ready cfg r;
      _ ← modify (λ s, (s.1, dict_set bug_id path s.2));
      mret path
  end.

Definition create_fix_branch (bug_id path base : string) : N doc :=
  r ← lift (init cfg path project_web_url);
  result ← GitRepo.create_fix_branch cfg r bug_id (if str_nonempty base then base else "main");
  let branch := match dget "branch_name" result with PStr b => b | _ => "" end in
  there ← branch_exists_remote cfg request_error r branch;
  if there : bool then
    existing ← find_open_or_merged_mr_for_branch cfg request_error r branch;
    mret (match existing with Some mr => dict_set "existing_mr" (PDict mr) result | None => result end)
  else mret result.

Definition commit_and_push (path message : string) : N doc :=
  r ← lift (init cfg path project_web_url);
  commit_changes cfg request_error r message.

(** The branch the merge request is opened against. *)
Definition review_target (state : doc) : pyval :=
  py_or (py_or (dget "base_branch" state) (dget "source_branch" state)) (PStr "main").

Definition fence : string := "```".

Definition create_review (path : string) (state : doc) : N doc :=
  r ← lift (init cfg path project_web_url);
  source ← lift (py_getitem (PDict state) "fix_branch_name");
  bug_id ← lift (py_getitem (PDict state) "bug_id");
  let error_info := default (PStr "") (dict_get "error_info" state) in
  gitlab_create_merge_request cfg request_error r (py_str source) (py_str (review_target state))
    (Some ("[auto-fix] bug " +:+ py_str bug_id))
    (Some ("Automatically generated fix for bug `" +:+ py_str bug_id +:+ "`." +:+ nl +:+ nl +:+
           "**Error:**" +:+ nl +:+ fence +:+ nl +:+ py_str error_info +:+ nl +:+ fence)).

Definition find_merged_mr_by_bug_prefix (bug_id : string) : N (option doc) :=
  r ← lift (init cfg (path_join (repo_base_path cfg) "_precheck") project_web_url);
  GitRepo.find_merged_mr_by_bug_prefix cfg request_error r bug_id.

End provider.

(** ** Waiting for the pipeline *)

Definition TERMINAL : list string := ["success"; "failed"].

(** What the stream and the clock answer; the flag of the clock tells the second
    reading of a turn from the first. *)
Record inbox := mkInbox {
  in_group_create : trace → res unit;
  in_read : Z → trace → res (list (string * list (string * fields)));
  in_ack : trace → res unit;
  in_clock : bool → trace → Q;
  in_stream : string;
  in_group : string;
  in_consumer : string;
  in_block_ms : Z
}.

(** [int(q)] *)
Definition q_int (q : Q) : Z := Z.quot (Qnum q) (Zpos (Qden q)).

Section wait.
Context {S : Type} {Hparse : FloatParse} (w : inbox).

(** Whether [bytes.decode("utf-8", "surrogatepass")] takes the bytes. *)
Definition continues (lo hi : N) (c : ascii) : bool := (lo <=? code c)%N && (code c <=? hi)%N.
Fixpoint utf8_ok (s : string) : bool :=
  match s with
  | EmptyString => true
  | String c s1 =>
      if (code c <? 128)%N then utf8_ok s1
      else match s1 with
      | EmptyString => false
      | String c1 s2 =>
          if continues 194 223 c then continues 128 191 c1 && utf8_ok s2
          else match s2 with
          | EmptyString => false
          | String c2 s3 =>
              if continues 224 239 c then
                continues (if (code c =? 224)%N then 160 else 128) 191 c1 && continues 128 191 c2 && utf8_ok s3
              else match s3 with
              | EmptyString => false
              | String c3 s4 =>
                  continues 240 244 c
                  && continues (if (code c =? 240)%N then 144 else 128) (if (code c =? 244)%N then 143 else 191) c1
                  && continues 128 191 c2 && continues 128 191 c3 && utf8_ok s4
              end
          end
      end
  end.

(** [json.loads] of the bytes of a message, in UTF-8 without a mark of the byte
    order: bytes that are no text raise, and nothing catches it. *)
Definition decoded (raw : string) : res unit :=
  if utf8_ok raw then Ok tt else Raise (Exn "UnicodeDecodeError" "'utf-8' codec can't decode the message").

(** What a message says of the pipeline. *)
Definition message_status (raw : string) : option (res pyval) :=
  match json_loads raw with
  | None => None
  | Some msg =>
      Some (attrs ← py_get msg "object_attributes" (PDict []);
            status ← py_get attrs "status" (PStr "");
            match status with
            | PList _ | PDict _ => Raise (type_error ("unhashable type: '" +:+ type_name status +:+ "'"))
            | _ => Ok status
            end)
  end.

Definition ack_message (id : string) : M S unit :=
  call (XAck (in_stream w) (in_group w) id) (in_ack w).

(** Every message that is text is acknowledged before it is looked at. *)
Fixpoint read_messages (entries : list (string * fields)) : M S (option string) :=
  match entries with
  | [] => mret None
  | (id, f) :: entries' =>
      _ ← lift (decoded (default "" (dict_get "data" f)));
      match message_status (default "" (dict_get "data" f)) with
      | None => _ ← ack_message id; read_messages entries'
      | Some status =>
          _ ← ack_message id;
          status ← lift status;
          match status with
          | PStr st => if mem st TERMINAL then mret (Some st) else read_messages entries'
          | _ => read_messages entries'
          end
      end
  end.

(** One turn for each unit of fuel; [None] when it runs out. *)
Fixpoint wait_loop (fuel : nat) (deadline : Q) : M S (option (option string)) :=
  match fuel with
  | O => mret None
  | Datatypes.S fuel' =>
      now ← observe (in_clock w false);
      if Qle_bool deadline now then mret (Some None)
      else
        now ← observe (in_clock w true);
        let remaining := q_int ((deadline - now) * 1000) in
        if (remaining <=? 0)%Z then mret (Some None)
        else
          results ← try_ (call (XReadGroup (in_group w) (in_consumer w) (in_stream w) ">")
                               (in_read w (Z.min (in_block_ms w) remaining)))
                         (λ _, mret []);
          verdict ← read_messages (flat_map snd results);
          match verdict with
          | Some st => mret (Some (Some st))
          | None => wait_loop fuel' deadline
          end
  end.

(** [_gitlab_wait_ci] *)
Definition gitlab_wait_ci (fuel : nat) (timeout : Q) : M S (option (option string)) :=
  _ ← try_ (call (XGroupCreate (in_stream w) (in_group w) (Some "0")) (in_group_create w))
           (λ e, if str_contains "BUSYGROUP" (exn_msg e) then mret tt else throw e);
  now ← observe (in_clock w true);
  wait_loop fuel (now + timeout).

End wait.
End GitLab.
