(* ===== verification/LocalProviders.v ===== *)
(** * The local providers

    Models of [bf_worker/providers/local_provider.py]: a fix in a git repository on
    this machine ([LocalGit]) and in a copy of a plain directory, given back as a
    patch ([LocalNoGit]), with the virtual environment the tests run in. *)

From S2P Require Import Prelude PyStr Effects BugIds Git GitRepo GitLab.
Local Open Scope string_scope.
Local Open Scope list_scope.

Module LocalProviders.
Import BugIds Git GitRepo GitLab.

(** ** Files and programs *)

Inductive node :=
| File (content : string)
| Dir (entries : list (string * node)).

Record finished := mkFinished { exit_code : Z; output : string }.

(** What the providers do with the disk.  A program sees whether the virtual
    environment is put before its path. *)
Class Disk (S : Type) := {
  node_at : string → S → option node;
  write_text : string → string → S → res unit * S;
  rmtree_ : string → S → res unit * S;
  copytree : string → string → S → res unit * S;
  process : list string → string → option string → S → res finished * S
}.

Section disk.
Context {S : Type} `{Disk S}.
Notation N := (M S).

Definition is_some_node (path : string) (s : S) : bool :=
  match node_at path s with Some _ => true | None => false end.
Definition is_dir_node (path : string) (s : S) : bool :=
  match node_at path s with Some (Dir _) => true | _ => false end.

(** [path.exists()] and [path.is_dir()] *)
Definition exists_path (path : string) : N bool := s ← get; mret (is_some_node path s).
Definition is_dir_path (path : string) : N bool := s ← get; mret (is_dir_node path s).

(** [path.read_text(errors="ignore")] *)
Definition read_node (path : string) (n : option node) : res string :=
  match n with
  | Some (File c) => Ok (universal_newlines c)
  | Some (Dir _) => Raise (Exn "IsADirectoryError" path)
  | None => Raise (Exn "FileNotFoundError" path)
  end.

Definition read_text (path : string) : N string := s ← get; lift (read_node path (node_at path s)).

Definition write (path text : string) : N unit := act (FileOp "write" path) (write_text path text).

(** [subprocess.run(argv, check=True)] *)
Definition checked (argv : list string) : N unit :=
  p ← act (Subprocess argv) (process argv "" None);
  if bool_decide (exit_code p = 0%Z) then mret tt
  else throw (Exn "CalledProcessError" (str_join " " argv)).

(** *** The virtual environment *)

Definition VENV_EXCLUDE_PATTERNS : list string := [".venv"; ".venv/"; "/.venv"; "/.venv/"].

Definition excludes_venv (line : string) : bool :=
  let stripped := str_strip line in
  str_nonempty stripped && negb (startswith "#" stripped) && mem stripped VENV_EXCLUDE_PATTERNS.

(** The text of the exclude file, when it has to change. *)
Definition excluded_text (existing : string) : option string :=
  if existsb excludes_venv (splitlines existing) then None
  else
    let prefix := if negb (str_nonempty existing) || endswith nl existing then "" else nl in
    Some (existing +:+ prefix +:+ ".venv/" +:+ nl).

(** [_ensure_venv_excluded_from_git] *)
Definition ensure_venv_excluded_from_git (work_dir : string) : N unit :=
  is_git ← is_dir_path (work_dir +:+ "/.git");
  if negb is_git then mret tt
  else
    let exclude_file := work_dir +:+ "/.git/info/exclude" in
    there ← exists_path exclude_file;
    existing ← (if there : bool then read_text exclude_file else mret "");
    match excluded_text existing with
    | None => mret tt
    | Some text => write exclude_file text
    end.

(** [_ensure_venv], on a system that is not Windows: the directory of programs of
    the environment, if there is one. *)
Definition ensure_venv (work_dir : string) : N (option string) :=
  let venv_path := work_dir +:+ "/.venv" in
  let bin_dir := venv_path +:+ "/bin" in
  let venv_python := bin_dir +:+ "/python" in
  let req_file := work_dir +:+ "/requirements.txt" in
  made ← exists_path venv_python;
  if made : bool then _ ← ensure_venv_excluded_from_git work_dir; mret (Some bin_dir)
  else
    needed ← exists_path req_file;
    if negb needed then mret None
    else
      _ ← ensure_venv_excluded_from_git work_dir;
      _ ← checked ["python"; "-m"; "venv"; venv_path];
      _ ← checked [venv_python; "-m"; "pip"; "install"; "-r"; req_file; "-q"];
      mret (Some bin_dir).

(** [_run_test_cmd] *)
Definition run_test_cmd (repo_path test_cmd : string) : N (bool * string) :=
  bin_dir ← ensure_venv repo_path;
  p ← act (Subprocess [test_cmd]) (process [test_cmd] repo_path bin_dir);
  mret (bool_decide (exit_code p = 0%Z), output p).

(** [_read_local_file] *)
Definition read_local_file (source_dir file_path : string) : N string :=
  let full_path := path_join source_dir file_path in
  there ← exists_path full_path;
  if negb there then throw (Exn "FileNotFoundError" ("File not found: " +:+ full_path))
  else read_text full_path.

End disk.

(** ** A git repository on this machine *)

Module LocalGit.
Section local_git.
Context {S : Type} `{Forge S} `{Disk S}.
Context (source_dir trace_file test_cmd : string).
Notation N := (M S).

(** [__init__]: the directory has to be a repository. *)
Definition local_init : N unit :=
  there ← exists_path (source_dir +:+ "/.git");
  if there : bool then mret tt else throw (value_error ("Not a git repo: " +:+ source_dir)).

Definition local_fetch_file (file_path : string) : N string := read_local_file source_dir file_path.
Definition local_ensure_repo_ready : N string := mret source_dir.

(** [_git] *)
Definition git_ (cwd : string) (args : list string) : N string :=
  r ← act (Git cwd args) (git cwd args);
  if negb (bool_decide (g_rc r = 0%Z)) then throw (runtime_error ("Git error: " +:+ str_strip (g_err r)))
  else mret (str_strip (g_out r)).

Definition local_fetch_trace : N string :=
  if str_nonempty trace_file then read_text trace_file
  else r ← run_test_cmd source_dir test_cmd; mret r.2.

Definition branch_exists (branch path : string) : N bool :=
  on_git_error (_ ← git_ path ["rev-parse"; "--verify"; "--quiet"; "refs/heads/" +:+ branch]; mret true)
               (λ _, mret false).

Definition local_create_fix_branch (bug_id path : string) : N doc :=
  base_commit ← git_ path ["rev-parse"; "HEAD"];
  let branch_name := deterministic_branch_name bug_id base_commit in
  there ← branch_exists branch_name path;
  status ← (if there : bool then _ ← git_ path ["checkout"; branch_name]; mret "reused"
            else _ ← git_ path ["checkout"; "-b"; branch_name]; mret "success");
  mret [("status", PStr status); ("branch_name", PStr branch_name); ("base_branch", PStr "HEAD");
        ("commit", PStr base_commit)].

(** [commit_and_push] *)
Definition local_commit_and_push (path message : string) : N doc :=
  status ← git_ path ["status"; "--porcelain"];
  branch ← git_ path ["rev-parse"; "--abbrev-ref"; "HEAD"];
  base ← on_git_error (base ← git_ path ["rev-parse"; branch +:+ "~1"]; mret (base, true))
                      (λ _, base ← git_ path ["rev-parse"; "HEAD"]; mret (base, false));
  let '(base_commit, has_prior_commit) := base in
  if has_prior_commit && negb (str_nonempty status) then
    current_tree ← git_ path ["rev-parse"; "HEAD^{tree}"];
    commit_hash ← git_ path ["rev-parse"; "HEAD"];
    mret [("status", PStr "reused"); ("branch", PStr branch); ("commit", PStr commit_hash);
          ("tree", PStr current_tree)]
  else if negb (str_nonempty status) && negb has_prior_commit then mret [("status", PStr "no_changes")]
  else
    _ ← (if has_prior_commit : bool then _ ← git_ path ["reset"; "--hard"; base_commit]; mret tt else mret tt);
    _ ← git_ path ["add"; "-A"];
    _ ← git_ path ["commit"; "-m"; message];
    commit_hash ← git_ path ["rev-parse"; "HEAD"];
    mret [("status", PStr (if has_prior_commit : bool then "updated" else "success")); ("branch", PStr branch);
          ("commit", PStr commit_hash)].

Definition local_create_review (state : doc) : N doc :=
  mret [("status", PStr "local_commit"); ("branch", dget "fix_branch_name" state)].

(** There is no pipeline to wait for and no merge request to find. *)
Definition local_wait_ci_result : N (option string) := mret (Some "success").
Definition local_find_merged_mr : N (option doc) := mret None.

End local_git.
End LocalGit.

(** ** A plain directory *)

Module LocalNoGit.

Definition PATCH_EXCLUDE_DIRS : list string :=
  [".venv"; "venv"; ".git"; ".pytest_cache"; "__pycache__"; ".mypy_cache"; ".ruff_cache"; ".tox"; ".eggs";
   "node_modules"].

(** The files of a tree as [os.walk] meets them, excluded directories pruned:
    those of a directory before those below it.  A path is the list of its names. *)
Fixpoint walk (path : list string) (n : node) : list (list string * string) :=
  match n with
  | File _ => []
  | Dir es =>
      omap (λ '(name, n), match n with File c => Some (path ++ [name], c) | Dir _ => None end) es ++
      (fix below (es : list (string * node)) :=
         match es with
         | [] => []
         | (name, n) :: es' =>
             (if mem name PATCH_EXCLUDE_DIRS then [] else walk (path ++ [name]) n) ++ below es'
         end) es
  end.

(** The node at a path. *)
Fixpoint node_below (n : node) (path : list string) : option node :=
  match path with
  | [] => Some n
  | name :: path' =>
      match n with
      | Dir es => match dict_get name es with Some n' => node_below n' path' | None => None end
      | File _ => None
      end
  end.

(** [read_text(...).splitlines(keepends=True)] *)
Definition lines_of (c : string) : list string := splitlines_keep (universal_newlines c).

Section no_git.
(** [difflib.unified_diff]: old and new lines, old and new name. *)
Context (unified_diff : list string → list string → string → string → list string).

Definition file_patch (source : node) (path : list string) (c : string) : res (list string) :=
  let rel := str_join "/" path in
  match node_below source path with
  | None => Ok (unified_diff [] (lines_of c) ("a/" +:+ rel) ("b/" +:+ rel))
  | Some n =>
      orig ← read_node rel (Some n);
      let orig := splitlines_keep orig in
      if bool_decide (orig = lines_of c) then Ok []
      else Ok (unified_diff orig (lines_of c) ("a/" +:+ rel) ("b/" +:+ rel))
  end.

Fixpoint patch_lines (source : node) (files : list (list string * string)) : res (list string) :=
  match files with
  | [] => Ok []
  | (path, c) :: files' =>
      a ← file_patch source path c;
      b ← patch_lines source files';
      Ok (a ++ b)
  end.

Section provider.
Context {S : Type} `{Disk S} {Hrepr : FloatRepr}.
Context (source_dir output_dir trace_file test_cmd own_bug_id tempdir : string).

(** A world, and the working copy once it is made. *)
Notation St := (S * option string)%type.
Notation N := (M St).

#[local] Instance disk_with : Disk St := {
  node_at := λ p s, node_at p s.1;
  write_text := λ p t, on_world (write_text p t);
  rmtree_ := λ p, on_world (rmtree_ p);
  copytree := λ a b, on_world (copytree a b);
  process := λ argv cwd venv, on_world (process argv cwd venv)
}.

(** [__init__]: the source has to be a directory. *)
Definition nogit_init : N unit :=
  there ← is_dir_path source_dir;
  if there : bool then mret tt else throw (value_error ("Source directory not found: " +:+ source_dir)).

(** [work_dir] *)
Definition work_dir : N string :=
  s ← get;
  match s.2 with
  | Some d => mret d
  | None => throw (runtime_error "ensure_repo_ready() must be called first")
  end.

(** A new copy of the source, in place of an older one. *)
Definition copy_source (bug_id : string) : N string :=
  let tmp_base := path_join (tempdir +:+ "/sdlcma_local") bug_id in
  there ← exists_path tmp_base;
  _ ← (if there : bool then act (FileOp "rmtree" tmp_base) (rmtree_ tmp_base) else mret tt);
  _ ← act (FileOp "copytree" tmp_base) (copytree source_dir tmp_base);
  _ ← modify (λ s, (s.1, Some tmp_base));
  mret tmp_base.

(** [ensure_repo_ready]: one copy. *)
Definition nogit_ensure_repo_ready (bug_id : string) : N string :=
  s ← get;
  match s.2 with
  | Some d =>
      if is_some_node d s then mret d else copy_source bug_id
  | None => copy_source bug_id
  end.

Definition nogit_fetch_trace : N string :=
  if str_nonempty trace_file then read_text trace_file
  else
    work_dir ← nogit_ensure_repo_ready own_bug_id;
    r ← run_test_cmd work_dir test_cmd;
    mret r.2.

(** [fetch_file]: from the working copy if there is one. *)
Definition nogit_fetch_file (file_path : string) : N string :=
  s ← get;
  read_local_file (default source_dir s.2) file_path.

Definition nogit_create_fix_branch (bug_id : string) : N doc :=
  mret [("status", PStr "success"); ("branch_name", PStr ("local-fix-" +:+ bug_id)); ("base_branch", PStr "none");
        ("commit", PStr "none")].

(** [commit_and_push]: the patch of the working copy against the source. *)
Definition nogit_commit_and_push (repo_path : string) : N doc :=
  s ← get;
  let files := match node_at repo_path s with Some n => walk [] n | None => [] end in
  let source := default (Dir []) (node_at source_dir s) in
  patch ← lift (patch_lines source files);
  match patch with
  | [] => mret [("status", PStr "no_changes")]
  | _ =>
      let patch_path := output_dir +:+ "/" +:+ own_bug_id +:+ ".patch" in
      _ ← write patch_path (str_join "" patch);
      mret [("status", PStr "success"); ("patch_file", PStr patch_path)]
  end.

Definition fenced (text : string) : string := fence +:+ nl +:+ text +:+ nl +:+ fence.

(** [state.get(key, "N/A")], as it is printed *)
Definition or_na (key : string) (state : doc) : string := py_str (default (PStr "N/A") (dict_get key state)).

(** The text of the report. *)
Definition report (bug_id repo_path patch_path : string) (state : doc) : res string :=
  excerpt ← (if truthy (dget "test_output" state) then
               match dget "test_output" state with
               | PStr s => Ok [nl +:+ fence +:+ nl +:+ str_take 2000 s +:+ nl +:+ fence +:+ nl]
               | PList l => Ok [nl +:+ fenced (py_str (PList (take 2000 l))) +:+ nl]
               | v => Raise (type_error ("'" +:+ type_name v +:+ "' object is not subscriptable"))
               end
             else Ok []);
  Ok (str_join "" (
    ["# Bug Fix Report: " +:+ bug_id +:+ nl;
     nl +:+ "## Error Summary" +:+ nl +:+ nl +:+ fenced (or_na "error_info" state) +:+ nl;
     nl +:+ "## Suspect File" +:+ nl +:+ nl +:+ "`" +:+ or_na "suspect_file_path" state +:+ "`" +:+ nl;
     nl +:+ "## Test Result" +:+ nl +:+ nl +:+ "**Passed:** " +:+ or_na "test_passed" state +:+ nl] ++
    excerpt ++
    (if truthy (dget "react_reasoning" state)
     then [nl +:+ "## LLM Reasoning" +:+ nl +:+ nl +:+ py_str (dget "react_reasoning" state) +:+ nl] else []) ++
    [nl +:+ "## Apply the Fix" +:+ nl +:+ nl +:+ fence +:+ "bash" +:+ nl +:+ "patch -p1 -d " +:+ source_dir +:+
       " < " +:+ patch_path +:+ nl +:+ fence +:+ nl;
     nl +:+ "## Working Copy" +:+ nl +:+ nl +:+ "`" +:+ repo_path +:+ "`" +:+ nl])).

(** [create_review]: the report; what it also prints is not modelled. *)
Definition nogit_create_review (repo_path : string) (state : doc) : N doc :=
  let bug_id := py_str (default (PStr "unknown") (dict_get "bug_id" state)) in
  let patch_path := output_dir +:+ "/" +:+ bug_id +:+ ".patch" in
  let report_path := output_dir +:+ "/" +:+ bug_id +:+ "_report.md" in
  text ← lift (report bug_id repo_path patch_path state);
  _ ← write report_path text;
  made ← exists_path patch_path;
  mret [("status", PStr "report_generated"); ("report_file", PStr report_path);
        ("patch_file", if made : bool then PStr patch_path else PNone)].

Definition nogit_wait_ci_result : N (option string) := mret (Some "success").
Definition nogit_find_merged_mr : N (option doc) := mret None.

End provider.
End no_git.
End LocalNoGit.
End LocalProviders.
