(* ===== verification/ProviderSpec.v ===== *)
(** * What the providers deliver

    A commit of the GitLab provider puts the working directory on the fix branch of
    the server; a merge request is opened only where none is open or merged; the
    verdict of a pipeline comes from the inbox. *)

From S2P Require Import Prelude PyStr Regex Effects BugIds Git GitRepo GitLab.
Local Open Scope string_scope.
Local Open Scope list_scope.

Module ProviderSpec.
Import BugIds Git GitRepo GitLab.

(** ** git as the clone sees it *)

Definition plain (args : list string) : bool :=
  match args with name :: _ => negb (bool_decide (name = "-c")) | [] => false end.

Lemma rewrite_command cfg args : plain args = true →
  ∃ args', rewrite_args cfg args = Ok args' ∧ command args' = args.
Proof.
  intros Hp. assert (command args = args) as Hc.
  { unfold command. destruct args as [|name [|x rest]]; [done|done|]. simpl in Hp.
    by destruct (bool_decide (name = "-c")). }
  unfold rewrite_args. destruct (negb (bool_decide (env cfg = _))); [by exists args|].
  destruct args as [|name rest]; [done|]. simpl in Hp. destruct (bool_decide (name = "-c")); [done|].
  destruct (mem name _); [|by eexists]. eexists. split; [done|]. done.
Qed.

Section clone.
Context {S : Type} `{HF : Forge S} (cfg : settings) (request_error : exn → bool) (r : Repo) (look : S → view).
Context {laws : GitLaws S (repo_path r) look}.
Notation run_git := (run_git cfg r).
Implicit Types (P : S → trace → Prop) (v : view).

(** What [run_git] raises of an answer. *)
Definition complaint (x : res gitres) (e : exn) : Prop :=
  match x with
  | Ok g => g_rc g ≠ 0%Z ∧ e = runtime_error ("Git error: " +:+ str_strip (g_err g))
  | Raise e' => e = e'
  end.

Lemma run_git_complains args P (Q : string → S → trace → Prop) (E : exn → S → trace → Prop) :
  plain args = true →
  (∀ args' s h, command args' = args → P s h →
     let x := git (repo_path r) args' s in
     (∀ out h', printed x.1 out → Q out x.2 h') ∧
     (∀ e h', ¬ exited_0 x.1 → complaint x.1 e → E e x.2 h')) →
  hoare P (run_git args) Q E.
Proof.
  intros Hp Hk s h HP. destruct (rewrite_command cfg args Hp) as (args' & Hr & Hc).
  destruct (Hk args' s h Hc HP) as [HQ HE]. unfold GitRepo.run_git. rewrite bind_run. unfold lift at 1. rewrite Hr.
  rewrite bind_run. unfold act. destruct (git (repo_path r) args' s) as [[g|e] s']; simpl in *.
  - case_bool_decide as Hg; simpl.
    + apply HQ. by exists g.
    + apply HE; [by intros (g' & [= <-] & ?)|done].
  - apply HE; [by intros (g' & ? & ?)|done].
Qed.

Lemma run_git_hoare args P (Q : string → S → trace → Prop) (E : exn → S → trace → Prop) :
  plain args = true →
  (∀ args' s h, command args' = args → P s h →
     let x := git (repo_path r) args' s in
     (∀ out h', printed x.1 out → Q out x.2 h') ∧ (∀ e h', ¬ exited_0 x.1 → E e x.2 h')) →
  hoare P (run_git args) Q E.
Proof.
  intros Hp Hk. apply run_git_complains; [done|]. intros args' s h Hc HP.
  destruct (Hk args' s h Hc HP) as [HQ HE]. split; [exact HQ|]. intros e h' Hx _. by apply HE.
Qed.

Definition at_ v : S → trace → Prop := λ s _, look s = v.
Definition same v : S → trace → Prop := λ s _, here (look s) = here v ∧ rem (look s) = rem v.

Lemma look_hoare v args (Q : string → Prop) :
  plain args = true → looks args = true →
  (∀ args' s out, command args' = args → look s = v → printed (git (repo_path r) args' s).1 out → Q out) →
  hoare (at_ v) (run_git args) (λ out s h, at_ v s h ∧ Q out) (λ _, at_ v).
Proof.
  intros Hp Hl HQ. apply run_git_hoare; [done|]. intros args' s h Hc Hv.
  assert (look (git (repo_path r) args' s).2 = v) as Hs by (rewrite looks_only; [exact Hv|by rewrite Hc]).
  split; [|intros e h' _; exact Hs]. intros out h' Ho. split; [exact Hs|].
  eapply HQ; [exact Hc|exact Hv|exact Ho].
Qed.

Lemma same_at P (Q : view → Prop) v {A} (m : M S A) (R : A → S → trace → Prop) E :
  (∀ v', here v' = here v → rem v' = rem v → Q v' → hoare (at_ v') m R E) →
  (∀ s h, P s h → same v s h ∧ Q (look s)) → hoare P m R E.
Proof. intros Hm HP s h Hp. destruct (HP s h Hp) as [[Hh Hr] HQ]. by apply (Hm (look s)). Qed.

Lemma hoare_on_git_error {A} P (m : M S A) k (Q : A → S → trace → Prop) E E' :
  hoare P m Q E' → (∀ e, hoare (E' e) (k e) Q E) → (∀ e s h, E' e s h → E e s h) →
  hoare P (on_git_error m k) Q E.
Proof.
  intros Hm Hk HE. apply (hoare_try _ _ _ _ _ _ Hm). intros e. destruct (is_runtime e); [done|].
  apply hoare_throw. intros s h. apply HE.
Qed.

Lemma push_hoare v args : args = ["push"; "origin"; br v] ∨ args = ["push"; "--force-with-lease"; "origin"; br v] →
  hoare (same v) (run_git args)
    (λ _ s _, here (look s) = here v ∧ rem (look s) = <[br v := hd v]> (rem v)) (λ _ _ _, True).
Proof.
  intros Ha. apply run_git_hoare; [by destruct Ha as [->| ->]|]. intros args' s h Hc [Hh Hr]. split; [|done].
  intros out h' (g & Hg & H0 & _). pose proof Hh as Hh'. injection Hh' as _ _ Ehd _ _ Ebr.
  destruct (push_branch args' s (br v)) as [Hh1 Hr1]; [by destruct Ha as [<-| <-]; [left|right]; rewrite Hc|done|by exists g|].
  split; [by rewrite Hh1|]. by rewrite Hr1, Hr, Ehd.
Qed.

Lemma http_hoare P url ps : (∀ s s' h h', look s' = look s → P s h → P s' h') →
  hoare P (http_get cfg url ps) (λ _, P) (λ _, P).
Proof.
  intros HP. apply hoare_act. intros s h Hp.
  destruct (http _ _ _ _ _ s).1; (eapply HP; [|exact Hp]); apply get_only.
Qed.

Lemma lookup_hoare P url ps : (∀ s s' h h', look s' = look s → P s h → P s' h') →
  hoare P (lookup cfg request_error url ps) (λ _, P) (λ _, P).
Proof.
  intros HP. eapply hoare_try.
  - eapply hoare_bind; [by apply http_hoare|]. intros resp. by apply hoare_ret.
  - intros e. simpl. destruct (request_error e); [by apply hoare_ret|by apply hoare_throw].
Qed.

Lemma exists_remote_hoare P b : (∀ s s' h h', look s' = look s → P s h → P s' h') →
  hoare P (branch_exists_remote cfg request_error r b) (λ _, P) (λ _, P).
Proof.
  intros HP. unfold branch_exists_remote. eapply (hoare_bind _ _ _ (λ _, P)); [by apply hoare_lift|].
  intros url. destruct (split_url url) as [[host project]|]; [|by apply hoare_ret].
  eapply hoare_bind; [by apply lookup_hoare|]. intros resp. by apply hoare_ret.
Qed.

(** The remote has what the current branch is at. *)
Definition delivered v (status : string) (s : S) : Prop :=
  here (look s) = here v ∧
  (mem status ["success"; "updated"] = true ∧ rem (look s) = <[br v := hd v]> (rem v) ∨
   status = "reused" ∧ rem (look s) = rem v ∧ rem v !! br v = Some (hd v)).

Lemma pushed_hoare v args status P :
  args = ["push"; "origin"; br v] ∨ args = ["push"; "--force-with-lease"; "origin"; br v] →
  mem status ["success"; "updated"] = true → (∀ s h, P s h → same v s h) →
  hoare P (_ ← run_git args; mret status) (λ st s _, delivered v st s) (λ _ _ _, True).
Proof.
  intros Ha Hst HP. eapply hoare_bind.
  - eapply hoare_weaken; [by apply push_hoare|exact HP|intros; eassumption|done].
  - intros out. apply hoare_ret. intros s h [Hh Hr]. split; [done|by left].
Qed.

Lemma fetch_hoare v b :
  hoare (same v) (run_git ["fetch"; "origin"; b])
    (λ _ s h, same v s h ∧ trk (look s) !! b = rem v !! b) (λ _, same v).
Proof.
  apply run_git_hoare; [done|]. intros args' s h Hc [Hh Hr].
  destruct (fetch_branch args' s b Hc) as (Hh1 & Hr1 & Ht).
  split; [|by intros; split; [rewrite Hh1|rewrite Hr1]].
  intros out h' (g & Hg & H0 & _). split; [by split; [rewrite Hh1|rewrite Hr1]|]. rewrite <- Hr. apply Ht. by exists g.
Qed.

Lemma idempotent_push_hoare v :
  hoare (same v) (idempotent_push cfg request_error r (br v) (hd v))
    (λ st s _, delivered v st s) (λ _ _ _, True).
Proof.
  assert (∀ s s' (h h' : trace), look s' = look s → same v s h → same v s' h') as Hs
    by (intros s s' h h' E [? ?]; split; by rewrite E).
  unfold idempotent_push. eapply hoare_bind;
    [eapply hoare_weaken; [by apply exists_remote_hoare|done|intros; eassumption|done]|]. intros there.
  destruct (negb there); [apply pushed_hoare; by eauto|].
  eapply (hoare_bind _ _ _ (λ ok s h, same v s h ∧ (ok = true → trk (look s) !! br v = rem v !! br v))).
  { eapply (hoare_on_git_error _ _ _ _ _ (λ _, same v)); [|intros e; by apply hoare_ret|done].
    eapply hoare_bind; [apply fetch_hoare|]. intros out. apply hoare_ret. naive_solver. }
  intros [|]; simpl; [|apply pushed_hoare; by naive_solver].
  eapply (hoare_bind _ _ _ (λ t s h, same v s h ∧ (t ≠ "" → rem v !! br v = Some t))).
  { apply (hoare_on_git_error _ _ _ _ _ (λ _, same v)); [|intros e; by apply hoare_ret|done].
    apply (same_at _ (λ v', trk v' !! br v = rem v !! br v) v); [|naive_solver]. intros v' Hh Hr Ht.
    eapply hoare_weaken; [apply (look_hoare v' _ (λ out, trk v' !! br v = Some out)); [done|done|]|done| |].
    - intros args' s out Hc <- Hp. by apply (fetched_tree args' s).
    - intros out s h [Hv Ho]. unfold at_ in Hv. split; [split; by rewrite Hv|]. intros _. congruence.
    - intros e s h Hv. unfold at_ in Hv. split; by rewrite Hv. }
  intros t. destruct (str_nonempty t && bool_decide (t = hd v)) eqn:Et.
  { apply andb_true_iff in Et as [Et ->%bool_decide_eq_true]. apply hoare_ret. intros s h [[Hh Hr] Ht].
    split; [done|]. right. split; [done|]. split; [done|]. apply Ht. intros E. by rewrite E in Et. }
  eapply (hoare_bind _ _ _ (λ _, same v)).
  { apply (hoare_on_git_error _ _ _ _ _ (λ _, same v)); [|intros e; by apply hoare_ret|done].
    eapply hoare_bind; [|intros out; apply hoare_ret; intros s h HQ; exact HQ].
    apply run_git_hoare; [done|]. intros args' s h Hc [HP _].
    split; intros; (eapply Hs; [apply looks_only; by rewrite Hc|done]). }
  intros [|]; apply pushed_hoare; eauto.
Qed.

(** What git complained of, without the prefix of the error. *)
Lemma complained_nothing (x : string) :
  str_contains "nothing to commit" ("Git error: " +:+ x) = true → str_contains "nothing to commit" x = true.
Proof. cbn [append]. cbn [str_contains]. cbn. done. Qed.

(** A commit of everything there is: it puts something new on the branch, or git
    complains, and where it says that there is nothing to commit there is none. *)
Lemma commit_hoare v message :
  hoare (at_ (staged v)) (run_git ["commit"; "-m"; message])
    (λ _ s _, wt v ≠ hd v ∧ hd (look s) = wt v ∧ wt (look s) = wt v ∧ br (look s) = br v ∧ rem (look s) = rem v)
    (λ e s h, at_ (staged v) s h ∧
      (is_runtime e = true → str_contains "nothing to commit" (exn_msg e) = true → wt v = hd v)).
Proof.
  apply run_git_complains; [done|]. intros args' s h Hc Hv. unfold at_ in Hv. split.
  - intros out h' (g & Hg & H0 & _). destruct (commit_index args' message s Hc) as (Hne & Hhd & Hrest); [by exists g|].
    rewrite Hv in Hne, Hhd, Hrest. injection Hrest as Hw Hb Hr _. done.
  - intros e h' Hx Hcp. unfold at_. split; [rewrite <- Hv; by apply (commit_nothing args' message)|].
    intros Hrt Hn. pose proof (starts args' s) as Hst. pose proof (commit_refused args' message s) as Href.
    destruct (git (repo_path r) args' s).1 as [g|e']; simpl in Hcp; [|subst e'].
    + destruct Hcp as [H0 ->]. rewrite Hv in Href. apply (Href g Hc eq_refl H0). by apply complained_nothing.
    + unfold is_runtime in Hrt. apply bool_decide_eq_true in Hrt. by destruct (Hst e eq_refl).
Qed.

(** A command that looks, and what follows knowing what it printed. *)
Lemma look_bind v args {A} (k : string → M S A) (Q : string → Prop) R E :
  plain args = true → looks args = true →
  (∀ args' s out, command args' = args → look s = v → printed (git (repo_path r) args' s).1 out → Q out) →
  (∀ out, Q out → hoare (at_ v) (k out) R E) → (∀ e s h, at_ v s h → E e s h) →
  hoare (at_ v) (run_git args ≫= k) R E.
Proof.
  intros Hp Hl HQ Hk HE. eapply hoare_bind.
  - eapply hoare_weaken; [by apply (look_hoare v args Q)|done|intros; eassumption|exact HE].
  - intros out s h [Hv Ho]. by apply Hk.
Qed.

(** The branch and the tree of a commit are read back, and its name. *)
Definition announce : M S doc :=
  branch ← run_git ["rev-parse"; "--abbrev-ref"; "HEAD"];
  local_commit ← run_git ["rev-parse"; "HEAD"];
  local_tree ← run_git ["rev-parse"; "HEAD^{tree}"];
  push_status ← idempotent_push cfg request_error r branch local_tree;
  mret [("status", PStr push_status); ("branch", PStr branch); ("commit", PStr local_commit)].

Lemma announce_hoare v :
  hoare (at_ v) announce (λ d s _, ∃ st, dget "status" d = PStr st ∧ delivered v st s) (λ _ _ _, True).
Proof.
  apply (look_bind v _ _ (λ out, out = br v)); [done|done| | |done].
  { intros args' s out Hc <- Hp. by apply (current_branch args' s). }
  intros b ->. apply (look_bind v _ _ (λ _, True)); [done|done|done| |done]. intros c _.
  apply (look_bind v _ _ (λ out, out = hd v)); [done|done| | |done].
  { intros args' s out Hc <- Hp. by apply (head_tree args' s). }
  intros t ->. eapply hoare_bind; [eapply hoare_weaken; [apply idempotent_push_hoare| |intros; eassumption|done]|].
  - intros s h Hv. unfold at_ in Hv. by rewrite <- Hv.
  - intros st. apply hoare_ret. intros s h Hd. by exists st.
Qed.

(** What a commit may leave: nothing was new, or the working directory is on the
    branch here and on the server. *)
Definition commit_outcome v (d : doc) (s : S) : Prop := ∃ st, dget "status" d = PStr st ∧
  (st = "no_changes" ∧ wt v = hd v ∧ wt (look s) = wt v ∧ hd (look s) = hd v ∧ br (look s) = br v ∧
   rem (look s) = rem v ∨
   mem st ["success"; "updated"; "reused"] = true ∧ wt v ≠ hd v ∧ hd (look s) = wt v ∧ wt (look s) = wt v ∧
   br (look s) = br v ∧ rem (look s) !! br v = Some (wt v) ∧
   (∀ b, b ≠ br v → rem (look s) !! b = rem v !! b) ∧ (st = "reused" → rem (look s) = rem v)).

Lemma delivered_outcome v v' d st s :
  wt v ≠ hd v → hd v' = wt v → wt v' = wt v → br v' = br v → rem v' = rem v →
  dget "status" d = PStr st → delivered v' st s → commit_outcome v d s.
Proof.
  intros Hne Eh Ew Eb Er Hd [Hh Hr]. injection Hh as Hw _ Hhd _ _ Hb. exists st. split; [done|]. right.
  rewrite Hw, Hhd, Hb, Eh, Ew, Eb. rewrite Eh, Eb, Er in Hr.
  destruct Hr as [[Hst Hr]|(-> & Hr & Hl)]; rewrite Hr.
  - apply mem_spec in Hst. split; [apply mem_spec; set_solver|]. do 4 (split; [done|]).
    split; [apply lookup_insert_eq|]. split; [intros b Hb'; by apply lookup_insert_ne|].
    intros ->. by apply mem_spec in Hst.
  - done.
Qed.

Lemma commit_changes_hoare v message :
  hoare (at_ v) (commit_changes cfg request_error r message) (λ d s _, commit_outcome v d s) (λ _ _ _, True).
Proof.
  unfold commit_changes. eapply (hoare_bind _ _ _ (λ _, at_ v)).
  { intros s h Hv. exact Hv. }
  intros there. destruct (negb there); [by apply hoare_throw|].
  apply (look_bind v _ _ (λ out, out = "" → wt v = hd v)); [done|done| | |done].
  { intros args' s out Hc <- Hp ->. by apply (status_clean args' s). }
  intros status Hclean.
  assert (∀ P, (∀ s h, P s h → wt v = hd v ∧ (look s = v ∨ look s = staged v)) →
    hoare P (mret [("status", PStr "no_changes")]) (λ d s _, commit_outcome v d s) (λ _ _ _, True)) as Hn.
  { intros P HP. apply hoare_ret. intros s h Hp. exists "no_changes". split; [done|]. left.
    by destruct (HP s h Hp) as [Hw [-> | ->]]. }
  destruct (negb (str_nonempty status)) eqn:Es.
  { apply Hn. intros s h Hv. split; [|by left]. apply Hclean. by destruct status. }
  eapply (hoare_bind _ _ _ (λ _, at_ (staged v))).
  { apply run_git_hoare; [done|]. intros args' s h Hc Hv. split; [|done]. intros out h' (g & Hg & H0 & _).
    unfold at_ in *. rewrite <- Hv. apply add_all; [done|by exists g]. }
  intros _. eapply (hoare_bind _ _ _ (λ (ok : bool) s h, if ok
    then wt v ≠ hd v ∧ hd (look s) = wt v ∧ wt (look s) = wt v ∧ br (look s) = br v ∧ rem (look s) = rem v
    else wt v = hd v ∧ at_ (staged v) s h)).
  { unfold on_git_error. eapply hoare_try.
    - eapply hoare_bind; [apply commit_hoare|]. intros out. by apply hoare_ret.
    - intros e. simpl. destruct (is_runtime e); [|by apply hoare_throw].
      destruct (str_contains _ _); [apply hoare_ret; by intros s h [? Hw]; split; [apply Hw|]|by apply hoare_throw]. }
  intros [|]; simpl; [|apply Hn; intros s h [? ?]; split; [done|by right]].
  intros s h (Hne & Eh & Ew & Eb & Er). pose proof (announce_hoare (look s) s h eq_refl) as Ha. unfold announce in Ha.
  match type of Ha with match ?x with _ => _ end => destruct x as [[d|e] [s' h']] end; [|done].
  destruct Ha as (st & Hd & Hdel). by apply (delivered_outcome v (look s) d st).
Qed.

End clone.
(** The laws hold of a world with something beside it. *)
#[export] Instance laws_with {S X} `{Forge S} path look `{!GitLaws S path look} :
  GitLaws (S * X) path (λ s, look s.1).
Proof.
  split; intros; unfold git, http, forge_with, on_world in *; simpl in *.
  - by apply looks_only.
  - by eapply status_clean.
  - by apply add_all.
  - by apply add_keeps.
  - by eapply starts.
  - by eapply commit_index.
  - by eapply commit_nothing.
  - eapply (commit_refused args m); [done| |done|done]. match goal with E : _ = Ok g |- _ => exact E end.
  - by eapply head_tree.
  - by eapply current_branch.
  - by apply parent_commit.
  - by eapply reset_hard.
  - by eapply fetched_tree.
  - by apply fetch_branch.
  - by apply push_branch.
  - by apply get_only.
Qed.

Lemma init_path cfg path url r : init cfg path url = Ok r → repo_path r = path.
Proof.
  unfold init. assert (∀ u (k : string → Repo), (∀ x, repo_path (k x) = path) →
    (ssh ← to_ssh_url cfg u; Ok (k ssh)) = Ok r → repo_path r = path) as Hs.
  { intros u k Hk. unfold to_ssh_url. destruct (re_match SSH_URL_RE u) as [[[? ?] c]|]; simpl; [|done].
    intros [= <-]. apply Hk. }
  repeat case_bool_decide; intros E; try (by injection E as <-); by eapply Hs in E.
Qed.

(** C26: what the GitLab provider commits is on the server.  When [commit_and_push]
    returns, it says [no_changes] exactly when the working directory was the commit of
    the branch, and then neither the directory, the branch nor the server changed;
    otherwise the current branch is at a commit of exactly the working directory,
    and so is the branch of that name on the server, whether it was pushed, forced
    over something else, or found there already; no other branch of the server
    changed.  Of git the laws of [GitLaws] are assumed: a clean status means that the
    directory is the commit, and a commit refused for having nothing to commit means
    that the index is. *)
Theorem commit_delivers {S} `{Forge S} (cfg : settings) (request_error : exn → bool) (url path message : string)
    (look : S → view) (s : S * list (string * string)) (h : trace) d s' h' :
  GitLaws S path look →
  commit_and_push cfg request_error url path message s h = (Ok d, (s', h')) →
  let v := look s.1 in let v' := look s'.1 in
  ∃ st, dget "status" d = PStr st ∧
    (st = "no_changes" ∧ wt v = hd v ∧ wt v' = wt v ∧ hd v' = hd v ∧ br v' = br v ∧ rem v' = rem v ∨
     mem st ["success"; "updated"; "reused"] = true ∧ wt v ≠ hd v ∧ hd v' = wt v ∧ wt v' = wt v ∧ br v' = br v ∧
     rem v' !! br v = Some (wt v) ∧ (∀ b, b ≠ br v → rem v' !! b = rem v !! b) ∧
     (st = "reused" → rem v' = rem v)).
Proof.
  intros Hl. unfold commit_and_push. rewrite bind_run. unfold lift at 1.
  destruct (init cfg path url) as [r|e] eqn:Er; [|done]. apply init_path in Er as <-. intros Hc.
  pose proof (commit_changes_hoare cfg request_error r (λ s, look s.1) (look s.1) message s h eq_refl) as Hq.
  by rewrite Hc in Hq.
Qed.

(** ** Merge requests *)

Definition is_post (c : cmd) : bool :=
  match c with Http m _ _ _ _ => bool_decide (m = "POST") | _ => false end.
Definition posts (h : trace) : nat := count_calls is_post h.
#[local] Arguments posts : simpl never.

Lemma posts_snoc h c b : posts (h ++ [(c, b)]) = (posts h + if is_post c then 1 else 0)%nat.
Proof. unfold posts. rewrite count_calls_app. unfold count_calls at 2. simpl. by destruct (is_post c). Qed.

(** The requests of a list that are in a state. *)
Definition in_state (st : string) (mr : doc) : bool := bool_decide (dget "state" mr = PStr st).

Definition summary (mr : doc) : doc :=
  [("id", dget "id" mr); ("iid", dget "iid" mr); ("title", dget "title" mr); ("url", dget "web_url" mr);
   ("state", dget "state" mr)].

Lemma first_in_state_spec st (mrs : list doc) :
  first_in_state st (map PDict mrs) = Ok (summary <$> List.find (in_state st) mrs).
Proof. induction mrs as [|mr mrs IH]; [done|]. simpl. unfold in_state at 1, dget at 1. by destruct (bool_decide _). Qed.

(** An open one wins over a merged one, whatever the order. *)
Lemma open_or_merged_spec (mrs : list doc) :
  open_or_merged (map PDict mrs) =
  Ok (summary <$> match List.find (in_state "opened") mrs with
                  | Some mr => Some mr
                  | None => List.find (in_state "merged") mrs
                  end).
Proof.
  unfold open_or_merged. rewrite !first_in_state_spec. by destruct (List.find (in_state "opened") mrs).
Qed.

(** *** What the forge keeps

    The documentation of the merge request API of GitLab, seen through the merge
    requests a project has: a listing changes nothing, holds only requests its
    parameters select, and holds all of them when they fill at most a page; a post
    adds one request, of the branches it names, or none, and none where one is open
    for them; it answers 201 with the one it added and 409 when it added none. *)
Definition PAGE : nat := 20.

Definition selects (params : fields) (mr : doc) : bool :=
  forallb (λ p : string * string,
    if bool_decide (p.1 = "source_branch") then bool_decide (dget "source_branch" mr = PStr p.2)
    else if bool_decide (p.1 = "state") then bool_decide (p.2 = "all") || in_state p.2 mr
    else true) params.

Definition listing_of (branch : string) : fields :=
  [("source_branch", branch); ("state", "all"); ("order_by", "created_at")].

Definition from_branch (source : string) (mr : doc) : bool := bool_decide (dget "source_branch" mr = PStr source).
Definition open_for (source target : string) (mr : doc) : bool :=
  from_branch source mr && bool_decide (dget "target_branch" mr = PStr target) && in_state "opened" mr.

Definition field (k : string) (data : fields) : string := default "" (dict_get k data).

Class ReviewServer (S : Type) `{Forge S} (url post_url : string) (requests : S → list doc) : Prop := {
  list_keeps : ∀ hs ps p s, requests (http "GET" url hs ps p s).2 = requests s;
  list_answers : ∀ hs ps p s resp, (http "GET" url hs ps p s).1 = Ok resp → status_code resp = 200%Z →
    ∃ mrs, json resp = Ok (PList (map PDict mrs)) ∧ Forall (λ mr, mr ∈ requests s ∧ selects ps mr = true) mrs ∧
      ((List.length (List.filter (selects ps) (requests s)) ≤ PAGE)%nat →
       Forall (λ mr, selects ps mr = true → mr ∈ mrs) (requests s));
  post_adds : ∀ hs data p s, let x := http "POST" post_url hs data p s in
    ∃ new, requests x.2 = new ++ requests s ∧ (List.length new ≤ 1)%nat ∧
      Forall (λ mr, open_for (field "source_branch" data) (field "target_branch" data) mr = true) new ∧
      (existsb (open_for (field "source_branch" data) (field "target_branch" data)) (requests s) = true → new = []);
  post_answers : ∀ hs data p s resp, let x := http "POST" post_url hs data p s in x.1 = Ok resp →
    (status_code resp = 201%Z → ∃ mr, json resp = Ok (PDict mr) ∧ requests x.2 = mr :: requests s) ∧
    (status_code resp = 409%Z → requests x.2 = requests s)
}.

Definition post_url (host project : string) : string :=
  host +:+ "/api/v4/projects/" +:+ str_replace "/" "%2F" project +:+ "/merge_requests".

Section reviews.
Context {S : Type} `{Forge S} (cfg : settings) (request_error : exn → bool) (r : Repo) (requests : S → list doc).
Context (url host project : string) (Hurl : repo_url r = Some url) (Hsplit : split_url url = Some (host, project)).
Context {server : ReviewServer S (merge_requests_url host project) (post_url host project) requests}.
Notation find_ b := (find_open_or_merged_mr_for_branch cfg request_error r b).

(** The request a lookup makes, and what is made of its answer. *)
Definition asked (branch : string) (s : S) : res response * S :=
  http "GET" (merge_requests_url host project) (headers cfg) (listing_of branch) (proxy cfg) s.

Definition ask_event (branch : string) (s : S) : event :=
  (Http "GET" (merge_requests_url host project) (headers cfg) (listing_of branch) (proxy cfg), is_ok (asked branch s).1).

Lemma find_run branch s h :
  find_ branch s h =
  (match (asked branch s).1 with
   | Ok resp => read_items open_or_merged (Some resp)
   | Raise e => if request_error e then Ok None else Raise e
   end, ((asked branch s).2, h ++ [ask_event branch s])).
Proof.
  unfold find_open_or_merged_mr_for_branch. rewrite bind_run. unfold lift at 1. rewrite Hurl. cbn [attr].
  rewrite Hsplit. rewrite bind_run. unfold lookup, try_, http_get. rewrite bind_run. unfold act, ask_event.
  change (http "GET" _ _ _ _ s) with (asked branch s). destruct (asked branch s) as [[resp|e] s1]; simpl; [done|].
  by destruct (request_error e).
Qed.

(** What a listing that was answered says: an open request of the branch wins over a
    merged one, whatever the order. *)
Definition found (branch : string) (mrs : list doc) (o : option doc) : Prop :=
  match o with
  | Some d => ∃ mr, mr ∈ mrs ∧ from_branch branch mr = true ∧ d = summary mr ∧
      (in_state "opened" mr = true ∨
       in_state "merged" mr = true ∧
       ((List.length (List.filter (selects (listing_of branch)) mrs) ≤ PAGE)%nat →
        Forall (λ mr, from_branch branch mr = true → in_state "opened" mr = false) mrs))
  | None => (List.length (List.filter (selects (listing_of branch)) mrs) ≤ PAGE)%nat →
      Forall (λ mr, from_branch branch mr = true → in_state "opened" mr = false ∧ in_state "merged" mr = false) mrs
  end.

Lemma selects_listing branch mr : selects (listing_of branch) mr = from_branch branch mr.
Proof. unfold selects. simpl. by rewrite andb_true_r. Qed.

Lemma list_finds branch s resp :
  (asked branch s).1 = Ok resp → status_code resp = 200%Z →
  ∃ o, read_items open_or_merged (Some resp) = Ok o ∧ found branch (requests s) o.
Proof.
  intros Ha Hst. destruct (list_answers _ _ _ _ _ Ha Hst) as (mrs & Hj & Hin & Hall).
  assert (read_items open_or_merged (Some resp) = open_or_merged (map PDict mrs)) as Hread.
  { unfold read_items. rewrite Hst, bool_decide_eq_true_2 by done. simpl. rewrite Hj. by destruct mrs. }
  rewrite Hread, open_or_merged_spec. eexists. split; [done|]. rewrite Forall_forall in Hin.
  assert (∀ st, List.find (in_state st) mrs = None →
    (List.length (List.filter (selects (listing_of branch)) (requests s)) ≤ PAGE)%nat →
    Forall (λ mr, from_branch branch mr = true → in_state st mr = false) (requests s)) as Hnone.
  { intros st Hf Hl. eapply Forall_impl; [exact (Hall Hl)|]. intros mr Hm Hb. rewrite <- selects_listing in Hb.
    apply (List.find_none _ _ Hf). apply list_elem_of_In. by apply Hm. }
  assert (∀ st mr, List.find (in_state st) mrs = Some mr →
    mr ∈ requests s ∧ from_branch branch mr = true ∧ in_state st mr = true) as Hsome.
  { intros st mr [Hm Hs]%List.find_some. apply list_elem_of_In, Hin in Hm as [Hr Hsel].
    by rewrite selects_listing in Hsel. }
  destruct (List.find (in_state "opened") mrs) as [mr|] eqn:Eo; simpl.
  { destruct (Hsome _ _ Eo) as (? & ? & ?). exists mr. by repeat split; [..|left]. }
  destruct (List.find (in_state "merged") mrs) as [mr|] eqn:Em; simpl.
  { destruct (Hsome _ _ Em) as (? & ? & ?). exists mr. repeat split; [done..|right]. split; [done|by apply Hnone]. }
  intros Hl. pose proof (Hnone _ Eo Hl) as H1. pose proof (Hnone _ Em Hl) as H2.
  rewrite Forall_forall in *. intros mr Hmr Hb. split; [by apply H1|by apply H2].
Qed.

Lemma asked_keeps branch s : requests (asked branch s).2 = requests s.
Proof. apply list_keeps. Qed.

Lemma ask_silent branch s h : posts (h ++ [ask_event branch s]) = posts h.
Proof. unfold ask_event. by rewrite posts_snoc, Nat.add_0_r. Qed.

(** At most one request is posted and at most one added, of the branches it is for,
    and none where one is open for them; what is returned is the one that was added,
    or one that is open for the branch. *)
Definition opens_one (source target : string) (s : S) (h : trace) (result : res doc * (S * trace)) : Prop :=
  (posts (end_trace result) ≤ Datatypes.S (posts h))%nat ∧
  (∃ new, requests (end_state result) = new ++ requests s ∧ (List.length new ≤ 1)%nat ∧
     Forall (λ mr, open_for source target mr = true) new ∧
     (existsb (open_for source target) (requests s) = true → new = [])) ∧
  ∀ d, result.1 = Ok d → ∃ mr, mr ∈ requests (end_state result) ∧
    (d = with_status (summary mr) "opened" ∧ requests (end_state result) = mr :: requests s ∨
     d = with_status (summary mr) "reused" ∧ from_branch source mr = true ∧ in_state "opened" mr = true ∧
     requests (end_state result) = requests s).

Lemma raised_none source target s h e (s' : S) h' :
  (posts h' ≤ Datatypes.S (posts h))%nat → requests s' = requests s → opens_one source target s h (Raise e, (s', h')).
Proof.
  intros Hp Hr. split; [exact Hp|]. split; [|done]. exists []. by repeat split; simpl; [|lia|].
Qed.

Lemma create_run source target title description s h :
  str_nonempty (gitlab_private_token cfg) = true →
  (find_ source s h).1 = Ok None →
  opens_one source target s h (gitlab_create_merge_request cfg request_error r source target title description s h).
Proof.
  intros Ht Hf. unfold gitlab_create_merge_request. rewrite Ht. cbv beta iota delta [negb].
  rewrite bind_run. rewrite find_run in Hf |- *. cbn [fst] in Hf. rewrite Hf.
  set (s1 := (asked source s).2). assert (requests s1 = requests s) as Hs1 by apply asked_keeps.
  assert (posts (h ++ [ask_event source s]) = posts h) as Hp by apply ask_silent. set (h1 := h ++ _) in *. clearbody h1.
  cbv beta iota zeta. change (dget "state" (default [] None)) with PNone. rewrite !bool_decide_eq_false_2 by done.
  rewrite bind_run. unfold lift at 1. rewrite Hurl. cbn [attr]. rewrite Hsplit. cbv zeta. fold (post_url host project).
  rewrite bind_run. unfold act. set (data := [("source_branch", source); _; _; _; _]).
  set (hs := [("PRIVATE-TOKEN", _)]). set (c := Http _ _ _ _ _).
  pose proof (post_adds hs data (proxy cfg) s1) as Hadd. pose proof (post_answers hs data (proxy cfg) s1) as Hans.
  cbv zeta in Hadd, Hans. destruct (http "POST" (post_url host project) hs data (proxy cfg) s1) as [x s2]. simpl in Hadd, Hans.
  change (field "source_branch" data) with source in Hadd. change (field "target_branch" data) with target in Hadd.
  rewrite Hs1 in Hadd, Hans.
  assert (∀ b, posts (h1 ++ [(c, b)]) = Datatypes.S (posts h)) as Hc
    by (intros b; rewrite posts_snoc, Hp; unfold c; simpl; lia).
  assert (∀ e s' h', posts h' = Datatypes.S (posts h) → requests s' = requests s2 →
    opens_one source target s h (Raise e, (s' : S, h'))) as Hraise.
  { intros e s' h' Hh Hr. split; [unfold end_trace; simpl; lia|]. split; [|done]. unfold end_state. simpl. by rewrite Hr. }
  destruct x as [resp|e]; simpl; [|by apply Hraise].
  specialize (Hans resp eq_refl) as [H201 H409'].
  case_bool_decide as H409.
  - specialize (H409' H409). rewrite bind_run, find_run. destruct (asked source s2).1 as [resp2|e] eqn:Ea;
      [|destruct (request_error e); apply Hraise; by rewrite ?ask_silent, ?asked_keeps].
    destruct (decide (status_code resp2 = 200%Z)) as [H200|H200];
      [|unfold read_items; rewrite bool_decide_eq_false_2 by done; apply Hraise; by rewrite ?ask_silent, ?asked_keeps].
    destruct (list_finds source s2 resp2 Ea H200) as (o & -> & Ho).
    destruct o as [mr|]; [|apply Hraise; by rewrite ?ask_silent, ?asked_keeps].
    case_bool_decide as Hop; [|apply Hraise; by rewrite ?ask_silent, ?asked_keeps].
    unfold opens_one, end_trace, end_state; simpl. rewrite ask_silent, Hc, asked_keeps. split; [lia|]. split; [exact Hadd|].
    intros d [= <-]. destruct Ho as (m & Hm & Hb & -> & _). exists m. split; [done|]. right.
    by repeat split; [|apply bool_decide_eq_true|].
  - case_bool_decide as E201; simpl; [|by apply Hraise].
    destruct (H201 E201) as (m & -> & Hr). rewrite bind_run. unfold lift at 1. rewrite bind_run. unfold lift at 1.
    destruct (_ ← py_getitem (PDict m) "iid"; _) as [y|e]; [|by apply Hraise].
    rewrite bind_run. unfold lift at 1. cbn. unfold opens_one, end_trace, end_state; simpl. rewrite Hc. split; [lia|]. split; [exact Hadd|].
    intros d [= <-]. exists m. rewrite Hr. split; [by left|]. by left.
Qed.

End reviews.


Lemma contains_dash a x : str_contains "-" (a +:+ String "-" x) = true.
Proof. induction a as [|y a IH]; [done|]. cbn [append str_contains]. by rewrite IH, orb_true_r. Qed.

(** A bug finds the merged request of another one exactly when its id, with a dash
    behind it, starts the id of the other. *)
Lemma probe_matches (b b' commit : string) :
  str_contains "-" (str_take 8 commit) = false →
  startswith (bug_prefix b) (deterministic_branch_name b' commit) = true ↔
  b' = b ∨ startswith (b +:+ "-") b' = true.
Proof.
  intros Hc. unfold bug_prefix, deterministic_branch_name. rewrite !startswith_spec.
  set (c := str_take 8 commit) in *. clearbody c. split.
  - intros [x E]. rewrite <- str_app_assoc in E. apply str_app_inj_l in E. revert b' E.
    induction b as [|a b IH]; intros [|a' b'] E; simpl in E.
    + by left.
    + right. injection E as -> E. by exists b'.
    + injection E as <- ->. rewrite <- str_app_assoc in Hc. simpl in Hc. by rewrite contains_dash in Hc.
    + injection E as -> E. destruct (IH b' E) as [->|[y ->]]; [by left|]. right. by exists y.
  - intros [->|[x ->]]; eexists; rewrite <- !str_app_assoc; done.
Qed.

(** ** The verdict of a pipeline *)

Section verdicts.
Context {S : Type} {Hparse : FloatParse} (w : inbox).

Definition is_read (c : cmd) : bool := match c with XReadGroup _ _ _ _ => true | _ => false end.
Definition reads (h : trace) : nat := count_calls is_read h.

Lemma reads_app h h' : reads (h ++ h') = (reads h + reads h')%nat.
Proof. apply count_calls_app. Qed.

(** A message of the inbox that carries a verdict. *)
Definition carries (v : string) (m : string * fields) : Prop :=
  mem v TERMINAL = true ∧ message_status (default "" (dict_get "data" m.2)) = Some (Ok (PStr v)).

Definition ack_event (id : string) : event := (XAck (in_stream w) (in_group w) id, true).

(** The verdict is the one of the first message that carries one, which was
    acknowledged last; nothing is read on the way. *)
Lemma read_messages_spec entries (s : S) h :
  let x := read_messages w entries s h in
  reads (end_trace x) = reads h ∧
  ∀ v, x.1 = Ok (Some v) → ∃ m h1, m ∈ entries ∧ carries v m ∧ end_trace x = h1 ++ [ack_event m.1].
Proof.
  revert s h. induction entries as [|[id f] entries IH]; intros s h; [done|]. cbn [read_messages].
  assert (∀ b, reads (h ++ [(XAck (in_stream w) (in_group w) id, b)]) = reads h) as Ha
    by (intros b; rewrite reads_app; unfold reads at 2, count_calls; simpl; lia).
  assert (∀ h1, reads h1 = reads h → let x := read_messages w entries s h1 in
    reads (end_trace x) = reads h ∧ ∀ v, x.1 = Ok (Some v) →
      ∃ m h1, m ∈ (id, f) :: entries ∧ carries v m ∧ end_trace x = h1 ++ [ack_event m.1]) as Hrest.
  { intros h1 Hh1. destruct (IH s h1) as [Hr Hv]. split; [by rewrite Hr|]. intros v E.
    destruct (Hv v E) as (m & h2 & Hm & Hc & Hl). exists m, h2. split; [by apply elem_of_cons; right|done]. }
  assert (∀ (k : M S (option string)), (_ ← lift (decoded (default "" (dict_get "data" f))); k) s h =
    match decoded (default "" (dict_get "data" f)) with Ok _ => k s h | Raise e => (Raise e, (s, h)) end) as ->
    by (intros k; by destruct (decoded _)).
  destruct (decoded _) as [[]|e]; [|by split].
  unfold ack_message. destruct (message_status _) as [status|] eqn:Em; rewrite bind_run; unfold call.
  - destruct (in_ack w h) as [[]|e]; [|by split; [apply Ha|]]. rewrite bind_run. unfold lift.
    destruct status as [[| | | | st | |]|e]; try apply (Hrest _ (Ha true)); [|by split; [apply Ha|]].
    destruct (mem st TERMINAL) eqn:Et; [|apply (Hrest _ (Ha true))].
    split; [apply Ha|]. intros v [= <-]. exists (id, f), h. split; [by apply elem_of_cons; left|]. by split.
  - destruct (in_ack w h) as [[]|e]; [|by split; [apply Ha|]]. apply (Hrest _ (Ha true)).
Qed.

(** A message that is no text is not caught with the malformed ones: the wait ends,
    and the message stays in the inbox. *)
Example undecodable_ends_the_wait id (s : S) h :
  read_messages w [(id, [("data", String (ascii_of_N 255) "")])] s h =
  (Raise (Exn "UnicodeDecodeError" "'utf-8' codec can't decode the message"), (s, h)).
Proof. reflexivity. Qed.

(** What a wait ends with: a verdict that was read and acknowledged, or none. *)
Definition answered (x : res (option (option string)) * (S * trace)) : Prop :=
  match x.1 with
  | Ok None => False
  | Ok (Some (Some v)) => ∃ block h0 results m h1,
      in_read w block h0 = Ok results ∧ m ∈ flat_map snd results ∧ carries v m ∧
      end_trace x = h1 ++ [ack_event m.1]
  | _ => True
  end.

Lemma wait_loop_answers n deadline fuel (s : S) h :
  (∀ h', (n ≤ reads h')%nat → (deadline <= in_clock w false h')%Q) →
  (n ≤ fuel + reads h)%nat → answered (wait_loop w (Datatypes.S fuel) deadline s h).
Proof.
  intros Hclock. revert s h. induction fuel as [|fuel IH]; intros s h Hf; cbn [wait_loop]; rewrite bind_observe.
  - by rewrite (proj2 (Qle_bool_iff _ _)) by (apply Hclock; lia).
  - destruct (Qle_bool deadline _) eqn:Eq; [done|].
    assert (reads h < n)%nat as Hlt.
    { destruct (le_lt_dec n (reads h)) as [Hle|]; [|done]. apply Hclock, Qle_bool_iff in Hle. congruence. }
    rewrite bind_observe. cbv zeta. destruct (_ <=? 0)%Z; [done|]. set (block := Z.min _ _).
    rewrite bind_run. unfold try_, call. set (c := XReadGroup _ _ _ _).
    assert (∀ b, reads (h ++ [(c, b)]) = Datatypes.S (reads h)) as Hc
      by (intros b; rewrite reads_app; unfold reads at 2, count_calls, c; simpl; lia).
    destruct (in_read w block h) as [results|e] eqn:Er.
    + rewrite bind_run. destruct (read_messages_spec (flat_map snd results) s (h ++ [(c, is_ok (Ok results))])) as [Hr Hv].
      unfold end_trace in Hr, Hv. destruct (read_messages w _ s _) as [[[v|]|e] [s1 h1]]; simpl in Hr, Hv.
      * unfold answered. simpl. destruct (Hv v eq_refl) as (m & h2 & Hm & Hca & Hl). by exists block, h, results, m, h2.
      * apply IH. rewrite Hr, Hc. lia.
      * done.
    + apply (IH s (h ++ [(c, false)])). rewrite Hc. lia.
Qed.
End verdicts.

(** C28: the wait for a pipeline ends, with a verdict that was sent.  If the clock is
    past the time limit whenever [n] reads have been made, [S n] turns are enough; a
    verdict that is returned is [success] or [failed], stands in a message that was
    read from the inbox of the worker, and that message is the last one that was
    acknowledged; every other end is a wait without a verdict or an error. *)
Theorem wait_ci_answers {S} {Hparse : FloatParse} (w : inbox) (n : nat) (timeout : Q) (s : S) (h : trace) :
  let start := h ++ [(XGroupCreate (in_stream w) (in_group w) (Some "0"), is_ok (in_group_create w h))] in
  (∀ h', (n ≤ reads h')%nat → (in_clock w true start + timeout <= in_clock w false h')%Q) →
  let result := gitlab_wait_ci w (Datatypes.S n) timeout s h in
  match result.1 with
  | Ok None => False
  | Ok (Some (Some v)) => mem v TERMINAL = true ∧ ∃ block h0 results id f h1,
      in_read w block h0 = Ok results ∧ (id, f) ∈ flat_map snd results ∧
      message_status (default "" (dict_get "data" f)) = Some (Ok (PStr v)) ∧
      end_trace result = h1 ++ [(XAck (in_stream w) (in_group w) id, true)]
  | _ => True
  end.
Proof.
  intros start Hclock. cbv zeta. unfold gitlab_wait_ci.
  assert (∀ x : res (option (option string)) * (S * trace), answered w x →
    match x.1 with
    | Ok None => False
    | Ok (Some (Some v)) => mem v TERMINAL = true ∧ ∃ block h0 results id f h1,
        in_read w block h0 = Ok results ∧ (id, f) ∈ flat_map snd results ∧
        message_status (default "" (dict_get "data" f)) = Some (Ok (PStr v)) ∧
        end_trace x = h1 ++ [(XAck (in_stream w) (in_group w) id, true)]
    | _ => True
    end) as Hk.
  { intros [[[[v|]|]|e] st]; try done. intros (block & h0 & results & [id f] & h1 & Hr & Hm & [Hv Hs] & Hl).
    split; [done|]. by exists block, h0, results, id, f, h1. }
  apply Hk. rewrite bind_run. unfold try_, call. fold start.
  destruct (in_group_create w h) as [[]|e].
  - rewrite bind_observe. apply (wait_loop_answers w n); [exact Hclock|lia].
  - destruct (str_contains "BUSYGROUP" (exn_msg e)); [|done].
    change (@mret (M S) _ unit tt s start) with (@Ok unit tt, (s, start)). cbv beta iota.
    rewrite bind_observe. apply (wait_loop_answers w n); [exact Hclock|lia].
Qed.

(** ** Samples *)

Existing Instances Toy.toy_forge Toy.toy_laws.

Definition no_settings : settings :=
  mkSettings "gitlab_saas" "22" "" "" "token" "bot" "" "https://gitlab.com/api/v4" "/work".

(** A fix of [T2] on a branch whose old attempt is still on the server. *)
Definition stale_fix : Toy.toy :=
  Toy.mkToy "T2" "T1" ["T1"] false "fix" {[ "fix" := ["T0"; "T1"] ]} ∅.

Definition pushed_fix :=
  commit_and_push no_settings (λ _, false) "https://gitlab.com/g/p" "/work/BUG-1" "fix" (stale_fix, []) [].

Example pushed_fix_status :
  match pushed_fix with
  | (Ok d, (s, _)) => (dget "status" d, Toy.t_rem s.1 !! "fix") = (PStr "updated", Some ["T2"; "T1"])
  | _ => False
  end.
Proof. vm_compute. reflexivity. Qed.

Lemma commit_delivers_witness :
  match pushed_fix with
  | (Ok d, (s', _)) =>
      let v := Toy.t_look stale_fix in let v' := Toy.t_look s'.1 in
      ∃ st, dget "status" d = PStr st ∧
        (st = "no_changes" ∧ wt v = hd v ∧ wt v' = wt v ∧ hd v' = hd v ∧ br v' = br v ∧ rem v' = rem v ∨
         mem st ["success"; "updated"; "reused"] = true ∧ wt v ≠ hd v ∧ hd v' = wt v ∧ wt v' = wt v ∧ br v' = br v ∧
         rem v' !! br v = Some (wt v) ∧ (∀ b, b ≠ br v → rem v' !! b = rem v !! b) ∧
         (st = "reused" → rem v' = rem v))
  | _ => False
  end.
Proof.
  assert (is_ok pushed_fix.1 = true) as Hok by (vm_compute; reflexivity).
  destruct pushed_fix as [[d|e] [s' h']] eqn:E; [|discriminate Hok].
  exact (commit_delivers no_settings (λ _, false) "https://gitlab.com/g/p" "/work/BUG-1" "fix" Toy.t_look
    (stale_fix, []) [] d s' h' (Toy.toy_laws "/work/BUG-1") E).
Defined.

(** A forge that keeps the merge requests of one project. *)
Module Reviews.

Definition lists_url : string := "https://gitlab.com/api/v4/projects/g%2Fp/merge_requests".
Definition answer (code : Z) (body : pyval) : res response := Ok (mkResponse code (Ok body) "" (Ok tt)).

Definition added (data : fields) (s : list doc) : doc :=
  [("iid", PInt (Z.of_nat (List.length s))); ("web_url", PStr "url"); ("state", PStr "opened");
   ("source_branch", PStr (field "source_branch" data)); ("target_branch", PStr (field "target_branch" data))].

Definition reviews_http (m : string) (params : fields) (s : list doc) : res response * list doc :=
  if bool_decide (m = "GET") then (answer 200 (PList (map PDict (List.filter (selects params) s))), s)
  else if existsb (open_for (field "source_branch" params) (field "target_branch" params)) s then (answer 409 PNone, s)
  else (answer 201 (PDict (added params s)), added params s :: s).

#[export] Instance reviews_forge : Forge (list doc) := {
  git := λ _ _ s, (Ok (mkGit 1 "" ""), s);
  http := λ m _ _ params _, reviews_http m params;
  path_exists := λ _ _, false;
  rmtree := λ _ s, (Ok tt, s);
  mkdir := λ _ s, (Ok tt, s)
}.

#[export] Instance reviews_server url post : ReviewServer (list doc) url post (λ s, s).
Proof.
  split; unfold http, reviews_forge, reviews_http, answer; simpl.
  - done.
  - intros hs ps p s resp [= <-] _. eexists. split; [done|]. split; [|intros _]; apply Forall_forall; intros mr Hmr.
    + apply list_elem_of_In, filter_In in Hmr as [? ?]. by rewrite list_elem_of_In.
    + intros Hs. apply list_elem_of_In, filter_In. by rewrite <- list_elem_of_In.
  - intros hs data p s. destruct (existsb _ s) eqn:Ee; simpl.
    + exists []. by repeat split; simpl; [lia|].
    + exists [added data s]. repeat split; simpl; [lia| |done]. apply Forall_singleton. unfold open_for, from_branch, in_state, dget.
      simpl. by rewrite !bool_decide_eq_true_2.
  - intros hs data p s resp. destruct (existsb _ s); intros [= <-]; simpl; split; try done. intros _. by eexists.
Qed.
End Reviews.

Definition project : Repo := mkRepo "/work/BUG-1" (Some "https://gitlab.com/g/p") None.

(** A branch whose last request was closed gets a new one. *)
Definition closed_one : doc :=
  [("iid", PInt 7); ("state", PStr "closed"); ("source_branch", PStr "auto/bf/BUG-1-abc"); ("target_branch", PStr "main")].

Definition opened_again : res doc * (list doc * trace) :=
  gitlab_create_merge_request (H := Reviews.reviews_forge) no_settings (λ _, false) project "auto/bf/BUG-1-abc" "main"
    None None [closed_one] [].


(** An inbox whose first message carries a verdict, and a clock that a read moves. *)
Definition sample_inbox : inbox :=
  mkInbox (λ _, Ok tt)
    (λ _ _, Ok [("inbox", [("1-0", [("data", "garbage")]);
                           ("2-0", [("data", "{" +:+ dquote +:+ "object_attributes" +:+ dquote +:+ ": {" +:+ dquote +:+
                                     "status" +:+ dquote +:+ ": " +:+ dquote +:+ "success" +:+ dquote +:+ "}}")])])])
    (λ _, Ok tt) (λ _ h, inject_Z (Z.of_nat (reads h))) "inbox" "group" "worker" 5000.

Example sample_verdict `{FloatParse} :
  (gitlab_wait_ci (S := unit) sample_inbox 2 1 tt []).1 = Ok (Some (Some "success")).
Proof. vm_compute. reflexivity. Qed.

Lemma wait_ci_answers_witness :
  let Hparse : FloatParse := λ _, None in
  let result := gitlab_wait_ci (S := unit) sample_inbox 2 1 tt [] in
  match result.1 with
  | Ok None => False
  | Ok (Some (Some v)) => mem v TERMINAL = true ∧ ∃ block h0 results id f h1,
      in_read sample_inbox block h0 = Ok results ∧ (id, f) ∈ flat_map snd results ∧
      message_status (default "" (dict_get "data" f)) = Some (Ok (PStr v)) ∧
      end_trace result = h1 ++ [(XAck "inbox" "group" id, true)]
  | _ => True
  end.
Proof.
  intros Hparse. apply (wait_ci_answers sample_inbox 1 1 tt []). intros h' Hr.
  change (inject_Z 1 <= inject_Z (Z.of_nat (reads h')))%Q. rewrite <- Zle_Qle. lia.
Defined.

End ProviderSpec.
