(* ===== verification/LocalSpec.v ===== *)
(** * What the local providers deliver

    What a commit of [LocalGitProvider] keeps of a fix, by the commit the branch is
    at, and what the patch of [LocalNoGitProvider] says of the working copy. *)

From S2P Require Import Prelude PyStr Effects Git GitRepo GitLab LocalProviders ProviderSpec.
Local Open Scope string_scope.
Local Open Scope list_scope.

Module LocalSpec.
Import Git GitRepo GitLab LocalProviders ProviderSpec.

(** ** A commit in a repository on this machine *)

Section local_commit.
Context {S : Type} `{HF : Forge S} (path : string) (look : S → view) {laws : GitLaws S path look}.
Notation git_ := (LocalGit.git_ path).
Implicit Types (P : S → trace → Prop) (v : view).

Notation here_is v := (λ (s : S) (_ : trace), look s = v).

Lemma git_hoare args P (Q : string → S → trace → Prop) (E : exn → S → trace → Prop) :
  (∀ s h, P s h → let x := git path args s in
     (∀ out h', printed x.1 out → Q out x.2 h') ∧
     (∀ e h', ¬ exited_0 x.1 → (is_runtime e = true → ∃ g, x.1 = Ok g ∧ g_rc g ≠ 0%Z) → E e x.2 h')) →
  hoare P (git_ args) Q E.
Proof.
  intros Hk s h HP. destruct (Hk s h HP) as [HQ HE]. unfold LocalGit.git_. rewrite bind_run. unfold act.
  pose proof (starts args s) as Hst. destruct (git path args s) as [[g|e] s']; simpl in *.
  - case_bool_decide as Hg; simpl.
    + apply HQ. by exists g.
    + apply HE; [by intros (g' & [= <-] & ?)|]. intros _. by exists g.
  - apply HE; [by intros (g' & ? & ?)|]. unfold is_runtime. intros He%bool_decide_eq_true. by destruct (Hst e eq_refl).
Qed.

Lemma git_looks v args {A} (k : string → M S A) (F : string → Prop) R E :
  looks (command args) = true →
  (∀ s out, look s = v → printed (git path args s).1 out → F out) →
  (∀ out, F out → hoare (here_is v) (k out) R E) → (∀ e s h, look s = v → E e s h) →
  hoare (here_is v) (git_ args ≫= k) R E.
Proof.
  intros Hl HF' Hk HE. eapply (hoare_bind _ _ _ (λ out s _, look s = v ∧ F out)).
  - apply git_hoare. intros s h Hv.
    assert (look (git path args s).2 = v) as Hs by (rewrite looks_only; [exact Hv|exact Hl]).
    split; [|intros e h' _ _; by apply HE]. intros out h' Ho. split; [exact Hs|]. by apply (HF' s).
  - intros out s h [Hv Ho]. by apply Hk.
Qed.

(** Staging and committing what is there. *)
Lemma git_add v : hoare (here_is v) (git_ ["add"; "-A"]) (λ _, here_is (staged v))
  (λ _ s _, wt (look s) = wt v ∧ hd (look s) = hd v).
Proof.
  apply git_hoare. intros s h <-. split.
  - intros out h' (g & Hg & H0 & _). apply add_all; [done|by exists g].
  - intros e h' _ _. pose proof (add_keeps ["add"; "-A"] s eq_refl) as Hk. by injection Hk.
Qed.

Lemma git_commit v message : hoare (here_is v) (git_ ["commit"; "-m"; message])
  (λ _ s _, ix v ≠ hd v ∧ hd (look s) = ix v ∧ wt (look s) = wt v) (λ _, here_is v).
Proof.
  apply git_hoare. intros s h <-. split.
  - intros out h' (g & Hg & H0 & _). destruct (commit_index ["commit"; "-m"; message] message s eq_refl) as (Hne & Hh & Hr);
      [by exists g|]. by injection Hr.
  - intros e h' Hx _. by apply (commit_nothing _ message).
Qed.

(** What the tail of a commit does to a clean index. *)
Definition finish (branch message st : string) : M S doc :=
  _ ← git_ ["add"; "-A"];
  _ ← git_ ["commit"; "-m"; message];
  commit_hash ← git_ ["rev-parse"; "HEAD"];
  mret [("status", PStr st); ("branch", PStr branch); ("commit", PStr commit_hash)].

Lemma finish_hoare v branch message st :
  hoare (here_is v) (finish branch message st)
    (λ d s _, wt v ≠ hd v ∧ dget "status" d = PStr st ∧ hd (look s) = wt v ∧ wt (look s) = wt v)
    (λ _ s _, wt v = hd v → wt (look s) = wt v ∧ hd (look s) = hd v).
Proof.
  eapply (hoare_bind _ _ _ (λ _, here_is (staged v))).
  { by apply (hoare_weaken _ _ _ _ _ _ _ (git_add v)). }
  intros _. eapply hoare_bind.
  { eapply (hoare_weaken _ _ _ _ _ _ _ (git_commit (staged v) message)); [done|intros ? ? ? HQ; exact HQ|].
    by intros e s h ->. }
  intros _ s h (Hne & Hh & Hw). refine (git_looks (look s) ["rev-parse"; "HEAD"] _ (λ _, True) _ _ eq_refl _ _ _ s h eq_refl); [done| |].
  - intros out _. apply hoare_ret. intros s' h' ->. by rewrite Hh, Hw.
  - intros e s' h' _ ?. by destruct Hne.
Qed.

(** What a commit of the local provider leaves, by the commit the branch is at. *)
Definition local_outcome v (r : res doc) (s : S) : Prop :=
  match parent v with
  | None => ∀ d, r = Ok d →
      dget "status" d = PStr "no_changes" ∧ wt v = hd v ∧ look s = v ∨
      dget "status" d = PStr "success" ∧ hd (look s) = wt v ∧ wt (look s) = wt v
  | Some (_, t) => wt v ≠ hd v → untracked v = false →
      (∃ e, r = Raise e) ∧ (look s = v ∨ wt (look s) = t ∧ hd (look s) = t)
  end.

Lemma parent_hoare v :
  hoare (here_is v)
    (on_git_error (base ← git_ ["rev-parse"; br v +:+ "~1"]; mret (base, true))
                  (λ _, base ← git_ ["rev-parse"; "HEAD"]; mret (base, false)))
    (λ b s _, look s = v ∧ match parent v with None => b.2 = false | Some (c, _) => b = (c, true) end)
    (λ _, here_is v).
Proof.
  set (P1 := λ (e : exn) (s : S) (_ : trace), look s = v ∧ (is_runtime e = true → parent v = None)).
  assert (hoare (here_is v) (base ← git_ ["rev-parse"; br v +:+ "~1"]; mret (base, true))
            (λ b s _, look s = v ∧ ∃ c t, parent v = Some (c, t) ∧ b = (c, true)) P1) as Hone.
  { eapply (hoare_bind _ _ _ (λ out s _, look s = v ∧ ∃ t, parent v = Some (out, t))).
    - apply git_hoare. intros s h Hv.
      assert (look (git path ["rev-parse"; br v +:+ "~1"] s).2 = v) as Hs by (rewrite looks_only; [exact Hv|done]).
      destruct (parent_commit ["rev-parse"; br v +:+ "~1"] s) as [Hyes Hno]; [by rewrite Hv|]. rewrite Hv in Hyes, Hno.
      split.
      + intros out h' Ho. split; [exact Hs|]. destruct Ho as (g & Hg & H0 & Ho).
        destruct Hyes as (c & t & (g' & Hg' & _ & Hc) & Hp); [by exists g|]. exists t. congruence.
      + intros e h' _ Hrt. split; [exact Hs|]. intros He. destruct (Hrt He) as (g & Hg & H0). by apply (Hno g).
    - intros out. apply hoare_ret. intros s h [Hv [t Hp]]. split; [done|]. by exists out, t. }
  unfold on_git_error. eapply (hoare_try _ _ _ _ _ P1).
  - eapply hoare_weaken; [exact Hone|done| |done]. intros b s h [Hv (c & t & -> & ->)]. done.
  - intros e. destruct (is_runtime e) eqn:He; [|apply hoare_throw; by intros s h [Hv _]].
    intros s h [Hv Hn]. specialize (Hn He).
    refine (git_looks v ["rev-parse"; "HEAD"] _ (λ _, True) _ _ eq_refl _ _ _ s h Hv); [done| |done].
    intros out _. apply hoare_ret. intros s' h' Hv'. by rewrite Hn.
Qed.

Lemma reset_hoare v c t : parent v = Some (c, t) → untracked v = false →
  hoare (here_is v) (_ ← git_ ["reset"; "--hard"; c]; mret tt)
    (λ _ s _, ∃ p, look s = reset_to t v p) (λ _, here_is v).
Proof.
  intros Hp Hu. eapply (hoare_bind _ _ _ (λ _ s _, ∃ p, look s = reset_to t v p));
    [|intros out; by apply hoare_ret].
  apply git_hoare. intros s h <-. destruct (reset_hard ["reset"; "--hard"; c] s c t eq_refl Hp Hu) as [Hyes Hno].
  split; [|intros e h' Hn _; by apply Hno]. intros out h' (g & Hg & H0 & _). apply Hyes. by exists g.
Qed.

(** With a parent, a commit of something ends in an error, before or after the fix
    is gone. *)
Lemma discard_hoare v c t branch message st : parent v = Some (c, t) → untracked v = false →
  hoare (here_is v) (_ ← (_ ← git_ ["reset"; "--hard"; c]; mret tt); finish branch message st)
    (λ _ _ _, False) (λ _ s _, look s = v ∨ wt (look s) = t ∧ hd (look s) = t).
Proof.
  intros Hp Hu. eapply (hoare_bind _ _ _ (λ _ s _, ∃ p, look s = reset_to t v p)).
  - eapply hoare_weaken; [by apply (reset_hoare v c t)|done|done|]. intros e s h Hv. by left.
  - intros _ s h [p Hv]. pose proof (finish_hoare (reset_to t v p) branch message st s h Hv) as Hf.
    destruct (finish _ _ _ s h) as [[d|e] [s' h']].
    + by destruct Hf as [Hne _].
    + right. by apply Hf.
Qed.

Lemma local_commit_hoare v message :
  hoare (here_is v) (LocalGit.local_commit_and_push path message)
    (λ d s _, local_outcome v (Ok d) s) (λ e s _, local_outcome v (Raise e) s).
Proof.
  assert (∀ e s (h : trace), look s = v → local_outcome v (Raise e) s) as Hraise.
  { intros e s h Hv. unfold local_outcome. destruct (parent v) as [[c t]|]; [|done].
    intros _ _. split; [by exists e|by left]. }
  unfold LocalGit.local_commit_and_push.
  apply (git_looks v _ _ (λ out, out = "" → wt v = hd v)); [done| | |exact Hraise].
  { intros s out <- Hp ->. by destruct (status_clean ["status"; "--porcelain"] s eq_refl Hp). }
  intros status Hst. apply (git_looks v _ _ (λ out, out = br v)); [done| | |exact Hraise].
  { intros s out <- Hp. by apply (current_branch ["rev-parse"; "--abbrev-ref"; "HEAD"] s). }
  intros b ->. eapply hoare_bind; [eapply hoare_weaken;
    [apply parent_hoare|done|intros ? ? ? HQ; exact HQ|exact Hraise]|].
  assert (negb (str_nonempty status) = true → wt v = hd v) as Hclean by (intros; apply Hst; by destruct status).
  intros [base prior] s h [Hv Hb]. unfold local_outcome in *. destruct (parent v) as [[c t]|] eqn:Ep; simpl in Hb.
  - injection Hb as -> ->. cbn [andb negb]. rewrite andb_false_r.
    destruct (negb (str_nonempty status)) eqn:Es, (untracked v) eqn:Eu.
    all: try (match goal with |- match ?x with _ => _ end => destruct x as [[d|e] [s' h']] end;
              intros Hne Hu; by destruct (Hne (Hclean eq_refl)) || done).
    pose proof (discard_hoare v c t (br v) message "updated" Ep Eu s h Hv) as Hd. unfold finish in Hd.
    match goal with |- match ?x with _ => _ end => change (match x with
      | (Ok _, (s', h')) => False | (Raise e, (s', h')) => look s' = v ∨ wt (look s') = t ∧ hd (look s') = t end) in Hd;
      destruct x as [[d|e] [s' h']] end; [done|]. intros _ _. split; [by exists e|done].
  - subst prior. cbn [andb]. destruct (negb (str_nonempty status)) eqn:Es; cbn [andb].
    + intros d [= <-]. left. split; [done|]. split; [by apply Hclean|done].
    + pose proof (finish_hoare v (br v) message "success" s h Hv) as Hf. unfold finish in Hf.
      match goal with |- match ?x with _ => _ end => destruct x as [[d|e] [s' h']] eqn:Ex end; [|done].
      change ((finish (br v) message "success") s h = (Ok d, (s', h'))) in Ex. unfold finish in Ex. rewrite Ex in Hf.
      intros d' [= <-]. right. tauto.
Qed.

End local_commit.
(** What a commit of the local git provider leaves.  On a branch whose commit has
    no parent, a commit that returns either found nothing to commit or put the
    working directory on the branch.  On any other branch the fix is lost: the
    commit before it is taken for an old fix, so a commit of something, in a
    directory where git tracks every file, ends in an error, and if it got as far as
    the reset, the working directory and the branch are both at the parent. *)
Theorem local_commit_spec {S} `{Forge S} (path message : string) (look : S → view) (s : S) (h : trace) :
  GitLaws S path look →
  let result := LocalGit.local_commit_and_push path message s h in
  let v := look s in let v' := look (end_state result) in
  match parent v with
  | None => ∀ d, result.1 = Ok d →
      dget "status" d = PStr "no_changes" ∧ wt v = hd v ∧ v' = v ∨
      dget "status" d = PStr "success" ∧ hd v' = wt v ∧ wt v' = wt v
  | Some (_, t) => wt v ≠ hd v → untracked v = false →
      (∃ e, result.1 = Raise e) ∧ (v' = v ∨ wt v' = t ∧ hd v' = t)
  end.
Proof.
  intros Hl. cbv zeta. pose proof (local_commit_hoare path look (look s) message s h eq_refl) as Hc.
  unfold local_outcome, end_state in *.
  by destruct (LocalGit.local_commit_and_push path message s h) as [[d|e] [s' h']].
Qed.

(** ** The patch *)

Import LocalNoGit.

(** A file of the working copy says nothing new. *)
Definition unchanged (source : node) (f : list string * string) : Prop :=
  match node_below source f.1 with
  | Some (File o) => lines_of o = lines_of f.2
  | Some (Dir _) => False
  | None => lines_of f.2 = []
  end.

Section patch.
Context (unified_diff : list string → list string → string → string → list string).

(** The documentation of difflib: no line for equal sequences, and some otherwise. *)
Definition diff_law : Prop := ∀ a b fa fb, unified_diff a b fa fb = [] ↔ a = b.

Context (law : diff_law).

Lemma file_patch_nil source path c l :
  file_patch unified_diff source path c = Ok l → (l = [] ↔ unchanged source (path, c)).
Proof.
  unfold file_patch, unchanged. simpl. destruct (node_below source path) as [[o|es]|]; simpl; [|done|].
  - change (splitlines_keep (universal_newlines o)) with (lines_of o). case_bool_decide as Heq; intros [= <-]; [done|].
    split; [|done]. intros E. by apply law in E.
  - intros [= <-]. rewrite (law [] (lines_of c)). split; congruence.
Qed.

Lemma patch_lines_nil source files l :
  patch_lines unified_diff source files = Ok l → (l = [] ↔ Forall (unchanged source) files).
Proof.
  revert l. induction files as [|[path c] files IH]; intros l; simpl; [by intros [= <-]|].
  destruct (file_patch _ _ _ _) as [a|] eqn:Ea; simpl; [|done].
  destruct (patch_lines _ _ _) as [b|]; simpl; [|done]. intros [= <-].
  rewrite Forall_cons, <- (file_patch_nil _ _ _ _ Ea), <- (IH b eq_refl). apply app_nil.
Qed.
End patch.

(** *** The files the patch speaks of *)

Fixpoint node_induction (P : node → Prop) (Hf : ∀ c, P (File c))
    (Hd : ∀ es, Forall (λ e, P e.2) es → P (Dir es)) (n : node) : P n :=
  match n with
  | File c => Hf c
  | Dir es => Hd es ((fix all (es : list (string * node)) : Forall (λ e, P e.2) es :=
      match es with
      | [] => Forall_nil_2 _
      | e :: es' => Forall_cons_2 _ _ _ (node_induction P Hf Hd e.2) (all es')
      end) es)
  end.

(** The names of a directory are distinct. *)
Inductive wf_node : node → Prop :=
| wf_file c : wf_node (File c)
| wf_dir es : NoDup (map fst es) → Forall (λ e, wf_node e.2) es → wf_node (Dir es).

Definition file_entry (path : list string) (e : string * node) : option (list string * string) :=
  match e.2 with File c => Some (path ++ [e.1], c) | Dir _ => None end.
Definition walk_entry (path : list string) (e : string * node) : list (list string * string) :=
  if mem e.1 PATCH_EXCLUDE_DIRS then [] else walk (path ++ [e.1]) e.2.

Lemma walk_dir path es : walk path (Dir es) = omap (file_entry path) es ++ flat_map (walk_entry path) es.
Proof.
  simpl. f_equal.
  - apply list_omap_ext, Forall_Forall2_diag, Forall_forall. by intros [name n] _.
  - induction es as [|[name n] es IH]; [done|]. simpl. by rewrite IH.
Qed.

(** The files that are not below an excluded directory. *)
Definition shown (n : node) (q : list string) (c : string) : Prop :=
  q ≠ [] ∧ node_below n q = Some (File c) ∧ Forall (λ name, mem name PATCH_EXCLUDE_DIRS = false) (removelast q).

Lemma walk_spec n path p c : wf_node n →
  (p, c) ∈ walk path n ↔ ∃ q, p = path ++ q ∧ shown n q c.
Proof.
  intros Hn. revert path p. induction n as [c'|es IH] using node_induction; intros path p.
  - split; [by intros ?%elem_of_nil|]. by intros ([|name q] & -> & Hq & Hb & _).
  - inversion Hn as [|? Hnd Hwf]; subst. rewrite Forall_forall in IH, Hwf.
    rewrite walk_dir, elem_of_app, list_elem_of_omap, (list_elem_of_In (flat_map _ _)), in_flat_map. split.
    + intros [([name m] & Hin & Hf)|([name m] & Hin%list_elem_of_In & Hw%list_elem_of_In)].
      * unfold file_entry in Hf. simpl in Hf. destruct m; [|done]. injection Hf as <- ->. exists [name].
        split; [done|]. split; [done|]. split; [|by constructor]. simpl. by rewrite (dict_get_nodup _ (File c)).
      * unfold walk_entry in Hw. simpl in Hw. destruct (mem name _) eqn:Em; [by apply elem_of_nil in Hw|].
        apply (IH (name, m) Hin (Hwf _ Hin)) in Hw as (q & -> & Hq & Hb & Hex). exists (name :: q).
        split; [by rewrite <- app_assoc|]. split; [done|]. split; [simpl; by rewrite (dict_get_nodup _ m)|].
        destruct q; [done|]. by constructor.
    + intros ([|name q] & -> & Hq & Hb & Hex); [done|]. simpl in Hb.
      destruct (dict_get name es) as [m|] eqn:Em; [|done]. apply dict_get_elem in Em as Hin.
      destruct q as [|name' q].
      * left. exists (name, m). split; [done|]. simpl in Hb. injection Hb as ->. done.
      * right. exists (name, m). split; [by apply list_elem_of_In|]. apply list_elem_of_In.
        apply Forall_cons in Hex as [Hex1 Hex2]. unfold walk_entry. simpl. rewrite Hex1.
        apply (IH (name, m) Hin (Hwf _ Hin)). exists (name' :: q). split; [by rewrite <- app_assoc|]. by split.
Qed.

(** The patch of the no-git provider says what the working copy says.  When
    [commit_and_push] returns, it reports that nothing changed exactly if every file
    of the working copy that is not below a cache, an environment or another excluded
    directory has the lines of the file of that path in the source, or is new and
    empty.  What the source has and the working copy does not plays no part: a fix
    that only deletes files is reported as no change. *)
Theorem nogit_commit_spec {S} `{Disk S}
    (unified_diff : list string → list string → string → string → list string)
    (source_dir output_dir own_bug_id repo_path : string) (work source : node)
    (s : S * option string) (h : trace) d s' h' :
  (∀ a b fa fb, unified_diff a b fa fb = [] ↔ a = b) →
  node_at repo_path s.1 = Some work → node_at source_dir s.1 = Some source → wf_node work →
  nogit_commit_and_push unified_diff source_dir output_dir own_bug_id repo_path s h = (Ok d, (s', h')) →
  dget "status" d = PStr "no_changes" ↔
  ∀ path c, path ≠ [] → node_below work path = Some (File c) →
    Forall (λ name, mem name PATCH_EXCLUDE_DIRS = false) (removelast path) →
    match node_below source path with
    | Some (File o) => lines_of o = lines_of c
    | Some (Dir _) => False
    | None => lines_of c = []
    end.
Proof.
  intros Hlaw Hw Hs Hwf. unfold nogit_commit_and_push. rewrite bind_get. simpl. rewrite Hw, Hs. simpl.
  rewrite bind_run. unfold lift. destruct (patch_lines _ _ _) as [l|] eqn:El; [|done].
  apply (patch_lines_nil unified_diff Hlaw) in El as Hl. intros Hr.
  transitivity (l = []).
  - destruct l as [|x l]; [by injection Hr as <- _ _|]. rewrite bind_run in Hr.
    match type of Hr with match ?m with _ => _ end = _ => destruct m as [[u|e] [s1 h1]] end; [|done].
    by injection Hr as <- _ _.
  - rewrite Hl, Forall_forall. split.
    + intros Hu path c Hne Hb Hex. apply (Hu (path, c)). apply walk_spec; [done|]. by exists path.
    + intros Hu [path c] Hin. apply walk_spec in Hin as (q & -> & Hne & Hb & Hex); [|done]. by apply Hu.
Qed.

(** ** Samples *)

Existing Instances Toy.toy_forge Toy.toy_laws.

(** A fix [T2] of the commit [T1], which is not the first one. *)
Definition fix_on_second : Toy.toy := Toy.mkToy "T2" "T1" ["T1"; "T0"] false "fix" ∅ ∅.

Definition lost_fix := LocalGit.local_commit_and_push "/repo" "fix the bug" fix_on_second [].

(** The fix is gone, and so is the commit it was made on. *)
Example lost_fix_run :
  (is_ok lost_fix.1, Toy.t_wt (end_state lost_fix), Toy.t_hist (end_state lost_fix)) = (false, "T0", ["T0"]).
Proof. vm_compute. reflexivity. Qed.

Lemma local_commit_spec_witness :
  (∃ e, lost_fix.1 = Raise e) ∧
  (Toy.t_look (end_state lost_fix) = Toy.t_look fix_on_second ∨
   wt (Toy.t_look (end_state lost_fix)) = "T0" ∧ hd (Toy.t_look (end_state lost_fix)) = "T0").
Proof.
  apply (local_commit_spec "/repo" "fix the bug" Toy.t_look fix_on_second [] (Toy.toy_laws "/repo")); [|reflexivity].
  vm_compute. discriminate.
Defined.

(** A disk that only holds trees. *)
#[local] Instance trees : Disk (list (string * node)) := {
  node_at := dict_get;
  write_text := λ _ _ s, (Ok tt, s);
  rmtree_ := λ _ s, (Ok tt, s);
  copytree := λ _ _ s, (Ok tt, s);
  process := λ _ _ _ s, (Ok (mkFinished 0 ""), s)
}.

Definition coarse_diff (a b : list string) (_ _ : string) : list string :=
  if bool_decide (a = b) then [] else ["changed"].

Definition source_tree : node := Dir [("a.py", File "x = 1"); ("dead.py", File "y = 1")].
Definition fixed_tree : node := Dir [("a.py", File "x = 1"); (".venv", Dir [("pip", File "bin")])].
Definition two_trees : list (string * node) * option string := ([("/src", source_tree); ("/copy", fixed_tree)], None).

(** A fix that deletes [dead.py]: no change is reported. *)
Definition deleting_fix := nogit_commit_and_push coarse_diff "/src" "/out" "BUG-1" "/copy" two_trees [].

Example deleting_fix_run : deleting_fix.1 = Ok [("status", PStr "no_changes")].
Proof. vm_compute. reflexivity. Qed.

Lemma nogit_commit_spec_witness :
  dget "status" [("status", PStr "no_changes")] = PStr "no_changes" ↔
  ∀ path c, path ≠ [] → node_below fixed_tree path = Some (File c) →
    Forall (λ name, mem name PATCH_EXCLUDE_DIRS = false) (removelast path) →
    match node_below source_tree path with
    | Some (File o) => lines_of o = lines_of c
    | Some (Dir _) => False
    | None => lines_of c = []
    end.
Proof.
  apply (nogit_commit_spec coarse_diff "/src" "/out" "BUG-1" "/copy" fixed_tree source_tree two_trees []
    [("status", PStr "no_changes")] two_trees []).
  - intros a b fa fb. unfold coarse_diff. destruct (bool_decide (a = b)) eqn:E.
    + apply bool_decide_eq_true in E. by split.
    + apply bool_decide_eq_false in E. by split.
  - reflexivity.
  - reflexivity.
  - constructor; [repeat constructor; set_solver|]. repeat constructor; set_solver.
  - vm_compute. reflexivity.
Defined.

End LocalSpec.
