(* ===== verification/GwConfig.v ===== *)
(** * The LLM gateway: configuration, policy, parameter profiles

    Models of [llm_gateway/config.py] (what a configuration document may say),
    [policy.py] (which backend serves an attempt) and [params.py] (what of a
    request a backend gets to see).  The YAML or JSON reader in front of
    [load_config] is a parameter: it starts from the parsed document. *)

From S2P Require Import Prelude PyStr PyJson Budget.
Local Open Scope string_scope.
Local Open Scope list_scope.

Module GwConfig.
Import Budget.

Definition GatewayConfigError (m : string) : exn := Exn "GatewayConfigError" m.

(** [PricingConfig] has the fields and the [cost_usd] of the worker's
    [ModelPrice]. *)
Record BackendConfig := mkBackend {
  be_name : string;
  base_url : string;
  model : string;
  api_key : string;
  request_timeout : Q;
  auth : string;
  entra_scope : string;
  entra_client_id : string;
  gcp_scope : string;
  param_profile : string;
  reasoning_effort : string;
  pricing : option ModelPrice
}.

Record InferencePolicyConfig := mkPolicy {
  policy_type : string;
  order : list string;
  advance_on_fix_failure : bool
}.

(** [db_path] is only checked when the cache is on. *)
Record CacheConfig := mkCacheConfig {
  enabled : bool;
  mode : string;
  db_path : pyval;
  replay_with_latency : bool;
  log_every_n : Z;
  normalize_content : bool
}.

Definition no_cache : CacheConfig := mkCacheConfig false "disabled" (PStr "") false 100 false.

Record GatewayConfig := mkGatewayConfig {
  backends : list BackendConfig;
  policy : InferencePolicyConfig;
  backends_by_name : list (string * BackendConfig);
  cache_config : CacheConfig
}.

Definition CACHE_MODES : list string := ["disabled"; "record"; "replay"; "cache"].
Definition AUTH_MODES : list string := ["api_key"; "entra"; "gcp"].
Definition KEYLESS_AUTH_MODES : list string := ["entra"; "gcp"].
Definition PARAM_PROFILES : list string := ["chat"; "reasoning"].
Definition REASONING_EFFORTS : list string := [""; "minimal"; "low"; "medium"; "high"].

Section parse.
Context {Hrepr : FloatRepr} {Hparse : FloatParse}.

(** [os.environ] *)
Context (environ : list (string * string)).

Definition fail {A} (m : string) : res A := Raise (GatewayConfigError m).
Definition repr_list (l : list string) : string := py_repr (PList (map PStr l)).

(** [isinstance(v, str) and v] *)
Definition nonempty_str (v : pyval) : option string :=
  match v with PStr (String _ _ as s) => Some s | _ => None end.

Definition resolve_api_key (raw : list (string * pyval)) (name : string) : res string :=
  let be := "backend " +:+ repr_str name +:+ ": " in
  if dict_has "api_key" raw && dict_has "api_key_env" raw then
    fail (be +:+ "set api_key OR api_key_env, not both")
  else if dict_has "api_key" raw then
    match nonempty_str (dget "api_key" raw) with
    | Some key => Ok key
    | None => fail (be +:+ "api_key must be a non-empty string")
    end
  else if dict_has "api_key_env" raw then
    match nonempty_str (dget "api_key_env" raw) with
    | None => fail (be +:+ "api_key_env must be a non-empty string")
    | Some env_name =>
        match dict_get env_name environ with
        | Some (String _ _ as v) => Ok v
        | _ => fail (be +:+ "env var " +:+ repr_str env_name +:+ " is not set")
        end
    end
  else Ok "EMPTY".

(** [_num] *)
Definition pricing_num (raw : list (string * pyval)) (name key : string) (dflt : option Q) :
    res (option Q) :=
  match dict_get key raw with
  | None => Ok dflt
  | Some v =>
      match py_float v with
      | Raise _ => fail ("backend " +:+ repr_str name +:+ ": pricing." +:+ key
                         +:+ " must be numeric, got " +:+ py_repr v)
      | Ok q => if Qle_bool 0 q then Ok (Some q)
                else fail ("backend " +:+ repr_str name +:+ ": pricing." +:+ key +:+ " must be >= 0")
      end
  end.

Definition or_zero (q : option Q) : Q := default 0%Q q.

Definition parse_pricing (raw : pyval) (name : string) : res (option ModelPrice) :=
  match raw with
  | PNone => Ok None
  | PDict d =>
      i ← pricing_num d name "input_per_1m" (Some 0%Q);
      o ← pricing_num d name "output_per_1m" (Some 0%Q);
      c ← pricing_num d name "cached_input_per_1m" None;
      Ok (Some (mkModelPrice (or_zero i) (or_zero o) c
                  (py_str (default (PStr "USD") (dict_get "currency" d)))))
  | v => fail ("backend " +:+ repr_str name +:+ ": pricing must be a mapping, got " +:+ type_name v)
  end.

(** [str(raw.get(key, dflt))] *)
Definition get_text (raw : list (string * pyval)) (key dflt : string) : string :=
  py_str (default (PStr dflt) (dict_get key raw)).

Definition require_str (v : pyval) (m : string) : res string :=
  match nonempty_str v with Some s => Ok s | None => fail m end.

Definition parse_timeout (name : string) (v : pyval) : res Q :=
  match py_float v with
  | Ok q => Ok q
  | Raise _ => fail ("backend " +:+ repr_str name +:+ ": request_timeout must be numeric, got " +:+ py_repr v)
  end.

(** [if not ok: raise GatewayConfigError(m)] *)
Definition guard (ok : bool) (m : string) : res unit := if ok then Ok tt else fail m.

Definition is_keyless (mode : string) : bool := mem mode KEYLESS_AUTH_MODES.

Definition parse_backend (v : pyval) : res BackendConfig :=
  match v with
  | PDict raw =>
      name ← require_str (dget "name" raw) "backend.name is required and must be a non-empty string";
      let be := "backend " +:+ repr_str name +:+ ": " in
      base_url ← require_str (dget "base_url" raw) (be +:+ "base_url is required");
      model ← require_str (dget "model" raw) (be +:+ "model is required");
      timeout ← parse_timeout name (default (PInt 600) (dict_get "request_timeout" raw));
      let auth := str_lower (get_text raw "auth" "api_key") in
      _ ← guard (mem auth AUTH_MODES)
            (be +:+ "auth=" +:+ repr_str auth +:+ " unsupported; pick one of " +:+ repr_list AUTH_MODES);
      _ ← guard (negb (is_keyless auth && (dict_has "api_key" raw || dict_has "api_key_env" raw)))
            (be +:+ "auth=" +:+ auth +:+ " is keyless " +:+ "— remove api_key / api_key_env");
      let profile := str_lower (get_text raw "param_profile" "chat") in
      _ ← guard (mem profile PARAM_PROFILES)
            (be +:+ "param_profile=" +:+ repr_str profile +:+ " unsupported; pick one of "
             +:+ repr_list PARAM_PROFILES);
      let effort := str_lower (get_text raw "reasoning_effort" "") in
      _ ← guard (mem effort REASONING_EFFORTS)
            (be +:+ "reasoning_effort=" +:+ repr_str effort +:+ " unsupported; pick one of "
             +:+ repr_list (List.filter str_nonempty REASONING_EFFORTS));
      _ ← guard (negb (str_nonempty effort && negb (bool_decide (profile = "reasoning"))))
            (be +:+ "reasoning_effort is only meaningful with param_profile=reasoning");
      key ← (if is_keyless auth then Ok "" else resolve_api_key raw name);
      price ← parse_pricing (dget "pricing" raw) name;
      Ok (mkBackend name (str_rstrip (λ c, ch_eq c "/") base_url) model key timeout auth
            (get_text raw "entra_scope" "https://cognitiveservices.azure.com/.default")
            (py_str (py_or (default (PStr "") (dict_get "entra_client_id" raw)) (PStr "")))
            (get_text raw "gcp_scope" "https://www.googleapis.com/auth/cloud-platform")
            profile effort price)
  | v => fail ("backend entries must be mappings, got " +:+ type_name v)
  end.

(** The loop over [order]. *)
Fixpoint check_order (known seen : list string) (l : list pyval) : res (list string) :=
  match l with
  | [] => Ok []
  | PStr n :: l' =>
      _ ← guard (mem n known)
            ("inference_policy.order references unknown backend " +:+ repr_str n +:+ "; known: "
             +:+ repr_list (sort_by id known));
      _ ← guard (negb (mem n seen)) ("inference_policy.order has duplicate entry " +:+ repr_str n);
      rest ← check_order known (n :: seen) l';
      Ok (n :: rest)
  | v :: _ => fail ("inference_policy.order entries must be strings; got " +:+ py_repr v)
  end.

(** [v == text] *)
Definition is_str (text : string) (v : pyval) : bool :=
  match v with PStr s => bool_decide (s = text) | _ => false end.

Definition parse_policy (v : pyval) (known : list string) : res InferencePolicyConfig :=
  match v with
  | PDict raw =>
      let ptype := default (PStr "ordered") (dict_get "type" raw) in
      _ ← guard (is_str "ordered" ptype)
            ("inference_policy.type=" +:+ py_repr ptype +:+ " not supported; only 'ordered' implemented");
      match dget "order" raw with
      | PList ((_ :: _) as l) =>
          names ← check_order known [] l;
          match py_or (default (PDict []) (dict_get "advance_on" raw)) (PDict []) with
          | PDict advance_on =>
              Ok (mkPolicy "ordered" names
                    (truthy (default (PBool true) (dict_get "fix_failure" advance_on))))
          | _ => fail "inference_policy.advance_on must be a mapping"
          end
      | _ => fail "inference_policy.order is required and must be a non-empty list"
      end
  | v => fail ("inference_policy must be a mapping, got " +:+ type_name v)
  end.

Definition parse_cache (v : pyval) : res CacheConfig :=
  match v with
  | PNone => Ok no_cache
  | PDict raw =>
      let mode := str_lower (get_text raw "mode" "disabled") in
      _ ← guard (mem mode CACHE_MODES)
            ("cache.mode=" +:+ repr_str mode +:+ " unsupported; pick one of " +:+ repr_list CACHE_MODES);
      let enabled := negb (bool_decide (mode = "disabled")) in
      let db_path := default (PStr "") (dict_get "db_path" raw) in
      _ ← guard (negb (enabled && bool_decide (nonempty_str db_path = None)))
            ("cache.mode=" +:+ repr_str mode +:+ " requires cache.db_path (path to a sqlite file)");
      let every := default (PInt 100) (dict_get "log_every_n" raw) in
      n ← match py_int every with
          | Ok n => Ok n
          | Raise _ => fail ("cache.log_every_n must be an integer, got " +:+ py_repr every)
          end;
      _ ← guard (0 <=? n)%Z "cache.log_every_n must be >= 0";
      Ok (mkCacheConfig enabled mode db_path
            (truthy (default (PBool false) (dict_get "replay_with_latency" raw))) n
            (truthy (default (PBool false) (dict_get "normalize_content" raw))))
  | v => fail ("cache: must be a mapping when present, got " +:+ type_name v)
  end.

Fixpoint parse_backends (l : list pyval) : res (list BackendConfig) :=
  match l with
  | [] => Ok []
  | v :: l' => b ← parse_backend v; bs ← parse_backends l'; Ok (b :: bs)
  end.

(** The names that occur more than once, sorted, each once. *)
Definition duplicates (l : list string) : list string :=
  sort_by id (remove_dups (List.filter (λ n, (1 <? List.length (List.filter (λ m, bool_decide (m = n)) l))%nat) l)).

Definition load_config (data : list (string * pyval)) : res GatewayConfig :=
  match dget "backends" data with
  | PList ((_ :: _) as raw) =>
      bs ← parse_backends raw;
      let names := map be_name bs in
      _ ← guard (bool_decide (NoDup names)) ("duplicate backend names: " +:+ repr_list (duplicates names));
      policy ← parse_policy (dget "inference_policy" data) names;
      cache ← parse_cache (dget "cache" data);
      Ok (mkGatewayConfig bs policy (map (λ b, (be_name b, b)) bs) cache)
  | _ => fail "`backends` is required and must be a non-empty list"
  end.

End parse.

(** ** The policy *)

Record Selection := mkSelection { sel_backend : BackendConfig; reason : string }.

Definition select_index (p : InferencePolicyConfig) (attempt : Z) : nat :=
  if advance_on_fix_failure p
  then Z.to_nat (Z.max 0 (Z.min attempt (Z.of_nat (List.length (order p)) - 1)))
  else 0%nat.

Definition select (cfg : GatewayConfig) (attempt : Z) : res Selection :=
  let idx := select_index (policy cfg) attempt in
  let reason := if (idx =? 0)%nat then "primary" else "fix_failure_advance" in
  match order (policy cfg) !! idx with
  | None => Raise (index_error "tuple index out of range")
  | Some name =>
      match dict_get name (backends_by_name cfg) with
      | None => Raise (key_error (repr_str name))
      | Some backend => Ok (mkSelection backend reason)
      end
  end.

Definition parse_attempt_header (value : option string) : Z :=
  match value with
  | None | Some EmptyString => 0
  | Some s => match str_int s with Some n => Z.max 0 n | None => 0 end
  end.

(** ** Parameter profiles *)

Definition REASONING_UNSUPPORTED : list string :=
  ["temperature"; "top_p"; "presence_penalty"; "frequency_penalty"].
Definition REASONING_RENAMED : list (string * string) := [("max_tokens", "max_completion_tokens")].

Definition rename_param (body : list (string * pyval)) (r : string * string) : list (string * pyval) :=
  match dict_get r.1 body with
  | Some v => dict_pop r.1 (dict_setdefault r.2 v body)
  | None => body
  end.

Definition apply_param_profile (body : list (string * pyval)) (backend : BackendConfig) :
    list (string * pyval) :=
  if bool_decide (param_profile backend = "reasoning") then
    let body := fold_left (λ b p, dict_pop p b) REASONING_UNSUPPORTED body in
    let body := fold_left rename_param REASONING_RENAMED body in
    if str_nonempty (reasoning_effort backend)
    then dict_setdefault "reasoning_effort" (PStr (reasoning_effort backend)) body
    else body
  else body.

(** ** What a loaded configuration guarantees *)

Section loaded.
Context {Hrepr : FloatRepr} {Hparse : FloatParse}.
Context (environ : list (string * string)).

Lemma guard_ok ok m u : guard ok m = Ok u → ok = true.
Proof. unfold guard. by destruct ok. Qed.

Lemma check_order_spec known seen l names :
  check_order known seen l = Ok names →
  l = map PStr names ∧ (∀ n, n ∈ names → n ∈ known ∧ n ∉ seen) ∧ NoDup names.
Proof.
  revert seen names. induction l as [|v l IH]; intros seen names; simpl.
  { intros [= <-]. split; [done|]. split; [by intros n ?%elem_of_nil|constructor]. }
  destruct v as [| | | |n| |]; try done.
  intros (u1 & H1%guard_ok & H)%res_bind_ok. apply res_bind_ok in H as (u2 & H2%guard_ok & H).
  apply res_bind_ok in H as (rest & H & [= <-]). apply IH in H as (-> & Hin & Hnd).
  apply mem_spec in H1. apply negb_true_iff in H2.
  assert (n ∉ seen) as Hns by (intros Hs%mem_spec; congruence).
  split; [done|]. split.
  - intros m [->|Hm]%elem_of_cons; [done|]. destruct (Hin m Hm) as [? Hnot].
    split; [done|]. intros Hs. apply Hnot. apply elem_of_cons. by right.
  - constructor; [|done]. intros Hn. destruct (Hin n Hn) as [_ Hnot]. apply Hnot. left.
Qed.

Lemma parse_policy_spec v known p :
  parse_policy v known = Ok p → order p ≠ [] ∧ NoDup (order p) ∧ ∀ n, n ∈ order p → n ∈ known.
Proof.
  unfold parse_policy. destruct v as [| | | | | |raw]; try done.
  intros (u & _ & H)%res_bind_ok. destruct (dget "order" raw) as [| | | | |[|v l]|]; try done.
  apply res_bind_ok in H as (names & Hn & H). destruct (py_or _ _); try done.
  injection H as <-. simpl. apply check_order_spec in Hn as (Hm & Hin & Hnd).
  split; [by intros ->|]. split; [done|]. intros n Hn. by apply Hin.
Qed.

Lemma dict_get_by_name n bs :
  n ∈ map be_name bs →
  ∃ b, dict_get n (map (λ b, (be_name b, b)) bs) = Some b ∧ b ∈ bs ∧ be_name b = n.
Proof.
  induction bs as [|b bs IH]; simpl; [by intros ?%elem_of_nil|]. intros Hn.
  destruct (decide (n = be_name b)) as [->|Hne]; [exists b; repeat split; by left|].
  apply elem_of_cons in Hn as [?|Hn]; [done|]. destruct (IH Hn) as (b' & ? & ? & ?).
  exists b'. repeat split; try done. by right.
Qed.

Lemma select_index_lt p attempt : order p ≠ [] → (select_index p attempt < List.length (order p))%nat.
Proof.
  unfold select_index. destruct (order p); [done|]. simpl. intros _.
  destruct (advance_on_fix_failure p); lia.
Qed.

(** A configuration that loads always has a backend for an attempt: the
    first of the order without advancing, otherwise the one the attempt counts
    up to, the last one for every attempt beyond the order. *)
Theorem loaded_policy_selects (data : list (string * pyval)) (cfg : GatewayConfig) (attempt : Z) :
  load_config environ data = Ok cfg →
  let order := order (policy cfg) in
  ∃ b r, select cfg attempt = Ok (mkSelection b r) ∧ b ∈ backends cfg ∧ NoDup order ∧
    order !! (if advance_on_fix_failure (policy cfg)
              then Nat.min (Z.to_nat attempt) (List.length order - 1) else 0)%nat = Some (be_name b) ∧
    (r = "primary" ↔ head order = Some (be_name b)).
Proof.
  unfold load_config. intros H. destruct (dget "backends" data) as [| | | | |[|v l]|]; try done.
  apply res_bind_ok in H as (bs & Hbs & H). apply res_bind_ok in H as (u & Hg%guard_ok & H).
  apply res_bind_ok in H as (p & Hp & H). apply res_bind_ok in H as (c & _ & [= <-]). simpl.
  apply parse_policy_spec in Hp as (Hne & Hnd & Hin).
  unfold select. cbn [policy backends_by_name].
  pose proof (select_index_lt p attempt Hne) as Hlt.
  destruct (lookup_lt_is_Some_2 (order p) _ Hlt) as [name Hname]. rewrite Hname.
  assert (name ∈ map be_name bs) as Hk by (by eapply Hin, list_elem_of_lookup_2).
  destruct (dict_get_by_name name bs Hk) as (b & -> & Hb & Hbn).
  eexists b, _. split; [done|]. split; [done|]. split; [done|]. subst name. split.
  - rewrite <- Hname. f_equal. unfold select_index. destruct (advance_on_fix_failure p); lia.
  - destruct (order p) as [|n0 ns] eqn:Eo; [done|].
    destruct (Nat.eqb_spec (select_index p attempt) 0) as [E|E].
    + rewrite E in Hname. injection Hname as ->. done.
    + split; [done|]. intros [= Heq]. exfalso. apply E.
      eapply (NoDup_lookup (n0 :: ns)); [done|exact Hname|]. by rewrite Heq.
Qed.

(** ** Credentials *)

Lemma resolve_api_key_nonempty raw name key : resolve_api_key environ raw name = Ok key → key ≠ "".
Proof.
  unfold resolve_api_key, nonempty_str. intros H. repeat (break_match_hyp H; try done); by intros ->.
Qed.

Lemma pricing_num_nonneg raw name key dflt q :
  pricing_num raw name key dflt = Ok (Some q) → (∀ d, dflt = Some d → 0 <= d)%Q → (0 <= q)%Q.
Proof.
  unfold pricing_num. destruct (dict_get key raw) as [v|]; [|intros [= ->]; auto].
  destruct (py_float v) as [x|]; [|done]. destruct (Qle_bool 0 x) eqn:E; [|done].
  intros [= <-] _. by apply Qle_bool_iff.
Qed.

Definition prices_ok (p : ModelPrice) : Prop :=
  (0 <= input_per_1m p)%Q ∧ (0 <= output_per_1m p)%Q ∧
  ∀ q, cached_input_per_1m p = Some q → (0 <= q)%Q.

Lemma parse_pricing_ok v name p : parse_pricing v name = Ok (Some p) → prices_ok p.
Proof.
  unfold parse_pricing. destruct v as [| | | | | |d]; try done.
  intros (i & Hi & H)%res_bind_ok. apply res_bind_ok in H as (o & Ho & H).
  apply res_bind_ok in H as (c & Hc & [= <-]).
  assert (∀ d, Some 0%Q = Some d → 0 <= d)%Q as Hz by (by intros ? [= <-]).
  split; [|split]; simpl.
  - destruct i; [by eapply pricing_num_nonneg|done].
  - destruct o; [by eapply pricing_num_nonneg|done].
  - intros q ->. by eapply pricing_num_nonneg.
Qed.

(** A backend that parses has exactly one kind of credential (a token minted
    per request when it is keyless, otherwise a key that is not empty), a known
    profile, a reasoning effort only on a reasoning backend, and prices that are
    not negative. *)
Theorem parse_backend_wf (v : pyval) (b : BackendConfig) :
  parse_backend environ v = Ok b →
  auth b ∈ AUTH_MODES ∧ (api_key b = "" ↔ is_keyless (auth b) = true) ∧
  param_profile b ∈ PARAM_PROFILES ∧ reasoning_effort b ∈ REASONING_EFFORTS ∧
  (reasoning_effort b ≠ "" → param_profile b = "reasoning") ∧
  (∀ p, pricing b = Some p → prices_ok p) ∧ be_name b ≠ "" ∧ model b ≠ "".
Proof.
  unfold parse_backend. destruct v as [| | | | | |raw]; try done.
  intros (name & Hname & H)%res_bind_ok. cbv zeta in H.
  apply res_bind_ok in H as (url & _ & H). apply res_bind_ok in H as (m & Hm & H).
  apply res_bind_ok in H as (t & _ & H). apply res_bind_ok in H as (u1 & H1%guard_ok & H).
  apply res_bind_ok in H as (u2 & _ & H). apply res_bind_ok in H as (u3 & H3%guard_ok & H).
  apply res_bind_ok in H as (u4 & H4%guard_ok & H). apply res_bind_ok in H as (u5 & H5%guard_ok & H).
  apply res_bind_ok in H as (key & Hk & H). apply res_bind_ok in H as (price & Hp & [= <-]).
  cbn [auth api_key param_profile reasoning_effort pricing be_name model].
  apply mem_spec in H1, H3, H4.
  assert (∀ v m s, require_str v m = Ok s → s ≠ "") as Hreq.
  { unfold require_str, nonempty_str. intros [| | | |[|]| |] ? ?; try done. by intros [= <-]. }
  split; [done|]. split; [split|split; [done|split; [done|split; [|split; [|split]]]]].
  - intros ->. destruct (is_keyless _); [done|]. by apply resolve_api_key_nonempty in Hk.
  - intros Hkl. rewrite Hkl in Hk. by injection Hk as <-.
  - intros He. apply negb_true_iff, andb_false_iff in H5 as [H5|H5].
    + by destruct (str_lower (get_text raw "reasoning_effort" "")).
    + by apply negb_false_iff, bool_decide_eq_true in H5.
  - intros p ->. by eapply parse_pricing_ok.
  - by eapply Hreq.
  - by eapply Hreq.
Qed.

End loaded.

(** ** What a reasoning backend gets to see *)

Lemma dict_get_pops k ps (body : list (string * pyval)) :
  dict_get k (fold_left (λ b p, dict_pop p b) ps body) = if mem k ps then None else dict_get k body.
Proof.
  revert body. induction ps as [|p ps IH]; intros body; simpl; [done|].
  rewrite IH. unfold mem. destruct (decide (p = k)) as [->|Hne].
  - rewrite (bool_decide_eq_true_2 (k ∈ k :: ps)) by left. rewrite dict_get_pop_eq. by destruct (bool_decide (k ∈ ps)).
  - rewrite dict_get_pop_ne by done.
    by rewrite (bool_decide_ext (k ∈ p :: ps) (k ∈ ps)) by (rewrite elem_of_cons; naive_solver).
Qed.

Lemma dict_get_setdefault {V} k k' (v : V) d :
  dict_get k (dict_setdefault k' v d) =
  match dict_get k d with Some x => Some x | None => if decide (k' = k) then Some v else None end.
Proof.
  unfold dict_setdefault, dict_has. destruct (dict_get k' d) as [x|] eqn:E.
  - destruct (dict_get k d) eqn:Ek; [done|]. rewrite decide_False; [done|]. congruence.
  - rewrite dict_get_set. destruct (decide (k' = k)) as [->|]; [by rewrite E|].
    by destruct (dict_get k d).
Qed.

Lemma dict_get_rename k body old new :
  old ≠ new →
  dict_get k (rename_param body (old, new)) =
  if decide (k = old) then None
  else match dict_get k body with
       | Some v => Some v
       | None => if decide (k = new) then dict_get old body else None
       end.
Proof.
  intros Hne. unfold rename_param. simpl. destruct (dict_get old body) as [v|] eqn:E.
  - destruct (decide (k = old)) as [->|Hk]; [by rewrite dict_get_pop_eq|].
    rewrite dict_get_pop_ne, dict_get_setdefault by done.
    destruct (dict_get k body); [done|]. destruct (decide (new = k)) as [->|].
    + by rewrite decide_True.
    + by rewrite decide_False by done.
  - destruct (decide (k = old)) as [->|]; [done|]. destruct (dict_get k body); [done|].
    by destruct (decide (k = new)).
Qed.

(** What a backend sees of a request.  A chat backend sees all of it.  A
    reasoning backend sees none of the sampling parameters and no [max_tokens],
    which becomes [max_completion_tokens] unless the caller gave that itself;
    the configured effort is only a default; every other field is untouched. *)
Theorem apply_param_profile_spec (body : list (string * pyval)) (b : BackendConfig) (k : string) :
  dict_get k (apply_param_profile body b) =
  if bool_decide (param_profile b = "reasoning") then
    if mem k ("max_tokens" :: REASONING_UNSUPPORTED) then None
    else match dict_get k body with
         | Some v => Some v
         | None =>
             if decide (k = "max_completion_tokens") then dict_get "max_tokens" body
             else if decide (k = "reasoning_effort" ∧ reasoning_effort b ≠ "")
                  then Some (PStr (reasoning_effort b)) else None
         end
  else dict_get k body.
Proof.
  unfold apply_param_profile. case_bool_decide; [|done]. cbv zeta. cbn [fold_left REASONING_RENAMED].
  set (d := fold_left (λ b p, dict_pop p b) REASONING_UNSUPPORTED body).
  assert (∀ k, dict_get k d = if mem k REASONING_UNSUPPORTED then None else dict_get k body) as Hd
    by (intros; apply dict_get_pops).
  assert (mem k ("max_tokens" :: REASONING_UNSUPPORTED) =
          bool_decide (k = "max_tokens") || mem k REASONING_UNSUPPORTED) as Hm.
  { apply eq_bool_prop_intro. rewrite orb_True, !Is_true_true, !mem_spec, elem_of_cons.
    by rewrite bool_decide_eq_true. }
  assert (∀ k, dict_get k (rename_param d ("max_tokens", "max_completion_tokens")) =
    if mem k ("max_tokens" :: REASONING_UNSUPPORTED) then None
    else match dict_get k body with
         | Some v => Some v
         | None => if decide (k = "max_completion_tokens") then dict_get "max_tokens" body else None
         end) as Hr.
  { clear k Hm. intros k. rewrite dict_get_rename, !Hd by done.
    change (mem "max_tokens" REASONING_UNSUPPORTED) with false. cbv iota.
    unfold mem. destruct (decide (k = "max_tokens")) as [->|Hk]; [done|].
    destruct (decide (k ∈ REASONING_UNSUPPORTED)) as [Hu|Hu].
    - rewrite !bool_decide_eq_true_2 by (done || by right).
      destruct (decide (k = "max_completion_tokens")) as [->|]; [|done].
      repeat (apply elem_of_cons in Hu as [?|Hu]; [done|]). by apply elem_of_nil in Hu.
    - rewrite !bool_decide_eq_false_2; [done|by intros [?|?]%elem_of_cons|done]. }
  destruct (str_nonempty (reasoning_effort b)) eqn:Ee.
  - assert (reasoning_effort b ≠ "") by (by destruct (reasoning_effort b)).
    rewrite dict_get_setdefault, Hr. destruct (decide (k = "reasoning_effort")) as [->|Hk].
    + simpl. rewrite decide_True by done.
      change (mem "reasoning_effort" ("max_tokens" :: REASONING_UNSUPPORTED)) with false. cbv iota.
      by destruct (dict_get "reasoning_effort" body).
    + rewrite (decide_False (P := "reasoning_effort" = k)) by done.
      rewrite (decide_False (P := k = "reasoning_effort" ∧ _)) by (by intros [? _]).
      destruct (mem k ("max_tokens" :: REASONING_UNSUPPORTED)); [done|].
      destruct (dict_get k body); [done|]. destruct (decide (k = "max_completion_tokens")); [|done].
      by destruct (dict_get "max_tokens" body).
  - assert (reasoning_effort b = "") by (by destruct (reasoning_effort b)).
    rewrite Hr. rewrite (decide_False (P := k = "reasoning_effort" ∧ _)) by (by intros [_ ?]). done.
Qed.

(** ** A concrete configuration *)

Definition sample_repr : FloatRepr := λ _, "0.5".
Definition sample_parse : FloatParse := λ _, None.

Definition small_backend : pyval := PDict
  [("name", PStr "small"); ("base_url", PStr "http://small/v1/"); ("model", PStr "m-small")].
Definition large_backend : pyval := PDict
  [("name", PStr "large"); ("base_url", PStr "https://large/v1"); ("model", PStr "gpt-5");
   ("auth", PStr "Entra"); ("param_profile", PStr "reasoning"); ("reasoning_effort", PStr "low");
   ("pricing", PDict [("input_per_1m", PInt 2); ("output_per_1m", PInt 8)])].

Definition sample_data : list (string * pyval) :=
  [("backends", PList [small_backend; large_backend]);
   ("inference_policy", PDict [("order", PList [PStr "small"; PStr "large"])]);
   ("cache", PDict [("mode", PStr "cache"); ("db_path", PStr "/tmp/c.db")])].

Definition sample_config : GatewayConfig :=
  match @load_config sample_repr sample_parse [] sample_data with
  | Ok cfg => cfg
  | Raise _ => mkGatewayConfig [] (mkPolicy "" [] false) [] no_cache
  end.

Lemma loaded_policy_selects_witness :
  ∃ b r, select sample_config 7 = Ok (mkSelection b r) ∧ b ∈ backends sample_config ∧
    NoDup (order (policy sample_config)) ∧ Some "large" = Some (be_name b) ∧
    (r = "primary" ↔ Some "small" = Some (be_name b)).
Proof.
  exact (@loaded_policy_selects sample_repr sample_parse [] sample_data sample_config 7
           ltac:(vm_compute; reflexivity)).
Defined.

Definition sample_large : BackendConfig :=
  default (mkBackend "" "" "" "" 0 "" "" "" "" "" "" None)
    (dict_get "large" (backends_by_name sample_config)).

Lemma parse_backend_wf_witness :
  auth sample_large ∈ AUTH_MODES ∧ (api_key sample_large = "" ↔ is_keyless (auth sample_large) = true) ∧
  param_profile sample_large ∈ PARAM_PROFILES ∧ reasoning_effort sample_large ∈ REASONING_EFFORTS ∧
  (reasoning_effort sample_large ≠ "" → param_profile sample_large = "reasoning") ∧
  (∀ p, pricing sample_large = Some p → prices_ok p) ∧ be_name sample_large ≠ "" ∧ model sample_large ≠ "".
Proof.
  exact (@parse_backend_wf sample_repr sample_parse [] large_backend sample_large
           ltac:(vm_compute; reflexivity)).
Defined.

End GwConfig.
