(* ===== verification/GwKeying.v ===== *)
(** * The LLM gateway: cache keys

    Model of [llm_gateway/keying.py]: what of a request the cache key covers,
    the volatile-content patterns (given to the regular-expression engine as the
    source writes them), the canonical JSON blob and its SHA-256 digest. *)

From S2P Require Import Prelude PyStr PyJson PyJsonLoads Regex Sha256.
Local Open Scope string_scope.
Local Open Scope list_scope.

Module GwKeying.
Import Sha256.

Definition PARAM_FIELDS : list string :=
  ["temperature"; "top_p"; "top_k"; "max_tokens"; "max_completion_tokens";
   "presence_penalty"; "frequency_penalty"; "seed"; "stop"; "response_format"].

Definition TOOL_MSG_DROP : list string := ["tool_call_id"].

(** The patterns, with their flags and replacement templates. *)
Definition NORMALIZE_TEXTS : list (flags * string * string) :=
  [
   (no_flags, "\x1b\[[0-9;]*m",
    "");
   (no_flags, "\d{4}-\d{2}-\d{2}T\d{2}:\d{2}:\d{2}(?:\.\d+)?Z?",
    "<TS>");
   (no_flags, "(section_(?:start|end)):\d{8,}:",
    "\1:<EPOCH>:");
   (no_flags, "sha256:[0-9a-f]{64}",
    "sha256:<SHA256>");
   (no_flags, "runner-[a-z0-9]+-project-\d+-concurrent-\d+",
    "runner-<ID>");
   (ignorecase, "(system ID:\s*)s_[a-f0-9]+",
    "\1s_<ID>");
   (ignorecase, "(correlation ID:\s*)[0-9A-HJKMNP-TV-Z]{20,30}",
    "\1<ID>");
   (no_flags, "(Checking out )[0-9a-f]{7,40}( as detached HEAD)",
    "\1<COMMIT>\2");
   (no_flags, "(\d+ (?:passed|failed|error|errors|skipped|warning|warnings|deselected|xpassed|xfailed)(?:,\s+\d+ (?:passed|failed|error|errors|skipped|warning|warnings|deselected|xpassed|xfailed))* in )\d+\.\d+(?:s|\s+seconds)\b",
    "\1<DUR>s");
   (no_flags, "\d{4}_\d{2}_\d{2}-\d{2}_\d{2}_\d{2}_\d(?:_[a-f0-9]{4})?",
    "<BUG_ID>");
   (no_flags, " at 0x[0-9a-fA-F]+",
    " at 0x<ADDR>");
   (no_flags, "(Ran \d+ tests? in )\d+\.\d+s",
    "\1<DUR>s");
   (no_flags, "\n?grep: [^\n]*: binary file matches",
    "");
   (no_flags, "(no tests ran in )\d+\.\d+s",
    "\1<DUR>s");
   (no_flags, "\b[0-9a-fA-F]{8}-[0-9a-fA-F]{4}-[0-9a-fA-F]{4}-[0-9a-fA-F]{4}-[0-9a-fA-F]{12}\b",
    "<UUID>");
   (no_flags, "/tmp/tmp[A-Za-z0-9_]{6,}",
    "/tmp/tmp<RAND>");
   (no_flags, "(Dropped refs/stash@\{\d+\} \()[0-9a-f]{40}(\))",
    "\1<SHA>\2");
   (no_flags, "\b(?:Jan|Feb|Mar|Apr|May|Jun|Jul|Aug|Sep|Oct|Nov|Dec) +\d{1,2} +\d{2}:\d{2}\b",
    "<LS_DATE>")
  ].

Definition NORMALIZE_PATTERNS : list (re * list piece) :=
  Eval vm_compute in map (λ '(fl, pat, repl), (rx fl pat, template repl)) NORMALIZE_TEXTS.

(** Every pattern is one the engine reads. *)
Example patterns_compile :
  forallb (λ '(fl, pat, _), match compile fl pat with Some _ => true | None => false end)
    NORMALIZE_TEXTS = true.
Proof. vm_compute. reflexivity. Qed.

Definition normalize_volatile_content (text : string) : string :=
  fold_left (λ t '(r, tpl), re_sub r tpl t) NORMALIZE_PATTERNS text.

(** One message: [None] when it is left out of the key. *)
Definition normalize_message (normalize_content : bool) (m : pyval) : option pyval :=
  match m with
  | PDict d =>
      match dget "role" d with
      | PStr role =>
          if mem role ["system"; "user"; "tool"] then
            let content := dget "content" d in
            let content := match content with
                           | PStr s => if normalize_content then PStr (normalize_volatile_content s)
                                       else content
                           | _ => content
                           end in
            let kept := [("role", PStr role); ("content", content)] in
            let kept := match dict_get "name" d with
                        | Some v => dict_set "name" v kept
                        | None => kept
                        end in
            Some (PDict (fold_left (λ k f, dict_pop f k) TOOL_MSG_DROP kept))
          else None
      | _ => None
      end
  | _ => None
  end.

Definition normalize_messages (messages : pyval) (normalize_content : bool) : list pyval :=
  match messages with
  | PList l => omap (normalize_message normalize_content) l
  | _ => []
  end.

Section key.
Context {Hrepr : FloatRepr}.

Definition tool_name (t : pyval) : string :=
  match t with
  | PDict d => match dget "function" d with
               | PDict fn => py_str (default (PStr "") (dict_get "name" fn))
               | _ => EmptyString
               end
  | _ => EmptyString
  end.

Definition is_dict (v : pyval) : bool := match v with PDict _ => true | _ => false end.

Definition normalize_tools (tools : pyval) : list pyval :=
  match tools with
  | PList l => sort_by tool_name (List.filter is_dict l)
  | _ => []
  end.

Definition normalize_params (body : list (string * pyval)) : list (string * pyval) :=
  omap (λ k, (λ v, (k, v)) <$> dict_get k body) PARAM_FIELDS.

Definition key_payload (body : list (string * pyval)) (normalize_content : bool) : pyval :=
  PDict [("model", default (PStr "") (dict_get "model" body));
         ("external_messages", PList (normalize_messages (dget "messages" body) normalize_content));
         ("tools", PList (normalize_tools (dget "tools" body)));
         ("params", PDict (normalize_params body))].

Definition derive_key (body : list (string * pyval)) (normalize_content : bool) : string :=
  sha256_hex (json_dumps canonical_opts (key_payload body normalize_content)).

Definition short_key (full_key : string) : string := str_take 12 full_key.

End key.

(** Two runs of one pipeline differ in machinery only: one text after all. *)
Example normalize_trace :
  normalize_volatile_content
    "2026-05-29T00:37:02.123456Z section_start:1748478000:step_script Ran 3 tests in 0.411s" =
  "<TS> section_start:<EPOCH>:step_script Ran 3 tests in <DUR>s".
Proof. vm_compute. reflexivity. Qed.

Example normalize_summary :
  normalize_volatile_content "== 2 failed, 12 passed in 0.04s == /tmp/dh/2026_05_29-00_37_02_1_b10f/a.py" =
  "== 2 failed, 12 passed in <DUR>s == /tmp/dh/<BUG_ID>/a.py".
Proof. vm_compute. reflexivity. Qed.

(** ** What the key does not depend on *)

Section invariance.
Context {Hrepr : FloatRepr}.

Definition covered_fields : list string := ["model"; "messages"; "tools"] ++ PARAM_FIELDS.
Definition keyed_roles : list string := ["system"; "user"; "tool"].

(** What an earlier turn of the model, or the transport, may change. *)
Inductive key_step (normalize : bool) : list (string * pyval) → list (string * pyval) → Prop :=
| step_field b k v : k ∉ covered_fields → key_step normalize b (dict_set k v b)
| step_history b l1 d l2 :
    dict_get "messages" b = Some (PList (l1 ++ PDict d :: l2)) →
    (∀ role, dget "role" d = PStr role → role ∉ keyed_roles) →
    key_step normalize b (dict_set "messages" (PList (l1 ++ l2)) b)
| step_call_id b l1 d l2 k v :
    dict_get "messages" b = Some (PList (l1 ++ PDict d :: l2)) → k ∉ ["role"; "content"; "name"] →
    key_step normalize b (dict_set "messages" (PList (l1 ++ PDict (dict_set k v d) :: l2)) b)
| step_volatile b l1 d l2 text text' :
    normalize = true →
    dict_get "messages" b = Some (PList (l1 ++ PDict d :: l2)) → dget "content" d = PStr text →
    normalize_volatile_content text = normalize_volatile_content text' →
    key_step normalize b
      (dict_set "messages" (PList (l1 ++ PDict (dict_set "content" (PStr text') d) :: l2)) b)
| step_tools b l l' :
    dict_get "tools" b = Some (PList l) → l ≡ₚ l' → NoDup (map tool_name (List.filter is_dict l)) →
    key_step normalize b (dict_set "tools" (PList l') b).

Lemma normalize_params_ext b b' :
  (∀ k, k ∈ PARAM_FIELDS → dict_get k b = dict_get k b') → normalize_params b = normalize_params b'.
Proof.
  unfold normalize_params. induction PARAM_FIELDS as [|k l IH]; intros H; [done|].
  cbn [omap list_omap]. rewrite H by left. rewrite IH; [done|]. intros k' Hk'. apply H. by right.
Qed.

(** A change to one covered field leaves the others alone. *)
Lemma key_payload_set n b k v :
  k ∉ "model" :: PARAM_FIELDS →
  (k = "messages" → normalize_messages (dget "messages" b) n = normalize_messages v n) →
  (k = "tools" → normalize_tools (dget "tools" b) = normalize_tools v) →
  key_payload b n = key_payload (dict_set k v b) n.
Proof.
  intros Hk Hm Ht. unfold key_payload.
  assert (normalize_params b = normalize_params (dict_set k v b)) as <-.
  { apply normalize_params_ext. intros k' Hk'. rewrite dict_get_set_ne; [done|].
    intros <-. apply Hk. by right. }
  assert (dict_get "model" (dict_set k v b) = dict_get "model" b) as ->.
  { apply dict_get_set_ne. intros ->. apply Hk. by left. }
  assert (normalize_messages (dget "messages" (dict_set k v b)) n = normalize_messages (dget "messages" b) n) as ->.
  { unfold dget in *. rewrite dict_get_set. destruct (decide (k = "messages")); [|done]. symmetry; auto. }
  assert (normalize_tools (dget "tools" (dict_set k v b)) = normalize_tools (dget "tools" b)) as ->; [|done].
  unfold dget in *. rewrite dict_get_set. destruct (decide (k = "tools")); [|done]. symmetry; auto.
Qed.

Lemma normalize_messages_mid n l1 m m' l2 :
  normalize_message n m = normalize_message n m' →
  normalize_messages (PList (l1 ++ m :: l2)) n = normalize_messages (PList (l1 ++ m' :: l2)) n.
Proof. intros H. simpl. rewrite !omap_app. cbn [omap list_omap]. by rewrite H. Qed.

Lemma dget_set_ne k k' v (d : list (string * pyval)) : k ≠ k' → dget k' (dict_set k v d) = dget k' d.
Proof. intros H. unfold dget. by rewrite dict_get_set_ne. Qed.

Lemma filter_perm {A} (P : A → bool) l l' : l ≡ₚ l' → List.filter P l ≡ₚ List.filter P l'.
Proof.
  induction 1; simpl; repeat case_match; try done; [by constructor|by constructor|by etrans].
Qed.

Lemma key_step_payload n b b' : key_step n b b' → key_payload b n = key_payload b' n.
Proof.
  intros H. inversion H as [? k v Hk|? l1 d l2 Hm Hrole|? l1 d l2 k v Hm Hk|? l1 d l2 t t' Hn Hm Ht Heq|? l l' Ht Hp Hnd];
    subst; apply key_payload_set; try done;
    try (intros Hin%mem_spec; vm_compute in Hin; discriminate Hin).
  - intros Hin. apply Hk. unfold covered_fields. set_solver.
  - intros ->. destruct Hk. by right; left.
  - intros ->. destruct Hk. by right; right; left.
  - intros _. unfold dget. rewrite Hm. simpl. rewrite !omap_app. cbn [omap list_omap].
    assert (normalize_message n (PDict d) = None) as ->; [|done]. unfold normalize_message.
    destruct (dget "role" d) as [| | | |role| |] eqn:E; try done.
    destruct (mem role _) eqn:Em; [|done]. apply mem_spec in Em. by destruct (Hrole role).
  - intros _. unfold dget at 1. rewrite Hm. apply normalize_messages_mid. unfold normalize_message.
    rewrite !dget_set_ne by (intros ->; apply Hk; set_solver).
    rewrite dict_get_set_ne by (intros ->; apply Hk; set_solver). done.
  - intros _. unfold dget at 1. rewrite Hm. apply normalize_messages_mid. unfold normalize_message.
    rewrite !(dget_set_ne "content" "role") by done. rewrite dict_get_set_ne by done.
    assert (dget "content" (dict_set "content" (PStr t') d) = PStr t') as ->
      by (unfold dget; by rewrite dict_get_set_eq).
    by rewrite Ht, Heq.
  - intros _. unfold dget. rewrite Ht. simpl. apply sort_by_unique; [done|by apply filter_perm].
Qed.

(** The cache key is blind to what the transport and earlier turns of the
    model may change: fields outside the covered ones, assistant messages,
    correlation ids, volatile text (when it is normalised) and the order of the
    tools; in any number and order of such changes. *)
Theorem derive_key_invariant (normalize : bool) (b b' : list (string * pyval)) :
  rtc (key_step normalize) b b' → derive_key b normalize = derive_key b' normalize.
Proof.
  intros H. unfold derive_key. do 2 f_equal. induction H as [|b1 b2 b3 Hs _ IH]; [done|].
  etrans; [by apply key_step_payload|done].
Qed.

(** ** What the key does depend on *)

Context {Hparse : FloatParse}.

(** Equal as JSON: up to the order of keys. *)
Definition same_json (v v' : pyval) : Prop := canon canonical_opts v = canon canonical_opts v'.

Lemma dict_get_perm {V} k (d d' : list (string * V)) :
  NoDup (map fst d) → d ≡ₚ d' → dict_get k d = dict_get k d'.
Proof.
  intros Hnd Hp. induction Hp as [|[k0 v] d d' Hp IH|[k0 v] [k1 v1] d|d d' d'' H1 IH1 H2 IH2]; simpl in *.
  - done.
  - apply NoDup_cons in Hnd as [_ Hnd]. by rewrite IH.
  - apply NoDup_cons in Hnd as [Hn _]. destruct (decide (k = k1)), (decide (k = k0)); try done. set_solver.
  - rewrite IH1 by done. apply IH2. by rewrite <- H1.
Qed.

Lemma dict_get_params k b : k ∈ PARAM_FIELDS → dict_get k (normalize_params b) = dict_get k b.
Proof.
  unfold normalize_params. induction PARAM_FIELDS as [|x l IH]; [by intros ?%elem_of_nil|].
  intros Hk. cbn [omap list_omap]. destruct (decide (k = x)) as [->|Hne].
  - destruct (dict_get x b) as [v|] eqn:E; simpl; [by rewrite decide_True|].
    enough (∀ l, dict_get x (omap (λ k, (λ v, (k, v)) <$> dict_get k b) l) = None) as H by apply H.
    clear IH Hk l. induction l as [|y l IH]; [done|]. cbn [omap list_omap].
    destruct (decide (x = y)) as [<-|]; [by rewrite E|].
    destruct (dict_get y b); simpl; [by rewrite decide_False|done].
  - apply elem_of_cons in Hk as [?|Hk]; [done|].
    destruct (dict_get x b); simpl; [rewrite decide_False by done|]; by apply IH.
Qed.

Lemma params_keys b : NoDup (map fst (normalize_params b)).
Proof.
  unfold normalize_params.
  assert (NoDup PARAM_FIELDS) as Hnd by (apply (bool_decide_unpack (NoDup PARAM_FIELDS)); vm_compute; exact I).
  induction Hnd as [|k l Hk Hl IH]; [constructor|]. cbn [omap list_omap].
  destruct (dict_get k b); simpl; [|done]. constructor; [|done].
  intros (x & -> & Hx)%list_elem_of_fmap. apply list_elem_of_omap in Hx as (y & Hy & Hx).
  destruct (dict_get y b); simplify_eq/=. done.
Qed.

Lemma dict_get_canon k (d : list (string * pyval)) :
  dict_get k (map (λ '(k, x), (k, canon canonical_opts x)) d) = canon canonical_opts <$> dict_get k d.
Proof. induction d as [|[k' v] d IH]; simpl; [done|]. by destruct (decide (k = k')). Qed.

Lemma canon_payload m ms ts ps :
  canon canonical_opts (PDict [("model", m); ("external_messages", PList ms); ("tools", PList ts);
                               ("params", PDict ps)]) =
  PDict [("external_messages", PList (map (canon canonical_opts) ms)); ("model", canon canonical_opts m);
         ("params", PDict (key_order canonical_opts (map (λ '(k, x), (k, canon canonical_opts x)) ps)));
         ("tools", PList (map (canon canonical_opts) ts))].
Proof. done. Qed.

(** Two requests have the same key only if they ask for the same thing (the
    same model, the same external messages, the same tools and the same decoding
    parameters, as JSON), or if their two texts are a collision of SHA-256. *)
Theorem derive_key_separates (normalize : bool) (b b' : list (string * pyval)) :
  json_ok (key_payload b normalize) → json_ok (key_payload b' normalize) →
  derive_key b normalize = derive_key b' normalize →
  (∃ x y, x ≠ y ∧ sha256_hex x = sha256_hex y) ∨
  (same_json (default (PStr "") (dict_get "model" b)) (default (PStr "") (dict_get "model" b')) ∧
   Forall2 same_json (normalize_messages (dget "messages" b) normalize)
                     (normalize_messages (dget "messages" b') normalize) ∧
   Forall2 same_json (normalize_tools (dget "tools" b)) (normalize_tools (dget "tools" b')) ∧
   ∀ k, k ∈ PARAM_FIELDS →
     canon canonical_opts <$> dict_get k b = canon canonical_opts <$> dict_get k b').
Proof.
  intros Hb Hb' Hk. unfold derive_key in Hk.
  destruct (decide (json_dumps canonical_opts (key_payload b normalize) =
                    json_dumps canonical_opts (key_payload b' normalize))) as [Heq|Hne];
    [right|left; eauto].
  apply (json_dumps_inj canonical_opts) in Heq; [|by split; left|done|done].
  unfold key_payload in Heq. rewrite !canon_payload in Heq. injection Heq as Hm Hmodel Hp Ht.
  assert (∀ l l', map (canon canonical_opts) l = map (canon canonical_opts) l' → Forall2 same_json l l') as Hmap.
  { induction l as [|x l IH]; intros [|y l'] H; simplify_eq/=; constructor; auto. }
  split; [done|]. split; [by apply Hmap|]. split; [by apply Hmap|]. intros k Hin.
  rewrite <- (dict_get_params k b), <- (dict_get_params k b'), <- !dict_get_canon by done.
  assert (∀ b, NoDup (map fst (map (λ '(k, x), (k, canon canonical_opts x)) (normalize_params b)))) as Hnd.
  { intros c. rewrite map_map. pose proof (params_keys c) as H.
    by rewrite (map_ext _ fst) by (by intros []). }
  assert (∀ b, dict_get k (map (λ '(k, x), (k, canon canonical_opts x)) (normalize_params b)) =
    dict_get k (key_order canonical_opts (map (λ '(k, x), (k, canon canonical_opts x)) (normalize_params b)))) as Ho.
  { intros c. apply dict_get_perm; [apply Hnd|]. by rewrite key_order_perm. }
  by rewrite !Ho, Hp.
Qed.

End invariance.

(** ** A concrete request *)

Definition sample_repr : FloatRepr := λ _, "0.5".
Definition sample_parse : FloatParse := λ _, None.

Definition user_message : list (string * pyval) := [("role", PStr "user"); ("content", PStr "fix it")].
Definition model_message : list (string * pyval) :=
  [("role", PStr "assistant"); ("content", PStr "done")].

Definition sample_body : list (string * pyval) :=
  [("model", PStr "m"); ("messages", PList [PDict user_message; PDict model_message]); ("seed", PInt 7)].

(** The same request, streamed, without the model's own turn. *)
Definition sample_body' : list (string * pyval) :=
  dict_set "stream" (PBool true) (dict_set "messages" (PList [PDict user_message]) sample_body).

Lemma derive_key_invariant_witness :
  @derive_key sample_repr sample_body false = @derive_key sample_repr sample_body' false.
Proof.
  apply (@derive_key_invariant sample_repr).
  eapply rtc_l; [apply (step_history false sample_body [PDict user_message] model_message [])|].
  - reflexivity.
  - intros role [= <-] Hin%mem_spec. vm_compute in Hin. discriminate Hin.
  - apply rtc_once. apply step_field. intros Hin%mem_spec. vm_compute in Hin. discriminate Hin.
Defined.

Lemma derive_key_separates_witness :
  (∃ x y, x ≠ y ∧ sha256_hex x = sha256_hex y) ∨
  (same_json (PStr "m") (PStr "m") ∧
   Forall2 same_json (normalize_messages (dget "messages" sample_body) false)
                     (normalize_messages (dget "messages" sample_body') false) ∧
   Forall2 same_json (@normalize_tools sample_repr (dget "tools" sample_body))
                     (@normalize_tools sample_repr (dget "tools" sample_body')) ∧
   ∀ k, k ∈ PARAM_FIELDS →
     canon canonical_opts <$> dict_get k sample_body = canon canonical_opts <$> dict_get k sample_body').
Proof.
  apply (@derive_key_separates sample_repr sample_parse false sample_body sample_body').
  - apply json_ok_flat; vm_compute; reflexivity.
  - apply json_ok_flat; vm_compute; reflexivity.
  - vm_compute. reflexivity.
Defined.

End GwKeying.
