(* ===== verification/Tokens.v ===== *)
(** * Bearer tokens of keyless backends

    Models of [EntraTokenProvider] of [llm_gateway/azure_auth.py], whose callers
    are coroutines with one lock for each scope and client, and of
    [get_entra_token] of [bf_worker/services/azure_auth.py], whose callers are
    threads with one lock.  Both are instances of one machine: a call advances
    between the points where another one can run, and the steps of the calls, of
    the clock and of the shutdown interleave in any order (for the coroutines, which
    give way only at a lock and at a mint, these are more interleavings than there
    are).  Times are counted in microseconds.  [azure.identity] is not part of the
    program: what it does in a mint comes with the step. *)

From S2P Require Import Prelude PyStr PyJson.
Local Open Scope string_scope.
Local Open Scope list_scope.

Module Tokens.

Definition SECOND : Z := 1000000.
Definition REFRESH_SKEW_S : Z := 300.

Record CachedToken := mkToken { token : string; expires_on : Z }.

(** A scope and a client. *)
Notation key := (string * string)%type.

(** The test both looks at the cache make. *)
Definition fresh (c : CachedToken) (now : Z) : bool := (now <? expires_on c - REFRESH_SKEW_S * SECOND)%Z.

(** What [azure.identity] does in one mint: whether it can be imported, whether a
    credential can be built, and what a request for a token is answered. *)
Record sdk := mkSdk { installed : bool; built : res unit; answered : res (string * Z) }.

Definition cached (r : res (string * Z)) : res CachedToken := a ← r; Ok (mkToken a.1 a.2).

(** ** The two providers

    [L] is the type of what names a lock, [CS] what is kept of the credentials,
    [look_now called now] the time the first look uses. *)
Class Provider (L CS : Type) := {
  lock_of : key → L;
  look_now : Z → Z → Z;
  mint : key → sdk → CS → CS * res CachedToken;
}.

(** *** The gateway *)

Definition gateway_error (m : string) : exn := Exn "GatewayAuthError" m.
Definition ROLE_HINT (article : string) : string :=
  "On Azure compute, check the managed identity is assigned and " +:+ article
  +:+ " data-plane role (e.g. 'Cognitive Services OpenAI User'). "
  +:+ "Locally, run `az login`.".
Definition no_token_message (article scope : string) (e : exn) : string :=
  "could not obtain an Entra token for scope " +:+ repr_str scope +:+ ": " +:+ exn_msg e +:+ ". " +:+ ROLE_HINT article.

(** The credential of a client, kept once it is built. *)
Definition gateway_credential (client_id : string) (d : sdk) (creds : list string) : list string * res unit :=
  if mem client_id creds then (creds, Ok tt)
  else if negb (installed d) then
    (creds, Raise (gateway_error ("backend auth=entra needs the `azure-identity` package "
                                  +:+ "(pip install azure-identity).")))
  else match built d with
  | Raise e => (creds, Raise e)
  | Ok _ => (client_id :: creds, Ok tt)
  end.

Definition gateway_mint (k : key) (d : sdk) (creds : list string) : list string * res CachedToken :=
  let '(creds, c) := gateway_credential k.2 d creds in
  (creds, match (_ ← c; cached (answered d)) with
          | Ok t => Ok t
          | Raise e => if bool_decide (exn_class e = "GatewayAuthError") then Raise e
                       else Raise (gateway_error (no_token_message "holds a" k.1 e))
          end).

#[global] Instance gateway_provider : Provider key (list string) := {|
  lock_of := id;
  look_now _ now := now;
  mint := gateway_mint;
|}.

(** *** The worker *)

Definition worker_error (m : string) : exn := Exn "AzureAuthError" m.

Definition fetch_token (k : key) (d : sdk) : res CachedToken :=
  if negb (installed d) then
    Raise (worker_error ("llm_auth_mode='entra' needs the `azure-identity` package "
                         +:+ "(pip install azure-identity)."))
  else
    _ ← built d;
    match answered d with
    | Raise e => Raise (worker_error (no_token_message "has a" k.1 e))
    | Ok a => Ok (mkToken a.1 a.2)
    end.

#[global] Instance worker_provider : Provider unit unit := {|
  lock_of _ := tt;
  look_now called _ := called;
  mint k d cs := (cs, fetch_token k d);
|}.

(** ** Calls *)

Inductive phase :=
| Called                         (* before the first look *)
| Waiting                        (* at the lock *)
| Entered                        (* with the lock, before the second look *)
| Minting (since : Z)            (* with the lock, while the credential answers *)
| Stored (c : CachedToken)       (* with the lock, the new token is in the cache *)
| Returned (c : CachedToken)     (* the caller has the token of [c] *)
| Failed (e : exn).

Record call := mkCall { asks : key; called_at : Z; at_phase : phase }.

Definition in_lock (p : phase) : bool :=
  match p with Entered | Minting _ | Stored _ => true | _ => false end.
Definition finished (p : phase) : bool :=
  match p with Returned _ | Failed _ => true | _ => false end.

Section machine.
Context {L CS : Type} `{Countable L} `{!Provider L CS}.

Record St := mkSt {
  clock : Z;
  cache : gmap key CachedToken;
  (** A lock that was never asked for is absent; else its holder, if any. *)
  locks : gmap L (option nat);
  creds : CS;
  calls : list call;
  (** The mints that succeeded: the key, when the request began, and the token. *)
  mints : list (key * Z * CachedToken)
}.

Definition with_phase (t : nat) (c : call) (p : phase) (s : St) : St :=
  mkSt (clock s) (cache s) (locks s) (creds s) (<[t := mkCall (asks c) (called_at c) p]> (calls s)) (mints s).
Definition with_lock (l : L) (o : option nat) (s : St) : St :=
  mkSt (clock s) (cache s) (<[l := o]> (locks s)) (creds s) (calls s) (mints s).
Definition with_creds (cs : CS) (s : St) : St :=
  mkSt (clock s) (cache s) (locks s) cs (calls s) (mints s).
Definition with_token (k : key) (since : Z) (c : CachedToken) (s : St) : St :=
  mkSt (clock s) (<[k := c]> (cache s)) (locks s) (creds s) (calls s) (mints s ++ [(k, since, c)]).

(** The token of the cache, if the time leaves it some life. *)
Definition look (k : key) (now : Z) (s : St) : option CachedToken :=
  match cache s !! k with
  | Some c => if fresh c now then Some c else None
  | None => None
  end.

Definition holder (l : L) (s : St) : option nat := default None (locks s !! l).

(** The next step of call [t]; [None] where it waits for a lock or has ended. *)
Definition act (t : nat) (d : sdk) (s : St) : option St :=
  match calls s !! t with
  | None => None
  | Some c =>
      let k := asks c in
      let l := lock_of k in
      match at_phase c with
      | Called =>
          Some (with_phase t c (match look k (look_now (called_at c) (clock s)) s with
                                | Some tok => Returned tok
                                | None => Waiting
                                end) s)
      | Waiting =>
          match holder l s with
          | Some _ => None
          | None => Some (with_phase t c Entered (with_lock l (Some t) s))
          end
      | Entered =>
          Some (match look k (clock s) s with
                | Some tok => with_phase t c (Returned tok) (with_lock l None s)
                | None => with_phase t c (Minting (clock s)) s
                end)
      | Minting since =>
          let '(cs, r) := mint k d (creds s) in
          let s := with_creds cs s in
          Some (match r with
                | Ok tok => with_phase t c (Stored tok) (with_token k since tok s)
                | Raise e => with_phase t c (Failed e) (with_lock l None s)
                end)
      | Stored tok => Some (with_phase t c (Returned tok) (with_lock l None s))
      | Returned _ | Failed _ => None
      end
  end.

Definition ask (k : key) (s : St) : St :=
  mkSt (clock s) (cache s) (locks s) (creds s) (calls s ++ [mkCall k (clock s) Called]) (mints s).
Definition tick (d : Z) (s : St) : St :=
  mkSt (clock s + d) (cache s) (locks s) (creds s) (calls s) (mints s).

Inductive step : St → St → Prop :=
| step_tick d s : (0 ≤ d)%Z → step s (tick d s)
| step_ask k s : step s (ask k s)
| step_act t d s s' : act t d s = Some s' → step s s'
| step_close cs s : step s (with_creds cs s).

Definition start (now : Z) (cs : CS) : St := mkSt now ∅ ∅ cs [] [].
Definition reachable (s : St) : Prop := ∃ now cs, rtc step (start now cs) s.

(** A schedule, to run the machine. *)
Inductive action := Tick (d : Z) | Ask (k : key) | Act (t : nat) (d : sdk).
Definition perform (a : action) (s : St) : option St :=
  match a with
  | Tick d => if (0 <=? d)%Z then Some (tick d s) else None
  | Ask k => Some (ask k s)
  | Act t d => act t d s
  end.
Fixpoint run (l : list action) (s : St) : option St :=
  match l with
  | [] => Some s
  | a :: l => s' ← perform a s; run l s'
  end.

End machine.
End Tokens.
