(* ===== verification/TokensSpec.v ===== *)
(** * Bearer tokens: what the cache promises

    The invariant of the machine of [Tokens] (who holds a lock, how the cache and
    the mints agree, what each call has seen), by induction on its steps, and the
    three theorems that rest on it, for both providers. *)

From stdpp Require Import sorting.
From S2P Require Import Prelude PyStr PyJson Tokens.
Local Open Scope string_scope.
Local Open Scope list_scope.

Module TokensSpec.
Import Tokens.

(** The first look uses a time of the call. *)
Class LooksInTime {L CS} `{!Provider L CS} :=
  look_in_time called now : (called ≤ now → called ≤ look_now called now ≤ now)%Z.
#[global] Instance gateway_looks : LooksInTime (L := key) (CS := list string).
Proof. intros called now. cbn. lia. Qed.
#[global] Instance worker_looks : LooksInTime (L := unit) (CS := unit).
Proof. intros called now. cbn. lia. Qed.

Lemma fresh_before c t t' : (t ≤ t')%Z → fresh c t' = true → fresh c t = true.
Proof. unfold fresh. rewrite !Z.ltb_lt. lia. Qed.
Lemma stale_after c t t' : (t ≤ t')%Z → fresh c t = false → fresh c t' = false.
Proof. unfold fresh. rewrite !Z.ltb_ge. lia. Qed.

(** The mints of a key, in their order. *)
Definition of_key (k : key) : list (key * Z * CachedToken) → list (Z * CachedToken) :=
  omap (λ m, if decide (m.1.1 = k) then Some (m.1.2, m.2) else None).

Lemma of_key_app k l l' : of_key k (l ++ l') = of_key k l ++ of_key k l'.
Proof. apply omap_app. Qed.
Lemma of_key_one k k' since c :
  of_key k [(k', since, c)] = if decide (k' = k) then [(since, c)] else [].
Proof. unfold of_key. cbn. by destruct (decide _). Qed.
Lemma elem_of_key k l since c : (since, c) ∈ of_key k l ↔ (k, since, c) ∈ l.
Proof.
  unfold of_key. rewrite list_elem_of_omap. split.
  - intros ([[k' s'] c'] & Hin & Hs). cbn in Hs. case_decide; [|done]. by simplify_eq.
  - intros Hin. exists (k, since, c). split; [done|]. cbn. by rewrite decide_True.
Qed.

Section laws.
Context {L CS : Type} `{Countable L} `{!Provider L CS} `{!LooksInTime}.
Implicit Types (s : St (L := L) (CS := CS)) (c : call).

(** *** Locks *)

Definition lock_inv s : Prop :=
  ∀ l t, holder l s = Some t ↔
    ∃ c, calls s !! t = Some c ∧ in_lock (at_phase c) = true ∧ lock_of (asks c) = l.

Lemma holder_with l l' o s : holder l (with_lock l' o s) = if decide (l' = l) then o else holder l s.
Proof.
  unfold holder, with_lock. cbn. destruct (decide (l' = l)) as [->|Hne].
  - by rewrite lookup_insert_eq.
  - by rewrite lookup_insert_ne.
Qed.

Lemma calls_with t t' c c' p s : calls s !! t = Some c →
  calls (with_phase t c p s) !! t' = Some c' ↔
    (t' = t ∧ c' = mkCall (asks c) (called_at c) p) ∨ (t' ≠ t ∧ calls s !! t' = Some c').
Proof.
  intros Ht. cbn. rewrite list_lookup_insert_Some. apply lookup_lt_Some in Ht. naive_solver.
Qed.

Lemma lock_same t c p s :
  lock_inv s → calls s !! t = Some c → in_lock p = in_lock (at_phase c) → lock_inv (with_phase t c p s).
Proof.
  intros Hi Ht Hp l t'. change (holder l (with_phase t c p s)) with (holder l s). rewrite (Hi l t').
  setoid_rewrite (calls_with t t' c _ p s Ht). destruct (decide (t' = t)) as [->|Hne]; [|naive_solver].
  split.
  - intros (c' & Hc & Hin & Hl). simplify_eq. eexists. split; [by left|]. by cbn; rewrite Hp.
  - intros (c' & [[_ ->]|[? _]] & Hin & Hl); [|done]. exists c. cbn in *. by rewrite <- Hp.
Qed.

Lemma lock_taken t c p s :
  lock_inv s → calls s !! t = Some c → in_lock (at_phase c) = false → in_lock p = true →
  holder (lock_of (asks c)) s = None →
  lock_inv (with_phase t c p (with_lock (lock_of (asks c)) (Some t) s)).
Proof.
  intros Hi Ht Hout Hin Hfree l t'.
  change (holder l (with_phase t c p (with_lock (lock_of (asks c)) (Some t) s)))
    with (holder l (with_lock (lock_of (asks c)) (Some t) s)).
  rewrite holder_with. setoid_rewrite (calls_with t t' c _ p (with_lock _ _ s) Ht).
  pose proof (Hi l t') as Hl. change (calls (with_lock _ _ s)) with (calls s). destruct (decide _) as [<-|Hne].
  - rewrite Hfree in Hl. split; [intros [= <-]; eauto 10|].
    intros (c' & [[-> ->]|[? Hc]] & Hin' & Hl'); [done|]. exfalso. by assert (None = Some t') as [=] by (apply Hl; eauto).
  - rewrite Hl. destruct (decide (t' = t)) as [->|]; [|naive_solver]. split; [|naive_solver].
    intros (c' & Hc & Hin' & _). simplify_eq. congruence.
Qed.

Lemma lock_left t c p s :
  lock_inv s → calls s !! t = Some c → in_lock (at_phase c) = true → in_lock p = false →
  lock_inv (with_phase t c p (with_lock (lock_of (asks c)) None s)).
Proof.
  intros Hi Ht Hin Hout l t'.
  change (holder l (with_phase t c p (with_lock (lock_of (asks c)) None s)))
    with (holder l (with_lock (lock_of (asks c)) None s)).
  rewrite holder_with. setoid_rewrite (calls_with t t' c _ p (with_lock _ _ s) Ht).
  change (calls (with_lock _ _ s)) with (calls s).
  assert (holder (lock_of (asks c)) s = Some t) as Hh by (apply Hi; eauto).
  destruct (decide _) as [<-|Hne].
  - split; [done|]. intros (c' & [[-> ->]|[Hne Hc]] & Hin' & Hl'); [cbn in *; congruence|].
    destruct Hne. assert (holder (lock_of (asks c)) s = Some t') by (apply Hi; eauto). congruence.
  - rewrite (Hi l t'). destruct (decide (t' = t)) as [->|]; [|naive_solver]. split; [naive_solver|].
    intros (c' & [[_ ->]|[? _]] & Hin' & Hl'); [cbn in *; congruence|done].
Qed.

(** *** Mints *)

(** Each mint of a key began when the tokens minted for it before had run out. *)
Definition succeeds (a b : Z * CachedToken) : Prop := fresh a.2 b.1 = false.

Record log_inv s : Prop := {
  cache_last k : cache s !! k = snd <$> last (of_key k (mints s));
  log_sorted k : StronglySorted succeeds (of_key k (mints s));
  log_past k since tok : (k, since, tok) ∈ mints s → (since ≤ clock s)%Z
}.

(** All tokens of a key have run out at a time. *)
Definition run_out (k : key) (now : Z) s : Prop := Forall (λ a, fresh a.2 now = false) (of_key k (mints s)).

Lemma look_None k s : log_inv s → look k (clock s) s = None → run_out k (clock s) s.
Proof.
  intros Hi Hl. unfold look in Hl. rewrite (cache_last _ Hi) in Hl. unfold run_out.
  pose proof (log_sorted _ Hi k) as Hs. destruct (last (of_key k (mints s))) as [[since tok]|] eqn:E.
  - apply last_Some in E as [l' E]. rewrite E in Hs |- *. cbn in Hl.
    destruct (fresh tok (clock s)) eqn:F; [done|]. apply Forall_app. split; [|by constructor].
    assert ((k, since, tok) ∈ mints s) as Hpast%(log_past _ Hi).
    { apply elem_of_key. rewrite E. set_solver. }
    apply StronglySorted_app in Hs as (Hx & _ & _). apply Forall_forall. intros a Ha.
    specialize (Hx a (since, tok) Ha ltac:(set_solver)). by eapply stale_after.
  - apply last_None in E. rewrite E. constructor.
Qed.

Lemma look_Some k now tok s : look k now s = Some tok →
  cache s !! k = Some tok ∧ fresh tok now = true.
Proof. unfold look. destruct (cache s !! k) as [c|]; [|done]. destruct (fresh c now) eqn:E; naive_solver. Qed.

Lemma cache_minted k tok s : log_inv s → cache s !! k = Some tok → ∃ since, (k, since, tok) ∈ mints s.
Proof.
  intros Hi. rewrite (cache_last _ Hi). destruct (last _) as [[since tok']|] eqn:E; [|done]. intros [= ->].
  exists since. apply elem_of_key. apply last_Some in E as [l ->]. set_solver.
Qed.

Lemma log_grows k since tok s :
  log_inv s → (since ≤ clock s)%Z → run_out k since s → log_inv (with_token k since tok s).
Proof.
  intros Hi Hle Hout. split; cbn.
  - intros k'. rewrite of_key_app, of_key_one. destruct (decide (k = k')) as [->|Hne].
    + by rewrite lookup_insert_eq, last_snoc.
    + rewrite lookup_insert_ne, app_nil_r by done. apply (cache_last _ Hi).
  - intros k'. rewrite of_key_app, of_key_one. destruct (decide (k = k')) as [->|Hne].
    + apply StronglySorted_app. split_and!; [|apply (log_sorted _ Hi)|repeat constructor].
      intros a b Ha Hb. apply list_elem_of_singleton in Hb as ->. unfold run_out in Hout.
      rewrite Forall_forall in Hout. by apply Hout.
    + rewrite app_nil_r. apply (log_sorted _ Hi).
  - intros k' since' tok' [Hin|Hin]%elem_of_app; [by eapply log_past|].
    apply list_elem_of_singleton in Hin. by simplify_eq.
Qed.

Lemma log_frame s s' : cache s' = cache s → mints s' = mints s → (clock s ≤ clock s')%Z → log_inv s → log_inv s'.
Proof.
  intros Hc Hm Ht [H1 H2 H3]. split; [by rewrite Hc, Hm|by rewrite Hm|].
  intros k since tok. rewrite Hm. intros Hin%H3. lia.
Qed.

(** *** Calls *)

(** A token a call may be given: one of its key that had life left when it was
    called, or that was minted since. *)
Definition usable (c : call) (tok : CachedToken) s : Prop :=
  ∃ since, (asks c, since, tok) ∈ mints s ∧ (fresh tok (called_at c) = true ∨ (called_at c ≤ since)%Z).

Definition call_ok s c : Prop :=
  (called_at c ≤ clock s)%Z ∧
  match at_phase c with
  | Minting since => (called_at c ≤ since ≤ clock s)%Z ∧ run_out (asks c) since s
  | Stored tok | Returned tok => usable c tok s
  | _ => True
  end.

Lemma usable_grows c tok s s' : mints s `prefix_of` mints s' → usable c tok s → usable c tok s'.
Proof. intros [l E] (since & Hin & Hor). exists since. rewrite E. split; [set_solver|done]. Qed.

Lemma call_frame s s' c :
  mints s `prefix_of` mints s' → (clock s ≤ clock s')%Z →
  (∀ since, at_phase c = Minting since → of_key (asks c) (mints s') = of_key (asks c) (mints s)) →
  call_ok s c → call_ok s' c.
Proof.
  intros Hp Ht Hm [Hc Hph]. split; [lia|]. destruct (at_phase c) eqn:E; try done.
  - destruct Hph as [? Hr]. split; [lia|]. unfold run_out. by rewrite (Hm _ eq_refl).
  - by eapply usable_grows.
  - by eapply usable_grows.
Qed.

Record inv s : Prop := {
  inv_locks : lock_inv s;
  inv_log : log_inv s;
  inv_calls : ∀ t c, calls s !! t = Some c → call_ok s c
}.

(** A step that leaves the mints and the clock alone and moves one call. *)
Lemma calls_move t c p s s' :
  calls s !! t = Some c → mints s' = mints s → clock s' = clock s → calls s' = calls s →
  (∀ t c, calls s !! t = Some c → call_ok s c) → call_ok s (mkCall (asks c) (called_at c) p) →
  ∀ t' c', calls (with_phase t c p s') !! t' = Some c' → call_ok (with_phase t c p s') c'.
Proof.
  intros Ht Hm Hc Hcs Hok Hnew t' c' Hin. rewrite <- Hcs in Ht.
  eapply (call_frame s); [by cbn; rewrite Hm|cbn; lia|intros; cbn; by rewrite Hm|].
  apply (calls_with t t' c _ p s' Ht) in Hin as [[-> ->]|[_ Hin]]; [done|]. rewrite Hcs in Hin. by eapply Hok.
Qed.

(** No other call mints the key of a call that holds its lock. *)
Lemma alone s t t' c c' :
  lock_inv s → calls s !! t = Some c → calls s !! t' = Some c' → in_lock (at_phase c) = true →
  in_lock (at_phase c') = true → lock_of (asks c) = lock_of (asks c') → t = t'.
Proof.
  intros Hi Ht Ht' Hc Hc' Hl. assert (holder (lock_of (asks c)) s = Some t) as H1 by (apply Hi; eauto).
  assert (holder (lock_of (asks c)) s = Some t') as H2 by (apply Hi; eauto). congruence.
Qed.

(** *** Steps *)

Lemma stored_ok t c since tok s :
  inv s → calls s !! t = Some c → at_phase c = Minting since →
  inv (with_phase t c (Stored tok) (with_token (asks c) since tok s)).
Proof.
  intros [Hl Hg Hc] Ht Hp. destruct (Hc t c Ht) as [Hca Hm]. rewrite Hp in Hm. destruct Hm as [Hs Hout].
  split.
  - apply (lock_same t c _ (with_token _ _ _ s)); [done|done|by rewrite Hp].
  - apply (log_frame (with_token (asks c) since tok s)); [done|done|done|]. apply log_grows; [done|lia|done].
  - intros t' c' Hin. apply (calls_with t t' c _ (Stored tok) (with_token _ _ _ s) Ht) in Hin as [[-> ->]|[Hne Hin]].
    + split; [done|]. cbn. exists since. split; [set_solver|]. right. cbn. lia.
    + apply (call_frame s); [by eexists|done| |by eapply Hc]. intros since' Hp'. cbn.
      rewrite of_key_app, of_key_one. destruct (decide (asks c = asks c')) as [E|?]; [|by rewrite app_nil_r].
      destruct Hne. eapply (alone s t' t c' c); [done|done|done|by rewrite Hp'|by rewrite Hp|by rewrite E].
Qed.

(** A step of a call that mints nothing. *)
Lemma moved_ok t c p s s' :
  inv s → calls s !! t = Some c → cache s' = cache s → mints s' = mints s → clock s' = clock s → calls s' = calls s →
  lock_inv (with_phase t c p s') → call_ok s (mkCall (asks c) (called_at c) p) → inv (with_phase t c p s').
Proof.
  intros [Hl Hg Hc] Ht Ec Em Et Es Hlk Hok. split; [done| |by eapply calls_move].
  apply (log_frame s); [done|done| |done]. cbn. lia.
Qed.

Lemma found_ok c now tok s :
  inv s → (called_at c ≤ now)%Z → (called_at c ≤ clock s)%Z → look (asks c) now s = Some tok →
  call_ok s (mkCall (asks c) (called_at c) (Returned tok)).
Proof.
  intros Hi Hle Hle' [Hc Hf]%look_Some. split; [done|].
  destruct (cache_minted _ _ _ (inv_log _ Hi) Hc) as [since Hin]. exists since. split; [done|]. left.
  exact (fresh_before tok _ now Hle Hf).
Qed.

Lemma creds_inv cs s : inv s → inv (with_creds cs s).
Proof.
  intros [Hl Hg Hc]. split; [done|by apply (log_frame s)|]. intros t c Hin. apply (call_frame s); try done. by eapply Hc.
Qed.

Lemma act_inv t d s s' : inv s → act t d s = Some s' → inv s'.
Proof.
  intros Hi. unfold act. destruct (calls s !! t) as [c|] eqn:Ht; [|done].
  pose proof (inv_locks _ Hi) as Hl. destruct (inv_calls _ Hi t c Ht) as [Hca Hph].
  destruct (at_phase c) as [| | |since|tok|tok|e] eqn:Hp; try done.
  - intros [= <-]. pose proof (look_in_time (called_at c) (clock s) Hca) as Htime.
    apply (moved_ok t c _ s); try done; destruct (look _ _ s) as [tok|] eqn:E.
    1, 2: apply lock_same; [done|done|by rewrite Hp].
    + eapply found_ok; [done| |done|done]. lia.
    + done.
  - destruct (holder _ s) eqn:Hh; [done|]. intros [= <-].
    apply (moved_ok t c Entered s); try done. apply lock_taken; [done|done|by rewrite Hp|done|done].
  - intros [= <-]. destruct (look (asks c) (clock s) s) as [tok|] eqn:E.
    + apply (moved_ok t c _ s); try done; [apply (lock_left t c _ s); [done|done|by rewrite Hp|done]|].
      exact (found_ok c (clock s) tok s Hi Hca Hca E).
    + apply (moved_ok t c _ s); try done; [apply lock_same; [done|done|by rewrite Hp]|].
      split; [done|]. cbn. split; [lia|]. by apply look_None; [apply inv_log|].
  - destruct (mint (asks c) d (creds s)) as [cs [tok|e]]; intros [= <-].
    + by apply (stored_ok t c since tok (with_creds cs s)); [apply creds_inv|..].
    + apply (moved_ok t c (Failed e) s); try done.
      apply (lock_left t c _ (with_creds cs s)); [done|done|by rewrite Hp|done].
  - intros [= <-]. apply (moved_ok t c (Returned tok) s); try done. apply (lock_left t c _ s); [done|done|by rewrite Hp|done].
Qed.

Lemma ask_inv k s : inv s → inv (ask k s).
Proof.
  intros [Hl Hg Hc].
  assert (∀ t c, calls (ask k s) !! t = Some c →
    calls s !! t = Some c ∨ c = mkCall k (clock s) Called) as Hcalls.
  { intros t c Hin. cbn in Hin. apply lookup_app_Some in Hin as [|[_ Hin]]; [by left|right].
    apply list_lookup_singleton_Some in Hin as [_ <-]. done. }
  split.
  - intros l t. change (holder l (ask k s)) with (holder l s). rewrite (Hl l t). split.
    + intros (c & Hin & ?). exists c. split; [|done]. cbn. by apply lookup_app_l_Some.
    + intros (c & [Hin| ->]%Hcalls & Hin' & ?); [by exists c|done].
  - by apply (log_frame s).
  - intros t c [Hin| ->]%Hcalls; [|by split]. apply (call_frame s); try done. by eapply Hc.
Qed.

Lemma tick_inv d s : (0 ≤ d)%Z → inv s → inv (tick d s).
Proof.
  intros Hd [Hl Hg Hc]. split; [done|apply (log_frame s); try done; cbn; lia|].
  intros t c Hin. apply (call_frame s); try done; [cbn; lia|]. by eapply Hc.
Qed.

Lemma reachable_inv s : reachable s → inv s.
Proof.
  intros (now & cs & Hr). remember (start now cs) as s0 eqn:E. assert (inv s0) as Hi.
  { subst s0. split; [|split|]; try done.
    - intros l t. unfold holder. cbn. rewrite lookup_empty. split; [done|]. by intros (c & ? & _).
    - intros k. constructor.
    - intros k since tok Hin. by apply elem_of_nil in Hin. }
  clear E. induction Hr as [|s1 s2 s3 Hs _ IH]; [done|]. apply IH.
  destruct Hs; [by apply tick_inv|by apply ask_inv|by eapply act_inv|by apply creds_inv].
Qed.

(** *** Every call ends *)

Definition rank (p : phase) : nat :=
  match p with Called => 5 | Waiting => 4 | Entered => 3 | Minting _ => 2 | Stored _ => 1 | Returned _ | Failed _ => 0 end.
Definition to_do s : nat := sum_list_with (rank ∘ at_phase) (calls s).

(** A step of a call, whatever the credential answers. *)
Definition acts s s' : Prop := ∃ t d, act t d s = Some s'.

Lemma to_do_with t c p s : calls s !! t = Some c → (rank p < rank (at_phase c))%nat → (to_do (with_phase t c p s) < to_do s)%nat.
Proof.
  intros Ht Hlt. unfold to_do, with_phase. cbn. rewrite <- (take_drop_middle _ _ _ Ht) at 2.
  rewrite insert_take_drop by (by eapply lookup_lt_Some). rewrite !sum_list_with_app. cbn. lia.
Qed.

Lemma act_rank t d s s' : act t d s = Some s' → (to_do s' < to_do s)%nat.
Proof.
  unfold act. destruct (calls s !! t) as [c|] eqn:Ht; [|done].
  destruct (at_phase c) as [| | |since|tok|tok|e] eqn:Hp; try done.
  - intros [= <-]. apply to_do_with; [done|]. rewrite Hp. destruct (look _ _ _); cbn; lia.
  - destruct (holder _ s); [done|]. intros [= <-]. apply (to_do_with t c _ (with_lock _ _ s)); [done|]. rewrite Hp. cbn. lia.
  - intros [= <-]. destruct (look _ _ _).
    + apply (to_do_with t c _ (with_lock _ _ s)); [done|]. rewrite Hp. cbn. lia.
    + apply to_do_with; [done|]. rewrite Hp. cbn. lia.
  - destruct (mint _ _ _) as [cs [tok|e]]; intros [= <-].
    + apply (to_do_with t c _ (with_token _ _ _ (with_creds cs s))); [done|]. rewrite Hp. cbn. lia.
    + apply (to_do_with t c _ (with_lock _ _ (with_creds cs s))); [done|]. rewrite Hp. cbn. lia.
  - intros [= <-]. apply (to_do_with t c _ (with_lock _ _ s)); [done|]. rewrite Hp. cbn. lia.
Qed.

Lemma acts_end s : sn acts s.
Proof.
  remember (to_do s) as n eqn:E. revert s E. induction (lt_wf n) as [n _ IH]. intros s ->. constructor.
  intros s' (t & d & Ha). by eapply IH; [eapply act_rank|].
Qed.

(** A call in a lock, or at a free one, can go on. *)
Lemma in_lock_acts t c d s : calls s !! t = Some c → in_lock (at_phase c) = true → is_Some (act t d s).
Proof.
  intros Ht Hin. unfold act. rewrite Ht. destruct (at_phase c); try done. by destruct (mint _ _ _).
Qed.

Lemma stuck_finished s : inv s → nf acts s → Forall (λ c, finished (at_phase c) = true) (calls s).
Proof.
  intros Hi Hnf. apply Forall_forall. intros c [t Ht]%list_elem_of_lookup.
  set (d := mkSdk false (Ok tt) (Raise (Exn "" ""))).
  assert (∀ t' c', calls s !! t' = Some c' → in_lock (at_phase c') = true → False) as Hlock.
  { intros t' c' Ht' Hin. destruct (in_lock_acts t' c' d s Ht' Hin) as [s' Hs']. apply Hnf. by exists s', t', d. }
  destruct (at_phase c) eqn:Hp; try done.
  - destruct Hnf. eexists _, t, d. unfold act. by rewrite Ht, Hp.
  - destruct (holder (lock_of (asks c)) s) as [t'|] eqn:Hh.
    + apply (inv_locks _ Hi) in Hh as (c' & Ht' & Hin & _). by destruct (Hlock t' c').
    + destruct Hnf. eexists _, t, d. unfold act. by rewrite Ht, Hp, Hh.
  - destruct (Hlock t c Ht). by rewrite Hp.
  - destruct (Hlock t c Ht). by rewrite Hp.
  - destruct (Hlock t c Ht). by rewrite Hp.
Qed.

Lemma acts_inv s s' : inv s → rtc acts s s' → inv s'.
Proof. intros Hi Hr. induction Hr as [|s1 s2 s3 (t & d & Ha) _ IH]; [done|]. apply IH. by eapply act_inv. Qed.

(** ** The theorems *)

(** C32: of one key there is never more than one mint under way, and a mint begins
    only when every token minted for the key before has less than the refresh
    margin left; so however many calls find a cold cache, one token is minted for
    as long as it lasts. *)
Theorem single_flight s (k : key) : reachable s →
  (∀ t t' c c' since since', calls s !! t = Some c → calls s !! t' = Some c' → asks c = k → asks c' = k →
     at_phase c = Minting since → at_phase c' = Minting since' → t = t') ∧
  (∀ l1 l2 l3 since tok since' tok', mints s = l1 ++ (k, since, tok) :: l2 ++ (k, since', tok') :: l3 →
     fresh tok since' = false) ∧
  ((∀ since tok, (k, since, tok) ∈ mints s → fresh tok (clock s) = true) → (length (of_key k (mints s)) ≤ 1)%nat).
Proof.
  intros Hi%reachable_inv. pose proof (log_sorted _ (inv_log _ Hi) k) as Hs. split_and!.
  - intros t t' c c' since since' Ht Ht' E E' Hp Hp'.
    apply (alone s t t' c c' (inv_locks _ Hi)); [done|done|by rewrite Hp|by rewrite Hp'|by rewrite E, E'].
  - intros l1 l2 l3 since tok since' tok' E. rewrite E in Hs.
    change ((k, since, tok) :: l2 ++ (k, since', tok') :: l3)
      with ([(k, since, tok)] ++ l2 ++ [(k, since', tok')] ++ l3) in Hs.
    rewrite !of_key_app, !of_key_one, !decide_True in Hs by done.
    apply StronglySorted_app in Hs as (_ & _ & Hs). apply StronglySorted_app in Hs as (Hx & _ & _).
    apply (Hx (since, tok) (since', tok')); [by left|]. apply elem_of_app. right. by left.
  - intros Hf. destruct (of_key k (mints s)) as [|[since tok] [|[since' tok'] l]] eqn:E; cbn; [lia|lia|]. exfalso.
    assert ((k, since, tok) ∈ mints s) as Hin by (apply elem_of_key; rewrite E; set_solver).
    assert ((k, since', tok') ∈ mints s) as Hin' by (apply elem_of_key; rewrite E; set_solver).
    apply StronglySorted_inv in Hs as [_ Hall%Forall_inv]. unfold succeeds in Hall. cbn in Hall.
    pose proof (stale_after tok _ _ (log_past _ (inv_log _ Hi) _ _ _ Hin') Hall). by rewrite (Hf _ _ Hin) in *.
Qed.

(** C33: a call is only ever given a token that was minted for its own scope and
    client, and that either had more than the refresh margin left when the call
    was made or was minted while it ran. *)
Theorem tokens_usable s t c tok : reachable s → calls s !! t = Some c → at_phase c = Returned tok →
  ∃ since, (asks c, since, tok) ∈ mints s ∧
    ((called_at c + REFRESH_SKEW_S * SECOND < expires_on tok)%Z ∨ (called_at c ≤ since ≤ clock s)%Z).
Proof.
  intros Hi%reachable_inv Ht Hp. destruct (inv_calls _ Hi t c Ht) as [_ Hok]. rewrite Hp in Hok.
  destruct Hok as (since & Hin & Hor). exists since. split; [done|]. destruct Hor as [Hf|Hle].
  - left. apply Z.ltb_lt in Hf. lia.
  - right. split; [done|]. by eapply (log_past _ (inv_log _ Hi)).
Qed.

(** C34: no call hangs on a lock: from any state, whatever the order in which the
    calls go on and whatever the credentials answer, they can go on for finitely
    many steps only, and when none can, each has its token or has failed. *)
Theorem no_call_hangs s : reachable s →
  sn acts s ∧ ∀ s', rtc acts s s' → nf acts s' → Forall (λ c, finished (at_phase c) = true) (calls s').
Proof.
  intros Hi%reachable_inv. split; [apply acts_end|]. intros s' Hr Hnf. apply stuck_finished; [|done].
  by eapply acts_inv.
Qed.

(** Schedules are runs of the machine. *)
Lemma run_steps l s s' : run l s = Some s' → rtc step s s'.
Proof.
  revert s. induction l as [|a l IH]; cbn; intros s; [intros [= ->]; apply rtc_refl|].
  intros Hr. apply bind_Some in Hr as (s1 & Ha & Hr). eapply rtc_l; [|by apply IH].
  destruct a; cbn in Ha; [destruct (Z.leb_spec 0 d); [|done]|..]; simplify_eq;
    [by apply step_tick|apply step_ask|by eapply step_act].
Qed.
End laws.

(** ** Runs *)

Definition k0 : key := ("https://cognitiveservices.azure.com/.default", "").
Definition answer (tok : string) (at_ : Z) : sdk := mkSdk true (Ok tt) (Ok (tok, at_ * SECOND)%Z).
Definition silent : sdk := mkSdk true (Ok tt) (Raise (Exn "ClientAuthenticationError" "no identity")).

(** Three calls meet a cold cache; the first mints, the others wait for its token. *)
Definition burst : list action :=
  [Ask k0; Ask k0; Ask k0; Act 0 silent; Act 1 silent; Act 2 silent; Act 0 silent; Act 0 silent; Tick SECOND;
   Act 0 (answer "a" 3600); Act 0 silent; Act 2 silent; Act 2 silent; Act 1 silent; Act 1 silent].

Example burst_mints_once :
  (λ s : St (L := key) (CS := list string), (length (mints s), (λ c, at_phase c) <$> calls s)) <$> run burst (start 0 [])
  = Some (1%nat, [Returned (mkToken "a" (3600 * SECOND)); Returned (mkToken "a" (3600 * SECOND));
                  Returned (mkToken "a" (3600 * SECOND))]).
Proof. by vm_compute. Qed.

(** A mint that fails frees the lock, and the next call tries for itself. *)
Definition retried : list action :=
  [Ask k0; Ask k0; Act 0 silent; Act 1 silent; Act 0 silent; Act 0 silent; Act 0 silent; Act 1 silent; Act 1 silent;
   Act 1 (answer "b" 3600); Act 1 silent].

(** The state a schedule ends in. *)
Definition after {L CS} `{Countable L} `{!Provider L CS} (l : list action) (cs : CS) : St (L := L) (CS := CS) :=
  default (start 0 cs) (run l (start 0 cs)).

Lemma after_reachable {L CS} `{Countable L} `{!Provider L CS} (l : list action) (cs : CS) :
  match run l (start 0 cs) with Some _ => true | None => false end = true → reachable (after l cs).
Proof.
  unfold after. destruct (run l (start 0 cs)) as [s|] eqn:E; [|done]. intros _. exists 0%Z, cs. by eapply run_steps.
Qed.

Lemma single_flight_witness :
  fresh (mkToken "a" (3600 * SECOND)) 1000000 = true ∧
  (length (of_key k0 (mints (after burst ([] : list string)))) ≤ 1)%nat.
Proof.
  split; [by vm_compute|].
  refine (proj2 (proj2 (single_flight (after burst ([] : list string)) k0 _)) _).
  - apply after_reachable. by vm_compute.
  - intros since tok Hin. vm_compute in Hin. apply list_elem_of_singleton in Hin. injection Hin as -> ->. by vm_compute.
Defined.

Lemma tokens_usable_witness :
  let s := after retried tt in
  ∃ since, (k0, since, mkToken "b" (3600 * SECOND)) ∈ mints s ∧
    ((0 + REFRESH_SKEW_S * SECOND < 3600 * SECOND)%Z ∨ (0 ≤ since ≤ clock s)%Z).
Proof.
  refine (tokens_usable (after retried tt) 1 (mkCall k0 0 (Returned (mkToken "b" (3600 * SECOND)))) _ _ _ _).
  - apply after_reachable. by vm_compute.
  - by vm_compute.
  - reflexivity.
Defined.

Lemma no_call_hangs_witness :
  let s := after (take 9 burst) ([] : list string) in
  sn acts s ∧ ∀ s', rtc acts s s' → nf acts s' → Forall (λ c, finished (at_phase c) = true) (calls s').
Proof.
  apply (no_call_hangs (after (take 9 burst) ([] : list string))).
  apply after_reachable. by vm_compute.
Defined.

(** *** Failures *)

(** Whatever goes wrong in a mint of the gateway is a [GatewayAuthError] ... *)
Lemma gateway_fails_alike k d creds e : (gateway_mint k d creds).2 = Raise e → exn_class e = "GatewayAuthError".
Proof.
  unfold gateway_mint. destruct (gateway_credential _ _ _) as [cs c]. cbn. destruct (_ ← c; _) as [|e']; [done|].
  case_bool_decide; intros [= <-]; done.
Qed.

(** ... but building the credential of the worker is outside its guarded block. *)
Example worker_build_escapes :
  fetch_token k0 (mkSdk true (Raise (Exn "ValueError" "bad client id")) (Raise (Exn "" ""))) = Raise (Exn "ValueError" "bad client id").
Proof. reflexivity. Qed.

End TokensSpec.
