(* ===== verification/GwApp.v ===== *)
(** * The LLM gateway: the response cache and the request handler

    Models of [llm_gateway/cache.py] (the table of recorded responses and the
    session counters) and of [_forward] and [chat_completions] of
    [llm_gateway/app.py].  SQLite errors, upstream replies, tokens and clocks
    are the world's; metrics, log lines, the latency replay's sleep and the
    debug dump are left out. *)

From S2P Require Import Prelude PyStr PyJson PyJsonLoads Budget GwConfig GwKeying.
Local Open Scope string_scope.
Local Open Scope list_scope.

Create HintDb gateway.

Module GwApp.
Import Budget.Budget GwConfig GwKeying.

(** ** State *)

Record row := mkRow {
  response_body : string;
  response_status_code : Z;
  original_wallclock_ms : Z;
  original_backend_name : option string;
  recorded_at_ms : Z;
  hit_count : nat
}.

Record CacheStats := mkStats { hits : nat; misses : nat; records : nat; errors : nat }.

Record cache := mkCache { entries : gmap string row; stats : CacheStats }.

(** What was sent upstream. *)
Record post := mkPost {
  post_url : string; post_body : list (string * pyval); post_headers : list (string * string); post_timeout : Q
}.

Record health := mkHealth { last_ok_ts : option Q; last_err : option string }.

(** The process-wide [_state], with the log of the upstream calls made. *)
Record gateway := mkGateway {
  gw_cache : option cache;
  backend_health : list (string * health);
  cache_request_count : nat;
  gw_posts : list post
}.

(** ** The world of one request *)

Inductive post_result :=
| PostTransient (cls msg : string)
| PostError (cls msg : string)
| PostReply (status : Z) (headers : list (string * string)) (content : string).

Record gw_world := mkGwWorld {
  w_reply : nat → post_result;
  w_entra : string → string → res string;
  w_gcp : string → res string;
  w_decode : string → string;
  w_select_fails : bool;
  w_bump_fails : bool;
  w_upsert_fails : bool;
  w_now_ms : Z;
  w_forward_ms : Z;
  w_time : Q;
  w_debug_miss : bool
}.

(** [f"{x:.6f}"] *)
Class FixedFormat := fixed6 : Q → string.

(** ** The handler's monad: a state that survives an exception *)

Definition G (A : Type) : Type := gateway → res A * gateway.
#[export] Instance G_ret : MRet G := λ A a s, (Ok a, s).
#[export] Instance G_bind : MBind G := λ A B f m s,
  match m s with (Ok a, s') => f a s' | (Raise e, s') => (Raise e, s') end.
Definition gget : G gateway := λ s, (Ok s, s).
Definition gmod (f : gateway → gateway) : G unit := λ s, (Ok tt, f s).
Definition glift {A} (r : res A) : G A := λ s, (r, s).

Definition with_cache (s : gateway) (c : cache) : gateway :=
  mkGateway (Some c) (backend_health s) (cache_request_count s) (gw_posts s).

(** ** The cache *)

Definition count_stats (dh dm dr de : nat) (st : CacheStats) : CacheStats :=
  mkStats (hits st + dh) (misses st + dm) (records st + dr) (errors st + de).

Definition bump (r : row) : row :=
  mkRow (response_body r) (response_status_code r) (original_wallclock_ms r)
    (original_backend_name r) (recorded_at_ms r) (S (hit_count r)).

(** [Cache.get]: the entry as served, with the hit counted even when the row's
    own counter cannot be written. *)
Definition cache_get (w : gw_world) (key : string) (c : cache) : option row * cache :=
  if w_select_fails w then (None, mkCache (entries c) (count_stats 0 0 0 1 (stats c)))
  else match entries c !! key with
  | None => (None, mkCache (entries c) (count_stats 0 1 0 0 (stats c)))
  | Some r =>
      if w_bump_fails w then (Some (bump r), mkCache (entries c) (count_stats 1 0 0 1 (stats c)))
      else (Some (bump r), mkCache (<[key := bump r]> (entries c)) (count_stats 1 0 0 0 (stats c)))
  end.

(** [Cache.put]: an upsert; an existing row keeps its hit count. *)
Definition cache_put (w : gw_world) (key body : string) (status ms : Z) (backend : option string)
    (c : cache) : cache :=
  if w_upsert_fails w then mkCache (entries c) (count_stats 0 0 0 1 (stats c))
  else
    let hc := match entries c !! key with Some r => hit_count r | None => 0%nat end in
    mkCache (<[key := mkRow body status ms backend (w_now_ms w) hc]> (entries c))
      (count_stats 0 0 1 0 (stats c)).

Definition reset_session_counters (c : cache) : cache := mkCache (entries c) (mkStats 0 0 0 0).

Definition hit_rate (st : CacheStats) : option Q :=
  let total := (hits st + misses st)%nat in
  if (0 <? total)%nat then Some (inject_Z (Z.of_nat (hits st)) / inject_Z (Z.of_nat total))%Q else None.

(** ** Forwarding *)

Definition HEADER_BUG_ID : string := "x-sdlcma-bug-id".
Definition HEADER_ATTEMPT : string := "x-sdlcma-attempt".
Definition HEADER_BACKEND : string := "x-sdlcma-backend-name".
Definition HEADER_CACHE_RESULT : string := "x-sdlcma-cache".
Definition HEADER_CACHE_KEY : string := "x-sdlcma-cache-key".
Definition HEADER_COST_USD : string := "x-sdlcma-cost-usd".

Definition TRANSIENT_RETRY_DELAYS : list Q := [1%Q; 2%Q].
Definition TRANSIENT_STATUS_CODES : list Z := [429; 500; 502; 503; 504]%Z.

Inductive outcome :=
| OkReply (status : Z) (headers : list (string * string)) (body : pyval)
| Failed (status : Z) (headers : list (string * string)) (body_bytes error : string).

Definition lower_headers (h : list (string * string)) : list (string * string) :=
  fold_left (λ d '(k, v), dict_set (str_lower k) v d) h [].

Section app.
Context {Hrepr : FloatRepr} {Hparse : FloatParse} {Hfmt : FixedFormat}.
Context (w : gw_world).

Definition safe_json (data : string) : pyval :=
  match json_loads data with Some v => v | None => PDict [("raw", PStr (w_decode w data))] end.

Definition bearer_for (b : BackendConfig) : res string :=
  if bool_decide (auth b = "entra") then w_entra w (entra_scope b) (entra_client_id b)
  else if bool_decide (auth b = "gcp") then w_gcp w (gcp_scope b)
  else Ok (api_key b).

(** What one reply means: the end of the loop, or one more try. *)
Definition judge_reply (r : post_result) : outcome * bool :=
  match r with
  | PostTransient cls msg => (Failed 502 [] "" (cls +:+ ": " +:+ msg), true)
  | PostError cls msg => (Failed 502 [] "" (cls +:+ ": " +:+ msg), false)
  | PostReply status headers content =>
      let headers := lower_headers headers in
      if (status <? 400)%Z then (OkReply status headers (safe_json content), false)
      else (Failed status headers content ("upstream " +:+ str_of_Z status),
            mem status TRANSIENT_STATUS_CODES)
  end.

(** The loop over the attempts: the outcome and how many posts were made. *)
Fixpoint post_loop (delays : list Q) (i : nat) : outcome * nat :=
  let '(o, retry) := judge_reply (w_reply w i) in
  match delays with
  | _ :: delays' => if retry then post_loop delays' (S i) else (o, S i)
  | [] => (o, S i)
  end.

(** The one request that is sent, however often. *)
Definition request_for (b : BackendConfig) (bearer : string) (body : list (string * pyval))
    (attempt : Z) (bug_id : option string) : post :=
  let headers := [("authorization", "Bearer " +:+ bearer); ("content-type", "application/json");
                  ("accept", "application/json")] in
  let headers := match bug_id with
                 | Some (String _ _ as b) => dict_set HEADER_BUG_ID b headers
                 | _ => headers
                 end in
  mkPost (str_rstrip (λ c, ch_eq c "/") (base_url b) +:+ "/chat/completions")
    (apply_param_profile (dict_set "model" (PStr (model b)) body) b)
    (dict_set HEADER_ATTEMPT (str_of_Z attempt) headers) (request_timeout b).

Definition log_posts (ps : list post) (s : gateway) : gateway :=
  mkGateway (gw_cache s) (backend_health s) (cache_request_count s) (gw_posts s ++ ps).

Definition forward (b : BackendConfig) (body : list (string * pyval)) (attempt : Z)
    (bug_id : option string) : G outcome :=
  match bearer_for b with
  | Raise e =>
      if mem (exn_class e) ["GatewayAuthError"; "GcpAuthError"]
      then mret (Failed 502 [] "" (exn_class e +:+ ": " +:+ exn_msg e))
      else glift (Raise e)
  | Ok bearer =>
      let '(o, n) := post_loop TRANSIENT_RETRY_DELAYS 0 in
      _ ← gmod (log_posts (List.repeat (request_for b bearer body attempt bug_id) n));
      mret o
  end.

(** ** The handler *)

Record reply := mkReply {
  reply_status : Z; reply_content : pyval; reply_headers : list (string * string)
}.

Definition http_exception (code : Z) (detail : string) : exn :=
  Exn "HTTPException" (str_of_Z code +:+ ": " +:+ detail).

Definition mark_backend (name : string) (f : health → health) (s : gateway) : gateway :=
  mkGateway (gw_cache s)
    (dict_set name (f (default (mkHealth None None) (dict_get name (backend_health s)))) (backend_health s))
    (cache_request_count s) (gw_posts s).
Definition mark_ok (_ : health) : health := mkHealth (Some (w_time w)) None.
Definition mark_err (e : string) (h : health) : health := mkHealth (last_ok_ts h) (Some e).

(** [_maybe_emit_cache_summary], for its effect on the counter. *)
Definition count_request (cfg : GatewayConfig) (s : gateway) : gateway :=
  match gw_cache s with
  | Some _ =>
      if (log_every_n (cache_config cfg) <=? 0)%Z then s
      else mkGateway (gw_cache s) (backend_health s) (S (cache_request_count s)) (gw_posts s)
  | None => s
  end.

Definition record_spend (b : BackendConfig) (body : pyval) : res (option Q) :=
  usage ← extract_usage body;
  mret (cost_of (pricing b) usage).

Definition record_cache_saving (cfg : GatewayConfig) (name : option string) (body : pyval) :
    res (option Q) :=
  match name with
  | Some (String _ _ as n) =>
      match dict_get n (backends_by_name cfg) with
      | None => mret None
      | Some b => usage ← extract_usage body; mret (cost_of (pricing b) usage)
      end
  | _ => mret None
  end.

(** A recorded response is served: no call, no cost. *)
Definition serve_hit (cfg : GatewayConfig) (key : string) (e : row) : G reply :=
  _ ← gmod (count_request cfg);
  let body := safe_json (response_body e) in
  saved ← glift (record_cache_saving cfg (original_backend_name e) body);
  let name := match original_backend_name e with Some (String _ _ as n) => n | _ => "cache" end in
  mret (mkReply (response_status_code e) body
          ([(HEADER_BACKEND, name); (HEADER_CACHE_RESULT, "hit"); (HEADER_CACHE_KEY, short_key key);
            (HEADER_COST_USD, "0")]
           ++ match saved with
              | Some q => if Qeq_bool q 0 then [] else [("x-sdlcma-cost-saved-usd", fixed6 q)]
              | None => []
              end)).

Definition serve_replay_miss (cfg : GatewayConfig) (key : string) : G reply :=
  _ ← gmod (count_request cfg);
  mret (mkReply (if w_debug_miss w then 404 else 409)
          (PDict [("error", PDict [("message", PStr "cache miss in replay mode");
                                   ("type", PStr "cache_miss_replay");
                                   ("cache_key", PStr (short_key key))])])
          [(HEADER_CACHE_RESULT, "miss"); (HEADER_CACHE_KEY, short_key key)]).

Definition set_headers (extra headers : list (string * string)) : list (string * string) :=
  fold_left (λ d '(k, v), dict_set k v d) extra headers.

Definition reply_base_headers (b : BackendConfig) (headers : list (string * string)) :
    list (string * string) :=
  fold_left (λ d k, dict_pop k d) ["content-length"; "content-encoding"; "transfer-encoding"]
    (dict_set HEADER_BACKEND (be_name b) headers).

(** What an upstream success leads to: the spend, the recording, the headers. *)
Definition serve_ok (cfg : GatewayConfig) (b : BackendConfig) (key : string) (status : Z)
    (headers : list (string * string)) (body : pyval) : G reply :=
  _ ← gmod (mark_backend (be_name b) mark_ok);
  spend ← glift (record_spend b body);
  let headers := reply_base_headers b headers in
  let headers := match spend with
                 | Some q => dict_set HEADER_COST_USD (fixed6 q) headers
                 | None => headers
                 end in
  s ← gget;
  headers ←
    match gw_cache s with
    | None => mret headers
    | Some c =>
        if mem (mode (cache_config cfg)) ["record"; "cache"] then
          _ ← gmod (λ s, with_cache s (cache_put w key (json_dumps default_opts body) status
                                         (w_forward_ms w) (Some (be_name b)) c));
          mret (set_headers [(HEADER_CACHE_RESULT, "miss"); (HEADER_CACHE_KEY, short_key key)] headers)
        else mret (dict_set HEADER_CACHE_RESULT "disabled" headers)
    end;
  _ ← gmod (count_request cfg);
  mret (mkReply status body headers).

Definition serve_failure (b : BackendConfig) (status : Z) (headers : list (string * string))
    (body_bytes error : string) : G reply :=
  _ ← gmod (mark_backend (be_name b) (mark_err error));
  let headers := reply_base_headers b headers in
  match body_bytes with
  | EmptyString =>
      mret (mkReply 502
              (PDict [("error", PDict
                 [("message", PStr ("backend " +:+ repr_str (be_name b) +:+ " unreachable: " +:+ error));
                  ("type", PStr "gateway_upstream_unreachable"); ("backend", PStr (be_name b))])])
              headers)
  | _ => mret (mkReply status (safe_json body_bytes) headers)
  end.

Definition forward_and_serve (cfg : GatewayConfig) (key : string) (body : list (string * pyval))
    (attempt : Z) (bug_id : option string) : G reply :=
  sel ← glift (select cfg attempt);
  o ← forward (sel_backend sel) body attempt bug_id;
  match o with
  | OkReply status headers body => serve_ok cfg (sel_backend sel) key status headers body
  | Failed status headers bytes error => serve_failure (sel_backend sel) status headers bytes error
  end.

(** The lookup, in the modes that look up. *)
Definition lookup_cache (cfg : GatewayConfig) (key : string) : G (option row) :=
  s ← gget;
  match gw_cache s with
  | Some c =>
      if mem (mode (cache_config cfg)) ["replay"; "cache"] then
        let '(e, c') := cache_get w key c in _ ← gmod (λ s, with_cache s c'); mret e
      else mret None
  | None => mret None
  end.

Definition chat_completions (cfg : GatewayConfig) (attempt_header bug_header : option string)
    (raw_body : string) : G reply :=
  let attempt := parse_attempt_header attempt_header in
  let bug_id := match bug_header with Some (String _ _ as b) => Some b | _ => None end in
  match json_loads raw_body with
  | None => glift (Raise (http_exception 400 "request body is not valid JSON"))
  | Some (PDict body) =>
      s ← gget;
      let cached := match gw_cache s with Some _ => true | None => false end in
      let key := if cached then derive_key body (normalize_content (cache_config cfg)) else "" in
      hit ← lookup_cache cfg key;
      match hit with
      | Some e => serve_hit cfg key e
      | None =>
          if cached && bool_decide (mode (cache_config cfg) = "replay")
          then serve_replay_miss cfg key
          else forward_and_serve cfg key body attempt bug_id
      end
  | Some _ => glift (Raise (http_exception 400 "request body must be a JSON object"))
  end.

(** ** Reasoning *)

Lemma bind_unfold {A B} (m : G A) (f : A → G B) s :
  (m ≫= f) s = match m s with (Ok a, s') => f a s' | (Raise e, s') => (Raise e, s') end.
Proof. done. Qed.

Definition keeps {A} (R : gateway → gateway → Prop) (m : G A) : Prop := ∀ s, R s (m s).2.

Section keeps.
Context (R : gateway → gateway → Prop) `{!Reflexive R, !Transitive R}.

Lemma keeps_ret {A} (a : A) : keeps R (mret a).
Proof. intros s. reflexivity. Qed.
Lemma keeps_lift {A} (r : res A) : keeps R (glift r).
Proof. intros s. reflexivity. Qed.
Lemma keeps_get : keeps R gget.
Proof. intros s. reflexivity. Qed.
Lemma keeps_mod f : (∀ s, R s (f s)) → keeps R (gmod f).
Proof. intros H s. apply H. Qed.
Lemma keeps_bind {A B} (m : G A) (f : A → G B) : keeps R m → (∀ a, keeps R (f a)) → keeps R (m ≫= f).
Proof.
  intros Hm Hf s. specialize (Hm s). unfold mbind, G_bind. destruct (m s) as [[a|e] s']; simpl in *; [|done].
  etrans; [exact Hm|apply Hf].
Qed.
End keeps.

Hint Resolve keeps_ret keeps_lift keeps_get keeps_mod keeps_bind : gateway.

(** The requests sent upstream, and the table, are what a relation is about. *)
Definition same_posts (s s' : gateway) : Prop := gw_posts s' = gw_posts s.
#[local] Instance same_posts_refl : Reflexive same_posts.
Proof. done. Qed.
#[local] Instance same_posts_trans : Transitive same_posts.
Proof. intros a b c H1 H2. unfold same_posts in *. congruence. Qed.

Lemma count_request_posts cfg s : same_posts s (count_request cfg s).
Proof. unfold same_posts, count_request. by repeat case_match. Qed.
Hint Resolve count_request_posts : gateway.

Lemma serve_hit_posts cfg key e : keeps same_posts (serve_hit cfg key e).
Proof. unfold serve_hit. eauto 8 with gateway typeclass_instances. Qed.

Lemma serve_replay_miss_posts cfg key : keeps same_posts (serve_replay_miss cfg key).
Proof. unfold serve_replay_miss. eauto 8 with gateway typeclass_instances. Qed.

Lemma lookup_cache_posts cfg key : keeps same_posts (lookup_cache cfg key).
Proof.
  unfold lookup_cache. apply keeps_bind; [apply _|apply keeps_get; apply _|]. intros s.
  destruct (gw_cache s); [|apply keeps_ret; apply _]. destruct (mem _ _); [|apply keeps_ret; apply _].
  destruct (cache_get w key c) as [e c']. apply keeps_bind; [apply _| |intros; apply keeps_ret; apply _].
  by apply keeps_mod.
Qed.

(** In replay mode the gateway never calls a backend, whatever the request,
    the cache, the clock and the database do. *)
Theorem replay_never_forwards (cfg : GatewayConfig) (attempt_header bug_header : option string)
    (raw_body : string) (s : gateway) (c : cache) :
  gw_cache s = Some c → mode (cache_config cfg) = "replay" →
  gw_posts (chat_completions cfg attempt_header bug_header raw_body s).2 = gw_posts s.
Proof.
  intros Hc Hm. unfold chat_completions. cbv zeta. destruct (json_loads raw_body) as [[| | | | | |body]|]; try done.
  unfold mbind, G_bind at 1, gget. rewrite Hc, Hm. cbv beta iota. rewrite (bool_decide_eq_true_2 ("replay" = "replay")) by done.
  set (key := derive_key body _). cbn [andb].
  apply (keeps_bind same_posts (lookup_cache cfg key) _ (lookup_cache_posts cfg key)).
  intros [e|]; [apply serve_hit_posts|apply serve_replay_miss_posts].
Qed.

(** ** The retry loop *)

Lemma post_loop_spec delays i :
  ∃ k, (k ≤ List.length delays)%nat ∧
    post_loop delays i = ((judge_reply (w_reply w (i + k)%nat)).1, S (i + k)) ∧
    (∀ j, (j < k)%nat → (judge_reply (w_reply w (i + j)%nat)).2 = true) ∧
    (k = List.length delays ∨ (judge_reply (w_reply w (i + k)%nat)).2 = false).
Proof.
  revert i. induction delays as [|d delays IH]; intros i; cbn [post_loop];
    destruct (judge_reply (w_reply w i)) as [o retry] eqn:E.
  - exists 0%nat. rewrite Nat.add_0_r, E. repeat split; [simpl; lia|lia|by left].
  - destruct retry.
    + destruct (IH (S i)) as (k & Hk & -> & Hpre & Hend). exists (S k).
      rewrite <- Nat.add_succ_comm in *. repeat split; [simpl; lia| |].
      * intros [|j] Hj; [by rewrite Nat.add_0_r, E|]. rewrite <- Nat.add_succ_comm. apply Hpre. lia.
      * destruct Hend as [->|Hend]; [by left|by right].
    + exists 0%nat. rewrite Nat.add_0_r, E. repeat split; [simpl; lia|lia|by right].
Qed.

(** Forwarding sends one and the same request, to the backend's own URL and
    with its own model, at most three times: again only after a reply that is
    worth another try, and what comes back is what the last reply says. *)
Theorem forward_spec (b : BackendConfig) (body : list (string * pyval)) (attempt : Z)
    (bug_id : option string) (bearer : string) (s : gateway) :
  bearer_for b = Ok bearer →
  ∃ k, (k ≤ 2)%nat ∧
    forward b body attempt bug_id s =
      (Ok (judge_reply (w_reply w k)).1,
       log_posts (List.repeat (request_for b bearer body attempt bug_id) (S k)) s) ∧
    (∀ j, (j < k)%nat → (judge_reply (w_reply w j)).2 = true) ∧
    (k = 2%nat ∨ (judge_reply (w_reply w k)).2 = false).
Proof.
  intros Hb. unfold forward. rewrite Hb.
  destruct (post_loop_spec TRANSIENT_RETRY_DELAYS 0) as (k & Hk & -> & Hpre & Hend).
  exists k. split; [exact Hk|]. split; [done|]. split; [exact Hpre|exact Hend].
Qed.

(** A failure never has the status of a success. *)
Lemma judge_failed r status headers bytes e :
  (judge_reply r).1 = Failed status headers bytes e → (400 ≤ status)%Z.
Proof.
  destruct r as [| |st h ct]; simpl; [intros [= <-]; lia|intros [= <-]; lia|].
  destruct (Z.ltb_spec st 400); simpl; [done|]. by intros [= <-].
Qed.

Lemma judge_ok r status headers v :
  (judge_reply r).1 = OkReply status headers v → (status < 400)%Z.
Proof.
  destruct r as [| |st h ct]; simpl; [done|done|].
  destruct (Z.ltb_spec st 400); simpl; [|done]. by intros [= <-].
Qed.

Lemma forward_outcome b body attempt bug_id s :
  match (forward b body attempt bug_id s).1 with
  | Ok (OkReply status _ _) => (status < 400)%Z
  | Ok (Failed status _ _ _) => (400 ≤ status)%Z
  | Raise _ => True
  end.
Proof.
  unfold forward. destruct (bearer_for b) as [bearer|e]; [|by destruct (mem _ _)].
  destruct (post_loop_spec TRANSIENT_RETRY_DELAYS 0) as (k & _ & -> & _). simpl fst.
  destruct (judge_reply _) as [[st h v|st h bs e] r] eqn:E; simpl.
  - exact (judge_ok (w_reply w k) st h v (f_equal fst E)).
  - exact (judge_failed (w_reply w k) st h bs e (f_equal fst E)).
Qed.

Lemma forward_cache b body attempt bug_id s : gw_cache (forward b body attempt bug_id s).2 = gw_cache s.
Proof.
  unfold forward. destruct (bearer_for b) as [bearer|e]; [|by destruct (mem _ _)].
  by destruct (post_loop _ _).
Qed.

(** ** What is in the table *)

(** A recorded response is a success, and its body is JSON text. *)
Definition good_row (r : row) : Prop :=
  (response_status_code r < 400)%Z ∧ ∃ v, response_body r = json_dumps default_opts v.

Definition good_cache (s : gateway) : Prop :=
  match gw_cache s with Some c => map_Forall (λ _, good_row) (entries c) | None => True end.

Definition keeps_good (s s' : gateway) : Prop := good_cache s → good_cache s'.
#[local] Instance keeps_good_refl : Reflexive keeps_good.
Proof. intros s H. exact H. Qed.
#[local] Instance keeps_good_trans : Transitive keeps_good.
Proof. intros a b c H1 H2 H. auto. Qed.

Lemma same_cache_good s s' : gw_cache s' = gw_cache s → keeps_good s s'.
Proof. intros H. unfold keeps_good, good_cache. by rewrite H. Qed.

Lemma count_request_cache cfg s : gw_cache (count_request cfg s) = gw_cache s.
Proof. unfold count_request. by repeat case_match. Qed.

Lemma count_request_good cfg : keeps keeps_good (gmod (count_request cfg)).
Proof. intros s. apply same_cache_good, count_request_cache. Qed.

Lemma cache_get_good key c :
  map_Forall (λ _, good_row) (entries c) → map_Forall (λ _, good_row) (entries (cache_get w key c).2).
Proof.
  intros Hc. unfold cache_get. destruct (w_select_fails w); [done|].
  destruct (entries c !! key) as [r|] eqn:E; [|done]. destruct (w_bump_fails w); [done|].
  apply map_Forall_insert_2; [|done]. exact (Hc _ _ E).
Qed.

Lemma lookup_cache_good cfg key : keeps keeps_good (lookup_cache cfg key).
Proof.
  intros s Hs. unfold lookup_cache, mbind, G_bind, gget. unfold good_cache in Hs.
  destruct (gw_cache s) as [c|] eqn:E; [|by unfold good_cache; simpl; rewrite E].
  destruct (mem _ _); [|by unfold good_cache; simpl; rewrite E].
  pose proof (cache_get_good key c Hs) as H. by destruct (cache_get w key c) as [e c'].
Qed.

Lemma serve_ok_good cfg b key status headers body :
  (status < 400)%Z → keeps keeps_good (serve_ok cfg b key status headers body).
Proof.
  intros Hst. unfold serve_ok.
  apply keeps_bind; [apply _|by apply keeps_mod; intros s; apply same_cache_good|]. intros _.
  apply keeps_bind; [apply _|apply keeps_lift; apply _|]. intros spend. cbv zeta.
  intros s Hs. unfold mbind at 1, G_bind at 1, gget.
  destruct (gw_cache s) as [c|] eqn:E.
  - destruct (mem (mode (cache_config cfg)) ["record"; "cache"]).
    + unfold mbind, G_bind, gmod, mret, G_ret. simpl.
      apply (same_cache_good (with_cache s (cache_put w key (json_dumps default_opts body) status
        (w_forward_ms w) (Some (be_name b)) c))); [apply count_request_cache|].
      unfold good_cache in *. rewrite E in Hs. simpl. unfold cache_put.
      destruct (w_upsert_fails w); [done|]. simpl. apply map_Forall_insert_2; [|done].
      split; simpl; eauto.
    + unfold mbind, G_bind, gmod, mret, G_ret. simpl.
      by apply (same_cache_good s); [apply count_request_cache|].
  - unfold mbind, G_bind, gmod, mret, G_ret. simpl.
    by apply (same_cache_good s); [apply count_request_cache|].
Qed.

Lemma serve_failure_good b status headers bytes e :
  keeps keeps_good (serve_failure b status headers bytes e).
Proof.
  unfold serve_failure. apply keeps_bind; [apply _|by apply keeps_mod; intros s; apply same_cache_good|].
  intros _. destruct bytes; apply keeps_ret; apply _.
Qed.

Lemma forward_and_serve_good cfg key body attempt bug_id :
  keeps keeps_good (forward_and_serve cfg key body attempt bug_id).
Proof.
  unfold forward_and_serve. apply keeps_bind; [apply _|apply keeps_lift; apply _|]. intros sel s Hs.
  unfold mbind, G_bind.
  pose proof (forward_outcome (sel_backend sel) body attempt bug_id s) as Ho.
  pose proof (same_cache_good s _ (forward_cache (sel_backend sel) body attempt bug_id s) Hs) as Hf.
  destruct (forward (sel_backend sel) body attempt bug_id s) as [[[st h v|st h bs e]|e] s']; simpl in *; [..|done].
  - by apply serve_ok_good.
  - by apply serve_failure_good.
Qed.

(** Whatever requests come in and however the backends behave, the table
    only ever holds successes, as JSON text: an error is never recorded, so it
    is never replayed. *)
Theorem cache_holds_successes (cfg : GatewayConfig) (attempt_header bug_header : option string)
    (raw_body : string) (s : gateway) :
  good_cache s → good_cache (chat_completions cfg attempt_header bug_header raw_body s).2.
Proof.
  revert s. change (keeps keeps_good (chat_completions cfg attempt_header bug_header raw_body)).
  unfold chat_completions. cbv zeta. destruct (json_loads raw_body) as [[| | | | | |body]|];
    try (apply keeps_lift; apply _).
  apply keeps_bind; [apply _|apply keeps_get; apply _|]. intros s0.
  apply keeps_bind; [apply _|apply lookup_cache_good|]. intros [e|].
  - unfold serve_hit. apply keeps_bind; [apply _|apply count_request_good|]. intros _.
    apply keeps_bind; [apply _|apply keeps_lift; apply _|]. intros saved. apply keeps_ret; apply _.
  - destruct (_ && _).
    + unfold serve_replay_miss. apply keeps_bind; [apply _|apply count_request_good|]. intros _.
      apply keeps_ret; apply _.
    + apply forward_and_serve_good.
Qed.

(** ** Recording, then replaying *)

(** What the recording of a served success leaves in the table. *)
Lemma serve_ok_records cfg b key status headers body s r s' c :
  serve_ok cfg b key status headers body s = (Ok r, s') → gw_cache s = Some c →
  mem (mode (cache_config cfg)) ["record"; "cache"] = true → w_upsert_fails w = false →
  is_ok (extract_usage body) = true ∧
  ∃ c' rw, gw_cache s' = Some c' ∧ entries c' !! key = Some rw ∧
    response_status_code rw = reply_status r ∧
    response_body rw = json_dumps default_opts (reply_content r) ∧ reply_content r = body.
Proof.
  intros H Hc Hm Hu. unfold serve_ok, mbind, G_bind, gmod, glift, gget, mret, G_ret in H.
  unfold record_spend in H. destruct (extract_usage body) as [usage|]; [|done]. split; [done|].
  change (gw_cache (mark_backend (be_name b) mark_ok s)) with (gw_cache s) in H.
  cbn [mbind res_bind mret res_ret fst snd] in H. rewrite Hc, Hm in H. injection H as <- <-.
  rewrite count_request_cache. simpl. unfold cache_put. rewrite Hu.
  eexists _, _. split; [done|]. simpl. by rewrite lookup_insert_eq.
Qed.

Lemma lookup_cache_present cfg key s c :
  gw_cache s = Some c → ∃ e c', (lookup_cache cfg key s) = (Ok e, with_cache s c').
Proof.
  intros Hc. unfold lookup_cache, mbind, G_bind, gget. rewrite Hc. destruct (mem _ _).
  - destruct (cache_get w key c) as [e c']. by exists e, c'.
  - exists None, c. unfold with_cache. rewrite <- Hc. by destruct s.
Qed.

Lemma forwarded_records cfg attempt_header bug_header raw body s r s' c :
  json_loads raw = Some (PDict body) → gw_cache s = Some c →
  mem (mode (cache_config cfg)) ["record"; "cache"] = true → w_upsert_fails w = false →
  chat_completions cfg attempt_header bug_header raw s = (Ok r, s') →
  gw_posts s' ≠ gw_posts s → (reply_status r < 400)%Z →
  is_ok (extract_usage (reply_content r)) = true ∧
  ∃ c' rw, gw_cache s' = Some c' ∧
    entries c' !! derive_key body (normalize_content (cache_config cfg)) = Some rw ∧
    response_status_code rw = reply_status r ∧
    response_body rw = json_dumps default_opts (reply_content r).
Proof.
  intros Hraw Hc Hm Hu H Hposts Hst. unfold chat_completions in H. cbv zeta in H.
  rewrite Hraw in H. unfold mbind at 1, G_bind at 1, gget in H. rewrite Hc in H.
  set (key := derive_key body _) in *. rewrite bind_unfold in H.
  destruct (lookup_cache_present cfg key s c Hc) as (e & c1 & Hl). rewrite Hl in H.
  destruct e as [e|].
  { pose proof (serve_hit_posts cfg key e (with_cache s c1)) as Hp. rewrite H in Hp.
    exfalso. apply Hposts. exact Hp. }
  assert (bool_decide (mode (cache_config cfg) = "replay") = false) as Hnr.
  { apply bool_decide_eq_false. intros E. by rewrite E in Hm. }
  rewrite Hnr in H. cbn [andb] in H. unfold forward_and_serve in H. rewrite bind_unfold in H.
  unfold glift in H at 1. destruct (select cfg _) as [sel|]; [|done]. rewrite bind_unfold in H.
  set (s1 := with_cache s c1) in *.
  pose proof (forward_outcome (sel_backend sel) body (parse_attempt_header attempt_header)
    (match bug_header with Some (String _ _ as b) => Some b | _ => None end) s1) as Ho.
  pose proof (forward_cache (sel_backend sel) body (parse_attempt_header attempt_header)
    (match bug_header with Some (String _ _ as b) => Some b | _ => None end) s1) as Hfc.
  destruct (forward _ _ _ _ s1) as [[[st h v|st h bs e]|e] s2]; [..|done]; simpl in Ho, Hfc.
  - destruct (serve_ok_records cfg (sel_backend sel) key st h v s2 r s' c1) as (Hok & c' & rw & ? & ? & ? & ? & Hv);
      [done| |done|done|]; [by rewrite Hfc|]. rewrite Hv in *. eauto 10.
  - unfold serve_failure in H. exfalso. destruct bs; injection H as <- <-; simpl in Hst; lia.
Qed.

End app.

(** A recorded answer is served in replay mode, with no call and at no cost. *)
Lemma replay_serves `{FloatRepr, FloatParse, FixedFormat} (w : gw_world) (cfg : GatewayConfig)
    (attempt_header bug_header : option string) (raw : string) (body : list (string * pyval))
    (s : gateway) (c : cache) (rw : row) (v : pyval) :
  json_loads raw = Some (PDict body) → mode (cache_config cfg) = "replay" → w_select_fails w = false →
  gw_cache s = Some c → entries c !! derive_key body (normalize_content (cache_config cfg)) = Some rw →
  response_body rw = json_dumps default_opts v → json_ok v → is_ok (extract_usage v) = true →
  ∃ r s2, chat_completions w cfg attempt_header bug_header raw s = (Ok r, s2) ∧
    reply_status r = response_status_code rw ∧ reply_content r = v ∧
    dict_get HEADER_COST_USD (reply_headers r) = Some "0" ∧ gw_posts s2 = gw_posts s.
Proof.
  intros Hraw Hm Hsel Hc Hrow Hb Hok Huse.
  unfold chat_completions. cbv zeta. rewrite Hraw. unfold mbind at 1, G_bind at 1, gget. rewrite Hc.
  set (key := derive_key body _) in *.
  rewrite bind_unfold. unfold lookup_cache. rewrite bind_unfold. unfold gget. rewrite Hc, Hm.
  change (mem "replay" ["replay"; "cache"]) with true. cbv iota. unfold cache_get. rewrite Hsel, Hrow.
  assert (∀ c2, ∃ r s2, serve_hit w cfg key (bump rw) (with_cache s c2) = (Ok r, s2) ∧
    reply_status r = response_status_code rw ∧ reply_content r = v ∧
    dict_get HEADER_COST_USD (reply_headers r) = Some "0") as Hserve.
  { intros c2. unfold serve_hit, mbind, G_bind, gmod, glift, mret, G_ret. cbv zeta.
    change (response_body (bump rw)) with (response_body rw). rewrite Hb.
    assert (safe_json w (json_dumps default_opts v) = v) as ->.
    { unfold safe_json. rewrite (json_loads_dumps default_opts); [by rewrite canon_unsorted| |done].
      by split; right. }
    unfold record_cache_saving. destruct (extract_usage v) as [usage|]; [|done].
    destruct (original_backend_name (bump rw)) as [[|a n]|]; try destruct (dict_get (String a n) _);
      eexists _, _; (split; [reflexivity|]); done. }
  assert (∀ c2, gw_posts (serve_hit w cfg key (bump rw) (with_cache s c2)).2 = gw_posts s) as Hsame.
  { intros c2. exact (serve_hit_posts w cfg _ (bump rw) (with_cache s c2)). }
  destruct (w_bump_fails w); unfold gmod, mret, G_ret, mbind, G_bind; cbv iota beta;
    match goal with |- context [serve_hit _ _ _ _ (with_cache s ?c2)] =>
      destruct (Hserve c2) as (r2 & s2 & E & ? & ? & ?); specialize (Hsame c2); rewrite E in *; eauto 10 end.
Qed.

(** What a request was answered is what the same request is answered again
    in replay mode: the status and the body, with no call and at no cost. *)
Theorem record_then_replay `{FloatRepr, FloatParse, FixedFormat} (w w2 : gw_world)
    (cfg cfg2 : GatewayConfig) (attempt_header bug_header attempt2 bug2 : option string)
    (raw raw2 : string) (body body2 : list (string * pyval)) (s s' : gateway) (c : cache) (r : reply) :
  json_loads raw = Some (PDict body) → gw_cache s = Some c →
  mem (mode (cache_config cfg)) ["record"; "cache"] = true → w_upsert_fails w = false →
  chat_completions w cfg attempt_header bug_header raw s = (Ok r, s') →
  gw_posts s' ≠ gw_posts s → (reply_status r < 400)%Z → json_ok (reply_content r) →
  json_loads raw2 = Some (PDict body2) → mode (cache_config cfg2) = "replay" →
  w_select_fails w2 = false →
  derive_key body2 (normalize_content (cache_config cfg2)) =
    derive_key body (normalize_content (cache_config cfg)) →
  ∃ r2 s2, chat_completions w2 cfg2 attempt2 bug2 raw2 s' = (Ok r2, s2) ∧
    reply_status r2 = reply_status r ∧ reply_content r2 = reply_content r ∧
    dict_get HEADER_COST_USD (reply_headers r2) = Some "0" ∧ gw_posts s2 = gw_posts s'.
Proof.
  intros Hraw Hc Hm Hu Hrun Hposts Hst Hok Hraw2 Hm2 Hsel Hkey.
  destruct (forwarded_records w cfg attempt_header bug_header raw body s r s' c
    Hraw Hc Hm Hu Hrun Hposts Hst) as (Huse & c' & rw & Hc' & Hrow & Hs & Hb).
  destruct (replay_serves w2 cfg2 attempt2 bug2 raw2 body2 s' c' rw (reply_content r))
    as (r2 & s2 & ? & Hst2 & ?); try done; [by rewrite Hkey|].
  exists r2, s2. by rewrite Hst2, Hs.
Qed.

(** ** A concrete gateway *)

#[local] Instance sample_repr : FloatRepr := λ _, "0.5".
#[local] Instance sample_parse : FloatParse := λ _, None.
#[local] Instance sample_fixed : FixedFormat := λ _, "0.000001".

(** The backend is overloaded once, then answers. *)
Definition sample_world : gw_world := mkGwWorld
  (λ i, match i with
        | O => PostReply 503 [] "busy"
        | _ => PostReply 200 [("Content-Length", "9")] (json_dumps default_opts (PDict [("id", PStr "x")]))
        end)
  (λ _ _, Ok "token") (λ _, Ok "token") id false false false 1000 20 0 false.

(** No backend answers. *)
Definition down_world : gw_world := mkGwWorld (λ _, PostTransient "ConnectError" "refused")
  (λ _ _, Ok "token") (λ _, Ok "token") id false false false 2000 20 0 false.

Definition fresh_gateway : gateway := mkGateway (Some (mkCache ∅ (mkStats 0 0 0 0))) [] 0 [].

Definition replay_config : GatewayConfig :=
  mkGatewayConfig (backends sample_config) (policy sample_config) (backends_by_name sample_config)
    (mkCacheConfig true "replay" (PStr "/tmp/c.db") false 100 false).

Definition sample_raw : string := json_dumps default_opts (PDict sample_body).
Definition sample_raw' : string := json_dumps default_opts (PDict sample_body').

Definition sample_run : res reply * gateway :=
  chat_completions sample_world sample_config None (Some "B1") sample_raw fresh_gateway.

Lemma replay_never_forwards_witness :
  gw_posts (chat_completions down_world replay_config None None sample_raw fresh_gateway).2 = [].
Proof.
  exact (replay_never_forwards down_world replay_config None None sample_raw fresh_gateway
           (mkCache ∅ (mkStats 0 0 0 0)) eq_refl eq_refl).
Defined.

Lemma forward_spec_witness :
  ∃ k, (k ≤ 2)%nat ∧
    forward sample_world sample_large [] 1 None fresh_gateway =
      (Ok (judge_reply sample_world (w_reply sample_world k)).1,
       log_posts (List.repeat (request_for sample_large "token" [] 1 None) (S k)) fresh_gateway) ∧
    (∀ j, (j < k)%nat → (judge_reply sample_world (w_reply sample_world j)).2 = true) ∧
    (k = 2%nat ∨ (judge_reply sample_world (w_reply sample_world k)).2 = false).
Proof. apply (forward_spec sample_world sample_large [] 1 None "token"). vm_compute. reflexivity. Defined.

Lemma cache_holds_successes_witness : good_cache sample_run.2.
Proof.
  unfold sample_run.
  apply (cache_holds_successes sample_world sample_config None (Some "B1") sample_raw fresh_gateway).
  unfold good_cache. cbn [fresh_gateway gw_cache entries]. apply map_Forall_empty.
Defined.

Definition sample_reply : reply :=
  match sample_run.1 with Ok r => r | Raise _ => mkReply 0 PNone [] end.

Lemma record_then_replay_witness :
  ∃ r2 s2, chat_completions down_world replay_config None None sample_raw' sample_run.2 = (Ok r2, s2) ∧
    reply_status r2 = reply_status sample_reply ∧ reply_content r2 = reply_content sample_reply ∧
    dict_get HEADER_COST_USD (reply_headers r2) = Some "0" ∧ gw_posts s2 = gw_posts sample_run.2.
Proof.
  apply (record_then_replay sample_world down_world sample_config replay_config None (Some "B1") None None
           sample_raw sample_raw' sample_body sample_body' fresh_gateway sample_run.2
           (mkCache ∅ (mkStats 0 0 0 0)) sample_reply).
  all: try (vm_compute; reflexivity).
  - vm_compute. discriminate.
  - apply json_ok_flat. vm_compute. reflexivity.
Defined.

End GwApp.
