(* ===== verification/CacheTransfer.v ===== *)
(** * Moving a response cache between machines

    Model of [tools/llm_cache_transfer.py] over the tables of
    [llm_gateway/cache.py].  A database in WAL mode keeps what was written
    last beside its file: a connection reads through it, a copy of the file does
    not.  Which statements fail, and how far a failing one got, is the engine's;
    what is printed, and the sizes of files, are left out.  Paths hold no character
    that a URI reserves. *)

From S2P Require Import Prelude PyStr Effects Budget PyJson PyJsonLoads GwConfig GwKeying GwApp.
Local Open Scope string_scope.
Local Open Scope list_scope.

Module CacheTransfer.
Import Budget.Budget GwApp.

(** ** Databases *)

Notation rows := (gmap string row).

(** The two tables, where they exist; of [meta], the value of [schema_version]. *)
Record tables := mkTables { t_meta : option (option string); t_entries : option rows }.
Definition no_tables : tables := mkTables None None.

(** What the file holds, what the log beside it holds, and the journal mode. *)
Record db := mkDb { in_file : tables; in_wal : option tables; wal_mode : bool }.

(** What a connection reads, what a copy of the file has, a write, a checkpoint. *)
Definition view (d : db) : tables := default (in_file d) (in_wal d).
Definition copied (d : db) : tables := in_file d.
Definition put (t : tables) (d : db) : db :=
  if wal_mode d then mkDb (in_file d) (Some t) true else mkDb t None false.
Definition checkpoint (d : db) : db := mkDb (view d) None (wal_mode d).
Definition new_db : db := mkDb no_tables None false.

Inductive file := Db (d : db) | Garbage.
Notation disk := (gmap string file).

(** The engine: what it refuses ([exn] classes of its errors are texts), how many
    rows of a refused batch went in, whether a connection is the last one. *)
Record engine := mkEngine {
  refuses : string → string → disk → option exn;
  went_in : string → list (string * row) → disk → nat;
  last_one : string → disk → bool
}.

Definition DATABASE_ERRORS : list string :=
  ["DatabaseError"; "OperationalError"; "IntegrityError"; "InternalError"; "ProgrammingError"; "DataError";
   "NotSupportedError"].
Definition is_database_error (e : exn) : bool := mem (exn_class e) DATABASE_ERRORS.
Definition transfer_error (m : string) : exn := Exn "TransferError" m.

Definition SCHEMA_VERSION : string := "1".
Definition BATCH : nat := 200.

Section engine.
Context (e : engine).

Definition ask (op p : string) : M disk unit :=
  f ← get; match refuses e op p f with Some ex => throw ex | None => mret tt end.

(** A statement that reads: through the log. *)
Definition query {A} (p : string) (q : tables → res A) : M disk A :=
  _ ← ask "select" p;
  f ← get;
  match f !! p with
  | Some (Db d) => lift (q (view d))
  | Some Garbage => throw (Exn "DatabaseError" "file is not a database")
  | None => throw (Exn "OperationalError" "unable to open database file")
  end.

(** What a write does; a missing file is created empty. *)
Definition change (p : string) (g : db → res db) : M disk unit :=
  f ← get;
  match default (Db new_db) (f !! p) with
  | Db d => d' ← lift (g d); modify (<[p := Db d']>)
  | Garbage => throw (Exn "DatabaseError" "file is not a database")
  end.

(** A statement that writes. *)
Definition update (op p : string) (g : db → res db) : M disk unit := _ ← ask op p; change p g.

Definition no_table (name : string) : exn := Exn "OperationalError" ("no such table: " +:+ name).

Definition version_of (t : tables) : res (option string) :=
  match t_meta t with Some v => Ok v | None => Raise (no_table "meta") end.
Definition entries_of (t : tables) : res rows :=
  match t_entries t with Some m => Ok m | None => Raise (no_table "cache_entries") end.

(** [_SCHEMA]: the tables where they are missing, and the version where it is. *)
Definition with_schema (t : tables) : tables :=
  mkTables (Some (Some (default SCHEMA_VERSION (mjoin (t_meta t))))) (Some (default ∅ (t_entries t))).

(** ** Connections *)

Definition quoted (v : option string) : string := match v with Some s => repr_str s | None => "None" end.

Definition check_schema (p : string) : M disk unit :=
  got ← try_ (S := disk) (query p version_of)
          (λ ex, if is_database_error ex
                 then throw (transfer_error (p +:+ ": not an LLM-gateway cache (" +:+ exn_msg ex +:+ ")"))
                 else throw ex);
  if bool_decide (got = Some SCHEMA_VERSION) then mret tt
  else throw (transfer_error (p +:+ ": schema_version " +:+ quoted got +:+ " != this build's "
                              +:+ repr_str SCHEMA_VERSION +:+ " refusing")).

Definition exists_file (p : string) (f : disk) : bool := bool_decide (is_Some (f !! p)).

Definition open_source (p : string) : M disk unit :=
  f ← get;
  if negb (exists_file p f) then throw (transfer_error ("no cache at " +:+ p))
  else _ ← ask "connect" p; check_schema p.

Definition open_target (p : string) (create : bool) : M disk unit :=
  f ← get;
  _ ← (if exists_file p f then mret tt
       else if create then ask "mkdir" p else throw (transfer_error ("no cache at " +:+ p)));
  _ ← ask "connect" p;
  _ ← update "schema" p (λ d, Ok (put (with_schema (view d)) d));
  check_schema p.

(** The last connection that may write brings the log into the file. *)
Definition close_target (p : string) : M disk unit :=
  f ← get;
  match f !! p with
  | Some (Db d) => if last_one e p f then modify (<[p := Db (checkpoint d)]>) else mret tt
  | _ => mret tt
  end.

(** ** Copying rows *)

Definition put_rows (one : string * row → rows → rows) (l : list (string * row)) (m : rows) : rows :=
  fold_left (λ m kv, one kv m) l m.

(** What each statement does with one row. *)
Definition replace (kv : string * row) (m : rows) : rows := <[kv.1 := kv.2]> m.
Definition keep_local (kv : string * row) (m : rows) : rows :=
  match m !! kv.1 with Some _ => m | None => <[kv.1 := kv.2]> m end.
Definition with_hits (n : nat) (r : row) : row :=
  mkRow (response_body r) (response_status_code r) (original_wallclock_ms r) (original_backend_name r)
    (recorded_at_ms r) n.
Definition prefer_incoming (kv : string * row) (m : rows) : rows :=
  match m !! kv.1 with
  | Some old => <[kv.1 := with_hits (hit_count old `max` hit_count kv.2) kv.2]> m
  | None => <[kv.1 := kv.2]> m
  end.

Definition add_rows (one : string * row → rows → rows) (l : list (string * row)) (d : db) : res db :=
  m ← entries_of (view d);
  Ok (put (mkTables (t_meta (view d)) (Some (put_rows one l m))) d).

(** Each row is a transaction of its own: what went in before a failure stays. *)
Definition executemany (p : string) (one : string * row → rows → rows) (l : list (string * row)) : M disk unit :=
  f ← get;
  match refuses e "insert" p f with
  | Some ex => _ ← change p (add_rows one (take (went_in e p l f) l)); throw ex
  | None => update "insert" p (add_rows one l)
  end.

(** The loop of [fetchmany]: the number of rows it has copied. *)
Fixpoint copy_rows (fuel : nat) (p : string) (one : string * row → rows → rows)
    (pending : list (string * row)) (n : nat) : M disk nat :=
  match fuel with
  | O => mret n
  | S fuel =>
      match take BATCH pending with
      | [] => mret n
      | batch =>
          _ ← executemany p one batch;
          copy_rows fuel p one (drop BATCH pending) (n + List.length batch)
      end
  end.
Definition enough (l : list (string * row)) : nat := S (List.length l).

(** ** export *)

Definition wanted (backend : string) (since : option Z) (kv : string * row) : bool :=
  (if str_nonempty backend then bool_decide (original_backend_name kv.2 = Some backend) else true)
  && match since with Some t => (t <=? recorded_at_ms kv.2)%Z | None => true end.

(** [int((time.time() - since_days * 86400) * 1000)] *)
Definition since_ms (now : Q) (since_days : option Q) : option Z :=
  (λ d, Q_trunc ((now - d * 86400) * 1000)%Q) <$> since_days.

Definition to_delete_mode (d : db) : res db := Ok (mkDb (view d) None false).

Definition export (now : Q) (src out backend : string) (since_days : option Q) : M disk nat :=
  _ ← open_source src;
  f ← get;
  if exists_file out f then throw (transfer_error (out +:+ " exists, refusing to overwrite an export"))
  else
    _ ← open_target out true;
    _ ← update "pragma" out to_delete_mode;
    m ← query src entries_of;
    let l := List.filter (wanted backend (since_ms now since_days)) (map_to_list m) in
    n ← copy_rows (enough l) out replace l 0;
    _ ← close_target out;
    mret n.

(** ** import *)

Record report := mkReport { incoming : nat; new : nat; already_present : Z; applied : nat }.

Definition size_of (t : tables) : res nat := m ← entries_of t; Ok (size m).

Definition import_ (dst src : string) (overwrite dry_run : bool) : M disk report :=
  _ ← open_source src;
  incoming ← query src size_of;
  if dry_run then
    _ ← open_source dst;
    have ← query dst entries_of;
    keys ← query src entries_of;
    mret (mkReport incoming (size (dom keys ∖ dom have)) (Z.of_nat (size (dom keys ∩ dom have))) 0)
  else
    _ ← open_target dst true;
    before ← query dst size_of;
    m ← query src entries_of;
    let l := map_to_list m in
    _ ← copy_rows (enough l) dst (if overwrite then prefer_incoming else keep_local) l 0;
    after ← query dst size_of;
    _ ← close_target dst;
    mret (mkReport incoming (after - before) (Z.of_nat incoming - (Z.of_nat after - Z.of_nat before)) incoming).

(** ** info *)

(** Of the backends, the number of entries each; their order is left out. *)
Record information := mkInfo {
  i_entries : nat;
  cumulative_hits : nat;
  response_bytes : nat;
  recorded_from_ms : option Z;
  recorded_to_ms : option Z;
  backends : gmap string nat;
  journal_wal : bool
}.

Definition sum_nat (l : list nat) : nat := fold_right Nat.add 0 l.
Definition extreme (better : Z → Z → Z) (l : list Z) : option Z :=
  match l with [] => None | x :: l => Some (fold_left better l x) end.
Definition by_backend (l : list row) : gmap string nat :=
  fold_left (λ m r, let k := default "(none)" (original_backend_name r) in
                    <[k := S (default 0 (m !! k))]> m) l ∅.

Definition journal_mode (p : string) : M disk bool :=
  _ ← ask "pragma" p;
  f ← get;
  match f !! p with
  | Some (Db d) => mret (wal_mode d)
  | _ => throw (Exn "DatabaseError" "file is not a database")
  end.

Definition info (p : string) : M disk information :=
  _ ← open_source p;
  n ← query p size_of;
  hits ← query p (λ t, m ← entries_of t; Ok (sum_nat (map (hit_count ∘ snd) (map_to_list m))));
  range ← query p (λ t, m ← entries_of t;
                        let at_ms := map (recorded_at_ms ∘ snd) (map_to_list m) in
                        Ok (extreme Z.min at_ms, extreme Z.max at_ms));
  groups ← query p (λ t, m ← entries_of t; Ok (by_backend (map snd (map_to_list m))));
  body_bytes ← query p (λ t, m ← entries_of t;
                             Ok (sum_nat (map (String.length ∘ response_body ∘ snd) (map_to_list m))));
  mode ← journal_mode p;
  mret (mkInfo n hits body_bytes range.1 range.2 groups mode).

(** ** main *)

Inductive command :=
| Info (db_path : string)
| Export (db_path out backend : string) (since_days : option Q)
| Import (db_path src : string) (overwrite dry_run : bool).

Definition perform (now : Q) (c : command) : M disk unit :=
  match c with
  | Info p => _ ← info p; mret tt
  | Export p out backend since_days => _ ← export now p out backend since_days; _ ← info out; mret tt
  | Import p src overwrite dry_run => _ ← import_ p src overwrite dry_run; mret tt
  end.

(** The exit status; an error of another class leaves [main] as it is. *)
Definition main (now : Q) (c : command) : M disk Z :=
  try_ (_ ← perform now c; mret 0%Z)
    (λ ex, if bool_decide (exn_class ex = "TransferError") then mret 2%Z else throw ex).

End engine.
End CacheTransfer.

(** * Theorems about moving a cache

    What an export leaves in its file, what an import makes of the tables it
    merges, what interrupted imports come to, and an answer recorded on one
    machine that is replayed on another. *)

Module CacheTransferSpec.
Import Budget.Budget GwConfig GwKeying GwApp CacheTransfer.

Notation disk := (gmap string file).

(** ** What a computation may end in, from a given disk *)

Definition ends {A} (m : M disk A) (f : disk) (Q : A → disk → Prop) (E : disk → Prop) : Prop :=
  ∀ h, match m f h with (Ok a, (f', _)) => Q a f' | (Raise _, (f', _)) => E f' end.

Lemma ends_bind {A B} (m : M disk A) (k : A → M disk B) f Q E :
  ends m f (λ a f', ends (k a) f' Q E) E → ends (m ≫= k) f Q E.
Proof.
  intros H h. rewrite bind_run. specialize (H h). destruct (m f h) as [[a|ex] [f' h']]; [|done]. apply H.
Qed.

Lemma ends_ret {A} (a : A) f (Q : A → disk → Prop) E : Q a f → ends (mret a) f Q E.
Proof. by intros H h. Qed.

Lemma ends_throw {A} ex f (Q : A → disk → Prop) (E : disk → Prop) : E f → ends (throw ex) f Q E.
Proof. by intros H h. Qed.

Lemma ends_get {B} (k : disk → M disk B) f Q E : ends (k f) f Q E → ends (get ≫= k) f Q E.
Proof. intros H h. rewrite bind_get. apply H. Qed.

Lemma ends_ok {A} (m : M disk A) f Q E h a f' h' : ends m f Q E → m f h = (Ok a, (f', h')) → Q a f'.
Proof. intros H Hm. specialize (H h). by rewrite Hm in H. Qed.

Lemma ends_mono {A} (m : M disk A) f (Q Q' : A → disk → Prop) (E E' : disk → Prop) :
  ends m f Q E → (∀ a f', Q a f' → Q' a f') → (∀ f', E f' → E' f') → ends m f Q' E'.
Proof. intros H HQ HE h. specialize (H h). destruct (m f h) as [[a|ex] [f' h']]; auto. Qed.

(** ** Tables *)

(** The rows a connection to [p] reads. *)
Definition rows_at (p : string) (f : disk) : rows :=
  match f !! p with Some (Db d) => default ∅ (t_entries (view d)) | _ => ∅ end.

(** A database that is not in WAL mode has no log. *)
Definition sound (d : db) : Prop := wal_mode d = false → in_wal d = None.

(** [f'] is [f] with the database at [p], which was [d], holding [t]. *)
Definition holds (p : string) (d : db) (t : tables) (f f' : disk) : Prop :=
  ∃ d', f' = <[p := Db d']> f ∧ view d' = t ∧ wal_mode d' = wal_mode d ∧ (sound d → sound d').

Lemma view_put t d : view (put t d) = t.
Proof. unfold put, view. by destruct (wal_mode d). Qed.

Lemma holds_put p d t f : holds p d t f (<[p := Db (put t d)]> f).
Proof.
  exists (put t d). split; [done|]. split; [apply view_put|]. unfold put, sound. by destruct (wal_mode d).
Qed.

Lemma holds_refl p d f : f !! p = Some (Db d) → holds p d (view d) f f.
Proof. intros H. exists d. by rewrite insert_id. Qed.

Lemma holds_trans p d t t' f f1 f' :
  holds p d t f f1 → (∀ d1, f1 !! p = Some (Db d1) → view d1 = t → holds p d1 t' f1 f') → holds p d t' f f'.
Proof.
  intros (d1 & -> & Hv & Hw & Hs) H. destruct (H d1) as (d2 & -> & Hv2 & Hw2 & Hs2); [by rewrite lookup_insert_eq|done|].
  exists d2. rewrite insert_insert_eq, Hw2. do 3 (split; [done|]). intros Hd. by apply Hs2, Hs.
Qed.

Lemma holds_other p d t f f' q : holds p d t f f' → q ≠ p → f' !! q = f !! q.
Proof. intros (d' & -> & _) Hq. by rewrite lookup_insert_ne. Qed.

Lemma holds_rows p d t f f' : holds p d t f f' → rows_at p f' = default ∅ (t_entries t).
Proof. intros (d' & -> & <- & _). unfold rows_at. by rewrite lookup_insert_eq. Qed.

Section engine.
Context (e : engine).

(** ** Statements *)

Lemma ends_ask op p f (Q : unit → disk → Prop) (E : disk → Prop) : Q tt f → E f → ends (ask e op p) f Q E.
Proof.
  intros HQ HE. unfold ask. apply ends_get. destruct (refuses e op p f); [by apply ends_throw|by apply ends_ret].
Qed.

Lemma ends_query {A} p (q : tables → res A) f (Q : A → disk → Prop) (E : disk → Prop) :
  E f → (∀ d a, f !! p = Some (Db d) → q (view d) = Ok a → Q a f) → ends (query e p q) f Q E.
Proof.
  intros HE HQ. unfold query. apply ends_bind, ends_ask; [|done]. apply ends_get.
  destruct (f !! p) as [[d|]|] eqn:Hp; try by apply ends_throw.
  intros h. unfold lift. destruct (q (view d)) eqn:Hq; [by eapply HQ|done].
Qed.

Lemma ends_change p g f (Q : unit → disk → Prop) (E : disk → Prop) :
  E f → (∀ d d', default (Db new_db) (f !! p) = Db d → g d = Ok d' → Q tt (<[p := Db d']> f)) →
  ends (change p g) f Q E.
Proof.
  intros HE HQ. unfold change. apply ends_get. destruct (default _ _) as [d|] eqn:Hd; [|by apply ends_throw].
  intros h. rewrite bind_run. unfold lift. destruct (g d) as [d'|] eqn:Hg; [|done]. by eapply HQ.
Qed.

Lemma ends_check p f (Q : unit → disk → Prop) (E : disk → Prop) :
  E f → (∀ d, f !! p = Some (Db d) → t_meta (view d) = Some (Some SCHEMA_VERSION) → Q tt f) →
  ends (check_schema e p) f Q E.
Proof.
  intros HE HQ. unfold check_schema. apply ends_bind.
  assert (ends (query e p version_of) f
    (λ got f', f' = f ∧ ∃ d, f !! p = Some (Db d) ∧ t_meta (view d) = Some got) (λ f', f' = f)) as Hq.
  { apply ends_query; [done|]. intros d a Hd Ha. split; [done|]. exists d. split; [done|].
    unfold version_of in Ha. by destruct (t_meta (view d)); simplify_eq. }
  intros h. specialize (Hq h). unfold try_. destruct (query e p version_of f h) as [[got|ex] [f' h']].
  - destruct Hq as (-> & d & Hd & Hm). destruct (bool_decide_reflect (got = Some SCHEMA_VERSION)) as [->|_];
      [apply ends_ret; by eapply HQ|by apply ends_throw].
  - subst f'. by destruct (is_database_error ex).
Qed.

Lemma ends_open_source p f (Q : unit → disk → Prop) (E : disk → Prop) :
  E f → (∀ d, f !! p = Some (Db d) → t_meta (view d) = Some (Some SCHEMA_VERSION) → Q tt f) →
  ends (open_source e p) f Q E.
Proof.
  intros HE HQ. unfold open_source. apply ends_get. destruct (exists_file p f); [|by apply ends_throw].
  apply ends_bind, ends_ask; [|done]. by apply ends_check.
Qed.

(** An opened target holds both tables, and the rows it had. *)
Lemma ends_open_target p f (Q : unit → disk → Prop) (E : disk → Prop) :
  E f →
  (∀ d f', default (Db new_db) (f !! p) = Db d → holds p d (with_schema (view d)) f f' →
     E f' ∧ (t_meta (with_schema (view d)) = Some (Some SCHEMA_VERSION) → Q tt f')) →
  ends (open_target e p true) f Q E.
Proof.
  intros HE HQ. unfold open_target. apply ends_get, ends_bind.
  assert (∀ Q' : unit → disk → Prop, Q' tt f → ends (if exists_file p f then mret tt else ask e "mkdir" p) f Q' E) as Hdir.
  { intros Q' HQ'. destruct (exists_file p f); [by apply ends_ret|by apply ends_ask]. }
  apply Hdir, ends_bind, ends_ask; [|done]. apply ends_bind. unfold update. apply ends_bind, ends_ask; [|done].
  apply ends_change; [done|]. intros d d' Hd [= <-].
  destruct (HQ d _ Hd (holds_put p d _ f)) as [HE' HQ']. apply ends_check; [done|].
  intros d2. rewrite lookup_insert_eq. intros [= <-]. rewrite view_put. exact HQ'.
Qed.

(** ** The copying loop *)

Definition grown (one : string * row → rows → rows) (l : list (string * row)) (t : tables) : tables :=
  mkTables (t_meta t) (Some (put_rows one l (default ∅ (t_entries t)))).

Lemma put_rows_app one l1 l2 m : put_rows one (l1 ++ l2) m = put_rows one l2 (put_rows one l1 m).
Proof. apply fold_left_app. Qed.

Lemma ends_executemany p one l d f (Q : unit → disk → Prop) (E : disk → Prop) :
  f !! p = Some (Db d) → is_Some (t_entries (view d)) → E f →
  (∀ n f', holds p d (grown one (take n l) (view d)) f f' → E f') →
  (∀ f', holds p d (grown one l (view d)) f f' → Q tt f') →
  ends (executemany e p one l) f Q E.
Proof.
  intros Hp [m Hm] HE0 HE HQ.
  assert (∀ l' Q', Q' tt (<[p := Db (put (grown one l' (view d)) d)]> f) →
    ends (change p (add_rows one l')) f Q' E) as Hch.
  { intros l' Q' HQ'. apply ends_change; [done|]. intros d1 d2. rewrite Hp. intros [= <-].
    unfold add_rows, entries_of. rewrite Hm. intros [= <-]. unfold grown in HQ'. by rewrite Hm in HQ'. }
  unfold executemany. apply ends_get. destruct (refuses e "insert" p f) as [ex|] eqn:Href.
  - apply ends_bind, Hch, ends_throw. eapply HE, holds_put.
  - unfold update, ask. apply ends_bind, ends_get. rewrite Href. apply ends_ret, Hch, HQ, holds_put.
Qed.

Lemma grown_grown one l1 l2 t : grown one l2 (grown one l1 t) = grown one (l1 ++ l2) t.
Proof. unfold grown. simpl. by rewrite put_rows_app. Qed.

Lemma ends_copy_rows p one fuel pending n d f (Q : nat → disk → Prop) (E : disk → Prop) :
  (List.length pending < fuel)%nat → f !! p = Some (Db d) → is_Some (t_entries (view d)) →
  (∀ l f', l `prefix_of` pending → holds p d (grown one l (view d)) f f' → E f') →
  (∀ f', holds p d (grown one pending (view d)) f f' → Q (n + List.length pending)%nat f') →
  ends (copy_rows e fuel p one pending n) f Q E.
Proof.
  revert pending n d f. induction fuel as [|fuel IH]; [lia|]. intros pending n d f Hlen Hp Hm HE HQ. cbn [copy_rows].
  assert (holds p d (grown one [] (view d)) f f) as Hnil.
  { unfold grown. destruct Hm as [m Hm]. rewrite Hm. cbn. rewrite <- Hm.
    replace (mkTables _ _) with (view d) by (by destruct (view d)). by apply holds_refl. }
  destruct pending as [|kv pending']; [change (take BATCH []) with (@nil (string * row))|].
  { apply ends_ret. simpl in HQ. rewrite Nat.add_0_r in HQ. by apply HQ. }
  set (pending := kv :: pending') in *.
  destruct (take BATCH pending) as [|kv' batch'] eqn:Hb; [done|]. rewrite <- Hb. clear Hb kv' batch'.
  assert (take BATCH pending ++ drop BATCH pending = pending) as Happ by apply take_drop.
  assert (List.length (take BATCH pending) + List.length (drop BATCH pending) = List.length pending)%nat as Hl.
  { rewrite <- Happ at 3. by rewrite List.length_app. }
  assert (0 < List.length (take BATCH pending))%nat by (simpl; lia).
  apply ends_bind, (ends_executemany p one _ d); [done|done|eapply HE, Hnil; apply prefix_nil| |].
  { intros k f'. apply HE. transitivity (take BATCH pending); [apply prefix_take|]. apply prefix_take. }
  intros f1 H1. pose proof H1 as (d1 & Hf1 & Hv1 & _ & _).
  assert (f1 !! p = Some (Db d1)) as Hp1 by (rewrite Hf1; apply lookup_insert_eq).
  apply (IH _ _ d1); [lia|done|by rewrite Hv1| |].
  - intros l f' Hl' H2. apply (HE (take BATCH pending ++ l)).
    + rewrite <- Happ at 2. by apply prefix_app.
    + eapply holds_trans; [exact H1|]. intros d2. rewrite Hp1. intros [= <-] _.
      by rewrite <- grown_grown, <- Hv1.
  - intros f' H2. replace (n + _ + _)%nat with (n + List.length pending)%nat by lia. apply HQ.
    eapply holds_trans; [exact H1|]. intros d2. rewrite Hp1. intros [= <-] _.
    by rewrite <- Happ, <- grown_grown, <- Hv1.
Qed.

(** Closing changes no row. *)
Lemma ends_close p d t f f0 (Q : unit → disk → Prop) (E : disk → Prop) :
  holds p d t f0 f → (∀ f', holds p d t f0 f' → Q tt f') → ends (close_target e p) f Q E.
Proof.
  intros H HQ. unfold close_target. apply ends_get. pose proof H as (d' & -> & Hv & Hw & Hs).
  rewrite lookup_insert_eq. destruct (last_one e p _); [|apply ends_ret; by apply HQ].
  intros h. apply HQ. exists (checkpoint d'). by rewrite insert_insert_eq.
Qed.

End engine.
(** ** Merging *)

(** What an import leaves of the local and the incoming row of a key. *)
Definition mix (overwrite : bool) (l i : option row) : option row :=
  match l, i with
  | Some l, Some i => Some (if overwrite then with_hits (hit_count l `max` hit_count i) i else l)
  | Some l, None => Some l
  | None, i => i
  end.

Definition one_of (overwrite : bool) : string * row → rows → rows :=
  if overwrite then prefer_incoming else keep_local.

Lemma one_of_lookup overwrite kv (m : rows) (k : string) :
  one_of overwrite kv m !! k = if decide (kv.1 = k) then mix overwrite (m !! k) (Some kv.2) else m !! k.
Proof.
  unfold one_of, prefer_incoming, keep_local.
  destruct overwrite, (m !! kv.1) as [old|] eqn:Hold, (decide (kv.1 = k)) as [<-|Hne];
    rewrite ?lookup_insert_eq, ?lookup_insert_ne by done; by rewrite ?Hold.
Qed.

Lemma put_rows_lookup overwrite l (m : rows) (k : string) : NoDup l.*1 →
  put_rows (one_of overwrite) l m !! k = mix overwrite (m !! k) (list_to_map (M := rows) l !! k).
Proof.
  revert m. induction l as [|[k' r] l IH]; intros m Hnd.
  - cbn. rewrite lookup_empty. by destruct (m !! k).
  - apply NoDup_cons in Hnd as [Hk Hnd]. 
    change (put_rows (one_of overwrite) ((k', r) :: l) m)
      with (put_rows (one_of overwrite) l (one_of overwrite (k', r) m)).
    rewrite (IH _ Hnd), one_of_lookup. cbn.
    destruct (decide (k' = k)) as [<-|Hne].
    + rewrite lookup_insert_eq, (not_elem_of_list_to_map_1 _ _ Hk). by destruct (m !! k').
    + by rewrite lookup_insert_ne.
Qed.

Lemma merge_all_lookup overwrite (ms m : rows) (k : string) :
  put_rows (one_of overwrite) (map_to_list ms) m !! k = mix overwrite (m !! k) (ms !! k).
Proof.
  rewrite (put_rows_lookup overwrite (map_to_list ms) m k) by apply NoDup_fst_map_to_list.
  by rewrite list_to_map_to_list.
Qed.

Lemma mix_dom overwrite (md ms m : rows) :
  (∀ k, m !! k = mix overwrite (md !! k) (ms !! k)) → dom m = dom md ∪ dom ms.
Proof.
  intros H. apply set_eq. intros k. rewrite elem_of_union, !elem_of_dom, H.
  destruct (md !! k), (ms !! k); simpl; split; intros; destruct_or?; eauto.
Qed.

(** The numbers of an import, of the local and the incoming keys. *)
Lemma import_counts (X Y : gset string) :
  (size (X ∪ Y) - size X = size (Y ∖ X))%nat ∧ (size Y = size (Y ∖ X) + size (Y ∩ X))%nat ∧
  size (X ∪ Y) = (size X + size (Y ∖ X))%nat.
Proof.
  rewrite size_union_alt. split; [lia|]. split; [|done].
  rewrite <- size_union by set_solver. f_equal. apply set_eq. intros k. destruct (decide (k ∈ X)); set_solver.
Qed.

(** ** import *)

(** A cache of this version; what an import may go into. *)
Definition is_cache (p : string) (f : disk) : Prop :=
  ∃ d m, f !! p = Some (Db d) ∧ view d = mkTables (Some (Some SCHEMA_VERSION)) (Some m).
Definition receives (p : string) (f : disk) : Prop :=
  ∃ d, default (Db new_db) (f !! p) = Db d ∧ default SCHEMA_VERSION (mjoin (t_meta (view d))) = SCHEMA_VERSION.

Lemma rows_entries p d f m : f !! p = Some (Db d) → entries_of (view d) = Ok m → rows_at p f = m.
Proof.
  intros Hp Hm. unfold rows_at, entries_of in *. rewrite Hp. by destruct (t_entries (view d)); simplify_eq.
Qed.

Lemma size_of_ok p d f n : f !! p = Some (Db d) → size_of (view d) = Ok n → n = size (rows_at p f).
Proof.
  intros Hp Hn. unfold size_of in Hn. destruct (entries_of (view d)) as [m|] eqn:Hm; [|done].
  injection Hn as <-. by rewrite (rows_entries p d f m Hp Hm).
Qed.

Lemma schema_rows d : default ∅ (t_entries (with_schema (view d))) = default ∅ (t_entries (view d)).
Proof. done. Qed.

Lemma default_rows p f d : default (Db new_db) (f !! p) = Db d → rows_at p f = default ∅ (t_entries (view d)).
Proof. unfold rows_at. destruct (f !! p) as [[|]|]; intros [= <-]; done. Qed.

Section import.
Context (e : engine) (dst src : string) (overwrite : bool).

(** A disk on which some of the rows have been merged. *)
Definition part_way (f f' : disk) : Prop :=
  (∀ q, q ≠ dst → f' !! q = f !! q) ∧
  ∃ l, l `prefix_of` map_to_list (rows_at src f) ∧
    rows_at dst f' = put_rows (one_of overwrite) l (rows_at dst f) ∧
  (receives dst f → receives dst f').

Lemma part_way_refl f : part_way f f.
Proof. split; [done|]. exists []. split; [apply prefix_nil|by split]. Qed.

Lemma part_way_holds d t f0 f f' l :
  part_way f0 f → f !! dst = Some (Db d) → l `prefix_of` map_to_list (rows_at src f0) →
  t = grown (one_of overwrite) l (view d) → rows_at dst f = rows_at dst f0 →
  holds dst d t f f' → part_way f0 f'.
Proof.
  intros (Ho & l0 & _ & _ & Hrec) Hd Hl -> Hr H. split.
  - intros q Hq. by rewrite (holds_other _ _ _ _ _ _ H Hq), Ho.
  - exists l. split; [done|]. split.
    + rewrite (holds_rows _ _ _ _ _ H). cbn. f_equal. rewrite <- Hr. unfold rows_at. by rewrite Hd.
    + intros (d1 & Hd1 & Hv1)%Hrec. rewrite Hd in Hd1. injection Hd1 as <-.
      destruct H as (d' & -> & Hv & _). exists d'. rewrite lookup_insert_eq. split; [done|]. by rewrite Hv.
Qed.

(** Every way an import may end. *)
Lemma ends_import f :
  ends (import_ e dst src overwrite false) f
    (λ r f', part_way f f' ∧
       (∀ k, rows_at dst f' !! k = mix overwrite (rows_at dst f !! k) (rows_at src f !! k)) ∧
       r = mkReport (size (rows_at src f)) (size (dom (rows_at src f) ∖ dom (rows_at dst f)))
             (Z.of_nat (size (dom (rows_at src f) ∩ dom (rows_at dst f)))) (size (rows_at src f)))
    (part_way f).
Proof.
  pose proof (part_way_refl f) as Hrefl.
  unfold import_. apply ends_bind, ends_open_source; [done|]. intros ds Hsrc _.
  apply ends_bind, ends_query; [done|]. intros ds' n Hds' Hn. assert (ds' = ds) as -> by congruence. clear Hds'.
  pose proof (size_of_ok _ _ _ _ Hsrc Hn) as ->. unfold size_of in Hn.
  destruct (entries_of (view ds)) as [ms|] eqn:Hms; [|done]. clear Hn.
  pose proof (rows_entries _ _ _ _ Hsrc Hms) as Hrs. cbv iota.
  apply ends_bind, ends_open_target; [done|]. intros dd f1 Hdd H1. pose proof (default_rows _ _ _ Hdd) as Hrd.
  assert (rows_at dst f1 = rows_at dst f) as Hr1 by (rewrite (holds_rows _ _ _ _ _ H1), Hrd; done).
  assert (∀ q, q ≠ dst → f1 !! q = f !! q) as Ho1 by (intros q; by apply (holds_other _ _ _ _ _ _ H1)).
  assert (part_way f f1) as Hp1.
  { split; [done|]. exists []. split; [apply prefix_nil|]. split; [done|]. intros (d & Hd & Hv).
    assert (d = dd) as -> by congruence. destruct H1 as (d' & -> & Hv' & _). exists d'.
    rewrite lookup_insert_eq. split; [done|]. rewrite Hv'. cbn. by rewrite Hv. }
  split; [done|]. intros _. pose proof H1 as (d1 & Hf1 & Hv1 & _ & _).
  assert (f1 !! dst = Some (Db d1)) as Hd1 by (rewrite Hf1; apply lookup_insert_eq).
  apply ends_bind, ends_query; [done|]. intros d1' before Hd1' Hb.
  pose proof (size_of_ok _ _ _ _ Hd1' Hb) as ->. clear d1' Hd1' Hb.
  apply ends_bind, ends_query; [done|]. intros ds1 ms1 Hs1 Hms1.
  assert (ms1 = ms) as ->.
  { rewrite <- (rows_entries _ _ _ _ Hs1 Hms1), <- Hrs. destruct (decide (src = dst)) as [->|Hne]; [done|].
    unfold rows_at. by rewrite Ho1. }
  apply ends_bind. rewrite Hrs in *.
  apply (ends_copy_rows e dst _ _ _ 0 d1); [unfold enough; lia|done|by rewrite Hv1| |].
  { intros l f' Hl H2. eapply part_way_holds; [exact Hp1|exact Hd1|by rewrite Hrs|reflexivity|done|exact H2]. }
  intros f2 H2.
  assert (∀ k, rows_at dst f2 !! k = mix overwrite (rows_at dst f !! k) (ms !! k)) as Hm2.
  { intros k. rewrite (holds_rows _ _ _ _ _ H2). cbn. rewrite <- merge_all_lookup, <- Hr1. unfold rows_at. by rewrite Hd1. }
  assert (∀ f3, holds dst d1 (grown (one_of overwrite) (map_to_list ms) (view d1)) f1 f3 → part_way f f3) as Hp2.
  { intros f3 H3. eapply part_way_holds; [exact Hp1|exact Hd1|rewrite Hrs; reflexivity|reflexivity|done|exact H3]. }
  apply ends_bind, ends_query; [by apply Hp2|]. intros d2 after Hd2 Ha. pose proof (size_of_ok _ _ _ _ Hd2 Ha) as ->.
  apply ends_bind. apply (ends_close e dst d1 _ f2 f1 _ _ H2). intros f3 H3. apply ends_ret.
  assert (rows_at dst f3 = rows_at dst f2) as Hr3.
  { by rewrite (holds_rows _ _ _ _ _ H3), (holds_rows _ _ _ _ _ H2). }
  split; [|split].
  - by apply Hp2.
  - intros k. by rewrite Hr3, Hm2.
  - rewrite Hr1. destruct (import_counts (dom (rows_at dst f)) (dom ms)) as (Hnew & Hall & Hsum).
    rewrite <- !size_dom, (mix_dom _ _ _ _ Hm2). f_equal; lia.
Qed.

End import.
(** ** An engine that refuses nothing *)

Definition willing (e : engine) : Prop := ∀ op p f, refuses e op p f = None.

Section willing.
Context (e : engine) (He : willing e).

Lemma granted_run op p f h : ask e op p f h = (Ok tt, (f, h)).
Proof. unfold ask. rewrite bind_get. by rewrite He. Qed.

Lemma query_run {A} p (q : tables → res A) d a f h :
  f !! p = Some (Db d) → q (view d) = Ok a → query e p q f h = (Ok a, (f, h)).
Proof.
  intros Hp Hq. unfold query. rewrite bind_run, granted_run, bind_get, Hp. unfold lift. by rewrite Hq.
Qed.

Lemma check_run p f h : is_cache p f → check_schema e p f h = (Ok tt, (f, h)).
Proof.
  intros (d & m & Hp & Hv). unfold check_schema. rewrite bind_run. unfold try_.
  rewrite (query_run p version_of d (Some SCHEMA_VERSION)); [done|done|]. by rewrite Hv.
Qed.

Lemma open_source_run p f h : is_cache p f → open_source e p f h = (Ok tt, (f, h)).
Proof.
  intros Hc. unfold open_source. rewrite bind_get. unfold exists_file.
  assert (is_Some (f !! p)) as Hp by (destruct Hc as (d & m & -> & _); eauto).
  rewrite (bool_decide_eq_true_2 _ Hp). simpl. by rewrite bind_run, granted_run, check_run.
Qed.

Lemma open_target_run p f h : receives p f →
  ∃ f', open_target e p true f h = (Ok tt, (f', h)) ∧ is_cache p f' ∧ ∀ q, q ≠ p → f' !! q = f !! q.
Proof.
  intros (d & Hd & Hv). exists (<[p := Db (put (with_schema (view d)) d)]> f).
  assert (is_cache p (<[p := Db (put (with_schema (view d)) d)]> f)) as Hc.
  { eexists _, _. split; [apply lookup_insert_eq|]. rewrite view_put. unfold with_schema. by rewrite Hv. }
  split; [|split; [done|]; intros q Hq; by rewrite lookup_insert_ne].
  unfold open_target. rewrite bind_get. rewrite bind_run.
  assert ((if exists_file p f then mret tt else ask e "mkdir" p : M disk unit) f h = (Ok tt, (f, h))) as ->.
  { destruct (exists_file p f); [done|apply granted_run]. }
  rewrite bind_run, granted_run. unfold update. rewrite bind_run, bind_run, granted_run. unfold change. rewrite bind_get, Hd.
  rewrite bind_run. unfold lift, modify. by rewrite check_run.
Qed.

Lemma executemany_run p one l f h : is_cache p f →
  ∃ f', executemany e p one l f h = (Ok tt, (f', h)) ∧ is_cache p f' ∧ ∀ q, q ≠ p → f' !! q = f !! q.
Proof.
  intros (d & m & Hp & Hv). eexists. split; [|split].
  - unfold executemany. rewrite bind_get, He. unfold update. rewrite bind_run, granted_run. unfold change.
    rewrite bind_get, Hp. cbn [default from_option id]. rewrite bind_run. unfold lift, add_rows. rewrite Hv. cbn.
    reflexivity.
  - eexists _, _. split; [apply lookup_insert_eq|]. apply view_put.
  - intros q Hq. by rewrite lookup_insert_ne.
Qed.

Lemma copy_rows_run fuel p one l n f h : is_cache p f →
  ∃ n' f', copy_rows e fuel p one l n f h = (Ok n', (f', h)) ∧ is_cache p f' ∧ ∀ q, q ≠ p → f' !! q = f !! q.
Proof.
  revert l n f. induction fuel as [|fuel IH]; intros l n f Hc; cbn [copy_rows]; [by exists n, f|].
  destruct (take BATCH l) as [|kv batch]; [by exists n, f|].
  destruct (executemany_run p one (kv :: batch) f h Hc) as (f1 & E1 & Hc1 & Ho1).
  rewrite bind_run, E1. destruct (IH (drop BATCH l) (n + List.length (kv :: batch))%nat f1 Hc1) as (n' & f2 & E2 & Hc2 & Ho2).
  exists n', f2. split; [done|]. split; [done|]. intros q Hq. by rewrite Ho2, Ho1.
Qed.

Lemma close_run p f h : ∃ f', close_target e p f h = (Ok tt, (f', h)).
Proof.
  unfold close_target. rewrite bind_get. destruct (f !! p) as [[d|]|]; [|eauto..].
  destruct (last_one e p f); eauto.
Qed.

(** An import comes to an end and reports. *)
Lemma import_returns dst src overwrite f h : is_cache src f → receives dst f →
  ∃ r f', import_ e dst src overwrite false f h = (Ok r, (f', h)).
Proof.
  intros Hs Hd. pose proof Hs as (d & m & Hp & Hv).
  unfold import_. rewrite bind_run, (open_source_run _ _ _ Hs).
  rewrite bind_run, (query_run src size_of d (size m)); [|done|by rewrite Hv].
  destruct (open_target_run dst f h Hd) as (f1 & E1 & Hc1 & Ho1). cbv iota. rewrite bind_run, E1.
  pose proof Hc1 as (d1 & m1 & Hp1 & Hv1).
  rewrite bind_run, (query_run dst size_of d1 (size m1)); [|done|by rewrite Hv1].
  assert (is_cache src f1) as (ds & ms & Hps & Hvs).
  { destruct (decide (src = dst)) as [->|Hne]; [done|]. exists d, m. by rewrite Ho1. }
  rewrite bind_run, (query_run src entries_of ds ms); [|done|by rewrite Hvs].
  destruct (copy_rows_run (enough (map_to_list ms)) dst (if overwrite then prefer_incoming else keep_local)
    (map_to_list ms) 0 f1 h Hc1) as (n & f2 & E2 & (d2 & m2 & Hp2 & Hv2) & _).
  rewrite bind_run, E2. rewrite bind_run, (query_run dst size_of d2 (size m2)); [|done|by rewrite Hv2].
  rewrite bind_run. destruct (close_run dst f2 h) as [f3 ->]. eauto.
Qed.

End willing.
(** ** Merging is complete and predicted *)

Lemma ends_dry_run e dst src overwrite f :
  ends (import_ e dst src overwrite true) f
    (λ r f', f' = f ∧ incoming r = size (rows_at src f) ∧
       new r = size (dom (rows_at src f) ∖ dom (rows_at dst f)) ∧
       already_present r = Z.of_nat (size (dom (rows_at src f) ∩ dom (rows_at dst f))))
    (λ f', f' = f).
Proof.
  unfold import_. apply ends_bind, ends_open_source; [done|]. intros ds Hsrc _.
  apply ends_bind, ends_query; [done|]. intros d n Hd Hn. pose proof (size_of_ok _ _ _ _ Hd Hn) as ->. cbv iota.
  apply ends_bind, ends_open_source; [done|]. intros dd Hdst _.
  apply ends_bind, ends_query; [done|]. intros d2 have Hd2 Hh.
  apply ends_bind, ends_query; [done|]. intros d3 keys Hd3 Hk. apply ends_ret.
  by rewrite <- (rows_entries _ _ _ _ Hd2 Hh), <- (rows_entries _ _ _ _ Hd3 Hk).
Qed.

(** An import leaves, for every key, what [mix] says of the local and the
    incoming row, counts the rows it adds and those it finds, and touches no
    other file; a dry run before it touches nothing and gives the same counts. *)
Theorem import_merges (e e2 : engine) (dst src : string) (overwrite : bool) (f f' f2 : disk) h h' h2 h2' (r r2 : report) :
  import_ e dst src overwrite false f h = (Ok r, (f', h')) →
  import_ e2 dst src overwrite true f h2 = (Ok r2, (f2, h2')) →
  (∀ k, rows_at dst f' !! k = mix overwrite (rows_at dst f !! k) (rows_at src f !! k)) ∧
  size (rows_at dst f') = (size (rows_at dst f) + new r)%nat ∧
  (Z.of_nat (incoming r) = Z.of_nat (new r) + already_present r)%Z ∧
  (∀ q, q ≠ dst → f' !! q = f !! q) ∧
  f2 = f ∧ incoming r2 = incoming r ∧ new r2 = new r ∧ already_present r2 = already_present r.
Proof.
  intros H H2. destruct (ends_ok _ _ _ _ _ _ _ _ (ends_import e dst src overwrite f) H) as ([Ho _] & Hm & ->).
  destruct (ends_ok _ _ _ _ _ _ _ _ (ends_dry_run e2 dst src overwrite f) H2) as (-> & Hi & Hn & Ha).
  cbn. destruct (import_counts (dom (rows_at dst f)) (dom (rows_at src f))) as (_ & Hall & Hsum).
  rewrite <- !size_dom, (mix_dom _ _ _ _ Hm) in *. repeat split; try done; lia.
Qed.

(** ** Interrupted imports *)

Lemma mix_idem overwrite (l i : option row) : mix overwrite (mix overwrite l i) i = mix overwrite l i.
Proof.
  destruct l as [l|], i as [i|], overwrite; cbn; try done; unfold with_hits; cbn; do 2 f_equal; try lia.
  destruct i; cbn. by rewrite Nat.max_id.
Qed.

(** Every key has its old row or the merged one. *)
Definition blended (dst src : string) (overwrite : bool) (f f' : disk) : Prop :=
  (∀ q, q ≠ dst → f' !! q = f !! q) ∧ (receives dst f → receives dst f') ∧
  ∀ k, rows_at dst f' !! k = rows_at dst f !! k ∨
       rows_at dst f' !! k = mix overwrite (rows_at dst f !! k) (rows_at src f !! k).

Lemma prefix_lookup (l : list (string * row)) (m : rows) k :
  l `prefix_of` map_to_list m → NoDup l.*1 ∧ (list_to_map (M := rows) l !! k = None ∨ list_to_map (M := rows) l !! k = m !! k).
Proof.
  intros [l' Hl]. pose proof (NoDup_fst_map_to_list m) as Hnd. rewrite Hl, fmap_app in Hnd.
  apply NoDup_app in Hnd as (Hnd & _ & _). split; [done|].
  destruct (list_to_map l !! k) as [r|] eqn:E; [right|by left].
  apply elem_of_list_to_map_2 in E. symmetry. apply elem_of_map_to_list. rewrite Hl. apply elem_of_app. by left.
Qed.

Lemma part_way_blended dst src overwrite f f' : part_way dst src overwrite f f' → blended dst src overwrite f f'.
Proof.
  intros (Ho & l & Hl & Hr & Hrec). split; [done|]. split; [done|]. intros k.
  destruct (prefix_lookup l _ k Hl) as [Hnd Hk]. rewrite Hr, (put_rows_lookup overwrite l _ k Hnd).
  destruct Hk as [->| ->]; [left; by destruct (rows_at dst f !! k)|by right].
Qed.

Section attempts.
Context (dst src : string) (overwrite : bool) (Hne : src ≠ dst).

(** The disk after imports that end as their engines have it. *)
Definition attempts (es : list engine) (f : disk) : disk :=
  fold_left (λ f e, (import_ e dst src overwrite false f []).2.1) es f.

Lemma rows_src f f' : (∀ q, q ≠ dst → f' !! q = f !! q) → rows_at src f' = rows_at src f.
Proof. intros H. unfold rows_at. by rewrite H. Qed.

Lemma blended_trans f f1 f2 :
  blended dst src overwrite f f1 → blended dst src overwrite f1 f2 → blended dst src overwrite f f2.
Proof.
  intros (Ho1 & Hr1 & H1) (Ho2 & Hr2 & H2). split; [|split; [auto|]].
  - intros q Hq. by rewrite Ho2, Ho1.
  - intros k. specialize (H1 k). specialize (H2 k). rewrite (rows_src _ _ Ho1) in H2.
    destruct H2 as [->| ->]; [done|]. right. destruct H1 as [->| ->]; [done|apply mix_idem].
Qed.

Lemma import_blends e f : blended dst src overwrite f (import_ e dst src overwrite false f []).2.1.
Proof.
  pose proof (ends_import e dst src overwrite f []) as H.
  destruct (import_ e dst src overwrite false f []) as [[r|ex] [f' h']] eqn:E; cbn.
  - by apply part_way_blended, (proj1 H).
  - by apply part_way_blended.
Qed.

Lemma attempts_blend es f : blended dst src overwrite f (attempts es f).
Proof.
  revert f. induction es as [|e es IH]; intros f.
  - split; [done|]. split; [done|]. by left.
  - eapply blended_trans; [apply import_blends|apply IH].
Qed.

(** C36: however many imports are cut short, wherever they are, one that is not
    comes to an end, and leaves what a single uninterrupted import would have. *)
Theorem interrupted_import_completes (es : list engine) (e : engine) (f : disk) h :
  willing e → is_cache src f → receives dst f →
  ∃ r f', import_ e dst src overwrite false (attempts es f) h = (Ok r, (f', h)) ∧
    (∀ k, rows_at dst f' !! k = mix overwrite (rows_at dst f !! k) (rows_at src f !! k)) ∧
    (∀ q, q ≠ dst → f' !! q = f !! q).
Proof.
  intros He Hs Hd. pose proof (attempts_blend es f) as Hb. pose proof Hb as (Ho & Hr & _).
  destruct (import_returns e He dst src overwrite (attempts es f) h) as (r & f' & E).
  { destruct Hs as (d & m & Hp & Hv). exists d, m. by rewrite Ho. }
  { by apply Hr. }
  pose proof (ends_ok _ _ _ _ _ _ _ _ (ends_import e dst src overwrite _) E) as (Hp' & Hm & _).
  exists r, f'. split; [done|]. split; [|intros q Hq; by rewrite (proj1 Hp'), Ho].
  destruct Hb as (_ & _ & Hk). intros k. rewrite Hm, (rows_src _ _ Ho).
  destruct (Hk k) as [->| ->]; [done|apply mix_idem].
Qed.

End attempts.
(** ** export *)

Lemma replace_lookup l (m : rows) (k : string) : NoDup l.*1 →
  put_rows replace l m !! k = match list_to_map (M := rows) l !! k with Some r => Some r | None => m !! k end.
Proof.
  revert m. induction l as [|[k' r] l IH]; intros m Hnd; [cbn; by rewrite lookup_empty|].
  apply NoDup_cons in Hnd as [Hk Hnd].
  change (put_rows replace ((k', r) :: l) m) with (put_rows replace l (<[k' := r]> m)). rewrite (IH _ Hnd). cbn.
  destruct (decide (k' = k)) as [<-|Hne].
  - by rewrite !lookup_insert_eq, (not_elem_of_list_to_map_1 _ _ Hk).
  - by rewrite !lookup_insert_ne.
Qed.

Lemma replace_into_empty l : NoDup l.*1 → put_rows replace l ∅ = list_to_map (M := rows) l.
Proof.
  intros Hnd. apply map_eq. intros k. rewrite (replace_lookup l ∅ k Hnd), lookup_empty.
  by destruct (list_to_map l !! k).
Qed.

Lemma filter_keys (P : string * row → bool) l : NoDup l.*1 → NoDup (List.filter P l).*1.
Proof.
  induction l as [|kv l IH]; intros Hnd; [done|]. apply NoDup_cons in Hnd as [Hk Hnd]. simpl.
  destruct (P kv); [|by apply IH]. apply NoDup_cons. split; [|by apply IH].
  intros ([k r] & Heq & Hin)%list_elem_of_fmap. apply Hk, list_elem_of_fmap. exists (k, r). split; [done|].
  apply list_elem_of_In in Hin. apply filter_In in Hin as [Hin _]. by apply list_elem_of_In.
Qed.

(** The rows of an export. *)
Definition selection (P : string * row → bool) (m : rows) : rows := list_to_map (List.filter P (map_to_list m)).

Lemma selection_lookup P (m : rows) k r : selection P m !! k = Some r ↔ m !! k = Some r ∧ P (k, r) = true.
Proof.
  unfold selection. rewrite <- elem_of_list_to_map by apply filter_keys, NoDup_fst_map_to_list.
  rewrite list_elem_of_In, filter_In, <- list_elem_of_In. by rewrite elem_of_map_to_list.
Qed.

(** Every way an export may end: nothing else changes, and the file of an
    export that is done holds the selection by itself. *)
Lemma ends_export e now src out backend since_days f :
  let m := selection (wanted backend (since_ms now since_days)) (rows_at src f) in
  ends (export e now src out backend since_days) f
    (λ n f', (∀ q, q ≠ out → f' !! q = f !! q) ∧ n = size m ∧
       ∃ d, f' !! out = Some (Db d) ∧ copied d = mkTables (Some (Some SCHEMA_VERSION)) (Some m) ∧ view d = copied d)
    (λ f', (∀ q, q ≠ out → f' !! q = f !! q)).
Proof.
  intros m. unfold export. apply ends_bind, ends_open_source; [done|]. intros ds Hsrc _. apply ends_get.
  unfold exists_file. destruct (bool_decide_reflect (is_Some (f !! out))) as [_|Hout]; [by apply ends_throw|].
  apply eq_None_not_Some in Hout. assert (src ≠ out) as Hne by (intros ->; by rewrite Hout in Hsrc).
  apply ends_bind, ends_open_target; [done|]. intros dd f1 Hdd H1. rewrite Hout in Hdd. injection Hdd as <-.
  assert (∀ q, q ≠ out → f1 !! q = f !! q) as Ho1 by (intros q; by apply (holds_other _ _ _ _ _ _ H1)).
  split; [done|]. intros _. destruct H1 as (d1 & -> & Hv1 & _ & _).
  apply ends_bind. unfold update. apply ends_bind, ends_ask; [|done]. apply ends_change; [done|].
  intros d0 d2. rewrite lookup_insert_eq. intros [= <-] [= <-]. rewrite Hv1, insert_insert_eq.
  set (d2 := mkDb _ None false). change (with_schema (view new_db)) with (mkTables (Some (Some SCHEMA_VERSION)) (Some (∅ : rows))) in d2.
  apply ends_bind, ends_query; [intros q Hq; by rewrite lookup_insert_ne|].
  intros ds' ms. rewrite lookup_insert_ne by done. intros Hds' Hms.
  assert (rows_at src f = ms) as Hrs by exact (rows_entries _ _ _ _ Hds' Hms). subst m. rewrite Hrs.
  set (l := List.filter _ (map_to_list ms)). apply ends_bind.
  assert (NoDup l.*1) as Hnd by apply filter_keys, NoDup_fst_map_to_list.
  apply (ends_copy_rows e out _ _ _ 0 d2); [unfold enough; lia|apply lookup_insert_eq|by eexists| |].
  { intros l' f' _ H2 q Hq. rewrite (holds_other _ _ _ _ _ _ H2 Hq). by rewrite lookup_insert_ne. }
  intros f2 H2. apply ends_bind, (ends_close e out d2 _ f2 _ _ _ H2). intros f3 H3. apply ends_ret.
  split; [|split].
  - intros q Hq. rewrite (holds_other _ _ _ _ _ _ H3 Hq). by rewrite lookup_insert_ne.
  - unfold selection. fold l. by rewrite map_size_list_to_map.
  - destruct H3 as (d3 & -> & Hv3 & Hw3 & Hs3). exists d3. rewrite lookup_insert_eq. split; [done|].
    assert (in_wal d3 = None) as Hwal by (by apply Hs3).
    assert (view d3 = copied d3) as Hcv by (unfold view, copied; by rewrite Hwal). split; [|done].
    rewrite <- Hcv, Hv3. unfold grown. cbn. f_equal. f_equal. by apply replace_into_empty.
Qed.

(** ** A recording travels *)

(** The file at [p], copied to another machine without what is beside it. *)
Definition shipped (f : disk) (p : string) : option file :=
  match f !! p with Some (Db d) => Some (Db (mkDb (copied d) None (wal_mode d))) | x => x end.

Lemma shipped_rows (f g : disk) (p q : string) (d : db) (m : rows) v :
  f !! p = Some (Db d) → copied d = mkTables v (Some m) → g !! q = shipped f p → rows_at q g = m.
Proof. intros Hd Hc Hg. unfold rows_at. rewrite Hg. unfold shipped. rewrite Hd. unfold view. cbn. by rewrite Hc. Qed.

(** An export without conditions has every row. *)
Lemma selection_all now (m : rows) k r : m !! k = Some r → selection (wanted "" (since_ms now None)) m !! k = Some r.
Proof. intros Hk. by apply selection_lookup. Qed.

Lemma mix_incoming overwrite l (i : row) :
  overwrite = true ∨ l = None → ∃ k, mix overwrite l (Some i) = Some (with_hits k i).
Proof.
  intros H. destruct l as [l|]; [|exists (hit_count i); by destruct i]. destruct H as [->|]; [by eexists|done].
Qed.

(** C35: an answer that one machine recorded, exported, copied as one file, and
    imported where the request has no row of its own, or one that gives way, is
    what a gateway there answers the same request in replay mode: the status
    and the body, with no call and at no cost. *)
Theorem recording_travels `{FloatRepr, FloatParse, FixedFormat} (w w2 : gw_world)
    (cfg cfg2 : GatewayConfig) (attempt_header bug_header attempt2 bug2 : option string)
    (raw raw2 : string) (body body2 : list (string * pyval)) (s s' s2 : gateway) (c c' c2 : cache) (r : reply)
    (e e2 : engine) (now : Q) (src out inc dst : string) (overwrite : bool) (f f' g g' : disk)
    (n : nat) (rep : report) h h' h2 h2' :
  json_loads raw = Some (PDict body) → gw_cache s = Some c →
  mem (mode (cache_config cfg)) ["record"; "cache"] = true → w_upsert_fails w = false →
  chat_completions w cfg attempt_header bug_header raw s = (Ok r, s') →
  gw_posts s' ≠ gw_posts s → (reply_status r < 400)%Z → json_ok (reply_content r) →
  gw_cache s' = Some c' → rows_at src f = entries c' →
  export e now src out "" None f h = (Ok n, (f', h')) →
  g !! inc = shipped f' out → inc ≠ dst →
  import_ e2 dst inc overwrite false g h2 = (Ok rep, (g', h2')) →
  gw_cache s2 = Some c2 → entries c2 = rows_at dst g' →
  json_loads raw2 = Some (PDict body2) → mode (cache_config cfg2) = "replay" → w_select_fails w2 = false →
  let key := derive_key body (normalize_content (cache_config cfg)) in
  derive_key body2 (normalize_content (cache_config cfg2)) = key →
  overwrite = true ∨ rows_at dst g !! key = None →
  ∃ r2 s3, chat_completions w2 cfg2 attempt2 bug2 raw2 s2 = (Ok r2, s3) ∧
    reply_status r2 = reply_status r ∧ reply_content r2 = reply_content r ∧
    dict_get HEADER_COST_USD (reply_headers r2) = Some "0" ∧ gw_posts s3 = gw_posts s2.
Proof.
  intros Hraw Hc Hm Hu Hrun Hposts Hst Hok Hc' Hsrc Hexp Hinc Hne Himp Hc2 Hrows Hraw2 Hm2 Hsel key Hkey Hwins.
  destruct (forwarded_records w cfg attempt_header bug_header raw body s r s' c
    Hraw Hc Hm Hu Hrun Hposts Hst) as (Huse & c1 & rw & Hc1 & Hrow & Hs & Hb).
  rewrite Hc' in Hc1. injection Hc1 as <-.
  destruct (ends_ok _ _ _ _ _ _ _ _ (ends_export e now src out "" None f) Hexp) as (_ & _ & d & Hd & Hcopied & _).
  assert (rows_at inc g !! key = Some rw) as Hin.
  { rewrite (shipped_rows _ _ _ _ _ _ _ Hd Hcopied Hinc). apply selection_all. by rewrite Hsrc. }
  destruct (ends_ok _ _ _ _ _ _ _ _ (ends_import e2 dst inc overwrite g) Himp) as (_ & Hmix & _).
  assert (∃ k, rows_at dst g' !! key = Some (with_hits k rw)) as [k Hrow2].
  { rewrite Hmix, Hin. by apply mix_incoming. }
  destruct (replay_serves w2 cfg2 attempt2 bug2 raw2 body2 s2 c2 (with_hits k rw) (reply_content r))
    as (r2 & s3 & ? & Hst2 & ?); try done; [by rewrite Hrows, Hkey|].
  exists r2, s3. by rewrite Hst2, <- Hs.
Qed.

(** ** A concrete transfer *)

Definition obliging_engine : engine := mkEngine (λ _ _ _, None) (λ _ _ _, 0%nat) (λ _ _, true).
Lemma obliging_is_willing : willing obliging_engine.
Proof. done. Qed.

(** The cache of the gateway of [GwApp.sample_run], while that still runs: all
    its rows are in the log. *)
Lemma run_ok {A} (m : M disk A) f h a : (m f h).1 = Ok a → m f h = (Ok a, ((m f h).2.1, (m f h).2.2)).
Proof. by destruct (m f h) as [? [? ?]]; cbn; intros ->. Qed.

Definition ran : res reply * gateway := Eval vm_compute in sample_run.
Definition answer : reply := Eval vm_compute in GwApp.sample_reply.
Definition recorded : rows := match gw_cache ran.2 with Some c => entries c | None => ∅ end.
Definition live : db :=
  mkDb (mkTables (Some (Some SCHEMA_VERSION)) (Some ∅))
    (Some (mkTables (Some (Some SCHEMA_VERSION)) (Some recorded))) true.
Definition machine_a : disk := {["live.db" := Db live]}.
Definition exported := export obliging_engine 0 "live.db" "out.db" "" None machine_a [].
Definition machine_b : disk :=
  match shipped exported.2.1 "out.db" with Some x => {["in.db" := x]} | None => ∅ end.
Definition imported := import_ obliging_engine "cache.db" "in.db" false false machine_b [].
Definition replayer : gateway := mkGateway (Some (mkCache (rows_at "cache.db" imported.2.1) (mkStats 0 0 0 0))) [] 0 [].

(** A copy of the live file alone has no row. *)
Example copy_of_the_file_alone : t_entries (copied live) = Some ∅ ∧ size recorded = 1%nat ∧ exported.1 = Ok 1%nat.
Proof. by vm_compute. Qed.

Lemma recording_travels_witness :
  ∃ r2 s3, chat_completions (Hrepr := GwApp.sample_repr) (Hparse := GwApp.sample_parse) (Hfmt := GwApp.sample_fixed)
      down_world replay_config None None sample_raw' replayer = (Ok r2, s3) ∧
    reply_status r2 = reply_status answer ∧ reply_content r2 = reply_content answer ∧
    dict_get HEADER_COST_USD (reply_headers r2) = Some "0" ∧ gw_posts s3 = gw_posts replayer.
Proof.
  apply (@recording_travels GwApp.sample_repr GwApp.sample_parse GwApp.sample_fixed
           sample_world down_world sample_config replay_config None (Some "B1") None None
           sample_raw sample_raw' sample_body sample_body' fresh_gateway ran.2 replayer
           (mkCache ∅ (mkStats 0 0 0 0))
           (match gw_cache ran.2 with Some c => c | None => mkCache ∅ (mkStats 0 0 0 0) end)
           (mkCache (rows_at "cache.db" imported.2.1) (mkStats 0 0 0 0)) answer
           obliging_engine obliging_engine 0 "live.db" "out.db" "in.db" "cache.db" false
           machine_a exported.2.1 machine_b imported.2.1 1
           (mkReport 1 1 0 1) [] exported.2.2 [] imported.2.2).
  all: lazymatch goal with
       | |- export _ _ _ _ _ _ _ _ = _ => apply run_ok
       | |- import_ _ _ _ _ _ _ _ = _ => apply run_ok
       | |- entries _ = rows_at _ _ => exact eq_refl
       | |- _ => idtac
       end.
  all: try (vm_compute; reflexivity).
  - vm_compute. discriminate.
  - apply json_ok_flat. vm_compute. reflexivity.
  - discriminate.
  - right. vm_compute. reflexivity.
Defined.

(** ** A merge of rows that overlap *)

Definition row_of (body : string) (hits : nat) : row := mkRow body 200 5 (Some "b") 1000 hits.
Definition cache_db (m : rows) : file := Db (mkDb (mkTables (Some (Some SCHEMA_VERSION)) (Some m)) None false).
Definition two_caches : disk :=
  <["mine" := cache_db {["k1" := row_of "mine" 7]}]>
    {["theirs" := cache_db (<["k1" := row_of "theirs" 3]> {["k2" := row_of "theirs" 1]})]}.

Definition merging := import_ obliging_engine "mine" "theirs" true false two_caches [].
Definition trying := import_ obliging_engine "mine" "theirs" true true two_caches [].
Definition merged_report : report := mkReport 2 1 1 2.
Definition tried_report : report := mkReport 2 1 1 0.

Lemma import_merges_witness :
  (∀ k, rows_at "mine" merging.2.1 !! k = mix true (rows_at "mine" two_caches !! k) (rows_at "theirs" two_caches !! k)) ∧
  size (rows_at "mine" merging.2.1) = (size (rows_at "mine" two_caches) + new merged_report)%nat ∧
  (Z.of_nat (incoming merged_report) = Z.of_nat (new merged_report) + already_present merged_report)%Z ∧
  (∀ q, q ≠ "mine" → merging.2.1 !! q = two_caches !! q) ∧
  trying.2.1 = two_caches ∧ incoming tried_report = incoming merged_report ∧
  new tried_report = new merged_report ∧ already_present tried_report = already_present merged_report.
Proof.
  apply (import_merges obliging_engine obliging_engine "mine" "theirs" true two_caches merging.2.1 trying.2.1
           [] merging.2.2 [] trying.2.2 merged_report tried_report); apply run_ok; vm_compute; reflexivity.
Defined.

Example merged_rows :
  rows_at "mine" merging.2.1 !! "k1" = Some (row_of "theirs" 7) ∧
  rows_at "mine" merging.2.1 !! "k2" = Some (row_of "theirs" 1).
Proof. by vm_compute. Qed.

(** An engine that refuses every batch after its first row. *)
Definition failing_engine : engine :=
  mkEngine (λ op _ _, if bool_decide (op = "insert") then Some (Exn "OperationalError" "disk I/O error") else None)
    (λ _ _ _, 1%nat) (λ _ _, false).

Lemma interrupted_import_completes_witness :
  ∃ r f', import_ obliging_engine "mine" "theirs" true false
      (attempts "mine" "theirs" true [failing_engine; failing_engine] two_caches) [] = (Ok r, (f', [])) ∧
    (∀ k, rows_at "mine" f' !! k = mix true (rows_at "mine" two_caches !! k) (rows_at "theirs" two_caches !! k)) ∧
    (∀ q, q ≠ "mine" → f' !! q = two_caches !! q).
Proof.
  apply (interrupted_import_completes "mine" "theirs" true).
  - discriminate.
  - exact obliging_is_willing.
  - eexists _, _. split; [vm_compute; reflexivity|reflexivity].
  - eexists. split; [vm_compute; reflexivity|reflexivity].
Defined.

(** ** What goes wrong unseen *)

(** An export that fails on its way leaves a file that looks like a whole one:
    it is imported, and what it lacks is missed. *)
Definition torn := export failing_engine 0 "theirs" "out" "" None two_caches [].
Example torn_export_is_accepted :
  is_ok torn.1 = false ∧ size (rows_at "theirs" two_caches) = 2%nat ∧
  (import_ obliging_engine "fresh" "out" false false torn.2.1 []).1 = Ok (mkReport 1 1 0 1).
Proof. by vm_compute. Qed.

(** A database that is no cache is refused as a source and becomes one as a
    target; a file that is no database escapes [main]. *)
Definition foreign : disk := <["other" := Db new_db]> (<["text" := Garbage]> two_caches).
Example foreign_database_is_taken_over :
  (main obliging_engine 0 (Import "mine" "other" false false) foreign []).1 = Ok 2%Z ∧
  (main obliging_engine 0 (Import "other" "theirs" false false) foreign []).1 = Ok 0%Z ∧
  is_ok (main obliging_engine 0 (Import "mine" "text" false false) foreign []).1 = true ∧
  is_ok (main obliging_engine 0 (Import "text" "theirs" false false) foreign []).1 = false.
Proof. by vm_compute. Qed.

(** Where there is no cache yet, a dry run refuses what the import does. *)
Example dry_run_refuses_a_new_cache :
  (main obliging_engine 0 (Import "fresh" "theirs" false true) two_caches []).1 = Ok 2%Z ∧
  (main obliging_engine 0 (Import "fresh" "theirs" false false) two_caches []).1 = Ok 0%Z.
Proof. by vm_compute. Qed.

Example inspected :
  (info obliging_engine "theirs" two_caches []).1 =
    Ok (mkInfo 2 4 12 (Some 1000%Z) (Some 1000%Z) {["b" := 2%nat]} false).
Proof. by vm_compute. Qed.

End CacheTransferSpec.
