(* ===== verification/Trace.v ===== *)
(** * Reading a CI trace

    Model of [bf_worker/services/parse_trace.py]: the error line, the lines
    around it, and the first source location after it. *)

From S2P Require Import Prelude PyStr Regex.
Local Open Scope string_scope.
Local Open Scope list_scope.

Module Trace.

Definition GITLAB_PREFIX_RE : re :=
  Eval vm_compute in rx no_flags "^\d{4}-\d{2}-\d{2}T\d{2}:\d{2}:\d{2}(?:\.\d+)?Z?\s+\d+[OE]\+?\s*".
Definition ANSI_RE : re := Eval vm_compute in rx no_flags "\x1b\[[\d;]*[a-zA-Z]".
Definition ERROR_RE : re := Eval vm_compute in rx no_flags "E\s+([\w\.]+Error: .+)".
Definition ASSERT_RE : re := Eval vm_compute in rx no_flags "E\s+(assert .+)".
Definition LOCATION_RE : re := Eval vm_compute in rx no_flags "([A-Za-z0-9_/\\.-]+\.py):(\d+)".

Definition strip_trace_prefix (line : string) : string :=
  re_sub GITLAB_PREFIX_RE [] (re_sub ANSI_RE [] line).

Definition is_error_line (line : string) : bool :=
  let stripped := strip_trace_prefix line in
  match re_match ERROR_RE stripped with
  | Some _ => true
  | None => match re_match ASSERT_RE stripped with Some _ => true | None => false end
  end.

Record suspect := mkSuspect { file_path : string; line_number_1_based : Z }.

Definition location (line : string) : option suspect :=
  match re_match LOCATION_RE (strip_trace_prefix line) with
  | Some (_, _, c) =>
      Some (mkSuspect (default "" (cap_get 1 c)) (default 0%Z (str_int (default "" (cap_get 2 c)))))
  | None => None
  end.

(** The index of the first element that satisfies [P]. *)
Fixpoint find_index {A} (P : A → bool) (l : list A) : option nat :=
  match l with
  | [] => None
  | x :: l' => if P x then Some 0%nat else S <$> find_index P l'
  end.

Fixpoint first_location (lines : list string) : option suspect :=
  match lines with
  | [] => None
  | l :: lines' => match location l with Some s => Some s | None => first_location lines' end
  end.

(** [lines[max(0, i-5) : min(n, i+10)]] *)
Definition window (lines : list string) (i : nat) : list string :=
  let lo := (i - 5)%nat in
  firstn (Nat.min (List.length lines) (i + 10) - lo) (skipn lo lines).

Record parsed := mkParsed { error_message : option string; suspect_files : option (list suspect) }.

Definition parse_trace (trace_text : string) : parsed :=
  let trace_lines := str_split c_nl trace_text in
  match find_index is_error_line trace_lines with
  | None => mkParsed None None
  | Some error_i =>
      mkParsed (Some (str_join nl (window trace_lines error_i)))
        ((λ s, [s]) <$> first_location (skipn (S error_i) trace_lines))
  end.

Definition sample_trace : string :=
  str_join nl ["2026-05-28T22:02:21.669535Z 01O collected 1 item";
               "2026-05-28T22:02:21.669535Z 01O E   ZeroDivisionError: division by zero";
               "2026-05-28T22:02:21.669536Z 01O src/calc.py:12: ZeroDivisionError"].

Example parse_gitlab :
  parse_trace sample_trace =
  mkParsed (Some sample_trace) (Some [mkSuspect "src/calc.py" 12]).
Proof. vm_compute. reflexivity. Qed.

(** ** What is extracted *)

Lemma find_index_spec {A} (P : A → bool) l :
  match find_index P l with
  | Some i => ∃ x, l !! i = Some x ∧ P x = true ∧ ∀ j y, (j < i)%nat → l !! j = Some y → P y = false
  | None => ∀ x, x ∈ l → P x = false
  end.
Proof.
  induction l as [|x l IH]; simpl; [by intros x ?%elem_of_nil|].
  destruct (P x) eqn:E; [exists x; repeat split; auto; lia|].
  destruct (find_index P l) as [i|]; simpl.
  - destruct IH as (y & Hy & Hp & Hpre). exists y. repeat split; auto.
    intros [|j] z Hj Hz; simpl in Hz; [congruence|]. eapply (Hpre j); [lia|done].
  - intros y [->|Hy]%elem_of_cons; auto.
Qed.

Lemma first_location_spec lines :
  match first_location lines with
  | Some s => ∃ i l, lines !! i = Some l ∧ location l = Some s ∧
      ∀ j m, (j < i)%nat → lines !! j = Some m → location m = None
  | None => ∀ l, l ∈ lines → location l = None
  end.
Proof.
  induction lines as [|l lines IH]; simpl; [by intros x ?%elem_of_nil|].
  destruct (location l) as [s|] eqn:E; [exists 0%nat, l; repeat split; auto; lia|].
  destruct (first_location lines) as [s|].
  - destruct IH as (i & m & Hm & Hs & Hpre). exists (S i), m. repeat split; auto.
    intros [|j] z Hj Hz; simpl in Hz; [congruence|]. eapply (Hpre j); [lia|done].
  - intros y [->|Hy]%elem_of_cons; auto.
Qed.

Lemma window_lookup lines i k :
  (k < Nat.min (List.length lines) (i + 10) - (i - 5))%nat →
  window lines i !! k = lines !! (i - 5 + k)%nat.
Proof.
  intros Hk. unfold window.
  change (firstn ?n ?l) with (take n l). change (skipn ?n ?l) with (drop n l).
  rewrite lookup_take_lt by done. by rewrite lookup_drop.
Qed.

Lemma window_length lines i :
  List.length (window lines i) = (Nat.min (List.length lines) (i + 10) - (i - 5))%nat.
Proof.
  unfold window. change (firstn ?n ?l) with (take n l). change (skipn ?n ?l) with (drop n l).
  rewrite length_take, length_drop. lia.
Qed.

(** A trace with an error line gives the lines around the first one, copied
    from the trace, at most fifteen of them, the error among them; the suspect
    is the first source location after it.  Without an error line it gives
    nothing. *)
Theorem parse_trace_spec (trace_text : string) :
  let lines := str_split c_nl trace_text in
  match error_message (parse_trace trace_text) with
  | None => suspect_files (parse_trace trace_text) = None ∧ ∀ l, l ∈ lines → is_error_line l = false
  | Some msg =>
      ∃ i l, lines !! i = Some l ∧ is_error_line l = true ∧
        (∀ j m, (j < i)%nat → lines !! j = Some m → is_error_line m = false) ∧
        (∃ shown, msg = str_join nl shown ∧ l ∈ shown ∧ (List.length shown ≤ 15)%nat ∧
           ∃ before after, lines = before ++ shown ++ after) ∧
        match suspect_files (parse_trace trace_text) with
        | Some ss => ∃ s k m, ss = [s] ∧ (i < k)%nat ∧ lines !! k = Some m ∧ location m = Some s ∧
            ∀ j m', (i < j < k)%nat → lines !! j = Some m' → location m' = None
        | None => ∀ j m, (i < j)%nat → lines !! j = Some m → location m = None
        end
  end.
Proof.
  cbv zeta. unfold parse_trace. pose proof (find_index_spec is_error_line (str_split c_nl trace_text)) as Hi.
  destruct (find_index _ _) as [i|]; simpl; [|done].
  set (lines := str_split c_nl trace_text) in *. destruct Hi as (l & Hl & He & Hpre).
  exists i, l. split; [done|]. split; [done|]. split; [done|].
  pose proof (lookup_lt_Some _ _ _ Hl) as Hlt. split.
  - exists (window lines i). split; [done|]. split; [|split].
    + apply list_elem_of_lookup. exists (Nat.min i 5). rewrite window_lookup by lia.
      replace (i - 5 + Nat.min i 5)%nat with i by lia. done.
    + rewrite window_length. lia.
    + exists (firstn (i - 5) lines), (skipn (i - 5 + List.length (window lines i)) lines).
      rewrite window_length. unfold window.
      change (firstn ?n ?l) with (take n l). change (skipn ?n ?l) with (drop n l).
      rewrite <- drop_drop, take_drop. by rewrite take_drop.
  - pose proof (first_location_spec (skipn (S i) lines)) as Hs.
    change (skipn (S i) lines) with (drop (S i) lines) in *.
    destruct (first_location (drop (S i) lines)) as [s|]; simpl.
    + destruct Hs as (k & m & Hm & Hloc & Hno). rewrite lookup_drop in Hm.
      exists s, (S i + k)%nat, m. repeat split; auto; [lia|].
      intros j m' Hj Hm'. apply (Hno (j - S i)%nat); [lia|].
      rewrite lookup_drop. by replace (S i + (j - S i))%nat with j by lia.
    + intros j m Hj Hm. apply Hs. apply list_elem_of_lookup. exists (j - S i)%nat.
      rewrite lookup_drop. by replace (S i + (j - S i))%nat with j by lia.
Qed.

End Trace.
