(* ===== verification/ToolCalls.v ===== *)
(** * Tool calls written as text

    Model of the recovery half of [bf_worker/graph/nodes/react_loop.py]: a
    backend that prints its tool call in the message content (bare, wrapped in
    tags, fenced, or after prose) instead of the structured field. *)

From S2P Require Import Prelude PyStr PyJson PyJsonLoads Regex.
Local Open Scope string_scope.
Local Open Scope list_scope.

Module ToolCalls.

(** ** The last balanced object *)

(** The locals of [_find_last_json_object]; [start] is meant while [depth] is
    positive, [span] is the last one completed. *)
Record scanner := mkScanner {
  depth : nat; start : nat; in_string : bool; escape : bool; span : option (nat * nat)
}.

Definition scan_char (i : nat) (c : ascii) (s : scanner) : scanner :=
  if escape s then mkScanner (depth s) (start s) (in_string s) false (span s)
  else if in_string s then
    if ch_eq c c_backslash then mkScanner (depth s) (start s) true true (span s)
    else if ch_eq c c_dquote then mkScanner (depth s) (start s) false false (span s)
    else s
  else if ch_eq c c_dquote then mkScanner (depth s) (start s) true false (span s)
  else if ch_eq c "{"%char then
    mkScanner (S (depth s)) (if (depth s =? 0)%nat then i else start s) false false (span s)
  else if ch_eq c "}"%char then
    match depth s with
    | O => s
    | S O => mkScanner 0 (start s) false false (Some (start s, S i))
    | S d => mkScanner d (start s) false false (span s)
    end
  else s.

Fixpoint scan_text (i : nat) (text : string) (s : scanner) : scanner :=
  match text with
  | EmptyString => s
  | String c text' => scan_text (S i) text' (scan_char i c s)
  end.

Definition scanner0 : scanner := mkScanner 0 0 false false None.

(** [text[a:b]] for [0 <= a <= b] *)
Definition substring_of (a b : nat) (text : string) : string := str_take (b - a) (str_drop a text).

Definition find_last_json_object (text : string) : option string :=
  match span (scan_text 0 text scanner0) with
  | Some (s, e) => Some (substring_of s e text)
  | None => None
  end.

(** ** Reading a call *)

Section recover.
Context {Hparse : FloatParse}.

Definition str_or_list_start (text : string) : bool := startswith "{" text || startswith "[" text.

Definition as_dict_args (args : pyval) : option (list (string * pyval)) :=
  match args with
  | PStr s => match json_loads s with Some (PDict d) => Some d | _ => None end
  | PDict d => Some d
  | _ => None
  end.

Definition call_of (parsed : list (string * pyval)) : option (string * list (string * pyval)) :=
  let args := default (dget "args" parsed) (dict_get "arguments" parsed) in
  match dget "name" parsed with
  | PStr (String _ _ as name) => (λ a, (name, a)) <$> as_dict_args args
  | _ => None
  end.

Definition try_parse_tool_call (text : string) : option (string * list (string * pyval)) :=
  if str_or_list_start text then
    match json_loads text with
    | Some (PDict d) => call_of d
    | Some (PList (PDict d :: _)) => call_of d
    | _ => None
    end
  else None.

(** The back-reference of the source, over its two alternatives: the body is
    group 2 or group 4. *)
Definition TOOL_CALL_WRAPPER_RE : re := Eval vm_compute in
  rx (mkFlags true false true)
    "<(tool_call)\b[^>]*>(.*?)</tool_call>|<(tools)\b[^>]*>(.*?)</tools>".
Definition FENCE_RE : re := Eval vm_compute in
  rx (mkFlags true false true) "```(?:json)?\s*(.*?)\s*```".

Definition group (c : caps) (i : nat) : string := default EmptyString (cap_get i c).

(** The candidate texts, from the most explicit shape to the least. *)
Definition candidates (text : string) : list string :=
  match re_search TOOL_CALL_WRAPPER_RE text with
  | Some (_, _, _, c) => [str_strip (match cap_get 2 c with Some b => b | None => group c 4 end)]
  | None => []
  end ++
  match re_search FENCE_RE text with
  | Some (_, _, _, c) => [str_strip (group c 1)]
  | None => []
  end ++
  [text] ++
  match find_last_json_object text with Some (String _ _ as o) => [o] | _ => [] end.

Fixpoint first_call (seen l : list string) : option (string * list (string * pyval)) :=
  match l with
  | [] => None
  | cand :: l' =>
      if mem cand seen then first_call seen l'
      else match try_parse_tool_call cand with
           | Some call => Some call
           | None => first_call (cand :: seen) l'
           end
  end.

Record tool_call := mkCall { tc_name : string; tc_id : string; tc_args : list (string * pyval) }.

(** [_maybe_recover_tool_call_from_content]: the calls of the message after it.
    [fresh_id] is the random identifier. *)
Definition recover (tool_calls : list tool_call) (content : pyval) (fresh_id : string) :
    list tool_call :=
  match tool_calls, content with
  | [], PStr s =>
      match str_strip s with
      | EmptyString => []
      | text => match first_call [] (candidates text) with
                | Some (name, args) => [mkCall name ("recovered_" +:+ fresh_id) args]
                | None => []
                end
      end
  | _, _ => tool_calls
  end.

End recover.

#[local] Instance example_parse : FloatParse := λ _, None.

Example recover_wrapped :
  recover [] (PStr ("<Tool_Call>" +:+ json_dumps (H := λ _, "0.0") default_opts
    (PDict [("name", PStr "abort_fix"); ("arguments", PDict [("reason", PStr "no")])]) +:+ "</tool_CALL>")) "7" =
  [mkCall "abort_fix" "recovered_7" [("reason", PStr "no")]].
Proof. vm_compute. reflexivity. Qed.

Example recover_fenced :
  recover [] (PStr ("Here it is:" +:+ nl +:+ "```json" +:+ nl +:+ json_dumps (H := λ _, "0.0") default_opts
    (PList [PDict [("name", PStr "abort_fix"); ("args", PDict [])]]) +:+ nl +:+ "```")) "7" =
  [mkCall "abort_fix" "recovered_7" []].
Proof. vm_compute. reflexivity. Qed.

(** ** The scanner on JSON text *)

Lemma scan_text_app i a b s : scan_text i (a +:+ b) s = scan_text (i + String.length a) b (scan_text i a s).
Proof.
  revert i s. induction a as [|c a IH]; intros i s; simpl; [by rewrite Nat.add_0_r|].
  rewrite IH. by rewrite <- Nat.add_succ_comm.
Qed.

(** Text without quotes and braces leaves the scanner alone outside strings. *)
Definition quiet (c : ascii) : bool :=
  negb (ch_eq c c_dquote || ch_eq c "{"%char || ch_eq c "}"%char).

Lemma scan_quiet i text s :
  str_forallb quiet text = true → in_string s = false → escape s = false → scan_text i text s = s.
Proof.
  revert i. induction text as [|c text IH]; intros i Hq Hs He; simpl in *; [done|].
  apply andb_true_iff in Hq as [Hc Hq]. unfold quiet in Hc.
  apply negb_true_iff, orb_false_iff in Hc as [[Hd Ho]%orb_false_iff Hcl].
  assert (scan_char i c s = s) as -> by (unfold scan_char; by rewrite He, Hs, Hd, Ho, Hcl).
  by apply IH.
Qed.

(** A string literal leaves it alone too. *)
Lemma scan_json_char i ea c d st sp rest :
  scan_text i (json_char ea c +:+ rest) (mkScanner d st true false sp) =
  scan_text (i + String.length (json_char ea c)) rest (mkScanner d st true false sp).
Proof.
  destruct ea, c as [[] [] [] [] [] [] [] []];
    match goal with |- context [json_char ?b ?a] =>
      let t := eval vm_compute in (json_char b a) in change (json_char b a) with t end;
    cbn [String.append String.length scan_text]; rewrite ?Nat.add_succ_r, ?Nat.add_0_r; reflexivity.
Qed.

Lemma scan_json_chars i ea s d st sp rest :
  scan_text i (json_chars ea s +:+ rest) (mkScanner d st true false sp) =
  scan_text (i + String.length (json_chars ea s)) rest (mkScanner d st true false sp).
Proof.
  revert i. induction s as [|c s IH]; intros i; cbn [json_chars]; [by rewrite Nat.add_0_r|].
  rewrite <- str_app_assoc, scan_json_char, IH, str_length_app. f_equal. lia.
Qed.

Lemma scan_json_str i ea s d st sp rest :
  scan_text i (json_str ea s +:+ rest) (mkScanner d st false false sp) =
  scan_text (i + String.length (json_str ea s)) rest (mkScanner d st false false sp).
Proof.
  unfold json_str, dquote. rewrite <- !str_app_assoc. cbn [String.append scan_text].
  assert (scan_char i c_dquote (mkScanner d st false false sp) = mkScanner d st true false sp) as -> by done.
  rewrite scan_json_chars. cbn [scan_text].
  assert (∀ j, scan_char j c_dquote (mkScanner d st true false sp) = mkScanner d st false false sp) as -> by done.
  cbn [String.length]. rewrite str_length_app. cbn [String.length]. f_equal. lia.
Qed.

(** What a value does to the scanner below an open brace, and at the top: a
    value other than an object leaves it alone, an object ends a span. *)
Section values.
Context {Hrepr : FloatRepr} {Hparse : FloatParse} (o : json_opts) (Hseps : plain_seps o).

Definition passes (text : string) : Prop := ∀ i d st sp rest, (0 < d)%nat →
  scan_text i (text +:+ rest) (mkScanner d st false false sp) =
  scan_text (i + String.length text) rest (mkScanner d st false false sp).

Lemma passes_app a b : passes a → passes b → passes (a +:+ b).
Proof.
  intros Ha Hb i d st sp rest Hd. rewrite <- str_app_assoc, Ha, Hb by done.
  by rewrite str_length_app, Nat.add_assoc.
Qed.

Lemma passes_quiet text : str_forallb quiet text = true → passes text.
Proof. intros Hq i d st sp rest _. rewrite scan_text_app. by rewrite (scan_quiet i text). Qed.

Lemma passes_join sep l : passes sep → Forall passes l → passes (str_join sep l).
Proof.
  intros Hsep Hl. induction Hl as [|x l Hx Hl IH]; [by apply passes_quiet|].
  destruct l as [|y l]; [done|]. change (passes (x +:+ sep +:+ str_join sep (y :: l))).
  by repeat apply passes_app.
Qed.

(** Floats are written without quotes and braces, as JSON numbers are. *)
Fixpoint quiet_floats (v : pyval) : Prop :=
  match v with
  | PFloat q => str_forallb quiet (float_repr q) = true
  | PList l => foldr (λ x P, quiet_floats x ∧ P) True l
  | PDict d => foldr (λ '(_, x) P, quiet_floats x ∧ P) True d
  | _ => True
  end.

Lemma quiet_digits z : str_forallb quiet (str_of_Z z) = true.
Proof.
  assert (∀ c, is_digit c = true → quiet c = true) as H.
  { intros [[] [] [] [] [] [] [] []]; vm_compute; congruence. }
  unfold str_of_Z. destruct (z <? 0)%Z; simpl; apply (str_forallb_impl is_digit); auto using str_of_N_digits.
Qed.

(** The inside of an object, from its opening to its closing brace. *)
Lemma object_span i st d sp body rest :
  passes body →
  scan_text i (("{" +:+ body +:+ "}") +:+ rest) (mkScanner d st false false sp) =
  scan_text (i + String.length ("{" +:+ body +:+ "}")) rest
    (if (d =? 0)%nat
     then mkScanner 0 i false false (Some (i, i + String.length ("{" +:+ body +:+ "}")))
     else mkScanner d st false false sp)%nat.
Proof.
  intros Hb. rewrite <- !str_app_assoc. cbn [String.append scan_text].
  assert (scan_char i "{" (mkScanner d st false false sp) =
          mkScanner (S d) (if (d =? 0)%nat then i else st) false false sp) as -> by done.
  rewrite Hb by lia. cbn [String.append scan_text String.length].
  rewrite str_length_app. cbn [String.length].
  replace (S (S i + String.length body)) with (i + S (String.length body + 1))%nat by lia.
  destruct d as [|d]; cbn [Nat.eqb]; [|done].
  f_equal. cbn. do 2 f_equal. f_equal. lia.
Qed.

Lemma object_passes body : passes body → passes ("{" +:+ body +:+ "}").
Proof.
  intros Hb i d st sp rest Hd. rewrite object_span by done.
  by destruct (Nat.eqb_spec d 0); [lia|].
Qed.

Lemma seps_quiet : str_forallb quiet (item_sep o) = true ∧ str_forallb quiet (key_sep o) = true.
Proof. destruct Hseps as [[-> | ->] [-> | ->]]; done. Qed.

Lemma str_passes ea s : passes (json_str ea s).
Proof. intros i d st sp rest _. apply scan_json_str. Qed.

Lemma member_passes m : passes (json_dumps o m.2) → passes (member_text o m).
Proof.
  intros Hm. unfold member_text. apply passes_app; [apply str_passes|].
  apply passes_app; [apply passes_quiet, seps_quiet|done].
Qed.

Lemma value_passes v : quiet_floats v → passes (json_dumps o v).
Proof.
  revert v. fix IH 1. intros v Hf. destruct v as [|[]|z|q|s|l|d].
  1-3: by apply passes_quiet.
  - apply passes_quiet, quiet_digits.
  - by apply passes_quiet.
  - apply str_passes.
  - change (json_dumps o (PList l)) with ("[" +:+ str_join (item_sep o) (map (json_dumps o) l) +:+ "]").
    apply passes_app; [by apply passes_quiet|]. apply passes_app; [|by apply passes_quiet].
    apply passes_join; [apply passes_quiet, seps_quiet|].
    induction l as [|x l IHl]; [constructor|]. destruct Hf as [Hx Hl].
    constructor; [by apply IH|by apply IHl].
  - rewrite dumps_dict. apply object_passes.
    apply passes_join; [apply passes_quiet, seps_quiet|].
    assert (Forall (λ m, passes (json_dumps o m.2)) d) as Hd.
    { induction d as [|[k x] d IHd]; [constructor|]. destruct Hf as [Hx Hd].
      constructor; [by apply IH|by apply IHd]. }
    clear IH. apply Forall_map. rewrite key_order_perm. eapply Forall_impl; [exact Hd|].
    intros m. apply member_passes.
Qed.

(** An object after quiet prose is the last object of the text. *)
Lemma find_last_after_prose prose d after :
  str_forallb quiet prose = true → str_forallb quiet after = true → quiet_floats (PDict d) →
  find_last_json_object (prose +:+ json_dumps o (PDict d) +:+ after) = Some (json_dumps o (PDict d)).
Proof.
  intros Hp Ha Hf. unfold find_last_json_object. rewrite scan_text_app, (scan_quiet 0 prose) by done.
  assert (passes (str_join (item_sep o) (map (member_text o) (key_order o d)))) as Hbody.
  { apply passes_join; [apply passes_quiet, seps_quiet|].
    apply Forall_map. rewrite key_order_perm. simpl in Hf.
    induction d as [|[k x] d IHd]; [constructor|]. destruct Hf as [Hx Hd].
    constructor; [|by apply IHd]. apply member_passes. by apply value_passes. }
  rewrite dumps_dict. unfold scanner0. rewrite object_span by done. cbn [Nat.eqb].
  rewrite scan_quiet by done. cbn [span Nat.add].
  set (t := "{" +:+ _ +:+ "}"). f_equal. unfold substring_of.
  rewrite str_drop_app. replace (String.length prose + String.length t - String.length prose)%nat
    with (String.length t) by lia. apply str_take_app.
Qed.

End values.

(** A call that a backend printed as JSON after prose, untagged and unfenced,
    is recovered as the call it is, with exactly its arguments. *)
Theorem recover_after_prose {Hrepr : FloatRepr} {Hparse : FloatParse} (c : ascii)
    (prose after name fresh_id : string) (args : list (string * pyval)) :
  let call := PDict [("name", PStr name); ("arguments", PDict args)] in
  let text := String c prose +:+ json_dumps default_opts call +:+ after in
  str_forallb quiet (String c prose) = true → str_forallb quiet after = true → c ≠ "["%char →
  name ≠ "" → json_ok call → quiet_floats call → str_strip text = text →
  re_search TOOL_CALL_WRAPPER_RE text = None → re_search FENCE_RE text = None →
  recover [] (PStr text) fresh_id = [mkCall name ("recovered_" +:+ fresh_id) args].
Proof.
  intros call text Hp Ha Hc Hn Hok Hf Hs Hw Hfe.
  assert (plain_seps default_opts) as Hseps by (by split; right).
  assert (find_last_json_object text = Some (json_dumps default_opts call)) as Hfind
    by (by apply find_last_after_prose).
  assert (ch_eq "{" c = false ∧ ch_eq "[" c = false) as [Hb Hl].
  { split; apply ch_eq_false; intros <-; [|done]. by cbn in Hp. }
  assert (try_parse_tool_call text = None) as Ht.
  { unfold try_parse_tool_call, str_or_list_start, text. cbn [String.append startswith].
    by rewrite Hb, Hl. }
  assert (json_dumps default_opts call ∉ [text]) as Hne.
  { intros Heq%list_elem_of_singleton. unfold text, call in Heq. rewrite dumps_dict in Heq at 1.
    cbn [String.append] in Heq. injection Heq as Heq _. subst c. done. }
  unfold recover. rewrite Hs. unfold text at 1. cbn [String.append]. cbv iota.
  change (String c (prose +:+ json_dumps default_opts call +:+ after)) with text.
  unfold candidates. rewrite Hw, Hfe, Hfind.
  destruct (dumps_head default_opts call Hok) as (d & t & Ed & _). rewrite Ed in *.
  clearbody text. cbn [app first_call]. unfold mem.
  rewrite bool_decide_eq_false_2 by apply not_elem_of_nil. rewrite Ht.
  rewrite bool_decide_eq_false_2 by done. unfold try_parse_tool_call. rewrite <- Ed.
  rewrite (json_loads_dumps default_opts Hseps call Hok), canon_unsorted by done.
  assert (str_or_list_start (json_dumps default_opts call) = true) as -> by done.
  unfold call, call_of. cbn. destruct name; [done|]. done.
Qed.

Lemma recover_after_prose_witness :
  recover (Hparse := λ _, None) []
    (PStr (String "I"%char " give up: " +:+ json_dumps (H := λ _, "0.0") default_opts
       (PDict [("name", PStr "abort_fix"); ("arguments", PDict [("reason", PStr "a {brace}")])]) +:+ " done")) "7" =
  [mkCall "abort_fix" ("recovered_" +:+ "7") [("reason", PStr "a {brace}")]].
Proof.
  apply (recover_after_prose (Hrepr := λ _, "0.0") (Hparse := λ _, None)); try (vm_compute; reflexivity).
  - discriminate.
  - discriminate.
  - apply json_ok_flat. vm_compute. reflexivity.
  - vm_compute. auto.
Defined.

End ToolCalls.
