(* ===== verification/RunRecord.v ===== *)
(** * Run records

    Model of [bf_worker/agents/run_record.py]: the record of one [fix], its
    construction from the final state, and its JSON form.  A record is the list
    of its fields with their values, in the order of the dataclass. *)

From S2P Require Import Prelude PyStr PyTime PyJson PyJsonLoads PyJsonIndent Prompt.
Local Open Scope string_scope.
Local Open Scope list_scope.

Module RunRecord.
Import Prompt.

Definition SCHEMA_VERSION : string := "1".
Definition GIT_STATUS_MAX_CHARS : nat := 4000.

(** The fields of the dataclass. *)
Definition FIELDS : list string :=
  ["schema_version"; "agent_name"; "bug_id"; "outcome"; "timestamp"; "error"; "iterations"; "elapsed_s";
   "project_id"; "project_web_url"; "job_id"; "agent_config"; "run_id"; "llm_model";
   "agent_code_git_commit"; "agent_code_git_branch"; "agent_code_git_dirty"; "agent_code_git_status";
   "react_step_count"; "react_confidence"; "fix_branch_name"; "branch_create_status"; "base_branch";
   "base_commit"; "commit_status"; "commit_branch"; "commit_hash"; "review_status"; "review_url";
   "review_id"; "review_iid"; "review_branch"; "patch_file"; "report_file"; "branch_create_result";
   "commit_result"; "review_result"; "test_passed"; "suspect_file_path"; "parse_trace_fallback";
   "source_fetch_failed"; "fetch_trace_retries"; "fetch_source_file_retries"; "commit_change_retries";
   "wait_ci_result_retries"; "create_mr_retries"; "reflection_count"; "reflection_mode";
   "code_review_status"; "code_review_finding_count"; "code_review_would_escalate";
   "code_review_findings"; "code_review_rounds"; "max_input_tokens"; "llm_call_count";
   "total_prompt_tokens"; "total_completion_tokens"; "total_cached_input_tokens"; "total_cost_usd";
   "cost_currency"; "cost_source"; "total_llm_wallclock_s"; "llm_call_wallclock_ms";
   "llm_model_served"; "llm_backend_name"; "no_fix_retry_count"; "swebench_instance_id"; "resolved";
   "step_resume_count"; "step_resumed_from_step"; "step_replayed_command_count"].

Notation record := (list (string * pyval)).

(** ** The checkout of the agent itself *)

(** [subprocess.run(["git", *args])]: its exit status and standard output,
    [None] where it raises. *)
Definition git_runner : Type := list string → option (Z * string).

Definition opt_text (o : option string) : pyval := match o with Some s => PStr s | None => PNone end.

Definition git_output (git : git_runner) (args : list string) : option string :=
  match git args with
  | Some (rc, out) => if (rc =? 0)%Z then Some (str_strip out) else None
  | None => None
  end.

Definition shorten (status : string) : string :=
  if (GIT_STATUS_MAX_CHARS <? String.length status)%nat
  then str_take GIT_STATUS_MAX_CHARS status +:+ nl +:+ "...[truncated]" else status.

Definition agent_code_git_info (git : git_runner) : record :=
  let status := shorten <$> git_output git ["status"; "--short"] in
  [("agent_code_git_commit", opt_text (git_output git ["rev-parse"; "HEAD"]));
   ("agent_code_git_branch", py_or (opt_text (git_output git ["branch"; "--show-current"]))
                               (opt_text (git_output git ["rev-parse"; "--abbrev-ref"; "HEAD"])));
   ("agent_code_git_dirty", match status with Some s => PBool (str_nonempty s) | None => PNone end);
   ("agent_code_git_status", opt_text status)].

(** ** from_outputs *)

(** The arguments of [from_outputs]. *)
Record outputs := mkOutputs {
  o_agent_name : string;
  o_bug_id : string;
  o_project_id : string;
  o_project_web_url : string;
  o_job_id : string;
  o_outcome : string;
  o_error : pyval;
  o_iterations : Z;
  o_final_state : option state;
  o_elapsed_s : pyval;
  o_agent_config : pyval;
  o_run_id : pyval;
  o_llm_model : pyval;
  o_llm_model_served : pyval
}.

Section construction.
Context (git : git_runner) (via_gateway : bool).

(** Where a cost comes from, unless the agent says so. *)
Definition cost_source (s : state) : pyval :=
  py_or (sget "cost_source" s)
    (match sget "total_cost_usd" s with
     | PNone => PNone
     | _ => PStr (if via_gateway then "gateway" else "local_pricing")
     end).

Definition cost_currency (s : state) : pyval :=
  match sget "total_cost_usd" s with PNone => PNone | _ => PStr "USD" end.

(** The fields that are not copied from the final state. *)
Definition explicit (now : Z) (o : outputs) (s : state) : record :=
  [("schema_version", PStr SCHEMA_VERSION); ("agent_name", PStr (o_agent_name o));
   ("bug_id", PStr (o_bug_id o)); ("project_id", PStr (o_project_id o));
   ("project_web_url", PStr (o_project_web_url o)); ("job_id", PStr (o_job_id o));
   ("outcome", PStr (o_outcome o)); ("error", o_error o); ("iterations", PInt (o_iterations o));
   ("elapsed_s", o_elapsed_s o); ("agent_config", py_or (o_agent_config o) (PDict []));
   ("run_id", o_run_id o); ("llm_model", o_llm_model o)]
  ++ agent_code_git_info git ++
  [("timestamp", PStr (stamp now)); ("cost_currency", cost_currency s); ("cost_source", cost_source s);
   ("llm_model_served", o_llm_model_served o)].

Definition field (now : Z) (o : outputs) (k : string) : pyval :=
  let s := default ∅ (o_final_state o) in
  match dict_get k (explicit now o s) with Some v => v | None => sget k s end.

Definition from_outputs (now : Z) (o : outputs) : record := map (λ k, (k, field now o k)) FIELDS.

End construction.

(** ** The JSON form *)

Definition to_dict (r : record) : pyval := PDict r.
Definition to_json `{FloatRepr} (r : record) : string := json_pretty (to_dict r).

(** Every field, [None] where the mapping has none. *)
Definition from_dict (d : record) : record := map (λ k, (k, dget k d)) FIELDS.

(** ** Round trip *)

Lemma fields_nodup : NoDup FIELDS.
Proof. apply (bool_decide_unpack _). by vm_compute. Qed.

Lemma dget_map (g : string → pyval) k l : k ∈ l → dget k (map (λ k, (k, g k)) l) = g k.
Proof.
  unfold dget. induction l as [|x l IH]; [by intros ?%elem_of_nil|]. simpl.
  destruct (decide (k = x)) as [->|Hne]; [done|]. intros [->|Hk]%elem_of_cons; [done|]. by apply IH.
Qed.

Lemma from_dict_map (g : string → pyval) : from_dict (map (λ k, (k, g k)) FIELDS) = map (λ k, (k, g k)) FIELDS.
Proof.
  unfold from_dict. apply map_ext_in. intros k Hk. f_equal. apply dget_map. by apply list_elem_of_In.
Qed.

Lemma from_outputs_keys git via_gateway now o : map fst (from_outputs git via_gateway now o) = FIELDS.
Proof. unfold from_outputs. rewrite map_map. apply map_id. Qed.

(** A record of JSON values reads back from its text as it was. *)
Lemma to_json_loads `{FloatRepr, FloatParse} (git : git_runner) (via_gateway : bool) (now : Z) (o : outputs) :
  PlainFloats → Forall (λ m, json_ok m.2) (from_outputs git via_gateway now o) →
  json_loads (universal_newlines (to_json (from_outputs git via_gateway now o))) =
    Some (PDict (from_outputs git via_gateway now o)).
Proof.
  intros Hp Hf. apply json_loads_written_ok; [done|]. apply json_ok_dict. split; [|done].
  rewrite from_outputs_keys. apply fields_nodup.
Qed.

Lemma to_json_reads `{FloatRepr, FloatParse} (git : git_runner) (via_gateway : bool) (now : Z) (o : outputs) :
  PlainFloats → Forall (λ m, json_ok m.2) (from_outputs git via_gateway now o) →
  ∃ d, json_loads (universal_newlines (to_json (from_outputs git via_gateway now o))) = Some (PDict d) ∧
    from_dict d = from_outputs git via_gateway now o.
Proof.
  intros Hp Hf. exists (from_outputs git via_gateway now o).
  split; [by apply to_json_loads|apply from_dict_map].
Qed.

(** A mapping that lacks a field gets [None] for it, also where the dataclass has
    another default. *)
Example from_dict_forgets_defaults :
  dget "iterations" (from_dict []) = PNone ∧ dget "agent_config" (from_dict []) = PNone.
Proof. by split. Qed.

End RunRecord.
