(* ===== verification/Journal.v ===== *)
(** * The journal of runs and its retention

    Models of [bf_worker/journal.py], which writes one directory per run, of the
    call of it in [bf_worker/agents/langgraph_agent.py], and of
    [evaluation/journal_prune.py], which deletes old ones. *)

From S2P Require Import Prelude PyStr PyTime Regex Effects PyJson PyJsonIndent Files Prompt RunRecord.
Local Open Scope string_scope.
Local Open Scope list_scope.

Module Journal.
Import Prompt RunRecord Files.

(** ** journal.py *)

Definition MODEL_SLUG_RE : re := rx no_flags "[^A-Za-z0-9._-]".
Definition MODEL_SLUG_MAX : nat := 60.

Definition strip_dashes : string → string := str_strip_by (λ c, ch_eq c "-"%char).

Definition model_slug (model : pyval) : string :=
  match model with
  | PStr m =>
      if str_nonempty m
      then str_take MODEL_SLUG_MAX (strip_dashes (re_sub MODEL_SLUG_RE [PLit "-"] m)) else ""
  | _ => ""
  end.

(** The fields of a record that the journal reads. *)
Definition text (k : string) (r : record) : string := match dget k r with PStr s => s | _ => "" end.
Definition iterations (r : record) : Z := match dget "iterations" r with PInt z => z | _ => 0 end.

Definition flag_reason (r : record) : option string :=
  if negb (bool_decide (text "outcome" r = "fixed")) then Some ("outcome=" +:+ text "outcome" r)
  else if (2 <=? iterations r)%Z then Some ("high_iterations=" +:+ str_of_Z (iterations r))
  else None.

Definition dir_name (r : record) : string :=
  let name := text "timestamp" r +:+ "_" +:+ text "bug_id" r +:+ "_" +:+ text "agent_name" r in
  let slug := model_slug (dget "llm_model" r) in
  if str_nonempty slug then name +:+ "_" +:+ slug else name.

Section journal.
Context `{FloatRepr} (o : os) (journal_dir : path).

(** The optional files of an entry, with their texts. *)
Definition review_keys : list (string * string) :=
  [("status", "code_review_status"); ("would_escalate", "code_review_would_escalate");
   ("rounds", "code_review_rounds"); ("finding_count", "code_review_finding_count");
   ("findings", "code_review_findings")].

Definition json_of (k : string) (st : state) (name : string) : list (string * string) :=
  match sget k st with PNone => [] | v => [(name, json_pretty v)] end.

Definition attachments (st : state) : list (string * string) :=
  (if truthy (sget "trace" st) then [("trace.txt", py_str (sget "trace" st))] else [])
  ++ (if truthy (sget "test_output" st) then [("test_output.txt", py_str (sget "test_output" st))] else [])
  ++ json_of "llm_result" st "llm_result.json"
  ++ json_of "budget" st "budget.json"
  ++ match sget "code_review_findings" st with
     | PNone => []
     | _ => [("code_review.json",
              json_pretty (PDict (map (λ '(name, k), (name, sget k st)) review_keys)))]
     end.

Definition flag_file (r : record) : list (string * string) :=
  match flag_reason r with Some flag => [("FLAGGED", flag +:+ nl)] | None => [] end.

Definition entry_files (r : record) (final_state : option state) : list (string * string) :=
  ("record.json", to_json r) :: attachments (default ∅ final_state) ++ flag_file r.

(** [write]: the directory of the entry, [None] where anything raised. *)
Definition write (r : record) (final_state : option state) : M fs (option path) :=
  let run_dir := join journal_dir (dir_name r) in
  try_ (_ ← mkdir_parents o run_dir;
        _ ← for_ (entry_files r final_state) (λ '(name, t), write_text o (run_dir ++ [name]) t);
        mret (Some run_dir))
    (λ _, mret None).

(** [_maybe_journal]: a journal that is not there is not written, and nothing it
    raises reaches the run. *)
Definition maybe_journal (journal : bool) (git : git_runner) (via_gateway : bool) (now : Z)
    (out : outputs) : M fs unit :=
  if journal then ignore (_ ← write (from_outputs git via_gateway now out) (o_final_state out); mret tt)
  else mret tt.

End journal.

(** ** journal_prune.py *)

Definition JOURNAL_DIR_RE : re := rx no_flags "^(\d{8}T\d{6}Z)_".
Definition DURATION_RE : re := rx no_flags "^(\d+)([smhd])$".

Definition DURATION_FACTOR_S (unit : string) : Z :=
  if bool_decide (unit = "s") then 1
  else if bool_decide (unit = "m") then 60
  else if bool_decide (unit = "h") then 3600 else 86400.

Definition overflow_error (m : string) : exn := Exn "OverflowError" m.
(** [timedelta] holds fewer than a thousand million days. *)
Definition MAX_DELTA : Z := 86400 * 1000000000.

Definition parse_duration (s : string) : res Z :=
  if negb (str_nonempty s) then Raise (value_error "empty duration")
  else match re_match DURATION_RE s with
  | Some (_, _, c) =>
      match str_int (default "" (cap_get 1 c)) with
      | Some n =>
          let d := (n * DURATION_FACTOR_S (default "" (cap_get 2 c)))%Z in
          if (d <? MAX_DELTA)%Z then Ok d
          else Raise (overflow_error "days=...; must have magnitude <= 999999999")
      | None => Raise (value_error "invalid literal for int()")
      end
  | None => Raise (value_error ("invalid duration: " +:+ repr_str s
                     +:+ " (expected e.g. '30d', '12h', '90m', '60s')"))
  end.

Definition entry_timestamp (name : string) : option Z :=
  match re_match JOURNAL_DIR_RE name with
  | Some (_, _, c) => strptime (default "" (cap_get 1 c))
  | None => None
  end.

Record PrunePlan := mkPlan { to_delete : list path; to_keep : list (path * string) }.

(** The first moment of year 1. *)
Definition MIN_SECONDS : Z := -62135596800.

Section prune.
Context (o : os) (journal_dir : path).

Definition name_of (entry : path) : string := List.last entry "".

(** What happens to one child: [None] for what is no directory. *)
Definition verdict (cutoff : Q) (keep_flagged : bool) (f : fs) (entry : path) : option (option string) :=
  if negb (is_dir entry f) then None
  else match entry_timestamp (name_of entry) with
  | None => Some (Some "name unrecognized")
  | Some ts =>
      if Qle_bool cutoff (inject_Z ts) then Some (Some "within window")
      else if keep_flagged && exists_ (entry ++ ["FLAGGED"]) f then Some (Some "FLAGGED")
      else Some None
  end.

Fixpoint sort_entries (cutoff : Q) (keep_flagged : bool) (f : fs) (entries : list path) : PrunePlan :=
  match entries with
  | [] => mkPlan [] []
  | e :: entries' =>
      let plan := sort_entries cutoff keep_flagged f entries' in
      match verdict cutoff keep_flagged f e with
      | None => plan
      | Some (Some why) => mkPlan (to_delete plan) ((e, why) :: to_keep plan)
      | Some None => mkPlan (e :: to_delete plan) (to_keep plan)
      end
  end.

Definition plan_prune (older_than : Z) (keep_flagged : bool) (now : Q) : M fs PrunePlan :=
  let cutoff := (now - inject_Z older_than)%Q in
  if negb (Qle_bool (inject_Z MIN_SECONDS) cutoff) then throw (overflow_error "date value out of range")
  else
    f ← get;
    if negb (is_dir journal_dir f) then mret (mkPlan [] [])
    else entries ← sorted_iterdir o journal_dir; mret (sort_entries cutoff keep_flagged f entries).

(** Each planned entry is removed; what the system refuses is reported. *)
Fixpoint remove_all (entries : list path) : M fs (list string * list (string * string)) :=
  match entries with
  | [] => mret ([], [])
  | e :: entries' =>
      r ← try_ (_ ← rmtree o e; mret None)
            (λ x, if is_os_error x then mret (Some (exn_msg x)) else throw x);
      rest ← remove_all entries';
      mret (match r with
            | None => (name_of e :: rest.1, rest.2)
            | Some err => (rest.1, (name_of e, err) :: rest.2)
            end)
  end.

Record summary := mkSummary {
  dry_run : bool;
  plan : PrunePlan;
  deleted : list string;
  errors : list (string * string)
}.

Definition run_prune (older_than : Z) (keep_flagged apply : bool) (now : Q) : M fs summary :=
  p ← plan_prune older_than keep_flagged now;
  r ← (if apply then remove_all (to_delete p) else mret ([], []));
  mret (mkSummary (negb apply) p r.1 r.2).

(** [cmd_journal_prune]: the exit status; only a [ValueError] of the duration is
    reported as a usage error. *)
Definition cmd_journal_prune (older_than : string) (keep_flagged apply : bool) (now : Q) : M fs Z :=
  match parse_duration older_than with
  | Raise e => if bool_decide (exn_class e = "ValueError") then mret 2%Z else throw e
  | Ok d =>
      s ← run_prune d keep_flagged apply now;
      mret (if bool_decide (errors s = []) then 0 else 1)%Z
  end.

End prune.
End Journal.
