(* ===== verification/JournalSpec.v ===== *)
(** * What the journal promises

    An entry holds the record and the artifacts of its run, and an entry written
    at a moment is deleted by the retention exactly when it has left the window. *)

From S2P Require Import Prelude PyStr PyTime Regex Effects Guards PyJson PyJsonLoads PyJsonIndent Files Prompt RunRecord Journal.
From Stdlib Require Import QArith.
Local Open Scope string_scope.
Local Open Scope list_scope.

Module JournalSpec.
Import Prompt RunRecord Files Journal.

(** ** The name of an entry *)

Definition plain (s : string) : bool := str_forallb (λ c, negb (ch_eq c "/"%char)) s.

Lemma plain_app a b : plain (a +:+ b) = plain a && plain b.
Proof. apply str_forallb_app. Qed.

Lemma slug_set : MODEL_SLUG_RE = RSet false true [(65, 90); (97, 122); (48, 57); (46, 46); (95, 95); (45, 45)]%N.
Proof. by vm_compute. Qed.

Lemma model_slug_plain v : plain (model_slug v) = true.
Proof.
  destruct v; try done. unfold model_slug. destruct (str_nonempty s); [|done].
  apply str_forallb_take. unfold strip_dashes, str_strip_by.
  apply str_forallb_rstrip, str_forallb_lstrip. rewrite slug_set.
  apply re_sub_chars; [|by intros c]. intros prev a r Ha. exists r, [].
  apply negb_false_iff, ch_eq_true in Ha as ->. split; [by apply re_match_at_set|simpl; lia].
Qed.

Lemma digit_set c : is_digit c = true → set_has false false [(48, 57)%N] c = true.
Proof. unfold is_digit, in_range, set_has, in_ranges. simpl. intros ->. done. Qed.

Lemma stamp_digit z : is_digit (digit_char (Z.to_N (z mod 10))) = true.
Proof. apply digit_char_is_digit. pose proof (Z.mod_pos_bound z 10). lia. Qed.

(** The shape of a stamp. *)
Inductive Stamped : string → Prop :=
| stamped d1 d2 d3 d4 d5 d6 d7 d8 d9 d10 d11 d12 d13 d14 :
    Forall (λ c, is_digit c = true) [d1; d2; d3; d4; d5; d6; d7; d8; d9; d10; d11; d12; d13; d14] →
    Stamped (String d1 (String d2 (String d3 (String d4 (String d5 (String d6 (String d7 (String d8 (String "T" (String d9 (String d10 (String d11 (String d12 (String d13 (String d14 ("Z")))))))))))))))).

Lemma stamp_stamped t : Stamped (stamp t).
Proof. unfold stamp, strftime. cbn [digits]. constructor. repeat constructor; apply stamp_digit. Qed.

Lemma prefix_app_last (p q : path) x : q `prefix_of` p ++ [x] → q `prefix_of` p ∨ q = p ++ [x].
Proof.
  intros [k Hk]. destruct (decide (k = [])) as [->|Hne]; [right; by rewrite app_nil_r in Hk|].
  left. destruct (exists_last Hne) as (k' & y & ->). rewrite app_assoc in Hk.
  apply app_inj_tail in Hk as [-> _]. by exists k'.
Qed.

Lemma prefix_snoc_not (p : path) x : ¬ p ++ [x] `prefix_of` p.
Proof. intros Hp%prefix_length. rewrite length_app in Hp. simpl in Hp. lia. Qed.

Lemma below_snoc (p : path) x : below p (p ++ [x]) = true.
Proof. by apply bool_decide_eq_true, prefix_app_r. Qed.

Lemma app_self_nonnil (p q : path) x : p = p ++ x :: q → False.
Proof. intros Hp%(f_equal List.length). rewrite length_app in Hp. simpl in Hp. lia. Qed.

Lemma span_app (a b : string) : span (a +:+ b) b = a.
Proof.
  unfold span. rewrite str_length_app.
  replace (String.length a + String.length b - String.length b)%nat with (String.length a) by lia.
  apply str_take_app.
Qed.

(** The stamp at the front of a name is found. *)
Lemma entry_timestamp_stamped s rest : Stamped s → entry_timestamp (s +:+ String "_" rest) = strptime s.
Proof.
  intros Hs. inversion Hs as [d1 d2 d3 d4 d5 d6 d7 d8 d9 d10 d11 d12 d13 d14 Hd]; subst. unfold entry_timestamp.
  assert (JOURNAL_DIR_RE = ltac:(let r := eval vm_compute in JOURNAL_DIR_RE in exact r)) as ->
    by (vm_compute; reflexivity).
  eapply (Forall_impl _ (λ c, set_has false false [(48, 57)%N] c = true)) in Hd; [|apply digit_set].
  decompose_Forall. unfold re_match, re_match_at. cbn [String.append]. repeat re_step.
  match goal with |- _ = strptime ?x => exact (f_equal strptime (span_app x (String "_" rest))) end.
Qed.

Lemma dir_name_app r : ∃ rest, dir_name r = text "timestamp" r +:+ String "_" rest.
Proof. unfold dir_name. case_match; eexists; rewrite <- ?str_app_assoc; reflexivity. Qed.

(** A record made at second [t] is filed under its stamp, in one directory of the
    journal unless the agent's name or the bug's id has a slash. *)
Definition made_at (t : Z) (r : record) : Prop :=
  dget "timestamp" r = PStr (stamp t) ∧ plain (text "bug_id" r) = true ∧ plain (text "agent_name" r) = true.

Lemma dir_name_stamp t r : made_at t r → (0 <= t < MAX_SECONDS)%Z → entry_timestamp (dir_name r) = Some t.
Proof.
  intros [Ht _] Hb. destruct (dir_name_app r) as [rest ->]. unfold text. rewrite Ht.
  rewrite entry_timestamp_stamped by apply stamp_stamped. by apply strptime_stamp.
Qed.

Lemma stamped_plain s : Stamped s → plain s = true ∧ str_nonempty s = true.
Proof.
  intros Hs. destruct Hs as [d1 d2 d3 d4 d5 d6 d7 d8 d9 d10 d11 d12 d13 d14 Hd]. split; [|done].
  assert (∀ c, is_digit c = true → negb (ch_eq c "/"%char) = true) as Hp.
  { intros c Hc. apply negb_true_iff, ch_eq_false. by intros ->. }
  eapply Forall_impl in Hd; [|exact Hp]. decompose_Forall_hyps. unfold plain. cbn [str_forallb].
  by repeat match goal with H : negb (ch_eq ?c _) = true |- _ => rewrite H; clear H end.
Qed.

Lemma dir_name_plain t r : made_at t r → plain (dir_name r) = true.
Proof.
  intros (Ht & Hb & Ha). unfold dir_name. case_match; rewrite !plain_app, Hb, Ha, ?model_slug_plain;
    unfold text; rewrite Ht, (proj1 (stamped_plain _ (stamp_stamped t))); done.
Qed.

Lemma join_entry dir t r : made_at t r → join dir (dir_name r) = dir ++ [dir_name r].
Proof.
  intros Hr. unfold join. rewrite pure_parts_plain; [done|by eapply dir_name_plain|].
  destruct (dir_name_app r) as [rest ->]. destruct Hr as [Ht _]. unfold text. rewrite Ht.
  destruct (stamp_stamped t). unfold PatchGuard.clean_segment, mem. apply negb_true_iff, bool_decide_eq_false.
  set_solver.
Qed.

(** ** What an entry holds *)

Section entry.
Context `{FloatRepr}.

Lemma entry_names_nodup r st : NoDup (map fst (entry_files r st)).
Proof.
  apply (bool_decide_unpack _). unfold entry_files, attachments, flag_file, json_of.
  repeat case_match; by vm_compute.
Qed.

Lemma entry_flagged r st : "FLAGGED" ∈ map fst (entry_files r st) ↔ is_Some (flag_reason r).
Proof.
  assert ("FLAGGED" ∉ map fst (("record.json", to_json r) :: attachments (default ∅ st))) as Hn.
  { apply (bool_decide_unpack _). unfold attachments, json_of. repeat case_match; by vm_compute. }
  change (entry_files r st) with ((("record.json", to_json r) :: attachments (default ∅ st)) ++ flag_file r).
  rewrite map_app, elem_of_app. unfold flag_file. destruct (flag_reason r) as [w|]; simpl.
  - split; [by eexists|]. intros _. right. by left.
  - split; [|by intros [? ?]]. intros [?|?%elem_of_nil]; done.
Qed.

(** Nothing is at the entry yet, and its directory can be made. *)
Definition fresh_entry (dir : path) (r : record) (f : fs) : Prop :=
  (∀ q, q `prefix_of` dir → room f q) ∧ ∀ q, below (dir ++ [dir_name r]) q = true → f !! q = None.

Record Entry (d : path) (r : record) (st : option state) (f : fs) := {
  entry_dir : f !! d = Some Dir;
  entry_content n x : (n, x) ∈ entry_files r st → f !! (d ++ [n]) = Some (File x);
  entry_flag : exists_ (d ++ ["FLAGGED"]) f = bool_decide (is_Some (flag_reason r))
}.

Lemma write_run o dir t r st f h :
  willing o → made_at t r → fresh_entry dir r f →
  ∃ f', write o dir r st f h = (Ok (Some (dir ++ [dir_name r])), (f', h)) ∧ f ⊆ f' ∧
    f' !! dir = Some Dir ∧ Entry (dir ++ [dir_name r]) r st f'.
Proof.
  intros Hw Hr [Hroom Hnew]. unfold write. rewrite (join_entry dir t r Hr).
  remember (dir ++ [dir_name r]) as d eqn:Hd.
  destruct (mkdir_parents_run o d f h Hw) as (f1 & Hmk & Hf1).
  { intros q Hq. subst d. apply prefix_app_last in Hq as [Hq| ->]; [by apply Hroom|]. left. apply Hnew, below_refl. }
  assert (∀ n, f1 !! (d ++ [n]) = None) as Hfree.
  { intros n. rewrite Hf1, decide_False by (by intros ?%prefix_snoc_not).
    apply Hnew. apply below_snoc. }
  unfold try_. rewrite bind_run, Hmk. rewrite bind_run, write_all_run; [|done| |].
  2: { by rewrite Hf1, decide_True. }
  2: { intros n. by rewrite Hfree. }
  eexists. split; [done|]. split; [|split].
  - apply map_subseteq_spec. intros q n Hq. rewrite put_all_other; [rewrite Hf1; case_decide as Hp; [|done]|].
    + subst d. apply prefix_app_last in Hp as [Hp| ->]; [destruct (Hroom _ Hp); congruence|].
      by rewrite Hnew in Hq by apply below_refl.
    + intros ([x y] & -> & _)%list_elem_of_fmap. subst d. simpl in Hq. rewrite Hnew in Hq; [done|].
      apply below_snoc.
  - rewrite put_all_other, Hf1, decide_True; [done|subst d; by apply prefix_app_r|].
    intros ([x y] & He & _)%list_elem_of_fmap. subst d. rewrite <- app_assoc in He.
    by apply app_self_nonnil in He.
  - split.
    + rewrite put_all_other, Hf1, decide_True; [done|done|].
      intros ([x y] & He & _)%list_elem_of_fmap. by apply app_self_nonnil in He.
    + intros n x Hn. apply put_all_lookup; [apply entry_names_nodup|done].
    + apply bool_decide_ext. rewrite <- entry_flagged with (st := st). split.
      * intros Hs. apply dec_stable. intros Hn. rewrite put_all_other, Hfree in Hs; [by destruct Hs|].
        intros ([x y] & He & Hx)%list_elem_of_fmap. apply app_inj_tail in He as [_ He]. simpl in He. subst x.
        apply Hn, list_elem_of_fmap. by exists ("FLAGGED", y).
      * intros ([x y] & Hx & Hin)%list_elem_of_fmap. simpl in Hx. subst x.
        eexists. apply (put_all_lookup _ _ _ _ y); [apply entry_names_nodup|done].
Qed.
End entry.

(** ** What the retention deletes *)

(** A child of the journal is stale: a stamped directory that has left the window
    and is not kept for its mark. *)
Definition stale (dir : path) (older_than : Z) (keep_flagged : bool) (now : Q) (f : fs) (e : path) : Prop :=
  ∃ x ts, e = dir ++ [x] ∧ f !! e = Some Dir ∧ entry_timestamp x = Some ts ∧
    (inject_Z ts < now - inject_Z older_than)%Q ∧
    ¬ (keep_flagged = true ∧ exists_ (e ++ ["FLAGGED"]) f = true).

Lemma verdict_stale dir older_than keep_flagged now f x :
  verdict (now - inject_Z older_than) keep_flagged f (dir ++ [x]) = Some None ↔
  stale dir older_than keep_flagged now f (dir ++ [x]).
Proof.
  unfold verdict, stale, name_of, is_dir. rewrite last_last.
  case_bool_decide as Hd; simpl; [|naive_solver].
  destruct (entry_timestamp x) as [ts|] eqn:Ets.
  2: { split; [done|]. intros (x' & ts & [_ [= <-]]%app_inj_tail & _ & ? & _). congruence. }
  destruct (Qle_bool _ _) eqn:Ew.
  { split; [done|]. intros (x' & ts' & [_ [= <-]]%app_inj_tail & _ & Hts & Hlt & _). simplify_eq.
    apply Qle_bool_iff in Ew. by apply Qle_not_lt in Ew. }
  destruct (keep_flagged && _) eqn:Ef.
  { apply andb_true_iff in Ef as [-> Ef]. split; [done|]. intros (x' & ts' & _ & _ & _ & _ & Hn). naive_solver. }
  split; [intros _|done]. exists x, ts. split_and!; [done|done|done| |].
  - apply Qnot_le_lt. intros Hle%Qle_bool_iff. congruence.
  - intros [-> Hx]. by rewrite Hx in Ef.
Qed.

Lemma sort_entries_delete cutoff keep_flagged f es :
  to_delete (sort_entries cutoff keep_flagged f es) =
  filter (λ e, verdict cutoff keep_flagged f e = Some None) es.
Proof.
  induction es as [|e es IH]; [done|]. cbn [sort_entries]. rewrite filter_cons.
  case_decide as Hv; [rewrite Hv; cbn [to_delete]; by rewrite IH|].
  by destruct (verdict cutoff keep_flagged f e) as [[w|]|].
Qed.

(** The plan of a journal that can be read. *)
Definition planned (dir : path) (older_than : Z) (keep_flagged : bool) (now : Q) (f : fs) : list path :=
  to_delete (sort_entries (now - inject_Z older_than) keep_flagged f (map (λ x, dir ++ [x]) (names_in dir f))).

Lemma elem_of_planned dir older_than keep_flagged now f e :
  e ∈ planned dir older_than keep_flagged now f ↔ stale dir older_than keep_flagged now f e.
Proof.
  unfold planned. rewrite sort_entries_delete, list_elem_of_filter. split.
  - intros [Hv (x & -> & _)%list_elem_of_fmap]. by apply verdict_stale.
  - intros Hs. pose proof Hs as (x & ts & -> & Hd & _). split; [by apply verdict_stale|].
    apply list_elem_of_fmap. exists x. split; [done|]. apply elem_of_names. by eexists.
Qed.

Lemma planned_nodup dir older_than keep_flagged now f : NoDup (planned dir older_than keep_flagged now f).
Proof.
  unfold planned. rewrite sort_entries_delete. apply NoDup_filter. apply NoDup_fmap_2; [|apply names_nodup].
  intros x y Hxy. by apply app_inj_tail in Hxy as [_ ?].
Qed.

Lemma plan_prune_run o dir older_than keep_flagged now f h :
  willing o → is_dir dir f = true → (inject_Z MIN_SECONDS <= now - inject_Z older_than)%Q →
  ∃ p, plan_prune o dir older_than keep_flagged now f h = (Ok p, (f, h)) ∧
    to_delete p = planned dir older_than keep_flagged now f.
Proof.
  intros Hw Hd Hmin%Qle_bool_iff. unfold plan_prune. cbv zeta. rewrite Hmin. cbn [negb].
  rewrite bind_get, Hd. cbn [negb]. unfold sorted_iterdir. rewrite bind_run, guarded_willing by done.
  rewrite bind_get. unfold is_dir in Hd. apply bool_decide_eq_true in Hd. rewrite Hd.
  eexists. split; [reflexivity|done].
Qed.

(** The trees of [es] are gone. *)
Definition gone (es : list path) (f f' : fs) : Prop :=
  ∀ q, f' !! q = if existsb (λ e, below e q) es then None else f !! q.

Lemma gone_drops es f f' e q : gone es f f' → e ∈ es → below e q = true → f' !! q = None.
Proof.
  intros Hg He Hq. rewrite Hg, (proj2 (existsb_exists _ _)); [done|]. exists e. split; [|done].
  by apply list_elem_of_In.
Qed.

Lemma gone_keeps es f f' q : gone es f f' → (∀ e, e ∈ es → below e q = false) → f' !! q = f !! q.
Proof.
  intros Hg He. rewrite Hg. destruct (existsb _ _) eqn:E; [|done].
  apply existsb_exists in E as (e & Hin%list_elem_of_In & Hb). by rewrite He in Hb.
Qed.

Lemma same_child (dir : path) x y q : below (dir ++ [x]) q = true → below (dir ++ [y]) q = true → x = y.
Proof.
  intros [k ->]%bool_decide_eq_true [k' Hk]%bool_decide_eq_true. rewrite <- !app_assoc in Hk.
  apply app_inv_head in Hk. by simplify_eq/=.
Qed.

Lemma remove_all_run (o : os) (dir : path) (es : list path) (f : fs) h :
  willing o → NoDup es → Forall (λ e : path, f !! e = Some Dir ∧ ∃ x, e = dir ++ [x]) es →
  ∃ f' ds, remove_all o es f h = (Ok (ds, []), (f', h)) ∧ gone es f f'.
Proof.
  intros Hw. revert f. induction es as [|e es IH]; intros f; [intros _ _; by exists f, []|].
  intros [Hne Hnd]%NoDup_cons [[He (x & Hx)] Hes]%Forall_cons. cbn [remove_all].
  rewrite bind_run. unfold try_, rmtree. rewrite bind_run, bind_get, Hw, He. cbn [modify].
  unfold modify, mret, M_ret.
  destruct (IH (without e (λ _, false) f) Hnd) as (f' & ds & Hrun & Hf').
  { rewrite Forall_forall in Hes. apply Forall_forall. intros e' He'. destruct (Hes e' He') as [Hd (y & Hy)].
    split; [|by eexists]. rewrite without_lookup; [done|]. apply bool_decide_eq_false. subst. intros Hp.
    apply prefix_app_last in Hp as [?%prefix_snoc_not|?]; [done|]. congruence. }
  eexists _, _. rewrite bind_run, Hrun. split; [reflexivity|].
  intros q. rewrite Hf'. cbn [existsb]. destruct (below e q) eqn:Eb.
  - rewrite without_gone by done. by case_match.
  - by rewrite without_lookup.
Qed.

Lemma run_prune_run o dir older_than keep_flagged now f h :
  willing o → is_dir dir f = true → (inject_Z MIN_SECONDS <= now - inject_Z older_than)%Q →
  ∃ s f', run_prune o dir older_than keep_flagged true now f h = (Ok s, (f', h)) ∧ errors s = [] ∧
    gone (planned dir older_than keep_flagged now f) f f'.
Proof.
  intros Hw Hd Hmin. destruct (plan_prune_run o dir older_than keep_flagged now f h Hw Hd Hmin) as (p & Hp & Hdel).
  unfold run_prune. rewrite bind_run, Hp, bind_run, Hdel.
  destruct (remove_all_run o dir (planned dir older_than keep_flagged now f) f h) as (f' & ds & -> & Hf');
    [done|apply planned_nodup| |by eexists _, _].
  apply Forall_forall. intros e He%elem_of_planned. destruct He as (x & ts & -> & He & _). eauto.
Qed.

(** ** The entry of a run *)

(** What a run that is not plainly fixed is marked for. *)
Definition to_review (out : outputs) : bool :=
  negb (bool_decide (o_outcome out = "fixed")) || (2 <=? o_iterations out)%Z.

Definition named (out : outputs) : Prop := plain (o_bug_id out) = true ∧ plain (o_agent_name out) = true.

Lemma dget_from_outputs git gw t out k : k ∈ FIELDS → dget k (from_outputs git gw t out) = field git gw t out k.
Proof. apply dget_map. Qed.

Ltac in_fields := apply (bool_decide_unpack _); by vm_compute.

Lemma from_outputs_made git gw t out : named out → made_at t (from_outputs git gw t out).
Proof.
  intros [Hb Ha]. unfold made_at, text. rewrite !dget_from_outputs by in_fields.
  change (field git gw t out "timestamp") with (PStr (stamp t)).
  change (field git gw t out "bug_id") with (PStr (o_bug_id out)).
  change (field git gw t out "agent_name") with (PStr (o_agent_name out)). done.
Qed.

Lemma from_outputs_flag git gw t out :
  bool_decide (is_Some (flag_reason (from_outputs git gw t out))) = to_review out.
Proof.
  unfold flag_reason, to_review, text, iterations. rewrite !dget_from_outputs by in_fields.
  change (field git gw t out "outcome") with (PStr (o_outcome out)).
  change (field git gw t out "iterations") with (PInt (o_iterations out)).
  destruct (bool_decide (o_outcome out = _)), (2 <=? o_iterations out)%Z; done.
Qed.

(** ** Under any refusals *)

(** What is there outside [d] stays, and no call is made. *)
Definition spares (d : path) (f : fs) (h : trace) (f' : fs) (h' : trace) : Prop :=
  (∀ q n, f !! q = Some n → below d q = false → f' !! q = Some n) ∧ h' = h.

Lemma spares_refl d f h : spares d f h f h.
Proof. by split. Qed.
Lemma spares_trans d f h f1 h1 f2 h2 : spares d f h f1 h1 → spares d f1 h1 f2 h2 → spares d f h f2 h2.
Proof. intros [H1 ->] [H2 ->]. split; [|done]. eauto. Qed.
#[local] Hint Resolve spares_refl spares_trans : effects.

Lemma write_spares `{FloatRepr} o dir t r st :
  made_at t r → preserves (spares (dir ++ [dir_name r])) (write o dir r st).
Proof.
  intros Hm. unfold write. rewrite (join_entry dir t r Hm). remember (dir ++ [dir_name r]) as d.
  apply preserves_try; eauto with effects. apply preserves_bind; eauto with effects.
  - apply preserves_for; eauto with effects. intros p f h. unfold mkdir_one, guarded. rewrite bind_get.
    destruct (f !! p) as [[]|] eqn:E; try apply spares_refl. rewrite bind_get.
    destruct (refuse _ _ _ _); [apply spares_refl|]. split; [|done]. intros q n Hq _. change (<[p := Dir]> f !! q = Some n).
    rewrite lookup_insert_ne; [done|]. congruence.
  - intros _. apply preserves_bind; eauto with effects. apply preserves_for; eauto with effects.
    intros [n x] f h. unfold write_text. rewrite bind_get.
    assert (∀ y, spares d f h (<[d ++ [n] := File y]> f) h) as Hins.
    { intros y. split; [|done]. intros q m Hq Hd. rewrite lookup_insert_ne; [done|]. intros <-.
      by rewrite below_snoc in Hd. }
    destruct (negb _); [apply spares_refl|]. destruct (is_dir _ _); [apply spares_refl|].
    destruct (refuse _ _ _ _); [|apply Hins]. rewrite bind_run.
    destruct (torn _ _ _ _); [apply Hins|apply spares_refl].
Qed.

(** The trees of [es] may lose nodes; nothing else changes. *)
Definition clears (es : list path) (f : fs) (h : trace) (f' : fs) (h' : trace) : Prop :=
  f' ⊆ f ∧ ∀ q, (∀ e, e ∈ es → below e q = false) → f' !! q = f !! q.

Lemma clears_refl es f h : clears es f h f h.
Proof. by split. Qed.
Lemma clears_trans es f h f1 h1 f2 h2 : clears es f h f1 h1 → clears es f1 h1 f2 h2 → clears es f h f2 h2.
Proof. intros [H1 K1] [H2 K2]. split; [by etrans|]. intros q Hq. by rewrite K2, K1. Qed.
#[local] Hint Resolve clears_refl clears_trans : effects.

Lemma clears_without es e keep f h : e ∈ es → clears es f h (without e keep f) h.
Proof.
  intros He. split; [apply map_filter_subseteq|]. intros q Hq. apply without_lookup. by apply Hq.
Qed.

Lemma rmtree_clears o es e : e ∈ es → preserves (clears es) (rmtree o e).
Proof.
  intros He f h. unfold rmtree. rewrite bind_get. destruct (refuse _ _ _ _).
  - rewrite bind_modify. by apply clears_without.
  - destruct (f !! e) as [[]|]; [apply clears_refl|by apply clears_without|apply clears_refl].
Qed.

Lemma remove_all_clears o all es : (∀ e, e ∈ es → e ∈ all) → preserves (clears all) (remove_all o es).
Proof.
  induction es as [|e es IH]; intros Hes; cbn [remove_all]; [eauto with effects|].
  apply preserves_bind; eauto with effects.
  - apply preserves_try; eauto with effects; [|intros x; case_match; eauto with effects].
    apply preserves_bind; eauto with effects. apply rmtree_clears, Hes, elem_of_cons. by left.
  - intros r. apply preserves_bind; eauto with effects. apply IH. intros e' He'. apply Hes, elem_of_cons. by right.
Qed.

(** A plan leaves the disk as it is, and names stale entries only. *)
Lemma plan_prune_pure o dir older_than keep_flagged now f h :
  match plan_prune o dir older_than keep_flagged now f h with
  | (r, (f', _)) => f' = f ∧ ∀ p, r = Ok p → ∀ e, e ∈ to_delete p → e ∈ planned dir older_than keep_flagged now f
  end.
Proof.
  unfold plan_prune. cbv zeta. destruct (negb _); [done|]. rewrite bind_get.
  destruct (negb _); [split; [done|]; intros p [= <-] e ?%elem_of_nil; done|].
  rewrite bind_run. unfold sorted_iterdir, guarded. rewrite bind_get.
  destruct (refuse _ _ _ _); [done|]. rewrite bind_get.
  destruct (f !! dir) as [[]|]; [done| |done]. split; [done|]. by intros p [= <-].
Qed.

Lemma run_prune_clears (o : os) (dir : path) (older_than : Z) (keep_flagged apply : bool) (now : Q) (f : fs) (h : trace) :
  clears (if apply then planned dir older_than keep_flagged now f else []) f h
    (end_state (run_prune o dir older_than keep_flagged apply now f h))
    (end_trace (run_prune o dir older_than keep_flagged apply now f h)).
Proof.
  unfold run_prune. pose proof (plan_prune_pure o dir older_than keep_flagged now f h) as Hp. rewrite bind_run.
  destruct (plan_prune o dir older_than keep_flagged now f h) as [[p|e] [f1 h1]]; destruct Hp as [-> Hp];
    [|by split].
  assert (preserves (clears (if apply then planned dir older_than keep_flagged now f else []))
    (if apply then remove_all o (to_delete p) else mret ([] : list string, [] : list (string * string)))) as Hr.
  { destruct apply; [apply remove_all_clears; eauto|eauto with effects]. }
  specialize (Hr f h1). unfold end_state, end_trace in *. rewrite bind_run.
  by destruct apply; [destruct (remove_all _ _ f h1) as [[r|x] [f2 h2]]|].
Qed.

Section spec.
Context `{FloatRepr, FloatParse}.
Context (git : git_runner) (via_gateway : bool).

(** C15: on a disk that does what it is asked, where the names of bug and agent have
    no slash, the journal's directory can be made and no entry of the same second
    is there already, and where the record is made of values that JSON can carry
    (floats whose text reads back and has no line break), the entry of a run holds
    its record, which reads back from the file as it was, and the mark that asks
    for a review exactly when the run was not fixed or took two iterations or more;
    nothing that was on the disk changes. *)
Theorem journal_entry_reads_back (o : os) (dir : path) (t : Z) (out : outputs) (f : fs) (h : trace) :
  let r := from_outputs git via_gateway t out in
  let entry := dir ++ [dir_name r] in
  PlainFloats → Forall (λ m, json_ok m.2) r → willing o → named out → fresh_entry dir r f →
  ∃ f', write o dir r (o_final_state out) f h = (Ok (Some entry), (f', h)) ∧ f ⊆ f' ∧
    (∃ text d, read_text o (entry ++ ["record.json"]) f' h = (Ok text, (f', h)) ∧
       json_loads text = Some (PDict d) ∧ from_dict d = r) ∧
    exists_ (entry ++ ["FLAGGED"]) f' = to_review out.
Proof.
  intros r entry Hp Hok Hw Hn Hf.
  destruct (write_run o dir t r (o_final_state out) f h Hw (from_outputs_made _ _ _ _ Hn) Hf)
    as (f' & Hrun & Hsub & _ & He). exists f'. split_and!; [done|done| |].
  - destruct (to_json_reads git via_gateway t out Hp Hok) as (d & Hd & Hfrom).
    exists (universal_newlines (to_json r)), d. split; [|done].
    unfold read_text. rewrite guarded_willing, bind_get by done.
    unfold entry. rewrite (entry_content _ _ _ _ He "record.json" (to_json r)); [done|by left].
  - unfold entry. rewrite (entry_flag _ _ _ _ He). apply from_outputs_flag.
Qed.

(** C14: on a disk that does what it is asked, where the names of bug and agent have
    no slash, the journal's directory can be made and no entry of the same second
    is there already, and where the run's time and the start of the window are
    within the years a date can have, the entry of a run is there after a retention
    that looks at it at once, with all it held, unless the run left the window and
    is not kept for its mark; then nothing of it is left. *)
Theorem journal_retention (o : os) (dir : path) (t : Z) (out : outputs) (older_than : Z)
    (keep_flagged : bool) (now : Q) (f : fs) (h : trace) :
  let r := from_outputs git via_gateway t out in
  let entry := dir ++ [dir_name r] in
  let old := (inject_Z t < now - inject_Z older_than)%Q ∧ ¬ (keep_flagged = true ∧ to_review out = true) in
  willing o → (0 <= t < MAX_SECONDS)%Z → (inject_Z MIN_SECONDS <= now - inject_Z older_than)%Q →
  named out → fresh_entry dir r f →
  ∃ s f', (_ ← write o dir r (o_final_state out); run_prune o dir older_than keep_flagged true now) f h =
            (Ok s, (f', h)) ∧ errors s = [] ∧
    (old → ∀ q, below entry q = true → f' !! q = None) ∧
    (¬ old → f' !! entry = Some Dir ∧
       ∀ n x, (n, x) ∈ entry_files r (o_final_state out) → f' !! (entry ++ [n]) = Some (File x)).
Proof.
  intros r entry old Hw Ht Hmin Hn Hf. pose proof (from_outputs_made git via_gateway t out Hn) as Hm.
  destruct (write_run o dir t r (o_final_state out) f h Hw Hm Hf) as (f1 & Hrun & _ & Hd & He).
  rewrite bind_run, Hrun.
  destruct (run_prune_run o dir older_than keep_flagged now f1 h Hw) as (s & f' & -> & Hs & Hg); [|done|].
  { by apply bool_decide_eq_true. }
  exists s, f'. split; [done|]. split; [done|].
  assert (stale dir older_than keep_flagged now f1 entry ↔ old) as Hold.
  { unfold stale, old, entry. rewrite (entry_flag _ _ _ _ He). unfold r. rewrite from_outputs_flag. fold r.
    pose proof (dir_name_stamp t r Hm Ht) as Hts. split.
    - intros (x & ts & Hx & _ & Hts' & Hlt). apply app_inj_tail in Hx as [_ <-]. by simplify_eq.
    - intros Ho. exists (dir_name r), t. split_and!; [done|apply (entry_dir _ _ _ _ He)|done|apply Ho|apply Ho]. }
  split.
  - intros Ho q Hq. eapply gone_drops; [exact Hg| |exact Hq]. by apply elem_of_planned, Hold.
  - intros Hno. assert (∀ q, below entry q = true → f' !! q = f1 !! q) as Hsame.
    { intros q Hq. eapply gone_keeps; [exact Hg|]. intros e Hin%elem_of_planned.
      apply not_true_is_false. intros He'. apply Hno, Hold. pose proof Hin as (x & _ & -> & _).
      unfold entry. by rewrite (same_child _ _ _ _ Hq He'). }
    split; [|intros n x Hx]; (rewrite Hsame; [|first [apply below_refl|apply below_snoc]]).
    + apply (entry_dir _ _ _ _ He).
    + by apply (entry_content _ _ _ _ He).
Qed.

(** C16: whatever the disk refuses, journaling returns to the run, and nothing that
    was on the disk outside the directory of the entry changes. *)
Theorem journal_keeps_to_itself (o : os) (dir : path) (journal : bool) (t : Z) (out : outputs) (f : fs) (h : trace) :
  named out →
  ∃ f', maybe_journal o dir journal git via_gateway t out f h = (Ok tt, (f', h)) ∧
    ∀ q n, f !! q = Some n → below (dir ++ [dir_name (from_outputs git via_gateway t out)]) q = false →
      f' !! q = Some n.
Proof.
  intros Hn. pose proof (from_outputs_made git via_gateway t out Hn) as Hm.
  set (r := from_outputs git via_gateway t out) in *.
  pose proof (write_spares o dir t r (o_final_state out) Hm f h) as Hw.
  unfold maybe_journal. destruct journal; [|by exists f].
  unfold ignore, try_. rewrite bind_run. fold r. unfold spares, end_state, end_trace in Hw.
  destruct (write o dir r (o_final_state out) f h) as [[p|e] [f' h']]; destruct Hw as [Hw Hh]; simpl in *; subst h';
    exists f'; by split.
Qed.

(** Whatever the disk refuses, a retention without [--apply] changes nothing,
    and one with it writes nothing and removes only what is below a stamped
    directory that has left the window and is not kept for its mark. *)
Theorem prune_removes_only_stale (o : os) (dir : path) (older_than : Z) (keep_flagged apply : bool)
    (now : Q) (f : fs) (h : trace) :
  let f' := end_state (run_prune o dir older_than keep_flagged apply now f h) in
  f' ⊆ f ∧
  ∀ q, f' !! q ≠ f !! q →
    apply = true ∧ ∃ e, stale dir older_than keep_flagged now f e ∧ below e q = true.
Proof.
  intros f'. pose proof (run_prune_clears o dir older_than keep_flagged apply now f h) as [Hsub Hkeep].
  split; [done|]. intros q Hq. destruct apply; [|by destruct Hq; apply Hkeep; intros e ?%elem_of_nil].
  split; [done|]. destruct (existsb (λ e, below e q) (planned dir older_than keep_flagged now f)) eqn:E.
  - apply existsb_exists in E as (e & He%list_elem_of_In & Hb). exists e. split; [by apply elem_of_planned|done].
  - destruct Hq. apply Hkeep. intros e He. apply not_true_is_false. intros Hb.
    rewrite (proj2 (existsb_exists _ _)) in E; [done|]. exists e. split; [by apply list_elem_of_In|done].
Qed.

End spec.

(** A journal below the root, on a disk that refuses nothing. *)
Definition obliging : os := mkOs (λ _ _ _, None) (λ _ _ _, None) (λ _ _ _, false).
Definition empty_disk : fs := {[ [] := Dir ]}.

(** A run whose state has the counts of two model calls and a suspect file. *)
Definition sample_outputs : outputs :=
  mkOutputs "langgraph" "BUG-1" "7" "http://p" "9" "fixed" PNone 1
    (Some {[ "suspect_file_path" := PStr "a.py"; "llm_call_count" := PInt 2 ]}) PNone
    (PDict [("workflow_ver", PInt 0)]) PNone (PStr "m") PNone.
Definition sample_git : git_runner := λ args, Some (0%Z, str_join " " args +:+ nl).
Definition sample_record : record := from_outputs sample_git false 1777306524 sample_outputs.

Lemma empty_disk_fresh r : fresh_entry ["j"] r empty_disk.
Proof.
  split.
  - intros q Hq. unfold room, empty_disk. destruct q as [|x q]; [right; by rewrite lookup_singleton_eq|].
    left. by rewrite lookup_singleton_ne.
  - intros q [k ->]%bool_decide_eq_true. unfold empty_disk. by rewrite lookup_singleton_ne.
Qed.

Lemma sample_json_ok : Forall (λ m, @json_ok (λ _, "0.5") (λ _, None) m.2) sample_record.
Proof.
  apply Forall_forall. intros m Hm. apply (@json_ok_flat (λ _, "0.5") (λ _, None)).
  assert (forallb (λ m, json_flat m.2) sample_record = true) as Hall by (vm_compute; reflexivity).
  rewrite forallb_forall in Hall. apply Hall. by apply list_elem_of_In.
Qed.

Lemma journal_entry_reads_back_witness :
  let entry := ["j"] ++ [dir_name sample_record] in
  ∃ f', @write (λ _, "0.5") obliging ["j"] sample_record (o_final_state sample_outputs) empty_disk [] =
      (Ok (Some entry), (f', [])) ∧ empty_disk ⊆ f' ∧
    (∃ text d, read_text obliging (entry ++ ["record.json"]) f' [] = (Ok text, (f', [])) ∧
       @json_loads (λ _, None) text = Some (PDict d) ∧ from_dict d = sample_record) ∧
    exists_ (entry ++ ["FLAGGED"]) f' = false.
Proof.
  exact (@journal_entry_reads_back (λ _, "0.5") (λ _, None) sample_git false obliging ["j"] 1777306524
    sample_outputs empty_disk [] (λ q, eq_refl) sample_json_ok (λ _ _ _, eq_refl) (conj eq_refl eq_refl)
    (empty_disk_fresh sample_record)).
Defined.

(** A day-old run, in a journal that keeps less. *)
Lemma journal_retention_witness :
  let entry := ["j"] ++ [dir_name sample_record] in
  let old := (inject_Z 1777306524 < inject_Z 1777406524 - inject_Z 86400)%Q ∧
             ¬ (true = true ∧ to_review sample_outputs = true) in
  ∃ s f', (_ ← @write (λ _, "0.5") obliging ["j"] sample_record (o_final_state sample_outputs);
           run_prune obliging ["j"] 86400 true true (inject_Z 1777406524)) empty_disk [] = (Ok s, (f', [])) ∧
    errors s = [] ∧
    (old → ∀ q, below entry q = true → f' !! q = None) ∧
    (¬ old → f' !! entry = Some Dir ∧
       ∀ n x, (n, x) ∈ @entry_files (λ _, "0.5") sample_record (o_final_state sample_outputs) →
         f' !! (entry ++ [n]) = Some (File x)).
Proof.
  apply (@journal_retention (λ _, "0.5") sample_git false obliging ["j"] 1777306524
    sample_outputs 86400 true (inject_Z 1777406524) empty_disk []).
  - done.
  - unfold MAX_SECONDS. lia.
  - by apply Qle_bool_iff.
  - by split.
  - apply empty_disk_fresh.
Defined.

Lemma journal_keeps_to_itself_witness :
  ∃ f', @maybe_journal (λ _, "0.5") obliging ["j"] true sample_git false 1777306524 sample_outputs empty_disk [] =
      (Ok tt, (f', [])) ∧
    ∀ q n, empty_disk !! q = Some n → below (["j"] ++ [dir_name sample_record]) q = false → f' !! q = Some n.
Proof.
  exact (@journal_keeps_to_itself (λ _, "0.5") sample_git false obliging ["j"] true 1777306524 sample_outputs
    empty_disk [] (conj eq_refl eq_refl)).
Defined.

End JournalSpec.
