(* ===== verification/BigQuery.v ===== *)
(** * Exporting the journal to a warehouse

    Model of [tools/runrecord_to_bigquery.py]: the entries of a journal become
    rows of a table, one each, whichever host exports.  The client of the
    warehouse is an interface; what it is relied on is stated with it. *)

From S2P Require Import Prelude PyStr PyTime Effects PyJson PyJsonLoads Files RunRecord.
Local Open Scope string_scope.
Local Open Scope list_scope.

Module BigQuery.
Import Files.

Notation record := (list (string * pyval)).
Notation row := (list (string * pyval)).

Definition ENTRY_ID_COLUMN : string := "entry_id".
Definition RUN_TS_COLUMN : string := "run_ts".

(** ** Reading the journal *)

Section journal.
Context `{FloatParse} (o : os).

(** What a record cannot be read for, and is passed over. *)
Definition unreadable (e : exn) : bool := is_os_error e || mem (exn_class e) ["ValueError"; "UnicodeDecodeError"].

(** The record of an entry, if there is one. *)
Definition read_record (entry : path) : M fs (option record) :=
  let record_path := entry ++ ["record.json"] in
  f ← get;
  if negb (is_dir entry f) || negb (is_file record_path f) then mret None
  else
    try_ (text ← read_text o record_path;
          match json_loads text with
          | Some (PDict d) => mret (Some d)
          | Some _ => mret None
          | None => throw (value_error "not a JSON document")
          end)
      (λ e, if unreadable e then mret None else throw e).

Definition name_of (entry : path) : string := List.last entry "".

Fixpoint read_entries (entries : list path) : M fs (list (string * record)) :=
  match entries with
  | [] => mret []
  | entry :: entries' =>
      r ← read_record entry;
      rest ← read_entries entries';
      mret (match r with Some d => (name_of entry, d) :: rest | None => rest end)
  end.

Definition iter_journal_entries (journal_dir : path) : M fs (list (string * record)) :=
  f ← get;
  if negb (is_dir journal_dir f) then mret []
  else entries ← sorted_iterdir o journal_dir; read_entries entries.

End journal.

(** ** The schema *)

(** The fields of [RunRecord] with their annotations. *)
Definition ANNOTATIONS : list (string * string) :=
  [("schema_version", "str"); ("agent_name", "str"); ("bug_id", "str"); ("outcome", "str");
   ("timestamp", "str"); ("error", "str | None"); ("iterations", "int"); ("elapsed_s", "float | None");
   ("project_id", "str"); ("project_web_url", "str"); ("job_id", "str"); ("agent_config", "dict");
   ("run_id", "str | None"); ("llm_model", "str | None"); ("agent_code_git_commit", "str | None");
   ("agent_code_git_branch", "str | None"); ("agent_code_git_dirty", "bool | None");
   ("agent_code_git_status", "str | None"); ("react_step_count", "int | None");
   ("react_confidence", "str | None"); ("fix_branch_name", "str | None");
   ("branch_create_status", "str | None"); ("base_branch", "str | None"); ("base_commit", "str | None");
   ("commit_status", "str | None"); ("commit_branch", "str | None"); ("commit_hash", "str | None");
   ("review_status", "str | None"); ("review_url", "str | None"); ("review_id", "int | str | None");
   ("review_iid", "int | str | None"); ("review_branch", "str | None"); ("patch_file", "str | None");
   ("report_file", "str | None"); ("branch_create_result", "dict | None"); ("commit_result", "dict | None");
   ("review_result", "dict | None"); ("test_passed", "bool | None"); ("suspect_file_path", "str | None");
   ("parse_trace_fallback", "bool | None"); ("source_fetch_failed", "bool | None");
   ("fetch_trace_retries", "int | None"); ("fetch_source_file_retries", "int | None");
   ("commit_change_retries", "int | None"); ("wait_ci_result_retries", "int | None");
   ("create_mr_retries", "int | None"); ("reflection_count", "int | None"); ("reflection_mode", "str | None");
   ("code_review_status", "str | None"); ("code_review_finding_count", "int | None");
   ("code_review_would_escalate", "bool | None"); ("code_review_findings", "list | None");
   ("code_review_rounds", "int | None"); ("max_input_tokens", "int | None"); ("llm_call_count", "int | None");
   ("total_prompt_tokens", "int | None"); ("total_completion_tokens", "int | None");
   ("total_cached_input_tokens", "int | None"); ("total_cost_usd", "float | None");
   ("cost_currency", "str | None"); ("cost_source", "str | None"); ("total_llm_wallclock_s", "float | None");
   ("llm_call_wallclock_ms", "list | None"); ("llm_model_served", "str | None");
   ("llm_backend_name", "str | None"); ("no_fix_retry_count", "int | None");
   ("swebench_instance_id", "str | None"); ("resolved", "bool | None"); ("step_resume_count", "int | None");
   ("step_resumed_from_step", "int | None"); ("step_replayed_command_count", "int | None")].
Definition SCALAR_ARRAY_FIELDS : list (string * string) := [("llm_call_wallclock_ms", "INT64")].

(** Blanks are taken out; a union with numbers and texts is a text. *)
Definition bq_type_for (annotation : string) : string :=
  let a := str_replace " " "" annotation in
  let has p := str_contains p a in
  if has "dict" || has "list" then "JSON_TEXT"
  else if has "int" && has "str" then "STRING"
  else if has "bool" then "BOOL"
  else if has "float" then "FLOAT64"
  else if has "int" then "INT64"
  else "STRING".

Record SchemaField := mkField { f_name : string; f_type : string; f_mode : string }.

Definition schema_field (f : string * string) : SchemaField :=
  match dict_get f.1 SCALAR_ARRAY_FIELDS with
  | Some t => mkField f.1 t "REPEATED"
  | None =>
      let kind := bq_type_for f.2 in
      mkField f.1 (if bool_decide (kind = "JSON_TEXT") then "STRING" else kind) "NULLABLE"
  end.

Definition build_schema : list SchemaField :=
  mkField ENTRY_ID_COLUMN "STRING" "REQUIRED" :: mkField RUN_TS_COLUMN "TIMESTAMP" "NULLABLE"
  :: map schema_field ANNOTATIONS.

Definition build_schema_names : list string := [ENTRY_ID_COLUMN; RUN_TS_COLUMN] ++ map fst ANNOTATIONS.

(** ** Rows *)

(** [datetime.isoformat] of a second in UTC. *)
Definition isoformat (t : Z) : string :=
  let c := civil_of t in
  digits 4 (year c) (String "-" (digits 2 (month c) (String "-" (digits 2 (day c) (String "T"
    (digits 2 (hour c) (String ":" (digits 2 (minute c) (String ":" (digits 2 (second c) "+00:00")))))))))).

Fixpoint first_stamp (candidates : list pyval) : option string :=
  match candidates with
  | [] => None
  | PStr s :: candidates' =>
      match strptime s with Some t => Some (isoformat t) | None => first_stamp candidates' end
  | _ :: candidates' => first_stamp candidates'
  end.

Definition parse_run_ts (record : record) (entry_id : string) : option string :=
  first_stamp [dget "timestamp" record; PStr (str_partition "_" entry_id).1].

Definition dumps_opts : json_opts := mkJsonOpts false ", " ": " false.
Definition is_number (v : pyval) : bool :=
  match v with PInt _ | PFloat _ | PBool _ => true | _ => false end.

(** [try: number(value)  except (TypeError, ValueError): None] *)
Definition or_none {A} (make : A → pyval) (r : res A) : pyval := match r with Ok a => make a | Raise _ => PNone end.

Definition coerce `{FloatRepr, FloatParse} (f : string * string) (value : pyval) : pyval :=
  match value with
  | PNone => PNone
  | _ =>
      match dict_get f.1 SCALAR_ARRAY_FIELDS with
      | Some _ => PList (match value with PList l => List.filter is_number l | _ => [] end)
      | None =>
          let kind := bq_type_for f.2 in
          if bool_decide (kind = "JSON_TEXT") then PStr (json_dumps dumps_opts value)
          else if bool_decide (kind = "BOOL") then PBool (truthy value)
          else if bool_decide (kind = "INT64") then or_none PInt (py_int value)
          else if bool_decide (kind = "FLOAT64") then or_none PFloat (py_float value)
          else PStr (py_str value)
      end
  end.

Definition coerce_row `{FloatRepr, FloatParse} (entry_id : string) (record : record) : row :=
  (ENTRY_ID_COLUMN, PStr entry_id) :: (RUN_TS_COLUMN, RunRecord.opt_text (parse_run_ts record entry_id))
  :: map (λ f, (f.1, coerce f (dget f.1 record))) ANNOTATIONS.

(** ** The warehouse *)

(** The client: the creation of the dataset and the table where they are
    missing, the query for the identities, and a load job that appends. *)
Class Warehouse (S : Type) := {
  create_table : list SchemaField → S → res unit * S;
  select_ids : S → res (list string) * S;
  load_job : list SchemaField → list row → S → res unit * S
}.

(** The identity a row was given. *)
Definition id_of (r : row) : option string := match dget ENTRY_ID_COLUMN r with PStr s => Some s | _ => None end.

(** What is documented of it: creation keeps an existing table, a query reads
    every row, and a load job appends all of its rows or none.  An error says nothing
    of which: the job may have failed, or only the wait for it. *)
Class Lawful (S : Type) `{Warehouse S} (table : S → list row) : Prop := {
  create_keeps : ∀ sch s, table (create_table sch s).2 = table s;
  select_keeps : ∀ s, table (select_ids s).2 = table s;
  select_reads : ∀ s ids, (select_ids s).1 = Ok ids → ∀ x, x ∈ ids ↔ Some x ∈ map id_of (table s);
  load_appends : ∀ sch rs s, (load_job sch rs s).1 = Ok tt → table (load_job sch rs s).2 = table s ++ rs;
  load_is_atomic : ∀ sch rs s e, (load_job sch rs s).1 = Raise e →
    table (load_job sch rs s).2 = table s ∨ table (load_job sch rs s).2 = table s ++ rs
}.

(** ** export *)

Record stats := mkStats { scanned : nat; skipped_existing : nat; loaded : nat }.

(** The disk of the host and the state of the client. *)
Record world (S : Type) := mkWorld { disk : fs; house : S }.
Arguments mkWorld {S}.
Arguments disk {S}.
Arguments house {S}.

Section export.
Context {S : Type} `{Warehouse S, FloatRepr, FloatParse}.

Definition on_disk {A} (m : M fs A) : M (world S) A := λ w h,
  let '(r, (f, h)) := m (disk w) h in (r, (mkWorld f (house w), h)).
Definition on_house {A} (op : S → res A * S) : M (world S) A := λ w h,
  let '(r, s) := op (house w) in (r, (mkWorld (disk w) s, h)).

Definition fresh_rows (known : list string) (entries : list (string * record)) : list row :=
  map (λ x, coerce_row x.1 x.2) (List.filter (λ x, negb (mem x.1 known)) entries).

Definition load_rows (rs : list row) : M (world S) nat :=
  _ ← on_house (load_job build_schema rs); mret (List.length rs).

Definition export (o : os) (journal_dir : path) (dry_run : bool) : M (world S) stats :=
  entries ← on_disk (iter_journal_entries o journal_dir);
  let scanned := List.length entries in
  if dry_run then mret (mkStats scanned 0 0)
  else
    _ ← on_house (create_table build_schema);
    known ← on_house select_ids;
    let rs := fresh_rows known entries in
    let skipped := (scanned - List.length rs)%nat in
    match rs with
    | [] => mret (mkStats scanned skipped 0)
    | _ => n ← load_rows rs; mret (mkStats scanned skipped n)
    end.

(** The exit status with what is printed; a failure of any kind is logged. *)
Definition main (o : os) (journal_dir : path) (dry_run : bool) : M (world S) (Z * list string) :=
  try_ (st ← export o journal_dir dry_run;
        mret (0%Z, ["scanned=" +:+ str_of_nat (scanned st) +:+ " loaded=" +:+ str_of_nat (loaded st)
                    +:+ " skipped_existing=" +:+ str_of_nat (skipped_existing st)]))
    (λ _, mret (1%Z, [])).

End export.
End BigQuery.

(** * Theorems about the export of the journal

    A row fits the schema and keeps what is unknown unknown; whatever hosts
    export whatever journals to a table, one export after another, and however they
    end, no entry has two rows, and one that succeeds leaves a row for every record of
    its journal. *)

Module BigQuerySpec.
Import Files BigQuery.

(** ** The schema and the rows *)

Lemma annotations_fields : map fst ANNOTATIONS = RunRecord.FIELDS.
Proof. reflexivity. Qed.

Lemma schema_names : map f_name build_schema = build_schema_names.
Proof. reflexivity. Qed.

(** A value a column takes; numbers of other kinds do not go into an array. *)
Definition fits_type (t : string) (v : pyval) : bool :=
  match v with
  | PStr _ => bool_decide (t = "STRING") || bool_decide (t = "TIMESTAMP")
  | PBool _ => bool_decide (t = "BOOL")
  | PInt _ => bool_decide (t = "INT64")
  | PFloat _ => bool_decide (t = "FLOAT64")
  | _ => false
  end.
Definition fits (c : SchemaField) (v : pyval) : bool :=
  if bool_decide (f_mode c = "REPEATED")
  then match v with PNone => true | PList l => forallb (fits_type (f_type c)) l | _ => false end
  else match v with PNone => negb (bool_decide (f_mode c = "REQUIRED")) | v => fits_type (f_type c) v end.

(** The numbers of an array column are integers. *)
Definition whole (d : list (string * pyval)) : Prop :=
  ∀ l v, dget "llm_call_wallclock_ms" d = PList l → v ∈ l → is_number v = true → ∃ z, v = PInt z.

Lemma fits_kind `{FloatRepr, FloatParse} (f : string * string) (v : pyval) :
  (∀ l x, v = PList l → x ∈ l → is_number x = true → f.1 = "llm_call_wallclock_ms" → ∃ z, x = PInt z) →
  fits (schema_field f) (coerce f v) = true.
Proof.
  intros Hl. unfold schema_field, coerce. destruct f as [k a]. cbn [fst snd].
  destruct (decide (k = "llm_call_wallclock_ms")) as [->|Hk].
  - change (dict_get _ SCALAR_ARRAY_FIELDS) with (Some "INT64").
    destruct v as [| | | | |l|]; try reflexivity. unfold fits. cbn. apply forallb_forall. intros x Hx.
    apply filter_In in Hx as [Hx Hn]. apply list_elem_of_In in Hx. by destruct (Hl l x eq_refl Hx Hn eq_refl) as [z ->].
  - assert (dict_get k SCALAR_ARRAY_FIELDS = None) as ->.
    { unfold SCALAR_ARRAY_FIELDS, dict_get. cbn. by destruct (decide (k = _)). }
    unfold bq_type_for. unfold fits. cbn [f_mode f_type].
    destruct (str_contains "dict" _ || str_contains "list" _); [by destruct v|].
    destruct (str_contains "int" _ && str_contains "str" _); [by destruct v|].
    destruct (str_contains "bool" _); [by destruct v|].
    destruct (str_contains "float" _); [destruct v; try done; cbn; by repeat case_match|].
    destruct (str_contains "int" _); [destruct v; try done; cbn; by repeat case_match|by destruct v].
Qed.

(** A row has the columns of the schema in their order, each with a value that
    fits it, and what the record does not know is unknown in the row. *)
Theorem row_fits_schema `{FloatRepr, FloatParse} (entry_id : string) (d : list (string * pyval)) :
  whole d →
  map fst (coerce_row entry_id d) = map f_name build_schema ∧
  Forall2 (λ c kv, fits c kv.2 = true) build_schema (coerce_row entry_id d) ∧
  ∀ k, k ∈ RunRecord.FIELDS → dget k d = PNone → dget k (coerce_row entry_id d) = PNone.
Proof.
  intros Hw. split; [reflexivity|]. split.
  - unfold build_schema, coerce_row. constructor; [done|]. constructor.
    { unfold RunRecord.opt_text. by destruct (parse_run_ts d entry_id). }
    apply Forall2_fmap, Forall_Forall2_diag, Forall_forall. intros f _. cbn [snd]. apply fits_kind. intros l x Hl Hx Hn Hk.
    rewrite Hk in Hl. by apply (Hw l).
  - intros k Hk Hn. unfold coerce_row.
    assert (k ≠ ENTRY_ID_COLUMN ∧ k ≠ RUN_TS_COLUMN) as [H1 H2].
    { split; intros ->; revert Hk; apply (bool_decide_unpack _); by vm_compute. }
    rewrite <- annotations_fields in Hk. revert Hk. generalize ANNOTATIONS. intros l.
    change (k ∈ map fst l → default PNone (dict_get k ((ENTRY_ID_COLUMN, PStr entry_id)
      :: (RUN_TS_COLUMN, RunRecord.opt_text (parse_run_ts d entry_id)) :: map (λ f, (f.1, coerce f (dget f.1 d))) l)) = PNone).
    cbn [dict_get]. rewrite !decide_False by done.
    induction l as [|f l IH]; cbn [map dict_get]; [by intros ?%elem_of_nil|].
    intros Hk. destruct (decide (k = f.1)) as [Heq|]; [by rewrite <- Heq, Hn|].
    apply elem_of_cons in Hk as [|Hk]; [done|]. by apply IH.
Qed.

(** ** Reading a journal *)

(** A computation that leaves the disk alone, however it ends. *)
Definition reads {A : Type} (m : M fs A) : Prop := ∀ f h, (m f h).2 = (f, h).

Lemma reads_ret {A : Type} (a : A) : reads (mret a).
Proof. done. Qed.
Lemma reads_throw {A : Type} (e : exn) : reads (throw (A := A) e).
Proof. done. Qed.
Lemma reads_get : reads get.
Proof. done. Qed.
Lemma reads_bind {A B : Type} (m : M fs A) (k : A → M fs B) : reads m → (∀ a, reads (k a)) → reads (m ≫= k).
Proof.
  intros Hm Hk f h. rewrite bind_run. specialize (Hm f h). destruct (m f h) as [[a|e] [f' h']]; cbn in *; [|done].
  injection Hm as -> ->. apply Hk.
Qed.
Lemma reads_try {A : Type} (m : M fs A) hd : reads m → (∀ e, reads (hd e)) → reads (try_ m hd).
Proof.
  intros Hm Hk f h. unfold try_. specialize (Hm f h). destruct (m f h) as [[a|e] [f' h']]; cbn in *; [done|].
  injection Hm as -> ->. apply Hk.
Qed.
Create HintDb reads.
#[local] Hint Resolve reads_ret reads_throw reads_get reads_bind reads_try : reads.

Section reading.
Context `{FloatParse} (o : os).

Lemma reads_guarded {A : Type} (op : string) (p : path) (m : M fs A) : reads m → reads (guarded o op p m).
Proof. intros Hm. unfold guarded. apply reads_bind; [done|]. intros f. destruct (refuse o op p f); auto with reads. Qed.
#[local] Hint Resolve reads_guarded : reads.

Lemma reads_text (p : path) : reads (read_text o p).
Proof. apply reads_guarded, reads_bind; [done|]. intros f. destruct (f !! p) as [[]|]; auto with reads. Qed.

Lemma reads_record (entry : path) : reads (read_record o entry).
Proof.
  apply reads_bind; [done|]. intros f. case_match; [done|]. apply reads_try.
  - apply reads_bind; [apply reads_text|]. intros t. destruct (json_loads t) as [[]|]; auto with reads.
  - intros e. case_match; auto with reads.
Qed.

Lemma reads_entries (l : list path) : reads (read_entries o l).
Proof.
  induction l as [|p l IH]; [done|]. apply reads_bind; [apply reads_record|]. intros r.
  apply reads_bind; [done|]. by intros rest.
Qed.

Lemma reads_iter (d : path) : reads (iter_journal_entries o d).
Proof.
  apply reads_bind; [done|]. intros f. case_match; [done|]. apply reads_bind; [|apply reads_entries].
  apply reads_guarded, reads_bind; [done|]. intros f'. destruct (f' !! d) as [[]|]; auto with reads.
Qed.

(** Entries have the names of their directories, each at most once. *)
Lemma read_entries_names (l : list path) (f : fs) h es st : read_entries o l f h = (Ok es, st) → map fst es `sublist_of` map name_of l.
Proof.
  revert es st. induction l as [|p l IH]; intros es st; cbn [read_entries]; [by intros [= <- _]|].
  rewrite bind_run. pose proof (reads_record p f h) as Hr. destruct (read_record o p f h) as [[r|e] [f1 h1]]; [|done].
  cbn in Hr. injection Hr as -> ->. rewrite bind_run. destruct (read_entries o l f h) as [[rest|e] st'] eqn:E; [|by destruct st'].
  specialize (IH _ _ eq_refl). destruct st'. intros [= <- _]. destruct r; cbn; by constructor.
Qed.

Lemma name_of_child (d : path) (x : string) : name_of (d ++ [x]) = x.
Proof. unfold name_of. apply last_last. Qed.

Lemma iter_names (d : path) (f : fs) h es st : iter_journal_entries o d f h = (Ok es, st) → NoDup (map fst es).
Proof.
  unfold iter_journal_entries. rewrite bind_get. case_match; [intros [= <- _]; constructor|].
  rewrite bind_run. unfold sorted_iterdir, guarded. rewrite bind_get.
  destruct (refuse o "iterdir" d f); [done|]. rewrite bind_get.
  destruct (f !! d) as [[t|]|]; [done| |done]. cbv iota. intros Hes%read_entries_names.
  eapply sublist_NoDup; [|exact Hes]. rewrite map_map.
  rewrite (map_ext _ id) by apply name_of_child. rewrite map_id. apply names_nodup.
Qed.

(** On a willing system every record that is an object is among them. *)
Definition holds_record (f : fs) (d : path) (id : string) (r : list (string * pyval)) : Prop :=
  f !! (d ++ [id]) = Some Dir ∧
  ∃ t, f !! (d ++ [id] ++ ["record.json"]) = Some (File t) ∧ json_loads (universal_newlines t) = Some (PDict r).

Lemma read_record_run (d : path) (id : string) (r : list (string * pyval)) (f : fs) (h : trace) : willing o → holds_record f d id r →
  read_record o (d ++ [id]) f h = (Ok (Some r), (f, h)).
Proof.
  intros Ho (Hd & t & Ht & Hr). unfold read_record. rewrite bind_get. rewrite <- app_assoc.
  unfold is_dir, is_file. rewrite Hd, Ht. rewrite bool_decide_eq_true_2 by done. cbn [negb orb].
  unfold try_. rewrite bind_run. unfold read_text. rewrite guarded_willing by done. rewrite bind_get, Ht.
  unfold mret at 1, M_ret at 1. cbv iota beta. by rewrite Hr.
Qed.

Lemma read_record_returns (p : path) (f : fs) (h : trace) : willing o → ∃ r, read_record o p f h = (Ok r, (f, h)).
Proof.
  intros Ho. unfold read_record. rewrite bind_get. destruct (negb _ || negb _) eqn:E; [by eexists|].
  apply orb_false_iff in E as [_ E]. apply negb_false_iff in E. unfold is_file in E.
  destruct (f !! (p ++ ["record.json"])) as [[t|]|] eqn:Hf; try done.
  unfold try_. rewrite bind_run. unfold read_text. rewrite guarded_willing by done. rewrite bind_get, Hf.
  unfold mret at 1, M_ret at 1. cbv iota beta. destruct (json_loads _) as [[]|]; by eexists.
Qed.

Lemma read_entries_run (l : list path) (f : fs) (h : trace) : willing o →
  ∃ es, read_entries o l f h = (Ok es, (f, h)) ∧
    ∀ p r, p ∈ l → read_record o p f h = (Ok (Some r), (f, h)) → (name_of p, r) ∈ es.
Proof.
  intros Ho. induction l as [|p l (es & IH & Hin)]; [by exists []; split; [|intros ? ? ?%elem_of_nil]|].
  destruct (read_record_returns p f h Ho) as [r Hr]. cbn [read_entries]. rewrite bind_run, Hr, bind_run, IH.
  eexists. split; [done|]. intros p' r' [->|Hp]%elem_of_cons Hr'.
  - rewrite Hr in Hr'. injection Hr' as ->. apply elem_of_cons. by left.
  - destruct r; [apply elem_of_cons; right|]; by apply Hin.
Qed.

Lemma iter_run (d : path) (f : fs) (h : trace) : willing o →
  ∃ es, iter_journal_entries o d f h = (Ok es, (f, h)) ∧
    ∀ id r, f !! d = Some Dir → holds_record f d id r → (id, r) ∈ es.
Proof.
  intros Ho. unfold iter_journal_entries. rewrite bind_get. unfold is_dir.
  destruct (bool_decide_reflect (f !! d = Some Dir)) as [Hd|Hd]; cbn [negb]; [|by exists []].
  rewrite bind_run. unfold sorted_iterdir. rewrite guarded_willing by done. rewrite bind_get, Hd. cbv iota.
  destruct (read_entries_run (map (λ x, d ++ [x]) (names_in d f)) f h Ho) as (es & He & Hin).
  exists es. split; [exact He|]. intros id r _ Hr. rewrite <- (name_of_child d id). apply Hin.
  - apply list_elem_of_fmap. exists id. split; [done|]. apply elem_of_names. destruct Hr as [-> _]. eauto.
  - by apply read_record_run.
Qed.

End reading.

(** ** Exports *)

Lemma id_of_row `{FloatRepr, FloatParse} id (d : list (string * pyval)) : id_of (coerce_row id d) = Some id.
Proof. reflexivity. Qed.

Section exports.
Context {S : Type} `{Wh : Warehouse S, Hrepr : FloatRepr, Hparse : FloatParse} (table : S → list row) `{!Lawful S table}.

(** The identities in the table. *)
Definition ids (s : S) : list (option string) := map id_of (table s).

(** What an export of the entries [es] does to the table. *)
Definition exported (es : list (string * list (string * pyval))) (s s' : S) (st : stats) : Prop :=
  ∃ known, (∀ x, x ∈ known ↔ Some x ∈ ids s) ∧ table s' = table s ++ fresh_rows known es ∧
    st = mkStats (List.length es) (List.length es - List.length (fresh_rows known es)) (List.length (fresh_rows known es)).

(** An export that stopped before its rows were loaded. *)
Ltac unchanged := intros ->; cbn; split; [done|split; [by left|done]].

Lemma export_ends (o : os) (dir : path) (dry : bool) (w : world S) (h : trace) :
  let r := export o dir dry w h in
  disk r.2.1 = disk w ∧
  (table (house r.2.1) = table (house w) ∨
   ∃ es st, (iter_journal_entries o dir (disk w) h).1 = Ok es ∧ exported es (house w) (house r.2.1) st) ∧
  (∀ st, r.1 = Ok st → dry = false →
     ∃ es, (iter_journal_entries o dir (disk w) h).1 = Ok es ∧ exported es (house w) (house r.2.1) st).
Proof.
  intros r. remember r as r' eqn:E. subst r. revert E. unfold export. rewrite bind_run. unfold on_disk at 1.
  pose proof (reads_iter o dir (disk w) h) as Hr.
  destruct (iter_journal_entries o dir (disk w) h) as [res [f h1]] eqn:Hi. cbn in Hr. injection Hr as -> ->.
  destruct res as [es|e]; [|by unchanged]. destruct dry; [by unchanged|]. cbv iota.
  rewrite bind_run. unfold on_house at 1. cbn [house disk]. pose proof (create_keeps build_schema (house w)) as Hc.
  destruct (create_table build_schema (house w)) as [[[]|e] s1]; cbn in Hc; [|by unchanged].
  rewrite bind_run. unfold on_house at 1. cbn [house disk].
  pose proof (select_keeps s1) as Hk. pose proof (select_reads s1) as Hids.
  destruct (select_ids s1) as [[known|e] s2]; cbn in Hk, Hids; rewrite Hc in Hk; [|by unchanged].
  specialize (Hids known eq_refl). rewrite Hc in Hids.
  destruct (fresh_rows known es) as [|x rs] eqn:Hf.
  { intros ->. cbn. split; [done|]. split; [by left|]. intros st [= <-] _. exists es. split; [done|]. exists known.
    rewrite Hf, app_nil_r. done. }
  rewrite <- Hf. clear Hf x rs. rewrite bind_run. unfold load_rows. rewrite bind_run. unfold on_house at 1. cbn [house disk].
  pose proof (load_appends build_schema (fresh_rows known es) s2) as Hl.
  pose proof (load_is_atomic build_schema (fresh_rows known es) s2) as Ha.
  destruct (load_job build_schema (fresh_rows known es) s2) as [[[]|e] s3]; cbn in Hl, Ha; intros ->.
  - specialize (Hl eq_refl). rewrite Hk in Hl. clear Ha. cbn. split; [done|].
    assert (exported es (house w) s3 (mkStats (List.length es)
      (List.length es - List.length (fresh_rows known es)) (List.length (fresh_rows known es)))) as He by by exists known.
    split; [right; by exists es; eexists|]. intros st [= <-] _. by exists es.
  - specialize (Ha e eq_refl). rewrite Hk in Ha. cbn. split; [done|]. split; [|done].
    destruct Ha as [Ha|Ha]; [by left|right]. by exists es, (mkStats (List.length es)
      (List.length es - List.length (fresh_rows known es)) (List.length (fresh_rows known es))); split; [|exists known].
Qed.

Lemma fresh_ids known es : map id_of (fresh_rows known es) = map (λ x, Some x.1) (List.filter (λ x, negb (mem x.1 known)) es).
Proof. unfold fresh_rows. rewrite map_map. by apply map_ext. Qed.

Lemma fresh_elem known (es : list (string * list (string * pyval))) id d :
  (id, d) ∈ List.filter (λ x, negb (mem x.1 known)) es ↔ (id, d) ∈ es ∧ id ∉ known.
Proof.
  rewrite list_elem_of_In, filter_In, <- list_elem_of_In. cbn [fst]. rewrite negb_true_iff.
  unfold mem. by rewrite bool_decide_eq_false.
Qed.

Lemma fresh_nodup (known : list string) (es : list (string * list (string * pyval))) :
  NoDup (map fst es) → NoDup (map id_of (fresh_rows known es)).
Proof.
  intros Hn. rewrite fresh_ids. rewrite <- (map_map fst Some). apply (NoDup_fmap_2 Some).
  induction es as [|x es IH]; [constructor|]. cbn in Hn. apply NoDup_cons in Hn as [Hx Hn]. cbn.
  destruct (mem x.1 known); [by apply IH|]. cbn. constructor; [|by apply IH].
  intros (y & Hy & Hin)%list_elem_of_fmap. apply Hx, list_elem_of_fmap. exists y. split; [done|].
  apply list_elem_of_In in Hin. apply filter_In in Hin as [Hin _]. by apply list_elem_of_In.
Qed.

(** An export adds rows with new identities, one for each entry that had none. *)
Lemma exported_spec es s s' st :
  exported es s s' st → NoDup (map fst es) → NoDup (ids s) →
  NoDup (ids s') ∧ table s `prefix_of` table s' ∧
  (∀ id d, (id, d) ∈ es → Some id ∈ ids s' ∧ (Some id ∉ ids s → coerce_row id d ∈ table s')) ∧
  (scanned st = List.length es ∧ scanned st = skipped_existing st + loaded st ∧
   List.length (table s') = List.length (table s) + loaded st)%nat.
Proof.
  intros (known & Hknown & Ht & ->) Hes Hs. unfold ids in *. rewrite Ht, map_app. split; [|split; [|split]].
  - apply NoDup_app. split; [done|]. split; [|by apply fresh_nodup]. intros i Hi Hf. rewrite fresh_ids in Hf.
    apply list_elem_of_fmap in Hf as ([id d] & -> & Hf%fresh_elem). by apply (proj2 Hf), Hknown.
  - by apply prefix_app_r.
  - intros id d Hin. destruct (decide (id ∈ known)) as [Hk|Hk].
    + apply Hknown in Hk. split; [apply elem_of_app; by left|done].
    + assert (coerce_row id d ∈ fresh_rows known es) as Hc.
      { apply list_elem_of_fmap. exists (id, d). split; [done|]. by apply fresh_elem. }
      split; [|intros _; apply elem_of_app; by right]. apply elem_of_app. right.
      apply list_elem_of_fmap. by exists (coerce_row id d).
  - cbn. rewrite List.length_app. split; [done|]. split; [|done]. unfold fresh_rows. rewrite length_map.
    pose proof (filter_length_le (λ x, negb (mem x.1 known)) es). lia.
Qed.

(** Hosts with their systems, disks and journals, exporting to one table. *)
Record host := mkHost { h_os : os; h_disk : fs; h_journal : path; h_dry : bool }.
Definition export_at (x : host) (s : S) : res stats * S :=
  let r := export (h_os x) (h_journal x) (h_dry x) (mkWorld (h_disk x) s) [] in (r.1, house r.2.1).
Definition exports (hosts : list host) (s : S) : S := fold_left (λ s x, (export_at x s).2) hosts s.

Lemma iter_at x es : (iter_journal_entries (h_os x) (h_journal x) (h_disk x) []).1 = Ok es → NoDup (map fst es).
Proof.
  intros He. destruct (iter_journal_entries _ _ _ _) as [r st] eqn:E. cbn in He. subst r. by eapply iter_names.
Qed.

Lemma export_at_keeps x s : NoDup (ids s) → NoDup (ids (export_at x s).2) ∧ table s `prefix_of` table (export_at x s).2.
Proof.
  intros Hs. destruct (export_ends (h_os x) (h_journal x) (h_dry x) (mkWorld (h_disk x) s) []) as (_ & Ht & _).
  cbn [house disk] in Ht. fold (export_at x s) in Ht.
  change (house (export _ _ _ _ _).2.1) with (export_at x s).2 in Ht.
  destruct Ht as [Ht|(es & st & He & Hx)].
  - unfold ids. by rewrite Ht.
  - destruct (exported_spec _ _ _ _ Hx (iter_at _ _ He) Hs) as (? & ? & _). done.
Qed.

(** C22: exports to one table that follow one another, each begun when the one
    before has ended and its load job with it, whatever hosts and journals they are of
    and however they ended, an error after the rows were appended included, leave the
    table with one row for an identity and every row it had.  One more that succeeds,
    of a journal on a disk that refuses nothing, accounts for every entry it scanned,
    leaves a row for each record of its journal, made of that record unless there was
    one before, and the same export again loads nothing.  Of the warehouse the laws of
    [Lawful] are assumed; exports that overlap leave two rows. *)
Theorem export_once (hosts : list host) (s0 s' : S) (x : host) (st : stats) :
  NoDup (ids s0) →
  let s := exports hosts s0 in
  export_at x s = (Ok st, s') → h_dry x = false → willing (h_os x) → h_disk x !! h_journal x = Some Dir →
  NoDup (ids s') ∧ table s0 `prefix_of` table s' ∧
  (scanned st = skipped_existing st + loaded st ∧ List.length (table s') = List.length (table s) + loaded st)%nat ∧
  (∀ id d, holds_record (h_disk x) (h_journal x) id d →
     Some id ∈ ids s' ∧ (Some id ∉ ids s → coerce_row id d ∈ table s')) ∧
  (∀ st2 s2, export_at x s' = (Ok st2, s2) → loaded st2 = 0%nat ∧ skipped_existing st2 = scanned st ∧ table s2 = table s').
Proof.
  intros H0 s Hx Hdry Ho Hj.
  assert (NoDup (ids s) ∧ table s0 `prefix_of` table s) as [Hs Hp].
  { subst s. clear Hx. revert s0 H0. induction hosts as [|y hosts IH]; intros s0 H0; [done|]. cbn.
    destruct (export_at_keeps y s0 H0) as [Hn Hpre]. destruct (IH _ Hn) as [? ?]. split; [done|]. by etransitivity. }
  destruct (iter_run (h_os x) (h_journal x) (h_disk x) [] Ho) as (es & Hes & Hin).
  assert (∀ s1 st1 s2, export_at x s1 = (Ok st1, s2) → exported es s1 s2 st1) as Hex.
  { intros s1 st1 s2 H1. unfold export_at in H1. injection H1 as H1 H2.
    destruct (export_ends (h_os x) (h_journal x) (h_dry x) (mkWorld (h_disk x) s1) []) as (_ & _ & Hok).
    destruct (Hok st1 H1 Hdry) as (es' & He' & Hx'). cbn in He'. rewrite Hes in He'. injection He' as <-.
    cbn [house] in Hx'. by rewrite H2 in Hx'. }
  assert (NoDup (map fst es)) as Hnd by (apply (iter_at x); by rewrite Hes).
  destruct (exported_spec _ _ _ _ (Hex _ _ _ Hx) Hnd Hs) as (Hn' & Hp' & Hrow & Hscan & Hsum & Hlen).
  split; [done|]. split; [by etransitivity|]. split; [done|]. split.
  { intros id d Hd. apply Hrow, Hin; done. }
  intros st2 s2 H2. destruct (Hex _ _ _ H2) as (known & Hknown & Ht & ->). cbn.
  assert (fresh_rows known es = []) as Hf.
  { unfold fresh_rows. destruct (List.filter _ es) as [|[id d] l] eqn:E; [done|]. exfalso.
    assert ((id, d) ∈ List.filter (λ x, negb (mem x.1 known)) es) as [Hi Hk]%fresh_elem by (rewrite E; apply elem_of_cons; by left).
    by apply Hk, Hknown, (Hrow id d Hi). }
  rewrite Hf, Hscan in *. cbn. rewrite Nat.sub_0_r. split; [done|]. split; [done|]. by rewrite Ht, app_nil_r.
Qed.

End exports.

(** ** A concrete warehouse *)

#[local] Instance no_repr : FloatRepr := λ _, "0.5".
#[local] Instance no_parse : FloatParse := λ _, Some (1 # 2)%Q.

(** A table that is a list of rows. *)
#[local] Instance list_warehouse : Warehouse (list row) := {|
  create_table _ s := (Ok tt, s);
  select_ids s := (Ok (omap id_of s), s);
  load_job _ rs s := (Ok tt, s ++ rs)
|}.

#[local] Instance list_lawful : Lawful (list row) id.
Proof.
  split; try done. intros s ids [= <-] x. rewrite list_elem_of_omap, (list_elem_of_fmap id_of).
  split; intros (r & H1 & H2); exists r; done.
Qed.

Definition calm_os : os := mkOs (λ _ _ _, None) (λ _ _ _, None) (λ _ _ _, false).

(** Two entries, one of them half written, and a file that is no entry. *)
Definition entry_name : string := "20260804T152240Z_B1_a_m".
Definition sample_text : string :=
  json_dumps default_opts (PDict [("bug_id", PStr "B1"); ("iterations", PInt 3); ("review_id", PInt 7); ("outcome", PStr "fixed")]).
Definition sample_disk : fs :=
  <[["j"] := Dir]> (<[["j"; entry_name] := Dir]> (<[["j"; entry_name; "record.json"] := File sample_text]>
    (<[["j"; "torn"] := Dir]> (<[["j"; "torn"; "record.json"] := File "{"]> {[["j"; "notes.txt"] := File "x"]})))).
Definition sample_host : host := mkHost calm_os sample_disk ["j"] false.
Definition dry_host : host := mkHost calm_os sample_disk ["j"] true.
Definition sample_record : list (string * pyval) :=
  [("bug_id", PStr "B1"); ("iterations", PInt 3); ("review_id", PInt 7); ("outcome", PStr "fixed")].
Definition loaded_table : list row := (export_at sample_host []).2.

Example row_of_the_sample :
  loaded_table = [coerce_row entry_name sample_record] ∧
  map (λ r, (dget "run_ts" r, dget "iterations" r, dget "review_id" r, dget "total_cost_usd" r)) loaded_table =
    [(PStr "2026-08-04T15:22:40+00:00", PInt 3, PStr "7", PNone)].
Proof. by vm_compute. Qed.

Lemma export_once_witness :
  NoDup (ids id loaded_table) ∧ (@nil row) `prefix_of` loaded_table ∧
  (scanned (mkStats 1 0 1) = skipped_existing (mkStats 1 0 1) + loaded (mkStats 1 0 1) ∧
   List.length loaded_table = List.length (exports [dry_host] (@nil row)) + loaded (mkStats 1 0 1))%nat ∧
  (∀ e d, holds_record sample_disk ["j"] e d →
     Some e ∈ ids id loaded_table ∧ (Some e ∉ ids id (exports [dry_host] (@nil row)) → coerce_row e d ∈ loaded_table)) ∧
  (∀ st2 s2, export_at sample_host loaded_table = (Ok st2, s2) →
     loaded st2 = 0%nat ∧ skipped_existing st2 = scanned (mkStats 1 0 1) ∧ s2 = loaded_table).
Proof.
  apply (export_once (S := list row) id [dry_host] [] loaded_table sample_host (mkStats 1 0 1)).
  - constructor.
  - vm_compute. reflexivity.
  - reflexivity.
  - done.
  - vm_compute. reflexivity.
Defined.

(** ** What goes wrong *)

(** Between the query and the load another export may load the same entries:
    two exports of one journal that overlap leave two rows for each. *)
Example overlapping_exports_duplicate :
  let entries := [(entry_name, sample_record)] in
  let known := omap id_of (@nil row) in
  let first := (load_job build_schema (fresh_rows known entries) []).2 in
  let second := (load_job build_schema (fresh_rows known entries) first).2 in
  ids id second = [Some entry_name; Some entry_name].
Proof. by vm_compute. Qed.

(** A client whose load jobs append their rows and then fail to tell. *)
Definition untold : Warehouse (list row) := {|
  create_table _ s := (Ok tt, s);
  select_ids s := (Ok (omap id_of s), s);
  load_job _ rs s := (Raise (Exn "ServerError" "no answer"), s ++ rs)
|}.

Lemma untold_lawful : @Lawful (list row) untold id.
Proof.
  split; try done; [|by intros; right]. intros s ids [= <-] x. rewrite list_elem_of_omap, (list_elem_of_fmap id_of).
  split; intros (r & H1 & H2); exists r; done.
Qed.

(** The export after one whose rows were appended unnoticed loads nothing. *)
Example untold_rows_are_known :
  let first := (@export_at _ untold _ _ sample_host []) in
  is_ok first.1 = false ∧ ids id first.2 = [Some entry_name] ∧
  (export_at sample_host first.2).1 = Ok (mkStats 1 1 0).
Proof. by vm_compute. Qed.

(** Times that are no integers are kept in a column of integers. *)
Example half_a_millisecond :
  dget "llm_call_wallclock_ms" (coerce_row "e" [("llm_call_wallclock_ms", PList [PInt 3; PFloat (1 # 2)%Q])]) =
    PList [PInt 3; PFloat (1 # 2)%Q] ∧
  forallb (λ x, fits x.1 x.2.2) (zip build_schema (coerce_row "e" [("llm_call_wallclock_ms", PList [PInt 3; PFloat (1 # 2)%Q])])) = false.
Proof. by vm_compute. Qed.

End BigQuerySpec.
