(* ===== verification/Inspection.v ===== *)
(** * Inspection

    Model of the package [inspection/]: the findings of an inspector and their
    report ([base.py]), the target read from a path ([loader.py]), the inspector
    around one call of a model ([inspector.py]), its measure against fixtures with
    known defects ([acceptance.py]) and the command ([standalone.py]).  The model
    that is asked is [llm], a function of the prompt. *)

From Stdlib Require Import QArith.
From S2P Require Import Prelude PyStr Regex Effects Guards PyJson PyJsonLoads PyJsonIndent Files.
Local Open Scope string_scope.
Local Open Scope list_scope.

Module Inspection.
Import Files.

(** ** base.py *)

Definition SCHEMA_VERSION : string := "1".
Definition DEFECT_CLASSES : list string :=
  ["contract-mismatch"; "silent-empty-or-wrong-key"; "blind-index-or-unchecked-write"; "doc-impl-drift";
   "eval-or-state-contamination"; "other"].
Definition SEVERITIES : list string := ["high"; "medium"; "low"; "info"].
Definition CONFIDENCES : list string := ["high"; "medium"; "low"].

Record CodeFile := mkCode { cf_path : string; cf_content : string }.
Record CodeTarget := mkTarget { files : list CodeFile; description : string }.

Record Finding := mkFinding {
  severity : string;
  defect_class : string;
  file : string;
  line : option Z;
  title : string;
  rationale : string;
  suggestion : string;
  confidence : string
}.

Definition normalized (f : Finding) : Finding :=
  mkFinding (if mem (severity f) SEVERITIES then severity f else "info")
    (if mem (defect_class f) DEFECT_CLASSES then defect_class f else "other")
    (file f) (line f) (title f) (rationale f) (suggestion f)
    (if mem (confidence f) CONFIDENCES then confidence f else "low").

Record InspectionReport := mkReport {
  schema_version : string;
  target_description : string;
  model : option string;
  findings : list Finding;
  summary : string;
  error : option string
}.

Definition opt_str (o : option string) : pyval := match o with Some s => PStr s | None => PNone end.

Definition finding_dict (f : Finding) : pyval :=
  PDict [("severity", PStr (severity f)); ("defect_class", PStr (defect_class f)); ("file", PStr (file f));
         ("line", match line f with Some z => PInt z | None => PNone end); ("title", PStr (title f));
         ("rationale", PStr (rationale f)); ("suggestion", PStr (suggestion f)); ("confidence", PStr (confidence f))].

Definition to_dict (r : InspectionReport) : pyval :=
  PDict [("schema_version", PStr (schema_version r)); ("target_description", PStr (target_description r));
         ("model", opt_str (model r)); ("findings", PList (map finding_dict (findings r)));
         ("summary", PStr (summary r)); ("error", opt_str (error r))].

Definition to_json `{FloatRepr} (r : InspectionReport) : string := json_pretty (to_dict r).

(** ** loader.py *)

Definition SKIP_DIRS : list string :=
  [".git"; ".venv"; "venv"; "__pycache__"; ".pytest_cache"; "node_modules"; ".mypy_cache"; ".idea"; ".eggs";
   "build"; "dist"].
Definition MAX_FILE_CHARS : nat := 40000.

Section loader.
Context (o : os).

Definition decode_error (e : exn) : bool := bool_decide (exn_class e = "UnicodeDecodeError") || is_os_error e.

(** [f.relative_to(base)], the name of [f] where it is not below [base]. *)
Definition rel_name (f base : path) : string :=
  match PatchGuard.relative_to f base with
  | Some r => PatchGuard.as_posix r
  | None => List.last f ""
  end.

Definition read_file (f base : path) : M fs (option CodeFile) :=
  try_ (t ← read_text o f;
        mret (if (MAX_FILE_CHARS <? String.length t)%nat then None else Some (mkCode (rel_name f base) t)))
    (λ e, if decode_error e then mret None else throw e).

(** [sorted(p.rglob("*.py"))]: paths are ordered by their components, which hold
    no zero byte. *)
Definition path_key (p : path) : string := str_join (String (ascii_of_N 0) EmptyString) p.
Definition rglob_py (p : path) (f : fs) : list path :=
  sort_by path_key
    (List.filter (λ q, below p q && negb (bool_decide (q = p)) && endswith ".py" (List.last q "")) (map fst (map_to_list f))).

Definition skipped (f : path) : bool := existsb (λ part, mem part SKIP_DIRS) f.

Fixpoint read_all (fs_ : list path) (base : path) : M fs (list CodeFile) :=
  match fs_ with
  | [] => mret []
  | f :: fs' =>
      if skipped f then read_all fs' base
      else
        cf ← read_file f base;
        rest ← read_all fs' base;
        mret (match cf with Some c => c :: rest | None => rest end)
  end.

(** [p] is absolute and resolved. *)
Definition load_target (p : path) (description : string) : M fs CodeTarget :=
  f ← get;
  if negb (exists_ p f) then throw (Exn "FileNotFoundError" ("path not found: " +:+ show p))
  else if is_file p f then
    cf ← read_file p (parent p);
    mret (mkTarget (match cf with Some c => [c] | None => [] end)
            (if str_nonempty description then description else "file " +:+ List.last p ""))
  else
    out ← read_all (rglob_py p f) p;
    mret (mkTarget out (if str_nonempty description then description else "directory " +:+ List.last p "")).

End loader.

(** ** inspector.py *)

Definition MAX_TARGET_CHARS : nat := 60000.

(** [f"{n:>w}"] of a number. *)
Fixpoint spaces (n : nat) : string := match n with O => "" | S n' => String " " (spaces n') end.
Definition rjust (w : nat) (s : string) : string := spaces (w - String.length s) +:+ s.

Definition number_line (i : nat) (ln : string) : string := rjust 4 (str_of_nat i) +:+ "| " +:+ ln.
Definition numbered (body : string) : string :=
  str_join nl (imap (λ i ln, number_line (S i) ln) (str_split c_nl body)).

(** What a file contributes within the budget that is left. *)
Definition body_of (budget : nat) (content : string) : string :=
  if (budget <? String.length content)%nat then str_take budget content +:+ nl +:+ "...[truncated]" else content.

Fixpoint file_parts (budget : nat) (cfs : list CodeFile) : list string :=
  match cfs with
  | [] => []
  | cf :: cfs' =>
      let part := "--- FILE: " +:+ cf_path cf +:+ " ---" +:+ nl +:+ numbered (body_of budget (cf_content cf)) +:+ nl in
      let budget := (budget - Nat.min (String.length (cf_content cf)) budget)%nat in
      part :: (if (budget =? 0)%nat then ["...[remaining files omitted: target too large]"]
               else file_parts budget cfs')
  end.

Definition build_user_prompt (t : CodeTarget) : string :=
  str_join nl
    ((if str_nonempty (description t) then ["# Inspection target: " +:+ description t +:+ nl] else [])
     ++ file_parts MAX_TARGET_CHARS (files t)).

Section inspector.
Context `{FloatRepr, FloatParse}.

Definition JSON_RE : re := rx (mkFlags false false true) "\{.*\}".

Definition text_field (d : list (string * pyval)) (k dflt : string) : string :=
  py_str (default (PStr dflt) (dict_get k d)).

Definition finding_of (d : list (string * pyval)) : Finding :=
  normalized (mkFinding (text_field d "severity" "info") (text_field d "defect_class" "other") (text_field d "file" "")
    (match dget "line" d with PInt z => Some z | PBool b => Some (if b then 1 else 0)%Z | _ => None end)
    (str_strip (text_field d "title" "")) (str_strip (text_field d "rationale" ""))
    (str_strip (text_field d "suggestion" "")) (text_field d "confidence" "low")).

Definition findings_of (l : list pyval) : list Finding :=
  omap (λ v, match v with PDict d => Some (finding_of d) | _ => None end) l.

(** The text of a decoding error is not modelled. *)
Definition parse (raw : string) : res (string * list Finding) :=
  match re_search JSON_RE (str_strip raw) with
  | None => Raise (value_error "no JSON object in inspector response")
  | Some (_, m, _, _) =>
      match json_loads m with
      | Some (PDict data) =>
          l ← py_iter (py_or (default (PList []) (dict_get "findings" data)) (PList []));
          Ok (str_strip (text_field data "summary" ""), findings_of l)
      | Some v => Raise (attribute_error ("'" +:+ type_name v +:+ "' object has no attribute 'get'"))
      | None => Raise (value_error "invalid JSON")
      end
  end.

(** [review]: of the reply only the content is used.  The client, and with it the
    name of the model, is made on the first call. *)
Definition review (llm : string → res pyval) (before after : option string) (t : CodeTarget) : res InspectionReport :=
  let failed model_name why := Ok (mkReport SCHEMA_VERSION (description t) model_name [] "" (Some why)) in
  match files t with
  | [] => failed before "empty target (no files)"
  | _ =>
      match llm (build_user_prompt t) with
      | Raise e => failed before ("llm call failed: " +:+ exn_msg e)
      | Ok content =>
          match py_or content (PStr "") with
          | PStr text =>
              match parse (str_strip text) with
              | Raise e => failed after ("unparseable inspector response: " +:+ exn_msg e)
              | Ok (s, fnds) => Ok (mkReport SCHEMA_VERSION (description t) after fnds s None)
              end
          | v => Raise (attribute_error ("'" +:+ type_name v +:+ "' object has no attribute 'strip'"))
          end
      end
  end.

End inspector.

(** ** acceptance.py *)

Definition RANK : list (string * nat) := [("info", 0); ("low", 1); ("medium", 2); ("high", 3)]%nat.
Definition rank (s : string) : nat := default 0%nat (dict_get s RANK).
(** [_RANK[v]] *)
Definition rank_of (v : pyval) : res nat :=
  match v with
  | PStr s => match dict_get s RANK with Some n => Ok n | None => Raise (key_error (repr_str s)) end
  | PList _ | PDict _ => Raise (type_error "unhashable type")
  | _ => Raise (key_error "rank")
  end.

Fixpoint lower_all (l : list pyval) : res (list string) :=
  match l with
  | [] => Ok []
  | PStr s :: l' => r ← lower_all l'; Ok (str_lower s :: r)
  | v :: _ => Raise (attribute_error ("'" +:+ type_name v +:+ "' object has no attribute 'lower'"))
  end.

(** A list of names; a single name stands for itself. *)
Definition names_of (v : pyval) : res (list string) :=
  match v with
  | PStr s => Ok [s]
  | v => l ← py_iter v;
         if existsb (λ x, match x with PList _ | PDict _ => true | _ => false end) l
         then Raise (type_error "unhashable type")
         else Ok (omap (λ x, match x with PStr s => Some s | _ => None end) l)
  end.

Section acceptance.
Context `{FloatRepr, FloatParse}.

Definition detects (ok_classes : list string) (want : nat) (kws : list string) (f : Finding) : bool :=
  mem (defect_class f) ok_classes && (want <=? rank (severity f))%nat
  && (match kws with [] => true | _ => existsb (λ k, str_contains k (str_lower (rationale f))) kws end).

Definition describe (f : Finding) : string := severity f +:+ "/" +:+ defect_class f +:+ ": " +:+ title f.

Definition score_fixture (r : InspectionReport) (spec : pyval) : res (string * string) :=
  match error r with
  | Some ((String _ _) as e) => Ok ("ERROR", e)
  | _ =>
      kind ← py_get spec "kind" PNone;
      if bool_decide (kind = PStr "buggy") then
        mf ← py_getitem spec "must_find";
        dc ← py_getitem mf "defect_class";
        ok_classes ← names_of dc;
        ms ← py_getitem mf "min_severity";
        want ← rank_of ms;
        kws ← py_get mf "rationale_keywords_any" (PList []);
        kws ← py_iter kws;
        kws ← lower_all kws;
        Ok (match List.find (detects ok_classes want kws) (findings r) with
            | Some f => ("TP", describe f)
            | None => ("FN", str_of_nat (List.length (findings r)) +:+ " finding(s), none matched")
            end)
      else if bool_decide (kind = PStr "clean") then
        mnf ← py_getitem spec "must_not_find";
        ma ← py_getitem mnf "max_severity_allowed";
        ceiling ← rank_of ma;
        Ok (match List.filter (λ f, (ceiling <? rank (severity f))%nat) (findings r) with
            | f :: _ => ("FP", describe f)
            | [] => ("TN", "no finding above allowed severity")
            end)
      else Ok ("ERROR", "unknown fixture kind: " +:+ py_repr kind)
  end.

Record row := mkRow { fixture : string; kind : pyval; verdict : string; detail : string; boundary_flaky : bool }.

Fixpoint score_all (o : os) (inspect : CodeTarget → res InspectionReport) (dirs : list path) : M fs (list row) :=
  match dirs with
  | [] => mret []
  | d :: dirs' =>
      f ← get;
      if negb (is_dir d f) || negb (exists_ (d ++ ["expected.json"]) f) then score_all o inspect dirs'
      else
        text ← read_text o (d ++ ["expected.json"]);
        spec ← lift (match json_loads text with Some v => Ok v | None => Raise (value_error "invalid JSON") end);
        target ← load_target o d (List.last d "");
        report ← lift (inspect target);
        vd ← lift (score_fixture report spec);
        kind ← lift (py_get spec "kind" PNone);
        flaky ← lift (py_get spec "boundary_flaky" PNone);
        rest ← score_all o inspect dirs';
        mret (mkRow (List.last d "") kind vd.1 vd.2 (truthy flaky) :: rest)
  end.

Definition count (v : string) (rows : list row) : nat :=
  List.length (List.filter (λ r, bool_decide (verdict r = v)) rows).

Definition ratio (a b : nat) : option Q :=
  if (b =? 0)%nat then None else Some (inject_Z (Z.of_nat a) / inject_Z (Z.of_nat b))%Q.

Record metrics := mkMetrics {
  rows : list row;
  recall : option Q;
  false_positive_rate : option Q;
  precision : option Q;
  counts : list (string * nat);
  boundary : list (string * string)
}.

Definition measure (rows : list row) : metrics :=
  let gate := List.filter (λ r, negb (boundary_flaky r)) rows in
  let n v := count v gate in
  mkMetrics rows (ratio (n "TP") (n "TP" + n "FN")) (ratio (n "FP") (n "FP" + n "TN")) (ratio (n "TP") (n "TP" + n "FP"))
    (map (λ v, (v, n v)) ["TP"; "FN"; "FP"; "TN"; "ERROR"])
    (map (λ r, (fixture r, verdict r)) (List.filter boundary_flaky rows)).

Definition evaluate (o : os) (inspect : CodeTarget → res InspectionReport) (fixtures_dir : path) : M fs metrics :=
  dirs ← sorted_iterdir o fixtures_dir;
  rows ← score_all o inspect dirs;
  mret (measure rows).

(** The exit status of the command that measures. *)
Definition acceptance_status (m : metrics) : Z := if (default 0%nat (dict_get "ERROR" (counts m)) =? 0)%nat then 0 else 1.

(** ** standalone.py *)

Definition SEV_RANK : list (string * nat) := imap (λ i s, (s, i)) (rev SEVERITIES).
Definition CONF_RANK : list (string * nat) := [("low", 0); ("medium", 1); ("high", 2)]%nat.

Definition located (f : Finding) : string :=
  match line f with
  | Some z => if (z =? 0)%Z then file f else file f +:+ ":" +:+ str_of_Z z
  | None => file f
  end.

Definition finding_lines (i : nat) (f : Finding) : list string :=
  [str_of_nat (S i) +:+ ". [" +:+ severity f +:+ "/" +:+ confidence f +:+ "-conf/" +:+ defect_class f +:+ "] "
     +:+ title f +:+ "  (" +:+ located f +:+ ")";
   "   why: " +:+ rationale f; "   fix: " +:+ suggestion f].

Definition format_report (r : InspectionReport) : string :=
  match error r with
  | Some ((String _ _) as e) => "[inspection error] " +:+ e
  | _ =>
      match findings r with
      | [] => str_strip ("No findings. " +:+ summary r)
      | l => str_join nl (["Summary: " +:+ summary r; ""] ++ List.concat (imap finding_lines l))
      end
  end.

(** The exit status: [fail_on] and [min_confidence] are one of the choices. *)
Definition exit_status (r : InspectionReport) (fail_on : option string) (min_confidence : string) : Z :=
  match error r with
  | Some (String _ _) => 2
  | _ =>
      match fail_on with
      | Some ((String _ _) as sev) =>
          let sev_t := default 0%nat (dict_get sev SEV_RANK) in
          let conf_t := default 0%nat (dict_get min_confidence CONF_RANK) in
          if existsb (λ f, (sev_t <=? default 0%nat (dict_get (severity f) SEV_RANK))%nat
                           && (conf_t <=? default 0%nat (dict_get (confidence f) CONF_RANK))%nat) (findings r)
          then 1 else 0
      | _ => 0
      end
  end.

(** [main]: the report goes to the file that is asked for, whatever it holds. *)
Definition inspect_path (o : os) (llm : string → res pyval) (before after : option string) (p : path)
    (description : string) (json_out : option path) (fail_on : option string) (min_confidence : string) :
    M fs (string * Z) :=
  target ← load_target o p description;
  r ← lift (review llm before after target);
  _ ← match json_out with Some q => write_text o q (to_json r) | None => mret tt end;
  mret (format_report r, exit_status r fail_on min_confidence).

End acceptance.
End Inspection.

(** * What an inspection promises

    Whatever the model answers, a report holds findings of the closed vocabularies,
    and the exit status of the command says what the report holds; a target holds
    files of the tree that is inspected and nothing else. *)

Module InspectionSpec.
Import Files Inspection.

(** ** Findings *)

Record graded (f : Finding) : Prop := {
  graded_severity : severity f ∈ SEVERITIES;
  graded_class : defect_class f ∈ DEFECT_CLASSES;
  graded_confidence : confidence f ∈ CONFIDENCES
}.

Lemma normalized_graded f : graded (normalized f).
Proof.
  unfold normalized. split; simpl.
  all: match goal with |- (if mem ?x ?l then _ else _) ∈ _ => destruct (mem x l) eqn:E; [by apply mem_spec|] end.
  all: apply (bool_decide_unpack _); by vm_compute.
Qed.

Section reports.
Context `{FloatRepr, FloatParse}.

Lemma findings_graded l : Forall graded (findings_of l).
Proof.
  induction l as [|v l IH]; [constructor|]. destruct v; simpl; try done.
  constructor; [apply normalized_graded|done].
Qed.

Lemma parse_graded raw s fnds : parse raw = Ok (s, fnds) → Forall graded fnds.
Proof.
  unfold parse. destruct (re_search _ _) as [[[[b m] t] c]|]; [|done].
  destruct (json_loads m) as [[]|]; try done. intros (l & _ & [= _ <-])%res_bind_ok. apply findings_graded.
Qed.

(** A report says that it failed, and holds nothing, or holds graded findings. *)
Definition sound_report (r : InspectionReport) : Prop :=
  (∃ ch e, error r = Some (String ch e) ∧ findings r = []) ∨ (error r = None ∧ Forall graded (findings r)).

Lemma review_sound llm before after t r : review llm before after t = Ok r → sound_report r.
Proof.
  unfold review, sound_report. destruct (files t) as [|cf cfs]; [intros [= <-]; left; by eexists _, _|].
  destruct (llm _) as [content|e]; [|intros [= <-]; left; by eexists _, _].
  destruct (py_or content (PStr "")); try done.
  destruct (parse _) as [[sm fnds]|e] eqn:Ep; intros [= <-]; [right|left; by eexists _, _].
  split; [done|]. by eapply parse_graded.
Qed.

(** The place of a name in a list that starts with the gravest. *)
Fixpoint place (x : string) (l : list string) : nat :=
  match l with [] => 0 | y :: l' => if decide (x = y) then 0 else S (place x l') end.
Definition at_least (l : list string) (x y : string) : Prop := (place x l ≤ place y l)%nat.

Lemma ranked (l : list string) (ranks : list (string * nat)) x y :
  forallb (λ x, forallb (λ y, Bool.eqb (default 0 (dict_get y ranks) <=? default 0 (dict_get x ranks))%nat
                                       (place x l <=? place y l)%nat) l) l = true →
  x ∈ l → y ∈ l →
  ((default 0 (dict_get y ranks) <=? default 0 (dict_get x ranks))%nat = true ↔ at_least l x y).
Proof.
  intros Hall Hx Hy. rewrite forallb_elem in Hall. specialize (Hall x Hx). rewrite forallb_elem in Hall.
  specialize (Hall y Hy). apply eqb_prop in Hall. rewrite Hall. apply Nat.leb_le.
Qed.

(** C17: whatever the model answers, a report is graded by the closed vocabularies,
    and the exit status tells a failed inspection, a finding at least as severe and
    as certain as asked for, and neither apart. *)
Theorem inspection_gate_sound (llm : string → res pyval) (before after : option string) (t : CodeTarget)
    (r : InspectionReport) (fail_on min_confidence : string) :
  fail_on ∈ SEVERITIES → min_confidence ∈ CONFIDENCES → review llm before after t = Ok r →
  Forall graded (findings r) ∧
  (exit_status r (Some fail_on) min_confidence = 2%Z ↔ is_Some (error r)) ∧
  (exit_status r (Some fail_on) min_confidence = 1%Z ↔ error r = None ∧ ∃ f, f ∈ findings r ∧
     at_least SEVERITIES (severity f) fail_on ∧ at_least CONFIDENCES (confidence f) min_confidence).
Proof.
  intros Hs Hc Hr. unfold exit_status.
  destruct (review_sound _ _ _ _ _ Hr) as [(ch & e & -> & ->)|[-> Hg]]; [naive_solver|].
  split; [done|]. assert (str_nonempty fail_on = true) as Hne.
  { clear -Hs. assert (forallb str_nonempty SEVERITIES = true) as Hall by done. rewrite forallb_elem in Hall. by apply Hall. }
  destruct fail_on as [|ch sev]; [done|].
  destruct (existsb _ _) eqn:E.
  - split; [by split; [|intros [? ?]]|]. split; [|done]. intros _. split; [done|].
    apply list_find_exists in E as (f & Hf & [H1 H2]%andb_true_iff). exists f. split; [done|].
    rewrite Forall_forall in Hg. destruct (Hg f Hf) as [G1 _ G3].
    split; [by apply (ranked SEVERITIES SEV_RANK)|by apply (ranked CONFIDENCES CONF_RANK)].
  - split; [by split; [|intros [? ?]]|]. split; [done|]. intros (_ & f & Hf & H1 & H2). exfalso.
    rewrite Forall_forall in Hg. destruct (Hg f Hf) as [G1 _ G3].
    rewrite (proj2 (list_find_exists _ _)) in E; [done|]. exists f. split; [done|]. apply andb_true_iff.
    split; [by apply (ranked SEVERITIES SEV_RANK)|by apply (ranked CONFIDENCES CONF_RANK)].
Qed.

End reports.

(** ** The target *)

Section target.
Context (o : os).

(** A file of the target: text of the tree below [p], outside the directories that
    are skipped, and not too large. *)
Definition from_tree (p : path) (f : fs) (c : CodeFile) : Prop :=
  ∃ q text, below p q = true ∧ f !! q = Some (File text) ∧ cf_content c = universal_newlines text ∧
    (String.length (cf_content c) ≤ MAX_FILE_CHARS)%nat.

Lemma read_file_spec q base f h :
  match read_file o q base f h with
  | (Ok None, (f', h')) => f' = f ∧ h' = h
  | (Ok (Some c), (f', h')) => f' = f ∧ h' = h ∧ ∃ text, f !! q = Some (File text) ∧
      cf_content c = universal_newlines text ∧ (String.length (cf_content c) ≤ MAX_FILE_CHARS)%nat ∧
      cf_path c = rel_name q base
  | (Raise _, (f', h')) => f' = f ∧ h' = h
  end.
Proof.
  unfold read_file, try_, read_text, guarded. rewrite bind_run, bind_get.
  destruct (refuse o "read" q f) as [e|]; [simpl; by destruct (decode_error e)|]. rewrite bind_get.
  destruct (f !! q) as [[text|]|] eqn:Eq; [|by simpl; destruct (decode_error (Exn "IsADirectoryError" (show q)))
    |by simpl; destruct (decode_error (not_found q))].
  cbn [mret M_ret]. unfold mret, M_ret. destruct (Nat.ltb_spec MAX_FILE_CHARS (String.length (universal_newlines text)));
    [done|]. split; [done|]. split; [done|]. by exists text.
Qed.


Lemma read_all_spec p base qs f h :
  (∀ q, q ∈ qs → below p q = true) →
  match read_all o qs base f h with
  | (r, (f', h')) => f' = f ∧ h' = h ∧ ∀ cs, r = Ok cs →
      Forall (λ c, from_tree p f c ∧ ∃ q, q ∈ qs ∧ skipped q = false ∧ cf_path c = rel_name q base) cs
  end.
Proof.
  intros Hqs. induction qs as [|q qs IH]; cbn [read_all].
  { split_and!; [done..|]. by intros cs [= <-]. }
  assert (∀ q', q' ∈ qs → below p q' = true) as Hqs' by (intros q' Hq'; apply Hqs, elem_of_cons; by right).
  specialize (IH Hqs'). assert (∀ cs, Forall (λ c, from_tree p f c ∧ ∃ q, q ∈ qs ∧ skipped q = false ∧ cf_path c = rel_name q base) cs →
    Forall (λ c, from_tree p f c ∧ ∃ q', q' ∈ q :: qs ∧ skipped q' = false ∧ cf_path c = rel_name q' base) cs) as Hmore.
  { intros cs Hcs. eapply Forall_impl; [exact Hcs|]. intros c (Hc & q' & Hq' & Hr). split; [done|]. exists q'. split; [by right|done]. }
  destruct (skipped q) eqn:Esk.
  { destruct (read_all o qs base f h) as [r [f' h']]. destruct IH as (-> & -> & IH). naive_solver. }
  pose proof (read_file_spec q base f h) as Hq. rewrite bind_run.
  destruct (read_file o q base f h) as [[[c|]|e] [f1 h1]]; [destruct Hq as (-> & -> & text & Ht & Hc & Hl & Hn)
    |destruct Hq as [-> ->]|by destruct Hq as [-> ->]];
    rewrite bind_run; destruct (read_all o qs base f h) as [[cs'|e] [f' h']]; destruct IH as (-> & -> & IH); try by split_and!.
  all: split_and!; [done..|]; intros cs [= <-].
  - constructor; [|by apply Hmore, IH]. split.
    + exists q, text. split; [apply Hqs; by left|done].
    + exists q. split; [by left|done].
  - by apply Hmore, IH.
Qed.

(** A target that is loaded holds only text of the tree below the path, none of
    it larger than the cap, and for a directory only Python files outside the
    directories that are skipped; loading changes nothing. *)
Theorem target_contained (p : path) (description : string) (f : fs) (h : trace) :
  end_state (load_target o p description f h) = f ∧
  ∀ t, (load_target o p description f h).1 = Ok t →
    Forall (from_tree p f) (files t) ∧
    (is_dir p f = true → Forall (λ c, ∃ q, endswith ".py" (List.last q "") = true ∧ skipped q = false ∧
                                      cf_path c = rel_name q p) (files t)).
Proof.
  unfold load_target. rewrite bind_get. destruct (exists_ p f); [|done]. cbn [negb].
  destruct (is_file p f) eqn:Ef.
  - rewrite bind_run. pose proof (read_file_spec p (parent p) f h) as Hq.
    assert (is_dir p f = false) as Hd.
    { unfold is_file, is_dir in *. apply bool_decide_eq_false. intros Hd. by rewrite Hd in Ef. }
    rewrite Hd. destruct (read_file o p (parent p) f h) as [[[c|]|e] [f1 h1]];
      [destruct Hq as (-> & -> & text & Ht & Hc & Hl & Hn)|destruct Hq as [-> ->]|by destruct Hq as [-> ->]];
      (split; [done|]); intros t [= <-]; (split; [|done]); simpl; [|by constructor].
    constructor; [|by constructor]. exists p, text. split; [apply below_refl|done].
  - rewrite bind_run. pose proof (read_all_spec p p (rglob_py p f) f h) as Hq.
    assert (∀ q, q ∈ rglob_py p f → below p q = true ∧ endswith ".py" (List.last q "") = true) as Hg.
    { intros q Hq'. unfold rglob_py in Hq'. rewrite sort_by_perm in Hq'. apply list_elem_of_In, filter_In in Hq' as [_ Hq'].
      by apply andb_true_iff in Hq' as [[? _]%andb_true_iff ?]. }
    specialize (Hq (λ q Hq', proj1 (Hg q Hq'))).
    destruct (read_all o (rglob_py p f) p f h) as [[cs|e] [f1 h1]]; destruct Hq as (-> & -> & Hcs); [|by split].
    split; [done|]. intros t [= <-]. simpl. specialize (Hcs cs eq_refl). split.
    + eapply Forall_impl; [exact Hcs|]. by intros c [? _].
    + intros _. eapply Forall_impl; [exact Hcs|]. intros c (_ & q & Hq & Hs & Hn). exists q.
      split; [by apply Hg|done].
Qed.

End target.

(** The directories that are skipped are looked for in the whole path, so a tree
    below a directory named [build] is empty. *)
Definition built_tree : fs :=
  list_to_map [([], Dir); (["build"], Dir); (["build"; "proj"], Dir); (["build"; "proj"; "a.py"], File "x = 1")].

Example ancestors_skipped :
  (load_target (mkOs (λ _ _ _, None) (λ _ _ _, None) (λ _ _ _, false)) ["build"; "proj"] "" built_tree []).1 =
  Ok (mkTarget [] "directory proj").
Proof. vm_compute. reflexivity. Qed.

(** A model that reports one severe defect it is sure of. *)
Definition sample_reply : string → res pyval := λ _, Ok (PStr (@json_dumps (λ _, "0.5") default_opts (PDict
  [("summary", PStr "one"); ("findings", PList [PDict
     [("severity", PStr "high"); ("confidence", PStr "certain"); ("defect_class", PStr "other"); ("file", PStr "a.py")]])]))).
Definition sample_target : CodeTarget := mkTarget [mkCode "a.py" "x = 1"] "".

Lemma inspection_gate_sound_witness :
  match @review (λ _, "0.5") (λ _, None) sample_reply None (Some "m") sample_target with
  | Ok r =>
      Forall graded (findings r) ∧
      (exit_status r (Some "high") "low" = 2%Z ↔ is_Some (error r)) ∧
      (exit_status r (Some "high") "low" = 1%Z ↔ error r = None ∧ ∃ f, f ∈ findings r ∧
         at_least SEVERITIES (severity f) "high" ∧ at_least CONFIDENCES (confidence f) "low")
  | Raise _ => False
  end.
Proof.
  destruct (@review (λ _, "0.5") (λ _, None) sample_reply None (Some "m") sample_target) as [r|e] eqn:E;
    [|vm_compute in E; discriminate E].
  apply (@inspection_gate_sound (λ _, "0.5") (λ _, None) sample_reply None (Some "m") sample_target r "high" "low").
  - by left.
  - apply (bool_decide_unpack _). vm_compute. exact I.
  - exact E.
Defined.

Example sample_gate :
  match @review (λ _, "0.5") (λ _, None) sample_reply None (Some "m") sample_target with
  | Ok r => map severity (findings r) = ["high"] ∧ map confidence (findings r) = ["low"] ∧
            exit_status r (Some "medium") "low" = 1%Z ∧ exit_status r (Some "medium") "medium" = 0%Z
  | Raise _ => False
  end.
Proof. vm_compute. done. Qed.

End InspectionSpec.
