(* ===== verification/Preflight.v ===== *)
(** * Checks at the start of a run

    Models of [bf_worker/services/gitlab_token_check.py], which asks GitLab what
    the credential of a run may do, and of [bf_worker/services/llm_model_check.py],
    which asks a self-hosted backend what it serves.  A reply of a server is its
    status and what its body decodes to; [SystemExit] is an exception like others,
    which only the process catches.  The dashes of the messages are hyphens here. *)

From S2P Require Import Prelude PyStr PyTime Regex PyJson PyJsonLoads Files.
Local Open Scope string_scope.
Local Open Scope list_scope.

Module Preflight.

Definition system_exit (m : string) : exn := Exn "SystemExit" m.

(** ** gitlab_token_check.py *)

Definition ACCESS_GUEST : Z := 10.
Definition ACCESS_REPORTER : Z := 20.
Definition ACCESS_DEVELOPER : Z := 30.
Definition ACCESS_NAMES : list (Z * string) :=
  [(0, "No access"); (5, "Minimal"); (ACCESS_GUEST, "Guest"); (ACCESS_REPORTER, "Reporter");
   (ACCESS_DEVELOPER, "Developer"); (40, "Maintainer"); (50, "Owner")]%Z.
Definition EXPIRY_WARN_DAYS : Z := 14.

Record TokenInfo := mkInfo {
  kind : string;
  username : string;
  access_level : option Z;
  scopes : option (list string);
  expires_at : string;
  expires_in_days : option Z
}.
Definition no_info : TokenInfo := mkInfo "unknown" "" None None "" None.

Definition access_level_name (i : TokenInfo) : string :=
  match access_level i with
  | None => "unknown"
  | Some l => match List.find (λ kv, (kv.1 =? l)%Z) ACCESS_NAMES with Some kv => kv.2 | None => str_of_Z l end
  end.

Definition classify_kind (username : string) : string :=
  if negb (str_nonempty username) then "unknown"
  else if startswith "project_" username && str_contains "_bot" username then "project"
  else if startswith "group_" username && str_contains "_bot" username then "group"
  else "personal".

(** [datetime.strptime(s, "%Y-%m-%d").date()], as a day since the epoch. *)
Definition DATE_RE : re :=
  rx no_flags "(\d\d\d\d)-(1[0-2]|0[1-9]|[1-9])-(3[0-1]|[1-2]\d|0[1-9]|[1-9]| [1-9])".

Definition parse_date (s : string) : option Z :=
  match re_match DATE_RE s with
  | Some (_, rest, c) =>
      if str_nonempty rest then None
      else
        let part i := default 0%Z (str_int (default "" (cap_get i c))) in
        if valid (mkCivil (part 1) (part 2) (part 3) 0 0 0)
        then Some (days_of_civil (part 1) (part 2) (part 3)) else None
  | None => None
  end.

(** [today] is the day of the clock. *)
Definition days_until (today : Z) (expires_at : string) : option Z :=
  if negb (str_nonempty expires_at) then None
  else (λ d, d - today)%Z <$> parse_date (str_take 10 expires_at).

(** A reply: its status, and what its body decodes to, [None] where it is no JSON. *)
Record reply := mkReply { status_code : Z; body : option pyval }.

Record gitlab_cfg := mkGitlab { gitlab_api : string; gitlab_private_token : string; env_name : string }.

Section gitlab.
Context `{FloatRepr}.
(** [requests.get] of a path below the API. *)
Context (get : string → res reply) (is_request_error : exn → bool).

Definition fix_hint (info : TokenInfo) : string :=
  "  How to fix: see infra/gitlab-token/README.md - granting the bot" +:+ nl
  +:+ "  access to a project is an operations action (add it as a member," +:+ nl
  +:+ "  role Developer), not a code change." +:+ nl
  +:+ "  This run's credential looks like a " +:+ kind info +:+ " access token"
  +:+ (if str_nonempty (username info) then " (user " +:+ repr_str (username info) +:+ ")." else ".").

Definition abort {A} (m : string) : res A :=
  Raise (system_exit (nl +:+ nl +:+ "GitLab credential preflight failed:" +:+ nl +:+ m +:+ nl)).

(** [v.get(k)] of a decoded body. *)
Definition field (v : pyval) (k : string) : res pyval := py_get v k PNone.

Definition probe_identity (api : string) (info : TokenInfo) : res TokenInfo :=
  match get "/user" with
  | Raise e => if is_request_error e then Ok info else Raise e
  | Ok r =>
      if (status_code r =? 401)%Z then
        abort ("  The GitLab token was rejected (HTTP 401 on GET /user)." +:+ nl
               +:+ "  It is expired, revoked, or simply wrong. Access tokens are" +:+ nl
               +:+ "  forced to carry an expiry date - check it first." +:+ nl
               +:+ "  GitLab API: " +:+ api)
      else if negb (status_code r =? 200)%Z then Ok info
      else match body r with
      | None => Ok info
      | Some v =>
          u ← field v "username";
          let u := py_str (py_or u (PStr "")) in
          Ok (mkInfo (classify_kind u) u (access_level info) (scopes info) (expires_at info) (expires_in_days info))
      end
  end.

(** The level of one block of the permissions. *)
Definition level_of (perms : list (string * pyval)) (k : string) : list Z :=
  match dget k perms with
  | PDict block =>
      match dget "access_level" block with
      | PInt z => [z]
      | PBool b => [if b then 1 else 0]%Z
      | _ => []
      end
  | _ => []
  end.

Definition with_level (l : Z) (i : TokenInfo) : TokenInfo :=
  mkInfo (kind i) (username i) (Some l) (scopes i) (expires_at i) (expires_in_days i).

Definition probe_project (api project_id : string) (info : TokenInfo) : res TokenInfo :=
  match get ("/projects/" +:+ project_id) with
  | Raise e => if is_request_error e then Ok info else Raise e
  | Ok r =>
      if (status_code r =? 401)%Z then
        abort ("  The GitLab token was rejected (HTTP 401)." +:+ nl
               +:+ "  It is expired, revoked, or wrong." +:+ nl +:+ "  GitLab API: " +:+ api)
      else if (status_code r =? 403)%Z || (status_code r =? 404)%Z then
        abort ("  This token cannot reach project " +:+ project_id +:+ " (HTTP " +:+ str_of_Z (status_code r) +:+ ")." +:+ nl
               +:+ "  GitLab answers 404 for projects you are not allowed to see, so" +:+ nl
               +:+ "  this means 'not authorized', not 'does not exist'." +:+ nl +:+ nl
               +:+ "  The webhook payload named this project; refusing here is the" +:+ nl
               +:+ "  credential-layer twin of the OIDC project_id check, and it" +:+ nl
               +:+ "  holds even when WEBHOOK_AUTH_MODE=none." +:+ nl +:+ nl +:+ fix_hint info)
      else if negb (status_code r =? 200)%Z then Ok info
      else match body r with
      | None => Ok info
      | Some v =>
          perms ← field (py_or v (PDict [])) "permissions";
          match py_or perms (PDict []) with
          | PDict perms =>
              match level_of perms "project_access" ++ level_of perms "group_access" with
              | [] => Ok info
              | l :: ls =>
                  let info := with_level (foldl Z.max l ls) info in
                  if (foldl Z.max l ls <? ACCESS_DEVELOPER)%Z then
                    abort ("  The token's role on project " +:+ project_id +:+ " is " +:+ access_level_name info
                           +:+ " (" +:+ str_of_Z (foldl Z.max l ls) +:+ "), but the worker needs at least Developer ("
                           +:+ str_of_Z ACCESS_DEVELOPER +:+ ")." +:+ nl
                           +:+ "  It pushes an auto/* branch and opens a merge request. Without" +:+ nl
                           +:+ "  Developer the run dies at `git push`, after the LLM spend." +:+ nl
                           +:+ "  (Maintainer is NOT required - the worker never merges.)" +:+ nl +:+ nl +:+ fix_hint info)
                  else Ok info
              end
          | v => Raise (attribute_error ("'" +:+ type_name v +:+ "' object has no attribute 'get'"))
          end
      end
  end.

Definition probe_token_metadata (today : Z) (info : TokenInfo) : res TokenInfo :=
  match get "/personal_access_tokens/self" with
  | Raise e => if is_request_error e || bool_decide (exn_class e = "ValueError") then Ok info else Raise e
  | Ok r =>
      if negb (status_code r =? 200)%Z then Ok info
      else match body r with
      | None => Ok info
      | Some v =>
          let data := py_or v (PDict []) in
          sc ← field data "scopes";
          ex ← field data "expires_at";
          let ex := py_str (py_or ex (PStr "")) in
          Ok (mkInfo (kind info) (username info) (access_level info)
                (match sc with PList l => Some (map py_str l) | _ => scopes info end) ex (days_until today ex))
      end
  end.

(** Whether a warning about the expiry is logged. *)
Definition expiry_warned (i : TokenInfo) : bool :=
  match expires_in_days i with Some d => (d <=? EXPIRY_WARN_DAYS)%Z | None => false end.

Definition check_or_abort (skip : bool) (cfg : gitlab_cfg) (today : Z) (project_id : string) : res (option TokenInfo) :=
  if skip then Ok None
  else
    let api := str_strip (gitlab_api cfg) in
    if negb (str_nonempty (str_strip (gitlab_private_token cfg))) then
      abort ("  GITLAB_PRIVATE_TOKEN is empty." +:+ nl
             +:+ "  Checked: environment, then settings/worker_" +:+ env_name cfg +:+ ".env" +:+ nl +:+ nl
             +:+ "  Note an environment variable that exists but is EMPTY still" +:+ nl
             +:+ "  wins over the env file - a half-populated k8s Secret or a" +:+ nl
             +:+ "  stray `export GITLAB_PRIVATE_TOKEN=` produces exactly this." +:+ nl
             +:+ "  See infra/gitlab-token/README.md.")
    else if negb (str_nonempty api) then Ok None
    else if negb (str_nonempty project_id) then Ok None
    else
      i ← probe_identity api no_info;
      i ← probe_project api project_id i;
      i ← probe_token_metadata today i;
      Ok (Some i).

End gitlab.

(** ** llm_model_check.py *)

Record llm_cfg := mkLlm {
  llm_via_gateway : bool;
  llm_auth_mode : string;
  llm_api_key : option string;
  llm_api_base_url : string;
  llm_model : string
}.

Definition is_self_hosted (cfg : llm_cfg) : bool :=
  negb (bool_decide (llm_auth_mode cfg = "entra")) && bool_decide (llm_api_key cfg = Some "EMPTY").

Definition rstrip_slash : string → string := str_rstrip (λ c, ch_eq c "/"%char).

Section llm.
Context `{FloatRepr, FloatParse}.
(** [urlopen] of an address: the body. *)
Context (fetch : string → res string).

Definition query_served_model (base_url : string) : res string :=
  let url := rstrip_slash base_url +:+ "/models" in
  text ← fetch url;
  payload ← (match json_loads text with Some v => Ok v | None => Raise (value_error "invalid JSON") end);
  data ← py_get payload "data" PNone;
  let data := py_or data (PList []) in
  if negb (truthy data) then
    Raise (value_error (url +:+ " returned no models in `data`: " +:+ py_repr payload))
  else
    first ← py_first data;
    served ← py_get first "id" PNone;
    if negb (truthy served) then
      Raise (value_error (url +:+ " returned a model without an id: " +:+ py_repr first))
    else Ok (py_str served).

(** What the probe is allowed to raise: [URLError] and [HTTPError] are [OSError]s,
    and [JSONDecodeError] is a [ValueError]. *)
Definition PROBE_ERRORS : list string := ["ValueError"; "URLError"; "HTTPError"] ++ Files.OS_ERRORS.

Definition model_check_or_abort (allow_mismatch : bool) (cfg : llm_cfg) : res (option string) :=
  if llm_via_gateway cfg then Ok None
  else if negb (is_self_hosted cfg) then Ok None
  else if negb (str_nonempty (llm_api_base_url cfg)) then Ok None
  else match query_served_model (llm_api_base_url cfg) with
  | Raise e => if mem (exn_class e) PROBE_ERRORS then Ok None else Raise e
  | Ok served =>
      if bool_decide (llm_model cfg = served) then Ok (Some served)
      else if allow_mismatch then Ok (Some served)
      else Raise (system_exit
        (nl +:+ nl +:+ "LLM model mismatch (self-hosted backend at " +:+ llm_api_base_url cfg +:+ "):" +:+ nl
         +:+ "  env LLM_MODEL = " +:+ repr_str (llm_model cfg) +:+ nl
         +:+ "  served by /v1/models = " +:+ repr_str served +:+ nl +:+ nl
         +:+ "Aligning these is mandatory: an OpenAI-compatible backend may "
         +:+ "silently serve the loaded model regardless of the requested name, "
         +:+ "contaminating eval and bug-fix runs without an error." +:+ nl +:+ nl
         +:+ "Fix one of:" +:+ nl
         +:+ "  - set LLM_MODEL=" +:+ repr_str served +:+ " in the worker env file, or" +:+ nl
         +:+ "  - restart the backend with --served-model-name=" +:+ repr_str (llm_model cfg) +:+ ", or" +:+ nl
         +:+ "  - set LLM_ALLOW_MODEL_MISMATCH=1 for THIS run only (use sparingly)."))
  end.

End llm.

(** ** What the checks decide *)

Section decisions.
Context `{FloatRepr}.
Context (get : string → res reply) (is_request_error : exn → bool).

(** GitLab answers the two endpoints with JSON objects, if with JSON at all, and a
    request that fails does so in the client's own way. *)
Record answers (project_id : string) : Prop := {
  fails_alike p e : get p = Raise e → is_request_error e = true;
  user_object r v : get "/user" = Ok r → status_code r = 200%Z → body r = Some v → ∃ d, v = PDict d;
  self_object r v : get "/personal_access_tokens/self" = Ok r → status_code r = 200%Z → body r = Some v → ∃ d, v = PDict d;
  project_object r v : get ("/projects/" +:+ project_id) = Ok r → status_code r = 200%Z → body r = Some v →
    ∃ d, v = PDict d ∧ (dget "permissions" d = PNone ∨ ∃ p, dget "permissions" d = PDict p)
}.

(** The levels a project reports for the token. *)
Definition levels (v : pyval) : list Z :=
  match v with
  | PDict d => match dget "permissions" d with
               | PDict p => level_of p "project_access" ++ level_of p "group_access"
               | _ => []
               end
  | _ => []
  end.

(** What the operator has to mend. *)
Inductive cause (project_id : string) : Prop :=
| user_rejected r : get "/user" = Ok r → status_code r = 401%Z → cause project_id
| project_rejected r : get ("/projects/" +:+ project_id) = Ok r → status_code r ∈ [401; 403; 404]%Z → cause project_id
| role_too_low r v l ls : get ("/projects/" +:+ project_id) = Ok r → status_code r = 200%Z → body r = Some v →
    levels v = l :: ls → (foldl Z.max l ls < ACCESS_DEVELOPER)%Z → cause project_id.

Definition refuses {A} (r : res A) : Prop := ∃ m, r = Raise (system_exit m).
Definition decided {A} (r : res A) (P : Prop) : Prop := (refuses r ∧ P) ∨ (is_ok r = true ∧ ¬ P).

Lemma abort_refuses {A} m : refuses (@abort A m).
Proof. by eexists. Qed.

Lemma identity_decided project_id api info :
  answers project_id →
  decided (probe_identity get is_request_error api info) (∃ r, get "/user" = Ok r ∧ status_code r = 401%Z).
Proof.
  intros Ha. unfold decided, probe_identity. destruct (get "/user") as [r|e] eqn:E.
  2: { rewrite (fails_alike _ Ha _ _ E). right. split; [done|]. by intros (? & ? & ?). }
  destruct (Z.eqb_spec (status_code r) 401) as [H4|H4]; [left; split; [apply abort_refuses|by exists r]|].
  right. split; [|intros (r' & [= <-] & ?); done].
  destruct (Z.eqb_spec (status_code r) 200) as [H2|H2]; [|done]. destruct (body r) as [v|] eqn:Eb; [|done].
  by destruct (user_object _ Ha r v E H2 Eb) as [d ->].
Qed.

Lemma or_empty_dict d : py_or (PDict d) (PDict []) = PDict d.
Proof. unfold py_or. by destruct d. Qed.

Lemma project_decided project_id api info :
  answers project_id →
  decided (probe_project get is_request_error api project_id info)
    (∃ r, get ("/projects/" +:+ project_id) = Ok r ∧
       (status_code r ∈ [401; 403; 404]%Z ∨
        status_code r = 200%Z ∧ ∃ v l ls, body r = Some v ∧ levels v = l :: ls ∧ (foldl Z.max l ls < ACCESS_DEVELOPER)%Z)).
Proof.
  intros Ha. unfold decided, probe_project. destruct (get ("/projects/" +:+ project_id)) as [r|e] eqn:E.
  2: { rewrite (fails_alike _ Ha _ _ E). right. split; [done|]. by intros (? & ? & ?). }
  destruct (Z.eqb_spec (status_code r) 401) as [H1|H1]; [left; split; [apply abort_refuses|]; exists r; set_solver|].
  destruct ((status_code r =? 403)%Z || (status_code r =? 404)%Z) eqn:H34.
  { left. split; [apply abort_refuses|]. exists r. split; [done|]. left. apply orb_true_iff in H34. set_solver by lia. }
  apply orb_false_iff in H34 as [H3%Z.eqb_neq H4%Z.eqb_neq].
  assert (status_code r ∉ [401; 403; 404]%Z) as Hns by set_solver.
  destruct (Z.eqb_spec (status_code r) 200) as [H2|H2]; cbn [negb].
  2: { right. split; [done|]. intros (r' & [= <-] & [?|[? _]]); done. }
  destruct (body r) as [v|] eqn:Eb.
  2: { right. split; [done|]. intros (r' & [= <-] & [?|(_ & v & l & ls & Hv & _)]); [done|congruence]. }
  destruct (project_object _ Ha r v E H2 Eb) as (d & -> & Hperms). rewrite or_empty_dict. cbn [field py_get].
  change (default PNone (dict_get "permissions" d)) with (dget "permissions" d). unfold mbind at 1, res_bind at 1.
  assert (match py_or (dget "permissions" d) (PDict []) with PDict p => level_of p "project_access" ++ level_of p "group_access" | _ => [] end
          = levels (PDict d)) as Hl.
  { unfold levels. destruct Hperms as [->|[p ->]]; [done|by rewrite or_empty_dict]. }
  assert (∃ p, py_or (dget "permissions" d) (PDict []) = PDict p) as [p Hp].
  { destruct Hperms as [->|[p ->]]; [by eexists|]. rewrite or_empty_dict. by eexists. }
  rewrite Hp in Hl. cbn [mbind res_bind]. rewrite Hp, Hl. destruct (levels (PDict d)) as [|l ls] eqn:El.
  - right. split; [done|]. intros (r' & [= <-] & [?|(_ & v' & l & ls & Hv & Hlv & _)]); [done|].
    rewrite Eb in Hv. injection Hv as <-. by rewrite El in Hlv.
  - destruct (Z.ltb_spec (foldl Z.max l ls) ACCESS_DEVELOPER) as [Hlt|Hge].
    + left. split; [apply abort_refuses|]. exists r. split; [done|]. right. split; [done|]. by exists (PDict d), l, ls.
    + right. split; [done|]. intros (r' & [= <-] & [?|(_ & v' & l' & ls' & Hv & Hlv & Hlt)]); [done|].
      rewrite Eb in Hv. injection Hv as <-. rewrite El in Hlv. injection Hlv as <- <-. lia.
Qed.

Lemma metadata_ok project_id today info :
  answers project_id → is_ok (probe_token_metadata get is_request_error today info) = true.
Proof.
  intros Ha. unfold probe_token_metadata. destruct (get _) as [r|e] eqn:E.
  2: { by rewrite (fails_alike _ Ha _ _ E). }
  destruct (Z.eqb_spec (status_code r) 200) as [H2|H2]; cbn [negb]; [|done].
  destruct (body r) as [v|] eqn:Eb; [|done]. destruct (self_object _ Ha r v E H2 Eb) as [d ->].
  by rewrite or_empty_dict.
Qed.

(** C25: as long as a reply of GitLab that is JSON is an object, with permissions that
    are one where it has any, and a request that fails does so with an error of the
    client, the credential check ends the run exactly when it is not switched off and
    the token is missing, rejected, cannot reach the project or holds less than the
    Developer role there, and then with an exit and a message; every other such reply,
    a failure of the network, a status it does not know, a body that is no JSON, or a
    project without permissions, lets the run go on.  A reply that is JSON but no
    object is outside of this: it ends the run with another error. *)
Theorem token_check_decides (skip : bool) (cfg : gitlab_cfg) (today : Z) (project_id : string) :
  answers project_id →
  decided (check_or_abort get is_request_error skip cfg today project_id)
    (skip = false ∧
     (str_strip (gitlab_private_token cfg) = "" ∨
      str_strip (gitlab_api cfg) ≠ "" ∧ project_id ≠ "" ∧ cause project_id)).
Proof.
  intros Ha. unfold check_or_abort. destruct skip; [right; naive_solver|].
  destruct (str_strip (gitlab_private_token cfg)) as [|c tok]; cbn [str_nonempty negb];
    [left; split; [apply abort_refuses|naive_solver]|].
  destruct (str_strip (gitlab_api cfg)) as [|c' api]; cbn [str_nonempty negb]; [right; naive_solver|].
  destruct project_id as [|c'' pid]; cbn [str_nonempty negb]; [right; naive_solver|].
  set (p := String c'' pid) in *. unfold decided.
  destruct (identity_decided p (String c' api) no_info Ha) as [[[m ->] (r & Hr & H4)]|[Hok Hno]].
  { left. split; [by exists m|]. split; [done|]. right. split_and!; [done|done|]. by eapply user_rejected. }
  destruct (probe_identity _ _ _ _) as [i|]; [|done]. unfold mbind, res_bind.
  destruct (project_decided p (String c' api) i Ha) as [[[m ->] (r & Hr & Hc)]|[Hok' Hno']].
  { left. split; [by exists m|]. split; [done|]. right. split_and!; [done|done|].
    destruct Hc as [Hc|(H2 & v & l & ls & Hv & Hl & Hlt)]; [by eapply project_rejected|by eapply role_too_low]. }
  destruct (probe_project _ _ _ _ _) as [i'|]; [|done]. pose proof (metadata_ok p today i' Ha) as Hm.
  destruct (probe_token_metadata _ _ _ _) as [i''|]; [|done]. right. split; [done|].
  intros [_ [?|(_ & _ & Hc)]]; [done|]. destruct Hc as [r Hr H4|r Hr Hc|r v l ls Hr H2 Hv Hl Hlt].
  - apply Hno. by exists r.
  - apply Hno'. exists r. split; [done|]. by left.
  - apply Hno'. exists r. split; [done|]. right. split; [done|]. by exists v, l, ls.
Qed.
End decisions.

(** A bot that is a reporter of the project. *)
Definition reporter_get : string → res reply := λ p,
  if bool_decide (p = "/user") then Ok (mkReply 200 (Some (PDict [("username", PStr "project_7_bot_x")])))
  else if bool_decide (p = "/projects/7")
  then Ok (mkReply 200 (Some (PDict [("permissions", PDict [("project_access", PDict [("access_level", PInt 20)])])])))
  else Raise (Exn "ConnectionError" "").
Definition sample_gitlab : gitlab_cfg := mkGitlab "http://g/api/v4" "t" "x".

Lemma token_check_decides_witness :
  decided (@check_or_abort (λ _, "0.5") reporter_get (λ _, true) false sample_gitlab 20000 "7")
    (false = false ∧ (str_strip (gitlab_private_token sample_gitlab) = "" ∨
      str_strip (gitlab_api sample_gitlab) ≠ "" ∧ "7" ≠ "" ∧ cause reporter_get "7")).
Proof.
  apply (@token_check_decides (λ _, "0.5") reporter_get (λ _, true) false sample_gitlab 20000 "7").
  split.
  - reflexivity.
  - intros r v Hr _ Hv. vm_compute in Hr. injection Hr as <-. injection Hv as <-. by eexists.
  - intros r v Hr. vm_compute in Hr. discriminate Hr.
  - intros r v Hr _ Hv. vm_compute in Hr. injection Hr as <-. injection Hv as <-.
    eexists. split; [reflexivity|]. right. by eexists.
Defined.

Example reporter_refused :
  match @check_or_abort (λ _, "0.5") reporter_get (λ _, true) false sample_gitlab 20000 "7" with
  | Raise e => exn_class e = "SystemExit" ∧ str_contains "is Reporter (20)" (exn_msg e) = true
  | Ok _ => False
  end.
Proof. vm_compute. done. Qed.

(** A reply that is a list cannot decide anything, and ends the run. *)
Example list_reply_ends_the_run :
  let get_list : string → res reply := λ _, Ok (mkReply 200 (Some (PList []))) in
  match @check_or_abort (λ _, "0.5") get_list (λ _, true) false sample_gitlab 20000 "7" with
  | Raise e => exn_class e = "AttributeError"
  | Ok _ => False
  end.
Proof. vm_compute. done. Qed.

Example days_ex : days_until 20000 "2027-01-31T00:00" = Some 849%Z ∧ days_until 20000 "2027-02-30" = None.
Proof. by vm_compute. Qed.

End Preflight.
