(* ===== verification/World.v ===== *)
(** * What the nodes of the graph talk to

    The run-scoped context of [bf_worker/services/runtime_context.py]: the
    provider interface ([bf_worker/providers/base.py]), the model, the programs
    the nodes start, the budget and the hook registry
    ([bf_worker/enhancements/hooks.py]).  Every reply is an oracle over the
    files and the calls made so far; every call may change the files. *)

From S2P Require Import Prelude PyStr Effects ApplyPatch Retry Budget ToolCalls Prompt.
Local Open Scope string_scope.
Local Open Scope list_scope.

Module World.
Export ApplyPatch Retry Budget ToolCalls Prompt.

(** ** Replies *)

Record proc := mkProc { returncode : Z; stdout : string; stderr : string }.

(** An assistant message of the chat client. *)
Record reply := mkReply { r_calls : list tool_call; r_content : pyval; r_usage : assistant_msg }.

(** What [_invoke_llm_with_retry] tells apart; a timeout is a connection error. *)
Inductive llm_exn :=
| APIConnectionError (msg : string)
| RateLimitError (msg : string)
| BadRequestError (msg : string)
| OtherLlmError (e : exn).

Definition llm_exn_exn (e : llm_exn) : exn :=
  match e with
  | APIConnectionError m => Exn "APIConnectionError" m
  | RateLimitError m => Exn "RateLimitError" m
  | BadRequestError m => Exn "BadRequestError" m
  | OtherLlmError e => e
  end.

(** [inspection/base.py] *)
Record finding := mkFinding {
  severity : string;
  confidence : string;
  defect_class : string;
  f_file : string;
  f_line : pyval;
  title : string;
  rationale : string;
  suggestion : string
}.
Record report := mkReport { findings : list finding; r_error : pyval }.

(** The part of a [FixOutput] that the SWE-bench node reads. *)
Record mini_output := mkMini { iterations : pyval; final_state : option obj }.

(** ** The world *)

Notation files := (gmap string string).

Record world := mkWorld {
  w_clock : trace → Q;
  w_text : io_exn → string;
  w_effect : cmd → files → trace → files;
  w_resolve : list string → list string;
  w_merged_mr : option (string → trace → res (option obj));
  w_repo : string → files → trace → res (list string);
  w_fetch_trace : pyval → pyval → files → trace → string + io_exn;
  w_fetch_file : pyval → files → trace → string + io_exn;
  w_fetch_ref : string → pyval → files → trace → res string;
  w_branch : string → list string → option pyval → files → trace → res (option obj);
  w_commit : list string → string → files → trace → obj + io_exn;
  w_wait_ci : string → Z → trace → option string + io_exn;
  w_review : list string → state → files → trace → obj + io_exn;
  w_process : list string → files → trace → res proc;
  w_llm_ready : trace → res unit;
  w_llm : Z → list message → trace → reply + llm_exn;
  w_fresh_id : trace → string;
  w_backend : trace → option string;
  w_cost_header : trace → option string;
  w_inspect : list (pyval * string) → string → trace → res report;
  w_run_mini : pyval → string → trace → res mini_output;
  w_tempfile : trace → string
}.

(** ** Run-scoped state

    The files on disk and the budget object. *)

Record rs := mkRs { files_of : files; budget_of : option RunBudget }.
Definition with_files (f : files) (s : rs) : rs := mkRs f (budget_of s).
Definition with_budget (b : RunBudget) (s : rs) : rs := mkRs (files_of s) (Some b).

Definition dict (l : obj) : state := list_to_map l.

Lemma dict_lookup l k : dict l !! k = dict_get k l.
Proof.
  unfold dict. induction l as [|[k' v] l IH]; simpl; [apply lookup_empty|].
  destruct (decide (k = k')) as [->|Hne]; [by rewrite lookup_insert_eq|].
  by rewrite lookup_insert_ne.
Qed.

(** ** Configuration *)

Record CodeReviewConfig := mkCodeReviewConfig { enabled : bool; mode : string; max_rounds : Z }.

(** [HookRegistry]: the callbacks registered under each name. *)
Definition callback : Type := state → M rs (option state).
Definition HookRegistry : Type := list (string * list callback).

Record config := mkConfig {
  via_gateway : bool;
  llm_model : string;
  prices : list (string * ModelPrice);
  ci_wait_env : string;
  recursion_limit : nat;
  review_cfg : option CodeReviewConfig;
  hooks : option HookRegistry
}.

(** ** Python values *)

(** [a == b] *)
Definition num_of (v : pyval) : option Q :=
  match v with
  | PBool b => Some (if b then 1 else 0)%Q
  | PInt z => Some (inject_Z z)
  | PFloat q => Some q
  | _ => None
  end.

Fixpoint py_eqb (a b : pyval) {struct a} : bool :=
  match a, b with
  | PNone, PNone => true
  | PStr s, PStr t => bool_decide (s = t)
  | PList l, PList m =>
      (fix go l m := match l, m with
                     | [], [] => true
                     | x :: l', y :: m' => py_eqb x y && go l' m'
                     | _, _ => false
                     end) l m
  | PDict d, PDict e =>
      (List.length d =? List.length e)%nat &&
      (fix go d := match d with
                   | [] => true
                   | (k, x) :: d' =>
                       match dict_get k e with
                       | Some y => py_eqb x y && go d'
                       | None => false
                       end
                   end) d
  | _, _ =>
      match num_of a, num_of b with Some x, Some y => Qeq_bool x y | _, _ => false end
  end.

Definition hashable (v : pyval) : bool :=
  match v with PList _ | PDict _ => false | _ => true end.

(** [int(state.get(k) or 0)] *)
Definition int_field (k : string) (st : state) : res Z := int_or_0 (sget k st).

(** [v + 1] *)
Definition add_one (v : pyval) : res pyval :=
  match v, as_int v with
  | _, Some z => Ok (PInt (z + 1))
  | PFloat q, _ => Ok (PFloat (q + 1)%Q)
  | v, _ => Raise (type_error ("unsupported operand type(s) for +: '" +:+ type_name v +:+ "' and 'int'"))
  end.

(** [len(v)], only for the exception. *)
Definition need_len (v : pyval) : res unit :=
  match v with
  | PStr _ | PList _ | PDict _ => Ok tt
  | v => Raise (type_error ("object of type '" +:+ type_name v +:+ "' has no len()"))
  end.

Definition opt_str (o : option string) : pyval := match o with Some s => PStr s | None => PNone end.

(** ** Calls *)

Section calls.
Context {Hrepr : FloatRepr} (w : world).

Definition io_exn_exn (e : io_exn) : exn :=
  match e with
  | OtherExn e => e
  | RequestsConnectionError | RedisConnectionError => Exn "ConnectionError" (w_text w e)
  | RequestsTimeout => Exn "Timeout" (w_text w e)
  | RequestsChunkedEncodingError => Exn "ChunkedEncodingError" (w_text w e)
  | RequestsHTTPError _ => Exn "HTTPError" (w_text w e)
  | FileNotFound => Exn "FileNotFoundError" (w_text w e)
  | PermissionDenied => Exn "PermissionError" (w_text w e)
  | IsADirectory => Exn "IsADirectoryError" (w_text w e)
  | NotADirectory => Exn "NotADirectoryError" (w_text w e)
  | OSErr _ => Exn "OSError" (w_text w e)
  | RedisTimeoutError => Exn "TimeoutError" (w_text w e)
  | RedisBusyLoadingError => Exn "BusyLoadingError" (w_text w e)
  end.

Definition io_res {A} (r : A + io_exn) : res A :=
  match r with inl a => Ok a | inr e => Raise (io_exn_exn e) end.

(** One call: the reply, an event, and its effect on the files. *)
Definition perform {A} (c : cmd) (ok : A → bool) (f : files → trace → res A) : M rs A := λ s h,
  (f (files_of s) h,
   (with_files (w_effect w c (files_of s) h) s,
    h ++ [(c, match f (files_of s) h with Ok a => ok a | Raise _ => false end)])).

Definition provider_call {A} (method : string) (args : list string)
    (f : files → trace → res A) : M rs A :=
  perform (ProviderCall method args) (λ _, true) f.

(** [subprocess.run(argv)]; the event says whether the program exited with 0. *)
Definition run_process (argv : list string) : M rs proc :=
  perform (Subprocess argv) (λ p, bool_decide (returncode p = 0%Z)) (w_process w argv).

(** [subprocess.run(argv, check=True)] *)
Definition run_checked (argv : list string) : M rs unit :=
  p ← run_process argv;
  if bool_decide (returncode p = 0%Z) then mret tt
  else throw (Exn "CalledProcessError"
    ("Command returned non-zero exit status " +:+ str_of_Z (returncode p) +:+ ".")).

(** [with_transient_retry(lambda: provider.method(...))]: one event per
    attempt. *)
Definition retry_attempts {A} (method : string) (args : list string)
    (f : files → trace → A + io_exn) : M rs (outcome A) := λ s h,
  let c := ProviderCall method args in
  let '(o, sleeps) := with_transient_retry (λ i, f (files_of s) (h ++ repeat (c, false) i))
                        method DEFAULT_RETRY_DELAYS in
  let failed := h ++ repeat (c, false) (List.length sleeps) in
  (Ok o, (with_files (w_effect w c (files_of s) failed) s,
          failed ++ [(c, match o with Returned _ _ => true | Raised _ => false end)])).

Definition retry_call {A} (method : string) (args : list string)
    (f : files → trace → A + io_exn) : M rs (A * Z) :=
  o ← retry_attempts method args f;
  match o with
  | Returned v k => mret (v, Z.of_nat k)
  | Raised e => throw (io_exn_exn e)
  end.

(** [provider.fetch_file(path)] outside a retry: a read leaves no event. *)
Definition read_file (path : pyval) : M rs (res string) :=
  s ← get; observe (λ h, io_res (w_fetch_file w path (files_of s) h)).

Definition now : M rs Q := observe (w_clock w).

(** [provider.ensure_repo_ready(state["bug_id"])] *)
Definition bug_id (st : state) : res string :=
  match st !! "bug_id" with Some v => Ok (py_str v) | None => Raise (key_error "'bug_id'") end.

Definition ensure_repo_ready (bug : string) : M rs (list string) :=
  provider_call "ensure_repo_ready" [bug] (w_repo w bug).

(** ** The budget *)

Definition budget_check : M rs (option exhaustion) :=
  s ← get;
  match budget_of s with
  | None => mret None
  | Some b =>
      t ← now;
      let '(b', r) := check b t in
      _ ← modify (with_budget b'); mret r
  end.

Definition budget_record (input output : Z) (cost : option Q) : M rs unit :=
  s ← get;
  match budget_of s with
  | None => mret tt
  | Some b => modify (with_budget (record_call b input output cost))
  end.

End calls.

(** ** Hooks *)

(** The callbacks of a registry, in order; what one raises is swallowed. *)
Fixpoint run_callbacks (l : list callback) (st : state) : M rs state :=
  match l with
  | [] => mret st
  | fn :: l' =>
      update ← try_ (fn st) (λ _, mret None);
      run_callbacks l' (match update with Some u => u ∪ st | None => st end)
  end.

Definition callbacks (hook_name : string) (r : HookRegistry) : list callback :=
  default [] (dict_get hook_name r).

(** [registry.register(name, fn)] *)
Definition register (hook_name : string) (fn : callback) (r : HookRegistry) : HookRegistry :=
  dict_set hook_name (callbacks hook_name r ++ [fn]) r.

Definition has (hook_name : string) (r : HookRegistry) : bool :=
  negb (List.length (callbacks hook_name r) =? 0)%nat.

Definition run_hooks (hook_name : string) (r : HookRegistry) (st : state) : M rs state :=
  run_callbacks (callbacks hook_name r) st.

Definition PRE_REACT_LOOP : string := "graph.pre_react_loop".
Definition POST_APPLY_TEST : string := "graph.post_apply_test".
Definition AGENT_PRE_FIX : string := "agent.pre_fix".
Definition AGENT_POST_FIX : string := "agent.post_fix".

End World.
