(* ===== verification/Memory.v ===== *)
(** * The memory enhancement

    Model of [bf_worker/enhancements/memory.py]: the JSON store of past fixes,
    its keyword query, and the two callbacks, one that puts a hint into the state
    before the ReAct loop and one that records the run when it is over. *)

From S2P Require Import Prelude PyStr PyTime Regex Effects PyJson PyJsonLoads PyJsonIndent World.
From stdpp Require Import sorting.
From Stdlib Require Import Qround.
Local Open Scope string_scope.
Local Open Scope list_scope.

Module Memory.
Import World.

Definition DEFAULT_TOP_K : Z := 2.
Definition MAX_SUMMARY_CHARS : nat := 240.

Definition STOPWORDS : gset string := list_to_set
  ["the"; "a"; "an"; "is"; "in"; "on"; "at"; "for"; "to"; "of"; "and"; "or";
   "but"; "with"; "as"; "by"; "if"; "it"; "this"; "that"; "from"; "be";
   "was"; "were"; "are"; "not"; "no"; "yes"].
Definition TOKEN_RE : re := rx no_flags "[A-Za-z_][A-Za-z0-9_]{2,}".

Definition tokenize (text : string) : gset string :=
  list_to_set (List.filter (λ t, bool_decide (t ∉ STOPWORDS))
                 (map (λ m, str_lower m.1) (re_findall TOKEN_RE text))).

(** ** Scoring *)

(** A stable insertion, highest score first. *)
Fixpoint insert_scored {A} (x : nat * A) (l : list (nat * A)) : list (nat * A) :=
  match l with
  | [] => [x]
  | y :: l' => if (x.1 <=? y.1)%nat then y :: insert_scored x l' else x :: l
  end.

(** [scored.sort(key=lambda x: x[0], reverse=True)] *)
Definition sort_scored {A} (l : list (nat * A)) : list (nat * A) :=
  fold_left (λ acc x, insert_scored x acc) l [].

Section memory.
Context `{FloatRepr, FloatParse}.

(** The searchable text of an entry. *)
Definition entry_text (e : pyval) : res string :=
  sig ← py_get e "error_signature" (PStr "");
  file ← py_get e "suspect_file_path" (PStr "");
  cat ← py_get e "category" (PStr "");
  fix_ ← py_get e "fix_summary" (PStr "");
  Ok (str_join " " [py_str sig; py_str file; py_str cat; py_str fix_]).

Definition score (query_tokens : gset string) (e : pyval) : res nat :=
  text ← entry_text e;
  Ok (size (query_tokens ∩ tokenize text)).

(** The entries that share a token with the query, with their scores. *)
Fixpoint scored (query_tokens : gset string) (entries : list pyval) : res (list (nat * pyval)) :=
  match entries with
  | [] => Ok []
  | e :: entries' =>
      n ← score query_tokens e;
      rest ← scored query_tokens entries';
      Ok (if (0 <? n)%nat then (n, e) :: rest else rest)
  end.

Definition best (top_k : Z) (l : list (nat * pyval)) : list pyval :=
  map snd (py_slice 0 top_k (sort_scored l)).

(** [_tokenize(v)] of a field of the state. *)
Definition tokens_of (v : pyval) : res (gset string) :=
  match v with
  | PStr s => Ok (tokenize s)
  | v => if truthy v then Raise (type_error "expected string or bytes-like object") else Ok ∅
  end.

Definition query_entries (entries : list pyval) (error_info suspect_file_path : pyval) (top_k : Z) :
    res (list pyval) :=
  match entries with
  | [] => Ok []
  | _ =>
      a ← tokens_of error_info;
      b ← tokens_of suspect_file_path;
      let query_tokens := a ∪ b in
      if bool_decide (query_tokens = ∅) then Ok []
      else l ← scored query_tokens entries; Ok (best top_k l)
  end.

(** ** _format_hint *)

(** [m.get(k, "").strip()] *)
Definition stripped (k : string) (m : pyval) : res string :=
  v ← py_get m k (PStr "");
  match v with
  | PStr s => Ok (str_strip s)
  | v => Raise (attribute_error ("'" +:+ type_name v +:+ "' object has no attribute 'strip'"))
  end.

Fixpoint hint_lines (i : nat) (matches : list pyval) : res (list string) :=
  match matches with
  | [] => Ok []
  | m :: matches' =>
      sig ← stripped "error_signature" m;
      cat ← stripped "category" m;
      fix_ ← stripped "fix_summary" m;
      rest ← hint_lines (S i) matches';
      let head := str_of_nat i +:+ ". "
                  +:+ (if str_nonempty cat then "[" +:+ cat +:+ "] " else "") +:+ sig in
      Ok (head :: (if str_nonempty fix_ then ["   fix: " +:+ fix_] else []) ++ rest)
  end.

Definition format_hint (matches : list pyval) : res string :=
  lines ← hint_lines 1 matches;
  Ok (str_join nl ("## Prior similar fixes (reference only, may not apply):" :: lines)).

(** ** The entry of a run *)

(** [(v or "")], which must be text. *)
Definition text_field (k : string) (st : state) : res string :=
  match py_or (sget k st) (PStr "") with
  | PStr s => Ok s
  | v => Raise (attribute_error ("'" +:+ type_name v +:+ "' object has no attribute 'strip'"))
  end.

(** [first.get(k, '')[:80]] *)
Definition head80 (k : string) (f : pyval) : res string :=
  v ← py_get f k (PStr "");
  match v with
  | PStr s => Ok (str_take 80 s)
  | PList l => Ok (py_str (PList (firstn 80 l)))
  | v => Raise (type_error ("'" +:+ type_name v +:+ "' object is not subscriptable"))
  end.

Definition fix_summary (st : state) : res string :=
  reasoning ← text_field "react_reasoning" st;
  let summary := str_take MAX_SUMMARY_CHARS (str_strip reasoning) in
  if str_nonempty summary then Ok summary
  else
    fixes ← prior_fixes st;
    match fixes with
    | [] => Ok ""
    | first :: _ =>
        a ← head80 "original" first;
        b ← head80 "replacement" first;
        Ok (a +:+ " -> " +:+ b)
    end.

(** A run of [=] and [_]: a section divider of pytest. *)
Definition is_banner (s : string) : bool := str_forallb (λ c, mem c ["="; "_"; " "]%char) s.

Definition candidates (error_info : string) : list string :=
  List.filter (λ s, str_nonempty s && negb (is_banner s)) (map str_strip (splitlines error_info)).

(** [line.lstrip("E ").strip()]: the characters are a set. *)
Definition after_marker (line : string) : string :=
  str_strip (str_lstrip (λ c, mem c ["E"; " "]%char) line).

Definition signature (error_info : string) : string :=
  let lines := candidates error_info in
  let marked := match List.find (startswith "E ") lines with
                | Some line => after_marker line
                | None => ""
                end in
  str_take MAX_SUMMARY_CHARS (if str_nonempty marked then marked else hd "" lines).

Definition outcome (st : state) : string :=
  if truthy (sget "test_passed" st) then "fixed"
  else if truthy (sget "error" st) then "error" else "no_fix".

Definition entry (st : state) (now : Z) : res pyval :=
  error_info ← text_field "error_info" st;
  summary ← fix_summary st;
  Ok (PDict
    [("bug_id", default (PStr "") (st !! "bug_id"));
     ("outcome", PStr (outcome st));
     ("error_signature", PStr (signature (str_strip error_info)));
     ("suspect_file_path", py_or (sget "suspect_file_path" st) (PStr ""));
     ("fix_summary", PStr summary);
     ("timestamp", PStr (stamp now))]).

(** ** The store *)

(** What the disk refuses: reading a file that exists, creating the directory
    and writing a file, with what a failed write leaves in it. *)
Record disk := mkDisk {
  d_read : string → files → trace → option exn;
  d_mkdir : string → files → trace → option exn;
  d_write : string → string → files → trace → option (exn * option string)
}.

Context (w : world) (dk : disk).

Section store.
Context (path : string).

(** The entries of a store that was read, where [json.loads] accepts it. *)
Definition parse_store (text : string) : res (list pyval) :=
  match json_loads (universal_newlines text) with
  | Some (PDict d) => py_iter (default (PList []) (dict_get "entries" d))
  | Some (PList l) => Ok l
  | _ => Ok []
  end.

Definition load : M rs (list pyval) :=
  s ← get;
  refused ← observe (d_read dk path (files_of s));
  match files_of s !! path, refused with
  | Some text, None => lift (parse_store text)
  | _, _ => mret []
  end.

(** [self.path.write_text(text)] *)
Definition write_text (text : string) : M rs unit :=
  s ← get;
  refused ← observe (d_write dk path text (files_of s));
  match refused with
  | None => modify (λ s, with_files (<[path := text]> (files_of s)) s)
  | Some (e, torn) =>
      _ ← modify (λ s, match torn with
                       | Some t => with_files (<[path := t]> (files_of s)) s
                       | None => s
                       end);
      throw e
  end.

Definition store_text (entries : list pyval) : string :=
  json_pretty (PDict [("entries", PList entries)]).

Definition append (e : pyval) : M rs unit :=
  entries ← load;
  s ← get;
  refused ← observe (d_mkdir dk path (files_of s));
  match refused with
  | Some x => throw x
  | None => write_text (store_text (entries ++ [e]))
  end.

Definition query (error_info suspect_file_path : pyval) (top_k : Z) : M rs (list pyval) :=
  entries ← load;
  lift (query_entries entries error_info suspect_file_path top_k).

(** ** The callbacks *)

Definition memory_lookup (top_k : Z) : callback := λ st,
  matches ← query (text_or_empty "error_info" st) (text_or_empty "suspect_file_path" st) top_k;
  match matches with
  | [] => mret None
  | _ =>
      hint ← lift (format_hint matches);
      mret (Some (dict [("memory_hint", PStr hint);
                        ("memory_matches_count", PInt (Z.of_nat (List.length matches)))]))
  end.

Definition memory_writer : callback := λ st,
  t ← now w;
  e ← lift (entry st (Qfloor t));
  _ ← ignore (append e);
  mret None.

Definition build_memory_callbacks (top_k : Z) (write_back : bool) : list (string * callback) :=
  (PRE_REACT_LOOP, memory_lookup top_k) :: if write_back then [(AGENT_POST_FIX, memory_writer)] else [].

End store.
End memory.
End Memory.
