(* ===== verification/MemorySpec.v ===== *)
(** * What the memory store promises

    The query returns the entries that share most words with the failure, and
    the store gives back what was appended to it. *)

From S2P Require Import Prelude PyStr PyTime PyJson PyJsonLoads PyJsonIndent Effects World Memory.
From Stdlib Require Import Sorting.Sorted.
Local Open Scope string_scope.
Local Open Scope list_scope.

Module MemorySpec.
Import World Memory.

(** ** The sort *)

Section sort.
Context {A : Type}.
Implicit Types l : list (nat * A).

Definition descending (x y : nat * A) : Prop := (y.1 ≤ x.1)%nat.

Lemma insert_scored_perm x l : insert_scored x l ≡ₚ x :: l.
Proof.
  induction l as [|y l IH]; simpl; [done|]. destruct (_ <=? _)%nat; [|done].
  rewrite IH. apply Permutation_swap.
Qed.

Lemma insert_scored_sorted x l :
  StronglySorted descending l → StronglySorted descending (insert_scored x l).
Proof.
  induction 1 as [|y l Hl IH Hy]; simpl; [by repeat constructor|].
  destruct (Nat.leb_spec x.1 y.1) as [Hle|Hlt].
  - constructor; [done|]. rewrite insert_scored_perm. by constructor.
  - constructor; [by constructor|]. constructor; [unfold descending; lia|].
    eapply Forall_impl; [exact Hy|]. unfold descending. intros z Hz. lia.
Qed.

(** Equal scores keep their order. *)
Definition at_score (n : nat) l : list (nat * A) := List.filter (λ x, (x.1 =? n)%nat) l.

Lemma at_score_none n l : Forall (λ x, x.1 ≠ n) l → at_score n l = [].
Proof. unfold at_score. induction 1 as [|x l Hx Hl IH]; simpl; [done|]. by rewrite (proj2 (Nat.eqb_neq _ _) Hx). Qed.

Lemma at_score_app n l l' : at_score n (l ++ l') = at_score n l ++ at_score n l'.
Proof. apply List.filter_app. Qed.

Lemma insert_scored_stable n x l :
  StronglySorted descending l → at_score n (insert_scored x l) = at_score n (l ++ [x]).
Proof.
  induction 1 as [|y l Hl IH Hy]; [done|]. cbn [insert_scored].
  destruct (Nat.leb_spec x.1 y.1) as [Hle|Hlt].
  - unfold at_score in *. simpl. by rewrite IH.
  - rewrite at_score_app. destruct (decide (x.1 = n)) as [<-|Hx].
    + rewrite (at_score_none x.1 (y :: l)).
      * change (x :: y :: l) with ([x] ++ y :: l). rewrite at_score_app, (at_score_none x.1 (y :: l)).
        -- apply app_nil_r.
        -- constructor; [lia|]. eapply Forall_impl; [exact Hy|]. unfold descending. intros z Hz. lia.
      * constructor; [lia|]. eapply Forall_impl; [exact Hy|]. unfold descending. intros z Hz. lia.
    + rewrite (at_score_none n [x]) by (by constructor). rewrite app_nil_r.
      unfold at_score. simpl. by rewrite (proj2 (Nat.eqb_neq _ _) Hx).
Qed.

Lemma sort_scored_from l acc :
  StronglySorted descending acc →
  let r := fold_left (λ acc x, insert_scored x acc) l acc in
  r ≡ₚ acc ++ l ∧ StronglySorted descending r ∧ ∀ n, at_score n r = at_score n (acc ++ l).
Proof.
  revert acc. induction l as [|x l IH]; intros acc Hacc; simpl; [by rewrite app_nil_r|].
  destruct (IH (insert_scored x acc)) as (Hp & Hs & Hn); [by apply insert_scored_sorted|].
  split; [|split; [done|]].
  - rewrite Hp, insert_scored_perm. by rewrite <- Permutation_middle.
  - intros n. rewrite Hn, at_score_app, insert_scored_stable by done.
    by rewrite <- at_score_app, <- app_assoc.
Qed.

(** [list.sort(key=..., reverse=True)]: a stable descending sort. *)
Lemma sort_scored_spec l :
  sort_scored l ≡ₚ l ∧ StronglySorted descending (sort_scored l) ∧
  ∀ n, at_score n (sort_scored l) = at_score n l.
Proof. exact (sort_scored_from l [] (SSorted_nil _)). Qed.

End sort.

(** ** The query *)

Section query.
Context `{FloatRepr, FloatParse}.

(** How many words of the query an entry has. *)
Definition overlap (q : gset string) (e : pyval) : nat :=
  match score q e with Ok n => n | Raise _ => 0 end.

Lemma scored_spec q entries l :
  scored q entries = Ok l →
  l = map (λ e, (overlap q e, e)) (List.filter (λ e, (0 <? overlap q e)%nat) entries).
Proof.
  revert l. induction entries as [|e entries IH]; intros l; simpl; [by intros [= <-]|].
  intros (n & Hn & (rest & Hr & [= <-])%res_bind_ok)%res_bind_ok. rewrite (IH _ Hr).
  unfold overlap. rewrite Hn. by destruct (0 <? n)%nat; [simpl; rewrite Hn|].
Qed.

Lemma py_slice_firstn {A} k (l : list A) : (0 ≤ k)%Z → py_slice 0 k l = firstn (Z.to_nat k) l.
Proof.
  intros Hk. unfold py_slice. cbv zeta. rewrite (proj2 (Z.ltb_ge k 0)) by done.
  change (0 <? 0)%Z with false. cbv iota.
  replace (Z.to_nat (Z.max 0 (Z.min (Z.of_nat (List.length l)) 0))) with 0%nat by lia.
  replace (Z.to_nat (Z.max 0 (Z.min (Z.of_nat (List.length l)) k)) - 0)%nat
    with (List.length l `min` Z.to_nat k)%nat by lia.
  change (skipn 0 l) with l. destruct (Nat.le_ge_cases (List.length l) (Z.to_nat k)) as [Hl|Hl].
  - rewrite Nat.min_l, firstn_all, firstn_all2 by done. done.
  - by rewrite Nat.min_r.
Qed.

(** The words a query looks for. *)
Definition words (v : pyval) : gset string := match tokens_of v with Ok s => s | Raise _ => ∅ end.

(** A sorted list is cut where its scores are lowest. *)
Lemma take_sorted {A} (l : list (nat * A)) k x y :
  StronglySorted descending l → x ∈ firstn k l → y ∈ skipn k l → descending x y.
Proof.
  revert k. induction l as [|z l IH]; intros [|k] Hl; simpl; try by (intros ?%elem_of_nil).
  apply StronglySorted_inv in Hl as [Hl Hz]. intros [->|Hx]%elem_of_cons Hy; [|by eapply IH].
  rewrite Forall_forall in Hz. apply Hz. rewrite <- (firstn_skipn k l). apply elem_of_app. by right.
Qed.

(** Cutting and projecting a list whose items carry their own score. *)
Section projected.
Context {A : Type} (n : A → nat) (s : list (nat * A)) (Hs : Forall (λ x, x.1 = n x.2) s).

Lemma project_sorted k :
  StronglySorted descending s → StronglySorted (λ e e', (n e' ≤ n e)%nat) (map snd (firstn k s)).
Proof.
  intros Hl. revert k. induction Hl as [|x l Hl IH Hx]; intros [|k]; simpl; try constructor.
  - apply IH. by apply Forall_cons in Hs as [_ ?].
  - apply Forall_cons in Hs as [Hxn Hln]. apply Forall_map, Forall_forall. intros y Hy.
    assert (y ∈ l) as Hyl by (rewrite <- (firstn_skipn k l); apply elem_of_app; by left).
    rewrite Forall_forall in Hx, Hln. specialize (Hx y Hyl). unfold descending in Hx.
    rewrite <- Hxn, <- (Hln y Hyl). done.
Qed.

Lemma project_at_score m : map snd (at_score m s) = List.filter (λ e, (n e =? m)%nat) (map snd s).
Proof.
  unfold at_score. induction Hs as [|x l Hx Hl IH]; [done|]. simpl. rewrite <- Hx.
  destruct (x.1 =? m)%nat; simpl; by rewrite IH.
Qed.

End projected.

Lemma prefix_at_score {A} m k (s : list (nat * A)) : at_score m (firstn k s) `prefix_of` at_score m s.
Proof. exists (at_score m (skipn k s)). by rewrite <- at_score_app, firstn_skipn. Qed.

Lemma filter_filter_pos {A} (n : A → nat) m l :
  (0 < m)%nat → List.filter (λ e, (n e =? m)%nat) (List.filter (λ e, (0 <? n e)%nat) l) =
                List.filter (λ e, (n e =? m)%nat) l.
Proof.
  intros Hm. induction l as [|e l IH]; [done|]. simpl. destruct (Nat.ltb_spec 0 (n e)); simpl.
  - destruct (_ =? _)%nat; by rewrite IH.
  - rewrite (proj2 (Nat.eqb_neq (n e) m)) by lia. done.
Qed.

Section best.
Context (q : gset string) (entries : list pyval) (l : list (nat * pyval)) (k : Z).
Context (Hl : scored q entries = Ok l) (Hk : (0 ≤ k)%Z).
Notation n := (overlap q).

Lemma best_firstn : best k l = map snd (firstn (Z.to_nat k) (sort_scored l)).
Proof. unfold best. by rewrite py_slice_firstn. Qed.

Lemma elem_of_sorted x : x ∈ sort_scored l ↔ x.1 = n x.2 ∧ x.2 ∈ entries ∧ (0 < n x.2)%nat.
Proof.
  rewrite (proj1 (sort_scored_spec l)), (scored_spec _ _ _ Hl).
  rewrite list_elem_of_fmap. setoid_rewrite list_elem_of_In. setoid_rewrite filter_In.
  setoid_rewrite Nat.ltb_lt. split; [by intros (e & -> & ? & ?)|].
  destruct x as [m e]. simpl. intros (-> & ? & ?). by exists e.
Qed.

Lemma sorted_scores : Forall (λ x, x.1 = n x.2) (sort_scored l).
Proof. apply Forall_forall. by intros x [Hx _]%elem_of_sorted. Qed.

Lemma best_elem e : e ∈ best k l → e ∈ entries ∧ (0 < n e)%nat.
Proof.
  rewrite best_firstn. intros (x & -> & Hx)%list_elem_of_fmap.
  assert (x ∈ sort_scored l) as (_ & He & Hn)%elem_of_sorted; [|done].
  rewrite <- (firstn_skipn (Z.to_nat k)). apply elem_of_app. by left.
Qed.

Lemma best_complete e :
  e ∈ entries → (0 < n e)%nat →
  e ∈ best k l ∨ List.length (best k l) = Z.to_nat k ∧ Forall (λ e', (n e ≤ n e')%nat) (best k l).
Proof.
  intros He Hn. assert ((n e, e) ∈ sort_scored l) as Hx by by apply elem_of_sorted.
  rewrite best_firstn. pose proof Hx as Hx'. rewrite <- (firstn_skipn (Z.to_nat k)) in Hx'.
  apply elem_of_app in Hx' as [Hx'|Hx'].
  - left. apply list_elem_of_fmap. by exists (n e, e).
  - right. split.
    + rewrite length_map, firstn_length_le; [done|].
      destruct (Nat.le_gt_cases (Z.to_nat k) (List.length (sort_scored l))) as [|Hlt]; [done|].
      rewrite skipn_all2 in Hx' by lia. by apply elem_of_nil in Hx'.
    + apply Forall_map, Forall_forall. intros y Hy.
      destruct (sort_scored_spec l) as (_ & Hs & _).
      pose proof (take_sorted _ _ _ _ Hs Hy Hx') as Hd. unfold descending in Hd. simpl in Hd.
      assert (y ∈ sort_scored l) as [<- _]%elem_of_sorted; [|done].
      rewrite <- (firstn_skipn (Z.to_nat k)). apply elem_of_app. by left.
Qed.

Lemma best_stable m :
  (0 < m)%nat → List.filter (λ e, (n e =? m)%nat) (best k l) `prefix_of`
                List.filter (λ e, (n e =? m)%nat) entries.
Proof.
  intros Hm. rewrite best_firstn, <- (filter_filter_pos n m entries Hm).
  destruct (sort_scored_spec l) as (_ & _ & Hs).
  assert (List.filter (λ e, (0 <? n e)%nat) entries = map snd l) as ->.
  { rewrite (scored_spec _ _ _ Hl), map_map. by rewrite map_id. }
  assert (Forall (λ x, x.1 = n x.2) l) as Hsc.
  { rewrite <- (proj1 (sort_scored_spec l)). apply sorted_scores. }
  rewrite <- (project_at_score n l Hsc), <- Hs, <- project_at_score.
  - destruct (prefix_at_score m (Z.to_nat k) (sort_scored l)) as [t ->]. rewrite map_app. by exists (map snd t).
  - apply Forall_forall. intros x Hx. pose proof sorted_scores as Hf. rewrite Forall_forall in Hf. apply Hf.
    rewrite <- (firstn_skipn (Z.to_nat k)). apply elem_of_app. by left.
Qed.

End best.

End query.

(** What a query for [k] entries is to return, for a number [n] of words shared
    with each entry. *)
Record best_matches (n : pyval → nat) (entries : list pyval) (k : nat) (r : list pyval) : Prop := {
  matches_bounded : (List.length r ≤ k)%nat;
  matches_share : ∀ e, e ∈ r → e ∈ entries ∧ (0 < n e)%nat;
  matches_sorted : StronglySorted (λ e e', (n e' ≤ n e)%nat) r;
  matches_complete : ∀ e, e ∈ entries → (0 < n e)%nat →
    e ∈ r ∨ List.length r = k ∧ Forall (λ e', (n e ≤ n e')%nat) r;
  matches_stable : ∀ m, (0 < m)%nat → List.filter (λ e, (n e =? m)%nat) r `prefix_of`
                                      List.filter (λ e, (n e =? m)%nat) entries
}.

Lemma no_matches n entries k : (∀ e, e ∈ entries → n e = 0%nat) → best_matches n entries k [].
Proof.
  intros H0. split; simpl; [lia|by intros e ?%elem_of_nil|constructor| |intros; apply prefix_nil].
  intros e He. rewrite (H0 e He). lia.
Qed.

(** C12: the hint is made of the best matches.  A query for [k] entries returns
    at most [k] of them, each sharing a word with the failure; they come with
    the most shared words first, older ones before newer ones among equals; and
    an entry that shares a word is left out only for [k] others that share as
    many. *)
Theorem query_best `{FloatRepr, FloatParse} (entries r : list pyval) (error_info suspect : pyval) (k : Z) :
  (0 ≤ k)%Z → query_entries entries error_info suspect k = Ok r →
  best_matches (overlap (words error_info ∪ words suspect)) entries (Z.to_nat k) r.
Proof.
  intros Hk. unfold query_entries. destruct entries as [|e0 es].
  { intros [= <-]. apply no_matches. by intros e ?%elem_of_nil. }
  intros (a & Ha & (b & Hb & E)%res_bind_ok)%res_bind_ok.
  unfold words. rewrite Ha, Hb. cbv zeta in E. case_bool_decide as Hq.
  - rewrite Hq. injection E as <-. apply no_matches. intros e _. unfold overlap, score.
    destruct (entry_text e); [|done]. simpl. by rewrite intersection_empty_l_L, size_empty.
  - apply res_bind_ok in E as (l & Hl & [= <-]). split.
    + rewrite (best_firstn l k Hk), length_map. apply firstn_le_length.
    + intros e. by eapply best_elem.
    + rewrite (best_firstn l k Hk). apply project_sorted; [by eapply sorted_scores|].
      apply (sort_scored_spec l).
    + intros e He Hn. by eapply best_complete.
    + intros m Hm. by eapply best_stable.
Qed.

Lemma query_best_witness :
  let old := PDict [("error_signature", PStr "KeyError in parse_config")] in
  let new := PDict [("error_signature", PStr "KeyError in parse_config"); ("suspect_file_path", PStr "src/config.py")] in
  let r := [new; old] in
  best_matches (@overlap (λ _, "") (words (PStr "KeyError: parse_config") ∪ words (PStr "src/config.py")))
    [old; PDict [("category", PStr "typo")]; new] 2 r.
Proof.
  cbv zeta. eapply (@query_best (λ _, "") (λ _, None) _ _ (PStr "KeyError: parse_config") (PStr "src/config.py") 2).
  - done.
  - vm_compute. reflexivity.
Defined.

(** ** The store *)

Section store.
Context `{FloatRepr, FloatParse} (dk : disk) (path : string).

(** The disk lets the store be read, or written. *)
Definition readable (s : rs) (h : trace) : Prop := d_read dk path (files_of s) h = None.
Definition writable (s : rs) (h : trace) : Prop :=
  d_mkdir dk path (files_of s) h = None ∧ ∀ text, d_write dk path text (files_of s) h = None.

Lemma load_run s h :
  load dk path s h = (match files_of s !! path, d_read dk path (files_of s) h with
                      | Some text, None => parse_store text
                      | _, _ => Ok []
                      end, (s, h)).
Proof.
  unfold load. rewrite bind_get, bind_observe. destruct (files_of s !! path); [|done].
  by destruct (d_read _ _ _ _).
Qed.

Lemma parse_store_text entries :
  Forall (λ v, json_flat v = true) entries → parse_store (store_text entries) = Ok entries.
Proof.
  intros He. unfold parse_store, store_text. rewrite json_loads_written; [done|].
  apply json_flat_list in He. cbn [json_flat map forallb fst] in *. rewrite He.
  apply andb_true_iff. split; [|done]. apply bool_decide_eq_true. by apply NoDup_singleton.
Qed.

Lemma append_run e entries s h :
  writable s h → load dk path s h = (Ok entries, (s, h)) →
  append dk path e s h =
    (Ok tt, (with_files (<[path := store_text (entries ++ [e])]> (files_of s)) s, h)).
Proof.
  intros [Hm Hw] Hl. unfold append. rewrite bind_run, Hl, bind_get, bind_observe, Hm.
  unfold write_text. by rewrite bind_get, bind_observe, Hw.
Qed.

End store.

(** C13: the store gives back what was appended.  Where the disk allows it, a
    store that loads as [entries] loads after an append as [entries] with the
    new entry at the end. *)
Theorem append_load `{FloatRepr, FloatParse} (dk : disk) (path : string) (e : pyval) (entries : list pyval)
    (s s' : rs) (h h' : trace) :
  load dk path s h = (Ok entries, (s, h)) → Forall (λ v, json_flat v = true) (entries ++ [e]) →
  writable dk path s h → append dk path e s h = (Ok tt, (s', h')) → readable dk path s' h' →
  load dk path s' h' = (Ok (entries ++ [e]), (s', h')).
Proof.
  intros Hl Hf Hw Ha Hr. rewrite (append_run dk path e entries s h Hw Hl) in Ha. injection Ha as <- <-.
  rewrite load_run. unfold readable in Hr. rewrite Hr. simpl. rewrite lookup_insert_eq.
  by rewrite parse_store_text.
Qed.

(** A disk that refuses nothing, or no more than reads. *)
Definition sample_disk (unreadable : bool) : disk :=
  mkDisk (λ _ _ _, if unreadable then Some (Exn "PermissionError" "denied") else None)
    (λ _ _ _, None) (λ _ _ _ _, None).
Definition sample_entry (sig : string) : pyval := PDict [("error_signature", PStr sig)].
Definition sample_store (l : list pyval) : rs :=
  mkRs {[ "m.json" := @store_text (λ _, "") l ]} None.

Lemma append_load_witness :
  @load (λ _, None) (sample_disk false) "m.json"
    (with_files (<["m.json" := @store_text (λ _, "") [sample_entry "KeyError"; sample_entry "ValueError"]]>
                   (files_of (sample_store [sample_entry "KeyError"]))) (sample_store [sample_entry "KeyError"])) [] =
  (Ok [sample_entry "KeyError"; sample_entry "ValueError"],
   (with_files (<["m.json" := @store_text (λ _, "") [sample_entry "KeyError"; sample_entry "ValueError"]]>
                   (files_of (sample_store [sample_entry "KeyError"]))) (sample_store [sample_entry "KeyError"]), [])).
Proof.
  apply (@append_load (λ _, "") (λ _, None) (sample_disk false) "m.json" (sample_entry "ValueError")
           [sample_entry "KeyError"] (sample_store [sample_entry "KeyError"]) _ [] []).
  - rewrite (@load_run (λ _, None)). vm_compute. reflexivity.
  - repeat constructor.
  - split; [reflexivity|]. intros text. reflexivity.
  - rewrite (@append_run (λ _, "") (λ _, None) (sample_disk false) "m.json" _ [sample_entry "KeyError"]);
      [reflexivity|split; [reflexivity|intros text; reflexivity]|].
    rewrite (@load_run (λ _, None)). vm_compute. reflexivity.
  - reflexivity.
Defined.

(** An entry appended while the store cannot be read takes the place of all that
    were there. *)
Theorem append_forgets `{FloatRepr, FloatParse} (dk : disk) (path : string) (e : pyval) (s : rs) (h : trace) :
  ¬ readable dk path s h → writable dk path s h →
  append dk path e s h = (Ok tt, (with_files (<[path := store_text [e]]> (files_of s)) s, h)).
Proof.
  intros Hr Hw. apply (append_run dk path e [] s h Hw). rewrite load_run. unfold readable in Hr.
  destruct (files_of s !! path); [|done]. by destruct (d_read dk path (files_of s) h).
Qed.

Lemma append_forgets_witness :
  @append (λ _, "") (λ _, None) (sample_disk true) "m.json" (sample_entry "ValueError")
    (sample_store [sample_entry "KeyError"]) [] =
  (Ok tt, (with_files (<["m.json" := @store_text (λ _, "") [sample_entry "ValueError"]]>
                         (files_of (sample_store [sample_entry "KeyError"]))) (sample_store [sample_entry "KeyError"]), [])).
Proof.
  apply (@append_forgets (λ _, "") (λ _, None) (sample_disk true) "m.json"); [done|].
  split; [reflexivity|]. intros text. reflexivity.
Defined.

(** The marker of pytest is stripped as a set of characters: it takes the first
    letter of an error's name along. *)
Example signature_eats_e : signature ("E   EOFError: unexpected end" +:+ nl) = "OFError: unexpected end".
Proof. vm_compute. reflexivity. Qed.

(** Fixes carry [original_line] and [new_line], so without a stated reasoning
    the summary says nothing. *)
Example summary_says_nothing `{FloatRepr} :
  fix_summary {[ "llm_result" := PDict [("fixes", PList [PDict
    [("line_number", PInt 1); ("original_line", PStr "x = 1"); ("new_line", PStr "x = 2")]])] ]} = Ok " -> ".
Proof. reflexivity. Qed.

End MemorySpec.
