(* ===== verification/ReactLoop.v ===== *)
(** * The ReAct loop

    Model of the node [react_loop] of [bf_worker/graph/nodes/react_loop.py]: up
    to [MAX_STEPS] model calls behind the run's budget, each followed by a
    submission, an abort, a fetch tool or a nudge, and of the cost lookup of
    [bf_worker/services/llm_client.py]. *)

From S2P Require Import Prelude PyStr Effects World.
Local Open Scope string_scope.
Local Open Scope list_scope.

Module ReactLoop.
Import World.

Definition MAX_STEPS : nat := 8.
Definition LLM_RETRY_DELAYS : list Z := [1; 2]%Z.

Definition is_transient_bad_request (msg : string) : bool :=
  str_contains "function.arguments" msg || str_contains "must be in JSON format" msg.

Definition transient_llm (e : llm_exn) : bool :=
  match e with
  | APIConnectionError _ | RateLimitError _ => true
  | BadRequestError m => is_transient_bad_request m
  | OtherLlmError _ => false
  end.

(** ** Rounding to six decimals *)

Definition round_half_even (q : Q) : Z :=
  let f := (Qnum q / Zpos (Qden q))%Z in
  let r := (2 * (Qnum q mod Zpos (Qden q)))%Z in
  if (r <? Zpos (Qden q))%Z then f
  else if (Zpos (Qden q) <? r)%Z then (f + 1)%Z
  else if Z.even f then f else (f + 1)%Z.
Definition round6 (q : Q) : Q := (round_half_even (q * 1000000) # 1000000)%Q.

(** ** The conversation as the state carries it *)

Definition call_val (c : tool_call) : pyval :=
  PDict [("name", PStr (tc_name c)); ("args", PDict (tc_args c)); ("id", PStr (tc_id c))].

Definition message_val (m : message) : pyval :=
  match m with
  | SystemMessage t => PDict [("type", PStr "system"); ("content", PStr t)]
  | HumanMessage t => PDict [("type", PStr "human"); ("content", PStr t)]
  | AssistantMessage c calls =>
      PDict [("type", PStr "ai"); ("content", c); ("tool_calls", PList (map call_val calls))]
  | ToolMessage id t =>
      PDict [("type", PStr "tool"); ("tool_call_id", PStr id); ("content", PStr t)]
  end.

(** The local variables of the node. *)
Record locals := mkLocals {
  messages : list message;
  step_count : Z;
  llm_result : pyval;
  l_confidence : pyval;
  reasoning : pyval;
  tool_call_log : list pyval;
  max_input_tokens : Z;
  llm_call_count : Z;
  total_prompt_tokens : Z;
  total_completion_tokens : Z;
  total_llm_wallclock_s : Q;
  total_cached_input_tokens : option Z;
  total_cost_usd : option Q;
  llm_call_wallclock_ms : list pyval
}.

Definition say (m : message) (l : locals) : locals :=
  mkLocals (messages l ++ [m]) (step_count l) (llm_result l) (l_confidence l) (reasoning l)
    (tool_call_log l) (max_input_tokens l) (llm_call_count l) (total_prompt_tokens l)
    (total_completion_tokens l) (total_llm_wallclock_s l) (total_cached_input_tokens l)
    (total_cost_usd l) (llm_call_wallclock_ms l).

(** The accounting of one call. *)
Definition account (in_tok out_tok : Z) (cached : option Z) (cost : option Q) (wallclock : Q)
    (l : locals) : locals :=
  mkLocals (messages l) (step_count l + 1) (llm_result l) (l_confidence l) (reasoning l)
    (tool_call_log l) (Z.max (max_input_tokens l) in_tok) (llm_call_count l + 1)
    (total_prompt_tokens l + in_tok) (total_completion_tokens l + out_tok)
    (total_llm_wallclock_s l + wallclock)%Q
    (match cached with
     | Some c => Some (default 0 (total_cached_input_tokens l) + c)%Z
     | None => total_cached_input_tokens l
     end)
    (match cost with
     | Some c => Some (default 0 (total_cost_usd l) + c)%Q
     | None => total_cost_usd l
     end)
    (llm_call_wallclock_ms l ++ [PInt (Q_trunc (wallclock * 1000))]).

Definition log_tool (c : tool_call) (l : locals) : locals :=
  mkLocals (messages l) (step_count l) (llm_result l) (l_confidence l) (reasoning l)
    (tool_call_log l ++ [PDict [("step", PInt (step_count l)); ("tool", PStr (tc_name c));
                                ("input", PDict (tc_args c))]])
    (max_input_tokens l) (llm_call_count l) (total_prompt_tokens l) (total_completion_tokens l)
    (total_llm_wallclock_s l) (total_cached_input_tokens l) (total_cost_usd l)
    (llm_call_wallclock_ms l).

Definition arg (k : string) (dflt : pyval) (c : tool_call) : pyval := default dflt (dict_get k (tc_args c)).

(** What [submit_fix] leaves: the result, the confidence and the reasoning. *)
Definition submit (c : tool_call) (fixes : pyval) (l : locals) : locals :=
  mkLocals (messages l) (step_count l)
    (PDict [("can_fix", PBool true); ("error_reason", arg "error_reason" (PStr "") c);
            ("step_by_step_thinking", arg "reasoning" (PStr "") c); ("fixes", fixes)])
    (arg "confidence" (PStr "medium") c) (arg "reasoning" (PStr "") c)
    (tool_call_log l) (max_input_tokens l) (llm_call_count l) (total_prompt_tokens l)
    (total_completion_tokens l) (total_llm_wallclock_s l) (total_cached_input_tokens l)
    (total_cost_usd l) (llm_call_wallclock_ms l).

Definition NUDGE : string :=
  "You must call one of the provided tools. If you have identified the fix, call submit_fix. If you cannot fix the bug, call abort_fix.".

Section node.
Context `{FloatRepr, FloatParse} (w : world) (cfg : config).

(** ** Cost of a call *)

Definition parse_cost (raw : option string) : option Q :=
  match raw with
  | Some (String _ _ as s) => clamp_cost <$> float_parse s
  | _ => None
  end.

Definition cost_of_call (prompt completion cached : Z) : M rs (option Q) :=
  if via_gateway cfg then observe (λ h, parse_cost (w_cost_header w h))
  else mret (cost_for (prices cfg) (llm_model cfg) prompt completion cached).

(** ** The model call *)

Definition llm_invoke (attempt : Z) (msgs : list message) : M rs (reply + llm_exn) := λ s h,
  let r := w_llm w attempt msgs h in
  (Ok r, (s, h ++ [(LlmInvoke (List.length msgs), match r with inl _ => true | inr _ => false end)])).

(** [left] counts the retries not yet made. *)
Fixpoint invoke_from (attempt : Z) (msgs : list message) (left : nat) : M rs reply :=
  r ← llm_invoke attempt msgs;
  match r with
  | inl a => mret a
  | inr e =>
      if transient_llm e then
        match left with
        | O => throw (llm_exn_exn e)
        | S left' => invoke_from attempt msgs left'
        end
      else throw (llm_exn_exn e)
  end.

Definition invoke_llm_with_retry (attempt : Z) (msgs : list message) : M rs reply :=
  invoke_from attempt msgs (List.length LLM_RETRY_DELAYS).

(** ** One turn: the locals after it, and whether the loop breaks *)

(** The call, its accounting and its debit. *)
Definition ask (attempt : Z) (l : locals) : M rs (list tool_call * locals) :=
  t0 ← now w;
  msg ← invoke_llm_with_retry attempt (messages l);
  t1 ← now w;
  fresh ← observe (w_fresh_id w);
  let calls := recover (r_calls msg) (r_content msg) fresh in
  toks ← lift (extract_token_usage (r_usage msg));
  cached ← lift (extract_cached_input_tokens (r_usage msg));
  cost ← cost_of_call toks.1 toks.2 (default 0%Z cached);
  _ ← budget_record toks.1 toks.2 cost;
  mret (calls, say (AssistantMessage (r_content msg) calls)
                 (account toks.1 toks.2 cached cost (t1 - t0)%Q l)).

(** What the first tool call does. *)
Definition act (calls : list tool_call) (l : locals) : M rs (locals * bool) :=
  match calls with
  | [] => mret (say (HumanMessage NUDGE) l, false)
  | c :: _ =>
      let l := log_tool c l in
      if bool_decide (tc_name c = "submit_fix") then
        let fixes := arg "fixes" (PList []) c in
        if truthy fixes then _ ← lift (need_len fixes); mret (submit c fixes l, true)
        else mret (l, true)
      else if bool_decide (tc_name c = "abort_fix") then mret (l, true)
      else
        s ← get;
        result ← observe (λ h, execute_tool (tc_name c) (tc_args c)
                            (λ p, io_res w (w_fetch_file w (PStr p) (files_of s) h)));
        text ← lift result;
        mret (say (ToolMessage (tc_id c) text) l, false)
  end.

Definition turn (attempt : Z) (l : locals) : M rs (locals * bool) :=
  reason ← budget_check w;
  match reason with
  | Some _ => mret (l, true)
  | None => asked ← ask attempt l; act asked.1 asked.2
  end.

(** [while step_count < MAX_STEPS], [n] turns from its end. *)
Fixpoint turns (attempt : Z) (n : nat) (l : locals) : M rs locals :=
  match n with
  | O => mret l
  | S n' => r ← turn attempt l; if r.2 : bool then mret r.1 else turns attempt n' r.1
  end.

(** ** The node *)

(** The suspect file and the files of the last fixes, once each. *)
Fixpoint add_paths (acc fixes : list pyval) : res (list pyval) :=
  match fixes with
  | [] => Ok acc
  | f :: fixes' =>
      fp ← py_get f "file_path" PNone;
      add_paths (if truthy fp && negb (existsb (py_eqb fp) acc) then acc ++ [fp] else acc) fixes'
  end.

Definition touched_paths (st : state) : res (list pyval) :=
  fixes ← prior_fixes st;
  let sp := sget "suspect_file_path" st in
  add_paths (if truthy sp then [sp] else []) fixes.

(** The paths that can be read now, with their contents. *)
Fixpoint read_all (paths : list pyval) : M rs (list (pyval * string)) :=
  match paths with
  | [] => mret []
  | p :: paths' =>
      r ← read_file w p;
      rest ← read_all paths';
      mret (match r with Ok content => (p, content) :: rest | Raise _ => rest end)
  end.

(** [current_files]: an unhashable path fails inside the same [try]. *)
Definition refresh (st : state) : M rs (list (string * string)) :=
  if (0 <? counter "fix_retry_count" st)%Z then
    paths ← lift (touched_paths st);
    l ← read_all (List.filter hashable paths);
    mret (map (λ '(p, content), (py_str p, content)) l)
  else mret [].

Definition start (st : state) (msgs : list message) : res locals :=
  max_in ← int_field "max_input_tokens" st;
  calls ← int_field "llm_call_count" st;
  prompt ← int_field "total_prompt_tokens" st;
  completion ← int_field "total_completion_tokens" st;
  wallclock ← py_float (py_or (sget "total_llm_wallclock_s" st) (PFloat 0%Q));
  ms ← py_iter (py_or (sget "llm_call_wallclock_ms" st) (PList []));
  Ok (mkLocals msgs 0 PNone PNone PNone [] max_in calls prompt completion wallclock
        (as_int (sget "total_cached_input_tokens" st)) (num_of (sget "total_cost_usd" st)) ms).

Definition opt_q (o : option Q) : pyval := match o with Some q => PFloat q | None => PNone end.

Definition loop_update (st : state) (l : locals) (backend : option string) (no_fix : Z) : state :=
  dict [("llm_result", llm_result l);
        ("react_step_count", PInt (step_count l));
        ("react_messages", PList (map message_val (messages l)));
        ("react_tool_calls", PList (tool_call_log l));
        ("react_confidence", l_confidence l);
        ("react_reasoning", reasoning l);
        ("max_input_tokens", PInt (max_input_tokens l));
        ("llm_call_count", PInt (llm_call_count l));
        ("total_prompt_tokens", PInt (total_prompt_tokens l));
        ("total_completion_tokens", PInt (total_completion_tokens l));
        ("total_cached_input_tokens",
           match total_cached_input_tokens l with Some z => PInt z | None => PNone end);
        ("total_cost_usd", opt_q (round6 <$> total_cost_usd l));
        ("total_llm_wallclock_s", PFloat (round6 (total_llm_wallclock_s l)));
        ("llm_call_wallclock_ms", PList (llm_call_wallclock_ms l));
        ("llm_backend_name", py_or (opt_str backend) (sget "llm_backend_name" st));
        ("no_fix_retry_count", PInt no_fix);
        ("memory_hint", sget "memory_hint" st);
        ("memory_matches_count", sget "memory_matches_count" st);
        ("test_passed", PNone);
        ("test_output", PNone);
        ("apply_error", PNone)].

(** The loop and what it returns, on the state the hooks left. *)
Definition react_on (attempt : Z) (st : state) : M rs state :=
  current_files ← refresh st;
  msgs ← lift (build_initial_messages st current_files);
  l0 ← lift (start st msgs);
  l ← turns attempt MAX_STEPS l0;
  backend ← observe (w_backend w);
  no_fix ← lift (int_field "no_fix_retry_count" st);
  mret (loop_update st l backend
          (match llm_result l with PNone => no_fix + 1 | _ => no_fix end)%Z).

Definition react_loop (st : state) : M rs state :=
  fixes ← lift (int_field "fix_retry_count" st);
  no_fixes ← lift (int_field "no_fix_retry_count" st);
  ready ← observe (w_llm_ready w);
  _ ← lift ready;
  st ← match hooks cfg with
       | Some r => run_hooks PRE_REACT_LOOP r st
       | None => mret st
       end;
  react_on (fixes + no_fixes)%Z st.

End node.
End ReactLoop.
