(* ===== verification/MiniSwe.v ===== *)
(** * The mini-swe-agent driver

    Model of [bf_worker/agents/mini_swe_agent.py], with the step budgets and the
    back-edge of [bf_worker/agents/mini_phases.py]: which loop, environment and
    model a run is built from, the workflow modes, and the result a run reports.
    The agents themselves - the third-party loop, its vendored copy, or the
    resumable loop of [MiniResume] - are what [w_run] answers. *)

From S2P Require Import Prelude PyStr PyJson Effects Files StepCheckpoint MiniResume ReactLoop.
Local Open Scope string_scope.
Local Open Scope list_scope.

Module MiniSwe.
Import StepCheckpoint.
Notation dict_update := MiniResume.dict_update.

(** ** Which implementation *)

Definition MINI_IMPL_UPSTREAM : string := "upstream".
Definition MINI_IMPL_VENDORED : string := "vendored".
Definition VENDORED_DOCKER_ENV_CLASS : string := "agents.vendor.mini.docker_env.DockerEnvironment".
Definition RESUMABLE_DOCKER_ENV_CLASS : string := "agents.mini_resume_env.ResumableDockerEnvironment".
Definition DOCKER_FAMILY_ENV_CLASSES : list string :=
  ["docker"; "swerex_modal"; VENDORED_DOCKER_ENV_CLASS; RESUMABLE_DOCKER_ENV_CLASS].

Definition mini_impl (e : env) : res string :=
  let impl := str_lower (str_strip (getenv_or e "MINI_IMPL" MINI_IMPL_UPSTREAM)) in
  if mem impl [MINI_IMPL_UPSTREAM; MINI_IMPL_VENDORED] then Ok impl
  else Raise (value_error ("MINI_IMPL=" +:+ repr_str impl +:+ " is not valid (expected "
                +:+ repr_str MINI_IMPL_UPSTREAM +:+ " or " +:+ repr_str MINI_IMPL_VENDORED +:+ ")")).

Definition resume_enabled (e : env) : res bool :=
  let backend := str_lower (str_strip (getenv_or e "BF_STEP_CHECKPOINT" "none")) in
  if bool_decide (backend = "none") then Ok false
  else
    impl ← mini_impl e;
    if bool_decide (impl = MINI_IMPL_VENDORED) then Ok true
    else Raise (value_error ("BF_STEP_CHECKPOINT=" +:+ repr_str backend +:+ " requires MINI_IMPL="
           +:+ repr_str MINI_IMPL_VENDORED
           +:+ " (resume support lives in the vendored loop; upstream offers no seam for it)")).

Inductive agent_class := Upstream | Vendored | Resumable.

Definition default_agent_class (e : env) : res agent_class :=
  resume ← resume_enabled e;
  if (resume : bool) then Ok Resumable
  else
    impl ← mini_impl e;
    Ok (if bool_decide (impl = MINI_IMPL_VENDORED) then Vendored else Upstream).

Definition default_environment_class (e : env) : res string :=
  resume ← resume_enabled e;
  if (resume : bool) then Ok RESUMABLE_DOCKER_ENV_CLASS
  else
    impl ← mini_impl e;
    Ok (if bool_decide (impl = MINI_IMPL_VENDORED) then VENDORED_DOCKER_ENV_CLASS else "docker").

Definition ambiguous_policy (e : env) : res string :=
  let policy := str_lower (str_strip (getenv_or e "BF_STEP_ON_AMBIGUOUS" "rerun")) in
  if mem policy ["rerun"; "restart"] then Ok policy
  else Raise (value_error ("BF_STEP_ON_AMBIGUOUS=" +:+ repr_str policy
                +:+ " is not valid (expected 'rerun' or 'restart')")).

(** ** The environment and the model *)

Section config.
Context `{FloatRepr}.

(** [dict(v)] of what a configuration holds: a mapping. *)
Definition to_dict (v : pyval) : res doc :=
  match v with PDict d => Ok d | _ => Raise (type_error "object is not a mapping") end.
Definition or_empty (v : pyval) : pyval := py_or v (PDict []).

Definition swebench_docker_image_name (instance : doc) : res pyval :=
  let name := py_or (dget "image_name" instance) (dget "docker_image" instance) in
  if truthy name then Ok name
  else
    iid ← py_getitem (PDict instance) "instance_id";
    match iid with
    | PStr s => Ok (PStr (str_lower ("docker.io/swebench/sweb.eval.x86_64."
                  +:+ str_replace "__" "_1776_" s +:+ ":latest")))
    | _ => Raise (attribute_error ("'" +:+ type_name iid +:+ "' object has no attribute 'replace'"))
    end.

(** The configuration [get_environment] is called with. *)
Definition environment_config (e : env) (mini_config instance : doc) (resume_key run_fingerprint : string) :
    res doc :=
  c ← to_dict (or_empty (dget "environment" mini_config));
  c ← (if negb (truthy (dget "environment_class" c)) || bool_decide (dget "environment_class" c = PStr "docker")
       then cls ← default_environment_class e; Ok (dict_set "environment_class" (PStr cls) c)
       else Ok c);
  ee ← to_dict (or_empty (dget "env" c));
  let ee := dict_setdefault "PYTHONHASHSEED" (PStr "0") (dict_setdefault "PYTHONUNBUFFERED" (PStr "1") ee) in
  let c := dict_set "env" (PDict ee) c in
  let c := if str_nonempty resume_key
           then dict_set "sdlcma_run_fingerprint" (PStr run_fingerprint)
                  (dict_set "sdlcma_resume_key" (PStr resume_key) c)
           else c in
  let c := match getenv_or e "BF_MINI_CONTAINER_TIMEOUT" "" with
           | EmptyString => c
           | t => dict_setdefault "container_timeout" (PStr t) c
           end in
  image ← swebench_docker_image_name instance;
  match dget "environment_class" c with
  | PStr ec =>
      if mem ec DOCKER_FAMILY_ENV_CLASSES then Ok (dict_set "image" image c)
      else if mem ec ["singularity"; "contree"]
      then match image with
           | PStr s => Ok (dict_set "image" (PStr ("docker://" +:+ s)) c)
           | _ => Raise (type_error "can only concatenate str (not a value) to str")
           end
      else Ok c
  | _ => Ok c
  end.

(** A name without a provider is one of an endpoint that speaks the OpenAI API. *)
Definition litellm_model_name (name : string) : string :=
  if str_nonempty name && negb (str_contains "/" name) then "openai/" +:+ name else name.

Record worker_settings := mkSettings { llm_api_base_url : string; llm_api_key : string; llm_model : string }.

Definition or_str (a b : string) : string := if str_nonempty a then a else b.

Definition build_gateway_model_config (cfg : worker_settings) (base : option doc) : res doc :=
  let c := default [] base in
  kw ← to_dict (or_empty (dget "model_kwargs" c));
  let kw := if str_nonempty (llm_api_base_url cfg)
            then dict_set "api_key" (PStr (or_str (llm_api_key cfg) "EMPTY"))
                   (dict_set "api_base" (PStr (llm_api_base_url cfg)) kw)
            else kw in
  name ← (if str_nonempty (llm_model cfg) then Ok (llm_model cfg)
          else match py_or (dget "model_name" c) (PStr "") with
               | PStr s => Ok s
               | _ => Raise (type_error "argument of this type is not iterable")
               end);
  Ok (dict_set "model_kwargs" (PDict kw) (dict_set "model_name" (PStr (litellm_model_name name)) c)).

End config.

(** ** What a run reports *)

(** What is read off a mini agent after it ran: its calls, its cost, its
    conversation, and the telemetry of a bound one. *)
Record mini := mkMini {
  n_calls : Z;
  cost : Q;
  messages : list pyval;
  resume_stats : option (Z * option Z * Z)
}.

Section report.
Context `{FloatRepr}.

Definition outcome_from (exit_status submission : pyval) : res string :=
  if bool_decide (exit_status = PStr "Submitted") then
    match submission with
    | PStr s => Ok (if str_nonempty (str_strip s) then "fixed" else "no_fix")
    | v => Raise (attribute_error ("'" +:+ type_name v +:+ "' object has no attribute 'strip'"))
    end
  else Ok "no_fix".

Definition calls (agents : list mini) : Z := foldr Z.add 0%Z (map n_calls agents).

(** [(m.get("extra") or {}).get(k)] *)
Definition extra_get (m : pyval) (k : string) : res pyval :=
  x ← py_get m "extra" PNone; py_get (or_empty x) k PNone.

Definition usage_of (m : pyval) : res (option doc) :=
  resp ← extra_get m "response";
  Ok (match resp with
      | PDict r => match dget "usage" r with PDict u => Some u | _ => None end
      | _ => None
      end).

Definition int_or_0 (v : pyval) : res Z := py_int (py_or v (PInt 0)).

Record usage := mkUsage { prompt : Z; compl : Z; cached : Z; max_input : Z; saw_usage : bool; saw_cached : bool }.

Definition add_usage (acc : usage) (u : doc) : res usage :=
  pt ← int_or_0 (dget "prompt_tokens" u);
  ct ← int_or_0 (dget "completion_tokens" u);
  let acc := mkUsage (prompt acc + pt) (compl acc + ct) (cached acc) (Z.max (max_input acc) pt) true (saw_cached acc) in
  match dget "prompt_tokens_details" u with
  | PDict details =>
      match dget "cached_tokens" details with
      | PNone => Ok acc
      | v => c ← int_or_0 v;
             Ok (mkUsage (prompt acc) (compl acc) (cached acc + c) (max_input acc) true true)
      end
  | _ => Ok acc
  end.

Fixpoint sum_usage (acc : usage) (ms : list pyval) : res usage :=
  match ms with
  | [] => Ok acc
  | m :: ms' =>
      u ← usage_of m;
      acc ← match u with Some u => add_usage acc u | None => Ok acc end;
      sum_usage acc ms'
  end.

Definition token_stats (agents : list mini) : res doc :=
  u ← sum_usage (mkUsage 0 0 0 0 false false) (flat_map messages agents);
  Ok (if negb (saw_usage u) then []
      else [("total_prompt_tokens", PInt (prompt u)); ("total_completion_tokens", PInt (compl u));
            ("max_input_tokens", PInt (max_input u));
            ("total_cached_input_tokens", if saw_cached u then PInt (cached u) else PNone)]).

(** The first stage among the actions of a turn. *)
Fixpoint first_stage (actions : list pyval) : res (option Z) :=
  match actions with
  | [] => Ok None
  | a :: actions' =>
      st ← py_get a "stage" PNone;
      match st with
      | PNone => first_stage actions'
      | v => z ← py_int v; Ok (Some z)
      end
  end.

Fixpoint stages_of (ms : list pyval) : res (list Z) :=
  match ms with
  | [] => Ok []
  | m :: ms' =>
      role ← py_get m "role" PNone;
      st ← (if bool_decide (role = PStr "assistant") then
              acts ← extra_get m "actions";
              acts ← py_iter (py_or acts (PList []));
              first_stage acts
            else Ok None);
      rest ← stages_of ms';
      Ok (match st with Some z => z :: rest | None => rest end)
  end.
Definition stage_sequence (a : mini) : res (list Z) := stages_of (messages a).

Fixpoint stage_back_edges (l : list Z) : Z :=
  match l with
  | x :: ((y :: _) as l') => (if (y <? x)%Z then 1 else 0) + stage_back_edges l'
  | _ => 0
  end%Z.

Definition resume_totals (agents : list mini) : doc :=
  let stats := omap resume_stats agents in
  match stats with
  | [] => []
  | _ =>
      let from_steps := omap (λ s, s.1.2) stats in
      [("step_resume_count", PInt (foldr Z.add 0 (map (λ s, s.1.1) stats)));
       ("step_resumed_from_step",
        match from_steps with [] => PNone | x :: l => PInt (foldl Z.max x l) end);
       ("step_replayed_command_count", PInt (foldr Z.add 0 (map snd stats)))]%Z
  end.

Definition phase_extra (agent1 agent2 : mini) (handoff : pyval) : doc :=
  [("phase1_handoff", handoff); ("phase1_calls", PInt (n_calls agent1)); ("phase2_calls", PInt (n_calls agent2))].

Definition v3_extra (handoff : pyval) (back_edges : nat) : doc :=
  [("phase1_handoff", handoff); ("v3_back_edges", PInt (Z.of_nat back_edges))].

Definition stage_extra (stage_report : bool) (a : mini) : res doc :=
  if stage_report then
    seq ← stage_sequence a;
    Ok [("stage_sequence", PList (map PInt seq)); ("stage_back_edges", PInt (stage_back_edges seq))]
  else Ok [].

Definition build_final_state (workflow_mode : Z) (instance : doc) (agents : list mini)
    (submission exit_status : pyval) (elapsed : pyval) (extra : doc) : res doc :=
  tokens ← token_stats agents;
  let total_cost := foldl Qplus 0%Q (map cost agents) in
  let state :=
    [("swebench_instance_id", dget "instance_id" instance); ("model_patch", submission);
     ("mini_exit_status", exit_status); ("llm_call_count", PInt (calls agents));
     ("total_llm_wallclock_s", elapsed); ("workflow_mode", PInt workflow_mode)] in
  let state := dict_update state tokens in
  let state := if Qle_bool total_cost 0 then state
               else dict_set "cost_source" (PStr "mini_litellm")
                      (dict_set "total_cost_usd" (PFloat total_cost) state) in
  Ok (dict_update (dict_update state (resume_totals agents)) extra).

Record FixOutput := mkFixOutput {
  outcome : string;
  out_bug_id : string;
  error : option string;
  iterations : Z;
  final_state : doc
}.

End report.

(** ** Background knowledge *)

Definition BACKGROUND_INSTANCE : string := "django__django-15098".

Definition BACKGROUND_NOTE : string :=
  "## Background knowledge" +:+ nl +:+ nl
  +:+ "The following non-code background reference may be useful. Treat it as "
  +:+ "context, not as a patch or repository-specific fact." +:+ nl +:+ nl
  +:+ "If this background describes a published standard or specification, use "
  +:+ "the standard's documented structure as a constraint when designing the "
  +:+ "fix. Prefer project-consistent parsing or validation that follows the "
  +:+ "standard's subtag/field shapes over a broad pattern that merely accepts "
  +:+ "more separators or arbitrary word chunks. Do not hard-code the examples; "
  +:+ "generalize from the structural rules in the reference." +:+ nl +:+ nl.

(** [read] reads the file at [path]. *)
Definition task_with_background_knowledge `{FloatRepr} (path : string) (read : res string)
    (instance : doc) (task : pyval) : res (pyval * doc) :=
  let missing why :=
    [("background_knowledge_injected", PBool false); ("background_knowledge_path", PStr path);
     ("background_knowledge_error", PStr why)] in
  match py_or (dget "instance_id" instance) (PStr "") with
  | PList _ => Raise (type_error "unhashable type: 'list'")
  | PDict _ => Raise (type_error "unhashable type: 'dict'")
  | iid =>
      if negb (bool_decide (iid = PStr BACKGROUND_INSTANCE)) then
        Ok (task, [("background_knowledge_injected", PBool false)])
      else match str_strip <$> read with
      | Raise e => if Files.is_os_error e then Ok (task, missing (exn_msg e)) else Raise e
      | Ok text =>
          if negb (str_nonempty text) then Ok (task, missing "empty file")
          else Ok (PStr (py_str task +:+ nl +:+ nl +:+ BACKGROUND_NOTE +:+ text +:+ nl),
                   [("background_knowledge_injected", PBool true); ("background_knowledge_path", PStr path);
                    ("background_knowledge_chars", PInt (Z.of_nat (String.length text)))])
      end
  end.


(** ** The driver

    What a driver does, in order. *)
Inductive event :=
| BuildModel (cfg : doc)
| BuildEnv (cfg : doc)
| Construct (cls : agent_class) (cfg : doc) (bound : option (string * string))
| RunAgent (ordinal : nat) (task : pyval) (kwargs : doc)
| Release.

(** A run of a mini agent: what it returns or raises with the agent as it is then,
    or the end of the process. *)
Inductive ran := Returned (info : doc) (a : mini) | Crashed (e : exn) (a : mini) | Interrupted.

(** How a part of the driver ends: [Killed] is an exception that is no
    [Exception], and [OutOfFuel] does not happen, as is proved. *)
Inductive ends (A : Type) := Done (a : A) | Exc (e : exn) | Killed | OutOfFuel.
#[global] Arguments Done {A} _.
#[global] Arguments Exc {A} _.
#[global] Arguments Killed {A}.
#[global] Arguments OutOfFuel {A}.

Record driver := mkDriver { agent_seq : nat; log : list event }.

Definition D (A : Type) : Type := driver → ends A * driver.
#[export] Instance D_ret : MRet D := λ A a s, (Done a, s).
#[export] Instance D_bind : MBind D := λ A B f m s,
  match m s with
  | (Done a, s') => f a s'
  | (Exc e, s') => (Exc e, s')
  | (Killed, s') => (Killed, s')
  | (OutOfFuel, s') => (OutOfFuel, s')
  end.

Definition of_res {A} (r : res A) : D A := λ s,
  match r with Ok a => (Done a, s) | Raise e => (Exc e, s) end.
Definition emit (ev : event) : D unit := λ s, (Done tt, mkDriver (agent_seq s) (log s ++ [ev])).

(** The templates of the phases, which only the agents read. *)
Record templates := mkTemplates {
  STAGE_REPORT_SUFFIX : string;
  INVESTIGATE_SYSTEM_TEMPLATE : string;
  INVESTIGATE_INSTANCE_TEMPLATE : string;
  SOLVE_SYSTEM_TEMPLATE : string;
  SOLVE_INSTANCE_TEMPLATE : string;
  INVESTIGATE_INSTANCE_TEMPLATE_V3 : string;
  SOLVE_INSTANCE_TEMPLATE_V3 : string
}.

Definition INVESTIGATE_STEP_LIMIT : Z := 60.
Definition SOLVE_STEP_LIMIT : Z := 250.
Definition MAX_BACK_EDGES : nat := 2.
Definition REINVEST_MARKER : string := "REQUEST_REINVESTIGATION".

Definition phase_agent_config (base : doc) (system_template instance_template : string) (step_limit : Z)
    (output_path : option string) : doc :=
  let c := dict_set "step_limit" (PInt step_limit)
             (dict_set "instance_template" (PStr instance_template)
                (dict_set "system_template" (PStr system_template) base)) in
  match output_path with Some p => dict_set "output_path" (PStr p) c | None => c end.

(** What the driver meets: the process environment, the third-party factories and
    agents, the disk, and a clock that reads its log. *)
Record world := mkWorld {
  w_env : env;
  w_expanduser : string;
  w_writable : string → res unit;
  w_get_model : doc → res unit;
  w_get_environment : doc → res unit;
  w_startup : doc → string → res doc;
  w_has_release : bool;
  w_construct : list event → agent_class → doc → res unit;
  w_run : list event → nat → pyval → doc → ran;
  w_clock : list event → Q;
  w_read_background : res string
}.

Record mini_swe_agent := mkAgent {
  has_model : bool;
  has_env : bool;
  mini_config : doc;
  workflow_mode : Z;
  trajectory_dir : option string;
  background_path : string
}.

(** [round(q, 3)] *)
Definition round3 (q : Q) : Q := (ReactLoop.round_half_even (q * 1000) # 1000)%Q.

Section driver.
Context `{FloatRepr} (w : world) (t : templates) (self : mini_swe_agent).

Definition clock : D Q := λ s, (Done (w_clock w (log s)), s).

(** The resume state of one [fix]. *)
Record resume_state := mkResume { r_store : bool; r_key : string; r_fp : string }.

Definition init_resume (bug_id : string) (instance : doc) (task : pyval) : res resume_state :=
  on ← resume_enabled (w_env w);
  if negb on || negb (str_nonempty bug_id) then Ok (mkResume false bug_id "")
  else
    _ ← ambiguous_policy (w_env w);
    store ← build_step_checkpoint_store (w_env w) (w_expanduser w) (w_writable w) None;
    model ← to_dict (or_empty (dget "model" (mini_config self)));
    Ok (mkResume (match store with NoBackend => false | FileBackend _ _ => true end) bug_id
          (run_fingerprint
             [("instance_id", dget "instance_id" instance); ("workflow_mode", PInt (workflow_mode self));
              ("model_name", dget "model_name" model);
              ("agent_config", or_empty (dget "agent" (mini_config self))); ("task", task)])).

Definition build_model : D unit :=
  m ← of_res (to_dict (default (PDict []) (dict_get "model" (mini_config self))));
  let c := if (workflow_mode self =? 2)%Z
           then dict_set "model_class" (PStr "agents.mini_stage_model.StageReportingModel") m else m in
  _ ← emit (BuildModel c); of_res (w_get_model w c).

Definition build_env (rs : resume_state) (instance : doc) : D unit :=
  c ← of_res (environment_config (w_env w) (mini_config self) instance
                (if r_store rs then r_key rs else "") (r_fp rs));
  _ ← emit (BuildEnv c);
  _ ← of_res (w_get_environment w c);
  run ← of_res (to_dict (or_empty (dget "run" (mini_config self))));
  match dget "env_startup_command" run with
  | PStr ((String _ _) as startup) =>
      out ← of_res (w_startup w instance startup);
      if bool_decide (dget "returncode" out = PInt 0) then mret tt
      else of_res (Raise (Exn "RuntimeError" ("env startup command failed: " +:+ py_repr (PDict out))))
  | _ => mret tt
  end.

(** What [release] raises is logged and dropped. *)
Definition release_env : D unit :=
  if w_has_release w then emit Release else mret tt.

(** The single place where agents are made; the ordinal counts them. *)
Definition construct_agent (rs : resume_state) (cfg : doc) : D nat :=
  cls ← of_res (default_agent_class (w_env w));
  (λ s, let ordinal := agent_seq s in
        let bound := if r_store rs
                     then Some ("agent-" +:+ str_of_nat ordinal,
                                run_fingerprint [("run", PStr (r_fp rs)); ("ordinal", PInt (Z.of_nat ordinal))])
                     else None in
        match w_construct w (log s) cls cfg with
        | Raise e => (Exc e, s)
        | Ok _ => (Done ordinal, mkDriver (S ordinal) (log s ++ [Construct cls cfg bound]))
        end) : D nat.

(** [agent.run(task, **kwargs)] inside its [try]. *)
Definition run_agent (ordinal : nat) (task : pyval) (kwargs : doc) : D (mini * (exn + doc)) := λ s,
  let s' := mkDriver (agent_seq s) (log s ++ [RunAgent ordinal task kwargs]) in
  match w_run w (log s) ordinal task kwargs with
  | Returned info a => (Done (a, inr info), s')
  | Crashed e a => (Done (a, inl e), s')
  | Interrupted => (Killed, s')
  end.

Definition traj_path (instance : doc) (suffix : string) : option string :=
  match trajectory_dir self with
  | Some dir =>
      let iid := py_str (py_or (dget "instance_id" instance) (PStr "unknown")) in
      Some (dir +:+ "/" +:+ iid +:+ (if str_nonempty suffix then "." +:+ suffix +:+ ".json" else ".traj.json"))
  | None => None
  end.

(** [info.get(k) or ""] *)
Definition info_value (k : string) (info : doc) : pyval := py_or (dget k info) (PStr "").

Definition base_agent : D doc := of_res (to_dict (or_empty (dget "agent" (mini_config self)))).

(** A result with the state of the agents so far. *)
Definition finish (instance : doc) (bug_id out : string) (err : option string) (agents : list mini)
    (submission exit_status : pyval) (t0 : Q) (extra : doc) : D FixOutput :=
  t1 ← clock;
  st ← of_res (build_final_state (workflow_mode self) instance agents submission exit_status
                 (PFloat (round3 (t1 - t0))) extra);
  mret (mkFixOutput out bug_id err (calls agents) st).

Definition finish_info (instance : doc) (bug_id : string) (agents : list mini) (info : doc) (t0 : Q)
    (extra : res doc) : D FixOutput :=
  let exit_status := info_value "exit_status" info in
  let submission := info_value "submission" info in
  out ← of_res (outcome_from exit_status submission);
  extra ← of_res extra;
  finish instance bug_id out None agents submission exit_status t0 extra.

Definition finish_crash (instance : doc) (bug_id place : string) (agents : list mini) (e : exn) (t0 : Q)
    (extra : doc) : D FixOutput :=
  finish instance bug_id "error" (Some (place +:+ exn_msg e)) agents (PStr "") (PStr (exn_class e)) t0 extra.

(** *** Modes 0, 2 and 4: one loop *)

Definition build_mini_agent (rs : resume_state) (output_path : option string) (suffix : string) : D nat :=
  c ← base_agent;
  let c := match output_path with Some p => dict_set "output_path" (PStr p) c | None => c end in
  c ← (if str_nonempty suffix then
         match py_or (dget "instance_template" c) (PStr "") with
         | PStr it => mret (dict_set "instance_template" (PStr (it +:+ suffix)) c)
         | _ => of_res (Raise (type_error "can only concatenate str (not a value) to str"))
         end
       else mret c);
  construct_agent rs c.

Definition run_single (rs : resume_state) (bug_id : string) (instance : doc) (task : pyval)
    (stage_report : bool) (extra : doc) : D FixOutput :=
  a ← build_mini_agent rs (traj_path instance "") (if stage_report then STAGE_REPORT_SUFFIX t else "");
  t0 ← clock;
  r ← run_agent a task [];
  match r.2 with
  | inl e =>
      stages ← of_res (stage_extra stage_report r.1);
      finish_crash instance bug_id "" [r.1] e t0 (dict_update extra stages)
  | inr info =>
      finish_info instance bug_id [r.1] info t0
        (stages ← stage_extra stage_report r.1; Ok (dict_update extra stages))
  end.

(** *** Mode 1: investigate, then solve *)

Definition phase (rs : resume_state) (instance : doc) (base : doc) (system_template instance_template : string)
    (step_limit : Z) (name : string) : D nat :=
  construct_agent rs (phase_agent_config base system_template instance_template step_limit (traj_path instance name)).

Definition run_phased (rs : resume_state) (bug_id : string) (instance : doc) (task : pyval) : D FixOutput :=
  base ← base_agent;
  t0 ← clock;
  a1 ← phase rs instance base (INVESTIGATE_SYSTEM_TEMPLATE t) (INVESTIGATE_INSTANCE_TEMPLATE t)
         INVESTIGATE_STEP_LIMIT "phase1";
  r1 ← run_agent a1 task [];
  match r1.2 with
  | inl e => finish_crash instance bug_id "phase1: " [r1.1] e t0
               [("phase1_handoff", PStr ""); ("phase1_calls", PInt (n_calls r1.1))]
  | inr info1 =>
      let handoff := info_value "submission" info1 in
      a2 ← phase rs instance base (SOLVE_SYSTEM_TEMPLATE t) (SOLVE_INSTANCE_TEMPLATE t)
             SOLVE_STEP_LIMIT "phase2";
      r2 ← run_agent a2 task [("handoff", handoff)];
      match r2.2 with
      | inl e => finish_crash instance bug_id "phase2: " [r1.1; r2.1] e t0 (phase_extra r1.1 r2.1 handoff)
      | inr info2 => finish_info instance bug_id [r1.1; r2.1] info2 t0 (Ok (phase_extra r1.1 r2.1 handoff))
      end
  end.

(** *** Mode 3: the solver may ask for another round *)

Definition is_reinvest (can_reinvestigate : bool) (exit_status submission : pyval) : res bool :=
  if can_reinvestigate && bool_decide (exit_status = PStr "Submitted") then
    match submission with
    | PStr s => Ok (startswith REINVEST_MARKER (str_lstrip is_space s))
    | v => Raise (attribute_error ("'" +:+ type_name v +:+ "' object has no attribute 'lstrip'"))
    end
  else Ok false.

Fixpoint v3_rounds (fuel : nat) (rs : resume_state) (bug_id : string) (instance : doc) (task : pyval)
    (base : doc) (t0 : Q) (agents : list mini) (prev prior_handoff reinvest : pyval) (back_edges : nat) :
    D FixOutput :=
  match fuel with
  | O => λ s, (OutOfFuel, s)
  | S fuel' =>
      let rnd := str_of_nat back_edges in
      ai ← phase rs instance base (INVESTIGATE_SYSTEM_TEMPLATE t) (INVESTIGATE_INSTANCE_TEMPLATE_V3 t)
             INVESTIGATE_STEP_LIMIT ("investigate" +:+ rnd);
      ri ← run_agent ai task [("reinvest_request", reinvest); ("prior_handoff", prior_handoff)];
      let agents := agents ++ [ri.1] in
      match ri.2 with
      | inl e => finish_crash instance bug_id ("investigate" +:+ rnd +:+ ": ") agents e t0 (v3_extra prev back_edges)
      | inr info_i =>
          let handoff := info_value "submission" info_i in
          let can_reinvestigate := (back_edges <? MAX_BACK_EDGES)%nat in
          a2 ← phase rs instance base (SOLVE_SYSTEM_TEMPLATE t) (SOLVE_INSTANCE_TEMPLATE_V3 t)
                 SOLVE_STEP_LIMIT ("solve" +:+ rnd);
          r2 ← run_agent a2 task [("handoff", handoff); ("can_reinvestigate", PBool can_reinvestigate);
                  ("back_edges_left", PInt (Z.of_nat MAX_BACK_EDGES - Z.of_nat back_edges))];
          let agents := agents ++ [r2.1] in
          match r2.2 with
          | inl e => finish_crash instance bug_id ("solve" +:+ rnd +:+ ": ") agents e t0 (v3_extra handoff back_edges)
          | inr info =>
              let submission := info_value "submission" info in
              again ← of_res (is_reinvest can_reinvestigate (info_value "exit_status" info) submission);
              if (again : bool) then
                v3_rounds fuel' rs bug_id instance task base t0 agents handoff handoff submission (S back_edges)
              else finish_info instance bug_id agents info t0 (Ok (v3_extra handoff back_edges))
          end
      end
  end.

Definition run_phased_v3 (rs : resume_state) (bug_id : string) (instance : doc) (task : pyval) : D FixOutput :=
  base ← base_agent;
  t0 ← clock;
  v3_rounds (S MAX_BACK_EDGES) rs bug_id instance task base t0 [] (PStr "") (PStr "") (PStr "") 0.

(** *** [fix] *)

Definition get_dict (v : pyval) : res doc :=
  match or_empty v with
  | PDict d => Ok d
  | v => Raise (attribute_error ("'" +:+ type_name v +:+ "' object has no attribute 'get'"))
  end.

(** The model and the environment are made once; the phases share them. *)
Definition run_workflow (rs : resume_state) (bug_id : string) (instance : doc) (task : pyval) (extra : doc) :
    D FixOutput :=
  _ ← ((λ s, (Done tt, mkDriver 0 (log s))) : D unit);
  _ ← (if has_model self then mret tt else build_model);
  _ ← (if has_env self then mret tt else build_env rs instance);
  if (workflow_mode self =? 1)%Z then run_phased rs bug_id instance task
  else if (workflow_mode self =? 3)%Z then run_phased_v3 rs bug_id instance task
  else run_single rs bug_id instance task (workflow_mode self =? 2)%Z extra.

(** The task, with the background knowledge of mode 4. *)
Definition task_of (metadata instance : doc) : res (pyval * doc) :=
  let task := py_or (dget "problem_statement" instance) (py_or (dget "task" metadata) (PStr "")) in
  if (workflow_mode self =? 4)%Z
  then task_with_background_knowledge (background_path self) (w_read_background w) instance task
  else Ok (task, []).

(** Only a normal return releases the environment the driver made. *)
Definition fix_mini (bug_id : string) (metadata : doc) : D FixOutput :=
  instance ← of_res (get_dict (dget "swebench_instance" metadata));
  te ← of_res (task_of metadata instance);
  rs ← of_res (init_resume bug_id instance te.1);
  out ← run_workflow rs bug_id instance te.1 te.2;
  _ ← (if has_env self then mret tt else release_env);
  mret out.

(** [finish_run]: the records of the run go, and nothing is raised. *)
Definition finish_run (rs : resume_state) (built : res backend) (s : StepCheckpoint.fs) : StepCheckpoint.fs :=
  if r_store rs then purge_run_records built (r_key rs) s else s.

End driver.
End MiniSwe.
