(* ===== verification/MiniSweSpec.v ===== *)
(** * What the mini-swe-agent driver promises

    Every mode ends after a bounded number of agents; the container is released
    after a normal return and survives anything else; the result is what the last
    agent answered; the agents of a run are bound in the order they are made. *)

From S2P Require Import Prelude PyStr PyJson Effects Files StepCheckpoint MiniResume ReactLoop MiniSwe.
Local Open Scope string_scope.
Local Open Scope list_scope.

Module MiniSweSpec.
Import StepCheckpoint MiniSwe.

(** ** Updates *)

Lemma dict_update_get d e k : k ∉ map fst e → dict_get k (dict_update d e) = dict_get k d.
Proof.
  unfold dict_update. revert d. induction e as [|[k' v] e IH]; intros d; [done|]. simpl.
  intros [Hne Hk]%not_elem_of_cons. rewrite IH by done. rewrite dict_get_set_ne; [done|congruence].
Qed.

Definition silent_on (k : string) (e : doc) : Prop := k ∉ map fst e.

Ltac silence := apply (bool_decide_unpack _); by vm_compute.

Lemma token_stats_silent `{FloatRepr} agents tokens :
  token_stats agents = Ok tokens → silent_on "model_patch" tokens.
Proof.
  unfold token_stats. intros (u & _ & [= <-])%res_bind_ok. unfold silent_on.
  destruct (saw_usage u); silence.
Qed.

Lemma resume_totals_silent agents : silent_on "model_patch" (resume_totals agents).
Proof. unfold resume_totals, silent_on. case_match; silence. Qed.

(** The patch of a result is the submission it was made from. *)
Lemma final_state_patch `{FloatRepr} mode instance agents submission exit_status elapsed extra st :
  build_final_state mode instance agents submission exit_status elapsed extra = Ok st →
  silent_on "model_patch" extra → dget "model_patch" st = submission.
Proof.
  unfold build_final_state. intros (tokens & Ht & [= <-])%res_bind_ok Hx. unfold dget.
  rewrite dict_update_get by done. rewrite dict_update_get by apply resume_totals_silent.
  assert (∀ d, dict_get "model_patch" (dict_update (("swebench_instance_id", dget "instance_id" instance)
    :: ("model_patch", submission) :: d) tokens) = Some submission) as Hp.
  { intros d. rewrite dict_update_get; [done|]. by eapply token_stats_silent. }
  case_match; [by rewrite Hp|]. rewrite !dict_get_set_ne by done. by rewrite Hp.
Qed.

Lemma background_silent `{FloatRepr} path read instance task task' extra :
  task_with_background_knowledge path read instance task = Ok (task', extra) → silent_on "model_patch" extra.
Proof.
  unfold task_with_background_knowledge, silent_on. intros Hx.
  repeat (case_match; simplify_eq/=; try silence).
Qed.

Lemma stage_extra_silent report a extra : stage_extra report a = Ok extra → silent_on "model_patch" extra.
Proof.
  unfold stage_extra. destruct report; [intros (q & _ & [= <-])%res_bind_ok|intros [= <-]]; silence.
Qed.

Lemma dict_update_silent d e k : silent_on k d → silent_on k e → silent_on k (dict_update d e).
Proof.
  unfold silent_on, dict_update. revert d. induction e as [|[k' v] e IH]; intros d Hd He; [done|]. simpl.
  apply not_elem_of_cons in He as [Hne He]. apply IH; [|done].
  intros Hin%dict_get_key. apply Hd, dict_get_key. rewrite dict_get_set_ne in Hin; [done|]. simpl in Hne. congruence.
Qed.

(** ** Triples *)

Section triples.
Context {A : Type}.

(** From where [P] holds, [m] ends where [Q] holds of what it returns and [E] holds
    of the driver it leaves behind otherwise; it does not run out of fuel. *)
Definition triple (P : driver → Prop) (m : D A) (Q : A → driver → Prop) (E : driver → Prop) : Prop :=
  ∀ s, P s → match m s with
             | (Done a, s') => Q a s'
             | (OutOfFuel, _) => False
             | (_, s') => E s'
             end.
End triples.

Lemma driver_ret {A} (a : A) (P : driver → Prop) (Q : A → driver → Prop) E :
  (∀ s, P s → Q a s) → triple P (mret a) Q E.
Proof. intros HQ s Hp. by apply HQ. Qed.

Lemma driver_bind {A B} P (m : D A) (f : A → D B) R Q E :
  triple P m R E → (∀ a, triple (R a) (f a) Q E) → triple P (m ≫= f) Q E.
Proof.
  intros Hm Hf s Hp. specialize (Hm s Hp). unfold mbind, D_bind.
  destruct (m s) as [[a|e| |] s']; try done. by apply Hf.
Qed.

Lemma driver_weaken {A} (P P' : driver → Prop) (m : D A) (Q Q' : A → driver → Prop) (E E' : driver → Prop) :
  triple P' m Q' E' → (∀ s, P s → P' s) → (∀ a s, Q' a s → Q a s) → (∀ s, E' s → E s) → triple P m Q E.
Proof.
  intros Hm HP HQ HE s Hp. specialize (Hm s (HP s Hp)). destruct (m s) as [[a|e| |] s']; auto.
Qed.

Lemma driver_res {A} (r : res A) (P E : driver → Prop) :
  (∀ s, P s → E s) → triple P (of_res r) (λ a s, r = Ok a ∧ P s) E.
Proof. intros HE s Hp. unfold of_res. destruct r; [done|]. by apply HE. Qed.

Lemma driver_raise {A} e (P E : driver → Prop) (Q : A → driver → Prop) :
  (∀ s, P s → E s) → triple P (of_res (Raise e)) Q E.
Proof. intros HE s Hp. by apply HE. Qed.

Lemma driver_clock w (P E : driver → Prop) : triple P (clock w) (λ _, P) E.
Proof. intros s Hp. done. Qed.


(** ** The log of one [fix] *)

Definition is_run (ev : event) : bool := match ev with RunAgent _ _ _ => true | _ => false end.
Definition is_release (ev : event) : bool := match ev with Release => true | _ => false end.
Definition runs (l : list event) : nat := List.length (List.filter is_run l).

Definition bound_of (ev : event) : list (agent_class * option (string * string)) :=
  match ev with Construct cls _ b => [(cls, b)] | _ => [] end.
Definition made (l : list event) : list (agent_class * option (string * string)) := flat_map bound_of l.

Section spec.
Context `{FloatRepr} (w : world) (t : templates) (self : mini_swe_agent) (rs : resume_state).

(** The agent that is made as number [i]. *)
Definition binding (i : nat) : option (string * string) :=
  if r_store rs
  then Some ("agent-" +:+ str_of_nat i,
             run_fingerprint [("run", PStr (r_fp rs)); ("ordinal", PInt (Z.of_nat i))])
  else None.

(** What holds of the driver all along: the agents so far are of the selected
    class and numbered in order, and nothing was released. *)
Record going (l0 : list event) (n : nat) (s : driver) : Prop := mkGoing {
  going_log : ∃ l, log s = l0 ++ l ∧ (runs l ≤ n)%nat ∧ existsb is_release l = false ∧
    Forall (λ b, default_agent_class (w_env w) = Ok b.1) (made l) ∧
    map snd (made l) = map binding (seq 0 (agent_seq s))
}.

Lemma going_more l0 n n' s : going l0 n s → (n ≤ n')%nat → going l0 n' s.
Proof. intros [(l & Hl & Hn & Hr)] Hle. constructor. exists l. split; [done|]. split; [lia|done]. Qed.

Lemma construct_triple l0 n cfg :
  triple (going l0 n) (construct_agent w rs cfg) (λ _, going l0 n) (going l0 n).
Proof.
  unfold construct_agent. eapply driver_bind; [by apply driver_res|]. intros cls s [Hcls [(l & Hl & Hn & Hr & Hc & Hb)]].
  destruct (w_construct w (log s) cls cfg); [|by constructor; exists l].
  constructor. cbn [log agent_seq]. eexists. rewrite Hl, <- app_assoc, seq_S, map_app, <- Hb. split; [reflexivity|].
  unfold runs, made in *. rewrite List.filter_app, length_app, existsb_app, flat_map_app, map_app. simpl.
  rewrite Hr. split; [lia|]. split; [done|]. split; [|done].
  apply Forall_app. split; [done|]. by constructor.
Qed.

(** The last thing that happened is the run that answered [r]. *)
Definition last_run (r : mini * (exn + doc)) (l : list event) : Prop :=
  ∃ pre a task kw, l = pre ++ [RunAgent a task kw] ∧
    w_run w pre a task kw = match r.2 with inl e => Crashed e r.1 | inr info => Returned info r.1 end.

Lemma run_triple l0 n a task kw :
  triple (going l0 n) (run_agent w a task kw) (λ r s, going l0 (S n) s ∧ last_run r (log s)) (going l0 (S n)).
Proof.
  intros s [(l & Hl & Hn & Hr & Hc & Hb)]. unfold run_agent.
  assert (going l0 (S n) (mkDriver (agent_seq s) (log s ++ [RunAgent a task kw]))) as Hg.
  { constructor. simpl. eexists. rewrite Hl, <- app_assoc. split; [reflexivity|].
    unfold runs, made in *. rewrite List.filter_app, length_app, existsb_app, flat_map_app, app_nil_r. simpl.
    rewrite Hr. split; [lia|done]. }
  destruct (w_run w (log s) a task kw) eqn:E; (done || (split; [done|]; by exists (log s), a, task, kw)).
Qed.

(** What an agent submits to have fixed the bug. *)
Definition submitted (info : doc) : Prop :=
  ∃ patch, info_value "exit_status" info = PStr "Submitted" ∧ info_value "submission" info = PStr patch ∧
    str_strip patch ≠ "".

Lemma outcome_from_spec info out :
  outcome_from (info_value "exit_status" info) (info_value "submission" info) = Ok out →
  (out = "fixed" ∧ submitted info) ∨ (out = "no_fix" ∧ ¬ submitted info).
Proof.
  unfold outcome_from, submitted. case_bool_decide as Hs; [|intros [= <-]; right; split; [done|]; by intros (? & ? & _)].
  destruct (info_value "submission" info) as [| | | | p | |]; try done. intros [= <-].
  destruct (str_strip p) as [|c r] eqn:E; [right|left]; (split; [done|]).
  - intros (q & _ & [= <-] & Hq). by rewrite E in Hq.
  - exists p. by rewrite E.
Qed.

(** A result is what the last agent answered. *)
Definition reported (out : FixOutput) (l : list event) : Prop :=
  ∃ pre a task kw, l = pre ++ [RunAgent a task kw] ∧
    match w_run w pre a task kw with
    | Returned info _ =>
        ((outcome out = "fixed" ∧ submitted info) ∨ (outcome out = "no_fix" ∧ ¬ submitted info)) ∧
        error out = None ∧ dget "model_patch" (final_state out) = info_value "submission" info
    | Crashed e _ =>
        outcome out = "error" ∧ error out ≠ None ∧ dget "model_patch" (final_state out) = PStr ""
    | Interrupted => False
    end.

Lemma finish_triple (P : driver → Prop) instance bug_id out err agents submission exit_status t0 extra :
  silent_on "model_patch" extra →
  triple P (finish w self instance bug_id out err agents submission exit_status t0 extra)
    (λ o s, P s ∧ outcome o = out ∧ error o = err ∧ dget "model_patch" (final_state o) = submission) P.
Proof.
  intros Hx. unfold finish. eapply driver_bind; [apply driver_clock|]. intros t1.
  eapply driver_bind; [by apply driver_res|]. intros st. apply driver_ret. intros s [Hst Hp].
  split; [done|]. split_and!; [done..|]. by eapply final_state_patch.
Qed.

Lemma finish_info_triple l0 n instance bug_id agents a info t0 extra :
  (∀ d, extra = Ok d → silent_on "model_patch" d) →
  triple (λ s, going l0 n s ∧ last_run (a, inr info) (log s)) (finish_info w self instance bug_id agents info t0 extra)
    (λ o s, going l0 n s ∧ reported o (log s)) (going l0 n).
Proof.
  intros Hx. unfold finish_info. cbv zeta. eapply driver_bind; [by apply driver_res; intros s [? _]|]. intros out.
  eapply driver_bind; [by apply driver_res; intros s (_ & ? & _)|]. intros d.
  intros s (Hd & Hout & Hs). specialize (Hx d Hd). apply outcome_from_spec in Hout. revert s Hs.
  eapply driver_weaken;
    [apply (finish_triple (λ s, going l0 n s ∧ last_run (a, inr info) (log s)) _ _ _ _ _ _ _ _ _ Hx)|done| |by intros s [? _]].
  intros o s ((Hg & pre & b & task & kw & Hl & Hw) & Ho). split; [done|]. exists pre, b, task, kw.
  split; [done|]. rewrite Hw. by destruct Ho as [-> Ho].
Qed.

Lemma finish_crash_triple l0 n instance bug_id place agents a e t0 extra :
  silent_on "model_patch" extra →
  triple (λ s, going l0 n s ∧ last_run (a, inl e) (log s)) (finish_crash w self instance bug_id place agents e t0 extra)
    (λ o s, going l0 n s ∧ reported o (log s)) (going l0 n).
Proof.
  intros Hx. eapply driver_weaken;
    [apply (finish_triple (λ s, going l0 n s ∧ last_run (a, inl e) (log s)) _ _ _ _ _ _ _ _ _ Hx)|done| |by intros s [? _]].
  intros o s ((Hg & pre & b & task & kw & Hl & Hw) & Ho & He & Hp). split; [done|]. exists pre, b, task, kw.
  split; [done|]. rewrite Hw. by rewrite He.
Qed.

(** A mode that runs at most [n] agents and reports what the last one answered. *)
Definition reports (l0 : list event) (n n' : nat) (m : D FixOutput) : Prop :=
  triple (going l0 n) m (λ o s, going l0 n' s ∧ reported o (log s)) (going l0 n').

Lemma base_triple l0 n : triple (going l0 n) (base_agent self) (λ _, going l0 n) (going l0 n).
Proof. unfold base_agent. eapply driver_weaken; [by apply (driver_res _ (going l0 n) (going l0 n))|done| |done]. by intros ?? [_ ?]. Qed.

Lemma run_then l0 n n' a task kw (k : mini * (exn + doc) → D FixOutput) :
  (S n ≤ n')%nat →
  (∀ r, triple (λ s, going l0 (S n) s ∧ last_run r (log s)) (k r) (λ o s, going l0 n' s ∧ reported o (log s)) (going l0 n')) →
  reports l0 n n' (r ← run_agent w a task kw; k r).
Proof.
  intros Hn Hk. eapply driver_bind; [|apply Hk]. eapply driver_weaken; [apply run_triple|done|done|].
  intros s Hs. by eapply going_more.
Qed.

(** A part that keeps to fewer runs than the whole. *)
Ltac within L :=
  eapply driver_weaken; [apply L|let Hh := fresh in intros ? Hh; exact Hh|first [intros ? ? [? ?]; split; [|done]|intros ? ? ?]|intros ? ?];
  cbv beta in *; try (eapply going_more; [eassumption|lia]).

Lemma single_reports l0 bug_id instance task report extra :
  silent_on "model_patch" extra → reports l0 0 1 (run_single w t self rs bug_id instance task report extra).
Proof.
  intros Hx. unfold run_single. apply driver_bind with (R := λ _, going l0 0).
  { unfold build_mini_agent. apply driver_bind with (R := λ _, going l0 0); [within base_triple|]. intros c.
    cbv zeta. apply driver_bind with (R := λ _, going l0 0); [|intros c'; within construct_triple].
    destruct (str_nonempty _); [|by apply driver_ret].
    destruct (py_or _ _); first [by apply driver_ret|apply driver_raise; intros s Hs; eapply going_more; [exact Hs|lia]]. }
  intros a. eapply driver_bind; [apply driver_clock|]. intros t0. apply run_then; [done|]. intros [m r].
  destruct r as [e|info]; cbn [fst snd].
  - eapply driver_bind; [apply driver_res; intros s [? _]; done|]. intros stages s [Hst Hs].
    apply stage_extra_silent in Hst. pose proof (dict_update_silent _ _ _ Hx Hst) as Hs'. revert s Hs. by apply finish_crash_triple.
  - apply finish_info_triple. intros d (stages & Hst & [= <-])%res_bind_ok. apply stage_extra_silent in Hst.
    by apply dict_update_silent.
Qed.

Lemma phase_triple l0 n instance base system_template instance_template limit name :
  triple (going l0 n) (phase w self rs instance base system_template instance_template limit name)
    (λ _, going l0 n) (going l0 n).
Proof. apply construct_triple. Qed.

Lemma phased_reports l0 bug_id instance task : reports l0 0 2 (run_phased w t self rs bug_id instance task).
Proof.
  unfold run_phased. apply driver_bind with (R := λ _, going l0 0); [within base_triple|]. intros base.
  eapply driver_bind; [apply driver_clock|]. intros t0.
  apply driver_bind with (R := λ _, going l0 0); [within phase_triple|]. intros a1.
  apply run_then; [lia|]. intros [m1 [e|info1]]; cbn [fst snd]; [within finish_crash_triple; silence|].
  apply driver_bind with (R := λ _, going l0 1).
  { eapply driver_weaken; [apply phase_triple|by intros s [? _]|done|]. intros s Hs. eapply going_more; [exact Hs|lia]. }
  intros a2. apply run_then; [lia|]. intros [m2 [e|info2]]; cbn [fst snd].
  - apply finish_crash_triple. silence.
  - apply finish_info_triple. intros ? [= <-]. silence.
Qed.

(** Each round has two runs, and the last round cannot ask for another. *)
Lemma v3_reports l0 bug_id instance task base t0 fuel agents prev prior reinvest back_edges n :
  (back_edges + fuel = S MAX_BACK_EDGES)%nat → (0 < fuel)%nat →
  reports l0 n (n + 2 * fuel)
    (v3_rounds w t self fuel rs bug_id instance task base t0 agents prev prior reinvest back_edges).
Proof.
  revert agents prev prior reinvest back_edges n. induction fuel as [|fuel IH]; [lia|].
  intros agents prev prior reinvest back_edges n Hb _. cbn [v3_rounds].
  apply driver_bind with (R := λ _, going l0 n); [within phase_triple|]. intros ai.
  apply run_then; [lia|]. intros [mi [e|info_i]]; cbn [fst snd]; [within finish_crash_triple; silence|].
  apply driver_bind with (R := λ _, going l0 (S n)).
  { eapply driver_weaken; [apply phase_triple|by intros s [? _]|done|]. intros s Hs. eapply going_more; [exact Hs|lia]. }
  intros a2. apply run_then; [lia|]. intros [m2 [e|info]]; cbn [fst snd]; [within finish_crash_triple; silence|].
  eapply driver_bind; [apply driver_res; intros s [Hg _]; eapply going_more; [exact Hg|lia]|]. intros again s [Er Hs]. revert s Hs.
  destruct again; [|within finish_info_triple; intros ? [= <-]; silence].
  unfold is_reinvest in Er. destruct (back_edges <? MAX_BACK_EDGES)%nat eqn:Hc; [apply Nat.ltb_lt in Hc|done].
  eapply driver_weaken; [apply (IH _ _ _ _ _ (S (S n))); lia|by intros s [? _]| |].
  - intros o s [Hg ?]. split; [|done]. eapply going_more; [exact Hg|lia].
  - intros s Hg. eapply going_more; [exact Hg|lia].
Qed.

Lemma emit_triple l0 n ev :
  is_run ev = false → is_release ev = false → bound_of ev = [] →
  triple (going l0 n) (emit ev) (λ _, going l0 n) (going l0 n).
Proof.
  intros H1 H2 H3 s [(l & Hl & Hn & Hr & Hc & Hb)]. constructor. cbn [log agent_seq].
  eexists. rewrite Hl, <- app_assoc. split; [reflexivity|]. unfold runs, made in *.
  rewrite List.filter_app, length_app, existsb_app, flat_map_app. simpl. rewrite H1, H2, H3, app_nil_r, Hr.
  split; [simpl; lia|done].
Qed.

Lemma res_triple {A} l0 n (r : res A) : triple (going l0 n) (of_res r) (λ _, going l0 n) (going l0 n).
Proof.
  eapply driver_weaken; [apply (driver_res _ (going l0 n) (going l0 n))|done| |done]; [done|]. by intros ? ? [_ ?].
Qed.

Lemma build_model_triple l0 : triple (going l0 0) (build_model w self) (λ _, going l0 0) (going l0 0).
Proof.
  unfold build_model. eapply driver_bind; [apply res_triple|]. intros m. cbv zeta.
  eapply driver_bind; [by apply emit_triple|]. intros ?. apply res_triple.
Qed.

Lemma build_env_triple l0 rs' instance :
  triple (going l0 0) (build_env w self rs' instance) (λ _, going l0 0) (going l0 0).
Proof.
  unfold build_env. eapply driver_bind; [apply res_triple|]. intros c.
  eapply driver_bind; [by apply emit_triple|]. intros ?.
  eapply driver_bind; [apply res_triple|]. intros ?. eapply driver_bind; [apply res_triple|]. intros run.
  destruct (dget "env_startup_command" run) as [| | | |[|ch cs]| |]; try by apply driver_ret.
  eapply driver_bind; [apply res_triple|]. intros out. case_bool_decide; [by apply driver_ret|].
  eapply driver_weaken; [apply (res_triple (A := unit))|done|done|done].
Qed.
End spec.

(** How many agents a mode runs at most. *)
Definition mode_runs (mode : Z) : nat :=
  if (mode =? 1)%Z then 2 else if (mode =? 3)%Z then 2 * S MAX_BACK_EDGES else 1.

Section fix_.
Context `{FloatRepr} (w : world) (t : templates) (self : mini_swe_agent).

Lemma modes_report rs l0 bug_id instance task extra :
  silent_on "model_patch" extra →
  reports w rs l0 0 (mode_runs (workflow_mode self))
    (if (workflow_mode self =? 1)%Z then run_phased w t self rs bug_id instance task
     else if (workflow_mode self =? 3)%Z then run_phased_v3 w t self rs bug_id instance task
     else run_single w t self rs bug_id instance task (workflow_mode self =? 2)%Z extra).
Proof.
  intros Hx. unfold mode_runs. destruct (workflow_mode self =? 1)%Z; [apply phased_reports|].
  destruct (workflow_mode self =? 3)%Z; [|by apply single_reports].
  unfold run_phased_v3. apply driver_bind with (R := λ _, going w rs l0 0).
  { eapply driver_weaken; [apply base_triple|let Hh := fresh in intros ? Hh; exact Hh|done|].
    intros s Hs. eapply going_more; [exact Hs|lia]. }
  intros base. eapply driver_bind; [apply driver_clock|]. intros t0.
  apply (v3_reports w t self rs l0 bug_id instance task base t0 (S MAX_BACK_EDGES)); [done|lia].
Qed.

Lemma workflow_triple rs l0 bug_id instance task extra :
  silent_on "model_patch" extra →
  triple (λ s, log s = l0) (run_workflow w t self rs bug_id instance task extra)
    (λ o s, going w rs l0 (mode_runs (workflow_mode self)) s ∧ reported w o (log s))
    (going w rs l0 (mode_runs (workflow_mode self))).
Proof.
  intros Hx. unfold run_workflow. apply driver_bind with (R := λ _, going w rs l0 0).
  { intros s <-. constructor. exists []. simpl. rewrite app_nil_r. split_and!; done || apply Forall_nil_2 || (unfold runs; simpl; lia). }
  intros _. apply driver_bind with (R := λ _, going w rs l0 0).
  { destruct (has_model self); [by apply driver_ret|]. eapply driver_weaken; [apply build_model_triple|done|done|].
    intros s Hs. eapply going_more; [exact Hs|lia]. }
  intros _. apply driver_bind with (R := λ _, going w rs l0 0); [|intros _; by apply modes_report].
  destruct (has_env self); [by apply driver_ret|]. eapply driver_weaken; [apply build_env_triple|done|done|].
  intros s Hs. eapply going_more; [exact Hs|lia].
Qed.

(** Where the release comes in. *)
Definition released (r : ends FixOutput) : list event :=
  match r with Done _ => if negb (has_env self) && w_has_release w then [Release] else [] | _ => [] end.

Lemma bind_D {A B} (m : D A) (k : A → D B) s :
  (m ≫= k) s = match m s with
               | (Done a, s') => k a s'
               | (Exc e, s') => (Exc e, s')
               | (Killed, s') => (Killed, s')
               | (OutOfFuel, s') => (OutOfFuel, s')
               end.
Proof. done. Qed.

Lemma bind_res {A B} (r : res A) (k : A → D B) s :
  (of_res r ≫= k) s = match r with Ok a => k a s | Raise e => (Exc e, s) end.
Proof. by destruct r. Qed.

Lemma task_silent metadata instance te : task_of w self metadata instance = Ok te → silent_on "model_patch" te.2.
Proof.
  unfold task_of. destruct (_ =? 4)%Z; [|intros [= <-]; silence].
  destruct te as [task' extra]. apply background_silent.
Qed.

(** What a [fix] leaves in the log: nothing, or the steps of a workflow and, after
    a normal return, the release of the environment. *)
Inductive fixes (bug_id : string) (metadata : doc) (s : driver) (r : ends FixOutput) (l : list event) : Prop :=
| fix_refused e : r = Exc e → l = [] → fixes bug_id metadata s r l
| fix_ran rs instance task s1 :
    r ≠ OutOfFuel → init_resume w self bug_id instance task = Ok rs →
    going w rs (log s) (mode_runs (workflow_mode self)) s1 → log s1 = log s ++ l →
    (∀ o, r = Done o → reported w o (log s1)) → fixes bug_id metadata s r l.

Lemma fix_spec bug_id metadata s :
  ∃ l, log (fix_mini w t self bug_id metadata s).2 = log s ++ l ++ released (fix_mini w t self bug_id metadata s).1 ∧
    fixes bug_id metadata s (fix_mini w t self bug_id metadata s).1 l.
Proof.
  unfold fix_mini. rewrite bind_res. destruct (get_dict _) as [instance|e];
    [|exists []; rewrite app_nil_r; split; [done|by eapply fix_refused]].
  rewrite bind_res. destruct (task_of w self metadata instance) as [te|e] eqn:Ht;
    [|exists []; rewrite app_nil_r; split; [done|by eapply fix_refused]].
  rewrite bind_res. destruct (init_resume w self bug_id instance te.1) as [rs|e] eqn:Hrs;
    [|exists []; rewrite app_nil_r; split; [done|by eapply fix_refused]].
  pose proof (workflow_triple rs (log s) bug_id instance te.1 te.2 (task_silent _ _ _ Ht) s eq_refl) as Hw.
  rewrite bind_D.
  destruct (run_workflow w t self rs bug_id instance te.1 te.2 s) as [[o|e| |] s1]; [destruct Hw as [Hw Ho]| | |done];
    destruct (going_log _ _ _ _ _ Hw) as (l & Hl & _); exists l.
  - assert (∀ l', log s1 ++ l' = log s ++ l ++ l') as Hl' by (intros l'; by rewrite Hl, app_assoc).
    unfold released, release_env, emit, mret, D_ret, mbind, D_bind. destruct (has_env self), (w_has_release w); simpl; rewrite <- Hl';
      rewrite ?app_nil_r; (split; [done|]); (eapply fix_ran; [done|exact Hrs|exact Hw|exact Hl|]); by intros ? [= <-].
  - simpl. rewrite app_nil_r. split; [done|]. by eapply fix_ran.
  - simpl. rewrite app_nil_r. split; [done|]. by eapply fix_ran.
Qed.

(** A run of the mini agent ends after a bounded number of agents in every mode,
    whatever they answer; the environment it made is released exactly once, after
    everything else, when it returns, and survives an exception or the end of the
    process. *)
Theorem mini_run_ends (bug_id : string) (metadata : doc) (s : driver) :
  let r := (fix_mini w t self bug_id metadata s).1 in
  r ≠ OutOfFuel ∧
  ∃ l, log (fix_mini w t self bug_id metadata s).2 = log s ++ l ++ released r ∧
    (runs l ≤ mode_runs (workflow_mode self))%nat ∧ existsb is_release l = false.
Proof.
  intros r. destruct (fix_spec bug_id metadata s) as (l & Hl & Hf). fold r in Hl, Hf.
  destruct Hf as [e Hr ->|rs instance task s1 Hr _ [(l' & Hl' & Hn & Hrel & _)] Hl1 _].
  - split; [by rewrite Hr|]. exists []. split; [done|]. split; [unfold runs; simpl; lia|done].
  - split; [done|]. exists l. rewrite Hl1 in Hl'. apply app_inv_head in Hl' as <-. done.
Qed.

(** C7: what is reported is what the last agent answered: a patch counts as a fix
    only if the agent submitted it and it is not blank, and a crash is reported
    without a patch.  (A submission that is no text ends the run with an error.) *)
Theorem mini_reports_last_agent (bug_id : string) (metadata : doc) (s s' : driver) (out : FixOutput) :
  fix_mini w t self bug_id metadata s = (Done out, s') →
  ∃ l, log s' = log s ++ l ++ released (Done out) ∧ reported w out (log s ++ l).
Proof.
  intros Hrun. destruct (fix_spec bug_id metadata s) as (l & Hl & Hf). rewrite Hrun in Hl, Hf.
  exists l. split; [done|]. destruct Hf as [e [=] _|rs instance task s1 _ _ _ Hl1 Ho].
  rewrite <- Hl1. by apply Ho.
Qed.

Lemma init_resume_class bug_id instance task rs :
  init_resume w self bug_id instance task = Ok rs → r_store rs = true →
  default_agent_class (w_env w) = Ok Resumable.
Proof.
  unfold init_resume, default_agent_class. intros (on & Hon & Hrs)%res_bind_ok Hs. rewrite Hon.
  destruct on; [done|]. simpl in Hrs. by injection Hrs as <-.
Qed.

(** The agents of a run are all of the class the environment selects, and bound
    to the records of the run in the order they are made, so that a resumed run
    gives each of its agents the records it wrote; agents that are bound are
    resumable ones. *)
Theorem mini_agents_bound_in_order (bug_id : string) (metadata : doc) (s : driver) :
  ∃ l rs, log (fix_mini w t self bug_id metadata s).2 = log s ++ l ++ released (fix_mini w t self bug_id metadata s).1 ∧
    map snd (made l) = map (binding rs) (seq 0 (List.length (made l))) ∧
    Forall (λ b, default_agent_class (w_env w) = Ok b.1 ∧ (is_Some b.2 → b.1 = Resumable)) (made l).
Proof.
  destruct (fix_spec bug_id metadata s) as (l & Hl & Hf). exists l.
  destruct Hf as [e _ ->|rs instance task s1 _ Hrs [(l' & Hl' & _ & _ & Hc & Hb)] Hl1 _].
  { exists (mkResume false "" ""). by split. }
  exists rs. split; [done|]. rewrite Hl1 in Hl'. apply app_inv_head in Hl' as <-.
  rewrite Hb. split.
  - do 2 f_equal. apply (f_equal List.length) in Hb. by rewrite !length_map, length_seq in Hb.
  - apply Forall_forall. intros b Hb'. rewrite Forall_forall in Hc. pose proof (Hc b Hb') as Hcls. split; [done|].
    intros Hs. assert (b.2 ∈ map snd (made l)) as Hin by by apply list_elem_of_fmap_2.
    rewrite Hb in Hin. apply list_elem_of_fmap in Hin as (i & Hi & _). rewrite Hi in Hs. unfold binding in Hs.
    destruct (r_store rs) eqn:E; [|by destruct Hs].
    rewrite (init_resume_class _ _ _ _ Hrs E) in Hcls. by injection Hcls.
Qed.
End fix_.

(** ** Runs *)

(** Agents that submit [text] whenever they are asked. *)
Definition submitting (text : string) : world :=
  mkWorld [] "" (λ _, Ok tt) (λ _, Ok tt) (λ _, Ok tt) (λ _ _, Ok []) true (λ _ _ _, Ok tt)
    (λ _ _ _ _, Returned [("exit_status", PStr "Submitted"); ("submission", PStr text)] (mkMini 3 0%Q [] None))
    (λ _, 0%Q) (Ok "").
Definition no_templates : templates := mkTemplates "" "" "" "" "" "" "".
Definition staged (mode : Z) : mini_swe_agent := mkAgent true false [] mode None "".
Definition sample_metadata : doc :=
  [("swebench_instance", PDict [("instance_id", PStr "a__b-1"); ("problem_statement", PStr "fix it")])].

Lemma mini_reports_last_agent_witness :
  match @fix_mini (λ _, "0.5") (submitting "diff") no_templates (staged 1) "BUG-1" sample_metadata (mkDriver 0 []) with
  | (Done out, s') =>
      ∃ l, log s' = [] ++ l ++ released (submitting "diff") (staged 1) (Done out) ∧
        reported (submitting "diff") out ([] ++ l)
  | _ => False
  end.
Proof.
  destruct (@fix_mini (λ _, "0.5") (submitting "diff") no_templates (staged 1) "BUG-1" sample_metadata (mkDriver 0 []))
    as [[out|e| |] s'] eqn:E; [|vm_compute in E; discriminate E..].
  exact (@mini_reports_last_agent (λ _, "0.5") (submitting "diff") no_templates (staged 1) "BUG-1" sample_metadata
    (mkDriver 0 []) s' out E).
Defined.

(** A solver that keeps asking for another round: the last request is taken for the
    patch, and the run for fixed. *)
Example last_request_is_the_patch :
  match @fix_mini (λ _, "0.5") (submitting (REINVEST_MARKER +:+ nl +:+ "WHY_STUCK: no idea")) no_templates (staged 3)
          "BUG-1" sample_metadata (mkDriver 0 []) with
  | (Done out, s') =>
      outcome out = "fixed" ∧ dget "model_patch" (final_state out) = PStr (REINVEST_MARKER +:+ nl +:+ "WHY_STUCK: no idea")
      ∧ runs (log s') = 6%nat ∧ iterations out = 18%Z
  | _ => False
  end.
Proof. vm_compute. done. Qed.

End MiniSweSpec.
