(* ===== verification/Metrics.v ===== *)
(** * Comparison of agents

    Model of [evaluation/metrics.py]: the table that [bench report] makes of the
    records of a sweep.  Names of agents are texts, as the sweep writes them. *)

From stdpp Require Import sorting.
From S2P Require Import Prelude PyStr Effects PyJson PyJsonLoads PyJsonIndent Files World ReactLoop.
Local Open Scope string_scope.
Local Open Scope list_scope.

Module Metrics.
Import Files.

Notation row := (list (string * pyval)).

(** A number to add up; [None] and texts do not add to a sum. *)
Definition num (v : pyval) : res Q :=
  match World.num_of v with
  | Some q => Ok q
  | None => Raise (type_error ("unsupported operand type(s) for +: 'float' and '" +:+ type_name v +:+ "'"))
  end.

Definition is_none (v : pyval) : bool := bool_decide (v = PNone).
Definition sum (l : list Q) : Q := fold_left Qplus l 0%Q.
Definition over (q : Q) (n : nat) : Q := (q / inject_Z (Z.of_nat n))%Q.

(** [round(q, k)], where [scale] is ten to the [k]. *)
Definition round_to (scale : positive) (q : Q) : Q :=
  (ReactLoop.round_half_even (q * inject_Z (Zpos scale)) # scale)%Q.

(** [_mean], of the values that are there. *)
Definition mean (xs : list Q) : option Q :=
  match xs with [] => None | _ => Some (over (sum xs) (List.length xs)) end.

(** [any(r.get("resolved") is not None for r in records)] *)
Fixpoint has_resolved (records : list pyval) : res bool :=
  match records with
  | [] => Ok false
  | r :: records' =>
      v ← py_get r "resolved" PNone;
      if is_none v then has_resolved records' else Ok true
  end.

(** The records of each agent, in the order the agents are met. *)
Fixpoint by_agent (records : list pyval) (acc : list (string * list pyval)) : res (list (string * list pyval)) :=
  match records with
  | [] => Ok acc
  | r :: records' =>
      name ← py_getitem r "agent_name";
      match name with
      | PStr name => by_agent records' (dict_set name (default [] (dict_get name acc) ++ [r]) acc)
      | v => Raise (type_error ("'<' not supported between instances of 'str' and '" +:+ type_name v +:+ "'"))
      end
  end.

(** [r.get(k)] of a record that has passed [by_agent]. *)
Definition at_key (k : string) (r : pyval) : pyval := match r with PDict d => dget k d | _ => PNone end.

Definition count (p : pyval → bool) (recs : list pyval) : nat := List.length (List.filter p recs).
Definition is_fixed (r : pyval) : bool := bool_decide (at_key "outcome" r = PStr "fixed").
Definition is_resolved (r : pyval) : bool := bool_decide (at_key "resolved" r = PBool true).
Definition is_match (r : pyval) : bool := truthy (at_key "matches_expected" r).

(** The tokens of one run, where both counts were reported. *)
Definition tokens_of (r : pyval) : res (list Q) :=
  let ptt := at_key "total_prompt_tokens" r in
  let ctt := at_key "total_completion_tokens" r in
  if is_none ptt || is_none ctt then Ok []
  else a ← num ptt; b ← num ctt; Ok [(a + b)%Q].

Definition wallclock_of (r : pyval) : res (list Q) :=
  let ws := at_key "total_llm_wallclock_s" r in
  if is_none ws then Ok [] else q ← num ws; Ok [q].

Fixpoint usage (recs : list pyval) : res (list Q * list Q) :=
  match recs with
  | [] => Ok ([], [])
  | r :: recs' =>
      t ← tokens_of r;
      w ← wallclock_of r;
      rest ← usage recs';
      Ok (t ++ rest.1, w ++ rest.2)
  end.

(** [sum(r.get(k, 0) for r in recs)] *)
Fixpoint sum_of (k : string) (recs : list pyval) : res Q :=
  match recs with
  | [] => Ok 0%Q
  | r :: recs' =>
      v ← py_get r k (PInt 0);
      a ← num v;
      b ← sum_of k recs';
      Ok (a + b)%Q
  end.

Definition rate (a n : nat) : pyval := PFloat (round_to 1000 (over (inject_Z (Z.of_nat a)) n)).
Definition nat_val (n : nat) : pyval := PInt (Z.of_nat n).
Definition opt_round (scale : positive) (o : option Q) : pyval :=
  match o with Some q => PFloat (round_to scale q) | None => PNone end.

Definition row_of (resolved : bool) (agent_name : string) (recs : list pyval) : res row :=
  let n := List.length recs in
  u ← usage recs;
  let sum_wallclock := sum u.2 in
  let tokens_per_s := if Qle_bool sum_wallclock 0 then None else Some (sum u.1 / sum_wallclock)%Q in
  iterations ← sum_of "iterations" recs;
  elapsed ← sum_of "elapsed_s" recs;
  Ok ([("agent_name", PStr agent_name); ("n_fixtures", nat_val n); ("n_fixed", nat_val (count is_fixed recs));
       ("fix_rate", rate (count is_fixed recs) n)]
      ++ (if resolved then [("n_resolved", nat_val (count is_resolved recs));
                            ("resolved_rate", rate (count is_resolved recs) n)] else [])
      ++ [("n_match_expected", nat_val (count is_match recs));
          ("match_rate", rate (count is_match recs) n);
          ("avg_iterations", PFloat (round_to 100 (over iterations n)));
          ("avg_elapsed_s", PFloat (round_to 100 (over elapsed n)));
          ("avg_total_tokens", opt_round 10 (mean u.1));
          ("avg_llm_wallclock_s", opt_round 100 (mean u.2));
          ("tokens_per_s", opt_round 10 tokens_per_s)]).

Fixpoint rows_of (resolved : bool) (groups : list (string * list pyval)) : res (list row) :=
  match groups with
  | [] => Ok []
  | (name, recs) :: groups' => r ← row_of resolved name recs; rs ← rows_of resolved groups'; Ok (r :: rs)
  end.

Definition aggregate_records (records : pyval) : res (list row) :=
  records ← py_iter records;
  resolved ← has_resolved records;
  groups ← by_agent records [];
  rows_of resolved (sort_by fst groups).

(** [aggregate]: the records are those of the summary of a run. *)
Definition aggregate `{FloatParse} (o : os) (runs_root : path) (run_id : string) : M fs (list row) :=
  let summary_path := join runs_root run_id ++ ["summary.json"] in
  f ← get;
  if negb (exists_ summary_path f) then throw (Exn "FileNotFoundError" ("no such run: " +:+ run_id))
  else
    text ← read_text o summary_path;
    match json_loads text with
    | None => throw (value_error "not a JSON document")
    | Some records => lift (aggregate_records records)
    end.

(** ** format_table *)

Definition ljust (n : nat) (s : string) : string := s +:+ blanks (n - String.length s).
Fixpoint dashes (n : nat) : string := match n with O => "" | S n => String "-" (dashes n) end.

(** [str(r[h]) for h in headers] *)
Fixpoint texts `{FloatRepr} (headers : list string) (r : row) : res (list string) :=
  match headers with
  | [] => Ok []
  | h :: headers' => v ← py_getitem (PDict r) h; rest ← texts headers' r; Ok (py_str v :: rest)
  end.

Fixpoint all_texts `{FloatRepr} (headers : list string) (rows : list row) : res (list (list string)) :=
  match rows with
  | [] => Ok []
  | r :: rows' => t ← texts headers r; ts ← all_texts headers rows'; Ok (t :: ts)
  end.

(** The widest text of each column. *)
Fixpoint widths (headers : list string) (body : list (list string)) : list nat :=
  match headers with
  | [] => []
  | h :: headers' =>
      foldl (λ w t, Nat.max w (String.length (hd "" t))) (String.length h) body
      :: widths headers' (map (@tl string) body)
  end.

Definition table_line (ws : list nat) (cells : list string) : string := str_join "  " (zip_with ljust ws cells).

Definition format_table `{FloatRepr} (rows : list row) : res string :=
  match rows with
  | [] => Ok "(no data)"
  | r :: _ =>
      let headers := map fst r in
      body ← all_texts headers rows;
      let ws := widths headers body in
      Ok (str_join nl (table_line ws headers :: str_join "  " (map dashes ws) :: map (table_line ws) body))
  end.

End Metrics.

(** * Comparison of agents: the report accounts for the records

    Every record of a sweep is counted in the row of its agent, once; the rows
    come in the order of the names, and their rates are rates.  The table that
    is printed has lines of one length. *)

Module MetricsSpec.
Import Metrics.

(** The records of an agent. *)
Definition of_agent (name : string) (rs : list pyval) : list pyval :=
  List.filter (λ r, bool_decide (at_key "agent_name" r = PStr name)) rs.

Lemma of_agent_app name l l' : of_agent name (l ++ l') = of_agent name l ++ of_agent name l'.
Proof. apply List.filter_app. Qed.

(** ** Grouping *)

Record grouped (done_ : list pyval) (acc : list (string * list pyval)) : Prop := {
  group_keys : NoDup (map fst acc);
  group_get name : dict_get name acc = match of_agent name done_ with [] => None | l => Some l end;
  group_total : sum_list (map (λ g, List.length g.2) acc) = List.length done_
}.

Lemma sum_dict_set name r (acc : list (string * list pyval)) :
  sum_list (map (λ g, List.length g.2) (dict_set name (default [] (dict_get name acc) ++ [r]) acc)) =
  S (sum_list (map (λ g, List.length g.2) acc)).
Proof.
  induction acc as [|[k l] acc IH]; [done|]. simpl.
  destruct (decide (name = k)) as [->|Hne]; simpl; [rewrite length_app; simpl; lia|]. rewrite IH. lia.
Qed.

Lemma by_agent_grouped rs done_ acc groups :
  grouped done_ acc → by_agent rs acc = Ok groups → grouped (done_ ++ rs) groups.
Proof.
  revert done_ acc. induction rs as [|r rs IH]; cbn [by_agent]; intros done_ acc Hg; [intros [= <-]; by rewrite app_nil_r|].
  intros (v & Hv & Hb)%res_bind_ok. destruct v as [| | | |name| |]; try done.
  rewrite cons_middle, app_assoc. eapply IH; [|exact Hb]. destruct Hg as [Hk Hget Htot].
  assert (∀ n, of_agent n [r] = if decide (n = name) then [r] else []) as Hone.
  { intros n. unfold of_agent. cbn. destruct r as [| | | | | |d]; try done. cbn in Hv |- *. unfold dget.
    destruct (dict_get "agent_name" d) as [x|]; [|done]. injection Hv as ->. cbn.
    destruct (decide (n = name)) as [->|Hne]; [by rewrite bool_decide_eq_true_2|].
    rewrite bool_decide_eq_false_2; [done|]. congruence. }
  split.
  - by apply dict_set_nodup.
  - intros n. rewrite of_agent_app, Hone, dict_get_set, (Hget name).
    destruct (decide (name = n)) as [->|Hne].
    + rewrite decide_True by done. by destruct (of_agent n done_).
    + rewrite decide_False by done. rewrite app_nil_r. apply Hget.
  - rewrite sum_dict_set, Htot, length_app. simpl. lia.
Qed.

Lemma grouped_nil : grouped [] [].
Proof. split; [constructor|done|done]. Qed.

(** ** Rates *)

Lemma floor_mod n d : (0 < d)%Z → (n = d * (n / d) + n mod d ∧ 0 ≤ n mod d < d)%Z.
Proof. intros Hd. split; [apply Z.div_mod; lia|]. by apply Z.mod_pos_bound. Qed.

Lemma round_half_even_bounds q (lo hi : Z) :
  (inject_Z lo <= q)%Q → (q <= inject_Z hi)%Q → (lo ≤ ReactLoop.round_half_even q ≤ hi)%Z.
Proof.
  destruct q as [n d]. unfold Qle, inject_Z, ReactLoop.round_half_even. cbn [Qnum Qden]. intros Hlo Hhi.
  destruct (floor_mod n (Zpos d) ltac:(done)) as [Hdiv Hmod].
  set (k := (n / Zpos d)%Z) in *. set (m := (n mod Zpos d)%Z) in *. clearbody k m.
  rewrite Z.mul_1_r in *.
  assert (lo < k + 1)%Z by (apply (Z.mul_lt_mono_pos_l (Zpos d)); lia).
  destruct (decide (m = 0)%Z) as [H0|H0].
  - subst m. change (2 * 0 <? Z.pos d)%Z with true. cbv iota. split; [lia|]. apply (Z.mul_le_mono_pos_l _ _ (Zpos d)); lia.
  - assert (k < hi)%Z by (apply (Z.mul_lt_mono_pos_l (Zpos d)); lia). repeat case_match; lia.
Qed.

Lemma rate_bounds a n : (a ≤ n)%nat → (0 < n)%nat →
  ∃ q, rate a n = PFloat q ∧ (0 <= q)%Q ∧ (q <= 1)%Q.
Proof.
  intros Ha Hn. eexists. split; [reflexivity|]. unfold round_to.
  set (x := (over (inject_Z (Z.of_nat a)) n * inject_Z 1000)%Q).
  assert (0 <= over (inject_Z (Z.of_nat a)) n)%Q as Hlo.
  { unfold over. apply Qle_shift_div_l; [by rewrite <- (Zlt_Qlt 0); lia|]. rewrite Qmult_0_l, <- (Zle_Qle 0). lia. }
  assert (over (inject_Z (Z.of_nat a)) n <= 1)%Q as Hhi.
  { unfold over. apply Qle_shift_div_r; [by rewrite <- (Zlt_Qlt 0); lia|]. rewrite Qmult_1_l, <- Zle_Qle. lia. }
  destruct (round_half_even_bounds x 0 1000) as [H0 H1].
  - unfold x. change (inject_Z 0) with (0 * inject_Z 1000)%Q. by apply Qmult_le_compat_r.
  - unfold x. rewrite <- (Qmult_1_l (inject_Z 1000)) at 2. by apply Qmult_le_compat_r.
  - unfold Qle. cbn [Qnum Qden]. lia.
Qed.

Lemma count_le p recs : (count p recs ≤ List.length recs)%nat.
Proof. unfold count. induction recs as [|r recs IH]; [done|]. simpl. destruct (p r); simpl; lia. Qed.

(** ** Rows *)

Definition is_rate (v : pyval) : Prop := ∃ q, v = PFloat q ∧ (0 <= q)%Q ∧ (q <= 1)%Q.

(** A row says of an agent what its records say. *)
Record reports (name : string) (recs : list pyval) (r : row) : Prop := {
  row_name : dget "agent_name" r = PStr name;
  row_fixtures : dget "n_fixtures" r = nat_val (List.length recs);
  row_fixed : dget "n_fixed" r = nat_val (count is_fixed recs);
  row_matched : dget "n_match_expected" r = nat_val (count is_match recs);
  row_fix_rate : dget "fix_rate" r = rate (count is_fixed recs) (List.length recs) ∧ is_rate (dget "fix_rate" r);
  row_match_rate : dget "match_rate" r = rate (count is_match recs) (List.length recs) ∧ is_rate (dget "match_rate" r)
}.

Lemma row_of_reports resolved name recs r :
  recs ≠ [] → row_of resolved name recs = Ok r → reports name recs r.
Proof.
  intros Hne. unfold row_of. intros (u & _ & (it & _ & (el & _ & [= <-])%res_bind_ok)%res_bind_ok)%res_bind_ok.
  assert (0 < List.length recs)%nat as Hlen by (destruct recs; [done|simpl; lia]).
  split; try (by destruct resolved).
  - split; [by destruct resolved|]. apply (rate_bounds (count is_fixed recs)); [apply count_le|done].
  - destruct (rate_bounds (count is_match recs) (List.length recs)) as (q & Hq & Hb); [apply count_le|done|].
    split; [by destruct resolved|]. exists q. split; [|done]. rewrite <- Hq. by destruct resolved.
Qed.

Lemma rows_of_reports rs resolved groups rows :
  Forall (λ g, g.2 = of_agent g.1 rs ∧ g.2 ≠ []) groups → rows_of resolved groups = Ok rows →
  Forall2 (λ name r, reports name (of_agent name rs) r) (map fst groups) rows.
Proof.
  revert rows. induction groups as [|[name recs] groups IH]; cbn [rows_of]; intros rows; [intros _ [= <-]; constructor|].
  intros [[E Hne] Hg]%Forall_cons (r & Hr & (rows' & Hrs & [= <-])%res_bind_ok)%res_bind_ok. constructor; [|by apply IH].
  cbn in *. subst recs. by eapply row_of_reports.
Qed.

(** The groups of the records, in the order of the names. *)
Lemma groups_spec rs groups : by_agent rs [] = Ok groups →
  let sorted := sort_by fst groups in
  NoDup (map fst sorted) ∧ StronglySorted (λ a b, str_leb a b = true) (map fst sorted) ∧
  (∀ name, name ∈ map fst sorted ↔ of_agent name rs ≠ []) ∧
  Forall (λ g, g.2 = of_agent g.1 rs ∧ g.2 ≠ []) sorted ∧
  sum_list (map (λ g, List.length g.2) sorted) = List.length rs.
Proof.
  intros Hb. destruct (by_agent_grouped rs [] [] groups grouped_nil Hb) as [Hk Hget Htot]. cbn [app] in *. cbv zeta.
  assert (∀ name, name ∈ map fst groups ↔ of_agent name rs ≠ []) as Hin.
  { intros name. rewrite dict_get_key, Hget. destruct (of_agent name rs); [|by split; eauto].
    split; [by intros [? [=]]|done]. }
  assert (sort_by fst groups ≡ₚ groups) as Hp by apply sort_by_perm. split_and!.
  - by rewrite Hp.
  - pose proof (sort_by_sorted (A := string * list pyval) fst groups) as Hs. unfold key_le in Hs.
    clear Hp. induction Hs as [|g l _ IH Hall]; simpl; constructor; [done|]. apply Forall_map. exact Hall.
  - intros name. by rewrite Hp.
  - rewrite Hp. apply Forall_forall. intros [name recs] Hg. cbn.
    assert (dict_get name groups = Some recs) as Hr by by apply dict_get_nodup.
    rewrite Hget in Hr. destruct (of_agent name rs); [done|]. by injection Hr as <-.
  - by rewrite Hp.
Qed.

Lemma aggregate_groups rs rows : aggregate_records (PList rs) = Ok rows →
  ∃ groups resolved, by_agent rs [] = Ok groups ∧ rows_of resolved (sort_by fst groups) = Ok rows.
Proof.
  unfold aggregate_records. cbn [py_iter].
  intros (rs' & [= <-] & (b & _ & (groups & Hb & Hrows)%res_bind_ok)%res_bind_ok)%res_bind_ok. eauto.
Qed.

(** The report of a sweep accounts for its records: it has one row for each
    agent that occurs in them, in the order of the names; every record is counted
    in the row of its agent and in no other; the row counts the fixed and the
    expected outcomes among them, and its rates lie between zero and one. *)
Theorem report_accounts (rs : list pyval) (rows : list row) : aggregate_records (PList rs) = Ok rows →
  ∃ names, NoDup names ∧ StronglySorted (λ a b, str_leb a b = true) names ∧
    (∀ name, name ∈ names ↔ of_agent name rs ≠ []) ∧
    sum_list (map (λ name, List.length (of_agent name rs)) names) = List.length rs ∧
    Forall2 (λ name r, reports name (of_agent name rs) r) names rows.
Proof.
  intros (groups & resolved & Hb & Hrows)%aggregate_groups. destruct (groups_spec rs groups Hb) as (Hnd & Hsort & Hin & Hall & Htot).
  exists (map fst (sort_by fst groups)). split_and!; [done|done|done| |].
  - rewrite <- Htot, map_map. f_equal. apply map_ext_in. intros g Hg%list_elem_of_In.
    rewrite Forall_forall in Hall. by destruct (Hall g Hg) as [-> _].
  - by eapply rows_of_reports.
Qed.

(** ** A report *)

Definition run_record (agent outcome : string) (iterations : Z) : pyval :=
  PDict [("agent_name", PStr agent); ("outcome", PStr outcome); ("iterations", PInt iterations);
         ("elapsed_s", PFloat (5 # 2)); ("matches_expected", PBool (bool_decide (outcome = "fixed")))].
Definition sample_records : list pyval :=
  [run_record "memory" "fixed" 1; run_record "baseline" "error" 0; run_record "memory" "fixed" 2;
   run_record "memory" "error" 3].

Lemma report_accounts_witness :
  match aggregate_records (PList sample_records) with
  | Ok rows => ∃ names, NoDup names ∧ StronglySorted (λ a b, str_leb a b = true) names ∧
      (∀ name, name ∈ names ↔ of_agent name sample_records ≠ []) ∧
      sum_list (map (λ name, List.length (of_agent name sample_records)) names) = 4%nat ∧
      Forall2 (λ name r, reports name (of_agent name sample_records) r) names rows
  | Raise _ => False
  end.
Proof.
  destruct (aggregate_records (PList sample_records)) as [rows|e] eqn:E.
  - exact (report_accounts sample_records rows E).
  - vm_compute in E. discriminate E.
Defined.

Example sample_rates :
  match aggregate_records (PList sample_records) with
  | Ok rows => map (λ r, (dget "agent_name" r, dget "n_fixtures" r, dget "fix_rate" r)) rows
  | Raise _ => []
  end = [(PStr "baseline", PInt 1, PFloat (0 # 1000)); (PStr "memory", PInt 3, PFloat (667 # 1000))].
Proof. by vm_compute. Qed.

(** A run whose time is present but not known spoils the report of the sweep. *)
Example unknown_time_raises :
  is_ok (aggregate_records (PList [PDict [("agent_name", PStr "a"); ("elapsed_s", PNone)]])) = false.
Proof. by vm_compute. Qed.

(** ** The table *)

Definition line_length (ws : list nat) : nat := sum_list ws + 2 * (List.length ws - 1).

Lemma length_blanks n : String.length (blanks n) = n.
Proof. by induction n; simpl; f_equal. Qed.
Lemma length_dashes n : String.length (dashes n) = n.
Proof. by induction n; simpl; f_equal. Qed.
Lemma length_join l ws : Forall2 (λ s w, String.length s = w) l ws → String.length (str_join "  " l) = line_length ws.
Proof.
  unfold line_length. intros Hl. induction Hl as [|s w l ws Hs Hl IH]; [done|].
  destruct Hl as [|s' w' l ws Hs' Hl]; [simpl in *; lia|].
  change (str_join "  " (s :: s' :: l)) with (s +:+ "  " +:+ str_join "  " (s' :: l)).
  rewrite !str_length_app, IH, Hs. simpl. lia.
Qed.

Lemma length_ljust n s : (String.length s ≤ n)%nat → String.length (ljust n s) = n.
Proof. intros Hn. unfold ljust. rewrite str_length_app, length_blanks. lia. Qed.

Lemma table_line_length ws cells :
  Forall2 (λ w c, String.length c ≤ w)%nat ws cells → String.length (table_line ws cells) = line_length ws.
Proof.
  intros Hc. apply length_join. induction Hc as [|w c ws cells Hw _ IH]; [constructor|]. simpl. constructor; [|done].
  by apply length_ljust.
Qed.

Lemma widest_le (f : list string → nat) body w : (w ≤ foldl (λ w t, Nat.max w (f t)) w body)%nat ∧
  Forall (λ t, f t ≤ foldl (λ w t, Nat.max w (f t)) w body)%nat body.
Proof.
  revert w. induction body as [|t body IH]; intros w; simpl; [by split|].
  destruct (IH (Nat.max w (f t))) as [H1 H2]. split; [lia|]. constructor; [lia|done].
Qed.

Lemma widths_fit headers body : Forall (λ cells, List.length cells = List.length headers) body →
  Forall2 (λ w c, String.length c ≤ w)%nat (widths headers body) headers ∧
  Forall (λ cells, Forall2 (λ w c, String.length c ≤ w)%nat (widths headers body) cells) body.
Proof.
  revert body. induction headers as [|h headers IH]; intros body Hlen; simpl.
  { split; [constructor|]. eapply Forall_impl; [exact Hlen|]. intros [|c cells]; [constructor|done]. }
  destruct (IH (map (@tl string) body)) as [Hh Hb].
  { apply Forall_map. eapply Forall_impl; [exact Hlen|]. intros [|c cells]; [done|]. simpl; lia. }
  destruct (widest_le (λ t, String.length (hd "" t)) body (String.length h)) as [Hw Hc]. split; [by constructor|].
  rewrite Forall_map in Hb. rewrite Forall_forall in Hlen, Hb, Hc |- *. intros cells Hin.
  specialize (Hlen _ Hin). specialize (Hb _ Hin). specialize (Hc _ Hin). destruct cells as [|c cells]; [done|]. by constructor.
Qed.

Lemma texts_length `{FloatRepr} headers r cells : texts headers r = Ok cells → List.length cells = List.length headers.
Proof.
  revert cells. induction headers as [|h headers IH]; cbn [texts]; intros cells; [by intros [= <-]|].
  intros (v & _ & (rest & Hr & [= <-])%res_bind_ok)%res_bind_ok. simpl. by rewrite (IH rest).
Qed.

Lemma all_texts_lengths `{FloatRepr} headers rows body :
  all_texts headers rows = Ok body → Forall (λ cells, List.length cells = List.length headers) body.
Proof.
  revert body. induction rows as [|r rows IH]; cbn [all_texts]; intros body; [intros [= <-]; constructor|].
  intros (t & Ht & (ts & Hts & [= <-])%res_bind_ok)%res_bind_ok. constructor; [by eapply texts_length|by apply IH].
Qed.

(** The lines of a table - the headers, the rule, and a line for each row - are
    equally long. *)
Lemma table_aligned `{FloatRepr} (rows : list row) table : rows ≠ [] → format_table rows = Ok table →
  ∃ width lines, table = str_join nl lines ∧ List.length lines = S (S (List.length rows)) ∧
    Forall (λ l, String.length l = width) lines.
Proof.
  intros Hne. unfold format_table. destruct rows as [|r rows]; [done|]. remember (r :: rows) as all eqn:Eall.
  intros (body & Hb & E)%res_bind_ok. pose proof (all_texts_lengths _ _ _ Hb) as Hlen.
  destruct (widths_fit _ _ Hlen) as [Hh Hc]. set (ws := widths (map fst r) body) in *.
  exists (line_length ws), (table_line ws (map fst r) :: str_join "  " (map dashes ws) :: map (table_line ws) body).
  split; [by injection E|]. clear E. split.
  - cbn [List.length]. rewrite List.length_map. do 2 f_equal. clear -Hb. revert body Hb.
    induction all as [|x all IH]; cbn [all_texts]; intros body; [by intros [= <-]|].
    intros (t & _ & (ts & Hts & [= <-])%res_bind_ok)%res_bind_ok. simpl. by rewrite (IH ts).
  - constructor; [by apply table_line_length|]. constructor.
    + apply length_join. clear. induction ws as [|w ws IH]; [constructor|]. simpl. constructor; [|done]. apply length_dashes.
    + apply Forall_map. eapply Forall_impl; [exact Hc|]. intros cells. apply table_line_length.
Qed.

End MetricsSpec.
