(* ===== verification/Scrape.v ===== *)
(** * Metrics from the journal

    Model of [tools/runrecord_to_metrics.py]: the counters over all records of a
    journal, their text for the collector, and the file that is replaced by it.
    The order of the directory does not matter to the sums; it is sorted here.
    Labels are ordered as texts that hold no zero byte, and the dash of a help
    text is a hyphen. *)

From S2P Require Import Prelude PyStr Regex Effects PyJson PyJsonLoads Files World RunRecord Journal BigQuery.
Local Open Scope string_scope.
Local Open Scope list_scope.

Module Scrape.
Import Files.

Notation record := (list (string * pyval)).
Notation labels := (list string).

Definition MODEL_SLUG_RE : re := rx no_flags "[^A-Za-z0-9._-]+".
Definition MODEL_SLUG_MAX : nat := 60.

Definition slugify_model (name : pyval) : res string :=
  if negb (truthy name) then Ok "unknown"
  else
    match name with
    | PStr s =>
        let slug := str_take MODEL_SLUG_MAX (re_sub MODEL_SLUG_RE [PLit "-"] s) in
        Ok (if str_nonempty slug then slug else "unknown")
    | _ => Raise (type_error "expected string or bytes-like object")
    end.

(** A label: what is no text raises, here or when it is escaped. *)
Definition label (v : pyval) : res string :=
  let v := py_or v (PStr "unknown") in
  match v with
  | PStr s => Ok s
  | PList _ | PDict _ => Raise (type_error ("unhashable type: '" +:+ type_name v +:+ "'"))
  | _ => Raise (attribute_error ("'" +:+ type_name v +:+ "' object has no attribute 'replace'"))
  end.

(** ** _aggregate *)

Record counters := mkCounters {
  fixes : gmap labels Z;
  elapsed : gmap labels Q;
  tokens : gmap labels Z;
  cost : gmap labels Q;
  llm_calls : gmap labels Z;
  parse_fb : gmap labels Z;
  reflection : gmap labels Z
}.
Definition no_counters : counters := mkCounters ∅ ∅ ∅ ∅ ∅ ∅ ∅.

(** [d[k] += v] of a [defaultdict] of integers or floats. *)
Definition add_z (k : labels) (v : Z) (m : gmap labels Z) : gmap labels Z := <[k := (default 0 (m !! k) + v)%Z]> m.
Definition add_q (k : labels) (v : Q) (m : gmap labels Q) : gmap labels Q := <[k := (default 0 (m !! k) + v)%Q]> m.

(** [v] where it is an integer of at least [least]. *)
Definition at_least (least : Z) (v : pyval) : option Z :=
  match as_int v with Some z => if (least <=? z)%Z then Some z else None | None => None end.
Definition positive_number (v : pyval) : option Q :=
  match World.num_of v with Some q => if Qle_bool q 0 then None else Some q | None => None end.

Definition TOKEN_FIELDS : list (string * string) :=
  [("total_prompt_tokens", "prompt"); ("total_completion_tokens", "completion"); ("total_cached_input_tokens", "cached")].

Definition add_tokens (r : record) (model_slug : string) (m : gmap labels Z) : gmap labels Z :=
  fold_left (λ m f, match at_least 1 (dget f.1 r) with Some v => add_z [f.2; model_slug] v m | None => m end)
    TOKEN_FIELDS m.

Definition count_record (r : record) (c : counters) : res counters :=
  agent ← label (dget "agent_name" r);
  model_slug ← slugify_model (dget "llm_model" r);
  outcome ← label (dget "outcome" r);
  let bucket := [agent; model_slug; outcome] in
  Ok (mkCounters
    (add_z bucket 1 (fixes c))
    (match World.num_of (dget "elapsed_s" r) with Some q => add_q bucket q (elapsed c) | None => elapsed c end)
    (add_tokens r model_slug (tokens c))
    (match positive_number (dget "total_cost_usd" r) with Some q => add_q [model_slug] q (cost c) | None => cost c end)
    (match at_least 1 (dget "llm_call_count" r) with
     | Some v => add_z [agent; model_slug] v (llm_calls c) | None => llm_calls c end)
    (if bool_decide (dget "parse_trace_fallback" r = PBool true) then add_z [agent] 1 (parse_fb c) else parse_fb c)
    (match at_least 1 (dget "reflection_count" r) with Some _ => add_z [agent] 1 (reflection c) | None => reflection c end)).

Fixpoint aggregate_from (records : list record) (c : counters) : res counters :=
  match records with
  | [] => Ok c
  | r :: records' => c ← count_record r c; aggregate_from records' c
  end.
Definition aggregate (records : list record) : res counters := aggregate_from records no_counters.

(** ** _scan_journal *)

Definition scan_journal `{FloatParse} (o : os) (journal_dir : path) : M fs (list record) :=
  entries ← BigQuery.iter_journal_entries o journal_dir; mret (map snd entries).

(** ** render *)

Definition backslash : string := String c_backslash "".
Definition escape (value : string) : string :=
  str_replace nl (backslash +:+ "n") (str_replace dquote (backslash +:+ dquote) (str_replace backslash (backslash +:+ backslash) value)).

Definition label_text (kv : string * string) : string := kv.1 +:+ "=" +:+ dquote +:+ escape kv.2 +:+ dquote.

Definition labels_key (ls : labels) : string := str_join (String (ascii_of_N 0) EmptyString) ls.

Definition render_counter {V} (show : V → string) (name help_text : string) (samples : gmap labels V)
    (label_names : list string) : list string :=
  ["# HELP " +:+ name +:+ " " +:+ help_text; "# TYPE " +:+ name +:+ " counter"]
  ++ map (λ s, name +:+ "{" +:+ str_join "," (map label_text (zip label_names s.1)) +:+ "} " +:+ show s.2)
       (sort_by (λ s, labels_key s.1) (map_to_list samples)).

Definition render_gauge (name help_text value : string) : list string :=
  ["# HELP " +:+ name +:+ " " +:+ help_text; "# TYPE " +:+ name +:+ " gauge"; name +:+ " " +:+ value].

Definition render `{FloatRepr} (agg : counters) (scan_ts : Q) : string :=
  str_join nl
    (render_counter str_of_Z "sdlcma_runs_total"
       "Total RunRecords (completed runs, success or not) by agent, llm_model, and outcome"
       (fixes agg) ["agent"; "model_slug"; "outcome"]
     ++ render_counter float_repr "sdlcma_run_elapsed_seconds_total"
       "Sum of elapsed_s per RunRecord bucket (divide by runs_total for mean)"
       (elapsed agg) ["agent"; "model_slug"; "outcome"]
     ++ render_counter str_of_Z "sdlcma_llm_tokens_total"
       "Sum of token counts across RunRecords by token type and model" (tokens agg) ["type"; "model_slug"]
     ++ render_counter float_repr "sdlcma_llm_cost_usd_total"
       ("Sum of total_cost_usd across RunRecords, by model. Journal-derived: "
        +:+ "recomputed from scratch on every scrape, so it is born-at-value - "
        +:+ "chart it with sum(), NEVER rate()/increase() (see the dashboard rule).")
       (cost agg) ["model_slug"]
     ++ render_counter str_of_Z "sdlcma_llm_calls_total" "Sum of llm_call_count across RunRecords"
       (llm_calls agg) ["agent"; "model_slug"]
     ++ render_counter str_of_Z "sdlcma_parse_trace_fallback_total"
       "RunRecords where parse_trace_fallback=True (parser regression signal)" (parse_fb agg) ["agent"]
     ++ render_counter str_of_Z "sdlcma_reflection_fires_total" "RunRecords with reflection_count >= 1"
       (reflection agg) ["agent"]
     ++ render_gauge "sdlcma_runrecord_last_scan_timestamp"
       "Unix seconds of the last successful runrecord_to_metrics scan" (float_repr scan_ts)) +:+ nl.

(** ** _atomic_write and main *)

Section files.
Context (o : os).

(** [os.replace(a, b)] of files. *)
Definition replace (a b : path) : M fs unit :=
  guarded o "replace" b
    (f ← get;
     match f !! a with
     | Some n => if is_dir b f then throw (Exn "IsADirectoryError" (show b)) else modify (λ f, <[b := n]> (delete a f))
     | None => throw (not_found a)
     end).

Definition tmp_of (p : path) : path := parent p ++ [List.last p "" +:+ ".tmp"].

Definition atomic_write (p : path) (content : string) : M fs unit :=
  _ ← write_text o (tmp_of p) content; replace (tmp_of p) p.

Definition main `{FloatRepr, FloatParse} (journal_dir out_path : path) (now : Q) : M fs Z :=
  records ← scan_journal o journal_dir;
  agg ← lift (aggregate records);
  _ ← mkdir_parents o (parent out_path);
  _ ← atomic_write out_path (render agg now);
  mret 0%Z.

End files.

(** ** Every run is counted once *)

Definition total (m : gmap labels Z) : Z := map_fold (λ _ v n, (v + n)%Z) 0%Z m.

Lemma total_add k v m : total (add_z k v m) = (total m + v)%Z.
Proof.
  unfold total, add_z. destruct (m !! k) as [x|] eqn:Hk; cbn [default from_option id].
  - rewrite <- (insert_delete_id m k x Hk) at 2. rewrite <- insert_delete_eq.
    rewrite !map_fold_insert_L by (try (intros; lia); apply lookup_delete_eq). lia.
  - rewrite map_fold_insert_L by (try (intros; lia); done). lia.
Qed.

(** Each record adds one to one bucket of the runs, and no counter of whole
    numbers goes down. *)
Lemma aggregate_runs records c c' :
  aggregate_from records c = Ok c' → total (fixes c') = (total (fixes c) + Z.of_nat (List.length records))%Z.
Proof.
  revert c. induction records as [|r records IH]; intros c; cbn [aggregate_from]; [intros [= <-]; cbn; lia|].
  destruct (count_record r c) as [c1|] eqn:E; [|done]. intros H. cbn in H. rewrite (IH _ H).
  unfold count_record in E. apply res_bind_ok in E as (agent & _ & E). apply res_bind_ok in E as (slug & _ & E).
  apply res_bind_ok in E as (outcome & _ & E).
  injection E as <-. cbn [fixes]. rewrite total_add. cbn [List.length]. lia.
Qed.

(** The runs in the exposition are the records of the journal, each once. *)
Theorem runs_counted_once (records : list record) (c : counters) :
  aggregate records = Ok c → total (fixes c) = Z.of_nat (List.length records).
Proof. intros H. by rewrite (aggregate_runs _ _ _ H). Qed.

(** ** The collector never sees a part of the text *)

Lemma tmp_ne p : p ≠ [] → tmp_of p ≠ p.
Proof.
  intros Hp H. unfold tmp_of, parent in H. rewrite (app_removelast_last "" Hp) in H at 3.
  apply app_inj_tail in H as [_ H]. revert H. induction (List.last p "") as [|a s IH]; cbn; [done|].
  intros [= H]. by apply IH.
Qed.

(** However a write ends, the file is what it was, or all of the new text. *)
Theorem atomic_write_is_atomic (o : os) (p : path) (content : string) (f : fs) h :
  p ≠ [] →
  let r := atomic_write o p content f h in
  r.2.1 !! p = f !! p ∨ r.2.1 !! p = Some (File content).
Proof.
  intros Hp r. subst r. pose proof (tmp_ne p Hp) as Hne. unfold atomic_write. rewrite bind_run.
  assert (∃ f1, (write_text o (tmp_of p) content f h).2 = (f1, h) ∧ f1 !! p = f !! p ∧
            (is_ok (write_text o (tmp_of p) content f h).1 = true → f1 !! tmp_of p = Some (File content)))
    as (f1 & Hf1 & Hp1 & Htmp).
  { unfold write_text. rewrite bind_get. destruct (negb _); [by exists f|]. destruct (is_dir _ _); [by exists f|].
    destruct (refuse o "write" (tmp_of p) f) as [e|].
    - destruct (torn o (tmp_of p) content f) as [t|]; [|by exists f]. eexists. split; [reflexivity|].
      by rewrite lookup_insert_ne.
    - eexists. split; [reflexivity|]. rewrite lookup_insert_ne, lookup_insert_eq by done. done. }
  destruct (write_text o (tmp_of p) content f h) as [[[]|e] st]; cbn in Hf1, Htmp; subst st; [|by left].
  unfold replace, guarded. rewrite bind_get. destruct (refuse o "replace" p f1); [by left|].
  rewrite bind_get, Htmp by done. destruct (is_dir p f1); [by left|]. right. cbn. by rewrite lookup_insert_eq.
Qed.

(** ** Small runs *)

#[local] Instance no_repr : FloatRepr := λ _, "0.5".

Definition two_runs : list record :=
  [[("agent_name", PStr "a"); ("llm_model", PStr "org/m"); ("outcome", PStr "fixed"); ("total_prompt_tokens", PInt 5)];
   [("agent_name", PStr "a"); ("llm_model", PStr "org/m"); ("outcome", PStr "fixed"); ("total_prompt_tokens", PNone);
    ("reflection_count", PInt 2)]].

Example two_runs_counted :
  match aggregate two_runs with
  | Ok c => fixes c !! ["a"; "org-m"; "fixed"] = Some 2%Z ∧ tokens c !! ["prompt"; "org-m"] = Some 5%Z ∧
            reflection c !! ["a"] = Some 1%Z ∧ cost c !! ["org-m"] = None
  | Raise _ => False
  end.
Proof. by vm_compute. Qed.

(** The slug of a model is not the one the journal puts in its names. *)
Example slugs_differ :
  slugify_model (PStr "/org//m") = Ok "-org-m" ∧ Journal.model_slug (PStr "/org//m") = "org--m".
Proof. by vm_compute. Qed.

End Scrape.
