(* ===== verification/Sweep.v ===== *)
(** * A sweep of agents over fixtures

    Models of [evaluation/fixture.py], of [evaluation/runner.py] and of the
    commands [list-fixtures] and [report] of [evaluation/cli.py].  An agent is what
    its run answers, with the time the run took, on the file system; the start-up
    check of the model and the construction of the enhancements are those of
    [Preflight] and [Enhancements], passed as arguments.  Names of agents are texts. *)

From S2P Require Import Prelude PyStr PyTime Effects PyJson PyJsonLoads PyJsonIndent Files Prompt RunRecord World ReactLoop Metrics.
Local Open Scope string_scope.
Local Open Scope list_scope.

Module Sweep.
Import Files RunRecord.

(** ** fixture.py *)

Record Fixture := mkFixture {
  fixture_id : string;
  source_dir : path;
  trace_file : option path;
  test_cmd : pyval;
  category : pyval;
  difficulty : pyval;
  expected_outcome : pyval;
  notes : pyval;
  expected_patch : option path
}.

Definition name_of (p : path) : string := List.last p "".
Definition if_exists (p : path) (f : fs) : option path := if exists_ p f then Some p else None.

Section fixtures.
Context `{FloatParse} (o : os).

Definition read_json (p : path) : M fs pyval :=
  text ← read_text o p;
  match json_loads text with
  | Some v => mret v
  | None => throw (value_error "not a JSON document")
  end.

Definition load (fixture_dir : path) : M fs Fixture :=
  f ← get;
  meta ← (if exists_ (fixture_dir ++ ["meta.json"]) f then read_json (fixture_dir ++ ["meta.json"])
          else mret (PDict []));
  if negb (is_dir (fixture_dir ++ ["source"]) f) then
    throw (value_error ("fixture " +:+ show fixture_dir +:+ " has no source/ dir"))
  else
    cmd ← lift (py_get meta "test_cmd" (PStr "pytest"));
    cat ← lift (py_get meta "category" (PStr "unknown"));
    diff ← lift (py_get meta "difficulty" (PStr "medium"));
    exp ← lift (py_get meta "expected_outcome" (PStr "fixed"));
    notes ← lift (py_get meta "notes" (PStr ""));
    mret (mkFixture (name_of fixture_dir) (fixture_dir ++ ["source"]) (if_exists (fixture_dir ++ ["trace.txt"]) f)
            cmd cat diff exp notes (if_exists (fixture_dir ++ ["expected.patch"]) f)).

(** A directory that is not hidden and has a source tree. *)
Definition is_fixture (f : fs) (child : path) : bool :=
  is_dir child f && negb (startswith "." (name_of child)) && is_dir (child ++ ["source"]) f.

Fixpoint load_all (children : list path) : M fs (list Fixture) :=
  match children with
  | [] => mret []
  | child :: children' =>
      f ← get;
      if is_fixture f child then
        x ← load child;
        xs ← load_all children';
        mret (x :: xs)
      else load_all children'
  end.

Definition discover (root : path) : M fs (list Fixture) :=
  f ← get;
  if negb (is_dir root f) then mret []
  else children ← sorted_iterdir o root; load_all children.

End fixtures.

(** ** runner.py *)

(** [dict(v)] of a JSON value. *)
Definition to_kwargs (v : pyval) : res (list (string * pyval)) :=
  match v with
  | PDict d => Ok d
  | PList [] | PStr EmptyString => Ok []
  | PList _ | PStr _ => Raise (value_error "dictionary update sequence element #0 has the wrong length")
  | v => Raise (type_error ("'" +:+ type_name v +:+ "' object is not iterable"))
  end.

(** What [LangGraphAgent] is constructed with; [B] is the type of what is built of
    the enhancements. *)
Record agent_args (B : Type) := mkAgent {
  agent_config : list (string * pyval);
  kwargs : list (string * pyval);
  enhancements : option B
}.
Arguments mkAgent {B}.
Arguments agent_config {B}.
Arguments kwargs {B}.
Arguments enhancements {B}.

(** The keywords [LangGraphAgent] takes; [given] are those the caller passes itself. *)
Definition KEYWORDS : list string := ["journal"; "enhancements"; "agent_config"; "checkpointer"; "code_review"].
Definition check_keywords (given : list string) (kw : list (string * pyval)) : res unit :=
  match List.filter (λ k, mem k given) (map fst kw), List.filter (λ k, negb (mem k KEYWORDS)) (map fst kw) with
  | k :: _, _ => Raise (type_error ("agents.langgraph_agent.LangGraphAgent() got multiple values for keyword argument '" +:+ k +:+ "'"))
  | [], k :: _ => Raise (type_error ("LangGraphAgent.__init__() got an unexpected keyword argument '" +:+ k +:+ "'"))
  | [], [] => Ok tt
  end.

(** What a run of an agent reports. *)
Record fix_output := mkFix {
  outcome : string;
  error : pyval;
  iterations : Z;
  final_state : option (list (string * pyval))
}.

(** The arguments of [LocalNoGitProvider]; the texts of paths are kept as paths. *)
Record provider_args := mkProvider {
  p_source_dir : path;
  p_output_dir : path;
  p_trace_file : option path;
  p_test_cmd : pyval;
  p_bug_id : string
}.

(** [bug_input] of a cell. *)
Record cell_input := mkInput { in_bug_id : string; in_provider : provider_args; in_thread_id : string }.

Section sweep.
Context `{FloatRepr} {B : Type} (build_enhancements : pyval → res B).
Context (o : os) (git : git_runner) (via_gateway : bool) (cfg_model : pyval).

Definition get_or (k : string) (dflt : pyval) (d : list (string * pyval)) : pyval := default dflt (dict_get k d).

Definition make_agent (agent_spec : list (string * pyval)) (served : pyval) : res (agent_args B) :=
  let agent_spec := match served with PNone => agent_spec | v => dict_set "llm_model_served" v agent_spec end in
  let kind := get_or "agent" (PStr "langgraph") agent_spec in
  kw ← to_kwargs (get_or "kwargs" (PDict []) agent_spec);
  if bool_decide (kind = PStr "langgraph") then
    let enh_specs := get_or "enhancements" (PList []) agent_spec in
    enh ← (if truthy enh_specs then b ← build_enhancements enh_specs; Ok (Some b) else Ok None);
    let given := dict_has "enhancements" kw in
    let kw := dict_setdefault "checkpointer" PNone kw in
    _ ← check_keywords ["agent_config"] kw;
    Ok (mkAgent agent_spec kw (if given then None else enh))
  else Raise (value_error ("unknown agent kind: " +:+ py_repr kind)).

Definition make_provider (x : Fixture) (output_dir : path) : M fs provider_args :=
  _ ← mkdir_parents o output_dir;
  mret (mkProvider (source_dir x) output_dir (trace_file x) (test_cmd x) (fixture_id x)).

(** A run: what [fix] returns or raises, with its duration.  It sees the
    environment of the process. *)
Context (fix_ : agent_args B → list (string * string) → cell_input → M fs (res fix_output * Q)).
(** The time a record is made. *)
Context (now : string → string → Z).

Definition spec_name (spec : list (string * pyval)) : pyval :=
  get_or "name" (get_or "agent" (PStr "agent") spec) spec.

(** What the record of a cell is made of. *)
Definition outputs_of (name run_id : string) (served : pyval) (spec : list (string * pyval)) (x : Fixture)
    (r : res fix_output * Q) : outputs :=
  let out := match r.1 with Ok out => out | Raise e => mkFix "error" (PStr (exn_msg e)) 0 None end in
  mkOutputs name (fixture_id x) "" "" "" (outcome out) (error out) (iterations out) (World.dict <$> final_state out)
    (PFloat (Metrics.round_to 1000 r.2)) (PDict spec) (PStr run_id)
    (py_or (get_or "llm_model" PNone spec) cfg_model) served.

Definition cell_record (name run_id : string) (served : pyval) (spec : list (string * pyval)) (x : Fixture)
    (r : res fix_output * Q) : list (string * pyval) :=
  let out := outputs_of name run_id served spec x r in
  dict_set "matches_expected" (PBool (World.py_eqb (PStr (o_outcome out)) (expected_outcome x)))
    (dict_set "expected_outcome" (expected_outcome x)
       (dict_set "difficulty" (difficulty x)
          (dict_set "category" (category x)
             (dict_set "fixture_id" (PStr (fixture_id x))
                (from_outputs git via_gateway (now name (fixture_id x)) out))))).

Definition run_cell (run_dir : path) (run_id : string) (served : pyval) (environ : list (string * string))
    (spec : list (string * pyval)) (name : string) (agent : agent_args B) (x : Fixture) : M fs (list (string * pyval)) :=
  let cell_dir := join (join run_dir name) (fixture_id x) in
  _ ← mkdir_parents o cell_dir;
  provider ← make_provider x (cell_dir ++ ["patch_output"]);
  r ← fix_ agent environ (mkInput (fixture_id x) provider (fixture_id x +:+ "::" +:+ name));
  let record := cell_record name run_id served spec x r in
  _ ← write_text o (cell_dir ++ ["record.json"]) (json_pretty (PDict record));
  _ ← match r.1 with
      | Ok out => match final_state out with
                  | Some st => write_text o (cell_dir ++ ["final_state.json"]) (json_pretty (PDict st))
                  | None => mret tt
                  end
      | Raise _ => mret tt
      end;
  mret record.

Fixpoint run_fixtures (run_dir : path) (run_id : string) (served : pyval) (environ : list (string * string))
    (spec : list (string * pyval)) (name : string) (agent : agent_args B) (fixtures : list Fixture) :
    M fs (list pyval) :=
  match fixtures with
  | [] => mret []
  | x :: fixtures' =>
      r ← run_cell run_dir run_id served environ spec name agent x;
      rs ← run_fixtures run_dir run_id served environ spec name agent fixtures';
      mret (PDict r :: rs)
  end.

Fixpoint run_specs (run_dir : path) (run_id : string) (served : pyval) (environ : list (string * string))
    (fixtures : list Fixture) (specs : list (list (string * pyval))) : M fs (list pyval) :=
  match specs with
  | [] => mret []
  | spec :: specs' =>
      agent ← lift (make_agent spec served);
      rs ← match fixtures, spec_name spec with
           | [], _ => mret []
           | _, PStr name => run_fixtures run_dir run_id served environ spec name agent fixtures
           | _, v => throw (type_error ("unsupported operand type(s) for /: 'PosixPath' and '" +:+ type_name v +:+ "'"))
           end;
      rest ← run_specs run_dir run_id served environ fixtures specs';
      mret (rs ++ rest)
  end.

(** [run_sweep]: the directory of the run, and the environment it leaves.  [check]
    is the start-up check of the model, [start] the time a run without an
    identifier is named after. *)
Definition run_sweep (runs_root : path) (check : res pyval) (start : Z) (environ : list (string * string))
    (specs : list (list (string * pyval))) (fixtures : list Fixture) (run_id : option string) :
    M fs (path * list (string * string)) :=
  let run_id := match run_id with
                | Some i => if str_nonempty i then i else "run_" +:+ stamp start
                | None => "run_" +:+ stamp start
                end in
  let run_dir := join runs_root run_id in
  _ ← mkdir_parents o run_dir;
  let environ := dict_set "BF_STEP_CHECKPOINT" "none" environ in
  served ← lift check;
  summary ← run_specs run_dir run_id served environ fixtures specs;
  _ ← write_text o (run_dir ++ ["summary.json"]) (json_pretty (PList summary));
  mret (run_dir, environ).

End sweep.
End Sweep.
