(* ===== verification/SweepSpec.v ===== *)
(** * A sweep records every cell

    On a file system that refuses nothing, a sweep whose agents keep to their
    output directory leaves a record for every pair of an agent and a fixture, and
    a summary with these records in order; the report reads them back. *)

From stdpp Require Import sorting.
From S2P Require Import Prelude PyStr PyTime Effects PyJson PyJsonLoads PyJsonIndent Files Guards Prompt RunRecord Journal JournalSpec World ReactLoop Metrics Sweep.
Local Open Scope string_scope.
Local Open Scope list_scope.

Module SweepSpec.
Import Files RunRecord JournalSpec Sweep.
Implicit Types (x : Fixture) (spec : list (string * pyval)) (served : pyval) (name run_id n t : string)
  (run_dir d p q c : path) (f : fs) (h : trace) (environ : list (string * string)).

(** A name that is one component of a path. *)
Definition component (n : string) : Prop := plain n = true ∧ PatchGuard.clean_segment n = true.

Lemma join_component (d : path) n : component n → join d n = d ++ [n].
Proof. intros [Hp Hc]. unfold join. by rewrite pure_parts_plain. Qed.

(** Directories down to [d]. *)
Definition open_to (d : path) (f : fs) : Prop := ∀ q, q `prefix_of` d → f !! q = Some Dir.
Definition empty_below (d : path) (f : fs) : Prop := ∀ q, below d q = true → f !! q = None.

Lemma below_trans (p q r : path) : below p q = true → below q r = true → below p r = true.
Proof. unfold below. rewrite !bool_decide_eq_true. apply transitivity. Qed.

Lemma below_app (p q : path) : below p (p ++ q) = true.
Proof. apply bool_decide_eq_true. by exists q. Qed.

Lemma not_below_prefix (p q : path) : q `prefix_of` p → ∀ n, below (p ++ [n]) q = false.
Proof.
  intros Hq n. apply bool_decide_eq_false. intros Hb. apply (prefix_snoc_not p n). by etrans.
Qed.

(** Making a directory whose parents are there or missing. *)
Lemma mkdir_run (o : os) (d : path) (f : fs) h : willing o → (∀ q, q `prefix_of` d → room f q) →
  ∃ f', mkdir_parents o d f h = (Ok tt, (f', h)) ∧ open_to d f' ∧ ∀ q, ¬ q `prefix_of` d → f' !! q = f !! q.
Proof.
  intros Hw Hd. destruct (mkdir_parents_run o d f h Hw Hd) as (f' & Hrun & Hf'). exists f'. split; [done|]. split.
  - intros q Hq. by rewrite Hf', decide_True.
  - intros q Hq. by rewrite Hf', decide_False.
Qed.

Lemma write_below (o : os) (d : path) (n t : string) (f : fs) h : willing o → open_to d f → f !! (d ++ [n]) ≠ Some Dir →
  write_text o (d ++ [n]) t f h = (Ok tt, (<[d ++ [n] := File t]> f, h)).
Proof. intros Hw Hd Hn. apply write_text_run; [done| |done]. by apply Hd. Qed.

Lemma Forall2_in_l {A B} (P Q : A → B → Prop) l k :
  Forall2 P l k → (∀ a b, a ∈ l → P a b → Q a b) → Forall2 Q l k.
Proof.
  intros Hl. induction Hl as [|a b l k Hab _ IH]; intros Hq; constructor; [apply Hq; [by left|done]|].
  apply IH. intros a' b' Hin. apply Hq. by right.
Qed.

Section sweep.
Context `{FloatRepr} {B : Type} (build_enhancements : pyval → res B).
Context (o : os) (git : git_runner) (via_gateway : bool) (cfg_model : pyval).
Context (fix_ : agent_args B → list (string * string) → cell_input → M fs (res fix_output * Q)).
Context (now : string → string → Z).

(** What is known of the results of the agents. *)
Context (good : res fix_output * Q → Prop).

(** What a sweep relies on of an agent: its run ends, and writes only below the
    directory it was given for its output. *)
Definition keeps_to_output : Prop := ∀ agent environ i f h,
  ∃ r f', fix_ agent environ i f h = (Ok r, (f', h)) ∧ good r ∧
    ∀ q, below (p_output_dir (in_provider i)) q = false → f' !! q = f !! q.

Context (Hw : willing o) (Hagent : keeps_to_output).
Notation record_of := (cell_record git via_gateway cfg_model now).
Notation cell_run := (run_cell o git via_gateway cfg_model fix_ now).

(** A cell that was run: its record is in its directory. *)
Definition recorded (run_dir : path) (run_id : string) (served : pyval) (spec : list (string * pyval)) (name : string)
    (f : fs) (x : Fixture) (cell : pyval) : Prop :=
  ∃ r, good r ∧ cell = PDict (record_of name run_id served spec x r) ∧ f !! (run_dir ++ [name; fixture_id x]) = Some Dir ∧
    f !! (run_dir ++ [name; fixture_id x; "record.json"]) = Some (File (json_pretty cell)).

(** A cell whose directories are there, after the agent has run. *)
Record ready (c : path) (f : fs) : Prop := {
  ready_open : open_to c f;
  ready_free n : n ≠ "patch_output" → f !! (c ++ [n]) = None
}.

Lemma cell_prefixes run_dir name n q : q `prefix_of` run_dir ++ [name; n] →
  q `prefix_of` run_dir ∨ q = run_dir ++ [name] ∨ q = run_dir ++ [name; n].
Proof.
  change [name; n] with ([name] ++ [n]). rewrite app_assoc.
  intros [[Hq|Hq]%prefix_app_last|Hq]%prefix_app_last; auto.
Qed.

Lemma snoc_neq (c : path) n : c ++ [n] ≠ c.
Proof. intros E. symmetry in E. by apply app_self_nonnil in E. Qed.

Lemma snoc_ne_snoc (c : path) n n' : n ≠ n' → c ++ [n] ≠ c ++ [n'].
Proof. by intros Hne [_ ?]%app_inj_tail. Qed.

Lemma cell_prepared run_dir name n f h : let c := run_dir ++ [name; n] in let out := c ++ ["patch_output"] in
  open_to run_dir f → room f (run_dir ++ [name]) → empty_below c f →
  ∃ f1 f2, mkdir_parents o c f h = (Ok tt, (f1, h)) ∧ mkdir_parents o out f1 h = (Ok tt, (f2, h)) ∧
    ∀ f3, (∀ q, below out q = false → f3 !! q = f2 !! q) →
      ready c f3 ∧ ∀ q, below c q = false → q ≠ run_dir ++ [name] → f3 !! q = f !! q.
Proof.
  intros c out Hopen Hroom Hempty.
  destruct (mkdir_run o c f h Hw) as (f1 & Hmk1 & Hopen1 & Hf1).
  { intros q [Hq|[-> | ->]]%cell_prefixes; [right; by apply Hopen|done|left; apply Hempty, below_refl]. }
  assert (∀ q, below c q = true → q ≠ c → f1 !! q = None) as Hfree1.
  { intros q Hq Hne. rewrite Hf1; [by apply Hempty|]. intros Hp. apply bool_decide_eq_true in Hq.
    destruct Hne. by apply (anti_symm prefix). }
  destruct (mkdir_run o out f1 h Hw) as (f2 & Hmk2 & Hopen2 & Hf2).
  { intros q [Hq| ->]%prefix_app_last; [right; by apply Hopen1|left; apply Hfree1; [apply below_snoc|apply snoc_neq]]. }
  exists f1, f2. split; [done|]. split; [done|]. intros f3 Hf3. split; [split|].
  - intros q Hq. rewrite Hf3 by by apply not_below_prefix. apply Hopen2. etrans; [done|]. by apply prefix_app_r.
  - intros m Hne. assert (¬ c ++ [m] `prefix_of` out) as Hnp.
    { intros [Hq|Hq]%prefix_app_last; [by apply prefix_snoc_not in Hq|]. by apply (snoc_ne_snoc c m "patch_output"). }
    rewrite Hf3, Hf2; [apply Hfree1; [apply below_snoc|apply snoc_neq]|done|].
    apply bool_decide_eq_false. intros [Hq|Hq]%prefix_app_last; [by apply prefix_snoc_not in Hq|].
    by apply (snoc_ne_snoc c m "patch_output").
  - intros q Hq Hne. assert (below out q = false) as Hout.
    { apply not_true_is_false. intros Hb. by rewrite (below_child c "patch_output" q Hb) in Hq. }
    rewrite Hf3 by done. destruct (decide (q `prefix_of` run_dir)) as [Hp|Hp].
    + rewrite (Hopen q Hp). apply Hopen2. etrans; [exact Hp|]. unfold out, c. rewrite <- app_assoc. by apply prefix_app_r.
    + rewrite Hf2, Hf1; [done| |].
      * intros [?|[?| ->]]%cell_prefixes; [done|done|]. by rewrite below_refl in Hq.
      * intros [[?|[?| ->]]%cell_prefixes| ->]%prefix_app_last; [done|done| |by rewrite below_snoc in Hq].
        by rewrite below_refl in Hq.
Qed.

(** The files of a cell: its record and, where there is one, its final state. *)
Definition write_cell (c : path) t (st : option (list (string * pyval))) : M fs unit :=
  _ ← write_text o (c ++ ["record.json"]) t;
  match st with Some st => write_text o (c ++ ["final_state.json"]) (json_pretty (PDict st)) | None => mret tt end.

Lemma write_cell_run c t st f h : ready c f →
  ∃ f', write_cell c t st f h = (Ok tt, (f', h)) ∧ f' !! (c ++ ["record.json"]) = Some (File t) ∧
    ∀ q, (∀ n, n ≠ "patch_output" → q ≠ c ++ [n]) → f' !! q = f !! q.
Proof.
  intros [Hopen Hfree]. unfold write_cell. rewrite bind_run, write_below; [|done|done|by rewrite Hfree].
  destruct st as [st|]; [|eexists; split; [reflexivity|]; split; [by rewrite lookup_insert_eq|]].
  - rewrite write_below; [eexists; split; [reflexivity|]; split|done| |].
    + rewrite lookup_insert_ne by by apply snoc_ne_snoc. by rewrite lookup_insert_eq.
    + intros q Hq. by rewrite !lookup_insert_ne by (apply not_eq_sym; by apply Hq).
    + intros q Hq. rewrite lookup_insert_ne; [by apply Hopen|]. intros <-. by apply prefix_snoc_not in Hq.
    + rewrite lookup_insert_ne by by apply snoc_ne_snoc. by rewrite Hfree.
  - intros q Hq. by rewrite lookup_insert_ne by (apply not_eq_sym; by apply Hq).
Qed.

Lemma run_cell_unfold run_dir run_id served environ spec name (agent : agent_args B) x f h :
  component name → component (fixture_id x) →
  cell_run run_dir run_id served environ spec name agent x f h =
  (let c := run_dir ++ [name; fixture_id x] in
   _ ← mkdir_parents o c;
   _ ← mkdir_parents o (c ++ ["patch_output"]);
   r ← fix_ agent environ (mkInput (fixture_id x) (mkProvider (source_dir x) (c ++ ["patch_output"])
         (trace_file x) (test_cmd x) (fixture_id x)) (fixture_id x +:+ "::" +:+ name));
   _ ← write_cell c (json_pretty (PDict (record_of name run_id served spec x r)))
         (match r.1 with Ok out => final_state out | Raise _ => None end);
   mret (record_of name run_id served spec x r)) f h.
Proof.
  intros Hn Hx. unfold run_cell. rewrite !join_component by done. rewrite <- (app_assoc run_dir [name] [fixture_id x]).
  cbv zeta. unfold make_provider. rewrite !bind_run. cbn [app]. destruct (mkdir_parents o _ f h) as [[[]|e] [f1 h1]]; [|done].
  rewrite !bind_run. destruct (mkdir_parents o _ f1 h1) as [[[]|e] [f2 h2]]; [|done]. cbn [mret M_ret].
  rewrite !bind_run. destruct (fix_ _ _ _ f2 h2) as [[r|e] [f3 h3]]; [|done]. unfold write_cell. rewrite !bind_run.
  destruct (write_text o _ _ f3 h3) as [[[]|e] [f4 h4]]; [|done]. by destruct r.1 as [out|]; [destruct (final_state out)|].
Qed.

Lemma run_cell_run run_dir run_id served environ spec name (agent : agent_args B) x f h :
  component name → component (fixture_id x) →
  open_to run_dir f → room f (run_dir ++ [name]) → empty_below (run_dir ++ [name; fixture_id x]) f →
  ∃ cell f', cell_run run_dir run_id served environ spec name agent x f h = (Ok cell, (f', h)) ∧
    recorded run_dir run_id served spec name f' x (PDict cell) ∧ f' !! (run_dir ++ [name]) = Some Dir ∧
    ∀ q, below (run_dir ++ [name; fixture_id x]) q = false → q ≠ run_dir ++ [name] → f' !! q = f !! q.
Proof.
  intros Hn Hx Hopen Hroom Hempty. rewrite run_cell_unfold by done. cbv zeta. set (c := run_dir ++ [name; fixture_id x]) in *.
  destruct (cell_prepared run_dir name (fixture_id x) f h Hopen Hroom Hempty) as (f1 & f2 & Hmk1 & Hmk2 & Hthen).
  fold c in Hmk1, Hmk2, Hthen. rewrite bind_run, Hmk1, bind_run, Hmk2, bind_run.
  match goal with |- context [fix_ ?a ?e ?i f2 h] => destruct (Hagent a e i f2 h) as (r & f3 & Hr & Hgood & Hf3) end.
  rewrite Hr. destruct (Hthen f3 Hf3) as [Hready Hframe]. rewrite bind_run.
  destruct (write_cell_run c (json_pretty (PDict (record_of name run_id served spec x r)))
    (match r.1 with Ok out => final_state out | Raise _ => None end) f3 h Hready) as (f4 & -> & Hrec & Hf4).
  assert (∀ q, below c q = false → f4 !! q = f3 !! q) as Hout.
  { intros q Hq. apply Hf4. intros n _ ->. by rewrite below_snoc in Hq. }
  eexists _, f4. split; [reflexivity|]. split_and!.
  - exists r. split; [done|]. split; [done|]. split; [|rewrite <- Hrec; f_equal; unfold c; by rewrite <- app_assoc].
    rewrite Hf4; [by apply (ready_open _ _ Hready)|]. intros n _ E. by apply app_self_nonnil in E.
  - rewrite Hout.
    + apply (ready_open _ _ Hready). exists [fixture_id x]. unfold c. by rewrite <- app_assoc.
    + unfold c. change [name; fixture_id x] with ([name] ++ [fixture_id x]). rewrite app_assoc. by apply not_below_prefix.
  - intros q Hq Hne. rewrite Hout by done. by apply Hframe.
Qed.
Lemma recorded_frame run_dir run_id served spec name f f' x cell :
  (∀ q, below (run_dir ++ [name; fixture_id x]) q = true → f' !! q = f !! q) →
  recorded run_dir run_id served spec name f x cell → recorded run_dir run_id served spec name f' x cell.
Proof.
  intros Hf (r & Hg & -> & Hd & Hr). exists r. split; [done|]. split; [done|]. split; [rewrite Hf; [done|apply below_refl]|]. rewrite Hf; [done|].
  change [name; fixture_id x; "record.json"] with ([name; fixture_id x] ++ ["record.json"]). rewrite app_assoc. apply below_snoc.
Qed.

Lemma other_cell run_dir name n n' q : n ≠ n' →
  below (run_dir ++ [name; n]) q = true → below (run_dir ++ [name; n']) q = false.
Proof.
  intros Hne [k ->]%bool_decide_eq_true. apply bool_decide_eq_false. intros [k' E].
  rewrite <- !app_assoc in E. apply app_inv_head in E. by simplify_eq/=.
Qed.

Lemma other_agent run_dir name name' q : name ≠ name' →
  below (run_dir ++ [name]) q = true → below (run_dir ++ [name']) q = false.
Proof.
  intros Hne [k ->]%bool_decide_eq_true. apply bool_decide_eq_false. intros [k' E].
  rewrite <- !app_assoc in E. apply app_inv_head in E. by simplify_eq/=.
Qed.

Lemma in_agent run_dir name n q : below (run_dir ++ [name; n]) q = true → below (run_dir ++ [name]) q = true ∧ q ≠ run_dir ++ [name].
Proof.
  change [name; n] with ([name] ++ [n]). rewrite app_assoc. intros Hb. split; [by eapply below_child|].
  intros ->. apply bool_decide_eq_true in Hb. by apply prefix_snoc_not in Hb.
Qed.

Notation fixtures_run := (run_fixtures o git via_gateway cfg_model fix_ now).

Lemma run_fixtures_run run_dir run_id served environ spec name (agent : agent_args B) (fixtures : list Fixture) f h :
  component name → Forall (λ x, component (fixture_id x)) fixtures → NoDup (map fixture_id fixtures) →
  open_to run_dir f → room f (run_dir ++ [name]) →
  Forall (λ x, empty_below (run_dir ++ [name; fixture_id x]) f) fixtures →
  ∃ cells f', fixtures_run run_dir run_id served environ spec name agent fixtures f h = (Ok cells, (f', h)) ∧
    Forall2 (recorded run_dir run_id served spec name f') fixtures cells ∧
    (fixtures ≠ [] ∨ f !! (run_dir ++ [name]) = Some Dir → f' !! (run_dir ++ [name]) = Some Dir) ∧
    ∀ q, (∀ x, x ∈ fixtures → below (run_dir ++ [name; fixture_id x]) q = false) → q ≠ run_dir ++ [name] → f' !! q = f !! q.
Proof.
  intros Hn. revert f. induction fixtures as [|x fixtures IH]; intros f Hall Hnd Hopen Hroom Hempty; cbn [run_fixtures].
  { exists [], f. split; [done|]. split; [constructor|]. split; [by intros [|]|done]. }
  apply Forall_cons in Hall as [Hx Hall]. apply NoDup_cons in Hnd as [Hnew Hnd]. apply Forall_cons in Hempty as [He Hempty].
  destruct (run_cell_run run_dir run_id served environ spec name agent x f h Hn Hx Hopen Hroom He)
    as (cell & f1 & Hrun & Hrec & Hdir & Hf1).
  assert (∀ y, y ∈ fixtures → fixture_id x ≠ fixture_id y) as Hne.
  { intros y Hy E. apply Hnew. rewrite E. apply list_elem_of_fmap. by exists y. }
  destruct (IH f1 Hall Hnd) as (cells & f2 & Hrun2 & Hrec2 & Hdir2 & Hf2).
  - intros q Hq. rewrite Hf1; [by apply Hopen| |].
    + apply not_true_is_false. intros [Hb _]%in_agent. by rewrite not_below_prefix in Hb.
    + intros ->. by apply prefix_snoc_not in Hq.
  - by right.
  - apply Forall_forall. intros y Hy q Hq. rewrite Forall_forall in Hempty. destruct (in_agent _ _ _ _ Hq) as [_ Hqd].
    rewrite Hf1; [by apply (Hempty y)| |done]. eapply other_cell; [|exact Hq]. apply not_eq_sym. by apply Hne.
  - exists (PDict cell :: cells), f2. rewrite bind_run, Hrun, bind_run, Hrun2. split; [done|]. split_and!.
    + constructor; [|done]. eapply recorded_frame; [|exact Hrec]. intros q Hq.
      apply Hf2; [|by apply in_agent in Hq as [_ ?]]. intros y Hy. eapply other_cell; [|exact Hq]. by apply Hne.
    + intros _. apply Hdir2. by right.
    + intros q Hq Hqd. rewrite Hf2; [apply Hf1; [apply Hq; by left|done]| |done]. intros y Hy. apply Hq. by right.
Qed.

Notation specs_run := (run_specs build_enhancements o git via_gateway cfg_model fix_ now).

(** An agent that can be made, under a name of its own. *)
Definition usable (served : pyval) (spec : list (string * pyval)) (name : string) : Prop :=
  spec_name spec = PStr name ∧ component name ∧ ∃ agent, make_agent build_enhancements spec served = Ok agent.

(** The specs make agents, and no two cells share a directory. *)
Record names_of_their_own (served : pyval) (specs : list (list (string * pyval))) (names : list string)
    (fixtures : list Fixture) : Prop := {
  specs_usable : Forall2 (usable served) specs names;
  specs_apart : NoDup names;
  no_summary : "summary.json" ∉ names;
  fixtures_named : Forall (λ x, component (fixture_id x)) fixtures;
  fixtures_apart : NoDup (map fixture_id fixtures)
}.

(** The cells of a sweep, in the order they are run. *)
Definition cell := (list (string * pyval) * string * Fixture)%type.
Definition cells_of (specs : list (list (string * pyval))) (names : list string) (fixtures : list Fixture) : list cell :=
  concat (zip_with (λ spec name, map (λ x, (spec, name, x)) fixtures) specs names).

Definition cell_recorded run_dir run_id served f (k : cell) (v : pyval) : Prop :=
  recorded run_dir run_id served k.1.1 k.1.2 f k.2 v.

(** A path that is in no cell, and is no directory of an agent. *)
Definition outside run_dir (names : list string) (fixtures : list Fixture) (q : path) : Prop :=
  ∀ name, name ∈ names → q ≠ run_dir ++ [name] ∧
    ∀ x, x ∈ fixtures → below (run_dir ++ [name; fixture_id x]) q = false.

Lemma outside_agents run_dir (names : list string) (fixtures : list Fixture) q :
  (∀ name, name ∈ names → below (run_dir ++ [name]) q = false) → outside run_dir names fixtures q.
Proof.
  intros Hq name Hn. specialize (Hq name Hn). split; [intros ->; by rewrite below_refl in Hq|].
  intros x _. apply not_true_is_false. intros [Hb _]%in_agent. congruence.
Qed.

Lemma outside_other run_dir name (names : list string) (fixtures : list Fixture) q :
  name ∉ names → below (run_dir ++ [name]) q = true → outside run_dir names fixtures q.
Proof. intros Hn Hq. apply outside_agents. intros name' Hin. eapply other_agent; [|exact Hq]. by intros ->. Qed.

Lemma outside_record run_dir (names : list string) (fixtures : list Fixture) (a b : string) :
  ¬ (a ∈ names ∧ b ∈ map fixture_id fixtures) → outside run_dir names fixtures (run_dir ++ [a; b; "record.json"]).
Proof.
  intros Hab name Hn. split; [intros E; by apply app_inv_head in E|]. intros x Hx. apply bool_decide_eq_false.
  intros [k E]. rewrite <- app_assoc in E. apply app_inv_head in E. simplify_eq/=. apply Hab. split; [done|].
  apply list_elem_of_fmap. by exists x.
Qed.

Lemma run_specs_run run_dir run_id served environ (fixtures : list Fixture) specs (names : list string) f h :
  Forall2 (usable served) specs names → NoDup names →
  Forall (λ x, component (fixture_id x)) fixtures → NoDup (map fixture_id fixtures) →
  open_to run_dir f → Forall (λ name, empty_below (run_dir ++ [name]) f) names →
  ∃ cells f', specs_run run_dir run_id served environ fixtures specs f h = (Ok cells, (f', h)) ∧
    Forall2 (cell_recorded run_dir run_id served f') (cells_of specs names fixtures) cells ∧
    (fixtures ≠ [] → ∀ name, name ∈ names → f' !! (run_dir ++ [name]) = Some Dir) ∧
    ∀ q, outside run_dir names fixtures q → f' !! q = f !! q.
Proof.
  intros Hu. revert f. induction Hu as [|spec name specs names (Hname & Hcomp & agent & Hmake) _ IH];
    intros f Hnd Hall Hids Hopen Hempty; cbn [run_specs].
  { exists [], f. split; [done|]. split; [constructor|]. split; [by intros _ name ?%elem_of_nil|done]. }
  apply NoDup_cons in Hnd as [Hnew Hnd]. apply Forall_cons in Hempty as [He Hempty].
  rewrite bind_run, Hmake. cbn [lift].
  destruct (run_fixtures_run run_dir run_id served environ spec name agent fixtures f h Hcomp Hall Hids Hopen)
    as (cells & f1 & Hrun & Hrec & Hdir & Hf1).
  { left. apply He, below_refl. }
  { apply Forall_forall. intros x _ q [Hq _]%in_agent. by apply He. }
  assert (∀ q, below (run_dir ++ [name]) q = false → f1 !! q = f !! q) as Hout.
  { intros q Hq. apply Hf1; [|by intros ->; rewrite below_refl in Hq]. intros x _. apply not_true_is_false.
    intros [Hb _]%in_agent. congruence. }
  destruct (IH f1 Hnd Hall Hids) as (rest & f2 & Hrun2 & Hrec2 & Hdir2 & Hf2).
  - intros q Hq. rewrite Hout; [by apply Hopen|]. by apply not_below_prefix.
  - apply Forall_forall. intros name' Hin q Hq. rewrite Forall_forall in Hempty. rewrite Hout; [by apply (Hempty name')|].
    eapply other_agent; [|exact Hq]. by intros ->.
  - exists (cells ++ rest), f2. rewrite bind_run.
    assert ((match fixtures, spec_name spec with
             | [], _ => mret []
             | _, PStr name => fixtures_run run_dir run_id served environ spec name agent fixtures
             | _, v => throw (type_error ("unsupported operand type(s) for /: 'PosixPath' and '" +:+ type_name v +:+ "'"))
             end) f h = (Ok cells, (f1, h))) as ->.
    { rewrite Hname. destruct fixtures; [|done]. cbn [run_fixtures] in Hrun. by injection Hrun as <- <-. }
    rewrite bind_run, Hrun2. split; [done|]. split_and!.
    + unfold cells_of. cbn [zip_with concat]. apply Forall2_app; [|done]. apply Forall2_fmap_l.
      eapply Forall2_impl; [exact Hrec|]. intros x v Hx. eapply recorded_frame; [|exact Hx]. intros q [Hq _]%in_agent.
      apply Hf2. by eapply outside_other.
    + intros Hne name' [-> |Hin]%elem_of_cons; [|by apply Hdir2].
      rewrite Hf2; [apply Hdir; by left|]. eapply outside_other; [done|]. apply below_refl.
    + intros q Hq. rewrite Hf2, Hf1; [done| | |].
      * intros x Hx. apply (Hq name); [by left|done].
      * apply (Hq name). by left.
      * intros name' Hin. apply Hq. by right.
Qed.

(** What a sweep leaves in its run directory: the cells with their records, and no
    records but theirs. *)
Record swept run_dir run_id (served : pyval) (specs : list (list (string * pyval))) (names : list string)
    (fixtures : list Fixture) (cells : list pyval) f : Prop := {
  swept_cells : Forall2 (cell_recorded run_dir run_id served f) (cells_of specs names fixtures) cells;
  swept_dirs : f !! run_dir = Some Dir ∧
    (fixtures ≠ [] → ∀ name, name ∈ names → f !! (run_dir ++ [name]) = Some Dir);
  swept_only a b : ¬ (a ∈ names ∧ b ∈ map fixture_id fixtures) → f !! (run_dir ++ [a; b; "record.json"]) = None;
  swept_summary : f !! (run_dir ++ ["summary.json"]) = Some (File (json_pretty (PList cells)))
}.

(** A sweep over agents and fixtures with names of their own, whose agents
    keep to their output directories, ends with its run directory: every pair of
    an agent and a fixture has its record there, the summary holds the same records
    in the order of the pairs, and nothing outside the cells has changed.  From then
    on the process takes no step checkpoints. *)
Lemma sweep_records_every_cell (runs_root : path) (served : pyval) (start : Z) (environ : list (string * string))
    (specs : list (list (string * pyval))) (names : list string) (fixtures : list Fixture) (run_id : string) (f : fs) h :
  names_of_their_own served specs names fixtures → run_id ≠ "" → component run_id →
  (∀ q, q `prefix_of` runs_root ++ [run_id] → room f q) → (∀ n, empty_below (runs_root ++ [run_id; n]) f) →
  let run_dir := runs_root ++ [run_id] in
  ∃ cells environ' f',
    run_sweep build_enhancements o git via_gateway cfg_model fix_ now runs_root (Ok served) start environ specs fixtures
      (Some run_id) f h = (Ok (run_dir, environ'), (f', h)) ∧
    swept run_dir run_id served specs names fixtures cells f' ∧
    dict_get "BF_STEP_CHECKPOINT" environ' = Some "none" ∧
    ∀ q, outside run_dir names fixtures q → q ≠ run_dir ++ ["summary.json"] → ¬ q `prefix_of` run_dir → f' !! q = f !! q.
Proof.
  intros [Hu Hnd Hsum Hall Hids] Hne Hid Hroom Hempty run_dir. unfold run_sweep.
  assert (str_nonempty run_id = true) as -> by (by destruct run_id). rewrite join_component by done. fold run_dir.
  destruct (mkdir_run o run_dir f h Hw) as (f1 & Hmk & Hopen & Hf1).
  { exact Hroom. }
  rewrite bind_run, Hmk. cbv zeta. rewrite bind_run. cbn [lift].
  set (environ' := dict_set "BF_STEP_CHECKPOINT" "none" environ).
  assert (∀ n q, below (run_dir ++ [n]) q = true → f1 !! q = None) as Hfree.
  { intros n q Hq. rewrite Hf1.
    { apply (Hempty n). by unfold run_dir in Hq; rewrite <- app_assoc in Hq. }
    intros Hp.
    apply bool_decide_eq_true in Hq. apply (prefix_snoc_not run_dir n). by etrans. }
  destruct (run_specs_run run_dir run_id served environ' fixtures specs names f1 h Hu Hnd Hall Hids Hopen)
    as (cells & f2 & Hrun & Hrec & Hdirs & Hf2).
  { apply Forall_forall. intros n _ q. apply Hfree. }
  assert (f2 !! run_dir = Some Dir) as Hrd.
  { rewrite Hf2; [by apply Hopen|]. apply outside_agents. intros n _. by apply not_below_prefix. }
  assert (∀ n, n ∈ names → below (run_dir ++ [n]) (run_dir ++ ["summary.json"]) = false) as Hother.
  { intros n Hin. eapply other_agent; [|apply below_refl]. by intros <-. }
  rewrite bind_run, Hrun, bind_run, write_below; [|done| |].
  - exists cells, environ'. eexists. split; [reflexivity|]. split_and!.
    + split.
      * eapply Forall2_impl; [exact Hrec|]. intros k v (r & Hg & -> & Hd & Hr). exists r. split; [done|]. split; [done|].
        split; rewrite lookup_insert_ne by (intros E; apply app_inv_head in E; discriminate E); done.
      * split; [by rewrite lookup_insert_ne by apply snoc_neq|]. intros Hfx n Hn. rewrite lookup_insert_ne; [by apply Hdirs|].
        apply snoc_ne_snoc. by intros <-.
      * intros a b Hab. rewrite lookup_insert_ne by (intros E; apply app_inv_head in E; discriminate E).
        rewrite Hf2; [apply (Hfree a), bool_decide_eq_true; exists [b; "record.json"]; by rewrite <- app_assoc|].
        by apply outside_record.
      * apply lookup_insert_eq.
    + apply dict_get_set_eq.
    + intros q Hq Hs Hp. rewrite lookup_insert_ne by by apply not_eq_sym. by rewrite Hf2, Hf1.
  - intros q Hq. rewrite Hf2; [by apply Hopen|]. apply outside_agents. intros n _. by apply not_below_prefix.
  - rewrite Hf2 by by apply outside_agents. by rewrite (Hfree "summary.json") by apply below_refl.
Qed.

(** ** The report of a sweep *)

Lemma record_agent name run_id served spec x r :
  Metrics.at_key "agent_name" (PDict (record_of name run_id served spec x r)) = PStr name.
Proof.
  unfold Metrics.at_key, cell_record, dget. rewrite !dict_get_set_ne by done.
  change (default PNone (dict_get ?k ?d)) with (dget k d). rewrite dget_from_outputs; [done|]. apply (bool_decide_unpack _). by vm_compute.
Qed.

Lemma count_agents (name : string) (names : list string) (fixtures : list Fixture) (specs : list (list (string * pyval))) :
  List.length specs = List.length names → NoDup names →
  List.length (List.filter (λ k : cell, bool_decide (k.1.2 = name)) (cells_of specs names fixtures)) =
  if decide (name ∈ names) then List.length fixtures else 0%nat.
Proof.
  revert specs. induction names as [|n names IH]; intros [|spec specs] Hlen; try done. intros [Hn Hnd]%NoDup_cons.
  unfold cells_of. cbn [zip_with concat]. rewrite List.filter_app, length_app.
  fold (cells_of specs names fixtures). rewrite IH by (done || by injection Hlen).
  match goal with |- (List.length ?l + _)%nat = _ =>
    assert (List.length l = if decide (n = name) then List.length fixtures else 0%nat) as ->
  end.
  { clear. destruct (decide (n = name)) as [->|Hne]; induction fixtures as [|x fixtures IH]; try done; cbn.
    - rewrite bool_decide_eq_true_2 by done. cbn. by rewrite IH.
    - rewrite bool_decide_eq_false_2 by done. exact IH. }
  destruct (decide (n = name)) as [->|Hne].
  - rewrite decide_False, decide_True by (done || by left). lia.
  - destruct (decide (name ∈ names)) as [Hin|Hin]; [rewrite decide_True; [done|by right]|].
    rewrite decide_False; [done|]. by intros [?|?]%elem_of_cons.
Qed.

Lemma agents_of_cells run_dir run_id served f (ks : list cell) (cells : list pyval) (name : string) :
  Forall2 (cell_recorded run_dir run_id served f) ks cells →
  List.length (MetricsSpec.of_agent name cells) = List.length (List.filter (λ k : cell, bool_decide (k.1.2 = name)) ks).
Proof.
  intros Hr. induction Hr as [|k v ks cells (r & _ & -> & _ & _) _ IH]; [done|]. unfold MetricsSpec.of_agent. cbn [List.filter].
  fold (MetricsSpec.of_agent name cells). rewrite record_agent.
  assert (bool_decide (PStr k.1.2 = PStr name) = bool_decide (k.1.2 = name)) as ->.
  { apply bool_decide_ext. split; [by intros [=]|by intros ->]. }
  case_bool_decide; cbn [List.length]; by rewrite IH.
Qed.

(** C19: after a sweep of agents with names of their own over some fixtures, under a
    run id that is one component of a path, whose cells and summary are on a disk
    that reads what it holds and whose records JSON can carry (floats whose text
    reads back and has no line break), what the report reads from the summary are
    the records of the cells, and where it can add them up, it has one row for each
    agent, which counts each of the fixtures once.  Two agents of one name share
    their cells, and the report cannot tell them apart. *)
Theorem report_of_sweep `{FloatParse} (runs_root : path) (run_id : string) (served : pyval) (specs : list (list (string * pyval)))
    (names : list string) (fixtures : list Fixture) (cells : list pyval) (f : fs) h :
  PlainFloats → component run_id → List.length specs = List.length names → NoDup names → fixtures ≠ [] →
  swept (runs_root ++ [run_id]) run_id served specs names fixtures cells f → Forall json_ok cells →
  Metrics.aggregate o runs_root run_id f h = (Metrics.aggregate_records (PList cells), (f, h)) ∧
  ∀ rows, Metrics.aggregate_records (PList cells) = Ok rows →
    ∃ agents, agents ≡ₚ names ∧
      Forall2 (λ name r, dget "agent_name" r = PStr name ∧ dget "n_fixtures" r = Metrics.nat_val (List.length fixtures)) agents rows.
Proof.
  intros Hp Hid Hlen Hnd Hne [Hrec _ _ Hsum] Hok. split.
  - unfold Metrics.aggregate. rewrite join_component by done.
    rewrite bind_get. unfold exists_. rewrite bool_decide_eq_true_2 by by rewrite Hsum. cbn [negb].
    unfold read_text. rewrite bind_run, guarded_willing, bind_get, Hsum by done. cbn [mret M_ret].
    rewrite json_loads_written_ok; [done|done|by apply json_ok_list].
  - intros rows (groups & resolved & Hb & Hrows)%MetricsSpec.aggregate_groups.
    destruct (MetricsSpec.groups_spec cells groups Hb) as (Hagents & _ & Hin & Hall & _).
    apply (MetricsSpec.rows_of_reports cells) in Hrows; [|exact Hall].
    set (agents := map fst (sort_by fst groups)) in *. exists agents.
    assert (∀ name, name ∈ names → List.length (MetricsSpec.of_agent name cells) = List.length fixtures) as Hcount.
    { intros name Hn. rewrite (agents_of_cells _ _ _ _ _ _ name Hrec), count_agents, decide_True; done. }
    assert (agents ≡ₚ names) as Hperm.
    { apply NoDup_Permutation; [done|done|]. intros name. rewrite Hin. split.
      - intros Hn. apply dec_stable. intros Hout. apply Hn, length_zero_iff_nil.
        by rewrite (agents_of_cells _ _ _ _ _ _ name Hrec), count_agents, decide_False.
      - intros Hn E. pose proof (Hcount name Hn) as Hl. rewrite E in Hl. by destruct fixtures. }
    split; [done|]. eapply Forall2_in_l; [exact Hrows|]. intros name r Hn Hrep.
    split; [apply Hrep|]. rewrite (MetricsSpec.row_fixtures _ _ _ Hrep), Hcount; [done|]. by rewrite <- Hperm.
Qed.
End sweep.

(** ** A sweep *)

Definition no_floats_repr : FloatRepr := λ _, "2.5".
Definition no_floats_parse : FloatParse := λ _, Some (2500 # 1000)%Q.
Definition no_git : git_runner := λ _, None.
Definition sample_fix (agent : agent_args unit) (environ : list (string * string)) (i : cell_input) :
    M fs (res fix_output * Q) :=
  mret (Ok (mkFix (if dict_has "good" (agent_config agent) then "fixed" else "no_fix") PNone 1 None), (5 # 2)%Q).
Definition fixture (n : string) : Fixture :=
  mkFixture n ["fx"; n; "source"] None (PStr "pytest") (PStr "unknown") (PStr "easy") (PStr "fixed") (PStr "") None.
Definition sample_specs : list (list (string * pyval)) := [[("name", PStr "a")]; [("name", PStr "b"); ("good", PBool true)]].
Definition sample_fixtures : list Fixture := [fixture "F01"; fixture "F02"].
Definition at_dawn : string → string → Z := λ _ _, 0%Z.

Definition sample_result (r : res fix_output * Q) : Prop :=
  ∃ fixed : bool, r = (Ok (mkFix (if fixed then "fixed" else "no_fix") PNone 1 None), (5 # 2)%Q).
Lemma sample_keeps : keeps_to_output sample_fix sample_result.
Proof. intros agent environ i f h. eexists _, f. split; [reflexivity|]. split; [|done].
  by exists (dict_has "good" (agent_config agent)). Qed.
Lemma obliging_willing : willing obliging.
Proof. done. Qed.

Lemma sample_names : @names_of_their_own no_floats_repr unit (λ _, Ok tt) PNone sample_specs ["a"; "b"] sample_fixtures.
Proof.
  split; try (by apply (bool_decide_unpack _); vm_compute).
  repeat constructor; by eexists.
Qed.

Lemma sample_sweep :
  let run_dir := ["runs"; "r1"] in
  ∃ cells environ' f',
    @run_sweep no_floats_repr unit (λ _, Ok tt) obliging no_git false PNone sample_fix at_dawn ["runs"] (Ok PNone) 0 []
      sample_specs sample_fixtures (Some "r1") ∅ [] = (Ok (run_dir, environ'), (f', [])) ∧
    @swept no_floats_repr no_git false PNone at_dawn sample_result run_dir "r1" PNone sample_specs ["a"; "b"] sample_fixtures cells f' ∧
    dict_get "BF_STEP_CHECKPOINT" environ' = Some "none" ∧
    ∀ q, outside run_dir ["a"; "b"] sample_fixtures q → q ≠ run_dir ++ ["summary.json"] → ¬ q `prefix_of` run_dir →
      f' !! q = (∅ : fs) !! q.
Proof.
  apply (@sweep_records_every_cell no_floats_repr unit (λ _, Ok tt) obliging no_git false PNone sample_fix at_dawn
           sample_result obliging_willing sample_keeps ["runs"] PNone 0 [] sample_specs ["a"; "b"] sample_fixtures "r1" ∅ []).
  - exact sample_names.
  - done.
  - done.
  - intros q _. by left.
  - by intros n q _.
Qed.

(** The records that sweep leaves. *)
Definition sample_cells : list pyval :=
  map (λ k : cell, PDict (cell_record no_git false PNone at_dawn k.1.2 "r1" PNone k.1.1 k.2
                            (Ok (mkFix "fixed" PNone 1 None), (5 # 2)%Q)))
    (cells_of sample_specs ["a"; "b"] sample_fixtures).
Definition sample_files : fs :=
  list_to_map ((["runs"; "r1"; "summary.json"], File (@json_pretty no_floats_repr (PList sample_cells)))
    :: map (λ p, (p, Dir)) [["runs"; "r1"]; ["runs"; "r1"; "a"]; ["runs"; "r1"; "b"]]
    ++ map (λ k : cell, (["runs"; "r1"; k.1.2; fixture_id k.2], Dir)) (cells_of sample_specs ["a"; "b"] sample_fixtures)
    ++ zip_with (λ (k : cell) v, (["runs"; "r1"; k.1.2; fixture_id k.2; "record.json"], File (@json_pretty no_floats_repr v)))
         (cells_of sample_specs ["a"; "b"] sample_fixtures) sample_cells).

Lemma sample_float : @json_float no_floats_repr no_floats_parse (2500 # 1000)%Q.
Proof.
  split; [exists "2"%char, ".5"; split; [done|by left]|]. intros rest Hr.
  change (@float_repr no_floats_repr (2500 # 1000)%Q +:+ rest) with (String "2" (String "." ("5" +:+ rest))).
  assert (scan_frac (String "." ("5" +:+ rest)) = (".5", rest)) as Hf.
  { unfold scan_frac. change (ch_eq "." ".") with true. cbv iota. by rewrite (span_digits_app "5" rest eq_refl Hr). }
  assert (scan_int (String "2" (String "." ("5" +:+ rest))) = Some ("2", String "." ("5" +:+ rest))) as Hi by reflexivity.
  unfold scan_number. change (split_minus (String "2" ?s)) with ("", String "2" s). cbv beta iota.
  rewrite Hi, Hf. destruct (value_end_scan rest Hr) as [_ ->]. done.
Qed.

Definition plain_record (v : pyval) : bool :=
  match v with
  | PDict d => bool_decide (NoDup (map fst d)) &&
      forallb (λ m, json_flat m.2 || bool_decide (m.2 = PFloat (2500 # 1000))) d
  | _ => false
  end.

Lemma plain_record_ok v : plain_record v = true → @json_ok no_floats_repr no_floats_parse v.
Proof.
  destruct v as [| | | | | |d]; try done. cbn [plain_record]. intros [Hnd%bool_decide_eq_true Hd]%andb_true_iff.
  apply json_ok_dict. split; [done|]. apply Forall_forall. intros [k v] Hin%list_elem_of_In.
  pose proof (proj1 (forallb_forall _ _) Hd _ Hin) as Hm. cbn [snd] in Hm |- *.
  apply orb_true_iff in Hm as [Hm|Hm%bool_decide_eq_true]; [by apply json_ok_flat|]. rewrite Hm. exact sample_float.
Qed.

Lemma sample_ok : Forall (@json_ok no_floats_repr no_floats_parse) sample_cells.
Proof.
  apply Forall_forall. intros v Hin%list_elem_of_In. apply plain_record_ok.
  assert (forallb plain_record sample_cells = true) as Hall by by vm_compute.
  by apply (proj1 (forallb_forall _ _) Hall).
Qed.

Lemma sample_swept :
  @swept no_floats_repr no_git false PNone at_dawn sample_result ["runs"; "r1"] "r1" PNone sample_specs ["a"; "b"] sample_fixtures
    sample_cells sample_files.
Proof.
  split.
  - unfold sample_cells. repeat constructor; eexists; (split; [by exists true|]; split; [reflexivity|]); by vm_compute.
  - split; [by vm_compute|]. intros _ n [->|[->|[]%elem_of_nil]%elem_of_cons]%elem_of_cons; by vm_compute.
  - intros a b Hab. apply not_elem_of_list_to_map_1. intros Hin. apply Hab.
    assert (∀ p, p ∈ map fst ((["runs"; "r1"; "summary.json"], File (@json_pretty no_floats_repr (PList sample_cells)))
      :: map (λ p, (p, Dir)) [["runs"; "r1"]; ["runs"; "r1"; "a"]; ["runs"; "r1"; "b"]]
      ++ map (λ k : cell, (["runs"; "r1"; k.1.2; fixture_id k.2], Dir)) (cells_of sample_specs ["a"; "b"] sample_fixtures)
      ++ zip_with (λ (k : cell) v, (["runs"; "r1"; k.1.2; fixture_id k.2; "record.json"], File (@json_pretty no_floats_repr v)))
           (cells_of sample_specs ["a"; "b"] sample_fixtures) sample_cells) →
      match p with [_; _; a; b; _] => a ∈ ["a"; "b"] ∧ b ∈ ["F01"; "F02"] | _ => True end) as Hall.
    { apply Forall_forall. unfold sample_cells. cbn. repeat constructor; set_solver. }
    exact (Hall _ Hin).
  - by vm_compute.
Qed.

Lemma report_of_sweep_witness :
  @Metrics.aggregate no_floats_parse obliging ["runs"] "r1" sample_files [] =
    (Metrics.aggregate_records (PList sample_cells), (sample_files, [])) ∧
  ∀ rows, Metrics.aggregate_records (PList sample_cells) = Ok rows →
    ∃ agents, agents ≡ₚ ["a"; "b"] ∧
      Forall2 (λ name r, dget "agent_name" r = PStr name ∧ dget "n_fixtures" r = Metrics.nat_val 2) agents rows.
Proof.
  apply (@report_of_sweep no_floats_repr obliging no_git false PNone at_dawn sample_result obliging_willing no_floats_parse
           ["runs"] "r1" PNone sample_specs ["a"; "b"] sample_fixtures sample_cells sample_files []).
  - intros q. reflexivity.
  - done.
  - done.
  - apply (bool_decide_unpack _). by vm_compute.
  - done.
  - exact sample_swept.
  - exact sample_ok.
Defined.

(** Two agents of one name: the second run of a cell takes the place of the first,
    though the summary still has both. *)
Definition twins : list (list (string * pyval)) := [[("name", PStr "a")]; [("name", PStr "a"); ("good", PBool true)]].
Example twins_share_a_cell :
  match @run_sweep no_floats_repr unit (λ _, Ok tt) obliging no_git false PNone sample_fix at_dawn ["runs"] (Ok PNone) 0 []
          twins [fixture "F01"] (Some "r1") ∅ [] with
  | (Ok _, (f, _)) =>
      str_contains ("no_fix" +:+ dquote) (match f !! ["runs"; "r1"; "a"; "F01"; "record.json"] with Some (File t) => t | _ => "" end) = false ∧
      str_contains ("no_fix" +:+ dquote) (match f !! ["runs"; "r1"; "summary.json"] with Some (File t) => t | _ => "" end) = true
  | _ => False
  end.
Proof. by vm_compute. Qed.

End SweepSpec.
