(* ===== verification/Coordinator.v ===== *)
(** * Agents pinned to versions of the code

    Model of [evaluation/coordinator.py]: the specs are grouped by the version
    they name; those of the current checkout are run in place, those of every
    other version by the command line of a temporary worktree, whose results are
    copied back.  [git] and the child process act on the file system and are
    arguments; so are the temporary names and the links of the file system
    ([resolve]). *)

From S2P Require Import Prelude PyStr PyTime Effects PyJson PyJsonLoads PyJsonIndent Guards Files Prompt RunRecord World ReactLoop Metrics Sweep.
Local Open Scope string_scope.
Local Open Scope list_scope.

Module Coordinator.
Import Files Sweep.

Notation spec := (list (string * pyval)).

(** ** Grouping *)

Definition CURRENT_REFS : list string := [""; "current"; "workspace"; "working-tree"; "working_tree"].

Definition normalize_agent_ref `{FloatRepr} (s : spec) : string :=
  match dget "agent_ref" s with
  | PNone => ""
  | v => let ref := str_strip (py_str v) in if mem (str_lower ref) CURRENT_REFS then "" else ref
  end.

Definition add_to_group (ref : string) (s : spec) (groups : list (string * list spec)) : list (string * list spec) :=
  dict_set ref (default [] (dict_get ref groups) ++ [s]) groups.

Definition group_specs_by_agent_ref `{FloatRepr} (specs : list spec) : list (string * list spec) :=
  fold_left (λ groups s, add_to_group (normalize_agent_ref s) s groups) specs [].

Definition safe_char (c : ascii) : ascii := if is_alnum c || mem c ["."; "_"; "-"]%char then c else "-"%char.
Definition safe_ref_label (ref : string) : string :=
  let label := str_take 80 (str_map safe_char ref) in if str_nonempty label then label else "ref".

(** ** Copies *)

Definition copy_node (src dst : path) (f : fs) : fs :=
  map_fold (λ q n acc, match PatchGuard.relative_to q src with Some r => <[dst ++ r := n]> acc | None => acc end) f f.

Section copies.
Context (o : os).

(** [shutil.copytree] and [shutil.copy2]. *)
Definition copy (src dst : path) : M fs unit := guarded o "copy" src (modify (copy_node src dst)).

Definition unlink (p : path) : M fs unit :=
  guarded o "unlink" p
    (f ← get;
     match f !! p with
     | Some (File _) => modify (delete p)
     | Some Dir => throw (Exn "IsADirectoryError" (show p))
     | None => throw (not_found p)
     end).

Definition copy_child (dst child : path) : M fs unit :=
  let target := dst ++ [name_of child] in
  if bool_decide (name_of child = "summary.json") then mret tt
  else
    f ← get;
    _ ← (if exists_ target f then (if is_dir target f then rmtree o target else unlink target) else mret tt);
    copy child target.

Definition copy_run_outputs (src dst : path) : M fs unit :=
  f ← get;
  if negb (exists_ src f) then throw (Exn "FileNotFoundError" ("worktree run output missing: " +:+ show src))
  else
    _ ← mkdir_parents o dst;
    children ← sorted_iterdir o src;
    for_ children (copy_child dst).

(** ** Local configuration *)

Definition ENV_DIRS : list string := ["settings"; "gateway"].

Definition copy_env_file (dst_dir src : path) : M fs unit :=
  f ← get;
  if is_file src f && negb (bool_decide (name_of src = ".env")) && endswith ".env" (name_of src)
  then copy src (dst_dir ++ [name_of src]) else mret tt.

Definition copy_local_env_files (root worktree : path) : M fs unit :=
  for_ ENV_DIRS (λ rel,
    f ← get;
    if negb (is_dir (root ++ [rel]) f) then mret tt
    else
      _ ← mkdir_parents o (worktree ++ [rel]);
      children ← sorted_iterdir o (root ++ [rel]);
      for_ children (copy_env_file (worktree ++ [rel]))).

(** One line of an env file: the key and the value, without one layer of quotes. *)
Definition strip_char (c : ascii) : string → string := str_strip_by (λ d, ch_eq d c).
Definition env_line (line : string) : option (string * string) :=
  let stripped := str_strip line in
  if negb (str_nonempty stripped) || startswith "#" stripped || negb (str_contains "=" stripped) then None
  else
    let '(key, value) := str_partition "="%char stripped in
    let key := str_strip key in
    if str_nonempty key
    then Some (key, strip_char "'"%char (strip_char c_dquote (str_strip value))) else None.

Definition read_env_file (p : path) : M fs (list (string * string)) :=
  f ← get;
  if negb (exists_ p f) then mret []
  else
    text ← read_text o p;
    mret (fold_left (λ values line, match env_line line with Some (k, v) => dict_set k v values | None => values end)
            (splitlines text) []).

Definition dict_update {V} (d e : list (string * V)) : list (string * V) :=
  fold_left (λ d kv, dict_set kv.1 kv.2 d) e d.

Definition or_text (a : option string) (b : string) : string :=
  match a with Some s => if str_nonempty s then s else b | None => b end.

Definition env_values_for_child (root : path) (environ : list (string * string)) : M fs (list (string * string)) :=
  values ← read_env_file (root ++ ["settings"; ".env"]);
  let env_name := or_text (dict_get "ENV" values)
    (or_text (dict_get "env" values) (or_text (dict_get "ENV" environ) "local_multi_process")) in
  more ← read_env_file (join root ("settings/worker_" +:+ env_name +:+ ".env"));
  mret (dict_setdefault "ENV" env_name (dict_update values more)).

(** ** What git is told not to see *)

Definition EXCLUDES : list string :=
  ["settings/.env"; "settings/*.env"; "gateway/*.env"; "evaluation/runs/"; "__pycache__/"; "**/__pycache__/"; "*.pyc"].

(** The directory a [.git] file names. *)
Definition gitdir_of (resolve : path → path) (worktree : path) (text : string) : option path :=
  let text := str_strip text in
  if startswith "gitdir: " text then
    let dir := str_drop 8 text in
    Some (if startswith "/" dir then PatchGuard.pure_parts dir else resolve (join worktree dir))
  else None.

Definition exclude_file (resolve : path → path) (worktree : path) : M fs path :=
  f ← get;
  let usual := worktree ++ [".git"; "info"; "exclude"] in
  if exists_ usual f then mret usual
  else if is_file (worktree ++ [".git"]) f then
    text ← read_text o (worktree ++ [".git"]);
    mret (match gitdir_of resolve worktree text with Some d => d ++ ["info"; "exclude"] | None => usual end)
  else mret usual.

Definition missing_patterns (existing : string) : string :=
  fold_right (λ p acc, if str_contains p existing then acc else p +:+ nl +:+ acc) "" EXCLUDES.

Definition prepare_worktree_excludes (resolve : path → path) (worktree : path) : M fs unit :=
  exclude ← exclude_file resolve worktree;
  _ ← mkdir_parents o (parent exclude);
  f ← get;
  existing ← (if exists_ exclude f then read_text o exclude else mret "");
  let raw := match f !! exclude with Some (File t) => t | _ => "" end in
  write_text o exclude (raw +:+ missing_patterns existing).

(** ** Results *)

(** [replace]: the texts below a value, not its keys. *)
Fixpoint rewrite_value (sources : list string) (dst : string) (v : pyval) : pyval :=
  match v with
  | PStr s => PStr (fold_left (λ out src, str_replace src dst out) sources s)
  | PList l => PList (map (rewrite_value sources dst) l)
  | PDict d => PDict (map (λ '(k, x), (k, rewrite_value sources dst x)) d)
  | v => v
  end.

Definition rewrite_file `{FloatRepr, FloatParse} (sources : list string) (dst : string) (p : path) : M fs unit :=
  data ← try_ (text ← read_text o p; mret (json_loads text)) (λ _, mret None);
  match data with
  | None => mret tt
  | Some data =>
      let rewritten := rewrite_value sources dst data in
      if World.py_eqb rewritten data then mret tt else write_text o p (json_pretty rewritten)
  end.

(** The paths below [d] with a suffix. *)
Definition rglob_suffix (suffix : string) (d : path) (f : fs) : list path :=
  List.filter (λ p, below d p && negb (bool_decide (p = d)) && endswith suffix (name_of p)) (map fst (map_to_list f)).

Definition rewrite_copied_paths `{FloatRepr, FloatParse} (resolve : path → path) (dst src : path) : M fs unit :=
  f ← get;
  for_ (rglob_suffix ".json" dst f) (rewrite_file (remove_dups [show src; show (resolve src)]) (show dst)).

(** [sorted(run_dir.glob("*/*/record.json"))] *)
Definition record_paths (run_dir : path) (f : fs) : list path :=
  concat (map (λ a, omap (λ b, let p := run_dir ++ [a; b; "record.json"] in if exists_ p f then Some p else None)
                      (names_in (run_dir ++ [a]) f))
            (names_in run_dir f)).

Fixpoint read_all `{FloatParse} (paths : list path) : M fs (list pyval) :=
  match paths with
  | [] => mret []
  | p :: paths' => v ← read_json o p; vs ← read_all paths'; mret (v :: vs)
  end.

Definition merge_summary `{FloatRepr, FloatParse} (run_dir : path) : M fs unit :=
  f ← get;
  records ← read_all (record_paths run_dir f);
  write_text o (run_dir ++ ["summary.json"]) (json_pretty (PList records)).

End copies.

(** ** Worktrees *)

(** A process: its exit status, standard output and standard error. *)
Definition exit := (Z * string * string)%type.

Section worktrees.
Context `{FloatRepr, FloatParse} (o : os) (resolve : path → path) (root tempdir runs_root : path).
(** [git] in a directory; the temporary directory of a prefix; the evaluation of a
    worktree, with its arguments and environment. *)
Context (git : path → list string → M fs exit) (mkdtemp : string → path → M fs path)
        (child : path → list string → list (string * string) → M fs exit).
Context (python : string) (environ : list (string * string)).

Definition runtime_error (m : string) : exn := Exn "RuntimeError" m.

Definition run_git (args : list string) : M fs string :=
  r ← git root args;
  let '(rc, out, err) := r in
  if negb (rc =? 0)%Z
  then throw (runtime_error ("git " +:+ str_join " " args +:+ " failed (" +:+ str_of_Z rc +:+ "): " +:+ str_strip err))
  else mret (str_strip out).

Definition child_argv (config_path : path) (run_id : string) (fixture_ids : list string) : list string :=
  [python; "-m"; "evaluation.cli"; "run"; "--config"; show config_path; "--run-id"; run_id]
  ++ match fixture_ids with [] => [] | _ => "--fixture-id" :: fixture_ids end.

Definition CHILD_ENV : list (string * string) :=
  [("PYTHONDONTWRITEBYTECODE", "1"); ("GIT_CONFIG_COUNT", "1"); ("GIT_CONFIG_KEY_0", "status.showUntrackedFiles");
   ("GIT_CONFIG_VALUE_0", "no")].

(** What is done in the worktree once it is there. *)
Definition evaluate_in (ref resolved : string) (worktree config_path : path) (specs : list spec) (run_id : string)
    (fixture_ids : list string) : M fs unit :=
  _ ← copy_local_env_files o root worktree;
  _ ← prepare_worktree_excludes o resolve worktree;
  _ ← write_text o config_path (json_pretty (PList (map PDict specs)));
  values ← env_values_for_child o root environ;
  r ← child worktree (child_argv config_path run_id fixture_ids) (dict_update (dict_update environ values) CHILD_ENV);
  let '(rc, out, err) := r in
  if negb (rc =? 0)%Z
  then throw (runtime_error ("worktree evaluation failed (ref=" +:+ ref +:+ ", commit=" +:+ resolved +:+ ", code="
                             +:+ str_of_Z rc +:+ ")" +:+ nl +:+ "STDOUT:" +:+ nl +:+ out +:+ nl +:+ "STDERR:" +:+ nl +:+ err))
  else
    let src_run_dir := join (worktree ++ ["evaluation"; "runs"]) run_id in
    let dst_run_dir := join runs_root run_id in
    _ ← copy_run_outputs o src_run_dir dst_run_dir;
    rewrite_copied_paths o resolve dst_run_dir src_run_dir.

(** [m], kept as a value. *)
Definition attempt {A} (m : M fs A) : M fs (res A) := try_ (a ← m; mret (Ok a)) (λ e, mret (Raise e)).

(** The [finally] of the worktree. *)
Definition clean_up (created : bool) (worktree config_path : path) : M fs unit :=
  f ← get;
  _ ← (if exists_ config_path f then unlink o config_path else mret tt);
  if created then _ ← git root ["worktree"; "remove"; "--force"; show worktree]; mret tt
  else
    f ← get;
    if exists_ worktree f then ignore (rmtree o worktree) else mret tt.

Definition config_name (ref run_id : string) : string :=
  "sdlcma_eval_specs_" +:+ safe_ref_label ref +:+ "_" +:+ run_id +:+ ".json".

Definition run_specs_in_worktree (ref : string) (specs : list spec) (run_id : string) (fixture_ids : list string) : M fs unit :=
  resolved ← run_git ["rev-parse"; "--verify"; ref +:+ "^{commit}"];
  let base_dir := tempdir ++ ["sdlcma_eval_worktrees"] in
  _ ← mkdir_parents o base_dir;
  worktree ← mkdtemp (safe_ref_label ref +:+ "_") base_dir;
  let config_path := join tempdir (config_name ref run_id) in
  made ← attempt (_ ← rmtree o worktree; run_git ["worktree"; "add"; "--detach"; show worktree; resolved]);
  done_ ← attempt (_ ← lift made; evaluate_in ref resolved worktree config_path specs run_id fixture_ids);
  _ ← clean_up (is_ok made) worktree config_path;
  lift done_.

(** ** The sweep *)

(** [sweep] is [run_sweep] of the current checkout. *)
Context (sweep : list spec → list Fixture → string → M fs (path * list (string * string))).

Definition run_id_of (run_id : option string) (start : Z) : string := or_text run_id ("run_" +:+ stamp start).

Definition run_coordinated_sweep (specs : list spec) (fixtures : list Fixture) (run_id : option string) (start : Z) : M fs path :=
  let run_id := run_id_of run_id start in
  let run_dir := join runs_root run_id in
  _ ← mkdir_parents o run_dir;
  let grouped := group_specs_by_agent_ref specs in
  _ ← match dict_get "" grouped with
      | Some current => _ ← sweep current fixtures run_id; mret tt
      | None => mret tt
      end;
  _ ← for_ (sort_by fst (List.filter (λ g, str_nonempty g.1) grouped))
        (λ g, run_specs_in_worktree g.1 g.2 run_id (map fixture_id fixtures));
  _ ← merge_summary o run_dir;
  mret run_dir.

End worktrees.
End Coordinator.
