(* ===== verification/CoordinatorSpec.v ===== *)
(** * What the coordinator keeps of the cells

    Grouping loses no spec; the summary that is made of the records on disk has
    exactly the cells a sweep has run, in the order of their names. *)

From stdpp Require Import sorting.
From S2P Require Import Prelude PyStr PyTime Effects PyJson PyJsonLoads PyJsonIndent Files Guards Prompt RunRecord Journal JournalSpec World ReactLoop Metrics Sweep SweepSpec Coordinator.
Local Open Scope string_scope.
Local Open Scope list_scope.

Module CoordinatorSpec.
Import Files RunRecord JournalSpec Sweep SweepSpec Coordinator.
Implicit Types (x : Fixture) (name run_id n t : string) (run_dir d p q c : path) (f : fs) (h : trace).

(** ** Groups *)

Section groups.
Context `{FloatRepr}.

Definition of_ref (ref : string) (specs : list spec) : list spec :=
  List.filter (λ s, bool_decide (normalize_agent_ref s = ref)) specs.

Lemma group_get specs groups ref :
  dict_get ref (fold_left (λ groups s, add_to_group (normalize_agent_ref s) s groups) specs groups) =
  match of_ref ref specs with [] => dict_get ref groups | l => Some (default [] (dict_get ref groups) ++ l) end.
Proof.
  revert groups. induction specs as [|s specs IH]; intros groups; [done|]. cbn [fold_left]. rewrite IH.
  unfold of_ref, add_to_group. cbn [List.filter]. fold (of_ref ref specs). rewrite dict_get_set.
  case_bool_decide as E; [rewrite decide_True by done|by rewrite decide_False].
  rewrite E. destruct (of_ref ref specs) as [|s' l]; [done|]. cbn [default]. unfold id. by rewrite <- app_assoc.
Qed.

(** Each spec is in the group of its version, in its order, and in no other. *)
Lemma grouping_spec specs ref :
  dict_get ref (group_specs_by_agent_ref specs) = match of_ref ref specs with [] => None | l => Some l end.
Proof. unfold group_specs_by_agent_ref. rewrite group_get. by destruct (of_ref ref specs). Qed.

Lemma grouping_keys specs : NoDup (map fst (group_specs_by_agent_ref specs)).
Proof.
  unfold group_specs_by_agent_ref. enough (∀ groups, NoDup (map fst groups) →
    NoDup (map fst (fold_left (λ groups s, add_to_group (normalize_agent_ref s) s groups) specs groups))) as Hg
    by (apply Hg; constructor).
  induction specs as [|s specs IH]; intros groups Hg; [done|]. cbn [fold_left]. apply IH. by apply dict_set_nodup.
Qed.

(** Specs of the current checkout make one group. *)
Lemma grouping_current specs : specs ≠ [] → Forall (λ s, normalize_agent_ref s = "") specs →
  group_specs_by_agent_ref specs = [("", specs)].
Proof.
  intros Hne Hall. assert (∀ l acc, Forall (λ s, normalize_agent_ref s = "") l →
    fold_left (λ groups s, add_to_group (normalize_agent_ref s) s groups) l [("", acc)] = [("", acc ++ l)]) as Hgo.
  { induction l as [|s l IH]; intros acc Hl; [by rewrite app_nil_r|]. apply Forall_cons in Hl as [Hs Hl]. cbn [fold_left].
    rewrite Hs. change (add_to_group "" s [("", acc)]) with [("", acc ++ [s])]. rewrite IH by done.
    by rewrite <- app_assoc. }
  destruct specs as [|s specs]; [done|]. apply Forall_cons in Hall as [Hs Hall]. unfold group_specs_by_agent_ref.
  cbn [fold_left]. rewrite Hs. change (add_to_group "" s []) with [("", [s])]. by rewrite Hgo.
Qed.
End groups.

(** ** The records on disk *)

(** The cells that have a record, in the order of agents and fixtures. *)
Definition on_disk run_dir f : list (string * string) :=
  concat (map (λ a, omap (λ b, if exists_ (run_dir ++ [a; b; "record.json"]) f then Some (a, b) else None)
                      (names_in (run_dir ++ [a]) f))
            (names_in run_dir f)).

Lemma record_paths_on_disk run_dir f :
  record_paths run_dir f = map (λ ab, run_dir ++ [ab.1; ab.2; "record.json"]) (on_disk run_dir f).
Proof.
  unfold record_paths, on_disk. rewrite concat_map, map_map. f_equal. apply map_ext. intros a.
  induction (names_in (run_dir ++ [a]) f) as [|b l IH]; [done|]. cbn. destruct (exists_ _ _); cbn; [by f_equal|done].
Qed.

Lemma elem_of_on_disk run_dir f a b :
  f !! (run_dir ++ [a]) = Some Dir → f !! (run_dir ++ [a; b]) = Some Dir →
  (a, b) ∈ on_disk run_dir f ↔ is_Some (f !! (run_dir ++ [a; b; "record.json"])).
Proof.
  intros Ha Hb. unfold on_disk. rewrite list_elem_of_In, in_concat. split.
  - intros (l & (a' & <- & Ha')%in_map_iff & Hin%list_elem_of_In).
    apply list_elem_of_omap in Hin as (b' & _ & Hs). unfold exists_ in Hs. case_bool_decide as He; [|done]. by simplify_eq.
  - intros He. eexists. split; [apply in_map_iff; exists a; split; [reflexivity|]|].
    + apply list_elem_of_In, elem_of_names. by rewrite Ha.
    + apply list_elem_of_In, list_elem_of_omap. exists b. split.
      * apply elem_of_names. rewrite <- app_assoc. cbn. by rewrite Hb.
      * unfold exists_. by rewrite bool_decide_eq_true_2.
Qed.

Lemma on_disk_record run_dir f a b : (a, b) ∈ on_disk run_dir f → is_Some (f !! (run_dir ++ [a; b; "record.json"])).
Proof.
  unfold on_disk. rewrite list_elem_of_In, in_concat. intros (l & (a' & <- & _)%in_map_iff & Hin%list_elem_of_In).
  apply list_elem_of_omap in Hin as (b' & _ & Hs). unfold exists_ in Hs. case_bool_decide; [|done]. by simplify_eq.
Qed.

Lemma on_disk_nodup run_dir f : NoDup (on_disk run_dir f).
Proof.
  unfold on_disk. pose proof (names_nodup run_dir f) as Hn. induction (names_in run_dir f) as [|a l IH]; [constructor|].
  apply NoDup_cons in Hn as [Ha Hn]. cbn [map concat]. apply NoDup_app. split_and!; [| |by apply IH].
  - pose proof (names_nodup (run_dir ++ [a]) f) as Hb. induction (names_in (run_dir ++ [a]) f) as [|b k IHk]; [constructor|].
    apply NoDup_cons in Hb as [Hb Hk]. cbn. destruct (exists_ _ _); [|by apply IHk]. constructor; [|by apply IHk].
    intros (b' & Hb' & Hs)%list_elem_of_omap. destruct (exists_ _ _); [|done]. by simplify_eq.
  - intros [a' b'] Hin1 Hin2. apply list_elem_of_omap in Hin1 as (b1 & _ & Hs1). destruct (exists_ _ _); [|done]. simplify_eq.
    apply list_elem_of_In, in_concat in Hin2 as (k & (a2 & <- & Ha2)%in_map_iff & Hin%list_elem_of_In).
    apply list_elem_of_omap in Hin as (b2 & _ & Hs2). destruct (exists_ _ _); [|done]. simplify_eq.
    by apply Ha, list_elem_of_In.
Qed.

(** ** The summary of the records on disk *)

Section merge.
Context `{FloatRepr, FloatParse} (o : os) (git : git_runner) (via_gateway : bool) (cfg_model : pyval).
Context (now : string → string → Z) (good : res fix_output * Q → Prop) (Hw : willing o) (Hplain : PlainFloats).
Notation swept := (swept git via_gateway cfg_model now good).

Definition key_of (k : cell) : string * string := (k.1.2, fixture_id k.2).

Lemma keys_of_cells specs names (fixtures : list Fixture) a b : List.length specs = List.length names →
  (a, b) ∈ map key_of (cells_of specs names fixtures) ↔ a ∈ names ∧ b ∈ map fixture_id fixtures.
Proof.
  revert specs. induction names as [|name names IH]; intros [|s specs] Hlen; try done; [set_solver|].
  unfold cells_of. cbn [zip_with concat]. rewrite map_app, elem_of_app. fold (cells_of specs names fixtures).
  rewrite IH by by injection Hlen. rewrite map_map. unfold key_of. cbn [fst snd].
  assert ((a, b) ∈ map (λ x, (name, fixture_id x)) fixtures ↔ a = name ∧ b ∈ map fixture_id fixtures) as ->.
  { rewrite !list_elem_of_fmap. naive_solver. }
  rewrite elem_of_cons. tauto.
Qed.

Lemma keys_nodup specs names (fixtures : list Fixture) : List.length specs = List.length names →
  NoDup names → NoDup (map fixture_id fixtures) → NoDup (map key_of (cells_of specs names fixtures)).
Proof.
  intros Hlen Hn Hf. revert specs Hlen. induction names as [|name names IH]; intros [|s specs] Hlen; try done; [constructor|].
  apply NoDup_cons in Hn as [Hnew Hn]. unfold cells_of. cbn [zip_with concat]. fold (cells_of specs names fixtures).
  rewrite map_app, map_map. unfold key_of at 1. cbn [fst snd]. apply NoDup_app. split_and!.
  - rewrite <- (map_map fixture_id (pair name)). apply NoDup_fmap_2; [|done]. by intros ? ? [= ->].
  - intros [a b] (x & [= -> ->] & _)%list_elem_of_fmap. rewrite keys_of_cells by by injection Hlen. tauto.
  - apply IH; [done|by injection Hlen].
Qed.

(** The record of a cell on disk. *)
Definition holds run_dir f (ab : string * string) (v : pyval) : Prop :=
  f !! (run_dir ++ [ab.1; ab.2; "record.json"]) = Some (File (json_pretty v)) ∧ json_ok v.

Lemma read_json_run p f v h : f !! p = Some (File (json_pretty v)) → json_ok v → read_json o p f h = (Ok v, (f, h)).
Proof.
  intros Hf Hv. unfold read_json, read_text. rewrite bind_run, guarded_willing, bind_get, Hf by done. cbn [mret M_ret].
  by rewrite json_loads_written_ok.
Qed.

Lemma read_all_run run_dir f h (abs : list (string * string)) (cells : list pyval) :
  Forall2 (holds run_dir f) abs cells →
  read_all o (map (λ ab, run_dir ++ [ab.1; ab.2; "record.json"]) abs) f h = (Ok cells, (f, h)).
Proof.
  intros Ha. induction Ha as [|ab v abs cells [Hf Hv] _ IH]; [done|]. cbn [map read_all].
  rewrite bind_run, (read_json_run _ _ v) by done. by rewrite bind_run, IH.
Qed.

Lemma swept_on_disk run_dir run_id served specs names (fixtures : list Fixture) cells f :
  List.length specs = List.length names → NoDup names → NoDup (map fixture_id fixtures) → fixtures ≠ [] →
  swept run_dir run_id served specs names fixtures cells f →
  on_disk run_dir f ≡ₚ map key_of (cells_of specs names fixtures).
Proof.
  intros Hlen Hn Hf Hne [Hcells [Hrd Hdirs] Honly _]. apply NoDup_Permutation; [apply on_disk_nodup|by apply keys_nodup|].
  intros [a b]. rewrite keys_of_cells by done. split.
  - intros Hin%on_disk_record. apply dec_stable. intros Hab. rewrite Honly in Hin by done. by destruct Hin.
  - intros Hab. pose proof (proj2 (keys_of_cells specs names fixtures a b Hlen) Hab) as Hk.
    apply list_elem_of_fmap in Hk as (k & Ek & Hk). unfold key_of in Ek. simplify_eq.
    apply list_elem_of_lookup in Hk as [i Hi]. destruct (Forall2_lookup_l _ _ _ _ _ Hcells Hi) as (v & _ & r & _ & -> & Hd & Hr).
    apply elem_of_on_disk; [by apply Hdirs; [|apply Hab]|done|by rewrite Hr].
Qed.

Lemma swept_holds run_dir run_id served specs names (fixtures : list Fixture) cells f :
  swept run_dir run_id served specs names fixtures cells f → Forall json_ok cells →
  Forall2 (holds run_dir f) (map key_of (cells_of specs names fixtures)) cells.
Proof.
  intros [Hcells _ _ _] Hok. apply Forall2_fmap_l. revert Hok. induction Hcells as [|k v ks vs (r & _ & -> & _ & Hr) _ IH];
    [constructor|]. intros [Hv Hvs]%Forall_cons. constructor; [|by apply IH]. by split.
Qed.

Lemma holds_permuted run_dir f abs abs' cells : Forall2 (holds run_dir f) abs cells → abs' ≡ₚ abs →
  ∃ cells', cells' ≡ₚ cells ∧ Forall2 (holds run_dir f) abs' cells'.
Proof.
  intros Ha Hp. symmetry in Hp. revert cells Ha. induction Hp as [|ab l l' _ IH|x y l|l l' l'' _ IH1 _ IH2]; intros cells Ha.
  - exists []. by inversion Ha.
  - inversion Ha as [|? v ? vs Hv Hvs]; subst. destruct (IH vs Hvs) as (vs' & Hp & Hvs'). exists (v :: vs'). split; [by rewrite Hp|by constructor].
  - inversion Ha as [|? v ? vs Hv Hvs]; subst. inversion Hvs as [|? v' ? vs' Hv' Hvs']; subst.
    exists (v' :: v :: vs'). split; [apply perm_swap|]. constructor; [done|]. by constructor.
  - destruct (IH1 cells Ha) as (c1 & Hp1 & H1). destruct (IH2 c1 H1) as (c2 & Hp2 & H2). exists c2. split; [by rewrite Hp2|done].
Qed.

(** The summary made of the records on disk after a sweep has exactly its cells. *)
Lemma merge_keeps_the_cells run_dir run_id (served : pyval) (specs : list spec) (names : list string)
    (fixtures : list Fixture) (cells : list pyval) f h :
  List.length specs = List.length names → NoDup names → NoDup (map fixture_id fixtures) → fixtures ≠ [] →
  swept run_dir run_id served specs names fixtures cells f → Forall json_ok cells →
  ∃ cells', cells' ≡ₚ cells ∧
    merge_summary o run_dir f h =
      (Ok tt, (<[run_dir ++ ["summary.json"] := File (json_pretty (PList cells'))]> f, h)).
Proof.
  intros Hlen Hn Hf Hne Hs Hok. pose proof (swept_on_disk _ _ _ _ _ _ _ _ Hlen Hn Hf Hne Hs) as Hp.
  destruct (holds_permuted run_dir f _ _ cells (swept_holds _ _ _ _ _ _ _ _ Hs Hok) Hp) as (cells' & Hp' & Hcells').
  exists cells'. split; [done|]. unfold merge_summary. rewrite bind_get, record_paths_on_disk, bind_run,
    (read_all_run run_dir f h _ cells' Hcells').
  destruct Hs as [_ [Hrd _] _ Hsum]. apply write_text_run; [done|done|by rewrite Hsum].
Qed.

(** *** A sweep of the current checkout *)

Context {B : Type} (build_enhancements : pyval → res B).
Context (fix_ : agent_args B → list (string * string) → cell_input → M fs (res fix_output * Q)).
Context (Hagent : keeps_to_output fix_ good).
Context (resolve : path → path) (root tempdir : path) (git_in : path → list string → M fs exit)
        (mkdtemp : string → path → M fs path) (child : path → list string → list (string * string) → M fs exit)
        (python : string) (environ : list (string * string)).

(** [run_sweep] of the runner, under the start-up check of the model. *)
Definition sweep_here (runs_root : path) (served : pyval) (start : Z) (specs : list spec) (fixtures : list Fixture) run_id :
    M fs (path * list (string * string)) :=
  run_sweep build_enhancements o git via_gateway cfg_model fix_ now runs_root (Ok served) start environ specs fixtures (Some run_id).

(** C18: a sweep of agents of the current checkout, as the command line runs it -
    through the coordinator, with a fresh run directory, agents under names of
    their own that keep to their output directories, and records that are JSON -
    ends with the run directory; for every agent and fixture there is one record,
    and the summary lists exactly these records, although it is made anew from
    what is found on disk. *)
Theorem coordinated_sweep_complete (runs_root : path) (served : pyval) (start : Z) (specs : list spec) (names : list string)
    (fixtures : list Fixture) run_id f h :
  Forall (λ s, normalize_agent_ref s = "") specs → specs ≠ [] → fixtures ≠ [] →
  names_of_their_own build_enhancements served specs names fixtures → run_id ≠ "" → component run_id →
  (∀ q, q `prefix_of` runs_root ++ [run_id] → room f q) → (∀ n, empty_below (runs_root ++ [run_id; n]) f) →
  let run_dir := runs_root ++ [run_id] in
  (∀ k r, k ∈ cells_of specs names fixtures → good r →
     json_ok (PDict (cell_record git via_gateway cfg_model now k.1.2 run_id served k.1.1 k.2 r))) →
  ∃ cells f',
    run_coordinated_sweep o resolve root tempdir runs_root git_in mkdtemp child python environ
      (sweep_here runs_root served start) specs fixtures (Some run_id) start f h = (Ok run_dir, (f', h)) ∧
    Forall2 (cell_recorded git via_gateway cfg_model now good run_dir run_id served f') (cells_of specs names fixtures) cells ∧
    ∃ cells', cells' ≡ₚ cells ∧ f' !! (run_dir ++ ["summary.json"]) = Some (File (json_pretty (PList cells'))).
Proof.
  intros Hcur Hne Hfx Hnames Hid Hcomp Hroom Hempty run_dir Hok. unfold run_coordinated_sweep, run_id_of, or_text.
  assert (str_nonempty run_id = true) as -> by (by destruct run_id). rewrite join_component by done. fold run_dir. cbv zeta.
  destruct (mkdir_run o run_dir f h Hw Hroom) as (f1 & Hmk & Hopen & Hf1). rewrite bind_run, Hmk.
  rewrite grouping_current by done. change (dict_get "" [("", specs)]) with (Some specs).
  change (sort_by fst (List.filter (λ g : string * list spec, str_nonempty g.1) [("", specs)])) with (@nil (string * list spec)).
  destruct (sweep_records_every_cell build_enhancements o git via_gateway cfg_model fix_ now good Hw Hagent runs_root served
    start environ specs names fixtures run_id f1 h Hnames Hid Hcomp) as (cells & environ' & f2 & Hrun & Hswept & _).
  { intros q Hq. right. by apply Hopen. }
  { intros n q Hq. rewrite Hf1; [by apply (Hempty n)|]. intros Hp. apply bool_decide_eq_true in Hq.
    apply (prefix_snoc_not run_dir n). unfold run_dir at 1. rewrite <- app_assoc. by etrans. }
  fold run_dir in Hrun, Hswept. assert (Forall json_ok cells) as Hcells.
  { destruct Hswept as [Hrec _ _ _]. apply Forall_forall. intros v Hv. apply list_elem_of_lookup in Hv as [i Hi].
    destruct (Forall2_lookup_r _ _ _ _ _ Hrec Hi) as (k & Hk & r & Hg & -> & _). apply (Hok k r); [|done].
    by eapply list_elem_of_lookup_2. }
  destruct Hnames as [Huse Hapart _ _ Hids]. pose proof (Forall2_length _ _ _ Huse) as Hlen.
  destruct (merge_keeps_the_cells run_dir run_id served specs names fixtures cells f2 h Hlen Hapart Hids Hfx Hswept Hcells)
    as (cells' & Hp & Hmerge).
  unfold sweep_here. rewrite !bind_run, Hrun. cbn [mret M_ret for_]. rewrite bind_run. cbn [mret M_ret]. rewrite bind_run, Hmerge.
  exists cells. eexists. split; [reflexivity|]. split.
  - destruct Hswept as [Hrec _ _ _]. eapply Forall2_impl; [exact Hrec|]. intros k v (r & Hg & -> & Hd & Hr). exists r.
    split_and!; try done; rewrite lookup_insert_ne by (intros E; apply app_inv_head in E; discriminate E); done.
  - exists cells'. split; [done|]. apply lookup_insert_eq.
Qed.
End merge.

(** A world without versions: the coordinator has no use for [git]. *)
Definition no_process : path → list string → M fs exit := λ _ _, throw (Exn "FileNotFoundError" "git").
Definition no_temp : string → path → M fs path := λ _ _, throw (Exn "OSError" "no room").

Lemma coordinated_sweep_complete_witness :
  let run_dir := ["runs"; "r1"] in
  ∃ cells f',
    @run_coordinated_sweep no_floats_repr no_floats_parse obliging id [] ["tmp"] ["runs"] no_process no_temp
      (λ _ _ _, throw (Exn "OSError" "")) "python" []
      (@sweep_here no_floats_repr obliging no_git false PNone at_dawn unit (λ _, Ok tt) sample_fix [] ["runs"] PNone 0)
      sample_specs sample_fixtures (Some "r1") 0 ∅ [] = (Ok run_dir, (f', [])) ∧
    Forall2 (@cell_recorded no_floats_repr no_git false PNone at_dawn sample_result run_dir "r1" PNone f')
      (cells_of sample_specs ["a"; "b"] sample_fixtures) cells ∧
    ∃ cells', cells' ≡ₚ cells ∧
      f' !! (run_dir ++ ["summary.json"]) = Some (File (@json_pretty no_floats_repr (PList cells'))).
Proof.
  apply (@coordinated_sweep_complete no_floats_repr no_floats_parse obliging no_git false PNone at_dawn sample_result
    obliging_willing (λ _ : Q, eq_refl) unit (λ _, Ok tt) sample_fix sample_keeps id [] ["tmp"] no_process no_temp
    (λ _ _ _, throw (Exn "OSError" "")) "python" [] ["runs"] PNone 0 sample_specs ["a"; "b"] sample_fixtures "r1" ∅ []).
  - by repeat constructor.
  - done.
  - done.
  - exact sample_names.
  - done.
  - done.
  - intros q _. by left.
  - by intros n q _.
  - intros k r Hk [fixed ->]. apply plain_record_ok.
    assert (forallb (λ k, forallb (λ fixed : bool, plain_record (PDict (cell_record no_git false PNone at_dawn k.1.2 "r1"
      PNone k.1.1 k.2 (Ok (mkFix (if fixed then "fixed" else "no_fix") PNone 1 None), (5 # 2)%Q)))) [true; false])
      (cells_of sample_specs ["a"; "b"] sample_fixtures) = true) as Hall by by vm_compute.
    apply (proj1 (forallb_forall _ _)) with (x := k) in Hall; [|by apply list_elem_of_In].
    apply (proj1 (forallb_forall _ _)) with (x := fixed) in Hall; [exact Hall|]. destruct fixed; cbn; auto.
Defined.

(** *** Versions *)

Example refs_ex :
  map (λ ref, @normalize_agent_ref no_floats_repr [("agent_ref", PStr ref)]) [" Workspace "; "main"; "working_tree"; ""] =
    [""; "main"; ""; ""] ∧
  safe_ref_label "feature/x y" = "feature-x-y".
Proof. by vm_compute. Qed.

(** One agent under one name at two versions: the results of the second version
    take the place of those of the first. *)
Definition worktree_of (v : string) : path := ["w"; v].
Definition two_versions : fs :=
  list_to_map [(worktree_of "v1", Dir); (worktree_of "v1" ++ ["a"], Dir); (worktree_of "v1" ++ ["a"; "record.json"], File "1");
               (worktree_of "v2", Dir); (worktree_of "v2" ++ ["a"], Dir); (worktree_of "v2" ++ ["a"; "record.json"], File "2")].
Example versions_share_a_name :
  match (_ ← copy_run_outputs obliging (worktree_of "v1") ["run"]; copy_run_outputs obliging (worktree_of "v2") ["run"])
          two_versions [] with
  | (Ok _, (f, _)) => f !! ["run"; "a"; "record.json"] = Some (File "2")
  | _ => False
  end.
Proof. by vm_compute. Qed.

Example env_line_ex :
  env_line ("  KEY = " +:+ dquote +:+ "a=b" +:+ dquote) = Some ("KEY", "a=b") ∧ env_line "# x=1" = None ∧ env_line "=v" = None.
Proof. by vm_compute. Qed.

End CoordinatorSpec.
