(* ===== verification/Bench.v ===== *)
(** * The evaluation command line

    Models of the commands of [evaluation/cli.py] and of [evaluation/promote.py],
    which makes a fixture of a journal entry.  A command answers its exit status
    and the lines it prints; what it prints on either stream is in one list, and
    the star that marks a flagged entry is an asterisk here.  [git] and the names
    of temporary directories are arguments; modes of files are not modelled. *)

From S2P Require Import Prelude PyStr PyTime Effects PyJson PyJsonLoads PyJsonIndent Guards Files Prompt RunRecord World ReactLoop Metrics Sweep Coordinator.
Local Open Scope string_scope.
Local Open Scope list_scope.

Module Bench.
Import Files Sweep Coordinator.

Definition answer : Type := Z * list string.

(** ** promote.py *)

Section records.
Context `{FloatRepr}.

(** [commit in (None, "", "none")] *)
Definition no_commit (v : pyval) : bool :=
  match v with PNone => true | PStr s => bool_decide (s = "") || bool_decide (s = "none") | _ => false end.

Definition base_commit_from_record (record : pyval) : res string :=
  commit ← py_get record "base_commit" PNone;
  commit ← (if truthy commit then Ok commit
            else
              branch_result ← py_get record "branch_create_result" PNone;
              py_get (py_or branch_result (PDict [])) "commit" PNone);
  Ok (if no_commit commit then "" else py_str commit).

Definition repo_from_record (record : pyval) (explicit_repo : option string) : res pyval :=
  match explicit_repo with
  | Some r => if str_nonempty r then Ok (PStr r)
              else
                a ← py_get record "source_repo_path" PNone;
                b ← py_get record "source_dir" PNone;
                c ← py_get record "project_web_url" PNone;
                Ok (py_or a (py_or b (py_or c (PStr ""))))
  | None =>
      a ← py_get record "source_repo_path" PNone;
      b ← py_get record "source_dir" PNone;
      c ← py_get record "project_web_url" PNone;
      Ok (py_or a (py_or b (py_or c (PStr ""))))
  end.
End records.

(** The settings of a worker, where they can be imported. *)
Record settings := mkSettings { env : string; gitlab_private_token : string; gitlab_username : string }.

(** [urlsplit] of an address that starts with [http://] or [https://]: the part up
    to the authority, the authority, and the rest. *)
Fixpoint authority (s : string) : string * string :=
  match s with
  | EmptyString => ("", "")
  | String c s' =>
      if mem c ["/"; "?"; "#"]%char then ("", s) else let '(a, r) := authority s' in (String c a, r)
  end.
Definition split_url (s : string) : option (string * string * string) :=
  let cut n := let '(a, r) := authority (str_drop n s) in Some (str_take n s, a, r) in
  if startswith "http://" s then cut 7%nat else if startswith "https://" s then cut 8%nat else None.

(** [urlunsplit] leaves out an empty query and an empty fragment. *)
Definition unsplit_rest (rest : string) : string :=
  let '(main, frag) := str_partition "#"%char rest in
  let '(p, query) := str_partition "?"%char main in
  p +:+ (if str_nonempty query then "?" +:+ query else "") +:+ (if str_nonempty frag then "#" +:+ frag else "").

Definition clone_url (cfg : option settings) (repo : string) : string :=
  match split_url repo, cfg with
  | Some _, Some cfg =>
      let repo := if bool_decide (env cfg = "local_multi_process") then str_replace "gitlab.local" "localhost:8080" repo else repo in
      match split_url repo with
      | Some (scheme, netloc, rest) =>
          if negb (str_contains "@" netloc) && str_nonempty (gitlab_private_token cfg) && str_nonempty (gitlab_username cfg)
          then scheme +:+ gitlab_username cfg +:+ ":" +:+ gitlab_private_token cfg +:+ "@" +:+ netloc +:+ unsplit_rest rest
          else repo
      | None => repo
      end
  | _, _ => repo
  end.

Definition mask_secret (cfg : option settings) (text : string) : string :=
  match cfg with
  | Some cfg => if str_nonempty (gitlab_private_token cfg) then str_replace (gitlab_private_token cfg) "***" text else text
  | None => text
  end.

(** What [copytree] leaves out, at every depth. *)
Definition ignored (name : string) : bool :=
  bool_decide (name = ".git") || bool_decide (name = "__pycache__") || endswith ".pyc" name.
Definition copy_kept (src dst : path) (f : fs) : fs :=
  map_fold (λ q n acc, match PatchGuard.relative_to q src with
                       | Some r => if existsb ignored r then acc else <[dst ++ r := n]> acc
                       | None => acc
                       end) f f.

Section commands.
Context `{FloatRepr, FloatParse} (o : os) (cfg : option settings).
Context (git : path → list string → M fs exit) (mkdtemp : string → M fs path).

Definition run_git (args : list string) (cwd : path) : M fs unit :=
  r ← git cwd args;
  let '(rc, out, err) := r in
  if negb (rc =? 0)%Z
  then throw (Coordinator.runtime_error ("git " +:+ str_join " " args +:+ " failed (" +:+ str_of_Z rc +:+ "): "
                                         +:+ mask_secret cfg (str_strip err)))
  else mret tt.

Definition copy_tree_child (dst child : path) : M fs unit :=
  if bool_decide (name_of child = ".git") then mret tt
  else
    f ← get;
    if is_dir child f then guarded o "copy" child (modify (copy_kept child (dst ++ [name_of child])))
    else copy o child (dst ++ [name_of child]).

Definition copy_tree_without_git (src dst : path) : M fs unit :=
  children ← sorted_iterdir o src;
  for_ children (copy_tree_child dst).

(** The repository at the commit, below [source_dir]. *)
Definition fetch_source (work_root : path) (repo : pyval) (commit : string) (source_dir : path) : M fs string :=
  match repo with
  | PStr r =>
      let clone_dir := work_root ++ ["repo"] in
      _ ← run_git ["clone"; "--no-checkout"; clone_url cfg r; show clone_dir] work_root;
      _ ← run_git ["checkout"; commit] clone_dir;
      _ ← copy_tree_without_git clone_dir source_dir;
      mret ("source populated from " +:+ r +:+ " at " +:+ commit)
  | v => throw (attribute_error ("'" +:+ type_name v +:+ "' object has no attribute 'startswith'"))
  end.

Definition populate_source_from_git (record : pyval) (source_dir : path) (explicit_repo : option string) :
    M fs (bool * string) :=
  commit ← lift (base_commit_from_record record);
  if negb (str_nonempty commit) then mret (false, "journal record has no base_commit")
  else
    repo ← lift (repo_from_record record explicit_repo);
    if negb (truthy repo) then mret (false, "journal record has no source repo URL/path")
    else
      _ ← mkdir_parents o source_dir;
      children ← sorted_iterdir o source_dir;
      match children with
      | _ :: _ => mret (false, "source directory is not empty: " +:+ show source_dir)
      | [] =>
          work_root ← mkdtemp "sdlcma_promote_";
          r ← try_ (m ← fetch_source work_root repo commit source_dir; mret (true, m)) (λ e, mret (false, exn_msg e));
          _ ← ignore (rmtree o work_root);
          mret r
      end.

(** ** cli.py *)

Context (fixtures_root journal_root runs_root : path).

Definition pad (n : nat) (s : string) : string := Metrics.ljust n s.
(** [f"{v:10s}"] of a value that has to be a text. *)
Definition padded (n : nat) (v : pyval) : res string :=
  match v with
  | PStr s => Ok (pad n s)
  | PBool _ | PInt _ | PFloat _ => Raise (value_error ("Unknown format code 's' for object of type '" +:+ type_name v +:+ "'"))
  | v => Raise (type_error ("unsupported format string passed to " +:+ type_name v +:+ ".__format__"))
  end.

Fixpoint fixture_lines (l : list Fixture) : res (list string) :=
  match l with
  | [] => Ok []
  | x :: l' =>
      cat ← padded 15 (category x);
      diff ← padded 8 (difficulty x);
      rest ← fixture_lines l';
      Ok (("  " +:+ pad 30 (fixture_id x) +:+ "  " +:+ cat +:+ "  " +:+ diff +:+ "  test_cmd=" +:+ py_repr (test_cmd x)) :: rest)
  end.

Definition cmd_list_fixtures : M fs answer :=
  fixtures ← discover o fixtures_root;
  match fixtures with
  | [] => mret (0%Z, ["No fixtures yet. Add one under " +:+ show fixtures_root +:+ "/<id>/source/."])
  | _ => lines ← lift (fixture_lines fixtures); mret (0%Z, (str_of_nat (List.length fixtures) +:+ " fixtures:") :: lines)
  end.

Fixpoint journal_lines (flagged : bool) (entries : list path) : M fs (list string) :=
  match entries with
  | [] => mret []
  | e :: entries' =>
      f ← get;
      if negb (is_dir e f) || (flagged && negb (exists_ (e ++ ["FLAGGED"]) f)) || negb (exists_ (e ++ ["record.json"]) f)
      then journal_lines flagged entries'
      else
        rec ← read_json o (e ++ ["record.json"]);
        f ← get;
        outcome ← lift (py_get rec "outcome" PNone);
        outcome ← lift (padded 10 outcome);
        iterations ← lift (py_get rec "iterations" PNone);
        rest ← journal_lines flagged entries';
        mret (("  " +:+ (if exists_ (e ++ ["FLAGGED"]) f then "*" else " ") +:+ " " +:+ pad 60 (name_of e)
               +:+ "  outcome=" +:+ outcome +:+ "  iter=" +:+ py_str iterations) :: rest)
  end.

Definition cmd_list_journal (flagged : bool) : M fs answer :=
  f ← get;
  if negb (is_dir journal_root f) then mret (0%Z, ["No journal entries yet at " +:+ show journal_root +:+ "."])
  else
    entries ← sorted_iterdir o journal_root;
    lines ← journal_lines flagged entries;
    mret (0%Z, lines ++ [""; "(" +:+ str_of_nat (List.length lines) +:+ " entries" +:+ (if flagged then " flagged" else "") +:+ ")"]).

(** [sweep] is [run_coordinated_sweep]; a spec that is no object raises here, a
    little earlier than in the sweep. *)
Context (sweep : list spec → list Fixture → M fs path).

Definition DEFAULT_SPECS : list spec := [[("name", PStr "langgraph"); ("agent", PStr "langgraph"); ("kwargs", PDict [])]].

Fixpoint specs_of (l : list pyval) : res (list spec) :=
  match l with
  | [] => Ok []
  | PDict d :: l' => ds ← specs_of l'; Ok (d :: ds)
  | v :: _ => Raise (attribute_error ("'" +:+ type_name v +:+ "' object has no attribute 'get'"))
  end.

Definition agent_specs (config : option path) : M fs (list spec) :=
  match config with
  | None => mret DEFAULT_SPECS
  | Some p =>
      v ← read_json o p;
      match v with
      | PDict d => mret [d]
      | v => l ← lift (py_iter v); lift (specs_of l)
      end
  end.

Definition cmd_run (config : option path) (fixture_ids : option (list string)) : M fs answer :=
  fixtures ← discover o fixtures_root;
  match fixtures with
  | [] => mret (2%Z, ["No fixtures to run against. See 'bench list-fixtures'."])
  | _ =>
      specs ← agent_specs config;
      let wanted := match fixture_ids with
                    | Some ((_ :: _) as ids) => List.filter (λ x, mem (fixture_id x) ids) fixtures
                    | _ => fixtures
                    end in
      match wanted with
      | [] => mret (2%Z, ["No matching fixtures: " +:+ py_repr (PList (map PStr (default [] fixture_ids)))])
      | _ =>
          run_dir ← sweep specs wanted;
          mret (0%Z, [""; "Done. Run dir: " +:+ show run_dir;
                      "Report: python -m evaluation.cli report " +:+ name_of run_dir])
      end
  end.

Definition cmd_report (run_id : string) : M fs answer :=
  rows ← Metrics.aggregate o runs_root run_id;
  table ← lift (Metrics.format_table rows);
  mret (0%Z, [table]).

Definition or_else (a : option string) (b : string) : string :=
  match a with Some s => if str_nonempty s then s else b | None => b end.

(** The description of a promoted fixture. *)
Definition meta_of (fixture_id entry : string) (category difficulty : option string) (outcome : pyval) : pyval :=
  PDict [("fixture_id", PStr fixture_id); ("promoted_from", PStr entry);
         ("category", PStr (or_else category "unknown")); ("difficulty", PStr (or_else difficulty "medium"));
         ("expected_outcome", outcome); ("test_cmd", PStr "pytest");
         ("notes", PStr ("Promoted from journal entry " +:+ entry +:+ "."))].

(** [p.mkdir()] and [p.mkdir(parents=True)] of a directory that must be new. *)
Definition mkdir_new (p : path) : M fs unit :=
  f ← get;
  if exists_ p f then throw (Exn "FileExistsError" (show p)) else mkdir_parents o p.

(** [cmd_promote] once it has the record. *)
Definition promote_record (fixture_dir journal_dir : path) (entry : string)
    (fixture_id_ category difficulty source_repo : option string) (rec : pyval) : M fs answer :=
  let fixture_id := or_else fixture_id_ entry in
  _ ← mkdir_new fixture_dir;
  let source_dir := fixture_dir ++ ["source"] in
  _ ← mkdir_new source_dir;
  populated ← populate_source_from_git rec source_dir source_repo;
  f ← get;
  _ ← (if exists_ (journal_dir ++ ["trace.txt"]) f
       then copy o (journal_dir ++ ["trace.txt"]) (fixture_dir ++ ["trace.txt"]) else mret tt);
  outcome ← lift (py_get rec "outcome" (PStr "fixed"));
  _ ← write_text o (fixture_dir ++ ["meta.json"]) (json_pretty (meta_of fixture_id entry category difficulty outcome));
  mret (0%Z, ("Created fixture: " +:+ show fixture_dir)
             :: (if (populated.1 : bool) then ["  Source: " +:+ populated.2]
                 else ["  Source not auto-populated: " +:+ populated.2;
                       "  Next: populate " +:+ show source_dir +:+ " with the buggy source tree"])
             ++ ["  Edit " +:+ show (fixture_dir ++ ["meta.json"]) +:+ " as needed."]).

Definition cmd_promote (entry : string) (fixture_id_ category difficulty source_repo : option string) : M fs answer :=
  let journal_dir := join journal_root entry in
  f ← get;
  if negb (is_dir journal_dir f) then mret (2%Z, ["No such journal entry: " +:+ show journal_dir])
  else
    let fixture_dir := join fixtures_root (or_else fixture_id_ entry) in
    if exists_ fixture_dir f then mret (2%Z, ["Fixture already exists: " +:+ show fixture_dir])
    else
      rec ← read_json o (journal_dir ++ ["record.json"]);
      promote_record fixture_dir journal_dir entry fixture_id_ category difficulty source_repo rec.

End commands.
End Bench.
