(* ===== verification/Mcp.v ===== *)
(** * The server of fixtures, journal and runs

    Model of [mcp_server/server.py]: its tools and resources, each a call on the
    file system.  The protocol around them is a library's; an exception is its
    error reply.  Names of agents and bugs in a summary are texts.  A path that a
    caller names is walked: [..] leaves a directory that is there.  The dash of the
    index is a hyphen. *)

From S2P Require Import Prelude PyStr Effects Guards PyJson PyJsonLoads PyJsonIndent Files Prompt RunRecord Journal JournalSpec Metrics Sweep SweepSpec Coordinator.
Local Open Scope string_scope.
Local Open Scope list_scope.

Module Mcp.
Import Files.

Notation doc := (list (string * pyval)).

Definition MAX_FILE_BYTES : nat := 50000.
Definition MAX_TRACE_BYTES : nat := 20000.

(** [base / rel] as the system resolves it; [None] where a step leaves no directory. *)
Fixpoint walk (f : fs) (cur : path) (parts : list string) : option path :=
  match parts with
  | [] => Some cur
  | x :: parts' =>
      if bool_decide (x = "..")
      then if bool_decide (f !! cur = Some Dir) then walk f (removelast cur) parts' else None
      else walk f (cur ++ [x]) parts'
  end.
Definition locate (f : fs) (base : path) (rel : string) : option path :=
  walk f (if startswith "/" rel then [] else base) (PatchGuard.pure_parts rel).

Definition dir_at (f : fs) (base : path) (rel : string) : option path :=
  match locate f base rel with Some p => if is_dir p f then Some p else None | None => None end.

Section server.
Context `{FloatParse} (o : os) (fixtures_root journal_root runs_root : path).

Definition json_error : exn := Exn "JSONDecodeError" "not a JSON document".

Definition read_json (p : path) : M fs pyval :=
  text ← read_text o p;
  match json_loads text with Some v => mret v | None => throw json_error end.

(** ** list_fixtures and read_fixture *)

Definition fixture_row (x : Sweep.Fixture) : doc :=
  [("fixture_id", PStr (Sweep.fixture_id x)); ("category", Sweep.category x); ("difficulty", Sweep.difficulty x);
   ("expected_outcome", Sweep.expected_outcome x);
   ("has_trace", PBool (bool_decide (is_Some (Sweep.trace_file x))));
   ("has_expected_patch", PBool (bool_decide (is_Some (Sweep.expected_patch x)))); ("notes", Sweep.notes x)].

Definition list_fixtures : M fs (list doc) :=
  fixtures ← Sweep.discover o fixtures_root; mret (map fixture_row fixtures).

(** [sorted(p.rglob("*"))]: paths are ordered by their components. *)
Definition path_key (p : path) : string := str_join (String (ascii_of_N 0) EmptyString) p.
Definition rglob_all (p : path) (f : fs) : list path :=
  sort_by path_key (List.filter (λ q, below p q && negb (bool_decide (q = p))) (map fst (map_to_list f))).

Definition rel_name (p q : path) : string :=
  match PatchGuard.relative_to q p with Some r => str_join "/" r | None => "" end.

Definition undecodable (e : exn) : bool := is_os_error e || bool_decide (exn_class e = "UnicodeDecodeError").

(** The files below [source_dir], each cut to its first characters. *)
Fixpoint source_files (source_dir : path) (l : list path) (acc : doc) : M fs doc :=
  match l with
  | [] => mret acc
  | p :: l' =>
      f ← get;
      if negb (is_file p f) then source_files source_dir l' acc
      else
        text ← try_ (t ← read_text o p; mret (str_take MAX_FILE_BYTES t))
                 (λ e, if undecodable e then mret "<binary>" else throw e);
        source_files source_dir l' (dict_set (rel_name source_dir p) (PStr text) acc)
  end.

Definition read_truncated (p : path) (cap : nat) : M fs pyval :=
  f ← get;
  if negb (exists_ p f) then mret PNone
  else t ← read_text o p; mret (PStr (str_take cap t)).

Definition read_fixture (fixture_id : string) : M fs doc :=
  f ← get;
  match dir_at f fixtures_root fixture_id with
  | None => throw (value_error ("no such fixture: " +:+ fixture_id))
  | Some fixture_dir =>
      meta ← (if exists_ (fixture_dir ++ ["meta.json"]) f then read_json (fixture_dir ++ ["meta.json"])
              else mret (PDict []));
      let source_dir := fixture_dir ++ ["source"] in
      source ← (if is_dir source_dir f then source_files source_dir (rglob_all source_dir f) [] else mret []);
      trace ← read_truncated (fixture_dir ++ ["trace.txt"]) MAX_TRACE_BYTES;
      mret [("fixture_id", PStr fixture_id); ("meta", meta); ("source", PDict source); ("trace", trace)]
  end.

(** ** list_journal_entries and read_journal_entry *)

Definition name_of (p : path) : string := List.last p "".

(** The row of a record; what has no [get] raises. *)
Definition entry_row (entry : path) (flagged : bool) (rec : pyval) : res doc :=
  agent ← py_get rec "agent" PNone;
  outcome ← py_get rec "outcome" PNone;
  iterations ← py_get rec "iterations" PNone;
  timestamp ← py_get rec "timestamp" PNone;
  bug_id ← py_get rec "bug_id" PNone;
  Ok [("entry_id", PStr (name_of entry)); ("flagged", PBool flagged); ("agent", agent); ("outcome", outcome);
      ("iterations", iterations); ("timestamp", timestamp); ("bug_id", bug_id)].

(** The loop with its [break]: the limit is looked at after a row was added. *)
Fixpoint journal_rows (flagged_only : bool) (limit : Z) (entries : list path) (out : list doc) : M fs (list doc) :=
  match entries with
  | [] => mret out
  | entry :: entries' =>
      f ← get;
      let flagged := exists_ (entry ++ ["FLAGGED"]) f in
      if negb (is_dir entry f) || (flagged_only && negb flagged) || negb (exists_ (entry ++ ["record.json"]) f)
      then journal_rows flagged_only limit entries' out
      else
        text ← read_text o (entry ++ ["record.json"]);
        match json_loads text with
        | None => journal_rows flagged_only limit entries' out
        | Some rec =>
            row ← lift (entry_row entry flagged rec);
            let out := out ++ [row] in
            if (limit <=? Z.of_nat (List.length out))%Z then mret out
            else journal_rows flagged_only limit entries' out
        end
  end.

Definition list_journal_entries (flagged_only : bool) (limit : Z) : M fs (list doc) :=
  f ← get;
  if negb (is_dir journal_root f) then mret []
  else
    entries ← sorted_iterdir o journal_root;
    journal_rows flagged_only limit (rev entries) [].

Definition read_journal_entry (entry_id : string) : M fs doc :=
  f ← get;
  match dir_at f journal_root entry_id with
  | None => throw (value_error ("no such journal entry: " +:+ entry_id))
  | Some entry_dir =>
      record ← read_json (entry_dir ++ ["record.json"]);
      trace ← read_truncated (entry_dir ++ ["trace.txt"]) MAX_TRACE_BYTES;
      test_output ← read_truncated (entry_dir ++ ["test_output.txt"]) MAX_TRACE_BYTES;
      mret [("entry_id", PStr entry_id); ("record", record); ("trace", trace); ("test_output", test_output);
            ("flagged", PBool (exists_ (entry_dir ++ ["FLAGGED"]) f))]
  end.

(** ** list_eval_runs and run_summary *)

(** The records of a summary that are objects. *)
Definition objects (l : list pyval) : list doc := omap (λ v, match v with PDict d => Some d | _ => None end) l.

(** [sorted({r.get(k, "?") for r in records})] *)
Definition as_text (v : pyval) : res string :=
  match v with
  | PStr s => Ok s
  | PList _ | PDict _ => Raise (type_error ("unhashable type: '" +:+ type_name v +:+ "'"))
  | v => Raise (type_error ("'<' not supported between instances of 'str' and '" +:+ type_name v +:+ "'"))
  end.
Fixpoint texts_at (k : string) (l : list doc) : res (list string) :=
  match l with
  | [] => Ok []
  | d :: l' => s ← as_text (default (PStr "?") (dict_get k d)); rest ← texts_at k l'; Ok (s :: rest)
  end.
Definition distinct (l : list string) : list string := sort_by id (remove_dups l).

Definition run_row (run_dir : path) (records : list pyval) : res doc :=
  agents ← texts_at "agent_name" (objects records);
  fixtures ← texts_at "bug_id" (objects records);
  let fixed := List.length (List.filter (λ d, bool_decide (dget "outcome" d = PStr "fixed")) (objects records)) in
  Ok [("run_id", PStr (name_of run_dir)); ("agents", PList (map PStr (distinct agents)));
      ("fixture_count", PInt (Z.of_nat (List.length (distinct fixtures))));
      ("record_count", PInt (Z.of_nat (List.length records))); ("fixed_count", PInt (Z.of_nat fixed))].

Fixpoint run_rows (limit : Z) (runs : list path) (out : list doc) : M fs (list doc) :=
  match runs with
  | [] => mret out
  | run_dir :: runs' =>
      f ← get;
      if negb (is_dir run_dir f) || negb (exists_ (run_dir ++ ["summary.json"]) f) then run_rows limit runs' out
      else
        text ← read_text o (run_dir ++ ["summary.json"]);
        match json_loads text with
        | Some (PList records) =>
            row ← lift (run_row run_dir records);
            let out := out ++ [row] in
            if (limit <=? Z.of_nat (List.length out))%Z then mret out else run_rows limit runs' out
        | _ => run_rows limit runs' out
        end
  end.

Definition list_eval_runs (limit : Z) : M fs (list doc) :=
  f ← get;
  if negb (is_dir runs_root f) then mret []
  else runs ← sorted_iterdir o runs_root; run_rows limit (rev runs) [].

Definition run_summary (run_id : string) : M fs string :=
  f ← get;
  match locate f runs_root run_id with
  | Some p =>
      if is_file (p ++ ["summary.json"]) f then read_text o (p ++ ["summary.json"])
      else throw (value_error ("no such run: " +:+ run_id))
  | None => throw (value_error ("no such run: " +:+ run_id))
  end.

(** ** promote_journal_to_fixture and fixtures_index *)

Definition promote_argv (entry_id fixture_id category difficulty : string) (source_repo : option string) : list string :=
  ["python"; "-m"; "evaluation.cli"; "promote"; entry_id; "--fixture-id"; fixture_id; "--category"; category;
   "--difficulty"; difficulty]
  ++ match source_repo with Some r => if str_nonempty r then ["--source-repo"; r] else [] | None => [] end.

(** The process, on the file system: its status and what it printed. *)
Context (run : list string → M fs Coordinator.exit).

Definition promote_journal_to_fixture (entry_id fixture_id category difficulty : string)
    (source_repo : option string) : M fs doc :=
  r ← run (promote_argv entry_id fixture_id category difficulty source_repo);
  let '(rc, out, err) := r in
  f ← get;
  mret [("exit_code", PInt rc); ("stdout", PStr out); ("stderr", PStr err);
        ("fixture_created", PBool (bool_decide (is_Some (dir_at f fixtures_root fixture_id))))].

Definition or_no_notes `{FloatRepr} (v : pyval) : string := py_str (py_or v (PStr "_(no notes)_")).

Definition fixtures_index `{FloatRepr} : M fs string :=
  fixtures ← Sweep.discover o fixtures_root;
  mret (str_join nl
    (["# SDLCMA fixtures"; ""]
     ++ match fixtures with [] => ["_(no fixtures found)_"] | _ => [] end
     ++ map (λ x, "- **" +:+ Sweep.fixture_id x +:+ "** (" +:+ py_str (Sweep.category x) +:+ ", "
                  +:+ py_str (Sweep.difficulty x) +:+ ") - " +:+ or_no_notes (Sweep.notes x)) fixtures)).

End server.
End Mcp.

(** ** Theorems *)

Module McpSpec.
Import Files Mcp RunRecord Journal JournalSpec.

(** A listing has at most its limit of rows, one where the limit asks for none. *)
Definition within (limit : Z) (n : nat) : Prop := (Z.of_nat n <= Z.max 1 limit)%Z.

Section listing.
Context `{FloatParse} (o : os).

Lemma journal_rows_ends (flagged_only : bool) (limit : Z) (l : list path) (out : list doc) (f : fs) (h : trace)
    (rows : list doc) (st : fs * trace) :
  (Z.of_nat (List.length out) < Z.max 1 limit)%Z →
  journal_rows o flagged_only limit l out f h = (Ok rows, st) →
  within limit (List.length rows) ∧
  ∃ more names, rows = out ++ more ∧ names `sublist_of` map name_of l ∧
    map (dget "entry_id") more = map PStr names ∧
    (flagged_only = true → Forall (λ r, dget "flagged" r = PBool true) more).
Proof.
  revert out f h. induction l as [|p l IH]; intros out f h Hout; cbn [journal_rows].
  { intros [= <- _]. split; [unfold within; lia|]. exists [], []. by rewrite app_nil_r. }
  assert (∀ out f h, (Z.of_nat (List.length out) < Z.max 1 limit)%Z →
    journal_rows o flagged_only limit l out f h = (Ok rows, st) →
    within limit (List.length rows) ∧ ∃ more names, rows = out ++ more ∧ names `sublist_of` map name_of (p :: l) ∧
      map (dget "entry_id") more = map PStr names ∧
      (flagged_only = true → Forall (λ r, dget "flagged" r = PBool true) more)) as Hskip.
  { intros out' f' h' Hlen Hrun. destruct (IH out' f' h' Hlen Hrun) as (Hw & more & names & ? & Hs & ? & ?).
    split; [done|]. exists more, names. split; [done|]. split; [by constructor|done]. }
  rewrite bind_get. destruct (negb _ || _ || _) eqn:Hcond; [by apply Hskip|].
  rewrite bind_run. destruct (read_text o _ f h) as [[text|e] [f1 h1]]; [|done].
  destruct (json_loads text) as [rec|]; [|by apply Hskip].
  rewrite bind_run. unfold lift. destruct (entry_row p _ rec) as [row|e] eqn:Hrow; [|done].
  assert (dget "entry_id" row = PStr (name_of p) ∧ dget "flagged" row = PBool (exists_ (p ++ ["FLAGGED"]) f)) as [Hid Hfl].
  { unfold entry_row in Hrow. do 5 (apply res_bind_ok in Hrow as (? & _ & Hrow)). by injection Hrow as <-. }
  assert (flagged_only = true → dget "flagged" row = PBool true) as Hflag.
  { intros ->. rewrite Hfl. f_equal. apply orb_false_iff in Hcond as [Hcond _]. apply orb_false_iff in Hcond as [_ Hcond].
    cbn in Hcond. by apply negb_false_iff. }
  cbv zeta. rewrite List.length_app. cbn [List.length].
  destruct (Z.leb_spec limit (Z.of_nat (List.length out + 1))) as [Hle|Hgt].
  - intros [= <- _]. split; [unfold within; rewrite List.length_app; cbn; lia|].
    exists [row], [name_of p]. split; [done|]. split; [constructor; apply sublist_nil_l|].
    split; [by cbn; rewrite Hid|]. intros Hf. constructor; [by apply Hflag|constructor].
  - intros Hrun. destruct (IH (out ++ [row]) f1 h1) as (Hw & more & names & -> & Hs & Hn & Hall);
      [rewrite List.length_app; cbn; lia|done|]. split; [done|].
    exists (row :: more), (name_of p :: names). split; [by rewrite <- app_assoc|]. split; [by constructor|].
    split; [cbn; by rewrite Hid, Hn|]. intros Hf. constructor; [by apply Hflag|by apply Hall].
Qed.

(** The entries listed are entries of the journal, each at most once, the newest
    name first, within the limit, and marked ones where only those are asked for. *)
Theorem list_journal_entries_spec (journal_root : path) (flagged_only : bool) (limit : Z) (f : fs) (h : trace)
    (rows : list doc) (st : fs * trace) :
  list_journal_entries o journal_root flagged_only limit f h = (Ok rows, st) →
  within limit (List.length rows) ∧
  ∃ names, map (dget "entry_id") rows = map PStr names ∧ names `sublist_of` rev (names_in journal_root f) ∧ NoDup names ∧
    (flagged_only = true → Forall (λ r, dget "flagged" r = PBool true) rows).
Proof.
  unfold list_journal_entries. rewrite bind_get. destruct (negb _).
  { intros [= <- _]. split; [unfold within; cbn; lia|]. exists []. split; [done|]. split; [apply sublist_nil_l|]. by split; [constructor|]. }
  rewrite bind_run. unfold sorted_iterdir, guarded. rewrite bind_get. destruct (refuse o _ _ f); [done|].
  rewrite bind_get. destruct (f !! journal_root) as [[]|]; [done| |done]. cbv iota.
  intros Hrun. apply journal_rows_ends in Hrun as (Hw & more & names & -> & Hs & Hn & Hall); [|cbn; lia].
  split; [done|]. exists names. split; [done|].
  rewrite <- map_rev, map_map, (map_ext _ id), map_id in Hs by (intros x; unfold name_of; apply last_last).
  split; [done|]. split; [|done]. eapply sublist_NoDup; [|exact Hs].
  rewrite NoDup_ListNoDup. apply NoDup_rev. rewrite <- NoDup_ListNoDup. apply names_nodup.
Qed.

End listing.

Section shown.
Context `{FloatRepr, FloatParse}.
Context (git : git_runner) (via_gateway : bool).

Lemma locate_plain (f : fs) (base : path) (n : string) :
  plain n = true → PatchGuard.clean_segment n = true → n ≠ ".." → locate f base n = Some (base ++ [n]).
Proof.
  intros Hp Hc Hn. unfold locate. rewrite pure_parts_plain by done.
  assert (startswith "/" n = false) as ->.
  { destruct n as [|a n]; [done|]. cbn in Hp |- *. apply andb_true_iff in Hp as [Ha _]. unfold ch_eq in *.
    destruct (bool_decide_reflect (a = "/"%char)) as [->|Hne]; [done|].
    by rewrite bool_decide_eq_false_2 by congruence. }
  cbn [walk]. by rewrite bool_decide_eq_false_2.
Qed.

Lemma dir_name_clean t r : made_at t r → PatchGuard.clean_segment (dir_name r) = true ∧ dir_name r ≠ "..".
Proof.
  intros [Ht _]. destruct (dir_name_app r) as [rest ->]. unfold text. rewrite Ht.
  destruct (stamp_stamped t). split; [|done].
  unfold PatchGuard.clean_segment, mem. apply negb_true_iff, bool_decide_eq_false. set_solver.
Qed.

(** The agent is asked for under a key that a record does not have. *)
Theorem listed_agent_is_unknown (t : Z) (out : outputs) (entry : path) (flagged : bool) :
  ∃ row, entry_row entry flagged (PDict (from_outputs git via_gateway t out)) = Ok row ∧
    dget "agent" row = PNone ∧ dget "outcome" row = PStr (o_outcome out) ∧ dget "bug_id" row = PStr (o_bug_id out).
Proof. eexists. split; [reflexivity|]. done. Qed.

(** The entry a run leaves is shown with its record as it was, and with its mark. *)
Theorem written_entry_is_shown (o : os) (dir : path) (t : Z) (out : outputs) (f : fs) (h : trace) :
  let r := from_outputs git via_gateway t out in
  PlainFloats → Forall (λ m, json_ok m.2) r → willing o → named out → fresh_entry dir r f →
  ∃ f', write o dir r (o_final_state out) f h = (Ok (Some (dir ++ [dir_name r])), (f', h)) ∧
    ∀ row st, read_journal_entry o dir (dir_name r) f' h = (Ok row, st) →
      dget "record" row = PDict r ∧ dget "flagged" row = PBool (to_review out).
Proof.
  intros r Hp Hok Ho Hn Hf. pose proof (from_outputs_made git via_gateway t out Hn) as Hmade.
  destruct (write_run o dir t r (o_final_state out) f h Ho Hmade Hf) as (f' & Hrun & _ & _ & He).
  exists f'. split; [done|]. intros row st. unfold read_journal_entry. rewrite bind_get.
  assert (dir_at f' dir (dir_name r) = Some (dir ++ [dir_name r])) as ->.
  { unfold dir_at. rewrite locate_plain; [|by eapply dir_name_plain|by eapply (dir_name_clean t)|by eapply (dir_name_clean t)].
    unfold is_dir. rewrite (entry_dir _ _ _ _ He). by rewrite bool_decide_eq_true_2. }
  rewrite bind_run. unfold read_json. rewrite bind_run. unfold read_text. rewrite guarded_willing, bind_get by done.
  rewrite (entry_content _ _ _ _ He "record.json" (to_json r)) by (by left).
  pose proof (to_json_loads git via_gateway t out Hp Hok) as Hload. fold r in Hload.
  unfold mret at 1, M_ret at 1. cbv iota beta. rewrite Hload.
  unfold mret at 1, M_ret at 1. cbv iota beta.
  intros (trace & f1 & h1 & _ & (tests & f2 & h2 & _ & [= <- _])%bind_ok)%bind_ok.
  split; [done|].
  change (PBool (exists_ ((dir ++ [dir_name r]) ++ ["FLAGGED"]) f') = PBool (to_review out)).
  rewrite (entry_flag _ _ _ _ He). f_equal. apply from_outputs_flag.
Qed.

End shown.

(** ** Bounds of what is shown *)

Lemma str_take_le n s : (String.length (str_take n s) <= n)%nat.
Proof. revert s. induction n as [|n IH]; intros [|a s]; cbn; try lia. specialize (IH s). lia. Qed.

Definition short (cap : nat) (v : pyval) : Prop := ∃ s, v = PStr s ∧ (String.length s <= cap)%nat.

Lemma dict_set_forall (P : pyval → Prop) k v (d : doc) :
  P v → Forall (λ kv, P kv.2) d → Forall (λ kv, P kv.2) (dict_set k v d).
Proof.
  intros Hv. induction 1 as [|[k' v'] d Hx Hd IH]; cbn; [by constructor|].
  destruct (decide (k = k')); by constructor.
Qed.

Lemma binary_short : (String.length "<binary>" <= MAX_FILE_BYTES)%nat.
Proof. apply Nat.leb_le. by vm_compute. Qed.

Section bounds.
#[local] Opaque MAX_FILE_BYTES MAX_TRACE_BYTES.
Context `{FloatParse} (o : os).

Lemma source_files_short (source_dir : path) (l : list path) (acc files : doc) (f : fs) (h : trace) (st : fs * trace) :
  Forall (λ kv, short MAX_FILE_BYTES kv.2) acc →
  source_files o source_dir l acc f h = (Ok files, st) → Forall (λ kv, short MAX_FILE_BYTES kv.2) files.
Proof.
  revert acc f h. induction l as [|p l IH]; intros acc f h Hacc; cbn [source_files]; [by intros [= <- _]|].
  rewrite bind_get. destruct (negb (is_file p f)); [by apply IH|].
  intros (text & f1 & h1 & Ht & Hrun)%bind_ok. eapply IH; [|exact Hrun]. apply dict_set_forall; [|done].
  exists text. split; [done|]. unfold try_ in Ht. rewrite bind_run in Ht.
  destruct (read_text o p f h) as [[t|e] [f2 h2]].
  - injection Ht as <- _ _. apply str_take_le.
  - destruct (undecodable e); [|done]. injection Ht as <- _ _. apply binary_short.
Qed.

(** A fixture is shown with texts of bounded length: its sources and its trace. *)
Theorem read_fixture_bounded (fixtures_root : path) (fixture_id : string) (f : fs) (h : trace) (d : doc) (st : fs * trace) :
  read_fixture o fixtures_root fixture_id f h = (Ok d, st) →
  (∃ files, dget "source" d = PDict files ∧ Forall (λ kv, short MAX_FILE_BYTES kv.2) files) ∧
  (dget "trace" d = PNone ∨ short MAX_TRACE_BYTES (dget "trace" d)).
Proof.
  unfold read_fixture. rewrite bind_get. destruct (dir_at f fixtures_root fixture_id) as [p|]; [|done].
  intros (meta & f1 & h1 & _ & Hrun)%bind_ok.
  apply bind_ok in Hrun as (files & f2 & h2 & Hs & Hrun). apply bind_ok in Hrun as (trace & f3 & h3 & Ht & [= <- _]).
  split.
  - exists files. split; [done|]. destruct (is_dir _ f); [by eapply source_files_short|]. injection Hs as <- _ _. constructor.
  - change (dget "trace" _) with trace. unfold read_truncated in Ht. rewrite bind_get in Ht.
    destruct (negb _); [left; by injection Ht as <- _ _|right].
    apply bind_ok in Ht as (t & f4 & h4 & _ & [= <- _ _]). exists (str_take MAX_TRACE_BYTES t). split; [done|apply str_take_le].
Qed.

End bounds.

(** ** What goes wrong *)

#[local] Instance no_parse : FloatParse := λ _, None.

(** A disk with a fixture, a journal of two entries, and a key outside both. *)
Definition server_disk : fs :=
  list_to_map [([], Dir); (["fx"], Dir); (["fx"; "one"], Dir); (["fx"; "one"; "source"], Dir);
    (["fx"; "one"; "source"; "a.py"], File "x = 1"); (["jr"], Dir);
    (["jr"; "e1"], Dir); (["jr"; "e1"; "record.json"], File "{}");
    (["jr"; "e2"], Dir); (["jr"; "e2"; "record.json"], File "{}");
    (["secret"], Dir); (["secret"; "source"], Dir); (["secret"; "source"; "key"], File "token")].

Example a_fixture :
  (read_fixture obliging ["fx"] "one" server_disk []).1 =
    Ok [("fixture_id", PStr "one"); ("meta", PDict []); ("source", PDict [("a.py", PStr "x = 1")]); ("trace", PNone)].
Proof. by vm_compute. Qed.

(** The name of a fixture may lead out of the fixtures. *)
Example fixture_outside :
  (read_fixture obliging ["fx"] "../secret" server_disk []).1 =
    Ok [("fixture_id", PStr "../secret"); ("meta", PDict []); ("source", PDict [("key", PStr "token")]); ("trace", PNone)] ∧
  (read_fixture obliging ["fx"] "/secret" server_disk []).1 =
    Ok [("fixture_id", PStr "/secret"); ("meta", PDict []); ("source", PDict [("key", PStr "token")]); ("trace", PNone)].
Proof. by vm_compute. Qed.

(** A limit of none shows one entry, the newest. *)
Example limit_of_none :
  ((rows ← list_journal_entries obliging ["jr"] false 0; mret (map (dget "entry_id") rows)) server_disk []).1 =
    Ok [PStr "e2"].
Proof. by vm_compute. Qed.

End McpSpec.
