(* ===== verification/AgentConfig.v ===== *)
(** * The agent a worker is configured with

    Model of [bf_worker/agent_config.py]: the spec of a configuration file, the agent
    it builds, and the worker that runs itself again from the worktree of the
    version its spec names.  The helpers for environment files and for what git is
    told not to see are those of [Coordinator], which the source repeats.  The
    text of a configuration path is kept as a path; an empty one is [None]. *)

From S2P Require Import Prelude PyStr PyTime Effects PyJson PyJsonLoads PyJsonIndent Guards Files Prompt RunRecord World ReactLoop Metrics Sweep Coordinator.
Local Open Scope string_scope.
Local Open Scope list_scope.

Module AgentConfig.
Import Files Sweep Coordinator.

(** ** The spec *)

Section spec.
Context `{FloatRepr, FloatParse} (o : os).

(** The first spec of the file, if there is one. *)
Definition load_agent_spec (config_path : option path) : M fs pyval :=
  match config_path with
  | None => mret PNone
  | Some p =>
      data ← read_json o p;
      mret (match data with PList [] => PNone | PList (x :: _) => x | v => v end)
  end.

Definition normalize_ref (spec : pyval) : res string :=
  if truthy spec then
    ref ← py_get spec "agent_ref" PNone;
    Ok (match ref with
        | PNone => ""
        | v => let ref := str_strip (py_str v) in if mem (str_lower ref) CURRENT_REFS then "" else ref
        end)
  else Ok "".

End spec.

(** ** The agent *)

(** [{**spec, "llm_model_served": served}], or the spec itself. *)
Definition spec_with (spec served : pyval) : res (list (string * pyval)) :=
  match spec, served with
  | PNone, PNone => Ok []
  | PNone, v => Ok [("llm_model_served", v)]
  | PDict d, PNone => Ok d
  | PDict d, v => Ok (dict_set "llm_model_served" v d)
  | v, PNone => Raise (attribute_error ("'" +:+ type_name v +:+ "' object has no attribute 'get'"))
  | v, _ => Raise (type_error ("'" +:+ type_name v +:+ "' object is not a mapping"))
  end.

Section agent.
Context `{FloatRepr} {B : Type} (build_enhancements : pyval → res B).

Definition make_agent (agent_spec served : pyval) : res (agent_args B) :=
  spec ← spec_with agent_spec served;
  let kind := get_or "agent" (PStr "langgraph") spec in
  kw ← to_kwargs (get_or "kwargs" (PDict []) spec);
  if negb (bool_decide (kind = PStr "langgraph")) then Raise (value_error ("unknown agent kind: " +:+ py_repr kind))
  else
    let enh_specs := get_or "enhancements" (PList []) spec in
    enh ← (if truthy enh_specs then b ← build_enhancements enh_specs; Ok (Some b) else Ok None);
    _ ← check_keywords ["journal"; "agent_config"] kw;
    Ok (mkAgent spec kw (if dict_has "enhancements" kw then None else enh)).
End agent.

(** ** The pinned version *)

Section reexec.
Context `{FloatRepr, FloatParse} (o : os) (resolve : path → path) (root tempdir : path).
(** [git] in a directory; the temporary directory of a prefix; a child in a
    directory with its arguments and environment, and its exit status. *)
Context (git : path → list string → M fs exit) (mkdtemp : string → path → M fs path)
        (child : path → list string → list (string * string) → M fs Z).
Context (python : string) (environ : list (string * string)) (pid : Z) (argv : list string).

Definition child_config (ref : string) : path :=
  join tempdir ("sdlcma_agent_spec_" +:+ safe_ref_label ref +:+ "_" +:+ str_of_Z pid +:+ ".json").

Definition child_env (values : list (string * string)) (config : path) : list (string * string) :=
  let env := dict_update environ values in
  let env := dict_set "BF_AGENT_CONFIG" (show config) env in
  let env := dict_set "BF_AGENT_REF_APPLIED" "1" env in
  let env := dict_setdefault "BF_JOURNAL_DIR" (show (root ++ ["evaluation"; "journal"])) env in
  dict_update env CHILD_ENV.

Definition prepare (worktree : path) : M fs unit :=
  _ ← copy_local_env_files o root worktree;
  prepare_worktree_excludes o resolve worktree.

Definition run_child (script : string) (spec : pyval) (worktree config : path) : M fs Z :=
  _ ← write_text o config (json_pretty spec);
  values ← env_values_for_child o root environ;
  child worktree (python :: show (join worktree script) :: argv) (child_env values config).

(** The [finally]: the configuration of the child, once it has a name, and the worktree. *)
Definition tidy (named : bool) (config : path) (created : bool) (worktree : path) : M fs unit :=
  _ ← (if named then ignore (unlink o config) else mret tt);
  if created then _ ← git root ["worktree"; "remove"; "--force"; show worktree]; mret tt
  else
    f ← get;
    if exists_ worktree f then ignore (rmtree o worktree) else mret tt.

Definition reexec (script ref : string) (spec : pyval) : M fs Z :=
  resolved ← run_git root git ["rev-parse"; "--verify"; ref +:+ "^{commit}"];
  let base_dir := tempdir ++ ["sdlcma_agent_worktrees"] in
  _ ← mkdir_parents o base_dir;
  worktree ← mkdtemp (safe_ref_label ref +:+ "_") base_dir;
  made ← attempt (_ ← rmtree o worktree; run_git root git ["worktree"; "add"; "--detach"; show worktree; resolved]);
  ready ← attempt (_ ← lift made; prepare worktree);
  rc ← attempt (_ ← lift ready; run_child script spec worktree (child_config ref));
  _ ← tidy (is_ok ready) (child_config ref) (is_ok made) worktree;
  lift rc.

Definition maybe_reexec_for_agent_ref (config_path : option path) (script : string) : M fs (option Z) :=
  if bool_decide (dict_get "BF_AGENT_REF_APPLIED" environ = Some "1") then mret None
  else
    spec ← load_agent_spec o config_path;
    ref ← lift (normalize_ref spec);
    if negb (str_nonempty ref) then mret None
    else rc ← reexec script ref spec; mret (Some rc).

End reexec.

(** The child does not run itself again. *)
Lemma child_runs_here `{FloatRepr, FloatParse} (o : os) resolve root tempdir git mkdtemp child python environ pid argv values config
    config_path script f h :
  maybe_reexec_for_agent_ref o resolve root tempdir git mkdtemp child python (child_env root environ values config) pid argv
    config_path script f h = (Ok None, (f, h)).
Proof.
  unfold maybe_reexec_for_agent_ref. rewrite bool_decide_eq_true_2; [done|]. unfold child_env, dict_update, CHILD_ENV. simpl.
  rewrite !dict_get_set_ne by done. unfold dict_setdefault. case_match; [|rewrite dict_get_set_ne by done]; by rewrite dict_get_set_eq.
Qed.

End AgentConfig.
