(* ===== verification/Worker.v ===== *)
(** * A worker process

    Model of [bf_worker/bf_worker.py]: the heartbeat, the run of the agent with the
    checks before it, what is done when the run is over, and the exit status.  The
    agent and its provider, and the two start-up checks, are arguments ([Agent],
    [MiniSwe] and [Preflight] are what they stand for).  The heartbeat task shares no
    key with the agent, so its turns are put before the calls of the agent.  A
    signal cancels the worker at one of the points where it waits; what the agent
    did until then is an argument. *)

From S2P Require Import Prelude PyStr Effects PyJson PyJsonLoads Files StepCheckpoint Sweep AgentConfig.
Local Open Scope string_scope.
Local Open Scope list_scope.

Module Worker.
Import Files Sweep AgentConfig.

(** The disk, and the records of the agent loop. *)
Record wst := mkSt { disk : fs; steps : StepCheckpoint.fs }.

Definition on_disk {A} (m : M fs A) : M wst A := λ s h,
  match m (disk s) h with (r, (f, h')) => (r, (mkSt f (steps s), h')) end.

(** [m], kept as a value. *)
Definition attempt {A} (m : M wst A) : M wst (res A) := try_ (a ← m; mret (Ok a)) (λ e, mret (Raise e)).

(** [try: m  finally: k] *)
Definition finally_ {A} (m : M wst A) (k : M wst unit) : M wst A :=
  r ← attempt m; _ ← k; lift r.

(** Redis and the clock. *)
Record world := mkWorld {
  w_setex : trace → res unit;
  w_delete : trace → res unit;
  w_aclose : trace → res unit;
  w_time_ms : trace → Z
}.

(** The settings the worker reads. *)
Record settings := mkSettings {
  heartbeat_key : string → string;
  completed_key : string → string;
  heartbeat_ttl : Z;
  completed_ttl : Z;
  repo_base_path : path
}.

Record bug_input (P : Type) := mkBug {
  in_bug_id : string;
  in_provider : P;
  in_project_id : string;
  in_project_web_url : string;
  in_job_id : string;
  in_source_branch : string
}.
Arguments mkBug {P}.

(** Where a signal finds the worker: waiting for the agent, for the heartbeat to
    end, or for one of the last calls of Redis. *)
Inductive point := InGraph | AtHeartbeat | AtSet | AtDelete | AtClose.
#[export] Instance point_eq_dec : EqDecision point.
Proof. solve_decision. Defined.

Definition cancelled : exn := Exn "CancelledError" "".
Definition is_exit (e : exn) : bool := bool_decide (exn_class e = "SystemExit").

Section worker.
Context `{FloatRepr, FloatParse} {B P : Type} (w : world) (cfg : settings) (bug_id : string).
(** The system, and the system once the modes of the files are cleared. *)
Context (o o_cleared : os) (store : res StepCheckpoint.backend).
Context (environ : list (string * string)) (config_path : option path).
Context (new_provider : string → res P) (check_gitlab : string → res unit) (check_llm : res pyval).
Context (build_enhancements : pyval → res B) (fix_ : agent_args B → bug_input P → M wst fix_output).
(** What the agent did until the signal. *)
Context (cut : M wst unit).

Definition hb_key : string := heartbeat_key cfg bug_id.
Definition done_key : string := completed_key cfg bug_id.

(** The first turns of [_heartbeat_loop]. *)
Fixpoint heartbeat_loop (turns : nat) : M wst unit :=
  match turns with
  | O => mret tt
  | S turns' =>
      ts ← observe (w_time_ms w);
      _ ← call (SetEx hb_key (str_of_Z ts) (heartbeat_ttl cfg * 2)) (w_setex w);
      heartbeat_loop turns'
  end.

(** [os.environ[k]] *)
Definition environ_get (k : string) : res string :=
  match dict_get k environ with Some v => Ok v | None => Raise (Exn "KeyError" ("'" +:+ k +:+ "'")) end.

Definition run_graph : M wst fix_output :=
  url ← lift (environ_get "project_web_url");
  provider ← lift (new_provider url);
  pid ← lift (environ_get "project_id");
  job ← lift (environ_get "job_id");
  let input := mkBug bug_id provider pid url job (default "" (dict_get "BUG_SOURCE_BRANCH" environ)) in
  spec ← on_disk (load_agent_spec o config_path);
  _ ← lift (check_gitlab pid);
  served ← lift check_llm;
  agent ← lift (make_agent build_enhancements spec served);
  fix_ agent input.

(** [shutil.rmtree] with a handler that clears the mode and tries again. *)
Definition cleanup_repo : M wst unit :=
  let repo := join (repo_base_path cfg) bug_id in
  on_disk (f ← get;
           if exists_ repo f then
             try_ (rmtree o repo) (λ _, f ← get; if exists_ repo f then rmtree o_cleared repo else mret tt)
           else mret tt).

Definition purge : M wst unit :=
  modify (λ s, mkSt (disk s) (StepCheckpoint.purge_run_records store bug_id (steps s))).

Definition signalled (sig : option point) (p : point) : bool := bool_decide (sig = Some p).

(** The flag is up when the [finally] looks at it. *)
Definition interrupted (sig : option point) : bool := signalled sig InGraph || signalled sig AtHeartbeat.

(** A wait for a reply of Redis, which a signal ends. *)
Definition wait_for (sig : option point) (p : point) (m : M wst unit) : M wst unit :=
  if signalled sig p then _ ← attempt m; throw cancelled else m.

(** The [finally] of [run], after the heartbeat task is cancelled; a heartbeat that
    had already failed raises its own exception. *)
Definition teardown (sig : option point) (beat : res unit) : M wst unit :=
  _ ← lift beat;
  _ ← (if interrupted sig then mret tt
       else
         let set := call (SetEx done_key "1" (completed_ttl cfg)) (w_setex w) in
         if signalled sig AtSet then wait_for sig AtSet set else ignore set);
  _ ← wait_for sig AtDelete (call (Delete hb_key) (w_delete w));
  _ ← wait_for sig AtClose (r ← observe (w_aclose w); lift r);
  cleanup_repo.

(** [BugFixWorker.run], with the turns the heartbeat took. *)
Definition run (sig : option point) (turns : nat) : M wst unit :=
  beat ← attempt (heartbeat_loop turns);
  finally_ (if signalled sig InGraph then _ ← cut; throw cancelled else _ ← run_graph; purge)
           (teardown sig beat).

(** The exit status of the process: a [SystemExit] with a message leaves the event
    loop and is status 1. *)
Definition main (sig : option point) (turns : nat) : M wst Z :=
  r ← attempt (run sig turns);
  mret (match r with
        | Raise e => if is_exit e then 1 else match sig with Some _ => 143 | None => 0 end
        | Ok _ => match sig with Some _ => 143 | None => 0 end
        end)%Z.

End worker.
End Worker.
