(* ===== verification/WorkerSpec.v ===== *)
(** * Who is started again

    A worker and the monitor of the orchestrator talk through two keys of Redis.
    Whenever the monitor looks, a worker that ended by itself is left alone, and one
    that a signal took away while the agent worked is handed to the restart, with
    the records of its loop in place. *)

From S2P Require Import Prelude PyStr Effects PyJson PyJsonLoads Files Orchestrator StepCheckpoint Sweep AgentConfig Worker.
Local Open Scope string_scope.
Local Open Scope list_scope.

Module WorkerSpec.
Import Files Sweep AgentConfig Worker.

(** ** The keys at a point of a trace *)

Definition touch (k : string) (there : bool) (e : event) : bool :=
  match e with
  | (SetEx k' _ _, true) => bool_decide (k' = k) || there
  | (Delete k', true) => negb (bool_decide (k' = k)) && there
  | _ => there
  end.
Definition shown (k : string) (h : trace) : bool := fold_left (touch k) h false.

Lemma shown_app k h h' : shown k (h ++ h') = fold_left (touch k) h' (shown k h).
Proof. apply fold_left_app. Qed.

Definition deletes (k : string) (e : event) : bool := match e with (Delete k', true) => bool_decide (k' = k) | _ => false end.
Definition sets (k : string) (e : event) : bool := match e with (SetEx k' _ _, true) => bool_decide (k' = k) | _ => false end.

Lemma shown_kept k h h' : Forall (λ e, deletes k e = false) h' → shown k h = true → shown k (h ++ h') = true.
Proof.
  rewrite shown_app. intros Hd. generalize (shown k h). induction Hd as [|[c ok] l He _ IH]; intros there Ht; [done|].
  apply IH. destruct c, ok; simpl in *; try done; [by rewrite He|by rewrite Ht, orb_true_r].
Qed.

Lemma shown_never k h : Forall (λ e, sets k e = false) h → shown k h = false.
Proof.
  intros Hs. unfold shown. assert (∀ there, there = false → fold_left (touch k) h there = false) as Hgo; [|by apply Hgo].
  induction Hs as [|[c ok] l He _ IH]; intros there Ht; [done|]. apply IH.
  destruct c, ok; simpl in *; try done; [by rewrite Ht, andb_false_r|by rewrite He].
Qed.

Lemma prefix_app_last_cases {A} (p q : list A) x : p `prefix_of` q ++ [x] → p `prefix_of` q ∨ p = q ++ [x].
Proof.
  intros [k Hk]. destruct k as [|y k _] using rev_ind; [right; by rewrite app_nil_r in Hk|left].
  rewrite app_assoc in Hk. apply app_inj_tail in Hk as [-> _]. by exists k.
Qed.

(** ** The calls of a worker *)

Section worker.
Context `{FloatRepr, FloatParse} {B P : Type} (w : world) (cfg : settings) (bug_id : string).
Context (o o_cleared : os) (store : res StepCheckpoint.backend).
Context (environ : list (string * string)) (config_path : option path).
Context (new_provider : string → res P) (check_gitlab : string → res unit) (check_llm : res pyval).
Context (build_enhancements : pyval → res B) (fix_ : agent_args B → bug_input P → M wst fix_output) (cut : M wst unit).
Implicit Types (s : wst) (h k : trace) (turns : nat) (sig : option point).

#[local] Notation hbk := (hb_key cfg bug_id).
#[local] Notation donek := (done_key cfg bug_id).
#[local] Notation run := (run w cfg bug_id o o_cleared store environ config_path new_provider check_gitlab check_llm
  build_enhancements fix_ cut).
#[local] Notation main := (main w cfg bug_id o o_cleared store environ config_path new_provider check_gitlab check_llm
  build_enhancements fix_ cut).
#[local] Notation run_graph := (run_graph bug_id o environ config_path new_provider check_gitlab check_llm build_enhancements fix_).

(** A call that leaves both keys alone. *)
Definition foreign (e : event) : Prop := sets donek e = false ∧ deletes hbk e = false.
Definition adds s h s' h' : Prop := ∃ k, h' = h ++ k ∧ Forall foreign k.

Lemma adds_refl s h : adds s h s h.
Proof. exists []. by rewrite app_nil_r. Qed.
Lemma adds_refl' s s' h : adds s h s' h.
Proof. apply (adds_refl s). Qed.
Lemma adds_trans s h s1 h1 s2 h2 : adds s h s1 h1 → adds s1 h1 s2 h2 → adds s h s2 h2.
Proof. intros (k & -> & Hk) (k' & -> & Hk'). exists (k ++ k'). by rewrite app_assoc, Forall_app. Qed.
#[local] Hint Resolve adds_refl adds_trans : effects.

(** What works on the disk makes no call. *)
Definition silent {A} (m : M fs A) : Prop := preserves (λ _ h _ h', h' = h) m.
Lemma silent_adds {A} (m : M fs A) : silent m → preserves adds (on_disk m).
Proof.
  intros Hm s h. specialize (Hm (disk s) h). unfold on_disk, end_trace, end_state in *.
  destruct (m (disk s) h) as [r [f h']]. simpl in *. subst. exists []. by rewrite app_nil_r.
Qed.

Lemma silent_guarded {A} (o' : os) (op : string) (p : path) (m : M fs A) : silent m → silent (guarded o' op p m).
Proof.
  intros Hm f h. unfold guarded. rewrite bind_get. destruct (refuse o' op p f); [done|apply Hm].
Qed.

Lemma silent_bind {A A2 : Type} (m : M fs A) (k : A → M fs A2) : silent m → (∀ a, silent (k a)) → silent (m ≫= k).
Proof. apply preserves_bind. by intros f h f1 h1 f2 h2 -> ->. Qed.

Lemma silent_rmtree (o' : os) (p : path) : silent (rmtree o' p).
Proof.
  intros f h. unfold rmtree. rewrite bind_get. destruct (refuse _ _ _ _); [done|]. by destruct (f !! p) as [[]|].
Qed.

Lemma silent_read_json (o' : os) (p : path) : silent (read_json o' p).
Proof.
  apply silent_bind.
  - apply silent_guarded. intros f h. rewrite bind_get. by destruct (f !! p) as [[]|].
  - intros t f h. by destruct (json_loads t).
Qed.

Lemma load_spec_adds : preserves adds (on_disk (load_agent_spec o config_path)).
Proof.
  apply silent_adds. unfold load_agent_spec. destruct config_path; [|by intros f h]. apply silent_bind; [apply silent_read_json|].
  by intros d f h.
Qed.

Lemma silent_on_disk {A} (m : M fs A) s h : silent m → end_trace (on_disk m s h) = h.
Proof.
  intros Hm. specialize (Hm (disk s) h). unfold on_disk, end_trace in *. by destruct (m (disk s) h) as [r [f h']].
Qed.

Lemma silent_cleanup (p : path) : silent (f ← get;
  if exists_ p f then try_ (rmtree o p) (λ _, f ← get; if exists_ p f then rmtree o_cleared p else mret tt) else mret tt).
Proof.
  intros f h. rewrite bind_get. destruct (exists_ p f); [|done]. unfold try_.
  pose proof (silent_rmtree o p f h) as Hr. destruct (rmtree o p f h) as [[[]|e] [f1 h1]]; [done|].
  rewrite bind_get. unfold end_trace in *. simpl in Hr. subst h1. destruct (exists_ p f1); [apply silent_rmtree|done].
Qed.

(** The agent, and what it did until a signal, leave both keys alone. *)
Definition minds_its_keys : Prop := (∀ a i, preserves adds (fix_ a i)) ∧ preserves adds cut.
Context (Hkeys : minds_its_keys) (Hdiff : hbk ≠ donek).

Lemma graph_adds : preserves adds run_graph.
Proof.
  destruct Hkeys as [Hfix _].
  repeat (apply preserves_bind; [eauto with effects|first [apply load_spec_adds|eauto with effects]|]; intros ?).
  apply Hfix.
Qed.

Lemma heartbeat_run turns s h :
  ∃ r k, heartbeat_loop w cfg bug_id turns s h = (r, (s, h ++ k)) ∧ Forall foreign k ∧
    ((∀ h, w_setex w h = Ok tt) → r = Ok tt).
Proof.
  revert h. induction turns as [|n IH]; intros h; [by exists (Ok tt), []; rewrite app_nil_r|].
  cbn [heartbeat_loop]. rewrite bind_observe, bind_run. unfold call.
  destruct (w_setex w h) as [[]|e] eqn:E.
  - match goal with |- context [h ++ [?x]] => set (ev := x) end.
    assert (foreign ev) as Hev by (split; [simpl; by case_bool_decide|done]).
    destruct (IH (h ++ [ev])) as (r & k & Hrun & Hk & Hr). exists r, (ev :: k).
    split; [by rewrite Hrun, <-app_assoc|]. split; [by constructor|done].
  - eexists (Raise e), [_]. split; [reflexivity|]. split; [by repeat constructor|]. intros Hok. by rewrite Hok in E.
Qed.

Lemma waits_none p (m : M wst unit) : wait_for None p m = m.
Proof. done. Qed.

(** A worker that ends by itself sets its key and then clears its heartbeat. *)
Lemma teardown_run s h : (∀ h, w_setex w h = Ok tt) → ∃ r s' ok,
  teardown w cfg bug_id o o_cleared None (Ok tt) s h =
    (r, (s', h ++ [(SetEx donek "1" (completed_ttl cfg), true); (Delete hbk, ok)])).
Proof.
  intros Hok. unfold teardown. rewrite !waits_none. rewrite bind_run. cbn [lift].
  change (interrupted None) with false. change (signalled None AtSet) with false. cbv zeta. cbv iota.
  rewrite bind_ignore_call, Hok. cbn [is_ok]. destruct (w_delete w (h ++ [(SetEx donek "1" (completed_ttl cfg), true)])) as [[]|e] eqn:Ed.
  - rewrite (bind_call_ok _ _ _ _ _ _ Ed), <-app_assoc. match goal with |- ∃ r s' ok, ?m s ?h1 = _ => set (m0 := m); set (h2 := h1) end.
    assert (end_trace (m0 s h2) = h2) as Ht.
    { unfold m0. rewrite bind_run. rewrite bind_observe. destruct (w_aclose w h2) as [[]|e]; [|done]. cbn [lift].
      unfold cleanup_repo. apply silent_on_disk, silent_cleanup. }
    destruct (m0 s h2) as [r [s' h']]. unfold end_trace in Ht. simpl in Ht. subst h'. by exists r, s', true.
  - rewrite (bind_call_raise _ _ _ _ _ _ Ed), <-app_assoc. by eexists _, _, false.
Qed.

Lemma attempt_run {A} (m : M wst A) s h : attempt m s h = match m s h with (r, st) => (Ok r, st) end.
Proof. unfold attempt, try_. rewrite bind_run. by destruct (m s h) as [[a|e] [s1 h1]]. Qed.

Lemma finally_run {A} (m : M wst A) (fin : M wst unit) s h :
  finally_ m fin s h = match m s h with
                       | (r, (s1, h1)) => match fin s1 h1 with (Ok _, st) => (r, st) | (Raise e, st) => (Raise e, st) end
                       end.
Proof.
  unfold finally_. rewrite bind_run, attempt_run. destruct (m s h) as [r [s1 h1]]. rewrite bind_run.
  destruct (fin s1 h1) as [[[]|e] [s2 h2]]; [by destruct r|done].
Qed.

(** What is left of a run that ended: the records go when the agent came to an end. *)
Definition body sig : M wst unit :=
  if signalled sig InGraph then _ ← cut; throw cancelled
  else _ ← run_graph; purge bug_id store.

Lemma body_adds sig : preserves adds (body sig).
Proof.
  destruct Hkeys as [_ Hcut]. unfold body. destruct (signalled sig InGraph).
  - apply preserves_bind; eauto with effects.
  - apply preserves_bind; [eauto with effects|apply graph_adds|]. intros out. apply preserves_modify. intros s' h'. apply adds_refl'.
Qed.

Lemma run_trace turns s : (∀ h, w_setex w h = Ok tt) → ∃ r s' a ok,
  run None turns s [] = (r, (s', a ++ [(SetEx donek "1" (completed_ttl cfg), true); (Delete hbk, ok)])) ∧ Forall foreign a.
Proof.
  intros Hok. unfold run. destruct (heartbeat_run turns s []) as (rb & kb & Hrun & Hkb & Hrb). specialize (Hrb Hok) as ->.
  rewrite app_nil_l in Hrun. rewrite bind_run, attempt_run, Hrun. rewrite finally_run.
  change (if signalled None InGraph then _ else _) with (body None).
  destruct (body_adds None s kb) as (k & Hk & Hf). destruct (body None s kb) as [r [s1 h1]]. unfold end_trace in Hk.
  simpl in Hk. subst h1. destruct (teardown_run s1 (kb ++ k) Hok) as (rt & s2 & ok & ->).
  destruct rt as [[]|e]; eexists _, s2, (kb ++ k), ok; (split; [reflexivity|by rewrite Forall_app]).
Qed.

(** *** What a look at the keys shows *)

(** Once the heartbeat was there, it only goes when the worker's own key is set. *)
Lemma gone_means_over (a h0 h1 : trace) ok : Forall foreign a →
  let full := a ++ [(SetEx donek "1" (completed_ttl cfg), true); (Delete hbk, ok)] in
  h0 `prefix_of` h1 → h1 `prefix_of` full → shown hbk h0 = true → shown hbk h1 = false → h1 = full.
Proof.
  intros Ha full Hp0 Hp1 Hs0 Hs1. unfold full in *.
  change [(SetEx donek "1" (completed_ttl cfg), true); (Delete hbk, ok)]
    with ([(SetEx donek "1" (completed_ttl cfg), true)] ++ [(Delete hbk, ok)]) in *.
  rewrite app_assoc in *. apply prefix_app_last_cases in Hp1 as [Hp1|Hp1]; [|done]. exfalso.
  destruct Hp0 as [k ->]. destruct Hp1 as [k' Hk']. rewrite shown_kept in Hs1; [done| |done].
  assert (Forall (λ e, deletes hbk e = false) (a ++ [(SetEx donek "1" (completed_ttl cfg), true)])) as Hall.
  { apply Forall_app. split; [|by repeat constructor]. eapply Forall_impl; [exact Ha|]. by intros e [_ He]. }
  pose proof (eq_ind _ (Forall (λ e, deletes hbk e = false)) Hall _ Hk') as Hall'. rewrite !Forall_app in Hall'. tauto.
Qed.

Lemma over_means_set (a : trace) ok : 
  shown donek (a ++ [(SetEx donek "1" (completed_ttl cfg), true); (Delete hbk, ok)]) = true.
Proof.
  rewrite shown_app. cbn [fold_left touch]. rewrite (bool_decide_eq_true_2 (donek = donek)) by done. cbn [orb].
  destruct ok; [|done]. by rewrite (bool_decide_eq_false_2 (hbk = donek)).
Qed.

(** *** A worker that was taken away *)

Definition taken sig : Prop := sig = Some InGraph ∨ sig = Some AtHeartbeat.

Lemma wait_adds p (m : M wst unit) sig : preserves adds m → preserves adds (wait_for sig p m).
Proof.
  intros Hm. unfold wait_for. destruct (signalled sig p); [|done]. apply preserves_bind; eauto with effects.
  apply preserves_try; eauto with effects.
Qed.

(** Calls that do not set the worker's own key. *)
Definition unset_ s h s' h' : Prop := ∃ k, h' = h ++ k ∧ Forall (λ e, sets donek e = false) k.
Lemma unset_refl s h : unset_ s h s h.
Proof. exists []. by rewrite app_nil_r. Qed.
Lemma unset_trans s h s1 h1 s2 h2 : unset_ s h s1 h1 → unset_ s1 h1 s2 h2 → unset_ s h s2 h2.
Proof. intros (k & -> & Hk) (k' & -> & Hk'). exists (k ++ k'). by rewrite app_assoc, Forall_app. Qed.
#[local] Hint Resolve unset_refl unset_trans : effects.

Lemma adds_unset {A} (m : M wst A) : preserves adds m → preserves unset_ m.
Proof.
  intros Hm s h. destruct (Hm s h) as (k & Hk & Hf). exists k. split; [done|]. eapply Forall_impl; [exact Hf|]. by intros e [].
Qed.

Lemma teardown_unset sig beat : taken sig → preserves unset_ (teardown w cfg bug_id o o_cleared sig beat).
Proof.
  intros Ht. unfold teardown. assert (interrupted sig = true) as -> by by destruct Ht as [-> | ->].
  assert (∀ p, p ≠ InGraph → p ≠ AtHeartbeat → signalled sig p = false) as Hs.
  { intros p H1 H2. unfold signalled. apply bool_decide_eq_false. destruct Ht as [-> | ->]; congruence. }
  unfold wait_for. rewrite !Hs by done.
  apply preserves_bind; eauto with effects. intros _. apply preserves_bind; eauto with effects. intros _.
  apply preserves_bind; eauto with effects.
  { apply preserves_call. intros s h ok. eexists. split; [reflexivity|]. by repeat constructor. }
  intros _. apply preserves_bind; eauto with effects. intros _. apply adds_unset.
  unfold cleanup_repo. apply silent_adds, silent_cleanup.
Qed.

Lemma run_unset sig turns s : taken sig →
  ∃ k, end_trace (run sig turns s []) = k ∧ Forall (λ e, sets donek e = false) k.
Proof.
  intros Ht. assert (preserves unset_ (run sig turns)) as Hp.
  { apply preserves_bind; eauto with effects.
    - apply preserves_try; eauto with effects. apply preserves_bind; eauto with effects. intros s1 h1.
      destruct (heartbeat_run turns s1 h1) as (r & k & -> & Hk & _). exists k. split; [done|].
      eapply Forall_impl; [exact Hk|]. by intros e [].
    - intros beat. apply preserves_bind; eauto with effects.
      + apply preserves_try; eauto with effects. apply preserves_bind; eauto with effects.
        apply adds_unset, (body_adds sig).
      + intros r. apply preserves_bind; eauto with effects. by apply teardown_unset. }
  destruct (Hp s []) as (k & Hk & Hf). by exists k.
Qed.

Lemma main_run sig turns s h :
  main sig turns s h = match run sig turns s h with
                       | (r, st) => (Ok (match r with
                                         | Raise e => if is_exit e then 1 else match sig with Some _ => 143 | None => 0 end
                                         | Ok _ => match sig with Some _ => 143 | None => 0 end
                                         end)%Z, st)
                       end.
Proof. unfold main. rewrite bind_run, attempt_run. by destruct (run sig turns s h) as [r [s1 h1]]. Qed.

(** *** The records of the loop *)

Lemma teardown_steps sig beat s h : steps (end_state (teardown w cfg bug_id o o_cleared sig beat s h)) = steps s.
Proof.
  assert (preserves (λ s _ s' _, steps s' = steps s) (teardown w cfg bug_id o o_cleared sig beat)) as Hp; [|apply Hp].
  assert (∀ p (m : M wst unit), preserves (λ s _ s' _, steps s' = steps s) m →
    preserves (λ s _ s' _, steps s' = steps s) (wait_for sig p m)) as Hw.
  { intros p m Hm. unfold wait_for. destruct (signalled sig p); [|done].
    apply preserves_bind; [congruence| |by intros ? ? ?]. apply preserves_try; [congruence| |by intros ? ? ?].
    apply preserves_bind; [congruence|done|by intros ? ? ?]. }
  unfold teardown. apply preserves_bind; [congruence|by intros ? ?|]. intros _.
  apply preserves_bind; [congruence| |].
  { destruct (interrupted sig); [by intros ? ?|]. cbv zeta. destruct (signalled sig AtSet); [apply Hw; by intros ? ?|].
    apply preserves_ignore; [done|congruence|by intros ? ?]. }
  intros _. apply preserves_bind; [congruence|apply Hw; by intros ? ?|]. intros _.
  apply preserves_bind; [congruence| |].
  { apply Hw. apply preserves_bind; [congruence|by intros ? ?|by intros ? ? ?]. }
  intros _ s1 h1. unfold cleanup_repo, on_disk. by match goal with |- context [match ?x with _ => _ end] => destruct x as [? [? ?]] end.
Qed.

(** The records go with a run whose agent came to an end, and stay with every other. *)
Lemma run_records sig turns s h : ∃ h',
  let r := body sig s h' in steps (end_state (run sig turns s h)) = steps (end_state r).
Proof.
  unfold run. destruct (heartbeat_run turns s h) as (rb & kb & Hrun & _). exists (h ++ kb).
  rewrite bind_run, attempt_run, Hrun. rewrite finally_run.
  change (if signalled sig InGraph then _ else _) with (body sig). destruct (body sig s (h ++ kb)) as [r [s1 h1]].
  pose proof (teardown_steps sig rb s1 h1) as Ht. by destruct (teardown _ _ _ _ _ sig rb s1 h1) as [[[]|e] [s2 h2]].
Qed.

(** ** The monitor *)

Section monitor.
Context (ow : Orchestrator.world) {D : Type} `{Hlaw : Orchestrator.LawfulSpawner D}.
Implicit Types (os : Orchestrator.svc D) (oh full : trace) (entry : Orchestrator.WorkerEntry).

(** What a look at a worker reads: the heartbeat where the worker had come to [h1],
    the worker's own key at [h2]; it had seen a heartbeat at [h0] if it calls the
    worker running; a worker whose status is known is over. *)
Record sees entry full (h0 h1 h2 : trace) os oh : Prop := {
  in_order : h0 `prefix_of` h1 ∧ h1 `prefix_of` h2 ∧ h2 `prefix_of` full;
  reads_heartbeat : ∀ t, Orchestrator.w_ttl ow oh = Ok t → (t ≤ 0)%Z → shown hbk h1 = false;
  reads_done : ∀ oh' there, Orchestrator.w_exists ow oh' = Ok there → there = shown donek h2;
  was_running : Orchestrator.status entry ≠ Orchestrator.warmup → shown hbk h0 = true;
  reads_status : ∀ rc os' oh' h, Orchestrator.poll bug_id (Orchestrator.process entry) os h = (Ok (Some rc), (os', oh')) → h2 = full
}.


(** C5: a worker that a signal takes away while the agent works ends with a status
    that is not 0, never sets its own key, and is handed to the restart as soon as
    its status is known; the records of its loop are what the agent had left. *)
Theorem taken_worker_restarted turns s entry os os2 oh oh2 now ttl sig :
  taken sig →
  let r := main sig turns s [] in
  ∃ c, r.1 = Ok c ∧ c ≠ 0%Z ∧
    (∀ h, h `prefix_of` end_trace r → shown donek h = false) ∧
    (sig = Some InGraph → ∃ h', steps (end_state r) = steps (end_state (cut s h'))) ∧
    (Orchestrator.w_ttl ow oh = Ok ttl →
     Orchestrator.poll bug_id (Orchestrator.process entry) os (oh ++ [(Ttl hbk, true)]) = (Ok (Some c), (os2, oh2)) →
     Orchestrator.w_exists ow oh2 = Ok (shown donek (end_trace r)) →
     Orchestrator.check_one ow (heartbeat_key cfg) (completed_key cfg) now bug_id entry os oh =
       Orchestrator.monitor_restart ow bug_id os2 (oh2 ++ [(Exists donek, true)])).
Proof.
  intros Ht r. destruct (run_unset sig turns s Ht) as (k & Hk & Hunset). destruct (run_records sig turns s []) as [h' Hsteps].
  assert (end_trace r = k) as Htr by (unfold r; rewrite main_run, <-Hk; by destruct (run sig turns s []) as [? [? ?]]).
  assert (∀ h, h `prefix_of` end_trace r → shown donek h = false) as Hall.
  { intros h [k' Hp]. apply shown_never. rewrite Htr in Hp. rewrite Hp, Forall_app in Hunset. apply Hunset. }
  assert (∃ c, r.1 = Ok c ∧ c ≠ 0%Z) as (c & Hc & Hne).
  { unfold r. rewrite main_run. destruct (run sig turns s []) as [rr [s1 h1]]. eexists. split; [reflexivity|].
    destruct Ht as [-> | ->], rr as [[]|e]; simpl; [done|by destruct (is_exit e)|done|by destruct (is_exit e)]. }
  exists c. split; [done|]. split; [done|]. split; [done|]. split.
  - intros ->. exists h'. unfold r. rewrite main_run. unfold body in Hsteps. change (signalled (Some InGraph) InGraph) with true in Hsteps.
    cbv iota in Hsteps. rewrite bind_run in Hsteps.
    destruct (run (Some InGraph) turns s []) as [rr [s1 h1]]. unfold end_state in *. simpl in *. rewrite Hsteps.
    by destruct (cut s h') as [[[]|e] [s2 h2]].
  - intros Httl Hpoll Hex. unfold Orchestrator.check_one. rewrite (bind_call_ok _ _ _ _ _ _ Httl).
    change (heartbeat_key cfg bug_id) with hbk. rewrite bind_run, Hpoll. rewrite (proj2 (Z.eqb_neq c 0) Hne).
    change (completed_key cfg bug_id) with donek. rewrite Hall in Hex by done. by rewrite (bind_call_ok _ _ _ _ _ _ Hex).
Qed.

End monitor.
End worker.

(** ** A worker whose agent fixes the bug at once *)

Definition no_repr : FloatRepr := λ _, "0.5".
Definition no_parse : FloatParse := λ _, None.
Definition calm : world := mkWorld (λ _, Ok tt) (λ _, Ok tt) (λ _, Ok tt) (λ _, 1777306524000%Z).
Definition sample_cfg : settings := mkSettings (append "hb:") (append "done:") 30 86400 ["repos"].
Definition sample_env : list (string * string) := [("project_web_url", "http://h/p"); ("project_id", "1"); ("job_id", "2")].
Definition sample_os : os := mkOs (λ _ _ _, None) (λ _ _ _, None) (λ _ _ _, false).
Definition fixes (a : agent_args unit) (i : bug_input unit) : M wst fix_output := mret (mkFix "fixed" PNone 1 None).
Definition kept_store : res StepCheckpoint.backend := Ok (StepCheckpoint.FileBackend "/d" 60).
Definition sample_main (w : world) (environ : list (string * string)) (cut : M wst unit) (sig : option point) : M wst Z :=
  @main no_repr no_parse unit unit w sample_cfg "B" sample_os sample_os kept_store environ None (λ _, Ok tt) (λ _, Ok tt)
    (Ok PNone) (λ _, Ok tt) fixes cut sig 1.
Definition with_repo : wst :=
  mkSt {[ ["repos"] := Dir; ["repos"; "B"] := Dir ]} {[ ("B", "s.json") := "{}" ]}.

Lemma fixes_mind_keys : @minds_its_keys unit unit sample_cfg "B" fixes (mret tt).
Proof. split; [intros a i s h|intros s h]; exists []; by rewrite app_nil_r. Qed.

(** The look after the heartbeat was cleared, before the status is known. *)
Definition late_world : Orchestrator.world :=
  Orchestrator.mkWorld (λ _, 0%Q) (Orchestrator.w_now Orchestrator.sample_world) (λ _, (177, 15)%N)
    (λ _, Ok "p1") (λ _, Ok tt) (λ _, Ok tt) (λ _ _, None) (λ _, Ok (-2)%Z) (λ _, Ok true)
    (λ _, Ok None) (λ _, Ok tt) (λ _, Ok tt).
(** A worker that is gone with a status of 143. *)
Definition taken_world : Orchestrator.world :=
  Orchestrator.mkWorld (λ _, 0%Q) (Orchestrator.w_now Orchestrator.sample_world) (λ _, (177, 15)%N)
    (λ _, Ok "p1") (λ _, Ok tt) (λ _, Ok tt) (λ _ _, Some 143%Z) (λ _, Ok (-2)%Z) (λ _, Ok false)
    (λ _, Ok None) (λ _, Ok tt) (λ _, Ok tt).

Definition all_calls : trace := end_trace (sample_main calm sample_env (mret tt) None with_repo []).

Lemma all_calls_made :
  all_calls = [(SetEx "hb:B" "1777306524000" 60, true); (SetEx "done:B" "1" 86400, true); (Delete "hb:B", true)].
Proof. by vm_compute. Qed.

Lemma sample_keys : hb_key sample_cfg "B" ≠ done_key sample_cfg "B".
Proof. by vm_compute. Qed.


Lemma taken_worker_restarted_witness :
  let spawner := Orchestrator.WorkerSpawner taken_world [] "redis://" in
  let os := ([("B", Orchestrator.sample_entry "B")], tt) in
  @Orchestrator.check_one taken_world unit spawner (append "hb:") (append "done:") 10 "B" (Orchestrator.sample_entry "B") os [] =
  @Orchestrator.monitor_restart taken_world unit spawner "B" os [(Ttl "hb:B", true); (Exists "done:B", true)].
Proof.
  destruct (@taken_worker_restarted no_repr no_parse unit unit calm sample_cfg "B" sample_os sample_os kept_store sample_env None
    (λ _, Ok tt) (λ _, Ok tt) (Ok PNone) (λ _, Ok tt) fixes (mret tt) fixes_mind_keys sample_keys taken_world unit
    (Orchestrator.WorkerSpawner taken_world [] "redis://") 1 with_repo (Orchestrator.sample_entry "B")
    ([("B", Orchestrator.sample_entry "B")], tt) ([("B", Orchestrator.sample_entry "B")], tt) [] [(Ttl "hb:B", true)] 10 (-2)%Z (Some InGraph))
    as (c & Hc & _ & _ & _ & Hcheck); [by left|].
  assert (c = 143%Z) as -> by (vm_compute in Hc; congruence).
  apply Hcheck; by vm_compute.
Defined.

(** The run raised: its status is 0 and its key is set, so nobody takes up the records it left. *)
Example failed_run_is_over :
  match sample_main calm [] (mret tt) None with_repo [] with
  | (Ok rc, (s, h)) => rc = 0%Z ∧ shown "done:B" h = true ∧ steps s !! ("B", "s.json") = Some "{}"
  | _ => False
  end.
Proof. by vm_compute. Qed.

(** A signal that finds the agent done, and the worker waiting for its heartbeat to
    end: the records are gone, the key is not set, and the status asks for a restart. *)
Example late_signal_repeats_the_run :
  match sample_main calm sample_env (mret tt) (Some AtHeartbeat) with_repo [] with
  | (Ok rc, (s, h)) => rc = 143%Z ∧ shown "done:B" h = false ∧ steps s !! ("B", "s.json") = None
  | _ => False
  end.
Proof. by vm_compute. Qed.

(** A heartbeat that failed ends the last steps before they begin: the key of the
    worker is not set and its repository stays. *)
Definition hiccup : world := mkWorld (λ h, match h with [] => Raise (Exn "ConnectionError" "") | _ => Ok tt end)
  (λ _, Ok tt) (λ _, Ok tt) (λ _, 0%Z).
Example failed_heartbeat_skips_the_rest :
  match sample_main hiccup sample_env (mret tt) None with_repo [] with
  | (Ok rc, (s, h)) => rc = 0%Z ∧ shown "done:B" h = false ∧ disk s !! ["repos"; "B"] = Some Dir
  | _ => False
  end.
Proof. by vm_compute. Qed.

End WorkerSpec.
