(* ===== verification/Standalone.v ===== *)
(** * The worker without a server

    Model of [bf_worker/standalone.py]: the provider that is chosen, the run of the
    agent, and the review that asks before the patch is applied to the source.  The
    answers of the person asked are a list; after the last one the input is closed.
    [diff] and [patch] are one argument that runs a program; a program that is not
    there raises.  What is logged is left out. *)

From S2P Require Import Prelude PyStr Effects PyJson PyJsonLoads Guards Files Sweep Coordinator AgentConfig.
Local Open Scope string_scope.
Local Open Scope list_scope.

Module Standalone.
Import Files Sweep AgentConfig.

(** The command line. *)
Record args := mkArgs {
  source_dir : path;
  trace_file : string;
  test_cmd : string;
  bug_id : string;
  no_git : bool;
  output_dir : option path;
  review : bool;
  config : option path
}.

(** What [LocalGitProvider] and [LocalNoGitProvider] are constructed with. *)
Inductive provider :=
| LocalGit (source : path) (trace cmd : string)
| LocalNoGit (source output : path) (trace cmd bug : string).

Definition has_git (source : path) (f : fs) : bool := exists_ (source ++ [".git"]) f.

(** The exit status, once the program ends by [sys.exit] or [SystemExit], and what is printed. *)
Definition answer : Type := Z * list string.

Section main.
Context `{FloatRepr, FloatParse} {B : Type} (o : os) (resolve : path → path) (tempdir : path).
Context (mkdtemp : string → path → M fs path) (program : list string → M fs Coordinator.exit).
Context (reexec : option path → M fs (option Z)) (check_llm : res pyval) (build_enhancements : pyval → res B).
(** The run of the agent, with the working copy its provider is left with. *)
Context (fix_ : agent_args B → string → provider → M fs (fix_output * option path)).

Fixpoint ask (answers : list string) : res (bool * list string) :=
  match answers with
  | [] => Raise (Exn "EOFError" "EOF when reading a line")
  | a :: answers' =>
      let choice := str_lower (str_strip a) in
      if bool_decide (choice = "y") || bool_decide (choice = "yes") then Ok (true, [])
      else if bool_decide (choice = "n") || bool_decide (choice = "no") then Ok (false, [])
      else r ← ask answers'; Ok (r.1, "Please enter 'y' or 'n'." :: r.2)
  end.

Definition interactive_review (source work : path) (answers : list string) : M fs (bool * list string) :=
  shown ← try_ (r ← program ["diff"; "-ru"; "--color=always"; show source; show work];
                mret [if str_nonempty r.1.2 then r.1.2 else "(no differences)"])
               (λ e, if bool_decide (exn_class e = "FileNotFoundError")
                     then mret ["(diff command not available, inspect working copy manually)"; "  Working copy: " +:+ show work]
                     else throw e);
  r ← lift (ask answers);
  mret (r.1, [nl +:+ "--- Side-by-side diff (original vs modified) ---" +:+ nl] ++ shown ++ [""] ++ r.2).

Definition apply_patch_to_source (source patch : path) : M fs (list string) :=
  r ← program ["patch"; "-p1"; "-d"; show source; "-i"; show patch];
  let '(rc, out, err) := r in
  mret [if (rc =? 0)%Z then "Patch applied successfully to " +:+ show source else "Patch application failed:" +:+ nl +:+ err].

Definition choose_provider (a : args) (source : path) : M fs provider :=
  f ← get;
  if has_git source f && negb (no_git a) then mret (LocalGit source (trace_file a) (test_cmd a))
  else
    out ← match output_dir a with
          | Some d => mret d
          | None =>
              let tmp_root := tempdir ++ ["sdlcma_out"] in
              _ ← mkdir_parents o tmp_root;
              mkdtemp (bug_id a +:+ "_") tmp_root
          end;
    mret (LocalNoGit source out (trace_file a) (test_cmd a) (bug_id a)).

(** What follows a fix, where a review is asked for. *)
Definition after_fix (a : args) (source : path) (p : provider) (work : option path) (answers : list string) : M fs (list string) :=
  match p, work with
  | LocalNoGit _ out _ _ _, Some work =>
      if review a then
        r ← interactive_review source work answers;
        if (r.1 : bool) then
          let patch_file := join out (bug_id a +:+ ".patch") in
          f ← get;
          lines ← (if exists_ patch_file f then apply_patch_to_source source patch_file else mret ["No patch file found to apply."]);
          mret (r.2 ++ lines)
        else mret (r.2 ++ ["Fix rejected. Working copy preserved at: " +:+ show work])
      else mret []
  | _, _ => mret []
  end.

Definition main (a : args) (answers : list string) : M fs answer :=
  again ← reexec (config a);
  match again with
  | Some rc => mret (rc, [])
  | None =>
      let source := resolve (source_dir a) in
      f ← get;
      if negb (is_dir source f) then mret (1%Z, ["Error: source directory not found: " +:+ show source])
      else
        p ← choose_provider a source;
        spec ← load_agent_spec o (config a);
        served ← lift check_llm;
        agent ← lift (make_agent build_enhancements spec served);
        r ← fix_ agent (bug_id a) p;
        let '(out, work) := r in
        if bool_decide (outcome out = "error") then mret (1%Z, [nl +:+ "Fix failed: " +:+ py_str (error out)])
        else lines ← after_fix a source p work answers; mret (0%Z, lines)
  end.

(** Only an answer of yes lets the program [patch] run. *)
Lemma rejected_keeps_the_source a source p work answers f h lines :
  ask answers = Ok (false, lines) →
  (∀ argv f h, argv !! 0%nat = Some "diff" → (program argv f h).2.1 = f) →
  (after_fix a source p work answers f h).2.1 = f.
Proof.
  intros Hask Hdiff. unfold after_fix. destruct p as [|s out t c b]; [done|]. destruct work as [work|]; [|done].
  destruct (review a); [|done]. rewrite bind_run. unfold interactive_review. rewrite bind_run. unfold try_. rewrite bind_run.
  pose proof (Hdiff ["diff"; "-ru"; "--color=always"; show source; show work] f h eq_refl) as Hd.
  destruct (program _ f h) as [[r|e] [f1 h1]]; simpl in Hd; subst f1; cbn [mret M_ret].
  - rewrite bind_run, Hask. done.
  - destruct (bool_decide _); [|done]. cbn [mret M_ret]. by rewrite bind_run, Hask.
Qed.

End main.
End Standalone.
