(* ===== verification/SweBench.v ===== *)
(** * Batches of benchmark instances

    Models of [bf_worker/swebench_batch.py] and of the grading of
    [bf_worker/swebench_single.py].  The data set, the agent ([MiniSwe]), the shuffle,
    the order in which the pool takes the instances and the official harness are
    arguments.  The pool runs its instances one after the other here: each works on
    files of its own but for the predictions, which are written under a lock.  An
    instance is its identifier with its fields. *)

From S2P Require Import Prelude PyStr PyTime Regex Effects Guards PyJson PyJsonLoads PyJsonIndent Files Prompt RunRecord Journal JournalSpec World ReactLoop Metrics Sweep SweepSpec Coordinator CoordinatorSpec.
Local Open Scope string_scope.
Local Open Scope list_scope.

Module SweBench.
Import Files RunRecord Sweep.

Record instance := mkInstance { instance_id : string; fields : list (string * pyval) }.

Definition DATASET_MAPPING : list (string * string) :=
  [("full", "princeton-nlp/SWE-Bench"); ("verified", "princeton-nlp/SWE-Bench_Verified");
   ("lite", "princeton-nlp/SWE-Bench_Lite"); ("multimodal", "princeton-nlp/SWE-Bench_Multimodal");
   ("multilingual", "swe-bench/SWE-Bench_Multilingual"); ("_test", "klieret/swe-bench-dummy-test-dataset")].

Definition system_exit (m : string) : exn := Exn "SystemExit" m.

(** ** The selection *)

(** [l[slice(start, stop, step)]] *)
Definition bound (n lower upper : Z) (v : option Z) (dflt : Z) : Z :=
  match v with
  | None => dflt
  | Some i => if (i <? 0)%Z then Z.max (i + n) lower else Z.min i upper
  end.
Fixpoint stride {A} (fuel : nat) (l : list A) (start stop step : Z) : list A :=
  match fuel with
  | O => []
  | S fuel' =>
      if (if 0 <? step then start <? stop else stop <? start)%Z
      then match l !! Z.to_nat start with Some x => x :: stride fuel' l (start + step) stop step | None => [] end
      else []
  end.
Definition py_slice {A} (l : list A) (start stop step : option Z) : res (list A) :=
  let n := Z.of_nat (List.length l) in
  let st := default 1%Z step in
  if (st =? 0)%Z then Raise (value_error "slice step cannot be zero")
  else
    let up := (0 <? st)%Z in
    let lower := (if up then 0 else -1)%Z in
    let upper := (if up then n else n - 1)%Z in
    let a := bound n lower upper start (if up then lower else upper) in
    let b := bound n lower upper stop (if up then upper else lower) in
    Ok (stride (List.length l) l a b st).

Fixpoint slice_parts (l : list string) : res (list (option Z)) :=
  match l with
  | [] => Ok []
  | x :: l' =>
      p ← (if str_nonempty x
           then match str_int x with
                | Some z => Ok (Some z)
                | None => Raise (value_error ("invalid literal for int() with base 10: " +:+ repr_str x))
                end
           else Ok None);
      ps ← slice_parts l';
      Ok (p :: ps)
  end.

Definition apply_slice {A} (spec : string) (l : list A) : res (list A) :=
  parts ← slice_parts (str_split ":"%char spec);
  match parts with
  | [b] => py_slice l None b None
  | [a; b] => py_slice l a b None
  | [a; b; c] => py_slice l a b c
  | _ => Raise (type_error ("slice expected at most 3 arguments, got " +:+ str_of_nat (List.length parts)))
  end.

Section selection.
Context (shuffle : list instance → list instance).

Definition by_id (instances : list instance) : list (string * instance) :=
  fold_left (λ d i, dict_set (instance_id i) i d) instances [].

Definition filter_re_ (pattern : string) (l : list instance) : res (list instance) :=
  match compile no_flags pattern with
  | Some r => Ok (List.filter (λ i, match re_search r (instance_id i) with Some _ => true | None => false end) l)
  | None => Raise (Exn "error" pattern)
  end.

Definition filter_instances (instances : list instance) (ids : option (list string)) (filter_re slice_spec : string)
    (shuffled : bool) : res (list instance) :=
  let d := by_id instances in
  selected ← match ids with
             | Some ((_ :: _) as ids) =>
                 match List.filter (λ i, negb (dict_has i d)) ids with
                 | [] => Ok (omap (λ i, dict_get i d) ids)
                 | missing => Raise (system_exit ("unknown instance id(s): " +:+ str_join ", " missing))
                 end
             | _ => Ok (omap (λ k, dict_get k d) (sort_by id (map fst d)))
             end;
  let selected := if shuffled then shuffle selected else selected in
  selected ← (if str_nonempty filter_re then filter_re_ filter_re selected else Ok selected);
  if str_nonempty slice_spec then apply_slice slice_spec selected else Ok selected.

(** The identifiers of a file, without comments. *)
Definition ids_of_text (text : string) : list string :=
  List.filter (λ l, str_nonempty l && negb (startswith "#" l)) (map str_strip (splitlines text)).

Definition select_instances (o : os) (load_dataset : string → M fs (list instance)) (subset : string) (ids : list string)
    (ids_file : option path) (filter_re slice_spec : string) (shuffled : bool) : M fs (list instance) :=
  instances ← load_dataset (default subset (dict_get subset DATASET_MAPPING));
  more ← match ids_file with None => mret [] | Some p => text ← read_text o p; mret (ids_of_text text) end;
  let wanted := ids ++ more in
  lift (filter_instances instances (match wanted with [] => None | _ => Some wanted end) filter_re slice_spec shuffled).

End selection.

(** ** Grading *)

Section batch.
Context `{FloatRepr, FloatParse} (o : os).
Context (python : string) (harness : list string → path → M fs Coordinator.exit) (mtime : path → Z).

Definition harness_argv (dataset split : string) (preds : path) (ids : list string) (run_id : string) (workers : Z) : list string :=
  [python; "-m"; "swebench.harness.run_evaluation"; "--dataset_name"; dataset; "--split"; split;
   "--predictions_path"; show preds; "--instance_ids"] ++ ids ++
  ["--run_id"; run_id; "--max_workers"; str_of_Z workers; "--cache_level"; "env"].

(** Of the reports in the directory, the last one written. *)
Definition latest (l : list path) : option path :=
  fold_left (λ best p, match best with
                       | Some q => if (mtime q <=? mtime p)%Z then Some p else Some q
                       | None => Some p
                       end) l None.
Definition reports (workdir : path) (run_id : string) (f : fs) : list path :=
  map (λ n, workdir ++ [n]) (List.filter (endswith ("." +:+ run_id +:+ ".json")) (names_in workdir f)).

Definition hashable (v : pyval) : bool := match v with PList _ | PDict _ => false | _ => true end.

(** [set(report.get("resolved_ids", []))] *)
Definition resolved_ids (report : pyval) : res (list pyval) :=
  v ← py_get report "resolved_ids" (PList []);
  l ← py_iter v;
  match List.filter (λ x, negb (hashable x)) l with
  | x :: _ => Raise (type_error ("unhashable type: '" +:+ type_name x +:+ "'"))
  | [] => Ok l
  end.

Definition unknown (ids : list string) : list (string * pyval) := map (λ i, (i, PNone)) ids.
Definition verdicts_of (ids : list string) (resolved : list pyval) : list (string * pyval) :=
  map (λ i, (i, PBool (mem (PStr i) resolved))) ids.

Definition grade_with_harness (subset split : string) (ids : list string) (preds : path) (run_id : string) (workdir : path)
    (workers : Z) : M fs (list (string * pyval)) :=
  r ← harness (harness_argv (default subset (dict_get subset DATASET_MAPPING)) split preds ids run_id workers) workdir;
  let '(rc, out, err) := r in
  if negb (rc =? 0)%Z then mret (unknown ids)
  else
    f ← get;
    match latest (reports workdir run_id f) with
    | None => mret (unknown ids)
    | Some p =>
        report ← Coordinator.attempt (read_json o p);
        match report with
        | Raise _ => mret (unknown ids)
        | Ok report => l ← lift (resolved_ids report); mret (verdicts_of ids l)
        end
    end.

(** ** One instance *)

Context (git : git_runner) (via_gateway : bool) (now : string → Z).
(** The run of the agent on an instance, with the time it took.  [finish_run] works
    on the store of [StepCheckpoint] ([MiniSwe.finish_run]). *)
Context (fix_ : instance → M fs (res fix_output * Q)).
Context (agent_name : string) (model_name : pyval) (workflow_mode : Z).

(** The entry of an instance in [preds.json]. *)
Definition prediction (iid : string) (patch : pyval) : pyval :=
  PDict [("model_name_or_path", py_or model_name (PStr "mini_swe_agent")); ("instance_id", PStr iid); ("model_patch", patch)].

(** [data[k] = v] *)
Definition set_item (data : pyval) (k : string) (v : pyval) : res pyval :=
  match data with
  | PDict d => Ok (PDict (dict_set k v d))
  | PList _ => Raise (type_error "list indices must be integers or slices, not str")
  | x => Raise (type_error ("'" +:+ type_name x +:+ "' object does not support item assignment"))
  end.

Definition update_pred (preds : path) (iid : string) (patch : pyval) : M fs unit :=
  f ← get;
  data ← (if exists_ preds f then read_json o preds else mret (PDict []));
  data ← lift (set_item data iid (prediction iid patch));
  write_text o preds (json_pretty data).

(** The record of an instance, of what its agent answered. *)
Definition fixed_or_error (iid : string) (r : res fix_output) : fix_output :=
  match r with
  | Ok out => out
  | Raise e => mkFix "error" (PStr (exn_msg e)) 0 (Some [("swebench_instance_id", PStr iid); ("model_patch", PStr "")])
  end.
Definition instance_record (iid : string) (r : res fix_output * Q) : list (string * pyval) :=
  let out := fixed_or_error iid r.1 in
  from_outputs git via_gateway (now iid)
    (mkOutputs agent_name iid "" "" "" (outcome out) (error out) (iterations out)
       (Some (World.dict (default [] (final_state out)))) (PFloat (Metrics.round_to 1000 r.2))
       (PDict [("llm_model", model_name); ("workflow_mode", PInt workflow_mode)]) PNone model_name PNone).

(** [fs.get("model_patch") or ""] *)
Definition patch_of (iid : string) (r : res fix_output * Q) : pyval :=
  py_or (get_or "model_patch" PNone (default [] (final_state (fixed_or_error iid r.1)))) (PStr "").

Definition record_path (records_dir : path) (iid : string) : path := join records_dir (iid +:+ ".json").

Definition run_one (records_dir preds : path) (i : instance) : M fs (list (string * pyval)) :=
  let iid := instance_id i in
  r ← fix_ i;
  _ ← update_pred preds iid (patch_of iid r);
  let d := instance_record iid r in
  _ ← write_text o (record_path records_dir iid) (json_pretty (PDict d));
  mret d.

(** ** The batch *)

(** The instances that have a prediction. *)
Definition existing_ids (preds : path) (redo : bool) : M fs (list string) :=
  f ← get;
  if exists_ preds f && negb redo then
    v ← read_json o preds;
    match v with
    | PDict d => mret (map fst d)
    | v => throw (attribute_error ("'" +:+ type_name v +:+ "' object has no attribute 'keys'"))
    end
  else mret [].

Definition with_verdict (verdicts : list (string * pyval)) (iid : string) (d : pyval) : res pyval :=
  match dict_get iid verdicts with Some v => set_item d "resolved" v | None => Ok d end.

(** The records of the selection, with the verdicts in them. *)
Fixpoint backfill (records_dir : path) (verdicts : list (string * pyval)) (ids : list string) : M fs (list pyval) :=
  match ids with
  | [] => mret []
  | iid :: ids' =>
      f ← get;
      if negb (exists_ (record_path records_dir iid) f) then backfill records_dir verdicts ids'
      else
        d ← read_json o (record_path records_dir iid);
        d ← lift (with_verdict verdicts iid d);
        _ ← (if dict_has iid verdicts then write_text o (record_path records_dir iid) (json_pretty d) else mret tt);
        ds ← backfill records_dir verdicts ids';
        mret (d :: ds)
  end.

Definition count_where (p : pyval → bool) (k : string) (l : list pyval) : res nat :=
  vs ← fold_right (λ d acc, v ← py_get d k PNone; vs ← acc; Ok (v :: vs)) (Ok []) l;
  Ok (List.length (List.filter p vs)).

Definition results_of (run_id : string) (summary : list pyval) : res pyval :=
  let n := List.length summary in
  n_fixed ← count_where (λ v, bool_decide (v = PStr "fixed")) "outcome" summary;
  n_resolved ← count_where (λ v, bool_decide (v = PBool true)) "resolved" summary;
  n_graded ← count_where (λ v, negb (bool_decide (v = PNone))) "resolved" summary;
  Ok (PDict [("run_id", PStr run_id); ("model", model_name); ("n", Metrics.nat_val n); ("n_fixed", Metrics.nat_val n_fixed);
             ("n_resolved", Metrics.nat_val n_resolved); ("n_graded", Metrics.nat_val n_graded);
             ("resolved_rate", match n with O => PNone | _ => Metrics.rate n_resolved n end)]).

Context (runs_root : path) (pool : list instance → list instance).

(** The batch of a selection; [start] names a run without an identifier. *)
Definition run_batch (subset split : string) (instances : list instance) (run_id : option string) (start : Z)
    (redo no_grade : bool) (grade_workers : Z) : M fs (pyval * list pyval) :=
  match instances with
  | [] => throw (system_exit "no instances selected")
  | _ =>
      let run_id := Coordinator.or_text run_id ("swebench_" +:+ stamp start) in
      let run_dir := join runs_root run_id in
      let records_dir := run_dir ++ ["records"] in
      let preds := run_dir ++ ["preds.json"] in
      _ ← mkdir_parents o records_dir;
      existing ← existing_ids preds redo;
      let todo := List.filter (λ i, negb (mem (instance_id i) existing)) instances in
      _ ← for_ (pool todo) (λ i, ignore (_ ← run_one records_dir preds i; mret tt));
      let ids := map instance_id instances in
      verdicts ← (if no_grade then mret [] else grade_with_harness subset split ids preds run_id run_dir grade_workers);
      summary ← backfill records_dir verdicts ids;
      _ ← write_text o (run_dir ++ ["summary.json"]) (json_pretty (PList summary));
      results ← lift (results_of run_id summary);
      _ ← write_text o (run_dir ++ ["results.json"]) (json_pretty results);
      mret (results, summary)
  end.

End batch.
End SweBench.

(** * A batch that is taken up again is complete

    On a disk that refuses nothing, a batch whose agents and harness leave its files
    alone ends with a record of every selected instance, also of those that an
    earlier batch of the same name had finished, and the summary holds these records
    in order with the verdicts of the harness. *)

Module SweBenchSpec.
Import Files RunRecord JournalSpec Sweep SweepSpec SweBench.
Implicit Types (f : fs) (h : trace) (p q : path) (iid : string) (i : instance) (d : list (string * pyval)).

(** The last report has the latest time. *)
Lemma latest_newest (mtime : path → Z) (l : list path) q : q ∈ l → ∃ p, latest mtime l = Some p ∧ p ∈ l ∧ (mtime q ≤ mtime p)%Z.
Proof.
  unfold latest. assert (∀ l best, ∃ p, fold_left (λ best p, match best with
    | Some q => if (mtime q <=? mtime p)%Z then Some p else Some q | None => Some p end) l (Some best) = Some p ∧
    p ∈ best :: l ∧ ∀ q, q ∈ best :: l → (mtime q ≤ mtime p)%Z) as Hgo.
  { clear. induction l as [|x l IH]; intros best; cbn [fold_left].
    - exists best. split; [done|]. split; [by apply list_elem_of_singleton|]. intros q Hq%list_elem_of_singleton. by subst.
    - destruct (Z.leb_spec (mtime best) (mtime x)) as [Hle|Hlt].
      + destruct (IH x) as (p & -> & Hp & Hmax). exists p. split; [done|]. split; [apply elem_of_cons; by right|].
        intros q [->|Hq]%elem_of_cons; [|by apply Hmax]. specialize (Hmax x ltac:(apply elem_of_cons; by left)). lia.
      + destruct (IH best) as (p & -> & Hp & Hmax). exists p. split; [done|]. split; [set_solver|].
        intros q Hq. destruct (decide (q = x)) as [->|Hne]; [|apply Hmax; set_solver].
        specialize (Hmax best ltac:(apply elem_of_cons; by left)). lia. }
  destruct l as [|x l]; [by intros ?%elem_of_nil|]. intros Hq. cbn [fold_left].
  destruct (Hgo l x) as (p & -> & Hp & Hmax). exists p. split; [done|]. split; [done|]. by apply Hmax.
Qed.

Section batch.
Context `{FloatRepr, FloatParse} (o : os).
Context (python : string) (harness : list string → path → M fs Coordinator.exit) (mtime : path → Z).
Context (git : git_runner) (via_gateway : bool) (now : string → Z) (fix_ : instance → M fs (res fix_output * Q)).
Context (agent_name : string) (model_name : pyval) (workflow_mode : Z).
Context (run_dir : path) (run_id : string) (ids : list string).

#[local] Notation records_dir := (run_dir ++ ["records"]).
#[local] Notation preds := (run_dir ++ ["preds.json"]).
#[local] Notation rec iid := (run_dir ++ ["records"; (iid +:+ ".json")%string]).
#[local] Notation record_of := (instance_record git via_gateway now agent_name model_name workflow_mode).

(** The files of the batch, which the agents and the harness leave alone. *)
Definition ours q : Prop := q `prefix_of` run_dir ∨ below records_dir q = true ∨ ∃ n, n ∈ ["preds.json"; "summary.json"; "results.json"] ∧ q = run_dir ++ [n].

(** What is recorded of an instance is JSON. *)
Definition writable (r : res fix_output * Q) : Prop :=
  ∀ iid, json_ok (PDict (record_of iid r)) ∧ json_ok (patch_of iid r).

Definition agent_minds : Prop := ∀ i f h, ∃ r f', fix_ i f h = (Ok r, (f', h)) ∧ writable r ∧ ∀ q, ours q → f' !! q = f !! q.

(** The harness ends, and the last report, if it is JSON, is an object with a list of names. *)
Definition harness_minds : Prop := ∀ argv f h, ∃ x f', harness argv run_dir f h = (Ok x, (f', h)) ∧
  (∀ q, ours q → f' !! q = f !! q) ∧
  ∀ p v, latest mtime (reports run_dir run_id f') = Some p → read_json o p f' h = (Ok v, (f', h)) → ∃ l, resolved_ids v = Ok l.

Context (Hw : willing o) (Hplain : PlainFloats) (Hagent : agent_minds) (Hharness : harness_minds).
Context (Hmodel : json_ok model_name).

(** An instance with a record. *)
Definition covered f iid : Prop := ∃ d, f !! rec iid = Some (File (json_pretty (PDict d))) ∧ json_ok (PDict d).

(** The predictions that are there, and a record for each. *)
Record settled f d : Prop := {
  at_hand : open_to records_dir f;
  at_preds : match f !! preds with
             | None => d = []
             | Some node => node = File (json_pretty (PDict d)) ∧ json_ok (PDict d)
             end;
  all_covered iid : is_Some (dict_get iid d) → covered f iid;
  no_dir q : q = run_dir ++ ["summary.json"] ∨ q = run_dir ++ ["results.json"] ∨ (∃ iid, iid ∈ ids ∧ q = rec iid) → f !! q ≠ Some Dir
}.

Lemma ours_rec iid : ours (rec iid).
Proof.
  right. left. apply bool_decide_eq_true. exists [(iid +:+ ".json")%string]. by rewrite <-app_assoc.
Qed.

Lemma settled_frame f f' d : (∀ q, ours q → f' !! q = f !! q) → settled f d → settled f' d.
Proof.
  intros Hf [Hopen Hpreds Hcov Hdir]. assert (∀ n, n ∈ ["preds.json"; "summary.json"; "results.json"] → f' !! (run_dir ++ [n]) = f !! (run_dir ++ [n])) as Hn.
  { intros n Hn. apply Hf. right. right. by exists n. }
  split.
  - intros q Hq. rewrite Hf; [by apply Hopen|]. apply prefix_app_last in Hq as [Hq| ->]; [by left|]. right. left. apply below_refl.
  - rewrite Hn by set_solver. exact Hpreds.
  - intros iid Hi. destruct (Hcov iid Hi) as (dr & Hr & Hok). exists dr. by rewrite Hf by apply ours_rec.
  - intros q Hq. rewrite Hf; [by apply Hdir|]. destruct Hq as [-> |[-> |(iid & _ & ->)]]; [| |apply ours_rec].
    + right. right. exists "summary.json". set_solver.
    + right. right. exists "results.json". set_solver.
Qed.

Lemma rec_inj iid iid' : rec iid = rec iid' → iid = iid'.
Proof. intros He. apply app_inv_head in He. injection He as He. by apply str_app_inj_r in He. Qed.

Lemma rec_not n iid : run_dir ++ [n] ≠ rec iid.
Proof. intros He. by apply app_inv_head in He. Qed.

Lemma rec_not_above q iid : q `prefix_of` records_dir → q ≠ rec iid.
Proof.
  intros Hq ->. change ["records"; (iid +:+ ".json")%string] with (["records"] ++ [(iid +:+ ".json")%string]) in Hq.
  rewrite app_assoc in Hq. by apply prefix_snoc_not in Hq.
Qed.

(** A record of an instance replaced. *)
Lemma settled_rec f d iid r : settled f d → json_ok (PDict r) → settled (<[rec iid := File (json_pretty (PDict r))]> f) d.
Proof.
  intros [Hopen Hpreds Hcov Hdir] Hr. split.
  - intros q Hq. rewrite lookup_insert_ne by (by apply not_eq_sym, rec_not_above). by apply Hopen.
  - rewrite lookup_insert_ne by (by apply not_eq_sym, rec_not). exact Hpreds.
  - intros iid' Hi. destruct (decide (iid' = iid)) as [->|Hne]; [exists r; by rewrite lookup_insert_eq|].
    destruct (Hcov iid' Hi) as (dr & Hdr & Hok). exists dr. rewrite lookup_insert_ne; [done|]. intros He%rec_inj. congruence.
  - intros q Hq. destruct (decide (q = rec iid)) as [->|Hne]; [by rewrite lookup_insert_eq|].
    rewrite lookup_insert_ne by done. by apply Hdir.
Qed.

Lemma covered_rec f iid r iid' : json_ok (PDict r) → covered f iid' → covered (<[rec iid := File (json_pretty (PDict r))]> f) iid'.
Proof.
  intros Hr (dr & Hdr & Hok). destruct (decide (iid' = iid)) as [->|Hne]; [exists r; by rewrite lookup_insert_eq|].
  exists dr. rewrite lookup_insert_ne; [done|]. intros He%rec_inj. congruence.
Qed.

Lemma write_rec_run f h iid t : open_to records_dir f → f !! rec iid ≠ Some Dir →
  write_text o (rec iid) t f h = (Ok tt, (<[rec iid := File t]> f, h)).
Proof.
  intros Hopen Hdir. assert (rec iid = records_dir ++ [(iid +:+ ".json")%string]) as He by by rewrite <-app_assoc.
  rewrite He in *. apply write_text_run; [done|by apply Hopen|done].
Qed.

Lemma open_pred f node : open_to records_dir f → open_to records_dir (<[preds := node]> f).
Proof.
  intros Hopen q Hq. rewrite lookup_insert_ne; [by apply Hopen|]. intros <-. apply prefix_app_last in Hq as [Hq|Hq].
  - by apply prefix_snoc_not in Hq.
  - by apply (snoc_ne_snoc run_dir "preds.json" "records") in Hq.
Qed.

Context (Hids : Forall (λ iid, component (iid +:+ ".json")) ids).

Lemma record_path_rec iid : iid ∈ ids → record_path records_dir iid = rec iid.
Proof.
  intros Hi. unfold record_path. rewrite join_component by by (rewrite Forall_forall in Hids; apply Hids). by rewrite <-app_assoc.
Qed.

Lemma open_run_dir f d : settled f d → open_to run_dir f.
Proof. intros [Hopen _ _ _] q Hq. apply Hopen. etrans; [exact Hq|]. by apply prefix_app_r. Qed.

Lemma read_settled f d h : settled f d → f !! preds ≠ None → read_json o preds f h = (Ok (PDict d), (f, h)).
Proof.
  intros [_ Hp _ _] Hne. destruct (f !! preds) as [node|] eqn:E; [|done]. destruct Hp as [-> Hok].
  by apply (CoordinatorSpec.CoordinatorSpec.read_json_run o Hw Hplain).
Qed.

Lemma settled_json f d : settled f d → json_ok (PDict d).
Proof.
  intros [_ Hp _ _]. destruct (f !! preds) as [node|]; [by destruct Hp|]. subst. rewrite json_ok_dict. split; constructor.
Qed.

Lemma update_pred_run f d h iid patch : settled f d →
  update_pred o model_name preds iid patch f h =
    (Ok tt, (<[preds := File (json_pretty (PDict (dict_set iid (prediction model_name iid patch) d)))]> f, h)).
Proof.
  intros Hs. unfold update_pred. rewrite bind_get, bind_run.
  assert ((if exists_ preds f then read_json o preds else mret (PDict [])) f h = (Ok (PDict d), (f, h))) as ->.
  { unfold exists_. case_bool_decide as He.
    - apply read_settled; [done|]. intros E. rewrite E in He. by destruct He.
    - destruct Hs as [_ Hp _ _]. destruct (f !! preds); [by destruct He; eauto|by subst]. }
  rewrite bind_run. cbn [lift set_item]. apply write_text_run; [done|by apply (open_run_dir f d)|].
  destruct Hs as [_ Hp _ _]. destruct (f !! preds); [by destruct Hp as [-> _]|done].
Qed.

Lemma settled_pred f d iid v : settled f d → covered f iid → json_ok v →
  settled (<[preds := File (json_pretty (PDict (dict_set iid v d)))]> f) (dict_set iid v d).
Proof.
  intros Hs Hc Hv. pose proof (settled_json f d Hs) as Hd. destruct Hs as [Hopen Hpreds Hcov Hdir]. split.
  - by apply open_pred.
  - rewrite lookup_insert_eq. split; [done|by apply json_ok_set].
  - intros iid' Hi. assert (covered f iid') as (dr & Hr & Hok).
    { rewrite dict_get_set in Hi. destruct (decide (iid = iid')) as [<-|]; [done|by apply Hcov]. }
    exists dr. rewrite lookup_insert_ne by apply rec_not. done.
  - intros q Hq. destruct (decide (q = preds)) as [->|Hne]; [by rewrite lookup_insert_eq|]. rewrite lookup_insert_ne by done.
    by apply Hdir.
Qed.

(** One instance: its record, then its prediction among the others. *)
Lemma run_one_run f d h i : settled f d → instance_id i ∈ ids →
  ∃ f' v, ignore (_ ← run_one o git via_gateway now fix_ agent_name model_name workflow_mode records_dir preds i; mret tt) f h
      = (Ok tt, (f', h)) ∧
    settled f' (dict_set (instance_id i) v d).
Proof.
  intros Hs Hi. unfold run_one. destruct (Hagent i f h) as (r & f1 & Hrun & Hr & Hf1). set (iid := instance_id i) in *.
  destruct (Hr iid) as [Hrec Hpatch]. pose proof (settled_frame f f1 d Hf1 Hs) as Hs1.
  pose proof (settled_rec f1 d iid _ Hs1 Hrec) as Hs2.
  set (v := prediction model_name iid (patch_of iid r)).
  assert (json_ok v) as Hv.
  { unfold v, prediction. rewrite json_ok_dict. split; [apply (bool_decide_unpack _); by vm_compute|].
    repeat constructor; try done. unfold py_or. by destruct (truthy model_name). }
  pose proof (settled_pred _ d iid v Hs2) as Hs3. specialize (Hs3 ltac:(by eexists; rewrite lookup_insert_eq) Hv).
  rewrite insert_insert_ne in Hs3 by apply rec_not. eexists _, v. split; [|exact Hs3].
  unfold ignore, try_. rewrite bind_run, bind_run, Hrun, bind_run, (update_pred_run f1 d h iid) by done.
  rewrite bind_run, record_path_rec, write_rec_run; [done| | |done].
  - apply open_pred. apply Hs1.
  - rewrite lookup_insert_ne by apply rec_not. apply Hs1. right. right. by exists iid.
Qed.

Lemma silent_read p f h : (read_json o p f h).2 = (f, h).
Proof.
  unfold read_json, read_text. rewrite bind_run, guarded_willing, bind_get by done.
  destruct (f !! p) as [[t|]|]; cbn [mret M_ret throw]; [|done|done]. by destruct (json_loads _).
Qed.

(** The pool: everything that was covered stays so, and every instance of the pool is. *)
Lemma pool_run (l : list instance) f d h : settled f d → Forall (λ i, instance_id i ∈ ids) l →
  ∃ f' d', for_ l (λ i, ignore (_ ← run_one o git via_gateway now fix_ agent_name model_name workflow_mode records_dir preds i; mret tt)) f h
      = (Ok tt, (f', h)) ∧
    settled f' d' ∧ ∀ iid, is_Some (dict_get iid d) ∨ iid ∈ map instance_id l → is_Some (dict_get iid d').
Proof.
  revert f d. induction l as [|i l IH]; intros f d Hs Hl; cbn [for_ map].
  { exists f, d. split; [done|]. split; [done|]. intros iid [Hi|Hi]; [done|]. by apply elem_of_nil in Hi. }
  apply Forall_cons in Hl as [Hi Hl]. destruct (run_one_run f d h i Hs Hi) as (f1 & v & Hrun & Hs1).
  destruct (IH f1 _ Hs1 Hl) as (f' & d' & Hfor & Hs' & Hcov). exists f', d'. rewrite bind_run, Hrun. split; [done|].
  split; [done|]. intros iid Hiid. apply Hcov. rewrite dict_get_set.
  destruct (decide (instance_id i = iid)) as [|Hne]; [left; by eexists|]. destruct Hiid as [?|[?|?]%elem_of_cons]; [by left|congruence|by right].
Qed.

(** ** Verdicts *)

(** A report that no other one is newer than, and the names it lists as resolved. *)
Definition newest (l : list path) p : Prop := p ∈ l ∧ ∀ q, q ∈ l → (mtime q ≤ mtime p)%Z.
Definition lists (report : pyval) (names : list pyval) : Prop :=
  ∃ v, py_get report "resolved_ids" (PList []) = Ok v ∧ py_iter v = Ok names.

(** The verdicts of a run of the harness that ended with [x] and left [f]: true for
    what the newest report lists, false for the rest, and none at all when the
    harness failed, left no report, or one that is no JSON. *)
Definition vouched (asked : list string) (x : Coordinator.exit) f (verdicts : list (string * pyval)) : Prop :=
  let here := reports run_dir run_id f in
  (x.1.1 ≠ 0%Z ∨ here = [] ∨ (∃ p e, newest here p ∧ (read_json o p f []).1 = Raise e)) ∧
    verdicts = map (λ iid, (iid, PNone)) asked ∨
  x.1.1 = 0%Z ∧ ∃ p report names, newest here p ∧ (read_json o p f []).1 = Ok report ∧ lists report names ∧
    verdicts = map (λ iid, (iid, PBool (mem (PStr iid) names))) asked.

(** The harness was asked about the instances and the predictions [d], and vouches
    for the verdicts. *)
Definition harness_says (subset split : string) (workers : Z) (asked : list string) d h (verdicts : list (string * pyval)) : Prop :=
  ∃ f2 x f3, f2 !! preds = Some (File (json_pretty (PDict d))) ∧
    harness (harness_argv python (default subset (dict_get subset DATASET_MAPPING)) split preds asked run_id workers) run_dir
      f2 h = (Ok x, (f3, h)) ∧ vouched asked x f3 verdicts.

(** A verdict is a truth value or none. *)
Definition plain_verdicts (verdicts : list (string * pyval)) : Prop := ∀ iid v, dict_get iid verdicts = Some v → json_ok v.

Lemma vouched_plain asked x f verdicts : vouched asked x f verdicts → plain_verdicts verdicts.
Proof.
  intros Hv iid v Hg%dict_get_elem. destruct Hv as [[_ ->]|(_ & p & r & l & _ & _ & _ & ->)];
    by apply list_elem_of_fmap in Hg as (i & [= _ ->] & _).
Qed.

Lemma latest_none l : latest mtime l = None → l = [].
Proof. destruct l as [|x l]; [done|]. destruct (latest_newest mtime (x :: l) x) as (p & -> & _); [by left|done]. Qed.

Lemma latest_is_newest l p : latest mtime l = Some p → newest l p.
Proof.
  intros Hl. assert (∀ q, q ∈ l → p ∈ l ∧ (mtime q ≤ mtime p)%Z) as Hall.
  { intros q Hq. destruct (latest_newest mtime l q Hq) as (p' & Hp' & Hin & Hle). by simplify_eq. }
  destruct l as [|x l]; [done|]. split; [apply (Hall x); by left|]. intros q Hq. by apply Hall.
Qed.

Lemma resolved_lists v l : resolved_ids v = Ok l → lists v l.
Proof.
  unfold resolved_ids, lists. destruct (py_get v "resolved_ids" (PList [])) as [x|]; simpl; [|done].
  destruct (py_iter x) as [xs|] eqn:Ex; simpl; [|done]. destruct (List.filter _ xs); [|done]. intros [= <-]. by exists x.
Qed.

Lemma read_trace p f h h' : (read_json o p f h).1 = (read_json o p f h').1.
Proof.
  unfold read_json, read_text. rewrite !bind_run, !guarded_willing, !bind_get by done.
  destruct (f !! p) as [[t|]|]; cbn [mret M_ret throw]; [|done|done]. by destruct (json_loads _).
Qed.

Lemma grade_run subset split workers f d h asked : settled f d → d ≠ [] →
  ∃ verdicts f', grade_with_harness o python harness mtime subset split asked preds run_id run_dir workers f h = (Ok verdicts, (f', h)) ∧
    harness_says subset split workers asked d h verdicts ∧ settled f' d.
Proof.
  intros Hs Hd. unfold grade_with_harness. rewrite bind_run.
  match goal with |- context [harness ?a run_dir f h] => set (argv := a) end.
  destruct (Hharness argv f h) as (x & f' & Hrun & Hf' & Hrep). rewrite Hrun.
  pose proof (settled_frame f f' d Hf' Hs) as Hs'.
  assert (∀ verdicts, vouched asked x f' verdicts → harness_says subset split workers asked d h verdicts) as Hsay.
  { intros verdicts Hv. exists f, x, f'. split; [|done]. pose proof (at_preds f d Hs) as Hp.
    destruct (f !! preds) as [node|]; [by destruct Hp as [-> _]|done]. }
  assert (x.1.1 ≠ 0%Z ∨ reports run_dir run_id f' = [] ∨ (∃ p e, newest (reports run_dir run_id f') p ∧ (read_json o p f' []).1 = Raise e) →
    harness_says subset split workers asked d h (unknown asked)) as Hnone by (intros Hn; apply Hsay; by left).
  destruct x as [[rc out] err]. cbn [fst] in Hnone. destruct (negb (rc =? 0)%Z) eqn:Erc.
  { eexists _, f'. split; [reflexivity|]. split; [|done]. apply Hnone. left. intros ->. done. }
  apply negb_false_iff, Z.eqb_eq in Erc.
  rewrite bind_get. destruct (latest _ _) as [p|] eqn:El.
  2: { eexists _, f'. split; [reflexivity|]. split; [|done]. apply Hnone. right. left. by apply latest_none. }
  apply latest_is_newest in El as Hnew.
  rewrite bind_run. unfold Coordinator.attempt, try_. rewrite bind_run.
  pose proof (Hrep p) as Hp'. specialize (silent_read p f' h) as Hsil. pose proof (read_trace p f' h []) as Htr.
  destruct (read_json o p f' h) as [[v|e] [f2 h2]]; simpl in Hsil, Htr; injection Hsil as -> ->; cbn [mret M_ret].
  - destruct (Hp' v eq_refl eq_refl) as [l Hl]. rewrite bind_run, Hl. cbn [lift]. eexists _, f'. split; [reflexivity|]. split; [|done].
    apply Hsay. right. split; [done|]. exists p, v, l. split; [done|]. split; [done|]. split; [by apply resolved_lists|done].
  - eexists _, f'. split; [reflexivity|]. split; [|done]. apply Hnone. right. right. by exists p, e.
Qed.

(** ** The summary *)

(** A record with the verdict in it. *)
Definition judged (verdicts : list (string * pyval)) iid (v : pyval) : Prop :=
  ∃ dr, v = PDict dr ∧ json_ok v ∧ ∀ x, dict_get iid verdicts = Some x → dict_get "resolved" dr = Some x.
Definition in_summary (verdicts : list (string * pyval)) f iid (v : pyval) : Prop :=
  f !! rec iid = Some (File (json_pretty v)) ∧ judged verdicts iid v.

Lemma read_rec f h iid d : f !! rec iid = Some (File (json_pretty (PDict d))) → json_ok (PDict d) →
  read_json o (rec iid) f h = (Ok (PDict d), (f, h)).
Proof. by apply (CoordinatorSpec.CoordinatorSpec.read_json_run o Hw Hplain). Qed.

Lemma backfill_run verdicts (l : list string) f d h : plain_verdicts verdicts → NoDup l → Forall (λ iid, iid ∈ ids) l →
  settled f d → Forall (covered f) l →
  ∃ vs f', backfill o records_dir verdicts l f h = (Ok vs, (f', h)) ∧ settled f' d ∧
    (∀ q, (∀ iid, iid ∈ l → q ≠ rec iid) → f' !! q = f !! q) ∧ Forall2 (in_summary verdicts f') l vs.
Proof.
  intros Hh. revert f. induction l as [|iid l IH]; intros f Hnd Hl Hs Hc; cbn [backfill].
  { exists [], f. split; [done|]. split; [done|]. split; [done|constructor]. }
  apply NoDup_cons in Hnd as [Hni Hnd]. apply Forall_cons in Hl as [Hi Hl]. apply Forall_cons in Hc as [(dr & Hdr & Hok) Hc].
  rewrite bind_get, record_path_rec by done. unfold exists_. rewrite bool_decide_eq_true_2 by (rewrite Hdr; by eauto). cbn [negb].
  rewrite bind_run, (read_rec f h iid dr Hdr Hok), bind_run. unfold with_verdict, dict_has.
  assert (∃ dv f1, (match dict_get iid verdicts with Some v => set_item (PDict dr) "resolved" v | None => Ok (PDict dr) end) = Ok (PDict dv) ∧
    (if match dict_get iid verdicts with Some _ => true | None => false end
     then write_text o (rec iid) (json_pretty (PDict dv)) else mret tt) f h = (Ok tt, (f1, h)) ∧
    f1 = <[rec iid := File (json_pretty (PDict dv))]> f ∧ judged verdicts iid (PDict dv)) as (dv & f1 & Hset & Hwr & -> & Hj).
  { unfold judged. destruct (dict_get iid verdicts) as [x|] eqn:Ev; cbn [set_item].
    - exists (dict_set "resolved" x dr), (<[rec iid := File (json_pretty (PDict (dict_set "resolved" x dr)))]> f). split; [done|].
      split; [apply write_rec_run; [apply Hs|by rewrite Hdr]|]. split; [done|]. eexists. split; [done|].
      split; [apply json_ok_set; [done|by eapply Hh]|]. intros y [= <-]. by rewrite dict_get_set, decide_True.
    - exists dr, f. split; [done|]. split; [done|]. split; [by rewrite insert_id|]. exists dr. by split_and!. }
  destruct Hj as (dj & [= <-] & Hvok & Hjx). assert (judged verdicts iid (PDict dv)) as Hj by by exists dv.
  rewrite Hset. cbn [lift]. fold (match dict_get iid verdicts with Some _ => true | None => false end).
  rewrite bind_run, Hwr, bind_run.
  destruct (IH (<[rec iid := File (json_pretty (PDict dv))]> f) Hnd Hl (settled_rec f d iid dv Hs Hvok)) as (vs & f' & -> & Hs' & Hf' & Hall).
  { eapply Forall_impl; [exact Hc|]. intros iid' Hc'. by apply covered_rec. }
  exists (PDict dv :: vs), f'. split; [done|]. split; [done|]. split.
  - intros q Hq. rewrite Hf' by (intros iid' Hi'; apply Hq, elem_of_cons; by right). apply lookup_insert_ne, not_eq_sym, Hq, elem_of_cons. by left.
  - constructor; [|done]. split; [|done]. rewrite Hf'; [by rewrite lookup_insert_eq|]. intros iid' Hi' He%rec_inj. by subst.
Qed.

Lemma settled_out f d n t : settled f d → n ∈ ["summary.json"; "results.json"] → settled (<[run_dir ++ [n] := File t]> f) d.
Proof.
  intros [Hopen Hpreds Hcov Hdir] Hn. split.
  - intros q Hq. rewrite lookup_insert_ne; [by apply Hopen|]. intros <-. apply prefix_app_last in Hq as [Hq|Hq].
    + by apply prefix_snoc_not in Hq.
    + apply app_inj_tail in Hq as [_ ->]. set_solver.
  - rewrite lookup_insert_ne; [done|]. intros He%app_inj_tail. destruct He as [_ ->]. set_solver.
  - intros iid Hi. destruct (Hcov iid Hi) as (dr & Hr & Hok). exists dr. by rewrite lookup_insert_ne by apply rec_not.
  - intros q Hq. destruct (decide (q = run_dir ++ [n])) as [->|Hne]; [by rewrite lookup_insert_eq|]. rewrite lookup_insert_ne by done.
    by apply Hdir.
Qed.

Lemma count_dicts (good : pyval → bool) (k : string) (l : list pyval) : Forall (λ v, ∃ d, v = PDict d) l → ∃ n, count_where good k l = Ok n.
Proof.
  intros Hl. unfold count_where. assert (∃ vs : list pyval, fold_right (λ x acc, v ← py_get x k PNone; vs ← acc; Ok (v :: vs)) (Ok []) l = Ok vs) as [vs ->]; [|by eexists].
  induction Hl as [|v l [d ->] _ [vs IH]]; [by eexists|]. simpl. rewrite IH. by eexists.
Qed.

Lemma results_run (l : list pyval) : Forall (λ v, ∃ d, v = PDict d) l → ∃ results, results_of model_name run_id l = Ok results.
Proof.
  intros Hl. unfold results_of.
  destruct (count_dicts (λ v, bool_decide (v = PStr "fixed")) "outcome" l Hl) as [n1 E1]. rewrite E1.
  destruct (count_dicts (λ v, bool_decide (v = PBool true)) "resolved" l Hl) as [n2 E2]. cbn [mbind res_bind]. rewrite E2.
  destruct (count_dicts (λ v, negb (bool_decide (v = PNone))) "resolved" l Hl) as [n3 E3]. cbn [mbind res_bind]. rewrite E3. by eexists.
Qed.

(** ** The batch *)

(** A disk on which the batch can start, or be taken up again. *)
Record resumable f d : Prop := {
  has_room q : q `prefix_of` records_dir → room f q;
  had_preds : match f !! preds with
              | None => d = []
              | Some node => node = File (json_pretty (PDict d)) ∧ json_ok (PDict d)
              end;
  had_covered iid : is_Some (dict_get iid d) → covered f iid;
  had_no_dir q : q = run_dir ++ ["summary.json"] ∨ q = run_dir ++ ["results.json"] ∨ (∃ iid, iid ∈ ids ∧ q = rec iid) → f !! q ≠ Some Dir
}.

Lemma out_not_above n q : q `prefix_of` records_dir → n ≠ "records" → q ≠ run_dir ++ [n].
Proof.
  intros Hq Hn ->. apply prefix_app_last in Hq as [Hq|Hq]; [by apply prefix_snoc_not in Hq|]. by apply (snoc_ne_snoc run_dir n "records") in Hq.
Qed.

Lemma settle f d h : resumable f d → ∃ f', mkdir_parents o records_dir f h = (Ok tt, (f', h)) ∧ settled f' d.
Proof.
  intros [Hroom Hpreds Hcov Hdir]. destruct (mkdir_run o records_dir f h Hw Hroom) as (f' & Hmk & Hopen & Hf').
  exists f'. split; [done|]. split.
  - exact Hopen.
  - rewrite Hf'; [exact Hpreds|]. intros Hq. by apply (out_not_above "preds.json") in Hq.
  - intros iid Hi. destruct (Hcov iid Hi) as (dr & Hr & Hok). exists dr. rewrite Hf'; [done|]. intros Hq. by apply (rec_not_above _ iid) in Hq.
  - intros q Hq. rewrite Hf'; [by apply Hdir|]. intros Hp.
    destruct Hq as [-> |[-> |(iid & _ & ->)]]; [by apply (out_not_above "summary.json") in Hp|by apply (out_not_above "results.json") in Hp|].
    by apply (rec_not_above _ iid) in Hp.
Qed.

Lemma existing_run f d h redo : settled f d →
  ∃ known, existing_ids o preds redo f h = (Ok known, (f, h)) ∧ ∀ iid, iid ∈ known → is_Some (dict_get iid d).
Proof.
  intros Hs. unfold existing_ids. rewrite bind_get. destruct (exists_ preds f && negb redo) eqn:E.
  - apply andb_true_iff in E as [He _]. unfold exists_ in He. apply bool_decide_eq_true in He.
    exists (map fst d). rewrite bind_run, (read_settled f d) by (try done; intros En; rewrite En in He; by destruct He).
    split; [done|]. intros iid. by rewrite dict_get_key.
  - exists []. split; [done|]. by intros iid ?%elem_of_nil.
Qed.


End batch.

(** ** A batch taken up again *)

Definition report_file : path := ["runs"; "b1"; "m.b1.json"].
Definition sample_harness (argv : list string) (cwd : path) : M fs Coordinator.exit :=
  _ ← modify <[report_file := File (@json_pretty no_floats_repr (PDict [("resolved_ids", PList [PStr "i1"])]))]>; mret (0%Z, "", "").
Definition sample_mtime (p : path) : Z := if decide (p = report_file) then 1%Z else 0%Z.
Definition patches (i : instance) : M fs (res fix_output * Q) :=
  mret (Ok (mkFix "fixed" PNone 3 (Some [("model_patch", PStr "diff")])), (5 # 2)%Q).
Definition sample_record (iid : string) : list (string * pyval) :=
  instance_record no_git false (λ _, 0%Z) "mini_swe_agent" (PStr "m") 0 iid (Ok (mkFix "fixed" PNone 3 (Some [("model_patch", PStr "diff")])), (5 # 2)%Q).
Definition sample_preds : list (string * pyval) := [("i1", prediction (PStr "m") "i1" (PStr "diff"))].
(** The first instance was finished before. *)
Definition half_done : fs :=
  list_to_map [([], Dir); (["runs"], Dir); (["runs"; "b1"], Dir); (["runs"; "b1"; "records"], Dir);
               (["runs"; "b1"; "preds.json"], File (@json_pretty no_floats_repr (PDict sample_preds)));
               (["runs"; "b1"; "records"; "i1.json"], File (@json_pretty no_floats_repr (PDict (sample_record "i1"))))].

Lemma sample_ours_report : ¬ ours ["runs"; "b1"] report_file.
Proof.
  intros [Hq|[Hq|(n & Hn & Hq)]].
  - destruct Hq as [k Hk]. by vm_compute in Hk.
  - by vm_compute in Hq.
  - injection Hq as <-. set_solver.
Qed.

Lemma sample_harness_minds : @harness_minds no_floats_parse obliging sample_harness sample_mtime ["runs"; "b1"] "b1".
Proof.
  intros argv f h. eexists _, _. split; [reflexivity|]. split.
  - intros q Hq. rewrite lookup_insert_ne; [done|]. intros <-. by apply sample_ours_report.
  - intros p v Hp Hv. set (f' := <[report_file := _]> f) in *.
    assert (report_file ∈ reports ["runs"; "b1"] "b1" f') as Hin.
    { unfold reports. apply list_elem_of_fmap. exists "m.b1.json". split; [done|]. apply list_elem_of_In, filter_In.
      split; [|by vm_compute]. apply list_elem_of_In, elem_of_names. change (["runs"; "b1"] ++ ["m.b1.json"]) with report_file.
      unfold f'. rewrite lookup_insert_eq. by eauto. }
    destruct (latest_newest sample_mtime _ _ Hin) as (p' & Hp' & _ & Hle). rewrite Hp in Hp'. injection Hp' as <-.
    unfold sample_mtime in Hle. rewrite decide_True in Hle by done. destruct (decide (p = report_file)) as [->|]; [|lia].
    assert (f' !! report_file = Some (File (@json_pretty no_floats_repr (PDict [("resolved_ids", PList [PStr "i1"])])))) as Hf by apply lookup_insert_eq.
    rewrite (@CoordinatorSpec.CoordinatorSpec.read_json_run no_floats_repr no_floats_parse obliging obliging_willing (λ _ : Q, eq_refl) _ _ _ h Hf) in Hv;
      [|apply plain_record_ok; by vm_compute].
    injection Hv as <-. by eexists.
Qed.

Lemma sample_minds : @agent_minds no_floats_repr no_floats_parse no_git false (λ _, 0%Z) patches "mini_swe_agent" (PStr "m") 0 ["runs"; "b1"].
Proof.
  intros i f h. eexists _, f. split; [reflexivity|]. split; [|done]. intros iid. split; [|done].
  apply plain_record_ok. unfold plain_record. cbn. apply andb_true_iff. split; [apply bool_decide_eq_true, (bool_decide_unpack _); by vm_compute|]. by vm_compute.
Qed.

Lemma half_done_resumable : @resumable no_floats_repr no_floats_parse ["runs"; "b1"] ["i1"; "i2"] half_done sample_preds.
Proof.
  split.
  - intros q [k Hk]. do 4 (destruct q as [|? q]; [right; by simplify_eq/=; vm_compute|simplify_eq/=]).
  - change (half_done !! (["runs"; "b1"] ++ ["preds.json"])) with (Some (File (@json_pretty no_floats_repr (PDict sample_preds)))).
    split; [done|]. apply plain_record_ok. by vm_compute.
  - intros iid [v Hv]. simpl in Hv. destruct (decide (iid = "i1")) as [->|]; [|done]. exists (sample_record "i1").
    split; [by vm_compute|]. apply plain_record_ok. by vm_compute.
  - intros q Hq. assert (half_done !! q = Some Dir → q ∈ [[]; ["runs"]; ["runs"; "b1"]; ["runs"; "b1"; "records"]]) as Hdir.
    { intros Hd. apply elem_of_list_to_map_2 in Hd. set_solver. }
    intros Hd%Hdir. destruct Hq as [-> |[-> |(iid & _ & ->)]]; set_solver.
Qed.

Lemma sample_ids : Forall (λ iid, component (iid +:+ ".json")) ["i1"; "i2"].
Proof. repeat constructor. Qed.


(** A batch that died between the prediction of an instance and its record is taken
    up without the instance: it is neither run again nor in the summary. *)
Definition torn : fs :=
  list_to_map [([], Dir); (["runs"], Dir); (["runs"; "b1"], Dir); (["runs"; "b1"; "records"], Dir);
               (["runs"; "b1"; "preds.json"], File (@json_pretty no_floats_repr (PDict sample_preds)))].
Example torn_instance_is_lost :
  match @run_batch no_floats_repr no_floats_parse obliging "python" sample_harness sample_mtime no_git false (λ _, 0%Z) patches
          "mini_swe_agent" (PStr "m") 0 ["runs"] id "verified" "test" [mkInstance "i1" []] (Some "b1") 0 false true 4 torn [] with
  | (Ok (_, summary), _) => summary = []
  | _ => False
  end.
Proof. by vm_compute. Qed.

Example slice_ex :
  apply_slice "-2:" ["a"; "b"; "c"] = Ok ["b"; "c"] ∧ apply_slice "::-1" ["a"; "b"; "c"] = Ok ["c"; "b"; "a"] ∧
  apply_slice "1" ["a"; "b"] = Ok ["a"] ∧ apply_slice "5:1:2" ["a"] = Ok [].
Proof. by vm_compute. Qed.

End SweBenchSpec.
