(* ===== verification/Nodes.v ===== *)
(** * The other nodes of the graph

    Models of [bf_worker/graph/nodes/*.py] apart from the ReAct loop: each node
    takes the state and gives the keys it updates. *)

From S2P Require Import Prelude PyStr PyJson PyJsonLoads Effects Guards Trace World ReactLoop.
Local Open Scope string_scope.
Local Open Scope list_scope.

Module Nodes.
Import World ReactLoop PatchGuard.

Definition RAW_TRACE_TAIL : nat := 8000.
Definition INSTANCE_FILE : string := ".swebench/instance.json".
Definition DEFAULT_CI_TIMEOUT_S : Z := 300.

Section nodes.
Context `{FloatRepr, FloatParse} (w : world) (cfg : config).

(** ** precheck_already_fixed.py *)

Definition merged_update (mr : obj) : obj :=
  [("already_fixed", PBool true); ("review_result", PDict mr);
   ("review_status", PStr "already_merged"); ("review_url", dget "url" mr);
   ("review_id", dget "id" mr); ("review_iid", dget "iid" mr)].

Definition precheck_already_fixed (st : state) : M rs state :=
  bug ← lift (bug_id st);
  match w_merged_mr w with
  | None => mret ∅
  | Some find =>
      mr ← try_ (provider_call w "find_merged_mr_by_bug_prefix" [bug] (λ _, find bug)) (λ _, mret None);
      mret (match mr with Some mr => dict (merged_update mr) | None => ∅ end)
  end.

(** ** fetch_trace.py *)

(** [state.get(k, "")] *)
Definition field_or_empty (k : string) (st : state) : pyval := default (PStr "") (st !! k).

Definition fetch_trace (st : state) : M rs state :=
  let project := field_or_empty "project_id" st in
  let job := field_or_empty "job_id" st in
  r ← retry_call w "fetch_trace" [py_str project; py_str job] (w_fetch_trace w project job);
  mret (dict [("trace", PStr r.1); ("fetch_trace_retries", PInt r.2)]).

(** ** parse_trace.py *)

Definition parse_trace_text (trace : string) : obj :=
  match Trace.error_message (Trace.parse_trace trace), Trace.suspect_files (Trace.parse_trace trace) with
  | Some msg, Some (f :: _) =>
      [("error_info", PStr msg); ("suspect_file_path", PStr (Trace.file_path f));
       ("parse_trace_fallback", PBool false)]
  | _, _ =>
      [("error_info", PStr (tail_of RAW_TRACE_TAIL trace)); ("suspect_file_path", PStr "");
       ("parse_trace_fallback", PBool true)]
  end.

Definition empty_trace : exn := value_error "trace is empty — nothing to analyse".

Definition parse_trace (st : state) : M rs state := lift (
  match st !! "trace" with
  | None => Raise (key_error "'trace'")
  | Some (PStr t) => if str_nonempty (str_strip t) then Ok (dict (parse_trace_text t)) else Raise empty_trace
  | Some v => if truthy v then Raise (attribute_error "strip") else Raise empty_trace
  end).

(** ** fetch_source_file.py *)

Definition fetch_source_file (st : state) : M rs state :=
  match st !! "suspect_file_path" with
  | None => throw (key_error "'suspect_file_path'")
  | Some path =>
      o ← retry_attempts w "fetch_file" [py_str path] (w_fetch_file w path);
      mret (dict (match o with
        | Returned content k =>
            [("source_file_content", PStr content); ("source_fetch_failed", PBool false);
             ("fetch_source_file_retries", PInt (Z.of_nat k))]
        | Raised e =>
            [("source_file_content", PStr ""); ("source_fetch_failed", PBool true);
             ("fetch_source_file_retries",
                PInt (if (classify_transient e).1 then Z.of_nat (List.length DEFAULT_RETRY_DELAYS) else 0))]
        end))
  end.

(** ** mini_react_loop.py *)

Definition MINI_TELEMETRY_KEYS : list string :=
  ["llm_call_count"; "total_prompt_tokens"; "total_completion_tokens"; "total_cached_input_tokens";
   "total_cost_usd"; "total_llm_wallclock_s"; "max_input_tokens"; "cost_source";
   "step_resume_count"; "step_resumed_from_step"; "step_replayed_command_count"].

(** [b.split("instance/", 1)[1] if "instance/" in b else b] *)
Fixpoint after_first (sep s : string) : option string :=
  if startswith sep s then Some (str_drop (String.length sep) s)
  else match s with String _ s' => after_first sep s' | EmptyString => None end.
Definition instance_id_from_branch (source_branch : string) : string :=
  default source_branch (after_first "instance/" source_branch).

Definition base_of (st : state) : pyval := py_or (sget "source_branch" st) (PStr "main").

(** [json.loads]; the message of a refusal is not modelled further. *)
Definition json_of (raw : string) : res pyval :=
  match json_loads raw with
  | Some v => Ok v
  | None => Raise (Exn "JSONDecodeError" "Expecting value")
  end.

(** What the run of mini-swe-agent leaves in the state. *)
Definition mini_update (instance_id : pyval) (out : mini_output) : res obj :=
  let fs := default [] (final_state out) in
  match py_or (dget "model_patch" fs) (PStr "") with
  | PStr p =>
      let patch := str_strip p in
      steps ← int_or_0 (iterations out);
      Ok ([("swebench_instance_id", instance_id);
           ("model_patch", if str_nonempty patch then PStr patch else PNone);
           ("react_step_count", PInt steps);
           ("llm_result", PDict [("can_fix", PBool (str_nonempty patch))])]
          ++ flat_map (λ k, match dict_get k fs with Some v => [(k, v)] | None => [] end)
               MINI_TELEMETRY_KEYS)
  | _ => Raise (attribute_error "strip")
  end.

Definition mini_react_loop (st : state) : M rs state :=
  bug ← lift (bug_id st);
  let branch := base_of st in
  raw ← try_ (t ← provider_call w "fetch_file" [INSTANCE_FILE; py_str branch]
                     (w_fetch_ref w INSTANCE_FILE branch); mret (Ok t)) (λ e, mret (Raise e));
  match raw ≫= json_of with
  | Raise e =>
      mret (dict [("model_patch", PNone);
                  ("error", PStr ("swebench instance descriptor unavailable on " +:+ py_str branch
                                  +:+ ": " +:+ exn_msg e))])
  | Ok instance =>
      id ← lift (py_get instance "instance_id" PNone);
      let id := py_or id (PStr (instance_id_from_branch (py_str branch))) in
      out ← observe (w_run_mini w instance bug);
      match out with
      | Raise e =>
          mret (dict [("swebench_instance_id", id); ("model_patch", PNone);
                      ("error", PStr ("mini run failed for " +:+ py_str id +:+ ": " +:+ exn_msg e))])
      | Ok out => u ← lift (mini_update id out); mret (dict u)
      end
  end.

(** ** create_fix_branch.py *)

Definition call_create_fix_branch (bug : string) (repo : list string) (base : pyval) :
    M rs (option obj) :=
  try_ (provider_call w "create_fix_branch" [bug; py_str base] (w_branch w bug repo (Some base)))
    (λ e, if bool_decide (exn_class e = "TypeError")
          then provider_call w "create_fix_branch" [bug] (w_branch w bug repo None)
          else throw e).

Definition checkout (branch : string) : M rs unit :=
  try_ (_ ← run_checked w ["git"; "checkout"; branch]; run_checked w ["git"; "checkout"; "--"; "."])
    (λ e, if mem (exn_class e) ["CalledProcessError"; "FileNotFoundError"] then mret tt else throw e).

(** The keys the R10 short-circuit adds. *)
Definition merged_keys (branch : pyval) (result : obj) : res obj :=
  match dget "existing_mr" result with
  | v => if truthy v then
           st ← py_get v "state" PNone;
           match v with
           | PDict mr => Ok (if py_eqb st (PStr "merged")
                             then merged_update mr ++ [("review_branch", branch)] else [])
           | _ => Ok []
           end
         else Ok []
  end.

Definition branch_update (result : obj) : res obj :=
  branch ← py_getitem (PDict result) "branch_name";
  extra ← merged_keys branch result;
  Ok ([("fix_branch_name", branch); ("branch_create_result", PDict result);
       ("branch_create_status", dget "status" result); ("base_branch", dget "base_branch" result);
       ("base_commit", dget "commit" result)] ++ extra).

Definition create_fix_branch (st : state) : M rs state :=
  bug ← lift (bug_id st);
  repo ← ensure_repo_ready w bug;
  let existing := sget "fix_branch_name" st in
  if truthy existing then _ ← checkout (py_str existing); mret ∅
  else
    result ← call_create_fix_branch bug repo (base_of st);
    match result with
    | None => throw (Exn "RuntimeError" "create_fix_branch returned None")
    | Some result => u ← lift (branch_update result); mret (dict u)
    end.

(** ** commit_change.py *)

Definition commit_change (st : state) : M rs state :=
  bug ← lift (bug_id st);
  repo ← ensure_repo_ready w bug;
  let message := "ci_agent: auto-fix bug " +:+ bug in
  r ← retry_call w "commit_and_push" [abs_posix repo; message] (w_commit w repo message);
  mret (dict [("commit_result", PDict r.1); ("commit_status", dget "status" r.1);
              ("commit_branch", py_or (dget "branch" r.1) (sget "fix_branch_name" st));
              ("commit_hash", dget "commit" r.1); ("commit_change_retries", PInt r.2)]).

(** ** wait_ci_result.py *)

Definition ci_timeout : Z :=
  match str_int (str_strip (ci_wait_env cfg)) with
  | Some v => if (0 <? v)%Z then v else DEFAULT_CI_TIMEOUT_S
  | None => DEFAULT_CI_TIMEOUT_S
  end.

Definition ver99 (st : state) : res bool :=
  v ← int_field "workflow_ver" st; Ok (v =? 99)%Z.

Definition wait_ci_result (st : state) : M rs state :=
  bug ← lift (bug_id st);
  r ← retry_call w "wait_ci_result" [bug; str_of_Z ci_timeout] (λ _, w_wait_ci w bug ci_timeout);
  v99 ← lift (ver99 st);
  mret (dict ([("ci_status", match r.1 with Some s => PStr s | None => PStr "timeout" end);
               ("wait_ci_result_retries", PInt r.2)]
              ++ if v99 : bool then [("resolved", PBool (bool_decide (r.1 = Some "success")))] else [])).

(** ** create_mr.py *)

Definition create_mr (st : state) : M rs state :=
  bug ← lift (bug_id st);
  repo ← ensure_repo_ready w bug;
  r ← retry_call w "create_review" [abs_posix repo] (w_review w repo st);
  mret (dict [("review_result", PDict r.1);
              ("review_status", py_or (dget "status" r.1) (dget "state" r.1));
              ("review_url", dget "url" r.1); ("review_id", dget "id" r.1);
              ("review_iid", dget "iid" r.1);
              ("review_branch", py_or (py_or (dget "branch" r.1) (sget "commit_branch" st))
                                  (sget "fix_branch_name" st));
              ("patch_file", dget "patch_file" r.1); ("report_file", dget "report_file" r.1);
              ("create_mr_retries", PInt r.2)]).

(** ** handle_failure.py *)

Definition handle_failure (st : state) : M rs state :=
  mret (dict [("error", py_or (sget "error" st) (PStr "workflow terminated in handle_failure"))]).

End nodes.
End Nodes.
