(* ===== verification/ApplyTest.v ===== *)
(** * Applying, testing and reviewing a fix

    Models of the nodes [bf_worker/graph/nodes/apply_change_and_test.py] and
    [bf_worker/graph/nodes/code_review.py]. *)

From S2P Require Import Prelude PyStr Effects Guards World ReactLoop Nodes.
Local Open Scope string_scope.
Local Open Scope list_scope.

Module ApplyTest.
Import World ReactLoop Nodes PatchGuard.

Definition MAX_PATCH_FILES : nat := 5.
Definition MAX_PATCH_LINES : nat := 50.

(** [try: m  finally: fin()], for a [fin] that cannot raise. *)
Definition finally_ {A} (m : M rs A) (fin : rs → rs) : M rs A := λ s h,
  match m s h with (r, (s', h')) => (r, (fin s', h')) end.

(** [path.exists()]: a file, or a directory with a file below it. *)
Definition path_exists (f : files) (path : string) : bool :=
  existsb (λ '(p, _), bool_decide (p = path) || startswith (path +:+ "/") p) (map_to_list f).

Section apply.
Context `{FloatRepr, FloatParse} (w : world) (cfg : config).

(** [str(repo_path / rel)] *)
Definition under (repo : list string) (rel : string) : string := abs_posix (repo ++ pure_parts rel).

(** ** The files the node itself writes *)

Definition ensure_venv_gitignored (repo : list string) (f : files) : files :=
  if path_exists f (under repo ".git") then
    let gitignore := under repo ".gitignore" in
    let existing := match f !! gitignore with Some t => universal_newlines t | None => EmptyString end in
    if str_contains ".venv" existing then f
    else <[gitignore := default EmptyString (f !! gitignore) +:+ nl +:+ ".venv/" +:+ nl]> f
  else f.

(** ** _finalize *)

(** The keys the callbacks added or changed, save the transient ones (the
    budget object, and the start time that is only logged). *)
Definition is_change (before : state) (kv : string * pyval) : bool :=
  negb (startswith "_" kv.1)
  && match before !! kv.1 with Some v => negb (py_eqb v kv.2) | None => true end.

Definition changed (before after : state) : state := filter (λ kv, is_change before kv = true) after.

Definition finalize (st result : state) : M rs state :=
  if truthy (sget "test_passed" result) then mret result
  else match hooks cfg with
  | Some r =>
      if has POST_APPLY_TEST r then
        let before := result ∪ st in
        after ← run_hooks POST_APPLY_TEST r (<["_budget" := PNone]> before);
        mret (changed before after ∪ result)
      else mret result
  | None => mret result
  end.

(** ** workflow_ver = 99: git-apply the model's patch *)

Definition apply_commands (patch_file : string) : list (list string) :=
  [["git"; "apply"; "--3way"; patch_file]; ["git"; "apply"; patch_file];
   ["patch"; "-p1"; "-i"; patch_file]].

(** [" ".join(cmd[:2])] *)
Definition short (cmd : list string) : string := str_join " " (firstn 2 cmd).

Definition applied (cmd : list string) : obj :=
  [("test_passed", PBool true); ("apply_error", PNone);
   ("test_output", PStr ("[ver99] model_patch applied via " +:+ short cmd
      +:+ "; local pytest skipped — GitLab CI is the test oracle."))].

Definition not_applied (attempts : list string) : obj :=
  let last := str_tail 800 (str_tail 1600 (str_join nl attempts)) in
  [("test_passed", PBool false);
   ("apply_error", PStr ("git apply of model_patch failed: " +:+ last));
   ("test_output", PStr ("[ver99] could not apply model_patch:" +:+ nl +:+ last));
   ("error", PStr "ver99: model_patch did not apply to the clone")].

(** The fallback ladder: the first command that exits with 0 wins, a missing
    program is skipped. *)
Fixpoint ladder (cmds : list (list string)) (attempts : list string) : M rs obj :=
  match cmds with
  | [] => mret (not_applied attempts)
  | cmd :: cmds' =>
      r ← try_ (p ← run_process w cmd; mret (Some p))
            (λ e, if bool_decide (exn_class e = "FileNotFoundError") then mret None else throw e);
      match r with
      | None => ladder cmds' (attempts ++ ["$ " +:+ short cmd +:+ " → executable not found"])
      | Some p =>
          if bool_decide (returncode p = 0%Z) then mret (applied cmd)
          else
            let last := str_strip (if str_nonempty (stderr p) then stderr p else stdout p) in
            ladder cmds' (attempts ++ ["$ " +:+ short cmd +:+ " (rc=" +:+ str_of_Z (returncode p)
                                       +:+ ")" +:+ nl +:+ last])
      end
  end.

Definition no_diff : obj :=
  [("test_passed", PBool false); ("apply_error", PStr "empty model_patch");
   ("test_output", PStr "[ver99] no diff to apply"); ("error", PStr "ver99: empty model_patch")].

Definition apply_model_patch_ver99 (st : state) : M rs obj :=
  match py_or (sget "model_patch" st) (PStr "") with
  | PStr patch =>
      if str_nonempty (str_strip patch) then
        let patch := if endswith nl patch then patch else patch +:+ nl in
        file ← observe (w_tempfile w);
        finally_
          (_ ← modify (λ s, with_files (<[file := patch]> (files_of s)) s);
           ladder (apply_commands file) [])
          (λ s, with_files (delete file (files_of s)) s)
      else mret no_diff
  | _ => throw (attribute_error "strip")
  end.

(** ** Grouping the fixes by file *)

(** [fixes_by_file.setdefault(target, []).append(f)] *)
Fixpoint add_fix (target f : pyval) (groups : list (pyval * list pyval)) : list (pyval * list pyval) :=
  match groups with
  | [] => [(target, [f])]
  | (t, l) :: groups' =>
      if py_eqb t target then (t, l ++ [f]) :: groups' else (t, l) :: add_fix target f groups'
  end.

Definition missing_path (suspect : pyval) : string :=
  "fix entry is missing required `file_path`. "
  +:+ (if truthy suspect then "Suspect file `" +:+ py_str suspect +:+ "` could not be read, "
       else "No suspect file was pre-identified, ")
  +:+ "so every fix MUST set `file_path` explicitly to a path within the repo.".

(** The groups, or the error of the first fix without a usable target. *)
Fixpoint group_fixes (suspect : pyval) (fetch_failed : bool) (groups : list (pyval * list pyval))
    (fixes : list pyval) : res (string + list (pyval * list pyval)) :=
  match fixes with
  | [] => Ok (inr groups)
  | f :: fixes' =>
      explicit ← py_get f "file_path" PNone;
      let target := if truthy explicit then Some explicit
                    else if truthy suspect && negb fetch_failed then Some suspect else None in
      match target with
      | None => Ok (inl (missing_path suspect))
      | Some t =>
          if hashable t then group_fixes suspect fetch_failed (add_fix t f groups) fixes'
          else Raise (type_error ("unhashable type: '" +:+ type_name t +:+ "'"))
      end
  end.

(** ** Applying *)

(** One [apply_change_infos]: the file is rewritten only when every change of
    it resolves. *)
Definition apply_file (path : string) (fixes : list pyval) : M rs unit :=
  s ← get;
  f ← lift (apply_change_infos (files_of s) path fixes);
  modify (with_files f).

Definition apply_files (repo : list string) (groups : list (pyval * list pyval)) : M rs unit :=
  for_ groups (λ '(rel, fixes), apply_file (under repo (py_str rel)) fixes).

Definition edit (repo : list string) (groups : list (pyval * list pyval)) : M rs unit :=
  _ ← lift (validate_patch_scope (w_resolve w) MAX_PATCH_FILES MAX_PATCH_LINES repo groups);
  apply_files repo groups.

Definition rejected (apply_error test_output : string) : obj :=
  [("apply_error", PStr apply_error); ("test_passed", PBool false); ("test_output", PStr test_output)].

(** [state.get("fix_retry_count", 0) + 1] *)
Definition bumped (st : state) : res pyval := add_one (default (PInt 0) (st !! "fix_retry_count")).

Definition counted (r : obj) (st : state) : res obj :=
  n ← bumped st; Ok (r ++ [("fix_retry_count", n)]).

(** What the node returns when the edit raised. *)
Definition edit_failed (st : state) (e : exn) : res obj :=
  if bool_decide (exn_class e = "PatchScopeError") then
    counted (rejected ("patch rejected by guardrail: " +:+ exn_msg e)
                      ("[patch_guard rejected]" +:+ nl +:+ exn_msg e)) st
  else if bool_decide (exn_class e = "PatchAnchorError") then
    counted (rejected ("patch anchor failed: " +:+ exn_msg e)
                      ("[apply anchor rejected]" +:+ nl +:+ exn_msg e)) st
  else Ok (rejected (exn_msg e) ("[apply_patch error]" +:+ nl +:+ exn_msg e)).

(** ** Testing *)

Definition venv_python (repo : list string) : string := under repo ".venv" +:+ "/bin/python".
Definition pytest_argv (repo : list string) : list string :=
  [venv_python repo; "-m"; "pytest"; "--tb=short"; "-q"].

Definition run_tests (repo : list string) (st : state) : M rs obj :=
  _ ← run_checked w ["python"; "-m"; "venv"; under repo ".venv"];
  _ ← modify (λ s, with_files (ensure_venv_gitignored repo (files_of s)) s);
  s ← get;
  let req := under repo "requirements.txt" in
  _ ← (if path_exists (files_of s) req
       then run_checked w [venv_python repo; "-m"; "pip"; "install"; "-r"; req; "-q"]
       else mret tt);
  p ← run_process w (pytest_argv repo);
  let passed := bool_decide (returncode p = 0%Z) in
  let result := [("test_passed", PBool passed); ("test_output", PStr (stdout p +:+ stderr p));
                 ("apply_error", PNone)] in
  if passed then mret result else lift (counted result st).

(** ** The node *)

(** Edit and test, on the fixes of [llm_result]. *)
Definition apply_and_test (repo : list string) (st : state) : M rs obj :=
  match st !! "llm_result" with
  | None => throw (key_error "'llm_result'")
  | Some r =>
      infos ← lift (py_getitem r "fixes");
      fixes ← lift (py_iter infos);
      let suspect := py_or (sget "suspect_file_path" st) (PStr "") in
      grouped ← lift (group_fixes suspect (truthy (sget "source_fetch_failed" st)) [] fixes);
      match grouped with
      | inl err => lift (counted (rejected err ("[apply rejected]" +:+ nl +:+ err)) st)
      | inr groups =>
          edited ← try_ (_ ← edit repo groups; mret None) (λ e, mret (Some e));
          match edited with
          | Some e => lift (edit_failed st e)
          | None => run_tests repo st
          end
      end
  end.

Definition apply_change_and_test (st : state) : M rs state :=
  bug ← lift (bug_id st);
  _ ← lift (int_field "fix_retry_count" st);
  repo ← ensure_repo_ready w bug;
  v99 ← lift (ver99 st);
  result ← (if v99 : bool then apply_model_patch_ver99 st else apply_and_test repo st);
  finalize st (dict result).

(** ** code_review.py *)

Definition high (f : finding) : bool :=
  bool_decide (severity f = "high") && bool_decide (confidence f = "high").

Definition compact (l : list finding) : pyval :=
  PList (map (λ f, PDict [("severity", PStr (severity f)); ("confidence", PStr (confidence f));
                          ("defect_class", PStr (defect_class f)); ("file", PStr (f_file f));
                          ("line", f_line f); ("title", PStr (title f))]) l).

Fixpoint note_lines (i : nat) (l : list finding) : list string :=
  match l with
  | [] => []
  | f :: l' =>
      let loc := if truthy (f_line f) then f_file f +:+ ":" +:+ py_str (f_line f) else f_file f in
      (str_of_nat i +:+ ". [" +:+ defect_class f +:+ "] " +:+ title f +:+ "  (" +:+ loc +:+ ")")
      :: ("   why: " +:+ rationale f) :: ("   fix: " +:+ suggestion f) :: note_lines (S i) l'
  end.

Definition format_note (l : list finding) : string :=
  str_join nl
    ("## Code review of your test-passing patch flagged HIGH-confidence, HIGH-severity defect(s) the tests do not catch — revise to address them (the tests still pass; this is about correctness the tests miss):"
     :: note_lines 1 l).

(** What the node records of a report. *)
Definition judge (cr : CodeReviewConfig) (st : state) (r : report) : res obj :=
  let out := [("code_review_finding_count", PInt (Z.of_nat (List.length (findings r))));
              ("code_review_findings", compact (findings r))] in
  if truthy (r_error r) then Ok (out ++ [("code_review_status", PStr "error")])
  else
    let escalating := List.filter high (findings r) in
    let would := negb (List.length escalating =? 0)%nat in
    let out := out ++ [("code_review_would_escalate", PBool would)] in
    if bool_decide (mode cr = "acting") && would then
      rounds ← int_field "code_review_rounds" st;
      Ok (if (rounds <? max_rounds cr)%Z then
            out ++ [("code_review_status", PStr "escalated"); ("code_review_rounds", PInt (rounds + 1));
                    ("code_review_note", PStr (format_note escalating))]
          else out ++ [("code_review_status", PStr "rounds_exhausted")])
    else
      Ok (out ++ [("code_review_status",
                     PStr (if would then "would_escalate"
                           else match findings r with [] => "clean" | _ => "advisory" end));
                  ("code_review_note", PNone)]).

Definition inspect (files : list (pyval * string)) (st : state) : M rs (option report) :=
  let desc := "post-fix review for " +:+ py_str (field_or_empty "bug_id" st) in
  try_ (r ← perform w (Inspect (map (λ f, py_str f.1) files)) (λ _, true) (λ _, w_inspect w files desc);
        mret (Some r))
    (λ _, mret None).

Definition status (s : string) : state := dict [("code_review_status", PStr s)].

(** What follows a check that passed: read, inspect, debit, judge. *)
Definition reviewing (cr : CodeReviewConfig) (st : state) : M rs state :=
  paths ← lift (touched_paths st);
  files ← read_all w paths;
  match files with
  | [] => mret (status "skipped_no_files")
  | _ =>
      reviewed ← inspect files st;
      match reviewed with
      | None => mret (status "error")
      | Some r =>
          _ ← budget_record 0 0 None;
          u ← lift (judge cr st r); mret (dict u)
      end
  end.

Definition code_review (st : state) : M rs state :=
  match review_cfg cfg with
  | None => mret ∅
  | Some cr =>
      if enabled cr then
        spent ← budget_check w;
        match spent with
        | Some _ => mret (status "skipped_budget")
        | None => reviewing cr st
        end
      else mret ∅
  end.

End apply.
End ApplyTest.
