(* ===== verification/Graph.v ===== *)
(** * The graph

    Models of [bf_worker/graph/routing.py], [bf_worker/graph/builder.py] and
    [bf_worker/graph/state.py]; the agent that runs it is in [Agent].  The engine runs one node at a time:
    it merges the node's update into the state, asks the node's edge for the
    next node and gives up after a configured number of nodes. *)

From S2P Require Import Prelude PyStr Effects World ReactLoop Nodes ApplyTest.
Local Open Scope string_scope.
Local Open Scope list_scope.

Module Graph.
Import World ReactLoop Nodes ApplyTest.

(** ** state.py: the keys the state has *)

Definition BugFixState : list string :=
  ["bug_id"; "project_id"; "project_web_url"; "job_id"; "source_branch"; "workflow_ver";
   "trace"; "error_info"; "suspect_file_path"; "source_file_content"; "parse_trace_fallback";
   "source_fetch_failed"; "fetch_trace_retries"; "fetch_source_file_retries";
   "llm_result"; "fix_retry_count"; "no_fix_retry_count";
   "react_step_count"; "react_messages"; "react_tool_calls"; "react_confidence";
   "react_reasoning"; "max_input_tokens"; "llm_call_count"; "total_prompt_tokens";
   "total_completion_tokens"; "total_cached_input_tokens"; "total_cost_usd"; "cost_source";
   "total_llm_wallclock_s"; "llm_call_wallclock_ms"; "llm_backend_name";
   "memory_hint"; "memory_matches_count"; "reflection_note"; "reflection_count";
   "reflection_mode"; "code_review_status"; "code_review_finding_count";
   "code_review_would_escalate"; "code_review_findings"; "code_review_note";
   "code_review_rounds"; "model_patch"; "swebench_instance_id"; "resolved";
   "step_resume_count"; "step_resumed_from_step"; "step_replayed_command_count";
   "fix_branch_name"; "branch_create_result"; "branch_create_status"; "base_branch";
   "base_commit"; "commit_result"; "commit_status"; "commit_branch"; "commit_hash";
   "review_result"; "review_status"; "review_url"; "review_id"; "review_iid"; "review_branch";
   "patch_file"; "report_file"; "apply_error"; "commit_change_retries"; "create_mr_retries";
   "test_passed"; "test_output"; "ci_status"; "wait_ci_result_retries"; "already_fixed"; "error"].

(** The engine drops the keys outside the schema. *)
Definition merge_state (st u : state) : state := filter (λ kv, mem kv.1 BugFixState = true) u ∪ st.

(** ** routing.py *)

Definition MAX_FIX_RETRIES : Z := 2.
Definition NO_FIX_MAX_RETRIES : Z := 1.

Definition is_none (v : pyval) : bool := match v with PNone => true | _ => false end.

(** [v < z] *)
Definition lt_int (v : pyval) (z : Z) : res bool :=
  match num_of v with
  | Some q => Ok (negb (Qle_bool (inject_Z z) q))
  | None => Raise (type_error ("'<' not supported between instances of '" +:+ type_name v +:+ "' and 'int'"))
  end.

Definition route_after_precheck (st : state) : res string :=
  Ok (if truthy (sget "already_fixed" st) then "already_fixed" else "fetch_trace").

Definition route_after_fetch_trace (st : state) : res string :=
  v ← ver99 st; Ok (if v : bool then "mini_react_loop" else "parse_trace").

Definition route_after_mini_react_loop (st : state) : res string :=
  Ok (if truthy (sget "model_patch" st) then "create_fix_branch" else "handle_failure").

Definition route_after_parse_trace (st : state) : res string :=
  Ok (if truthy (sget "suspect_file_path" st) then "fetch_source_file" else "react_loop").

Definition route_after_react_loop (cfg : config) (st : state) : res string :=
  if is_none (sget "llm_result" st) then
    if via_gateway cfg then
      n ← int_field "no_fix_retry_count" st;
      Ok (if (n <=? NO_FIX_MAX_RETRIES)%Z then "react_loop" else "handle_failure")
    else Ok "handle_failure"
  else Ok (if truthy (sget "fix_branch_name" st) then "apply_change_and_test" else "create_fix_branch").

Definition route_after_create_fix_branch (st : state) : res string :=
  Ok (if truthy (sget "already_fixed" st) then "already_fixed" else "apply_change_and_test").

Definition route_after_apply_and_test (st : state) : res string :=
  if truthy (sget "test_passed" st) then Ok "code_review"
  else
    v ← ver99 st;
    if v : bool then Ok "handle_failure"
    else
      again ← lt_int (default (PInt 0) (st !! "fix_retry_count")) MAX_FIX_RETRIES;
      Ok (if again : bool then "react_loop" else "handle_failure").

Definition route_after_code_review (st : state) : res string :=
  Ok (if py_eqb (sget "code_review_status" st) (PStr "escalated") then "react_loop" else "commit_change").

Definition route_after_ci (st : state) : res string :=
  Ok (if py_eqb (sget "ci_status" st) (PStr "success") then "create_mr" else "handle_failure").

(** ** builder.py *)

Inductive node :=
| PrecheckAlreadyFixed | FetchTrace | ParseTrace | FetchSourceFile | ReactLoop | MiniReactLoop
| CreateFixBranch | ApplyChangeAndTest | CodeReview | CommitChange | WaitCiResult | CreateMr
| HandleFailure.

#[export] Instance node_eq_dec : EqDecision node.
Proof. solve_decision. Defined.

(** [None] is [END]. *)
Inductive edge :=
| Edge (target : option node)
| ConditionalEdges (route : state → res string) (targets : list (string * option node)).

Definition edges (cfg : config) (n : node) : edge :=
  match n with
  | FetchSourceFile => Edge (Some ReactLoop)
  | CommitChange => Edge (Some WaitCiResult)
  | CreateMr => Edge None
  | HandleFailure => Edge None
  | PrecheckAlreadyFixed =>
      ConditionalEdges route_after_precheck
        [("fetch_trace", Some FetchTrace); ("already_fixed", None)]
  | FetchTrace =>
      ConditionalEdges route_after_fetch_trace
        [("parse_trace", Some ParseTrace); ("mini_react_loop", Some MiniReactLoop)]
  | MiniReactLoop =>
      ConditionalEdges route_after_mini_react_loop
        [("create_fix_branch", Some CreateFixBranch); ("handle_failure", Some HandleFailure)]
  | ParseTrace =>
      ConditionalEdges route_after_parse_trace
        [("fetch_source_file", Some FetchSourceFile); ("react_loop", Some ReactLoop)]
  | ReactLoop =>
      ConditionalEdges (route_after_react_loop cfg)
        [("create_fix_branch", Some CreateFixBranch);
         ("apply_change_and_test", Some ApplyChangeAndTest);
         ("react_loop", Some ReactLoop); ("handle_failure", Some HandleFailure)]
  | CreateFixBranch =>
      ConditionalEdges route_after_create_fix_branch
        [("apply_change_and_test", Some ApplyChangeAndTest); ("already_fixed", None)]
  | ApplyChangeAndTest =>
      ConditionalEdges route_after_apply_and_test
        [("code_review", Some CodeReview); ("react_loop", Some ReactLoop);
         ("handle_failure", Some HandleFailure)]
  | CodeReview =>
      ConditionalEdges route_after_code_review
        [("react_loop", Some ReactLoop); ("commit_change", Some CommitChange)]
  | WaitCiResult =>
      ConditionalEdges route_after_ci
        [("create_mr", Some CreateMr); ("handle_failure", Some HandleFailure)]
  end.

Definition entry_point : node := PrecheckAlreadyFixed.

(** Where the edge of a node leads. *)
Definition next (cfg : config) (n : node) (st : state) : res (option node) :=
  match edges cfg n with
  | Edge t => Ok t
  | ConditionalEdges route targets =>
      name ← route st;
      match dict_get name targets with
      | Some t => Ok t
      | None => Raise (key_error (repr_str name))
      end
  end.

Section run.
Context `{FloatRepr, FloatParse} (w : world) (cfg : config).

Definition action (n : node) : state → M rs state :=
  match n with
  | PrecheckAlreadyFixed => precheck_already_fixed w
  | FetchTrace => fetch_trace w
  | ParseTrace => parse_trace
  | FetchSourceFile => fetch_source_file w
  | ReactLoop => react_loop w cfg
  | MiniReactLoop => mini_react_loop w
  | CreateFixBranch => create_fix_branch w
  | ApplyChangeAndTest => apply_change_and_test w cfg
  | CodeReview => code_review w cfg
  | CommitChange => commit_change w
  | WaitCiResult => wait_ci_result w cfg
  | CreateMr => create_mr w
  | HandleFailure => handle_failure
  end.

Definition GraphRecursionError : exn :=
  Exn "GraphRecursionError" "Recursion limit reached without hitting a stop condition.".

(** One node: the state after it and the node that follows. *)
Definition visit (n : node) (st : state) : M rs (state * option node) :=
  u ← action n st;
  let st' := merge_state st u in
  t ← lift (next cfg n st');
  mret (st', t).

(** The engine, for at most [limit] nodes. *)
Fixpoint run_from (limit : nat) (n : node) (st : state) : M rs state :=
  match limit with
  | O => throw GraphRecursionError
  | S limit' =>
      r ← visit n st;
      match r.2 with
      | None => mret r.1
      | Some n' => run_from limit' n' r.1
      end
  end.

(** [graph.invoke(initial_state)]; [saved] is what a checkpoint of the same thread
    holds.  The agent hands an input over, so the engine takes the call for a new run
    of the thread: the input is laid over the saved values and the run starts at the
    entry point.  Only a call with no input would go on at the next node, as the
    comment of [build_graph] and the README say a restart does. *)
Definition invoke (saved initial : state) : M rs state :=
  run_from (recursion_limit cfg) entry_point (merge_state saved initial).

End run.
End Graph.
