(* ===== verification/Enhancements.v ===== *)
(** * The enhancements a run is configured with

    Model of [bf_worker/enhancements/build_enhancements.py] and of
    [LangGraphAgent._build_hooks]: from the configuration's entries to the hook
    registry of a run. *)

From S2P Require Import Prelude PyStr Effects World Memory Reflection.
Local Open Scope string_scope.
Local Open Scope list_scope.

Module Enhancements.
Import World Memory Reflection.

Definition DEFAULT_STORE : string := "evaluation/memory/store.json".

Section build.
Context `{FloatRepr, FloatParse} (w : world) (dk : disk).

(** [Path(v)] of a configured value. *)
Definition as_path (v : pyval) : res string :=
  match v with
  | PStr s => Ok s
  | v => Raise (type_error ("argument should be a str or an os.PathLike object, not '" +:+ type_name v +:+ "'"))
  end.

Definition build_one (spec : pyval) : res (list (string * callback)) :=
  kind ← py_get spec "kind" PNone;
  if bool_decide (kind = PStr "memory") then
    store_path ← py_get spec "store_path" (PStr DEFAULT_STORE);
    raw ← py_get spec "top_k" (PInt 2);
    top_k ← py_int raw;
    write_back ← py_get spec "write_back" (PBool true);
    path ← as_path store_path;
    Ok (build_memory_callbacks w dk path top_k (truthy write_back))
  else if bool_decide (kind = PStr "reflection") then Ok (build_reflection_callbacks w)
  else Raise (value_error ("unknown enhancement kind: " +:+ py_repr kind)).

Fixpoint build_enhancements (specs : list pyval) : res (list (string * callback)) :=
  match specs with
  | [] => Ok []
  | spec :: specs' =>
      a ← build_one spec;
      b ← build_enhancements specs';
      Ok (a ++ b)
  end.

(** [_build_hooks]: registered in order. *)
Definition build_hooks (enhancements : list (string * callback)) : HookRegistry :=
  fold_left (λ r '(hook_name, fn), register hook_name fn r) enhancements [].

End build.
End Enhancements.
