(* ===== verification/Agent.v ===== *)
(** * The LangGraph agent

    Model of [LangGraphAgent.fix] in [bf_worker/agents/langgraph_agent.py]: the
    initial state, the agent-boundary hooks, the run of the graph and the
    outcome that is reported.  Writing the journal is left out: it reads the
    output and swallows its own exceptions. *)

From S2P Require Import Prelude PyStr Effects World ReactLoop Nodes ApplyTest Graph.
Local Open Scope string_scope.
Local Open Scope list_scope.

Module Agent.
Import World ReactLoop Graph.

(** [agents/base.py] *)
Record BugInput := mkBugInput {
  in_bug_id : string;
  in_project_id : string;
  in_project_web_url : string;
  in_job_id : string;
  in_source_branch : string
}.

Inductive Outcome := Fixed | Errored | AlreadyFixed.

Record FixOutput := mkFixOutput {
  outcome : Outcome;
  out_bug_id : string;
  out_error : pyval;
  out_iterations : Z;
  out_state : option state
}.

(** [f"{q:.4f}"] of a non-negative amount. *)
Fixpoint zeros (n : nat) : string := match n with O => EmptyString | S n' => String "0" (zeros n') end.
Definition fixed4 (q : Q) : string :=
  let n := round_half_even (q * 10000) in
  let frac := str_of_Z (n mod 10000) in
  str_of_Z (n / 10000) +:+ "." +:+ zeros (4 - String.length frac) +:+ frac.

Definition reason_text (r : exhaustion) : string :=
  match r with
  | CallLimit c m => "call limit reached (" +:+ str_of_Z c +:+ "/" +:+ str_of_Z m +:+ ")"
  | TokenLimit t m => "token limit reached (" +:+ str_of_Z t +:+ "/" +:+ str_of_Z m +:+ ")"
  | CostLimit c m => "cost limit reached ($" +:+ fixed4 c +:+ "/$" +:+ fixed4 m +:+ ")"
  | WallclockLimit e m => "wallclock limit reached (" +:+ str_of_Z e +:+ "/" +:+ str_of_Z m +:+ "s)"
  end.

(** [budget.to_dict()] *)
Definition budget_dict (b : RunBudget) (t : Q) : obj :=
  [("max_calls", PInt (max_calls b)); ("max_tokens", PInt (max_tokens b));
   ("max_wallclock_s", PInt (max_wallclock_s b)); ("max_cost_usd", opt_q (max_cost_usd b));
   ("calls", PInt (calls b)); ("input_tokens", PInt (input_tokens b));
   ("output_tokens", PInt (output_tokens b)); ("total_tokens", PInt (total_tokens b));
   ("cost_usd", opt_q (round6 <$> cost_usd b));
   ("elapsed_s", PFloat (round_half_even (elapsed_s b t * 1000) # 1000)%Q);
   ("exhausted_reason", match exhausted_reason b with Some r => PStr (reason_text r) | None => PNone end)].

Section fix_.
Context `{FloatRepr, FloatParse} (w : world) (cfg : config) (workflow_ver : Z).

(** [BF_MAX_COST_USD] *)
Definition max_cost_usd_from_env (raw : string) : option Q :=
  match str_strip raw with
  | EmptyString => None
  | s => match float_parse s with
         | Some q => if Qle_bool q 0 then None else Some q
         | None => None
         end
  end.

Definition initial_state (i : BugInput) : state := dict
  [("bug_id", PStr (in_bug_id i)); ("project_id", PStr (in_project_id i));
   ("project_web_url", PStr (in_project_web_url i)); ("job_id", PStr (in_job_id i));
   ("source_branch", PStr (in_source_branch i)); ("workflow_ver", PInt workflow_ver);
   ("llm_retry_count", PInt 0); ("fix_retry_count", PInt 0)].

Definition registry : HookRegistry := default [] (hooks cfg).

Definition outcome_of (st : state) : Outcome :=
  if truthy (sget "error" st) then Errored
  else if truthy (sget "already_fixed" st) then AlreadyFixed
  else Fixed.

(** The budget's snapshot, added to the final state. *)
Definition snapshot (st : state) : M rs state :=
  s ← get;
  t ← now w;
  mret (match budget_of s with
        | Some b => <["budget" := PDict (budget_dict b t)]> st
        | None => st
        end).

Definition output (i : BugInput) (st : state) : M rs FixOutput :=
  n ← lift (int_field "fix_retry_count" st);
  mret (mkFixOutput (outcome_of st) (in_bug_id i) (sget "error" st) n (Some st)).

Definition fix_bug (max_cost_env : string) (saved : state) (i : BugInput) : M rs FixOutput :=
  t ← now w;
  let b := fresh_budget t in
  _ ← modify (with_budget (mkRunBudget (max_calls b) (max_tokens b) (max_wallclock_s b)
         (max_cost_usd_from_env max_cost_env) 0 0 0 None t None));
  st0 ← run_hooks AGENT_PRE_FIX registry (initial_state i);
  r ← try_ (st ← invoke w cfg saved st0; mret (Ok st)) (λ e, mret (Raise e));
  match r with
  | Raise e => mret (mkFixOutput Errored (in_bug_id i) (PStr (exn_msg e)) 0 None)
  | Ok st =>
      st ← snapshot st;
      st ← run_hooks AGENT_POST_FIX registry st;
      output i st
  end.

End fix_.
End Agent.
