(* ===== verification/GraphLaws.v ===== *)
(** * What the nodes of the graph do to the trace and to the budget

    The laws the graph's theorems rest on: which calls each node makes, that no
    node but the ReAct loop, the reviewer and the hooks moves the budget, and
    what is asked of the hooks that enhancements register. *)

From S2P Require Import Prelude PyStr Effects World ReactLoop Nodes ApplyTest Graph.
Local Open Scope string_scope.
Local Open Scope list_scope.

Module GraphLaws.
Import World ReactLoop Nodes ApplyTest Graph.

(** ** Relations between the beginning and the end of a computation *)

Class Chain {S} (R : S → trace → S → trace → Prop) := {
  chain_refl : ∀ s h, R s h s h;
  chain_trans : ∀ s h s1 h1 s2 h2, R s h s1 h1 → R s1 h1 s2 h2 → R s h s2 h2
}.

(** Every call made satisfies [Q]. *)
Definition frame (Q : cmd → bool) (s : rs) (h : trace) (s' : rs) (h' : trace) : Prop :=
  ∃ new, h' = h ++ new ∧ Forall (λ e, Q e.1 = true) new.

Definition is_llm (c : cmd) : bool := match c with LlmInvoke _ | PostMortem _ => true | _ => false end.
Definition is_loop (c : cmd) : bool := match c with LlmInvoke _ => true | _ => false end.
(** The requests that are retried, those of the loop; and all the answers. *)
Definition asked (h : trace) : Z := Z.of_nat (count_calls is_loop h).
Definition answered (h : trace) : Z :=
  Z.of_nat (List.length (List.filter (λ e : event, is_llm e.1 && e.2) h)).

(** Every model call is debited, save [slack] of them, and the cap on calls is
    respected: each debit stands for one answer, and for at most three requests
    of the loop. *)
Definition spend (slack : Z) (s : rs) (h : trace) (s' : rs) (h' : trace) : Prop :=
  ∀ b, budget_of s = Some b → ∃ b', budget_of s' = Some b' ∧ max_calls b' = max_calls b ∧
    (calls b ≤ calls b' ∧ calls b' + slack ≤ Z.max (calls b) (max_calls b) ∧
     asked h' - asked h ≤ 3 * (calls b' - calls b + slack) ∧
     answered h' - answered h ≤ calls b' - calls b + slack)%Z.

Definition calm (Q : cmd → bool) (s : rs) (h : trace) (s' : rs) (h' : trace) : Prop :=
  frame Q s h s' h' ∧ spend 0 s h s' h'.

#[export] Instance frame_chain Q : Chain (frame Q).
Proof.
  split; [intros s h; exists []; by rewrite app_nil_r|].
  intros s h s1 h1 s2 h2 (n1 & -> & H1) (n2 & -> & H2). exists (n1 ++ n2).
  split; [by rewrite app_assoc|]. by apply Forall_app.
Qed.

#[export] Instance spend_chain : Chain (spend 0).
Proof.
  split; [intros s h b Hb; exists b; split; [done|]; split; [done|]; lia|].
  intros s h s1 h1 s2 h2 H1 H2 b Hb.
  destruct (H1 b Hb) as (b1 & Hb1 & Hm1 & ?). destruct (H2 b1 Hb1) as (b2 & Hb2 & Hm2 & ?).
  exists b2. split; [done|]. split; [congruence|]. rewrite Hm1 in *. lia.
Qed.

#[export] Instance calm_chain Q : Chain (calm Q).
Proof.
  split; [intros s h; split; apply chain_refl|].
  intros s h s1 h1 s2 h2 [] []. split; eapply chain_trans; eauto.
Qed.

Lemma asked_app h h' : asked (h ++ h') = (asked h + asked h')%Z.
Proof. unfold asked. rewrite count_calls_app. lia. Qed.

Lemma answered_app h h' : answered (h ++ h') = (answered h + answered h')%Z.
Proof. unfold answered. rewrite List.filter_app, length_app. lia. Qed.

(** Calls that are no model calls leave the counts alone. *)
Lemma quiet_counts new :
  Forall (λ e : event, is_llm e.1 = false) new → asked new = 0%Z ∧ answered new = 0%Z.
Proof.
  induction 1 as [|e l He Hl [IH1 IH2]]; [done|]. unfold asked, answered, count_calls in *.
  simpl in *. rewrite He. by destruct e as [[] ?].
Qed.

(** A budget that keeps its caps and its count of calls. *)
Definition same_calls (s s' : rs) : Prop :=
  ∀ b, budget_of s = Some b → ∃ b', budget_of s' = Some b' ∧ max_calls b' = max_calls b ∧ calls b' = calls b.

Definition no_llm (Q : cmd → bool) : Prop := ∀ c, Q c = true → is_llm c = false.

Lemma calm_quiet Q s h s' new :
  no_llm Q → same_calls s s' → Forall (λ e : event, Q e.1 = true) new → calm Q s h s' (h ++ new).
Proof.
  intros HQ Hs Hn. split; [by exists new|]. intros b Hb.
  destruct (Hs b Hb) as (b' & Hb' & Hm & Hc). exists b'.
  destruct (quiet_counts new) as [E1 E2].
  { eapply Forall_impl; [exact Hn|]. intros e. apply HQ. }
  rewrite asked_app, answered_app, E1, E2. split; [done|]. split; [done|]. lia.
Qed.

Lemma calm_weaken (Q Q' : cmd → bool) s h s' h' :
  (∀ c, Q c = true → Q' c = true) → calm Q s h s' h' → calm Q' s h s' h'.
Proof.
  intros HQ [(new & -> & Hn) Hs]. split; [|done]. exists new. split; [done|].
  eapply Forall_impl; [exact Hn|]. intros e. apply HQ.
Qed.

Lemma preserves_weaken {A} (R R' : rs → trace → rs → trace → Prop) (m : M rs A) :
  (∀ s h s' h', R s h s' h' → R' s h s' h') → preserves R m → preserves R' m.
Proof. intros HR Hm s h. apply HR, Hm. Qed.

(** ** The pieces nodes are made of *)

Section pieces.
Context `{FloatRepr, FloatParse} (w : world) (Q : cmd → bool) (HQ : no_llm Q).

Lemma same_files f s : same_calls s (with_files f s).
Proof. intros b Hb. exists b. by destruct s. Qed.

Lemma perform_calm {A} c ok (f : files → trace → res A) :
  Q c = true → preserves (calm Q) (perform w c ok f).
Proof. intros Hc s h. apply calm_quiet; [done|apply same_files|]. by constructor. Qed.

Lemma run_process_calm argv : Q (Subprocess argv) = true → preserves (calm Q) (run_process w argv).
Proof. apply perform_calm. Qed.

Lemma run_checked_calm argv : Q (Subprocess argv) = true → preserves (calm Q) (run_checked w argv).
Proof.
  intros Hc. apply preserves_bind; [apply chain_trans|by apply run_process_calm|].
  intros p. case_bool_decide; [apply preserves_ret|apply preserves_throw]; apply chain_refl.
Qed.

Lemma provider_call_calm {A} method args (f : files → trace → res A) :
  Q (ProviderCall method args) = true → preserves (calm Q) (provider_call w method args f).
Proof. apply perform_calm. Qed.

Lemma retry_attempts_calm {A} method args (f : files → trace → A + io_exn) :
  Q (ProviderCall method args) = true → preserves (calm Q) (retry_attempts w method args f).
Proof.
  intros Hc s h. unfold retry_attempts.
  destruct (with_transient_retry _ _ _) as [o sleeps]. unfold end_state, end_trace. simpl.
  rewrite <- app_assoc. apply calm_quiet; [done|apply same_files|].
  apply Forall_app. split; [|by constructor]. 
  induction (List.length sleeps); simpl; by constructor.
Qed.

Lemma retry_call_calm {A} method args (f : files → trace → A + io_exn) :
  Q (ProviderCall method args) = true → preserves (calm Q) (retry_call w method args f).
Proof.
  intros Hc. apply preserves_bind; [apply chain_trans|by apply retry_attempts_calm|].
  intros [v k|e]; [apply preserves_ret|apply preserves_throw]; apply chain_refl.
Qed.

Lemma read_file_calm p : preserves (calm Q) (read_file w p).
Proof. intros s h. apply chain_refl. Qed.

Lemma read_all_calm paths : preserves (calm Q) (read_all w paths).
Proof.
  induction paths as [|p paths IH]; [apply preserves_ret, chain_refl|].
  apply preserves_bind; [apply chain_trans|apply read_file_calm|]. intros r.
  apply preserves_bind; [apply chain_trans|done|]. intros rest. apply preserves_ret, chain_refl.
Qed.

Lemma budget_check_calm : preserves (calm Q) (budget_check w).
Proof.
  intros s h. destruct s as [f [b|]]; [|apply chain_refl].
  unfold budget_check, mbind, M_bind, get, now, observe. simpl.
  pose proof (check_fields b (w_clock w h)) as (Hc & _ & Hm & _).
  destruct (check b (w_clock w h)) as [b' r]. unfold end_state, end_trace, modify. simpl in *.
  rewrite <- (app_nil_r h) at 2. apply calm_quiet; [done| |constructor].
  intros b0 [= <-]. by exists b'.
Qed.

Lemma modify_files_calm (g : files → files) : preserves (calm Q) (modify (λ s, with_files (g (files_of s)) s)).
Proof.
  intros s h. unfold modify, end_state, end_trace. simpl.
  rewrite <- (app_nil_r h) at 2. apply calm_quiet; [done|apply same_files|constructor].
Qed.

Lemma finally_calm {A} (m : M rs A) (g : files → files) :
  preserves (calm Q) m → preserves (calm Q) (finally_ m (λ s, with_files (g (files_of s)) s)).
Proof.
  intros Hm s h. specialize (Hm s h). unfold finally_, end_state, end_trace in *.
  destruct (m s h) as [r [s' h']]. simpl in *. eapply chain_trans; [exact Hm|].
  apply (modify_files_calm g s' h').
Qed.

End pieces.

(** ** Which calls a node may make *)

(** The programs whose exit status decides whether a fix is green. *)
Definition is_verdict (c : cmd) : bool :=
  match c with
  | Subprocess argv =>
      bool_decide (take 2 (drop 1 argv) = ["-m"; "pytest"])
      || bool_decide (take 2 argv = ["git"; "apply"]) || bool_decide (take 1 argv = ["patch"])
  | _ => false
  end.

Definition is_method (m : string) (c : cmd) : bool :=
  match c with ProviderCall m' _ => bool_decide (m' = m) | _ => false end.

(** Calls that neither test, nor ship, nor ask the model. *)
Definition neutral (c : cmd) : bool :=
  negb (is_verdict c || is_method "commit_and_push" c || is_method "wait_ci_result" c
        || is_method "create_review" c || is_llm c).

(** What a node does beyond that. *)
Definition own (n : node) (c : cmd) : bool :=
  match n with
  | ApplyChangeAndTest => is_verdict c
  | CommitChange => is_method "commit_and_push" c
  | WaitCiResult => is_method "wait_ci_result" c
  | CreateMr => is_method "create_review" c
  | _ => false
  end.

Definition may (n : node) (c : cmd) : bool := neutral c || own n c.
(** Hooks and the ReAct loop also ask the model. *)
Definition asks (c : cmd) : bool := neutral c || is_llm c.

(** ** What is asked of the enhancements

    A callback may read anything, ask the model within the budget and add keys;
    it may not test, commit, wait for CI or open a review, and may not write the
    keys that steer the graph. *)

Definition control_keys : list string :=
  ["test_passed"; "fix_retry_count"; "no_fix_retry_count"; "llm_result"; "workflow_ver";
   "ci_status"; "error"; "already_fixed"; "code_review_status"].

Definition courteous (fn : callback) : Prop :=
  ∀ st, preserves (calm asks) (fn st) ∧
    ∀ s h u s' h' k, fn st s h = (Ok (Some u), (s', h')) → k ∈ control_keys → u !! k = None.

(** Every callback of the registry behaves. *)
Class Courteous (r : HookRegistry) : Prop :=
  courteous_callbacks : ∀ name fn, fn ∈ callbacks name r → courteous fn.

#[export] Instance no_hooks_courteous : Courteous [].
Proof. intros name fn Hin. unfold callbacks in Hin. simpl in Hin. by apply elem_of_nil in Hin. Qed.

(** ** Runs of what preserves a relation *)

Lemma preserves_run {S A} R (m : M S A) s h r s' h' :
  preserves R m → m s h = (r, (s', h')) → R s h s' h'.
Proof. intros Hm E. specialize (Hm s h). by rewrite E in Hm. Qed.

End GraphLaws.
