(* ===== verification/GraphFrames.v ===== *)
(** * What each node may do

    Every node stays within the calls it is allowed and, the ReAct loop apart,
    leaves the run's accounts balanced; the loop itself makes progress. *)

From S2P Require Import Prelude PyStr Effects World ReactLoop Nodes ApplyTest Graph GraphLaws.
Local Open Scope string_scope.
Local Open Scope list_scope.

Module GraphFrames.
Import World ReactLoop Nodes ApplyTest Graph GraphLaws.

(** One step into a computation that is to preserve a chain. *)
Ltac walk :=
  intros;
  lazymatch goal with
  | |- preserves _ (mret _) => apply preserves_ret, chain_refl
  | |- preserves _ (throw _) => apply preserves_throw, chain_refl
  | |- preserves _ (lift _) => apply preserves_lift, chain_refl
  | |- preserves _ get => apply preserves_get, chain_refl
  | |- preserves _ (observe _) => apply preserves_observe, chain_refl
  | |- preserves _ (now _) => apply preserves_observe, chain_refl
  | |- preserves _ (_ ≫= _) => apply preserves_bind; [apply chain_trans| |]
  | |- preserves _ (try_ _ _) => apply preserves_try; [apply chain_trans| |]
  | |- preserves _ (for_ _ _) => apply preserves_for; [apply chain_refl|apply chain_trans|]
  | |- preserves _ (match ?x with _ => _ end) => destruct x
  end.

Section frames.
Context `{FloatRepr, FloatParse} (w : world) (cfg : config).

Lemma neutral_no_llm : no_llm neutral.
Proof.
  intros c Hc. unfold neutral in Hc. apply negb_true_iff in Hc.
  by destruct (is_llm c); rewrite ?orb_true_r in Hc.
Qed.

Lemma own_no_llm n c : own n c = true → is_llm c = false.
Proof. by destruct n, c. Qed.

Lemma may_no_llm n : no_llm (may n).
Proof.
  intros c Hc. unfold may in Hc. apply orb_true_iff in Hc as [Hc|Hc].
  - by apply neutral_no_llm.
  - by eapply own_no_llm.
Qed.

Lemma may_neutral n c : neutral c = true → may n c = true.
Proof. unfold may. by intros ->. Qed.

Lemma own_may n c : own n c = true → may n c = true.
Proof. unfold may. intros ->. apply orb_true_r. Qed.

(** Leaves of the walk: single calls of a node. *)
Ltac leaf :=
  intros;
  first
    [ apply perform_calm | apply run_process_calm | apply run_checked_calm | apply provider_call_calm
    | apply retry_attempts_calm | apply retry_call_calm | apply read_file_calm | apply read_all_calm
    | apply budget_check_calm | apply modify_files_calm ];
  try apply may_no_llm; try reflexivity.

Ltac frames := repeat walk; try leaf.

Lemma ensure_repo_ready_calm n bug : preserves (calm (may n)) (ensure_repo_ready w bug).
Proof. unfold ensure_repo_ready. leaf. Qed.

Lemma precheck_calm st : preserves (calm (may PrecheckAlreadyFixed)) (precheck_already_fixed w st).
Proof. unfold precheck_already_fixed. frames. Qed.

Lemma fetch_trace_calm st : preserves (calm (may FetchTrace)) (Nodes.fetch_trace w st).
Proof. unfold Nodes.fetch_trace. frames. Qed.

Lemma parse_trace_calm st : preserves (calm (may ParseTrace)) (parse_trace st).
Proof. unfold parse_trace. frames. Qed.

Lemma fetch_source_file_calm st : preserves (calm (may FetchSourceFile)) (fetch_source_file w st).
Proof. unfold fetch_source_file. frames. Qed.

Lemma mini_react_loop_calm st : preserves (calm (may MiniReactLoop)) (mini_react_loop w st).
Proof. unfold mini_react_loop. frames. Qed.

Lemma create_fix_branch_calm st : preserves (calm (may CreateFixBranch)) (create_fix_branch w st).
Proof.
  unfold create_fix_branch, checkout, call_create_fix_branch, ensure_repo_ready. frames.
Qed.

Lemma commit_change_calm st : preserves (calm (may CommitChange)) (commit_change w st).
Proof. unfold commit_change, ensure_repo_ready. frames. Qed.

Lemma wait_ci_result_calm st : preserves (calm (may WaitCiResult)) (wait_ci_result w cfg st).
Proof. unfold wait_ci_result. frames. Qed.

Lemma create_mr_calm st : preserves (calm (may CreateMr)) (create_mr w st).
Proof. unfold create_mr, ensure_repo_ready. frames. Qed.

Lemma handle_failure_calm st : preserves (calm (may HandleFailure)) (handle_failure st).
Proof. unfold handle_failure. frames. Qed.

(** ** Hooks *)

Lemma run_callbacks_calm l st :
  Forall courteous l → preserves (calm asks) (run_callbacks l st).
Proof.
  intros Hl. revert st. induction Hl as [|fn l Hfn Hl IH]; intros st; simpl.
  - apply preserves_ret, chain_refl.
  - destruct (Hfn st) as [Hc _]. repeat walk; [exact Hc|intros; apply IH].
Qed.

(** The keys that steer the graph come out of the hooks as they went in. *)
Lemma run_callbacks_control l st s h st' s' h' k :
  Forall courteous l → k ∈ control_keys →
  run_callbacks l st s h = (Ok st', (s', h')) → st' !! k = st !! k.
Proof.
  intros Hl Hk. revert st s h. induction Hl as [|fn l Hfn Hl IH]; intros st s h; simpl.
  - by intros [= <- <- <-].
  - intros (u & s1 & h1 & Hu & Hr)%bind_ok. rewrite (IH _ _ _ Hr). unfold try_ in Hu.
    destruct (fn st s h) as [[o|e] [s2 h2]] eqn:E; [|by injection Hu as <-].
    simplify_eq. destruct u as [u|]; [|done]. rewrite lookup_union.
    destruct (Hfn st) as [_ Hc]. rewrite (Hc _ _ _ _ _ _ E Hk). by destruct (st !! k).
Qed.

Lemma callbacks_courteous name r : Courteous r → Forall courteous (callbacks name r).
Proof. intros Hr. apply Forall_forall. apply Hr. Qed.

(** ** Applying and testing *)

Lemma asks_apply c : asks c = true → may ApplyChangeAndTest c || is_llm c = true.
Proof.
  unfold asks. intros [Hc|Hc]%orb_true_iff; [by rewrite may_neutral|]. by rewrite Hc, orb_true_r.
Qed.

Lemma ladder_calm cmds attempts :
  Forall (λ argv, is_verdict (Subprocess argv) = true) cmds →
  preserves (calm (may ApplyChangeAndTest)) (ladder w cmds attempts).
Proof.
  intros Hc. revert attempts. induction Hc as [|argv cmds Hv Hc IH]; intros attempts; simpl.
  - frames.
  - repeat walk; try (intros; apply IH). apply run_process_calm; [apply may_no_llm|]. apply own_may, Hv.
Qed.

Lemma apply_model_patch_calm st :
  preserves (calm (may ApplyChangeAndTest)) (apply_model_patch_ver99 w st).
Proof.
  unfold apply_model_patch_ver99. repeat walk. intros file.
  apply (finally_calm _ (may_no_llm _) _ (λ f, delete _ f)).
  apply preserves_bind; [apply chain_trans| |].
  - apply (modify_files_calm _ (may_no_llm _) (λ f, <[file := _]> f)).
  - intros _. apply ladder_calm. repeat constructor.
Qed.

Lemma edit_calm repo groups : preserves (calm (may ApplyChangeAndTest)) (edit w repo groups).
Proof.
  unfold edit, apply_files, apply_file. repeat walk. intros f.
  apply (modify_files_calm _ (may_no_llm _) (λ _, f)).
Qed.

Lemma run_tests_calm repo st : preserves (calm (may ApplyChangeAndTest)) (run_tests w repo st).
Proof.
  unfold run_tests. frames.
Qed.

Lemma apply_and_test_calm repo st : preserves (calm (may ApplyChangeAndTest)) (apply_and_test w repo st).
Proof.
  unfold apply_and_test. repeat walk; try (intros; apply edit_calm); intros; apply run_tests_calm.
Qed.

Section courteous_hooks.
Context (Hhooks : Courteous (default [] (hooks cfg))).

Lemma run_hooks_calm name r st :
  hooks cfg = Some r → preserves (calm asks) (run_hooks name r st).
Proof.
  intros Hr. pose proof Hhooks as Hc. rewrite Hr in Hc. apply run_callbacks_calm, callbacks_courteous, Hc.
Qed.

Lemma run_hooks_control name r st s h st' s' h' k :
  hooks cfg = Some r → k ∈ control_keys →
  run_hooks name r st s h = (Ok st', (s', h')) → st' !! k = st !! k.
Proof.
  intros Hr. pose proof Hhooks as Hc. rewrite Hr in Hc.
  apply run_callbacks_control, callbacks_courteous, Hc.
Qed.

Lemma finalize_calm st result : preserves (calm asks) (finalize cfg st result).
Proof.
  pose proof run_hooks_calm as Hrun. unfold finalize.
  destruct (hooks cfg) as [r|]; repeat walk; by apply Hrun.
Qed.

Lemma budget_key : "_budget" ∉ control_keys.
Proof. apply (bool_decide_unpack _). by vm_compute. Qed.

(** The keys that steer the graph leave [_finalize] as the result and the state
    had them. *)
Lemma finalize_control st result s h u s' h' k :
  k ∈ control_keys → finalize cfg st result s h = (Ok u, (s', h')) →
  (u ∪ st) !! k = (result ∪ st) !! k.
Proof.
  intros Hk. pose proof run_hooks_control as Hctl. unfold finalize.
  destruct (truthy _); [by intros [= <- <- <-]|].
  destruct (hooks cfg) as [r|]; [|by intros [= <- <- <-]].
  destruct (has _ _); [|by intros [= <- <- <-]].
  intros (after & s1 & h1 & Hrun & [= <- <- <-])%bind_ok.
  apply (Hctl _ _ _ _ _ _ _ _ k eq_refl Hk) in Hrun.
  rewrite lookup_insert_ne in Hrun by (intros <-; by apply budget_key).
  rewrite lookup_union in Hrun. rewrite !lookup_union. unfold changed. rewrite map_lookup_filter, Hrun.
  destruct (result !! k) as [v|], (st !! k) as [v'|]; simpl; try done; by destruct (guard _).
Qed.

Lemma apply_change_and_test_calm st :
  preserves (calm (λ c, may ApplyChangeAndTest c || is_llm c)) (apply_change_and_test w cfg st).
Proof.
  assert (∀ A (m : M rs A), preserves (calm (may ApplyChangeAndTest)) m →
            preserves (calm (λ c, may ApplyChangeAndTest c || is_llm c)) m) as Hweak.
  { intros A m. apply preserves_weaken. intros s h s' h'. apply calm_weaken. by intros c ->. }
  unfold apply_change_and_test. repeat walk.
  - apply Hweak, ensure_repo_ready_calm.
  - apply Hweak, apply_model_patch_calm.
  - apply Hweak, apply_and_test_calm.
  - intros r. eapply preserves_weaken; [|apply finalize_calm]. intros s h s' h'.
    apply calm_weaken, asks_apply.
Qed.

End courteous_hooks.

(** ** Reviewing *)

(** Calls that leave the budget object alone. *)
Definition idle (s : rs) (h : trace) (s' : rs) (h' : trace) : Prop :=
  budget_of s' = budget_of s ∧ frame neutral s h s' h'.

Lemma idle_calm s h s' h' : idle s h s' h' → calm (may CodeReview) s h s' h'.
Proof.
  intros [Hb (new & -> & Hn)]. apply calm_quiet; [apply may_no_llm| |].
  - intros b E. exists b. by rewrite Hb.
  - eapply Forall_impl; [exact Hn|]. intros e. apply may_neutral.
Qed.

Lemma inspect_idle l st : preserves idle (inspect w l st).
Proof.
  intros s h. unfold inspect, try_, perform, mbind, M_bind, end_state, end_trace. simpl.
  destruct (w_inspect w l _ h); simpl; (split; [done|]); (eexists [_]; split; [done|by constructor]).
Qed.

Lemma read_all_idle l s h : end_state (read_all w l s h) = s ∧ end_trace (read_all w l s h) = h.
Proof.
  unfold end_state, end_trace. revert s h. induction l as [|p l IH]; intros s h; [done|]. simpl.
  rewrite bind_run. unfold read_file. rewrite bind_get. unfold observe. simpl.
  rewrite bind_run. specialize (IH s h). by destruct (read_all w l s h) as [[r|e] [s1 h1]].
Qed.

(** A check that passes leaves room for a call. *)
Definition room (s : rs) : Prop := ∀ b, budget_of s = Some b → (calls b < max_calls b)%Z.

Lemma budget_check_room s h s' h' : budget_check w s h = (Ok None, (s', h')) → room s'.
Proof.
  unfold budget_check. rewrite bind_get. destruct (budget_of s) as [b|] eqn:Eb.
  - unfold now. rewrite bind_observe. pose proof (check_None b (w_clock w h)) as Hn.
    pose proof (check_fields b (w_clock w h)) as (Hc & _ & Hm & _).
    destruct (check b (w_clock w h)) as [b' [r|]]; rewrite bind_modify; [done|].
    intros [= <- <-] b0 [= <-]. simpl in *. destruct (Hn eq_refl). lia.
  - intros [= <- <-] b. by rewrite Eb.
Qed.

(** A debit of one call, where there is room. *)
Lemma budget_record_run i o c s h :
  ∃ s', budget_record i o c s h = (Ok tt, (s', h)) ∧
    (budget_of s = None → s' = s) ∧
    ∀ b, budget_of s = Some b → ∃ b', budget_of s' = Some b' ∧ max_calls b' = max_calls b ∧
                                     calls b' = (calls b + 1)%Z.
Proof.
  unfold budget_record. rewrite bind_get. destruct (budget_of s) as [b|] eqn:Eb.
  - eexists. split; [done|]. split; [done|]. intros b0 [= <-]. by eexists.
  - exists s. split; [done|]. split; [done|]. by intros.
Qed.

Lemma budget_record_spends i o c s h Q :
  room s → calm Q s h (end_state (budget_record i o c s h)) (end_trace (budget_record i o c s h)).
Proof.
  intros Hr. destruct (budget_record_run i o c s h) as (s' & E & _ & Hs). rewrite E.
  unfold end_state, end_trace. simpl. split; [exists []; by rewrite app_nil_r|].
  intros b Hb. destruct (Hs b Hb) as (b' & Hb' & Hm & Hc). exists b'. specialize (Hr b Hb).
  split; [done|]. split; [done|]. lia.
Qed.

Lemma reviewing_calm cr st s h r s' h' :
  room s → reviewing w cr st s h = (r, (s', h')) → calm (may CodeReview) s h s' h'.
Proof.
  intros Hroom. unfold reviewing. rewrite bind_run. unfold lift at 1.
  destruct (touched_paths st) as [paths|e]; [|intros [= <- <- <-]; apply chain_refl].
  rewrite bind_run. pose proof (read_all_idle paths s h) as [H1 H2].
  destruct (read_all w paths s h) as [[files|e] [s1 h1]]; unfold end_state, end_trace in *; simpl in *;
    subst s1 h1; [|intros [= <- <- <-]; apply chain_refl].
  destruct files as [|f files]; [intros [= <- <- <-]; apply chain_refl|].
  rewrite bind_run. pose proof (inspect_idle (f :: files) st s h) as Hi.
  destruct (inspect w (f :: files) st s h) as [[o|e] [s1 h1]]; unfold end_state, end_trace in Hi;
    simpl in *; [|intros [= <- <- <-]; by apply idle_calm].
  intros E. eapply chain_trans; [by apply idle_calm|].
  destruct o as [o|]; [|injection E as <- <- <-; apply chain_refl].
  assert (room s1) as Hroom1 by (destruct Hi as [Hb _]; intros b; rewrite Hb; apply Hroom).
  rewrite bind_run in E. pose proof (budget_record_spends 0 0 None s1 h1 (may CodeReview) Hroom1) as Hd.
  destruct (budget_record 0 0 None s1 h1) as [[u|e] [s2 h2]]; [|by injection E as <- <- <-].
  rewrite bind_run in E. unfold lift in E. by destruct (judge cr st o); injection E as <- <- <-.
Qed.

Lemma code_review_calm st : preserves (calm (may CodeReview)) (code_review w cfg st).
Proof.
  intros s h. unfold code_review. destruct (review_cfg cfg) as [cr|]; [|apply chain_refl].
  destruct (enabled cr); [|apply chain_refl]. rewrite bind_run.
  pose proof (budget_check_calm w (may CodeReview) (may_no_llm _) s h) as Hc.
  pose proof (budget_check_room s h) as Hroom.
  destruct (budget_check w s h) as [[[r|]|e] [s1 h1]]; [exact Hc| |exact Hc].
  eapply chain_trans; [exact Hc|]. unfold end_state, end_trace.
  destruct (reviewing w cr st s1 h1) as [r [s2 h2]] eqn:E.
  eapply reviewing_calm; [|exact E]. by apply (Hroom s1 h1).
Qed.

End frames.
End GraphFrames.
