(* ===== verification/ReactSpec.v ===== *)
(** * The ReAct loop: accounts and progress

    However the loop ends, its model calls were made behind the budget; when it
    returns, it either debited a call or reports that it found no fix. *)

From S2P Require Import Prelude PyStr Effects World ReactLoop Nodes ApplyTest Graph GraphLaws GraphFrames.
Local Open Scope string_scope.
Local Open Scope list_scope.

Module ReactSpec.
Import World ReactLoop Nodes ApplyTest Graph GraphLaws GraphFrames.

(** How a computation that may crash between a call and its debit ends. *)
Definition crash (s : rs) (h : trace) (s' : rs) (h' : trace) : Prop :=
  frame asks s h s' h' ∧ (spend 0 s h s' h' ∨ spend 1 s h s' h').

Lemma calm_crash s h s' h' : calm asks s h s' h' → crash s h s' h'.
Proof. intros [Hf Hs]. split; auto. Qed.

Lemma spend_then k s h s1 h1 s2 h2 : spend 0 s h s1 h1 → spend k s1 h1 s2 h2 → spend k s h s2 h2.
Proof.
  intros H1 H2 b Hb. destruct (H1 b Hb) as (b1 & Hb1 & Hm1 & ?).
  destruct (H2 b1 Hb1) as (b2 & Hb2 & Hm2 & ?). exists b2. split; [done|]. split; [congruence|].
  rewrite Hm1 in *. lia.
Qed.

Lemma calm_then_crash s h s1 h1 s2 h2 :
  calm asks s h s1 h1 → crash s1 h1 s2 h2 → crash s h s2 h2.
Proof.
  intros [Hf Hs] [Hf' Hs']. split; [eapply chain_trans; [exact Hf|exact Hf']|].
  destruct Hs'; [left|right]; by eapply spend_then.
Qed.

(** Returning balances the accounts, raising may leave one call open. *)
Definition balanced {A} (m : M rs A) : Prop := ∀ s h r s' h', m s h = (r, (s', h')) →
  match r with Ok _ => calm asks s h s' h' | Raise _ => crash s h s' h' end.

Lemma balanced_bind {A B} (m : M rs A) (f : A → M rs B) :
  balanced m → (∀ a, balanced (f a)) → balanced (m ≫= f).
Proof.
  intros Hm Hf s h r s' h'. rewrite bind_run. specialize (Hm s h).
  destruct (m s h) as [[a|e] [s1 h1]]; specialize (Hm _ _ _ eq_refl).
  - intros E. apply Hf in E. destruct r; [eapply chain_trans; [exact Hm|exact E]|eapply calm_then_crash; [exact Hm|exact E]].
  - by intros [= <- <- <-].
Qed.

Lemma balanced_calm {A} (m : M rs A) : preserves (calm asks) m → balanced m.
Proof.
  intros Hm s h r s' h' E. apply (preserves_run _ _ _ _ _ _ _ Hm) in E.
  destruct r; [done|by apply calm_crash].
Qed.

(** The budget moved. *)
Definition debited (s s' : rs) : Prop := ∀ b b',
  budget_of s = Some b → budget_of s' = Some b' → (calls b < calls b')%Z.

Lemma debited_calm s h s1 h1 s2 h2 :
  calm asks s h s1 h1 → calm asks s1 h1 s2 h2 →
  debited s s1 ∨ debited s1 s2 → debited s s2.
Proof.
  intros [_ H1] [_ H2] Hd b0 b2 Hb0 Hb2. destruct (H1 b0 Hb0) as (b1 & Hb1 & _ & ? & _).
  destruct (H2 b1 Hb1) as (b2' & Hb2' & _ & ? & _). rewrite Hb2 in Hb2'. injection Hb2' as <-.
  destruct Hd as [Hd|Hd]; [specialize (Hd _ _ Hb0 Hb1)|specialize (Hd _ _ Hb1 Hb2)]; lia.
Qed.

Section spec.
Context `{FloatRepr, FloatParse} (w : world) (cfg : config).

(** At most three requests, answered once or not at all. *)
Lemma invoke_from_run attempt msgs left s h r s' h' :
  invoke_from w attempt msgs left s h = (r, (s', h')) →
  s' = s ∧ ∃ new, h' = h ++ new ∧ Forall (λ e : event, is_llm e.1 = true) new ∧
    (asked new ≤ Z.of_nat left + 1)%Z ∧ (answered new = if is_ok r then 1 else 0)%Z.
Proof.
  revert h. induction left as [|left IH]; intros h; simpl; rewrite bind_run; unfold llm_invoke at 1;
    destruct (w_llm w attempt msgs h) as [a|e] eqn:El.
  1,3: intros [= <- <- <-]; split; [done|]; (eexists [_]; split; [done|]); split; [by constructor|];
       unfold asked, answered, count_calls; simpl; lia.
  - destruct (transient_llm e); intros [= <- <- <-]; split; [done| |done|]; (eexists [_]; split; [done|]);
      (split; [by constructor|]); unfold asked, answered, count_calls; simpl; lia.
  - destruct (transient_llm e).
    + intros (-> & new & -> & Hn & Ha & Hs)%IH. split; [done|].
      exists ((LlmInvoke (List.length msgs), false) :: new). split; [by rewrite <- app_assoc|].
      split; [by constructor|]. unfold asked, answered, count_calls in *. simpl. split; [lia|done].
    + intros [= <- <- <-]. split; [done|]. (eexists [_]; split; [done|]). split; [by constructor|].
      unfold asked, answered, count_calls; simpl; lia.
Qed.

Lemma llm_asks (new : trace) :
  Forall (λ e : event, is_llm e.1 = true) new → Forall (λ e : event, asks e.1 = true) new.
Proof. intros Hn. eapply Forall_impl; [exact Hn|]. intros e Hl. unfold asks. by rewrite Hl, orb_true_r. Qed.

(** After the requests and before the debit. *)
Lemma requested_crash s h new k :
  room s → Forall (λ e : event, is_llm e.1 = true) new →
  (asked new ≤ 3)%Z → answered new = k → (0 ≤ k ≤ 1)%Z → crash s h s (h ++ new).
Proof.
  intros Hr Hn Ha Hk Hk01. split; [exists new; split; [done|by apply llm_asks]|]. right.
  intros b Hb. exists b. specialize (Hr b Hb). rewrite asked_app, answered_app.
  split; [done|]. split; [done|]. lia.
Qed.

(** Asking the model behind a check: when it returns, one call is debited. *)
Lemma ask_spends attempt l s h r s' h' :
  room s → ask w cfg attempt l s h = (r, (s', h')) →
  match r with Ok _ => calm asks s h s' h' ∧ debited s s' | Raise _ => crash s h s' h' end.
Proof.
  intros Hroom. unfold ask, now. rewrite bind_observe, bind_run.
  destruct (invoke_llm_with_retry w attempt (messages l) s h) as [r1 [s1 h1]] eqn:Ei.
  apply invoke_from_run in Ei as (-> & new & -> & Hn & Ha & Hs).
  assert (crash s h s (h ++ new)) as Hcrash.
  { eapply requested_crash; eauto. destruct (is_ok r1); lia. }
  destruct r1 as [msg|e]; [|by intros [= <- <- <-]].
  rewrite !bind_observe, bind_run. unfold lift at 1.
  destruct (extract_token_usage (r_usage msg)) as [toks|e]; [|by intros [= <- <- <-]].
  rewrite bind_run. unfold lift at 1.
  destruct (extract_cached_input_tokens (r_usage msg)) as [cached|e]; [|by intros [= <- <- <-]].
  assert (∃ cost, cost_of_call w cfg toks.1 toks.2 (default 0%Z cached) s (h ++ new) = (Ok cost, (s, h ++ new)))
    as [cost Ecost] by (unfold cost_of_call; destruct (via_gateway cfg); by eexists).
  rewrite bind_run, Ecost, bind_run.
  destruct (budget_record_run toks.1 toks.2 cost s (h ++ new)) as (s2 & -> & _ & Hs2).
  intros [= <- <- <-]. split.
  - split; [exists new; split; [done|by apply llm_asks]|].
    intros b Hb. destruct (Hs2 b Hb) as (b' & Hb' & Hm & Hc). exists b'. specialize (Hroom b Hb).
    rewrite asked_app, answered_app, Hc. simpl in *. split; [done|]. split; [done|]. lia.
  - intros b b' Hb Hb'. destruct (Hs2 b Hb) as (b2 & Hb2 & _ & Hc). simplify_eq. lia.
Qed.

(** Acting on the tool call touches neither the budget nor the outside. *)
Lemma act_idle calls l s h r s' h' : act w calls l s h = (r, (s', h')) → s' = s ∧ h' = h.
Proof.
  unfold act. destruct calls as [|c calls]; [by intros [= <- <- <-]|]. cbv zeta.
  case_bool_decide.
  - destruct (truthy _); [|by intros [= <- <- <-]].
    rewrite bind_run. unfold lift. by destruct (need_len _); intros [= <- <- <-].
  - case_bool_decide; [by intros [= <- <- <-]|].
    rewrite bind_get, bind_observe, bind_run. unfold lift.
    by destruct (execute_tool _ _ _); intros [= <- <- <-].
Qed.

(** A turn that changes the result has asked the model. *)
Lemma turn_spends attempt l s h r s' h' :
  turn w cfg attempt l s h = (r, (s', h')) →
  match r with
  | Ok (l', _) => calm asks s h s' h' ∧ (llm_result l' = llm_result l ∨ debited s s')
  | Raise _ => crash s h s' h'
  end.
Proof.
  unfold turn. rewrite bind_run.
  pose proof (budget_check_calm w (may ReactLoop) (may_no_llm _) s h) as Hc.
  pose proof (budget_check_room w s h) as Hroom.
  destruct (budget_check w s h) as [[o|e] [s1 h1]]; unfold end_state, end_trace in Hc; simpl in Hc.
  2: { intros [= <- <- <-]. apply calm_crash. eapply calm_weaken; [|exact Hc].
       intros c. unfold may, asks. simpl. rewrite orb_false_r. by intros ->. }
  assert (calm asks s h s1 h1) as Hc1.
  { eapply calm_weaken; [|exact Hc]. intros c. unfold may, asks. simpl. rewrite orb_false_r. by intros ->. }
  destruct o as [x|]; [intros [= <- <- <-]; by auto|].
  rewrite bind_run. specialize (Hroom _ _ eq_refl).
  destruct (ask w cfg attempt l s1 h1) as [r2 [s2 h2]] eqn:Ea.
  apply ask_spends in Ea; [|done]. destruct r2 as [a|e].
  2: { intros [= <- <- <-]. by eapply calm_then_crash. }
  destruct Ea as [Ha Hd]. intros [-> ->]%act_idle.
  assert (calm asks s h s2 h2) as Hc2 by (eapply chain_trans; [exact Hc1|exact Ha]).
  destruct r as [[l' stop]|e]; [|by apply calm_crash]. split; [done|]. right.
  intros b b' Hb Hb'. by apply (debited_calm s h s1 h1 s2 h2 Hc1 Ha (or_intror Hd)).
Qed.

Lemma turns_spend attempt n l s h r s' h' b :
  budget_of s = Some b → turns w cfg attempt n l s h = (r, (s', h')) →
  match r with
  | Ok l' => calm asks s h s' h' ∧ (llm_result l' = llm_result l ∨ debited s s')
  | Raise _ => crash s h s' h'
  end.
Proof.
  revert l s h b. induction n as [|n IH]; intros l s h b Hb; simpl.
  { intros [= <- <- <-]. split; [apply chain_refl|by left]. }
  rewrite bind_run. destruct (turn w cfg attempt l s h) as [r1 [s1 h1]] eqn:Et.
  apply turn_spends in Et. destruct r1 as [[l1 stop]|e]; [|by intros [= <- <- <-]].
  destruct Et as [Hc Hd]. simpl. destruct stop; [by intros [= <- <- <-]|].
  destruct Hc as [Hf Hs]. destruct (Hs b Hb) as (b1 & Hb1 & Hrest).
  intros E. pose proof (IH _ _ _ _ Hb1 E) as Hr. destruct r as [l'|e].
  - destruct Hr as [Hc' Hd']. split; [eapply chain_trans; [by split|exact Hc']|].
    destruct Hd as [Hd|Hd], Hd' as [Hd'|Hd']; [left; congruence|right..];
      eapply (debited_calm s h s1 h1 s' h'); eauto; by split.
  - by eapply calm_then_crash.
Qed.

Lemma refresh_idle st s h r s' h' : refresh w st s h = (r, (s', h')) → s' = s ∧ h' = h.
Proof.
  unfold refresh. destruct (0 <? _)%Z; [|by intros [= <- <- <-]].
  rewrite bind_run. unfold lift. destruct (touched_paths st) as [paths|e]; [|by intros [= <- <- <-]].
  rewrite bind_run. destruct (read_all_idle w (List.filter hashable paths) s h) as [H1 H2].
  destruct (read_all w _ s h) as [[l|e] [s1 h1]]; unfold end_state, end_trace in *; simpl in *;
    by intros [= <- <- <-].
Qed.

Lemma start_no_result st msgs l : start st msgs = Ok l → llm_result l = PNone.
Proof. unfold start. intros Hl. repeat (apply res_bind_ok in Hl as (? & _ & Hl)). by injection Hl as <-. Qed.

(** What a loop that returns says: no fix and one more such exit counted, or a
    result and a debited call. *)
Definition reports (z : Z) (u : state) (s s' : rs) : Prop :=
  (u !! "llm_result" = Some PNone ∧ u !! "no_fix_retry_count" = Some (PInt (z + 1))) ∨
  (∃ v, u !! "llm_result" = Some v ∧ is_none v = false ∧
        u !! "no_fix_retry_count" = Some (PInt z) ∧ debited s s').

Lemma react_on_spends attempt st s h r s' h' b :
  budget_of s = Some b → react_on w cfg attempt st s h = (r, (s', h')) →
  match r with
  | Ok u => calm asks s h s' h' ∧ ∃ z, int_field "no_fix_retry_count" st = Ok z ∧ reports z u s s'
  | Raise _ => crash s h s' h'
  end.
Proof.
  intros Hb. unfold react_on. rewrite bind_run.
  assert (crash s h s h) as Hnone by apply calm_crash, chain_refl.
  destruct (refresh w st s h) as [[cur|e] [s1 h1]] eqn:Er; apply refresh_idle in Er as [-> ->];
    [|by intros [= <- <- <-]].
  rewrite bind_run. unfold lift at 1.
  destruct (build_initial_messages st cur) as [msgs|e]; [|by intros [= <- <- <-]].
  rewrite bind_run. unfold lift at 1.
  destruct (start st msgs) as [l0|e] eqn:Es; [|by intros [= <- <- <-]]. apply start_no_result in Es.
  rewrite bind_run. destruct (turns w cfg attempt MAX_STEPS l0 s h) as [r1 [s1 h1]] eqn:Et.
  eapply turns_spend in Et; [|exact Hb]. destruct r1 as [l|e]; [|by intros [= <- <- <-]].
  destruct Et as [Hc Hd]. rewrite bind_observe, bind_run. unfold lift.
  destruct (int_field "no_fix_retry_count" st) as [z|e]; [|intros [= <- <- <-]; by apply calm_crash].
  intros [= <- <- <-]. split; [done|]. exists z. split; [done|]. unfold reports, loop_update.
  rewrite !dict_lookup. simpl. rewrite Es in Hd.
  destruct (is_none (llm_result l)) eqn:En.
  - left. by destruct (llm_result l).
  - right. exists (llm_result l). split; [done|]. split; [done|].
    destruct Hd as [Hd|Hd]; [by rewrite Hd in En|]. by destruct (llm_result l).
Qed.

Context (Hhooks : Courteous (default [] (hooks cfg))).

(** The loop behind its hooks. *)
Lemma react_loop_spends st s h r s' h' b :
  budget_of s = Some b → react_loop w cfg st s h = (r, (s', h')) →
  match r with
  | Ok u => calm asks s h s' h' ∧ ∃ z, int_field "no_fix_retry_count" st = Ok z ∧ reports z u s s'
  | Raise _ => crash s h s' h'
  end.
Proof.
  intros Hb. unfold react_loop.
  assert (crash s h s h) as Hnone by apply calm_crash, chain_refl.
  rewrite bind_run. unfold lift at 1. destruct (int_field "fix_retry_count" st) as [n|e]; [|by intros [= <- <- <-]].
  rewrite bind_run. unfold lift at 1. destruct (int_field "no_fix_retry_count" st) as [z|e] eqn:Ez; [|by intros [= <- <- <-]].
  rewrite bind_observe, bind_run. unfold lift at 1. destruct (w_llm_ready w h); [|by intros [= <- <- <-]].
  rewrite bind_run. rewrite <- Ez.
  pose proof (run_hooks_calm cfg Hhooks PRE_REACT_LOOP) as Hcalm.
  pose proof (run_hooks_control cfg Hhooks PRE_REACT_LOOP) as Hctl.
  destruct (hooks cfg) as [reg|] eqn:Ereg.
  - specialize (Hcalm reg st eq_refl s h).
    destruct (run_hooks PRE_REACT_LOOP reg st s h) as [[st1|e] [s1 h1]] eqn:Eh;
      unfold end_state, end_trace in Hcalm; simpl in Hcalm;
      [|intros [= <- <- <-]; by apply calm_crash].
    assert (int_field "no_fix_retry_count" st1 = int_field "no_fix_retry_count" st) as Hkey.
    { unfold int_field, sget. erewrite (Hctl reg st s h st1 s1 h1); [done|done| |done].
      apply (bool_decide_unpack _). by vm_compute. }
    destruct Hcalm as [Hf Hs]. destruct (Hs b Hb) as (b1 & Hb1 & _).
    intros E. eapply react_on_spends in E; [|exact Hb1]. destruct r as [u|e].
    + destruct E as [Hc (z' & Hz' & Hrep)]. split; [eapply chain_trans; [by split|exact Hc]|].
      exists z'. split; [congruence|]. destruct Hrep as [?|(v & ? & ? & ? & Hd)]; [by left|right].
      exists v. split_and!; [done..|]. eapply debited_calm; [by split|exact Hc|by right].
    + eapply calm_then_crash; [by split|exact E].
  - intros E. by eapply react_on_spends in E.
Qed.

End spec.
End ReactSpec.
