(* ===== verification/GraphFacts.v ===== *)
(** * What each node leaves in the state

    The keys a node writes, the meaning of a green test and of a CI success in
    terms of the calls made, and the successors of each node. *)

From S2P Require Import Prelude PyStr Effects World ReactLoop Nodes ApplyTest Graph GraphLaws GraphFrames ReactSpec.
Local Open Scope string_scope.
Local Open Scope list_scope.

Module GraphFacts.
Import World ReactLoop Nodes ApplyTest Graph GraphLaws GraphFrames ReactSpec.

(** ** Values a computation can return *)

Definition returns {A} (P : A → Prop) (m : M rs A) : Prop :=
  ∀ s h a s' h', m s h = (Ok a, (s', h')) → P a.

Lemma returns_ret {A} (P : A → Prop) a : P a → returns P (mret a).
Proof. intros HP s h a' s' h' [= <- <- <-]. done. Qed.

Lemma returns_throw {A} (P : A → Prop) e : returns P (throw e).
Proof. intros s h a s' h' [=]. Qed.

Lemma returns_lift {A} (P : A → Prop) r : (∀ a, r = Ok a → P a) → returns P (lift r).
Proof. intros HP s h a s' h' [= E <- <-]. by apply HP. Qed.

Lemma returns_bind {A B} (P : B → Prop) (m : M rs A) (f : A → M rs B) :
  (∀ a, returns P (f a)) → returns P (m ≫= f).
Proof. intros Hf s h b s' h' (a & s1 & h1 & _ & E)%bind_ok. by eapply Hf. Qed.

Lemma returns_lift_bind {A B} (P : B → Prop) (r : res A) (f : A → M rs B) :
  (∀ a, r = Ok a → returns P (f a)) → returns P (lift r ≫= f).
Proof. intros Hf s h b s' h' (a & s1 & h1 & [= E <- <-] & E')%bind_ok. by eapply Hf. Qed.

Lemma returns_finally {A} (P : A → Prop) (m : M rs A) fin : returns P m → returns P (finally_ m fin).
Proof.
  intros Hm s h a s' h'. unfold finally_. destruct (m s h) as [r [s1 h1]] eqn:E.
  intros [= -> <- <-]. by eapply Hm.
Qed.

Ltac walk_returns :=
  intros;
  lazymatch goal with
  | |- returns _ (mret _) => apply returns_ret
  | |- returns _ (throw _) => apply returns_throw
  | |- returns _ (lift _) => apply returns_lift
  | |- returns _ (lift _ ≫= _) => apply returns_lift_bind
  | |- returns _ (_ ≫= _) => apply returns_bind
  | |- returns _ (finally_ _ _) => apply returns_finally
  | |- returns _ (match ?x with _ => _ end) => destruct x
  end.

Definition no_fix_key : string := "no_fix_retry_count".

(** Keys that one node alone writes: the ReAct loop, and the hooks after the
    apply step. *)
Definition quiet_key (k : string) : Prop := k = no_fix_key ∨ k = "reflection_count".

(** Nothing is written under these keys. *)
Definition silent (u : state) : Prop := ∀ k, quiet_key k → u !! k = None.
Definition obj_silent (l : obj) : Prop := ∀ k, quiet_key k → dict_get k l = None.

Lemma dict_silent l : obj_silent l → silent (dict l).
Proof. intros Hl k Hk. rewrite dict_lookup. by apply Hl. Qed.

(** Read off the keys of a dictionary. *)
Ltac by_keys := by intros ? [-> | ->].
Ltac by_verdict := split; [reflexivity|by_keys].

Lemma dict_get_app {V} k (l l' : list (string * V)) :
  dict_get k (l ++ l') = match dict_get k l with Some v => Some v | None => dict_get k l' end.
Proof. induction l as [|[k' v] l IH]; simpl; [done|]. by destruct (decide _). Qed.

Section facts.
Context `{FloatRepr, FloatParse} (w : world) (cfg : config).

Lemma merged_update_silent mr : obj_silent (merged_update mr).
Proof. by_keys. Qed.

Lemma telemetry_silent fs :
  obj_silent (flat_map (λ k, match dict_get k fs with Some v => [(k, v)] | None => [] end) MINI_TELEMETRY_KEYS).
Proof.
  intros key Hkey. assert (key ∉ MINI_TELEMETRY_KEYS) as Hk
    by (destruct Hkey as [-> | ->]; apply (bool_decide_unpack _); by vm_compute).
  revert Hk. generalize MINI_TELEMETRY_KEYS. intros l.
  induction l as [|k l IH]; simpl; intros Hk; [done|]. rewrite dict_get_app.
  apply not_elem_of_cons in Hk as [Hne Hk]. destruct (dict_get k fs); simpl; [|by apply IH].
  rewrite decide_False by done. by apply IH.
Qed.

Lemma mini_update_silent id out u : mini_update id out = Ok u → obj_silent u.
Proof.
  unfold mini_update. destruct (py_or _ _) as [| | | |p| |]; try done.
  intros (steps & _ & E)%res_bind_ok key Hkey. simplify_eq.
  match goal with |- dict_get _ ?l = _ => change l with
    ([("swebench_instance_id", id);
      ("model_patch", if str_nonempty (str_strip p) then PStr (str_strip p) else PNone);
      ("react_step_count", PInt steps);
      ("llm_result", PDict [("can_fix", PBool (str_nonempty (str_strip p)))])]
     ++ flat_map (λ k, match dict_get k (default [] (final_state out)) with Some v => [(k, v)] | None => [] end)
          MINI_TELEMETRY_KEYS) end.
  rewrite dict_get_app, (telemetry_silent _ key Hkey). by destruct Hkey as [-> | ->].
Qed.

Lemma branch_update_silent r u : branch_update r = Ok u → obj_silent u.
Proof.
  unfold branch_update. intros (b & _ & (extra & He & [= <-])%res_bind_ok)%res_bind_ok.
  assert (obj_silent extra) as Hx; [|by intros k Hk; specialize (Hx k Hk); destruct Hk as [-> | ->]].
  unfold merged_keys in He.
  destruct (truthy _); [|injection He as <-; by_keys].
  apply res_bind_ok in He as (stt & _ & He). destruct (dget "existing_mr" r); try (injection He as <-; by_keys).
  destruct (py_eqb _ _); injection He as <-; by_keys.
Qed.

Lemma parse_trace_silent t : obj_silent (parse_trace_text t).
Proof. unfold parse_trace_text. repeat case_match; by_keys. Qed.

Lemma judge_silent cr st r u : judge cr st r = Ok u → obj_silent u.
Proof.
  unfold judge. cbv zeta. destruct (truthy _); [intros [= <-]; by_keys|].
  destruct (_ && _); [|intros [= <-]; destruct (findings r); by_keys].
  intros (rounds & _ & [= <-])%res_bind_ok. destruct (_ <? _)%Z; by_keys.
Qed.

(** *** Results of the apply step *)

(** A result that says whether the tests passed and steers nothing else but the
    retry counter. *)
Definition verdict_of (p : bool) (r : obj) : Prop :=
  dict_get "test_passed" r = Some (PBool p) ∧ obj_silent r.

Lemma counted_verdict p r st r' : verdict_of p r → counted r st = Ok r' → verdict_of p r'.
Proof.
  intros [Ht Hs]. unfold counted. intros (n & _ & [= <-])%res_bind_ok.
  split; [by rewrite dict_get_app, Ht|]. intros k Hk. rewrite dict_get_app, Hs by done.
  by destruct Hk as [-> | ->].
Qed.

Lemma rejected_verdict a t : verdict_of false (rejected a t).
Proof. by_verdict. Qed.

Lemma edit_failed_verdict st e r : edit_failed st e = Ok r → verdict_of false r.
Proof.
  unfold edit_failed. case_bool_decide; [apply counted_verdict, rejected_verdict|].
  case_bool_decide; [apply counted_verdict, rejected_verdict|]. intros [= <-]. by_verdict.
Qed.

End facts.

(** ** The last verdict *)

Definition last_verdict (h : trace) : option bool :=
  snd <$> last (List.filter (λ e : event, is_verdict e.1) h).

Lemma last_verdict_app h h' :
  last_verdict (h ++ h') = match last_verdict h' with Some b => Some b | None => last_verdict h end.
Proof.
  unfold last_verdict. rewrite List.filter_app, last_app.
  destruct (last (List.filter _ h')); by simpl.
Qed.

Lemma last_verdict_none new :
  Forall (λ e : event, is_verdict e.1 = false) new → last_verdict new = None.
Proof. unfold last_verdict. induction 1 as [|e l He Hl IH]; simpl; [done|]. by rewrite He. Qed.

Lemma asks_not_verdict c : asks c = true → is_verdict c = false.
Proof.
  unfold asks, neutral. destruct (is_verdict c) eqn:E; [|done]. by destruct c.
Qed.

(** A frame without verdicts keeps the last one. *)
Lemma frame_verdict Q s h s' h' :
  (∀ c, Q c = true → is_verdict c = false) → frame Q s h s' h' → last_verdict h' = last_verdict h.
Proof.
  intros HQ (new & -> & Hn). rewrite last_verdict_app, last_verdict_none; [done|].
  eapply Forall_impl; [exact Hn|]. intros e. apply HQ.
Qed.

Section green.
Context `{FloatRepr, FloatParse} (w : world) (cfg : config).

(** A result and the trace it is returned with agree. *)
Definition honest (r : obj) (h' : trace) : Prop :=
  ∃ p, verdict_of p r ∧ (p = true → last_verdict h' = Some true).

Lemma run_process_run argv s h r s' h' :
  run_process w argv s h = (r, (s', h')) →
  h' = h ++ [(Subprocess argv, match r with Ok p => bool_decide (returncode p = 0%Z) | Raise _ => false end)].
Proof. unfold run_process, perform. by intros [= <- <- <-]. Qed.

Lemma last_verdict_snoc h c b : is_verdict c = true → last_verdict (h ++ [(c, b)]) = Some b.
Proof. intros Hc. rewrite last_verdict_app. unfold last_verdict. simpl. by rewrite Hc. Qed.

Lemma ladder_honest cmds attempts s h r s' h' :
  Forall (λ argv, is_verdict (Subprocess argv) = true) cmds →
  ladder w cmds attempts s h = (Ok r, (s', h')) → honest r h'.
Proof.
  intros Hc. revert attempts s h. induction Hc as [|argv cmds Hv Hc IH]; intros attempts s h; simpl.
  { intros [= <- <- <-]. exists false. split; [by_verdict|done]. }
  intros (o & s1 & h1 & Ho & E)%bind_ok.
  destruct o as [p|]; [|by eapply IH]. case_bool_decide as Hp; [|by eapply IH].
  injection E as <- <- <-. exists true. split; [by_verdict|]. intros _.
  unfold try_ in Ho. rewrite bind_run in Ho.
  destruct (run_process w argv s h) as [[p'|e] [s2 h2]] eqn:Er.
  - apply run_process_run in Er as ->. injection Ho as <- <- <-. rewrite last_verdict_snoc by done.
    by rewrite bool_decide_true.
  - by destruct (bool_decide _).
Qed.

Lemma apply_model_patch_honest st s h r s' h' :
  apply_model_patch_ver99 w st s h = (Ok r, (s', h')) → honest r h'.
Proof.
  unfold apply_model_patch_ver99. destruct (py_or _ _) as [| | | |patch| |]; try done.
  destruct (str_nonempty _); [|intros [= <- <- <-]; exists false; split; [by_verdict|done]].
  rewrite bind_observe. unfold finally_. rewrite bind_modify.
  destruct (ladder w _ _ _ _) as [r1 [s1 h1]] eqn:E. intros [= -> <- <-].
  eapply ladder_honest; [|exact E]. repeat constructor.
Qed.

Lemma run_tests_honest repo st s h r s' h' :
  run_tests w repo st s h = (Ok r, (s', h')) → honest r h'.
Proof.
  unfold run_tests. intros (u1 & s1 & h1 & _ & E)%bind_ok. rewrite bind_modify, bind_get in E.
  apply bind_ok in E as (u2 & s2 & h2 & _ & E). apply bind_ok in E as (p & s3 & h3 & Ep & E).
  apply run_process_run in Ep as ->. cbv zeta in E.
  exists (bool_decide (returncode p = 0%Z)).
  assert (is_verdict (Subprocess (pytest_argv repo)) = true) as Hv by done.
  destruct (bool_decide (returncode p = 0%Z)) eqn:Hp.
  - injection E as <- <- <-. split; [by_verdict|]. intros _. by rewrite last_verdict_snoc.
  - unfold lift in E. destruct (counted _ st) as [r'|e] eqn:Ec; [|done]. injection E as <- <- <-.
    split; [|done]. eapply counted_verdict; [|exact Ec]. by_verdict.
Qed.

Lemma apply_and_test_honest repo st s h r s' h' :
  apply_and_test w repo st s h = (Ok r, (s', h')) → honest r h'.
Proof.
  unfold apply_and_test. destruct (st !! "llm_result") as [lr|]; [|done].
  intros (infos & s1 & h1 & _ & E)%bind_ok. apply bind_ok in E as (fixes & s2 & h2 & _ & E).
  apply bind_ok in E as (groups & s3 & h3 & _ & E). destruct groups as [err|groups].
  - unfold lift in E. destruct (counted _ st) as [r'|e] eqn:Ec; [|done]. injection E as <- <- <-.
    exists false. split; [|done]. eapply counted_verdict; [apply rejected_verdict|exact Ec].
  - apply bind_ok in E as (o & s4 & h4 & _ & E). destruct o as [e|]; [|by eapply run_tests_honest].
    unfold lift in E. destruct (edit_failed st e) as [r'|e'] eqn:Ef; [|done]. injection E as <- <- <-.
    exists false. split; [|done]. by eapply edit_failed_verdict.
Qed.

(** The apply step ends in [_finalize]. *)
Lemma apply_step_run st s h u s' h' :
  apply_change_and_test w cfg st s h = (Ok u, (s', h')) →
  ∃ r s1 h1, honest r h1 ∧ finalize cfg st (dict r) s1 h1 = (Ok u, (s', h')).
Proof.
  unfold apply_change_and_test. intros (bug & s1 & h1 & _ & E)%bind_ok.
  apply bind_ok in E as (n & s2 & h2 & _ & E). apply bind_ok in E as (repo & s3 & h3 & _ & E).
  apply bind_ok in E as (v & s4 & h4 & _ & E). apply bind_ok in E as (r & s5 & h5 & Er & E).
  exists r, s5, h5. split; [|done].
  destruct v; [by eapply apply_model_patch_honest|by eapply apply_and_test_honest].
Qed.

Context (Hhooks : Courteous (default [] (hooks cfg))).

(** Green in the state means green on the trace. *)
Lemma apply_step_facts st s h u s' h' :
  apply_change_and_test w cfg st s h = (Ok u, (s', h')) →
  (u ∪ st) !! no_fix_key = st !! no_fix_key ∧
  (truthy (sget "test_passed" (u ∪ st)) = true → last_verdict h' = Some true).
Proof.
  intros (r & s5 & h5 & (p & [Hp Hs] & Hg) & E)%apply_step_run.
  pose proof (preserves_run _ _ _ _ _ _ _ (finalize_calm cfg Hhooks st (dict r)) E) as [Hf _].
  apply (frame_verdict _ _ _ _ _ asks_not_verdict) in Hf. rewrite Hf.
  pose proof (λ k Hk, finalize_control cfg Hhooks st (dict r) s5 h5 u s' h' k Hk E) as Hctl.
  split.
  - rewrite (Hctl no_fix_key) by (apply (bool_decide_unpack _); by vm_compute).
    rewrite lookup_union, dict_lookup, Hs by by left. by destruct (st !! no_fix_key).
  - unfold sget. rewrite (Hctl "test_passed") by (apply (bool_decide_unpack _); by vm_compute).
    rewrite lookup_union, dict_lookup, Hp. destruct (st !! "test_passed"); simpl; intros ->; by apply Hg.
Qed.

Ltac quiet_value :=
  intros; simplify_eq; repeat case_match; simplify_eq;
  first [done|apply dict_silent;
    first [by_keys|apply parse_trace_silent|by eapply mini_update_silent|by eapply branch_update_silent
          |by eapply judge_silent]].

Lemma action_returns_silent n st :
  n ≠ ReactLoop → n ≠ ApplyChangeAndTest → returns silent (action w cfg n st).
Proof.
  intros Hn Hn'. destruct n; try done; simpl;
    unfold precheck_already_fixed, Nodes.fetch_trace, parse_trace, fetch_source_file, mini_react_loop,
      create_fix_branch, code_review, reviewing, commit_change, wait_ci_result, create_mr, handle_failure;
    repeat walk_returns; quiet_value.
Qed.

(** No node but the ReAct loop writes the count of no-fix exits. *)
Lemma action_silent n st s h u s' h' :
  n ≠ ReactLoop → action w cfg n st s h = (Ok u, (s', h')) →
  (u ∪ st) !! no_fix_key = st !! no_fix_key.
Proof.
  intros Hn E. destruct (decide (n = ApplyChangeAndTest)) as [->|Hn'].
  - by apply apply_step_facts in E as [Hk _].
  - pose proof (action_returns_silent n st Hn Hn' _ _ _ _ _ E no_fix_key (or_introl eq_refl)) as Hs.
    rewrite lookup_union, Hs. by destruct (st !! no_fix_key).
Qed.

End green.
End GraphFacts.
