(* ===== verification/GraphSample.v ===== *)
(** * A concrete world

    A repository with one failing file, a model that submits a one-line fix, a
    test run and a pipeline that pass: the inputs at which the graph's theorems
    are instantiated, and a complete run computed on them. *)

From S2P Require Import Prelude PyStr Effects World ReactLoop Nodes ApplyTest Graph Agent.
Local Open Scope string_scope.
Local Open Scope list_scope.

Module GraphSample.
Import World ReactLoop Nodes ApplyTest Graph Agent.

Definition sample_repr : FloatRepr := λ _, "0.5".
Definition sample_parse : FloatParse := λ _, None.

Definition sample_trace : string :=
  "a.py:1: in f" +:+ nl +:+ "E   AssertionError: 1 != 2" +:+ nl +:+ "a.py:1: AssertionError".

Definition sample_fix : obj :=
  [("file_path", PStr "a.py"); ("line_number", PInt 1); ("original_line", PStr "x = 1");
   ("new_line", PStr "x = 2")].

Definition sample_reply : reply :=
  mkReply [mkCall "submit_fix" "c1" [("fixes", PList [PDict sample_fix]); ("confidence", PStr "high")]]
    (PStr "") (AssistantMsg PNone [("token_usage", PDict [("prompt_tokens", PInt 100);
                                                          ("completion_tokens", PInt 10)])]).

(** [ci] is what the pipeline reports; [green] whether the tests pass. *)
Definition sample_world (green : bool) (ci : option string) : world := mkWorld
  (λ h, inject_Z (Z.of_nat (List.length h)))
  (λ _, "")
  (λ _ f _, f)
  (λ p, p)
  (Some (λ _ _, Ok None))
  (λ _ _ _, Ok ["repo"])
  (λ _ _ _ _, inl sample_trace)
  (λ _ f _, match f !! "/repo/a.py" with Some t => inl t | None => inr FileNotFound end)
  (λ _ _ _ _, Ok "{}")
  (λ _ _ _ _ _, Ok (Some [("branch_name", PStr "auto/bf/1"); ("status", PStr "created")]))
  (λ _ _ _ _, inl [("status", PStr "pushed"); ("branch", PStr "auto/bf/1")])
  (λ _ _ _, inl ci)
  (λ _ _ _ _, inl [("status", PStr "created"); ("url", PStr "http://mr/1")])
  (λ argv _ _, Ok (mkProc (if green || negb (bool_decide (take 2 (drop 1 argv) = ["-m"; "pytest"]))
                           then 0 else 1)%Z "" ""))
  (λ _, Ok tt)
  (λ _ _ _, inl sample_reply)
  (λ _, "0123456789abcdef")
  (λ _, None)
  (λ _, None)
  (λ _ _ _, Ok (mkReport [] PNone))
  (λ _ _ _, Ok (mkMini PNone None))
  (λ _, "/tmp/x.patch").

Definition sample_config : config := mkConfig true "m" [] "" 137 None (Some []).
Definition sample_rs : rs := mkRs {[ "/repo/a.py" := "x = 1" ]} (Some (fresh_budget 0)).
Definition sample_input : BugInput := mkBugInput "1" "7" "http://p" "9" "main".

Definition sample_fix_run (green : bool) (ci : option string) :=
  @fix_bug sample_repr sample_parse (sample_world green ci) sample_config 0 "" ∅ sample_input
    sample_rs [].

Definition sample_initial : state := Agent.initial_state 0 sample_input.

(** The run of the graph alone, from an empty trace. *)
Definition sample_invoke : res state * (rs * trace) :=
  @invoke sample_repr sample_parse (sample_world true (Some "success")) sample_config ∅ sample_initial
    sample_rs [].

(** What a run reports, and the fixed file. *)
Definition summary (r : res FixOutput * (rs * trace)) :=
  (match r.1 with
   | Ok o => Some (outcome o, out_error o,
                   sget "review_url" (default ∅ (out_state o)), sget "llm_call_count" (default ∅ (out_state o)),
                   sget "fix_retry_count" (default ∅ (out_state o)))
   | Raise e => None
   end, files_of r.2.1 !! "/repo/a.py", List.length r.2.2).

(** The output of the successful run. *)
Definition sample_output : FixOutput :=
  match (sample_fix_run true (Some "success")).1 with
  | Ok o => o
  | Raise _ => mkFixOutput Errored "" PNone 0 None
  end.

Example green_run : summary (sample_fix_run true (Some "success")) =
  (Some (Fixed, PNone, PStr "http://mr/1", PInt 1, PInt 0), Some "x = 2", 14).
Proof. vm_compute. reflexivity. Qed.

(** Red tests: one revision is asked for, then the run gives up. *)
Example red_run : summary (sample_fix_run false (Some "success")) =
  (Some (Errored, PStr "workflow terminated in handle_failure", PNone, PInt 2, PInt 2), Some "x = 2", 11).
Proof. vm_compute. reflexivity. Qed.

Example red_pipeline : summary (sample_fix_run true (Some "failed")) =
  (Some (Errored, PStr "workflow terminated in handle_failure", PNone, PInt 1, PInt 0), Some "x = 2", 12).
Proof. vm_compute. reflexivity. Qed.

(** ** A restart from a checkpoint *)

Existing Instances sample_repr sample_parse.
Definition green_world : world := sample_world true (Some "success").

(** The state a checkpoint holds after [k] nodes, and the node that was to follow. *)
Fixpoint checkpoint (k : nat) (n : node) (st : state) : M rs (state * node) :=
  match k with
  | O => mret (st, n)
  | S k' =>
      r ← visit green_world sample_config n st;
      match r.2 with Some n' => checkpoint k' n' r.1 | None => mret (r.1, n) end
  end.

(** The worker dies after five nodes, when the model has submitted a fix. *)
Definition died : res (state * node) := (checkpoint 5 entry_point (merge_state ∅ sample_initial) sample_rs []).1.

(** The restarted run has that state, and makes every call of a run without one: it
    starts again at the entry point and asks the model again. *)
Example restart_starts_over :
  match died with
  | Ok (saved, n) =>
      n = CreateFixBranch ∧ negb (bool_decide (sget "llm_result" saved = PNone)) = true ∧
      end_trace (invoke green_world sample_config saved sample_initial sample_rs []) = end_trace sample_invoke ∧
      count_calls (λ c, match c with LlmInvoke _ => true | _ => false end) (end_trace sample_invoke) = 1%nat
  | Raise _ => False
  end.
Proof. vm_compute. split; [reflexivity|]. split; [reflexivity|]. split; reflexivity. Qed.

End GraphSample.
