(* ===== verification/GraphSpec.v ===== *)
(** * What a run of the graph guarantees

    Termination within the budget, no commit without green tests, no review
    without a green pipeline, and a bound on the requests to the model. *)

From S2P Require Import Prelude PyStr Effects World ReactLoop Nodes ApplyTest Graph.
From S2P Require Import GraphLaws GraphFrames ReactSpec GraphFacts GraphSample.
Local Open Scope string_scope.
Local Open Scope nat_scope.
Local Open Scope list_scope.

Module GraphSpec.
Import World ReactLoop Nodes ApplyTest Graph GraphLaws GraphFrames ReactSpec GraphFacts.

(** ** Routing *)

Definition successors (cfg : config) (n : node) : list node :=
  match edges cfg n with
  | Edge t => option_list t
  | ConditionalEdges _ targets => omap snd targets
  end.

(** Follows a routing function to the name it returns. *)
Ltac named_target Hr :=
  simplify_eq;
  first
    [ vm_compute; reflexivity
    | apply res_bind_ok in Hr as (? & _ & Hr); named_target Hr
    | case_match; named_target Hr ].

(** Whatever the state, a routing function that returns names one of the
    targets its edge declares, so the engine never meets an unknown name. *)
Theorem edges_closed (cfg : config) (n : node) (st : state) route targets (name : string) :
  edges cfg n = ConditionalEdges route targets → route st = Ok name → dict_has name targets = true.
Proof.
  destruct n; simpl; intros [= <- <-];
    unfold route_after_precheck, route_after_fetch_trace, route_after_mini_react_loop,
      route_after_parse_trace, route_after_react_loop, route_after_create_fix_branch,
      route_after_apply_and_test, route_after_code_review, route_after_ci;
    intros Hr; named_target Hr.
Qed.

Lemma edges_closed_witness :
  edges (mkConfig true "" [] "" 25 None None) ParseTrace =
    ConditionalEdges route_after_parse_trace
      [("fetch_source_file", Some FetchSourceFile); ("react_loop", Some ReactLoop)] ∧
  dict_has "react_loop" [("fetch_source_file", Some FetchSourceFile); ("react_loop", Some ReactLoop)] = true.
Proof.
  split; [reflexivity|].
  apply (edges_closed (mkConfig true "" [] "" 25 None None) ParseTrace (dict [])
           route_after_parse_trace _ "react_loop"); reflexivity.
Defined.

Lemma next_successor cfg n st n' : next cfg n st = Ok (Some n') → n' ∈ successors cfg n.
Proof.
  unfold next, successors. destruct (edges cfg n) as [t|route targets].
  - intros [= ->]. by apply list_elem_of_singleton.
  - intros (name & _ & Hd)%res_bind_ok. induction targets as [|[k t] targets IH]; simpl in *; [done|].
    destruct (decide _) as [->|]; simplify_eq; [by apply elem_of_cons; left|].
    specialize (IH Hd). destruct t; [by apply elem_of_cons; right|done].
Qed.

Lemma merge_lookup st u k : mem k BugFixState = true → merge_state st u !! k = (u ∪ st) !! k.
Proof.
  intros Hk. unfold merge_state. rewrite !lookup_union, map_lookup_filter.
  destruct (u !! k); simpl; [|done]. by rewrite option_guard_True.
Qed.

Section spec.
Context `{FloatRepr, FloatParse} (w : world) (cfg : config).

(** ** The engine as a step relation *)

(** The unlimited run: visit after visit until [END] or an exception. *)
Inductive runs : node → state → rs → trace → res state * (rs * trace) → Prop :=
| runs_end n st s h st' s' h' :
    visit w cfg n st s h = (Ok (st', None), (s', h')) → runs n st s h (Ok st', (s', h'))
| runs_raise n st s h e s' h' :
    visit w cfg n st s h = (Raise e, (s', h')) → runs n st s h (Raise e, (s', h'))
| runs_next n st s h st' n' s' h' out :
    visit w cfg n st s h = (Ok (st', Some n'), (s', h')) → runs n' st' s' h' out → runs n st s h out.

(** Configurations met on the way. *)
Inductive reach (n0 : node) (st0 : state) (s0 : rs) (h0 : trace) : node → state → rs → trace → Prop :=
| reach_start : reach n0 st0 s0 h0 n0 st0 s0 h0
| reach_step n st s h st' n' s' h' :
    reach n0 st0 s0 h0 n st s h → visit w cfg n st s h = (Ok (st', Some n'), (s', h')) →
    reach n0 st0 s0 h0 n' st' s' h'.

Lemma reach_cons n st s h st1 n1 s1 h1 n2 st2 s2 h2 :
  visit w cfg n st s h = (Ok (st1, Some n1), (s1, h1)) →
  reach n1 st1 s1 h1 n2 st2 s2 h2 → reach n st s h n2 st2 s2 h2.
Proof.
  intros Hv Hr. induction Hr as [|n3 st3 s3 h3 st4 n4 s4 h4 Hr IH Hv'].
  - eapply reach_step; [apply reach_start|exact Hv].
  - eapply reach_step; [exact IH|exact Hv'].
Qed.

(** How a limited run ends: at a configuration it reached, out of steps or with
    a last visit. *)
Lemma run_from_ends limit n st s h r s' h' :
  run_from w cfg limit n st s h = (r, (s', h')) →
  ∃ n1 st1 s1 h1, reach n st s h n1 st1 s1 h1 ∧
    ((r = Raise GraphRecursionError ∧ s' = s1 ∧ h' = h1) ∨
     (∃ e, r = Raise e ∧ visit w cfg n1 st1 s1 h1 = (Raise e, (s', h'))) ∨
     (∃ st', r = Ok st' ∧ visit w cfg n1 st1 s1 h1 = (Ok (st', None), (s', h')))).
Proof.
  revert n st s h. induction limit as [|limit IH]; intros n st s h; simpl.
  { intros [= <- <- <-]. exists n, st, s, h. split; [apply reach_start|by left]. }
  rewrite bind_run. destruct (visit w cfg n st s h) as [[[st1 [n1|]]|e] [s1 h1]] eqn:Ev; simpl.
  - intros (n2 & st2 & s2 & h2 & Hr & Hend)%IH. exists n2, st2, s2, h2.
    split; [|done]. by eapply reach_cons.
  - intros [= <- <- <-]. exists n, st, s, h. split; [apply reach_start|right; right; by eexists].
  - intros [= <- <- <-]. exists n, st, s, h. split; [apply reach_start|right; left; by eexists].
Qed.

Lemma visit_ok n st s h st' t s' h' :
  visit w cfg n st s h = (Ok (st', t), (s', h')) →
  ∃ u, action w cfg n st s h = (Ok u, (s', h')) ∧ st' = merge_state st u ∧ next cfg n st' = Ok t.
Proof.
  unfold visit. intros (u & s1 & h1 & Hu & E)%bind_ok. cbv zeta in E. rewrite bind_run in E.
  unfold lift in E. destruct (next cfg n (merge_state st u)) as [t'|e] eqn:En; [|done].
  injection E as <- <- <- <-. by exists u.
Qed.

Context (Hhooks : Courteous (default [] (hooks cfg))).

(** ** Accounts *)

Definition acts (n : node) (c : cmd) : bool := may n c || is_llm c.

Lemma acts_weaken {A} n (m : M rs A) : preserves (calm (may n)) m → preserves (calm (acts n)) m.
Proof.
  apply preserves_weaken. intros s h s' h'. apply calm_weaken. intros c. unfold acts. by intros ->.
Qed.

Lemma action_calm n st :
  n ≠ ReactLoop → preserves (calm (acts n)) (action w cfg n st).
Proof.
  intros Hn. destruct n; try done; simpl;
    try apply (apply_change_and_test_calm w cfg Hhooks);
    apply acts_weaken.
  - apply precheck_calm.
  - apply fetch_trace_calm.
  - apply parse_trace_calm.
  - apply fetch_source_file_calm.
  - apply mini_react_loop_calm.
  - apply create_fix_branch_calm.
  - apply code_review_calm.
  - apply commit_change_calm.
  - apply wait_ci_result_calm.
  - apply create_mr_calm.
  - apply handle_failure_calm.
Qed.

Lemma asks_acts c : asks c = true → acts ReactLoop c = true.
Proof. unfold asks, acts, may. simpl. by rewrite orb_false_r. Qed.

(** Every visit, with a budget: what it calls and what it spends. *)
Lemma visit_spends n st s h r s' h' b :
  budget_of s = Some b → visit w cfg n st s h = (r, (s', h')) →
  frame (acts n) s h s' h' ∧
  match r with Ok _ => spend 0 s h s' h' | Raise _ => spend 0 s h s' h' ∨ spend 1 s h s' h' end.
Proof.
  intros Hb. unfold visit. rewrite bind_run.
  assert (∀ r1 s1 h1, action w cfg n st s h = (r1, (s1, h1)) →
            frame (acts n) s h s1 h1 ∧
            match r1 with Ok _ => spend 0 s h s1 h1 | Raise _ => spend 0 s h s1 h1 ∨ spend 1 s h s1 h1 end)
    as Hact.
  { intros r1 s1 h1 E. destruct (decide (n = ReactLoop)) as [->|Hn].
    - simpl in E. apply (react_loop_spends w cfg Hhooks _ _ _ _ _ _ b Hb) in E. destruct r1 as [u|e].
      + destruct E as [[Hf Hs] _]. split; [|done]. destruct Hf as (new & -> & Hf). exists new. split; [done|].
        eapply Forall_impl; [exact Hf|]. intros ev. apply asks_acts.
      + destruct E as [Hf Hs]. split; [|done]. destruct Hf as (new & -> & Hf). exists new. split; [done|].
        eapply Forall_impl; [exact Hf|]. intros ev. apply asks_acts.
    - destruct (preserves_run _ _ _ _ _ _ _ (action_calm n st Hn) E) as [Hf Hs].
      split; [done|]. destruct r1; auto. }
  destruct (action w cfg n st s h) as [[u|e] [s1 h1]]; destruct (Hact _ _ _ eq_refl) as [Hf Hs].
  - cbv zeta. rewrite bind_run. unfold lift. destruct (next _ _ _); intros [= <- <- <-]; auto.
  - intros [= <- <- <-]. auto.
Qed.

(** ** Termination *)

Definition calls_left (s : rs) : nat :=
  match budget_of s with Some b => Z.to_nat (max_calls b - calls b) | None => 0 end.
(** How many more times the loop may report that it found no fix. *)
Definition exits_left (st : state) : nat :=
  match int_field "no_fix_retry_count" st with Ok z => Z.to_nat (2 - z) | Raise _ => 0 end.

(** An upper bound on the nodes still to run: between two ReAct loops there are
    at most three others. *)
Definition distance (n : node) (st : state) (s : rs) : nat :=
  let loops := 4 * (calls_left s + exits_left st) in
  match n with
  | HandleFailure | CreateMr => 1
  | WaitCiResult => 2
  | CommitChange => 3
  | ReactLoop => loops + 3
  | CodeReview | FetchSourceFile => loops + 4
  | ApplyChangeAndTest | ParseTrace => loops + 5
  | CreateFixBranch => loops + 6
  | MiniReactLoop => loops + 7
  | FetchTrace => loops + 8
  | PrecheckAlreadyFixed => loops + 9
  end.

Lemma calls_left_spend s h s' h' b :
  budget_of s = Some b → spend 0 s h s' h' → calls_left s' ≤ calls_left s.
Proof.
  intros Hb Hs. destruct (Hs b Hb) as (b' & Hb' & Hm & Hc & _). unfold calls_left.
  rewrite Hb, Hb', Hm. lia.
Qed.

Lemma calls_left_debited s h s' h' b :
  budget_of s = Some b → spend 0 s h s' h' → debited s s' → calls_left s' < calls_left s.
Proof.
  intros Hb Hs Hd. destruct (Hs b Hb) as (b' & Hb' & Hm & Hc & Hc' & _). unfold calls_left.
  specialize (Hd b b' Hb Hb'). rewrite Hb, Hb', Hm. lia.
Qed.

Lemma exits_left_silent n st s h u s' h' :
  n ≠ ReactLoop → action w cfg n st s h = (Ok u, (s', h')) → exits_left (merge_state st u) = exits_left st.
Proof.
  intros Hn E. unfold exits_left, int_field, sget.
  rewrite merge_lookup by done. 
  pose proof (action_silent w cfg Hhooks n st s h u s' h' Hn E) as Hk. unfold no_fix_key in Hk. by rewrite Hk.
Qed.

(** After the loop: fewer calls are left, or fewer exits. *)
Lemma react_decreases st s h st' n' s' h' b :
  budget_of s = Some b → visit w cfg ReactLoop st s h = (Ok (st', Some n'), (s', h')) →
  distance n' st' s' < distance ReactLoop st s.
Proof.
  intros Hb (u & E & -> & En)%visit_ok. simpl in E.
  apply (react_loop_spends w cfg Hhooks _ _ _ _ _ _ b Hb) in E as [[_ Hs] (z & Hz & Hrep)].
  pose proof (calls_left_spend _ _ _ _ _ Hb Hs) as Hle.
  assert (∀ k v, mem k BugFixState = true → u !! k = Some v → sget k (merge_state st u) = v) as Hget.
  { intros k v Hk Hu. unfold sget. rewrite merge_lookup by done. by rewrite lookup_union, Hu; destruct (st !! k). }
  unfold distance, exits_left. rewrite Hz. unfold next, edges, route_after_react_loop in En.
  destruct Hrep as [[Hr Hx]|(v & Hr & Hnone & Hx & Hd)];
    rewrite (Hget "llm_result" _ eq_refl Hr) in En; unfold int_field in *;
    rewrite (Hget "no_fix_retry_count" _ eq_refl Hx) in *.
  - simpl in En. destruct (via_gateway cfg); simpl in En; [|injection En as <-; lia].
    change (int_or_0 (PInt (z + 1))) with (py_int (py_or (PInt (z + 1)) (PInt 0))) in *.
    assert (py_int (py_or (PInt (z + 1)) (PInt 0)) = Ok (z + 1)%Z) as Ei.
    { unfold py_or. destruct (truthy (PInt (z + 1))) eqn:Et; [done|]. simpl in *.
      apply negb_false_iff, Z.eqb_eq in Et. by rewrite Et. }
    rewrite Ei in *. simpl in En. unfold NO_FIX_MAX_RETRIES in En.
    destruct (Z.leb_spec (z + 1) 1); simpl in En; injection En as <-; lia.
  - rewrite Hnone in En. pose proof (calls_left_debited _ _ _ _ _ Hb Hs Hd) as Hlt.
    assert (int_or_0 (PInt z) = Ok z) as Ei.
    { unfold int_or_0, py_or. destruct (truthy (PInt z)) eqn:Et; [done|]. simpl in *.
      apply negb_false_iff, Z.eqb_eq in Et. by rewrite Et. }
    rewrite Ei. destruct (truthy _); simpl in En; injection En as <-; lia.
Qed.

Lemma visit_decreases n st s h st' n' s' h' b :
  budget_of s = Some b → visit w cfg n st s h = (Ok (st', Some n'), (s', h')) →
  distance n' st' s' < distance n st s.
Proof.
  intros Hb Hv. destruct (decide (n = ReactLoop)) as [->|Hn]; [by eapply react_decreases|].
  destruct (visit_spends n st s h _ s' h' b Hb Hv) as [_ Hs].
  apply (calls_left_spend _ _ _ _ _ Hb) in Hs.
  apply visit_ok in Hv as (u & E & -> & En). apply next_successor in En.
  apply (exits_left_silent _ _ _ _ _ _ _ Hn) in E. unfold distance. rewrite E.
  destruct n; try done; simpl in En; repeat (apply elem_of_cons in En as [->|En]); try lia;
    by apply elem_of_nil in En.
Qed.

Lemma runs_within limit n st s h b :
  budget_of s = Some b → distance n st s ≤ limit → runs n st s h (run_from w cfg limit n st s h).
Proof.
  revert n st s h b. induction limit as [|limit IH]; intros n st s h b Hb Hd; [destruct n; simpl in Hd; lia|].
  simpl. rewrite bind_run. destruct (visit w cfg n st s h) as [[[st' [n'|]]|e] [s' h']] eqn:Ev; simpl.
  - destruct (visit_spends n st s h _ s' h' b Hb Ev) as [_ Hs].
    destruct (Hs b Hb) as (b' & Hb' & _). pose proof (visit_decreases _ _ _ _ _ _ _ _ _ Hb Ev).
    eapply runs_next; [exact Ev|]. apply (IH _ _ _ _ b'); [done|lia].
  - by apply runs_end.
  - by apply runs_raise.
Qed.

End spec.

(** ** Shipping *)

Definition commits : cmd → bool := is_method "commit_and_push".
Definition waits : cmd → bool := is_method "wait_ci_result".
Definition reviews : cmd → bool := is_method "create_review".

Section shipping.
Context `{FloatRepr, FloatParse} (w : world) (cfg : config).
Context (Hhooks : Courteous (default [] (hooks cfg))).

(** Every commit of the run comes after a green verdict, with no other verdict
    in between. *)
Definition green_commits (t : trace) : Prop :=
  ∀ p e q, t = p ++ e :: q → commits e.1 = true → last_verdict p = Some true.

(** A successful commit of a green tree. *)
Definition committed (t : trace) : Prop :=
  ∃ p c q, t = p ++ (c, true) :: q ∧ commits c = true ∧ last_verdict p = Some true.

(** A successful commit, then a wait that was told the pipeline succeeded. *)
Definition cleared (t : trace) : Prop :=
  ∃ p c q, t = p ++ (c, true) :: q ∧ waits c = true ∧ committed p ∧
    ∃ bug, w_wait_ci w bug (ci_timeout cfg) p = inl (Some "success").

(** Every review comes after that. *)
Definition cleared_reviews (t : trace) : Prop :=
  ∀ p e q, t = p ++ e :: q → reviews e.1 = true → cleared p.

(** What holds when the engine is about to run node [n], [t] being the calls of
    the run so far. *)
Definition ready (n : node) (t : trace) : Prop :=
  green_commits t ∧ cleared_reviews t ∧
  match n with
  | CodeReview | CommitChange => last_verdict t = Some true
  | WaitCiResult => committed t
  | CreateMr => cleared t
  | _ => True
  end.

Lemma committed_app t t' : committed t → committed (t ++ t').
Proof.
  intros (p & c & q & -> & Hc & Hv). exists p, c, (q ++ t'). by rewrite <- app_assoc.
Qed.

Lemma cleared_app t t' : cleared t → cleared (t ++ t').
Proof.
  intros (p & c & q & -> & Hc). exists p, c, (q ++ t'). by rewrite <- app_assoc.
Qed.

(** Where an event of an extended trace lies. *)
Lemma app_split {A} (t d p q : list A) e :
  t ++ d = p ++ e :: q →
  (∃ q', t = p ++ e :: q') ∨ (∃ d1 d2, p = t ++ d1 ∧ d = d1 ++ e :: d2).
Proof.
  revert p. induction t as [|x t IH]; intros p; simpl.
  - intros ->. right. by exists p, q.
  - destruct p as [|y p]; simpl; intros [= -> E]; [left; by exists t|].
    destruct (IH p E) as [(q' & ->)|(d1 & d2 & -> & ->)]; [left; by exists q'|right; by exists d1, d2].
Qed.

(** New calls that do not commit, or follow a green verdict and give no other. *)
Lemma green_commits_app t d :
  green_commits t →
  Forall (λ e : event, commits e.1 = false) d ∨
    (last_verdict t = Some true ∧ Forall (λ e : event, is_verdict e.1 = false) d) →
  green_commits (t ++ d).
Proof.
  intros Hg Hd p e q E Hc. apply app_split in E as [(q' & E)|(d1 & d2 & -> & ->)]; [by eapply Hg|].
  destruct Hd as [Hd|[Hv Hd]].
  - apply Forall_app in Hd as [_ Hd]. apply Forall_cons in Hd as [He _]. simpl in He. congruence.
  - apply Forall_app in Hd as [Hd _]. by rewrite last_verdict_app, last_verdict_none.
Qed.

Lemma cleared_reviews_app t d :
  cleared_reviews t → Forall (λ e : event, reviews e.1 = false) d ∨ cleared t →
  cleared_reviews (t ++ d).
Proof.
  intros Hg Hd p e q E Hc. apply app_split in E as [(q' & E)|(d1 & d2 & -> & ->)]; [by eapply Hg|].
  destruct Hd as [Hd|Hd]; [|by apply cleared_app].
  apply Forall_app in Hd as [_ Hd]. apply Forall_cons in Hd as [He _]. simpl in He. congruence.
Qed.

(** The calls of a node, by kind. *)
Lemma acts_kinds n c :
  acts n c = true →
  (n ≠ ApplyChangeAndTest → is_verdict c = false) ∧ (n ≠ CommitChange → commits c = false) ∧
  (n ≠ CreateMr → reviews c = false).
Proof.
  unfold acts, may, neutral, commits, reviews. intros Ha.
  destruct (is_verdict c) eqn:Ev.
  - destruct c; try done. by destruct n.
  - split; [done|]. destruct c; try by split. simpl in Ha |- *.
    destruct n; simpl in Ha; split; intros; repeat case_bool_decide; subst; simpl in *; done.
Qed.

Lemma retry_call_ok {A} method args (f : files → trace → A + io_exn) s h v s' h' :
  retry_call w method args f s h = (Ok v, (s', h')) →
  ∃ failed, h' = h ++ failed ++ [(ProviderCall method args, true)] ∧
    Forall (λ e : event, e.1 = ProviderCall method args) failed ∧ f (files_of s) (h ++ failed) = inl v.1.
Proof.
  unfold retry_call, retry_attempts. intros (o & s1 & h1 & Ho & E)%bind_ok.
  destruct (attempt_loop_spec (λ i, f (files_of s) (h ++ repeat (ProviderCall method args, false) i))
              method DEFAULT_RETRY_DELAYS 3 0 []) as (k & _ & _ & Hs & Hp); [done|lia|].
  change (attempt_loop _ method DEFAULT_RETRY_DELAYS 3 0 0 [])
    with (with_transient_retry (λ i, f (files_of s) (h ++ repeat (ProviderCall method args, false) i))
            method DEFAULT_RETRY_DELAYS) in Hs, Hp.
  destruct (with_transient_retry _ method DEFAULT_RETRY_DELAYS) as [o' sleeps]. simpl in *.
  rewrite Nat.sub_0_r in Hp. assert (List.length sleeps = k) as Hlen by (rewrite Hp, length_map, length_seq; done).
  injection Ho as <- <- <-. destruct o' as [v' k'|e]; [|done]. injection E as <- <- <-.
  inversion Hs as [? Hf|]; subst k' v'.
  exists (repeat (ProviderCall method args, false) k). rewrite Hlen, <- app_assoc. split; [done|].
  split; [|done]. clear. induction k; simpl; by constructor.
Qed.

(** A node that ends in one retried call of a method, after others of other
    kinds. *)
Lemma frame_verdicts n d :
  n ≠ ApplyChangeAndTest → Forall (λ e : event, acts n e.1 = true) d →
  Forall (λ e : event, is_verdict e.1 = false) d.
Proof.
  intros Hn Hd. eapply Forall_impl; [exact Hd|]. intros e He. apply (acts_kinds n) in He as [He _]; by apply He.
Qed.

(** What any visit leaves of the guarantees, however it ends. *)
Lemma visit_guarded n st s h r s' h' b :
  budget_of s = Some b → ready n h → visit w cfg n st s h = (r, (s', h')) →
  ∃ d, h' = h ++ d ∧ Forall (λ e : event, acts n e.1 = true) d ∧ green_commits h' ∧ cleared_reviews h'.
Proof.
  intros Hb (Hg & Hr & Hn) Hv.
  destruct (visit_spends w cfg Hhooks n st s h r s' h' b Hb Hv) as [(d & -> & Hd) _].
  exists d. split; [done|]. split; [done|]. split.
  - apply green_commits_app; [done|]. destruct (decide (n = CommitChange)) as [->|Hne].
    + right. split; [done|]. by apply (frame_verdicts CommitChange).
    + left. eapply Forall_impl; [exact Hd|]. intros e He. apply acts_kinds in He as (_ & He & _); by apply He.
  - apply cleared_reviews_app; [done|]. destruct (decide (n = CreateMr)) as [->|Hne]; [by right|].
    left. eapply Forall_impl; [exact Hd|]. intros e He. apply acts_kinds in He as (_ & _ & He); by apply He.
Qed.

(** The commit that a visit of [CommitChange] makes. *)
Lemma commit_step_facts st s h u s' h' :
  last_verdict h = Some true → commit_change w st s h = (Ok u, (s', h')) → committed h'.
Proof.
  intros Hv. unfold commit_change. intros (bug & s1 & h1 & Hbug & E)%bind_ok.
  injection Hbug as _ <- <-. apply bind_ok in E as (repo & s2 & h2 & Hrepo & E).
  unfold ensure_repo_ready, provider_call, perform in Hrepo. injection Hrepo as _ _ <-.
  apply bind_ok in E as (v & s3 & h3 & Hc & E). injection E as _ _ <-.
  apply retry_call_ok in Hc as (failed & -> & Hf & _).
  eexists _, _, []. split; [by rewrite app_assoc|]. split; [done|].
  rewrite last_verdict_app, last_verdict_none; [|eapply Forall_impl; [exact Hf|]; by intros e ->].
  by rewrite last_verdict_app.
Qed.

Lemma wait_writes_status st s h u s' h' :
  wait_ci_result w cfg st s h = (Ok u, (s', h')) → ∃ x, u !! "ci_status" = Some (PStr x).
Proof.
  unfold wait_ci_result. intros (bug & s1 & h1 & _ & E)%bind_ok.
  apply bind_ok in E as (v & s3 & h3 & _ & E). apply bind_ok in E as (v99 & s4 & h4 & _ & E).
  injection E as <- _ _. rewrite lookup_insert_eq. destruct (v.1); by eexists.
Qed.

(** What a wait that ends in success was told. *)
Lemma wait_step_facts st s h u s' h' :
  committed h → wait_ci_result w cfg st s h = (Ok u, (s', h')) →
  u !! "ci_status" = Some (PStr "success") → cleared h'.
Proof.
  intros Hcm. unfold wait_ci_result. intros (bug & s1 & h1 & Hbug & E)%bind_ok.
  injection Hbug as _ <- <-. apply bind_ok in E as (v & s3 & h3 & Hc & E).
  apply bind_ok in E as (v99 & s4 & h4 & Hv & E). injection Hv as _ <- <-. injection E as <- _ <-.
  apply retry_call_ok in Hc as (failed & -> & _ & Hreply). rewrite lookup_insert_eq.
  intros [= Hs]. eexists (h ++ failed), _, []. split; [by rewrite app_assoc|]. split; [done|].
  split; [by apply committed_app|]. exists bug. rewrite Hreply. destruct (v.1) as [x|]; [|done].
  by injection Hs as ->.
Qed.

(** The guarantees follow the engine from node to node. *)
Lemma visit_ready n st s h st' n' s' h' b :
  budget_of s = Some b → ready n h → visit w cfg n st s h = (Ok (st', Some n'), (s', h')) → ready n' h'.
Proof.
  intros Hb Hready Hv. pose proof Hready as (_ & _ & Hn).
  destruct (visit_guarded n st s h _ s' h' b Hb Hready Hv) as (d & -> & Hd & Hg & Hr).
  split; [done|]. split; [done|].
  apply visit_ok in Hv as (u & E & -> & En). pose proof (next_successor _ _ _ _ En) as Hs.
  destruct n; simpl in Hs; repeat (apply elem_of_cons in Hs as [->|Hs]); try done;
    try (by apply elem_of_nil in Hs); simpl in E.
  - (* tests -> review *)
    apply (apply_step_facts w cfg Hhooks) in E as [_ Hgreen]. apply Hgreen.
    unfold next, edges in En. simpl in En. unfold route_after_apply_and_test, sget in En.
    unfold sget. rewrite merge_lookup in En by done. destruct (truthy _); [done|].
    apply res_bind_ok in En as (name & En & Hd'). apply res_bind_ok in En as (v & _ & En).
    destruct v; [by injection En as <-|]. apply res_bind_ok in En as (again & _ & [= <-]). by destruct again.
  - (* review -> commit *)
    rewrite last_verdict_app, last_verdict_none; [done|]. by apply (frame_verdicts CodeReview).
  - (* commit -> wait *) by eapply commit_step_facts.
  - (* wait -> review request *)
    pose proof E as E'. eapply wait_step_facts in E; [exact E|done|].
    unfold next, edges, route_after_ci in En. simpl in En.
    destruct (py_eqb (sget "ci_status" (merge_state st u)) (PStr "success")) eqn:Eq; [|done].
    unfold sget in Eq. rewrite merge_lookup in Eq by done. rewrite lookup_union in Eq.
    apply wait_writes_status in E' as (x & Hx). rewrite Hx in Eq |- *.
    destruct (st !! "ci_status"); simpl in Eq; by apply bool_decide_eq_true_1 in Eq as ->.
Qed.

Lemma ready_nil : ready entry_point [].
Proof. split; [|split; [|done]]; intros p e q E; by destruct p. Qed.

Lemma reach_ready n0 st0 s0 h0 b0 n st s h :
  budget_of s0 = Some b0 → ready n0 h0 → reach w cfg n0 st0 s0 h0 n st s h →
  ready n h ∧ ∃ b, budget_of s = Some b ∧ spend 0 s0 h0 s h.
Proof.
  intros Hb Hready Hr. induction Hr as [|n st s h st' n' s' h' Hr (IH & b & Hb' & Hsp) Hv].
  - split; [done|]. exists b0. split; [done|apply chain_refl].
  - split; [by eapply visit_ready|].
    destruct (visit_spends w cfg Hhooks n st s h _ s' h' b Hb' Hv) as [_ Hs].
    destruct (Hs b Hb') as (b' & Hb'' & _). exists b'. split; [done|]. by eapply chain_trans.
Qed.

(** A run's end: the guarantees, and the accounts with at most one call open. *)
Lemma run_guarded_end limit n st s h r s' h' b :
  budget_of s = Some b → ready n h → run_from w cfg limit n st s h = (r, (s', h')) →
  green_commits h' ∧ cleared_reviews h' ∧ (spend 0 s h s' h' ∨ is_ok r = false ∧ spend 1 s h s' h').
Proof.
  intros Hb Hready Hrun.
  destruct (run_from_ends w cfg _ _ _ _ _ _ _ _ Hrun) as (n1 & st1 & s1 & h1 & Hr & Hend).
  destruct (reach_ready _ _ _ _ _ _ _ _ _ Hb Hready Hr) as (Hready1 & b1 & Hb1 & Hs1).
  assert (∀ r1, visit w cfg n1 st1 s1 h1 = (r1, (s', h')) →
            green_commits h' ∧ cleared_reviews h' ∧
            (spend 0 s h s' h' ∨ is_ok r1 = false ∧ spend 1 s h s' h')) as Hlast.
  { intros r1 Hv. destruct (visit_guarded _ _ _ _ _ _ _ _ Hb1 Hready1 Hv) as (d & -> & _ & Hg & Hr').
    split; [done|]. split; [done|].
    destruct (visit_spends w cfg Hhooks _ _ _ _ _ _ _ _ Hb1 Hv) as [_ Hs]. destruct r1.
    - left. by eapply spend_then.
    - destruct Hs; [left|right; split; [done|]]; by eapply spend_then. }
  destruct Hend as [(-> & -> & ->)|[(e & -> & Hv)|(st' & -> & Hv)]];
    [|by apply (Hlast (Raise e))|by apply (Hlast (Ok (st', None)))].
  destruct Hready1 as (Hg & Hr' & _). auto.
Qed.

End shipping.

(** C2: a run stops by itself.  With a budget of [max_calls] model calls and a
    fresh count of no-fix exits, the engine runs at most [4 * (calls left + 2) +
    9] nodes whatever the provider, the model, the tests and well-behaved hooks
    do; so with at least that recursion limit (137 for the default budget) the
    run is the unlimited run of the graph. *)
Theorem graph_terminates `{FloatRepr, FloatParse} (w : world) (cfg : config)
    (saved initial : state) (s : rs) (h : trace) (b : RunBudget) :
  Courteous (default [] (hooks cfg)) → budget_of s = Some b →
  sget "no_fix_retry_count" (merge_state saved initial) = PNone →
  (4 * Z.max 0 (max_calls b - calls b) + 17 ≤ Z.of_nat (recursion_limit cfg))%Z →
  runs w cfg entry_point (merge_state saved initial) s h (invoke w cfg saved initial s h).
Proof.
  intros Hhooks Hb Hfresh Hlimit. apply (runs_within w cfg Hhooks _ _ _ _ _ b Hb).
  unfold distance, entry_point, calls_left, exits_left, int_field. rewrite Hb, Hfresh. simpl. lia.
Qed.

Lemma graph_terminates_witness :
  @runs GraphSample.sample_repr GraphSample.sample_parse
    (GraphSample.sample_world false None) GraphSample.sample_config entry_point
    (merge_state ∅ GraphSample.sample_initial) GraphSample.sample_rs []
    (@invoke GraphSample.sample_repr GraphSample.sample_parse
       (GraphSample.sample_world false None) GraphSample.sample_config ∅ GraphSample.sample_initial
       GraphSample.sample_rs []).
Proof.
  unfold GraphSample.sample_rs. eapply graph_terminates.
  - apply no_hooks_courteous.
  - reflexivity.
  - reflexivity.
  - vm_compute. discriminate.
Defined.

(** C8: nothing is committed without a green verdict.  In a run of the graph with a
    budget and well-behaved hooks, which neither test, commit, wait for CI nor open a
    review and leave the keys that steer the graph alone, every [commit_and_push] is
    preceded, in the same run, by a test run (or, for a model patch, a [git
    apply]/[patch]) that exited with 0, with no failing one in between, whatever the
    model and the provider do and however the run ends.  A run that finds a checkpoint
    starts again at the entry point with the saved values below its own; that it would
    go on at the node that was to follow, as the README has it, is not what the code
    does. *)
Theorem commits_only_green `{FloatRepr, FloatParse} (w : world) (cfg : config)
    (saved initial : state) (s : rs) (b : RunBudget) r s' (h p q : trace) (e : event) :
  Courteous (default [] (hooks cfg)) → budget_of s = Some b →
  invoke w cfg saved initial s [] = (r, (s', h)) →
  h = p ++ e :: q → is_method "commit_and_push" e.1 = true → last_verdict p = Some true.
Proof.
  intros Hhooks Hb Hrun. unfold invoke in Hrun.
  destruct (run_guarded_end w cfg Hhooks _ _ _ _ _ _ _ _ _ Hb (ready_nil w cfg) Hrun) as [Hg _].
  apply Hg.
Qed.

(** The tenth event of the sample run is its commit. *)
Lemma commits_only_green_witness :
  last_verdict (take 10 (snd (snd GraphSample.sample_invoke))) = Some true.
Proof.
  assert (∀ A B C (x : A * (B * C)), x = (x.1, (x.2.1, x.2.2))) as Heta by by intros A B C [a [b c]].
  eapply (@commits_only_green GraphSample.sample_repr GraphSample.sample_parse
    (GraphSample.sample_world true (Some "success")) GraphSample.sample_config ∅ GraphSample.sample_initial
    GraphSample.sample_rs (fresh_budget 0) _ _ _ _
    (drop 11 (snd (snd GraphSample.sample_invoke)))
    (ProviderCall "commit_and_push" ["/repo"; "ci_agent: auto-fix bug 1"], true)).
  - apply no_hooks_courteous.
  - reflexivity.
  - apply (Heta _ _ _ GraphSample.sample_invoke).
  - vm_compute. reflexivity.
  - reflexivity.
Defined.

(** C9: no review is opened without a green pipeline.  In a run of the graph with a
    budget and well-behaved hooks, as for the commits, every [create_review] comes
    after a [wait_ci_result] that the provider answered with success, itself after a
    successful commit of a green tree, all in the same run, one that found a
    checkpoint included, which starts again at the entry point and not, as the README
    has it, at the node that was to follow. *)
Theorem reviews_only_cleared `{FloatRepr, FloatParse} (w : world) (cfg : config)
    (saved initial : state) (s : rs) (b : RunBudget) r s' (h p q : trace) (e : event) :
  Courteous (default [] (hooks cfg)) → budget_of s = Some b →
  invoke w cfg saved initial s [] = (r, (s', h)) →
  h = p ++ e :: q → is_method "create_review" e.1 = true → cleared w cfg p.
Proof.
  intros Hhooks Hb Hrun. unfold invoke in Hrun.
  destruct (run_guarded_end w cfg Hhooks _ _ _ _ _ _ _ _ _ Hb (ready_nil w cfg) Hrun) as (_ & Hr & _).
  apply Hr.
Qed.

Lemma reviews_only_cleared_witness :
  @cleared (GraphSample.sample_world true (Some "success")) GraphSample.sample_config
    (take 13 (snd (snd GraphSample.sample_invoke))).
Proof.
  assert (∀ A B C (x : A * (B * C)), x = (x.1, (x.2.1, x.2.2))) as Heta by by intros A B C [a [b c]].
  eapply (@reviews_only_cleared GraphSample.sample_repr GraphSample.sample_parse
    (GraphSample.sample_world true (Some "success")) GraphSample.sample_config ∅ GraphSample.sample_initial
    GraphSample.sample_rs (fresh_budget 0) _ _ _ _
    (drop 14 (snd (snd GraphSample.sample_invoke)))
    (ProviderCall "create_review" ["/repo"], true)).
  - apply no_hooks_courteous.
  - reflexivity.
  - apply (Heta _ _ _ GraphSample.sample_invoke).
  - vm_compute. reflexivity.
  - reflexivity.
Defined.

End GraphSpec.
