(* ===== verification/AgentSpec.v ===== *)
(** * What the agent's answer means

    A run that answers [Fixed] has committed a green tree, seen the pipeline
    succeed and opened a review; and no run asks the model more often than the
    budget allows. *)

From S2P Require Import Prelude PyStr Effects World ReactLoop Nodes ApplyTest Graph.
From S2P Require Import Agent GraphLaws GraphFrames ReactSpec GraphFacts GraphSample GraphSpec.
Local Open Scope string_scope.
Local Open Scope nat_scope.
Local Open Scope list_scope.

Module AgentSpec.
Import World ReactLoop Nodes ApplyTest Graph Agent GraphLaws GraphFrames ReactSpec GraphFacts GraphSpec.

Section spec.
Context `{FloatRepr, FloatParse} (w : world) (cfg : config) (workflow_ver : Z).
Context (Hhooks : Courteous (default [] (hooks cfg))).

Lemma run_callbacks_ok l st s h : ∃ st' s' h', run_callbacks l st s h = (Ok st', (s', h')).
Proof.
  revert st s h. induction l as [|fn l IH]; intros st s h; simpl; [by eexists _, _, _|].
  rewrite bind_run. unfold try_. destruct (fn st s h) as [[u|e] [s1 h1]]; apply IH.
Qed.

Lemma registry_calm name st : preserves (calm asks) (run_hooks name (registry cfg) st).
Proof. apply run_callbacks_calm, callbacks_courteous, Hhooks. Qed.

Lemma registry_control name st s h st' s' h' k :
  k ∈ control_keys → run_hooks name (registry cfg) st s h = (Ok st', (s', h')) → st' !! k = st !! k.
Proof. intros Hk. apply run_callbacks_control; [apply callbacks_courteous, Hhooks|done]. Qed.

(** Calls that neither commit nor open a review leave a trace ready for a run. *)
Lemma asks_kinds c : asks c = true → commits c = false ∧ reviews c = false ∧ is_verdict c = false.
Proof.
  intros Hc. pose proof (asks_acts c Hc) as Ha. apply (acts_kinds ReactLoop) in Ha as (H1 & H2 & H3).
  split; [by apply H2|]. split; [by apply H3|by apply H1].
Qed.

Lemma ready_after_hooks new : Forall (λ e : event, asks e.1 = true) new → ready w cfg entry_point new.
Proof.
  intros Hn. split; [|split; [|done]]; intros p e q -> Hc;
    apply Forall_app in Hn as [_ Hn]; apply Forall_cons in Hn as [He _];
    apply asks_kinds in He as (H1 & H2 & _); unfold commits, reviews in *; congruence.
Qed.

(** How [fix] goes: hooks, the graph, and, when it ends, hooks again. *)
Lemma fix_bug_run max_cost saved i s o s' h' :
  fix_bug w cfg workflow_ver max_cost saved i s [] = (o, (s', h')) →
  ∃ b st0 s1 h1 r s2 h2,
    calls b = 0%Z ∧ max_calls b = DEFAULT_MAX_CALLS ∧
    budget_of (with_budget b s) = Some b ∧ calm asks (with_budget b s) [] s1 h1 ∧
    invoke w cfg saved st0 s1 h1 = (r, (s2, h2)) ∧
    match r with
    | Raise e => o = Ok (mkFixOutput Errored (in_bug_id i) (PStr (exn_msg e)) 0 None) ∧ s' = s2 ∧ h' = h2
    | Ok st => calm asks s2 h2 s' h' ∧
        ∀ out, o = Ok out → ∃ st', outcome out = outcome_of st' ∧
          sget "error" st' = sget "error" st ∧ sget "already_fixed" st' = sget "already_fixed" st
    end.
Proof.
  unfold fix_bug. unfold now at 1. rewrite bind_observe. cbv zeta. rewrite bind_modify.
  match goal with |- context [with_budget ?b' s] => set (b := b') end.
  rewrite bind_run.
  destruct (run_callbacks_ok (callbacks AGENT_PRE_FIX (registry cfg)) (initial_state workflow_ver i)
              (with_budget b s) []) as (st0 & s1 & h1 & Epre).
  pose proof (preserves_run _ _ _ _ _ _ _ (registry_calm AGENT_PRE_FIX _) Epre) as Hpre.
  unfold run_hooks at 1. rewrite Epre, bind_run. unfold try_. rewrite bind_run.
  destruct (invoke w cfg saved st0 s1 h1) as [r [s2 h2]] eqn:Er. intros E.
  exists b, st0, s1, h1, r, s2, h2. split_and!; try done.
  destruct r as [st|e]; [|by injection E as <- <- <-].
  unfold snapshot, now in E. unfold mret at 1, M_ret at 1 in E. cbv iota in E.
  rewrite bind_run in E. rewrite bind_get, bind_observe in E.
  unfold mret at 1, M_ret at 1 in E. cbv iota beta in E. rewrite bind_run in E.
  set (st1 := match budget_of s2 with Some b' => _ | None => st end) in E.
  assert (∀ k, k ∈ control_keys → st1 !! k = st !! k) as Hst1.
  { intros k Hk. unfold st1. destruct (budget_of s2); [|done]. apply lookup_insert_ne. intros <-.
    revert Hk. apply (bool_decide_unpack (_ ∉ _)). by vm_compute. }
  destruct (run_callbacks_ok (callbacks AGENT_POST_FIX (registry cfg)) st1 s2 h2) as (st2 & s3 & h3 & Epost).
  pose proof (preserves_run _ _ _ _ _ _ _ (registry_calm AGENT_POST_FIX _) Epost) as Hpost.
  unfold run_hooks in E. rewrite Epost in E. unfold output in E. rewrite bind_run in E.
  assert (∀ k, k ∈ control_keys → sget k st2 = sget k st) as Hst2.
  { intros k Hk. unfold sget. rewrite <- (Hst1 k Hk). f_equal.
    by apply (registry_control AGENT_POST_FIX st1 s2 h2 st2 s3 h3 k Hk). }
  unfold lift in E. destruct (int_field "fix_retry_count" st2); injection E as <- <- <-.
  - split; [done|]. intros out [= <-]. exists st2. split; [done|].
    split; apply Hst2; apply (bool_decide_unpack _); by vm_compute.
  - by split.
Qed.

(** A visit that ends the run without an error and without a fix found merged
    has opened a review. *)
Lemma last_visit n st s h st' s' h' :
  ready w cfg n h → visit w cfg n st s h = (Ok (st', None), (s', h')) →
  truthy (sget "error" st') = false → truthy (sget "already_fixed" st') = false →
  ∃ p c q, h' = p ++ (c, true) :: q ∧ reviews c = true ∧ cleared w cfg p.
Proof.
  intros (_ & _ & Hn) Hv Herr Hal. apply visit_ok in Hv as (u & E & Hst & En).
  unfold next in En. destruct n; simpl in En, E; try done;
    unfold route_after_precheck, route_after_fetch_trace, route_after_mini_react_loop,
      route_after_parse_trace, route_after_react_loop, route_after_create_fix_branch,
      route_after_apply_and_test, route_after_code_review, route_after_ci in En;
    try rewrite Hal in En; simpl in En;
    repeat first [done | apply res_bind_ok in En as (? & ? & En) | case_match]; simplify_eq; try done.
  - unfold create_mr in E. apply bind_ok in E as (bug & s1 & h1 & Hbug & E).
    injection Hbug as _ <- <-. apply bind_ok in E as (repo & s2 & h2 & Hrepo & E).
    unfold ensure_repo_ready, provider_call, perform in Hrepo. injection Hrepo as _ _ <-.
    apply bind_ok in E as (v & s3 & h3 & Hc & E). injection E as _ _ <-.
    apply retry_call_ok in Hc as (failed & -> & _ & _).
    eexists _, _, []. split; [by rewrite app_assoc|]. split; [done|]. by do 2 apply cleared_app.
  - exfalso. unfold handle_failure in E. injection E as <- _ _.
    unfold sget in Herr. rewrite merge_lookup in Herr by done.
    rewrite lookup_union, lookup_insert_eq in Herr.
    set (v := py_or _ (PStr _)) in Herr.
    assert (∀ x, truthy (py_or x (PStr "workflow terminated in handle_failure")) = true) as Ht.
    { intros x. unfold py_or. by destruct (truthy x) eqn:Ev. }
    specialize (Ht (default PNone (st !! "error"))). fold v in Ht. clearbody v.
    destruct (st !! "error"); simpl in Herr; congruence.
Qed.

End spec.

(** C1: an answer of [Fixed] means a shipped fix.  When [fix] answers [Fixed],
    its run made a successful [create_review], before it a [wait_ci_result] that
    reported success, before it a successful [commit_and_push], and before it a
    green test verdict with no other verdict in between, all of them in this very run,
    whatever the provider and the model do.  The hooks of the enhancements are
    well-behaved: they neither test, commit, wait for CI nor open a review, and leave
    the keys that steer the graph alone.  A run that finds a checkpoint is one of
    these runs: unlike what the README says, it does not go on at the node that was to
    follow but starts again at the entry point, with the saved values below its own. *)
Theorem fixed_means_shipped `{FloatRepr, FloatParse} (w : world) (cfg : config) (workflow_ver : Z)
    (max_cost : string) (saved : state) (i : BugInput) (s s' : rs) (out : FixOutput) (h : trace) :
  Courteous (default [] (hooks cfg)) →
  fix_bug w cfg workflow_ver max_cost saved i s [] = (Ok out, (s', h)) → outcome out = Fixed →
  ∃ p c q, h = p ++ (c, true) :: q ∧ reviews c = true ∧ cleared w cfg p.
Proof.
  intros Hhooks Hrun Hfixed.
  destruct (fix_bug_run w cfg workflow_ver Hhooks _ _ _ _ _ _ _ Hrun)
    as (b & st0 & s1 & h1 & r & s2 & h2 & _ & _ & Hb & [(new & -> & Hnew) Hsp] & Hinv & Hr).
  destruct r as [st|e]; [|by destruct Hr as ([= ->] & _)].
  destruct Hr as [[(post & -> & _) _] Hout]. destruct (Hout out eq_refl) as (st' & Hoc & He & Ha).
  rewrite Hfixed in Hoc. unfold outcome_of in Hoc. rewrite He, Ha in Hoc.
  destruct (truthy (sget "error" st)) eqn:Eerr; [done|].
  destruct (truthy (sget "already_fixed" st)) eqn:Eal; [done|].
  unfold invoke in Hinv. destruct (Hsp b Hb) as (b1 & Hb1 & _).
  destruct (run_from_ends w cfg _ _ _ _ _ _ _ _ Hinv) as (n1 & st1 & s3 & h3 & Hreach & Hend).
  destruct (reach_ready w cfg Hhooks _ _ _ _ _ _ _ _ _ Hb1 (ready_after_hooks w cfg _ Hnew) Hreach)
    as [Hready _].
  destruct Hend as [(? & _)|[(e & ? & _)|(st'' & [= <-] & Hv)]]; [done..|].
  destruct (last_visit w cfg n1 st1 s3 h3 st s2 h2 Hready Hv Eerr Eal) as (p & c & q & -> & Hc & Hcl).
  exists p, c, (q ++ post). by rewrite <- app_assoc.
Qed.

Lemma fixed_means_shipped_witness :
  ∃ p c q, snd (snd (GraphSample.sample_fix_run true (Some "success"))) = p ++ (c, true) :: q ∧
    reviews c = true ∧
    @cleared (GraphSample.sample_world true (Some "success")) GraphSample.sample_config p.
Proof.
  assert (∀ A B C (x : A * (B * C)) a, x.1 = a → x = (a, (x.2.1, x.2.2))) as Heta
    by by intros A B C [a [b c]] a' <-.
  eapply (@fixed_means_shipped GraphSample.sample_repr GraphSample.sample_parse
    (GraphSample.sample_world true (Some "success")) GraphSample.sample_config 0 "" ∅
    GraphSample.sample_input GraphSample.sample_rs _ GraphSample.sample_output).
  - apply no_hooks_courteous.
  - apply (Heta _ _ _ (GraphSample.sample_fix_run true (Some "success"))). vm_compute. reflexivity.
  - vm_compute. reflexivity.
Defined.

(** C10: however a run of [fix] goes and ends, the ReAct loop and well-behaved
    enhancements together get at most [DEFAULT_MAX_CALLS] answers from the
    model, and the loop sends it at most three times as many requests. *)
Theorem fix_within_budget `{FloatRepr, FloatParse} (w : world) (cfg : config) (workflow_ver : Z)
    (max_cost : string) (saved : state) (i : BugInput) (s s' : rs) (o : res FixOutput) (h : trace) :
  Courteous (default [] (hooks cfg)) →
  fix_bug w cfg workflow_ver max_cost saved i s [] = (o, (s', h)) →
  (answered h ≤ DEFAULT_MAX_CALLS ∧ asked h ≤ 3 * DEFAULT_MAX_CALLS)%Z.
Proof.
  intros Hhooks Hrun.
  destruct (fix_bug_run w cfg workflow_ver Hhooks _ _ _ _ _ _ _ Hrun)
    as (b & st0 & s1 & h1 & r & s2 & h2 & Hc0 & Hm & Hb & [(new & -> & Hnew) Hsp] & Hinv & Hr).
  unfold invoke in Hinv. destruct (Hsp b Hb) as (b1 & Hb1 & _).
  destruct (run_guarded_end w cfg Hhooks _ _ _ _ _ _ _ _ _ Hb1 (ready_after_hooks w cfg _ Hnew) Hinv)
    as (_ & _ & Hend).
  assert (spend 0 (with_budget b s) [] s' h ∨ spend 1 (with_budget b s) [] s' h) as Hfin.
  { destruct r as [st|e].
    - destruct Hr as [[_ Hpost] _]. destruct Hend as [Hend|[? _]]; [|done]. left.
      eapply spend_then; [exact Hsp|]. by eapply spend_then.
    - destruct Hr as (_ & -> & ->). destruct Hend as [Hend|[_ Hend]]; [left|right];
        (eapply spend_then; [exact Hsp|exact Hend]). }
  unfold DEFAULT_MAX_CALLS in *.
  destruct Hfin as [Hfin|Hfin]; destruct (Hfin b Hb) as (b' & _ & _ & H1 & H2 & H3 & H4);
    rewrite Hc0, Hm in *; change (asked []) with 0%Z in *; change (answered []) with 0%Z in *; lia.
Qed.

Lemma fix_within_budget_witness :
  (answered (snd (snd (GraphSample.sample_fix_run false None))) ≤ 30 ∧
   asked (snd (snd (GraphSample.sample_fix_run false None))) ≤ 90)%Z.
Proof.
  assert (∀ A B C (x : A * (B * C)), x = (x.1, (x.2.1, x.2.2))) as Heta by by intros A B C [a [b c]].
  eapply (@fix_within_budget GraphSample.sample_repr GraphSample.sample_parse
    (GraphSample.sample_world false None) GraphSample.sample_config 0 "" ∅
    GraphSample.sample_input GraphSample.sample_rs).
  - apply no_hooks_courteous.
  - apply (Heta _ _ _ (GraphSample.sample_fix_run false None)).
Defined.

End AgentSpec.
