(* ===== verification/EnhancementSpec.v ===== *)
(** * What the enhancements may do to a run

    The callbacks that memory and reflection register are courteous in the
    sense of [GraphLaws], so the theorems about a run hold with them; the number
    of post-mortems is capped; and the memory store gives back what was put in,
    best matches first. *)

From S2P Require Import Prelude PyStr PyTime PyJson PyJsonLoads PyJsonIndent Effects World ReactLoop ApplyTest Graph.
From S2P Require Import Memory Reflection Enhancements Agent GraphLaws GraphFrames GraphFacts GraphSample GraphSpec MemorySpec.
Local Open Scope string_scope.
Local Open Scope list_scope.

Module EnhancementSpec.
Import World ReactLoop ApplyTest Graph Agent GraphLaws GraphFrames GraphFacts GraphSpec Memory Reflection Enhancements.

#[local] Arguments dict : simpl never.

(** The client reports token counts as numbers or not at all. *)
Class ReadableUsage (w : world) : Prop :=
  readable_usage : ∀ attempt msgs h msg, w_llm w attempt msgs h = inl msg →
    is_ok (extract_token_usage (r_usage msg)) = true ∧
    is_ok (extract_cached_input_tokens (r_usage msg)) = true.

Lemma asks_no_llm : no_llm neutral.
Proof. apply neutral_no_llm. Qed.

Lemma calm_neutral_asks s h s' h' : calm neutral s h s' h' → calm asks s h s' h'.
Proof. apply calm_weaken. intros c. unfold asks. by intros ->. Qed.

(** A dictionary without the keys that steer the graph. *)
Definition steers (l : obj) : bool := existsb (λ kv, mem kv.1 control_keys) l.

Lemma dict_no_control l k : steers l = false → k ∈ control_keys → dict l !! k = None.
Proof.
  intros Hl Hk. rewrite dict_lookup. induction l as [|[k' v] l IH]; [done|]. simpl in *.
  apply orb_false_iff in Hl as [Hk' Hl]. rewrite decide_False; [by apply IH|].
  intros ->. apply (proj2 (mem_spec k' control_keys)) in Hk. congruence.
Qed.

(** A callback is courteous when its calls are and its updates do not steer. *)
Lemma courteous_intro (fn : callback) :
  (∀ st, preserves (calm asks) (fn st)) →
  (∀ st s h u s' h', fn st s h = (Ok (Some u), (s', h')) → ∃ l, u = dict l ∧ steers l = false) →
  courteous fn.
Proof.
  intros Hc Hu st. split; [apply Hc|]. intros s h u s' h' k E Hk.
  destruct (Hu _ _ _ _ _ _ E) as (l & -> & Hl). by apply dict_no_control.
Qed.

Section memory.
Context `{FloatRepr, FloatParse} (w : world) (dk : disk) (path : string).

Lemma load_calm : preserves (calm neutral) (load dk path).
Proof.
  unfold load. repeat walk. 
Qed.

Lemma append_calm e : preserves (calm neutral) (append dk path e).
Proof.
  unfold append, write_text. repeat walk; try apply load_calm.
  - intros s h. unfold modify, end_state, end_trace. simpl.
    match goal with |- context [match ?o with Some _ => _ | None => _ end] => destruct o as [t|] end;
      [|apply chain_refl].
    apply (modify_files_calm neutral neutral_no_llm (λ f, <[path := t]> f) s h).
  - apply (modify_files_calm neutral neutral_no_llm (λ f, <[path := store_text (a ++ [e])]> f)).
Qed.

Lemma memory_lookup_courteous top_k : courteous (memory_lookup dk path top_k).
Proof.
  apply courteous_intro.
  - intros st. eapply preserves_weaken; [apply calm_neutral_asks|].
    unfold memory_lookup, query. repeat walk. apply load_calm.
  - intros st s h u s' h'. unfold memory_lookup. intros (l & s1 & h1 & _ & E)%bind_ok.
    destruct l as [|m l]; [done|]. apply bind_ok in E as (hint & s2 & h2 & _ & [= <- <- <-]).
    eexists. split; reflexivity.
Qed.

Lemma memory_writer_courteous : courteous (memory_writer w dk path).
Proof.
  apply courteous_intro.
  - intros st. eapply preserves_weaken; [apply calm_neutral_asks|].
    unfold memory_writer, ignore. repeat walk. apply append_calm.
  - intros st s h u s' h'. unfold memory_writer.
    by intros (t & s1 & h1 & _ & (e & s2 & h2 & _ & (x & s3 & h3 & _ & E)%bind_ok)%bind_ok)%bind_ok.
Qed.

End memory.

(** ** Reflection *)

Section reflection.
Context `{FloatRepr, FloatParse} (w : world) `{!ReadableUsage w}.

Lemma budget_check_asks : preserves (calm asks) (budget_check w).
Proof.
  eapply preserves_weaken; [apply calm_neutral_asks|]. apply budget_check_calm, neutral_no_llm.
Qed.

(** One request at most, and an answer that can be accounted for. *)
Lemma ask_run prompt st s h r s' h' :
  ask w prompt st s h = (r, (s', h')) → s' = s ∧
  ∃ new, h' = h ++ new ∧
    match r with
    | Ok (Some (msg, secs)) => ∃ n, new = [(PostMortem n, true)] ∧
        is_ok (extract_token_usage (r_usage msg)) = true ∧
        is_ok (extract_cached_input_tokens (r_usage msg)) = true
    | Ok None => new = [] ∨ ∃ n, new = [(PostMortem n, false)]
    | Raise _ => False
    end.
Proof.
  unfold ask, try_, now. rewrite bind_observe, bind_run. unfold lift at 1.
  destruct (int_field "fix_retry_count" st) as [attempt|e].
  2: { intros [= <- <- <-]. split; [done|]. exists []. rewrite app_nil_r. auto. }
  rewrite bind_observe, bind_run. unfold lift at 1. destruct (w_llm_ready w h) as [[]|e].
  2: { intros [= <- <- <-]. split; [done|]. exists []. rewrite app_nil_r. auto. }
  rewrite bind_run. unfold post_mortem at 1.
  destruct (w_llm w attempt _ h) as [msg|e] eqn:El; rewrite bind_observe.
  - intros [= <- <- <-]. split; [done|]. eexists. split; [done|]. eexists. split; [done|].
    eapply readable_usage, El.
  - intros [= <- <- <-]. split; [done|]. eexists. split; [done|]. eauto.
Qed.

Lemma post_mortem_calm s h s' n :
  room s → (∀ b, budget_of s = Some b → ∃ b', budget_of s' = Some b' ∧ max_calls b' = max_calls b ∧
                                              calls b' = (calls b + 1)%Z) →
  calm asks s h s' (h ++ [(PostMortem n, true)]).
Proof.
  intros Hroom Hs. split; [eexists; split; [done|by constructor]|]. intros b Hb.
  destruct (Hs b Hb) as (b' & Hb' & Hm & Hc). exists b'. specialize (Hroom b Hb).
  rewrite asked_app, answered_app. split; [done|]. split; [done|].
  change (asked [(PostMortem n, true)]) with 0%Z. change (answered [(PostMortem n, true)]) with 1%Z. lia.
Qed.

Lemma unanswered_calm s h n : calm asks s h s (h ++ [(PostMortem n, false)]).
Proof.
  split; [eexists; split; [done|by constructor]|]. intros b Hb. exists b.
  rewrite asked_app, answered_app. split; [done|]. split; [done|].
  change (asked [(PostMortem n, false)]) with 0%Z. change (answered [(PostMortem n, false)]) with 0%Z. lia.
Qed.

(** The debit is made whatever the answer says. *)
Lemma learn_run st msg secs s h r s' h' :
  is_ok (extract_token_usage (r_usage msg)) = true →
  is_ok (extract_cached_input_tokens (r_usage msg)) = true →
  learn w st msg secs s h = (r, (s', h')) → h' = h ∧
  (∀ b, budget_of s = Some b → ∃ b', budget_of s' = Some b' ∧ max_calls b' = max_calls b ∧
                                     calls b' = (calls b + 1)%Z).
Proof.
  intros Ht Hc. unfold learn. rewrite bind_run. unfold lift at 1.
  destruct (extract_token_usage _) as [toks|]; [|done]. rewrite bind_run. unfold lift at 1.
  destruct (extract_cached_input_tokens _) as [cached|]; [|done]. rewrite bind_run.
  destruct (budget_record_run toks.1 toks.2 None s h) as (s1 & -> & _ & Hs).
  rewrite bind_run. unfold lift at 1. destruct (strip_of _) as [text|e]; [|by intros [= <- <- <-]].
  destruct (str_nonempty text); [|by intros [= <- <- <-]].
  rewrite bind_observe, bind_run. unfold lift at 1.
  by destruct (note_update _ _ _ _ _ _ _); intros [= <- <- <-].
Qed.

Lemma reflect_on_tests_calm st : preserves (calm asks) (reflect_on_tests w st).
Proof.
  intros s h. unfold reflect_on_tests. rewrite bind_run.
  pose proof (budget_check_asks s h) as Hc. pose proof (budget_check_room w s h) as Hroom.
  destruct (budget_check w s h) as [[[x|]|e] [s1 h1]]; [exact Hc| |exact Hc].
  specialize (Hroom _ _ eq_refl). eapply chain_trans; [exact Hc|]. unfold end_state, end_trace. simpl.
  rewrite bind_run. unfold lift at 1 2. destruct (build_prompt st) as [prompt|e]; [|apply chain_refl].
  destruct (str_nonempty _); [|apply chain_refl]. rewrite bind_run.
  destruct (ask w prompt st s1 h1) as [r [s2 h2]] eqn:Ea.
  apply ask_run in Ea as (-> & new & -> & Hr).
  destruct r as [[[msg secs]|]|e]; [| |done].
  - destruct Hr as (n & -> & Ht & Hu).
    destruct (learn w st msg secs s1 _) as [r [s3 h3]] eqn:El.
    apply learn_run in El as [-> Hs]; [|done..]. by apply post_mortem_calm.
  - simpl. destruct Hr as [->|[n ->]]; [rewrite app_nil_r; apply chain_refl|apply unanswered_calm].
Qed.

(** What reflection may write. *)
Lemma reflect_writes cap st s h u s' h' :
  reflect w cap st s h = (Ok (Some u), (s', h')) →
  ∃ l already, u = dict l ∧ steers l = false ∧ int_field "reflection_count" st = Ok already ∧
    (already < cap)%Z ∧ dict_get "reflection_count" l = Some (PInt (already + 1)) ∧
    truthy (sget "test_passed" st) = false.
Proof.
  unfold reflect. destruct (truthy (sget "test_passed" st)); [done|].
  intros (already & s1 & h1 & Ei & E)%bind_ok. injection Ei as Ei <- <-.
  destruct (Z.leb_spec cap already) as [|Hcap]; [done|]. destruct (truthy _).
  - injection E as <- <- <-. eexists _, already. by split_and!.
  - unfold reflect_on_tests in E. apply bind_ok in E as ([x|] & s2 & h2 & _ & E); [done|].
    apply bind_ok in E as (prompt & s3 & h3 & _ & E). destruct (str_nonempty _); [|done].
    apply bind_ok in E as ([[msg secs]|] & s4 & h4 & _ & E); [|done].
    unfold learn in E. apply bind_ok in E as (toks & s5 & h5 & _ & E).
    apply bind_ok in E as (cached & s6 & h6 & _ & E). apply bind_ok in E as ([] & s7 & h7 & _ & E).
    apply bind_ok in E as (text & s8 & h8 & _ & E). destruct (str_nonempty _); [|done].
    apply bind_ok in E as (backend & s9 & h9 & _ & E). apply bind_ok in E as (u' & s10 & h10 & Eu & [= <- <- <-]).
    injection Eu as Eu _ _. unfold note_update in Eu. rewrite Ei in Eu.
    repeat (apply res_bind_ok in Eu as (? & ? & Eu)). injection Eu as <-. simplify_eq.
    eexists _, _. by split_and!.
Qed.

Lemma reflect_courteous cap : courteous (reflect w cap).
Proof.
  apply courteous_intro.
  - intros st. unfold reflect. repeat walk; apply reflect_on_tests_calm.
  - intros st s h u s' h' E. apply reflect_writes in E as (l & _ & -> & Hl & _). eauto.
Qed.

End reflection.

(** ** The registry *)

Lemma elem_of_register name name' fn fn' r :
  fn ∈ callbacks name (register name' fn' r) → fn ∈ callbacks name r ∨ (name = name' ∧ fn = fn').
Proof.
  unfold register. unfold callbacks at 1. rewrite dict_get_set. destruct (decide _) as [->|].
  - simpl. rewrite elem_of_app, list_elem_of_singleton. intros [Hf|Hf]; [by left|by right].
  - by left.
Qed.

Lemma elem_of_build_hooks l name fn : fn ∈ callbacks name (build_hooks l) → (name, fn) ∈ l.
Proof.
  unfold build_hooks.
  enough (∀ r, fn ∈ callbacks name (fold_left (λ r '(hook_name, fn), register hook_name fn r) l r) →
               fn ∈ callbacks name r ∨ (name, fn) ∈ l) as Hg.
  { intros [Hf|Hf]%Hg; [|done]. unfold callbacks in Hf. simpl in Hf. by apply elem_of_nil in Hf. }
  induction l as [|[name' fn'] l IH]; intros r; simpl; [by left|]. intros [Hf|Hf]%IH.
  - apply elem_of_register in Hf as [Hf|[-> ->]]; [by left|]. right. by left.
  - right. by right.
Qed.

Section registry.
Context `{FloatRepr, FloatParse} (w : world) (dk : disk).

(** What holds of each callback the three builders make holds of the registry. *)
Lemma build_enhancements_all (P : callback → Prop) specs l :
  (∀ path top_k, P (memory_lookup dk path top_k)) → (∀ path, P (memory_writer w dk path)) →
  P (reflect w default_cap) → build_enhancements w dk specs = Ok l →
  ∀ name fn, fn ∈ callbacks name (build_hooks l) → P fn.
Proof.
  intros Hl Hw Hr Hb name fn Hf. apply elem_of_build_hooks in Hf.
  revert l Hb Hf. induction specs as [|spec specs IH]; intros l; simpl.
  { intros [= <-] Hf. by apply elem_of_nil in Hf. }
  intros (a & Ha & (b & Hb & [= <-])%res_bind_ok)%res_bind_ok [Hf|Hf]%elem_of_app; [|by eapply IH].
  unfold build_one in Ha. apply res_bind_ok in Ha as (kind & _ & Ha). case_bool_decide.
  - repeat (apply res_bind_ok in Ha as (? & _ & Ha)). injection Ha as <-. unfold build_memory_callbacks in Hf.
    apply elem_of_cons in Hf as [[= -> ->]|Hf]; [apply Hl|].
    destruct (truthy _); [|by apply elem_of_nil in Hf].
    apply list_elem_of_singleton in Hf as [= -> ->]. apply Hw.
  - case_bool_decide; [|done]. injection Ha as <-. apply list_elem_of_singleton in Hf as [= -> ->]. apply Hr.
Qed.

End registry.

(** C11: where the model's client reports the tokens of an answer as numbers or not
    at all, the registry made of whatever enhancements a run is configured with
    behaves: their callbacks neither test, nor ship, nor write a key that steers
    the graph, and they ask the model within the budget.  So the theorems on
    [fix], which ask this of the hooks, hold of every configured run whose client
    does.  A count of another shape raises in the callback that reads it, past the
    budget it has not counted yet. *)
Theorem enhancements_courteous `{FloatRepr, FloatParse} (w : world) (dk : disk) (specs : list pyval)
    (l : list (string * callback)) :
  ReadableUsage w → build_enhancements w dk specs = Ok l → Courteous (build_hooks l).
Proof.
  intros Hw Hb name fn. apply (build_enhancements_all w dk courteous specs l); [..|exact Hb].
  - intros path top_k. apply memory_lookup_courteous.
  - intros path. apply memory_writer_courteous.
  - exact (reflect_courteous w default_cap).
Qed.

Definition sample_specs : list pyval :=
  [PDict [("kind", PStr "memory"); ("store_path", PStr "m.json"); ("top_k", PStr "3")];
   PDict [("kind", PStr "reflection")]].
Definition red_world : world := GraphSample.sample_world false None.

Lemma red_world_readable : ReadableUsage red_world.
Proof. intros attempt msgs h msg [= <-]. by split. Qed.

Lemma enhancements_courteous_witness :
  Courteous (build_hooks
    (@build_memory_callbacks GraphSample.sample_repr GraphSample.sample_parse red_world
       (MemorySpec.sample_disk false) "m.json" 3 true
     ++ @build_reflection_callbacks GraphSample.sample_repr GraphSample.sample_parse red_world)).
Proof.
  apply (@enhancements_courteous GraphSample.sample_repr GraphSample.sample_parse red_world
           (MemorySpec.sample_disk false) sample_specs).
  - apply red_world_readable.
  - reflexivity.
Defined.

(** ** The cap on post-mortems *)

Definition COUNT : string := "reflection_count".

(** No count, or one within the cap. *)
Definition capped (st : state) : Prop :=
  st !! COUNT = None ∨ ∃ n, st !! COUNT = Some (PInt n) ∧ (n ≤ MAX_FIX_RETRIES)%Z.

(** A callback that writes no other count. *)
Definition moderate (fn : callback) : Prop :=
  ∀ st s h u s' h', fn st s h = (Ok (Some u), (s', h')) → capped u.

Lemma capped_merge u st : capped u → capped st → capped (u ∪ st).
Proof.
  unfold capped. rewrite lookup_union. intros [Hu|(n & Hu & Hn)] Hst; rewrite Hu.
  - by destruct Hst as [-> | (m & -> & Hm)]; [left|right; eexists].
  - right. exists n. split; [|done]. by destruct (st !! COUNT).
Qed.

Lemma capped_silent u : silent u → capped u.
Proof. intros Hu. left. apply Hu. by right. Qed.

Section capped.
Context `{FloatRepr, FloatParse} (w : world) (dk : disk) (cfg : config).

Lemma memory_lookup_moderate path top_k : moderate (memory_lookup dk path top_k).
Proof.
  intros st s h u s' h'. unfold memory_lookup. intros (l & s1 & h1 & _ & E)%bind_ok.
  destruct l as [|m l]; [done|]. apply bind_ok in E as (hint & s2 & h2 & _ & [= <- <- <-]).
  left. by rewrite dict_lookup.
Qed.

Lemma memory_writer_moderate path : moderate (memory_writer w dk path).
Proof.
  intros st s h u s' h'. unfold memory_writer.
  by intros (t & s1 & h1 & _ & (e & s2 & h2 & _ & (x & s3 & h3 & _ & E)%bind_ok)%bind_ok)%bind_ok.
Qed.

Lemma reflect_moderate : moderate (reflect w default_cap).
Proof.
  intros st s h u s' h' (l & already & -> & _ & _ & Hc & Hl & _)%reflect_writes.
  right. exists (already + 1)%Z. rewrite dict_lookup. split; [done|]. unfold default_cap in Hc. lia.
Qed.

Lemma run_callbacks_capped l st s h st' s' h' :
  Forall moderate l → capped st → run_callbacks l st s h = (Ok st', (s', h')) → capped st'.
Proof.
  intros Hl. revert st s h. induction Hl as [|fn l Hfn Hl IH]; intros st s h Hst; simpl.
  - by intros [= <- <- <-].
  - intros (u & s1 & h1 & Hu & Hr)%bind_ok. eapply IH; [|exact Hr].
    unfold try_ in Hu. destruct (fn st s h) as [[o|e] [s2 h2]] eqn:E; [|by injection Hu as <-].
    simplify_eq. destruct u as [u|]; [|done]. apply capped_merge; [|done]. by eapply Hfn.
Qed.

Context (Hmod : ∀ name fn, fn ∈ callbacks name (default [] (hooks cfg)) → moderate fn).

Lemma run_hooks_capped name st s h st' s' h' :
  capped st → run_hooks name (default [] (hooks cfg)) st s h = (Ok st', (s', h')) → capped st'.
Proof. apply run_callbacks_capped, Forall_forall, Hmod. Qed.

Lemma finalize_capped st r s h u s' h' :
  silent r → capped st → finalize cfg st r s h = (Ok u, (s', h')) → capped u.
Proof.
  intros Hr Hst. pose proof run_hooks_capped as Hrun. unfold finalize.
  destruct (truthy _); [intros [= <- <- <-]; by apply capped_silent|].
  destruct (hooks cfg) as [reg|]; [|intros [= <- <- <-]; by apply capped_silent].
  destruct (has _ _); [|intros [= <- <- <-]; by apply capped_silent].
  intros (after & s1 & h1 & E & [= <- <- <-])%bind_ok.
  apply Hrun in E; [|by unfold capped; rewrite lookup_insert_ne; [apply capped_merge; [apply capped_silent|]|]].
  apply capped_merge; [|by apply capped_silent]. unfold capped, changed. rewrite map_lookup_filter.
  destruct E as [-> | (n & -> & Hn)]; [by left|]. simpl. destruct (guard _); simpl; [|by left].
  right. by exists n.
Qed.

Lemma react_silent st : returns (λ u, u !! COUNT = None) (react_loop w cfg st).
Proof.
  unfold react_loop, react_on. repeat walk_returns; intros; unfold loop_update; by rewrite dict_lookup.
Qed.

Lemma action_capped n st s h u s' h' :
  capped st → action w cfg n st s h = (Ok u, (s', h')) → capped u.
Proof.
  intros Hst E. destruct (decide (n = ApplyChangeAndTest)) as [->|Hn].
  - apply apply_step_run in E as (r & s1 & h1 & (p & [_ Hr] & _) & E).
    eapply finalize_capped; [|exact Hst|exact E]. by apply dict_silent.
  - destruct (decide (n = ReactLoop)) as [->|Hn']; [left; by eapply react_silent|].
    apply capped_silent. by eapply action_returns_silent.
Qed.

Lemma visit_capped n st s h st' t s' h' :
  capped st → visit w cfg n st s h = (Ok (st', t), (s', h')) → capped st'.
Proof.
  intros Hst (u & E & -> & _)%visit_ok. unfold capped.
  rewrite merge_lookup by done. apply capped_merge; [|done]. by eapply action_capped.
Qed.

Lemma reach_capped n0 st0 s0 h0 n st s h :
  capped st0 → reach w cfg n0 st0 s0 h0 n st s h → capped st.
Proof. intros Hst Hr. induction Hr; [done|]. by eapply visit_capped. Qed.

Lemma invoke_capped saved st s h st' s' h' :
  capped saved → capped st → invoke w cfg saved st s h = (Ok st', (s', h')) → capped st'.
Proof.
  intros Hsaved Hst E. unfold invoke in E.
  destruct (run_from_ends w cfg _ _ _ _ _ _ _ _ E) as (n1 & st1 & s1 & h1 & Hreach & Hend).
  apply reach_capped in Hreach; [|unfold capped; rewrite merge_lookup by done; by apply capped_merge].
  destruct Hend as [(? & _)|[(e & ? & _)|(st2 & [= <-] & Hv)]]; [done..|]. by eapply visit_capped.
Qed.

Lemma fix_bug_capped ver max_cost saved i s out s' h' st :
  capped saved → fix_bug w cfg ver max_cost saved i s [] = (Ok out, (s', h')) →
  out_state out = Some st → capped st.
Proof.
  intros Hsaved. unfold fix_bug. unfold now at 1. rewrite bind_observe. cbv zeta. rewrite bind_modify.
  intros (st0 & s1 & h1 & E0 & E)%bind_ok Hout.
  apply run_hooks_capped in E0; [|left; unfold initial_state; by rewrite dict_lookup].
  apply bind_ok in E as (r & s2 & h2 & Er & E). destruct r as [st1|e]; [|by injection E as <- <- <-].
  unfold try_ in Er. rewrite bind_run in Er.
  destruct (invoke w cfg saved st0 s1 h1) as [[st1'|e] [s3 h3]] eqn:Ei; [|done]. injection Er as -> <- <-.
  apply (invoke_capped _ _ _ _ _ _ _ Hsaved E0) in Ei.
  apply bind_ok in E as (st2 & s4 & h4 & Es & E). apply bind_ok in E as (st3 & s5 & h5 & Ep & E).
  unfold output in E. apply bind_ok in E as (n & s6 & h6 & _ & [= <- <- <-]). injection Hout as <-.
  eapply run_hooks_capped; [|exact Ep]. unfold snapshot in Es. rewrite bind_get in Es.
  unfold now in Es. rewrite bind_observe in Es. injection Es as <- _ _.
  destruct (budget_of s3); [|done]. unfold capped. by rewrite lookup_insert_ne.
Qed.

End capped.

(** No run counts more than [MAX_FIX_RETRIES] post-mortems, though the apply
    step's crash path, which fires the hook, does not count as a retry. *)
Theorem post_mortems_capped `{FloatRepr, FloatParse} (w : world) (dk : disk) (cfg : config)
    (specs : list pyval) (l : list (string * callback)) (ver : Z) (max_cost : string) (saved : state)
    (i : BugInput) (s s' : rs) (out : FixOutput) (h : trace) (st : state) (n : Z) :
  build_enhancements w dk specs = Ok l → hooks cfg = Some (build_hooks l) → capped saved →
  fix_bug w cfg ver max_cost saved i s [] = (Ok out, (s', h)) →
  out_state out = Some st → sget COUNT st = PInt n → (n ≤ MAX_FIX_RETRIES)%Z.
Proof.
  intros Hb Hh Hsaved Hrun Hout Hn. eapply fix_bug_capped in Hrun; [|..|exact Hsaved|exact Hout].
  - unfold sget in Hn. destruct Hrun as [Hst|(m & Hst & Hm)]; rewrite Hst in Hn; [done|]. by injection Hn as <-.
  - intros name fn Hf. rewrite Hh in Hf. simpl in Hf. revert Hf.
    apply (build_enhancements_all w dk moderate specs l); [..|exact Hb].
    + intros path top_k. apply memory_lookup_moderate.
    + intros path. apply memory_writer_moderate.
    + apply reflect_moderate.
Qed.

(** A run whose tests stay red, with reflection. *)
Definition reflecting : list (string * callback) :=
  @build_reflection_callbacks GraphSample.sample_repr GraphSample.sample_parse red_world.
Definition reflecting_config : config :=
  mkConfig true "m" [] "" 137 None (Some (build_hooks reflecting)).
Definition reflecting_run : res FixOutput * (rs * trace) :=
  @fix_bug GraphSample.sample_repr GraphSample.sample_parse red_world reflecting_config 0 "" ∅
    GraphSample.sample_input GraphSample.sample_rs [].
Definition final_state_of (r : res FixOutput) : option state :=
  match r with Ok out => out_state out | Raise _ => None end.

Lemma post_mortems_capped_witness : (1 ≤ MAX_FIX_RETRIES)%Z.
Proof.
  destruct reflecting_run as [[out|e] [s' h']] eqn:E;
    [|exfalso; apply (f_equal (λ r, is_ok r.1)) in E; vm_compute in E; discriminate].
  assert (option_map (sget COUNT) (final_state_of reflecting_run.1) = Some (PInt 1)) as Hn
    by (vm_compute; reflexivity).
  rewrite E in Hn. simpl in Hn. destruct (out_state out) as [st|] eqn:Eo; [|discriminate].
  apply (@post_mortems_capped GraphSample.sample_repr GraphSample.sample_parse red_world
           (MemorySpec.sample_disk false) reflecting_config [PDict [("kind", PStr "reflection")]]
           reflecting 0 "" ∅ GraphSample.sample_input GraphSample.sample_rs s' out h' st 1).
  - reflexivity.
  - reflexivity.
  - left. reflexivity.
  - exact E.
  - exact Eo.
  - simpl in Hn. congruence.
Defined.

End EnhancementSpec.
