(* ===== verification/ApplySpec.v ===== *)
(** * Edits stay within the guard

    What the apply step writes, whatever the model proposed and however the step
    ends. *)

From S2P Require Import Prelude PyStr Effects Guards World ReactLoop Nodes ApplyTest Graph GraphLaws GraphSample.
Local Open Scope string_scope.
Local Open Scope list_scope.

Module ApplySpec.
Import World ApplyTest PatchGuard GraphLaws.

Section spec.
Context `{FloatRepr, FloatParse} (w : world).

(** What may have been written of the groups. *)
Definition written (repo : list string) (groups : list (pyval * list pyval)) (path : string) : Prop :=
  ∃ rel fixes, (rel, fixes) ∈ groups ∧ path = under repo (py_str rel).

Definition writes_only (P : string → Prop) (s : rs) (h : trace) (s' : rs) (h' : trace) : Prop :=
  h' = h ∧ ∀ path, files_of s' !! path ≠ files_of s !! path → P path.

#[export] Instance writes_chain P : Chain (writes_only P).
Proof.
  split; [by intros s h; split|]. intros s h s1 h1 s2 h2 [-> H1] [-> H2]. split; [done|].
  intros path Hne. destruct (decide (files_of s1 !! path = files_of s !! path)) as [E|]; [|by apply H1].
  apply H2. congruence.
Qed.

Lemma apply_change_infos_writes f path fixes f' :
  apply_change_infos f path fixes = Ok f' → ∀ p, p ≠ path → f' !! p = f !! p.
Proof.
  unfold apply_change_infos. intros (t & _ & (l & _ & [= <-])%res_bind_ok)%res_bind_ok p Hp.
  by apply lookup_insert_ne.
Qed.

Lemma apply_file_writes P path fixes : P path → preserves (writes_only P) (apply_file path fixes).
Proof.
  intros HP s h. unfold apply_file. rewrite bind_get, bind_run. unfold lift.
  destruct (apply_change_infos (files_of s) path fixes) as [f|e] eqn:E; [|apply chain_refl].
  split; [done|]. simpl. intros p Hp. destruct (decide (p = path)) as [->|Hne]; [done|].
  by rewrite (apply_change_infos_writes _ _ _ _ E p Hne) in Hp.
Qed.

Lemma apply_files_writes repo groups : preserves (writes_only (written repo groups)) (apply_files repo groups).
Proof.
  unfold apply_files. apply preserves_for_in; [apply chain_refl|apply chain_trans|].
  intros [rel fixes] Hin. apply apply_file_writes. by exists rel, fixes.
Qed.

(** C29: an edit never leaves the repository.  However [edit] ends, every file
    whose content it changed is the target of one of the fixes, that target is
    a relative path, and with every other target of the patch it resolves below
    the repository root to a path no deny glob matches; one target out of scope
    and nothing is written.  No call is made. *)
Theorem edit_stays_in_scope (repo : list string) (groups : list (pyval * list pyval))
    (s : rs) (h : trace) (r : res unit) (s' : rs) (h' : trace) (path : string) :
  edit w repo groups s h = (r, (s', h')) →
  h' = h ∧
  (files_of s' !! path ≠ files_of s !! path →
   written repo groups path ∧
   Forall (λ f, file_in_scope (w_resolve w) (w_resolve w repo) f.1) groups).
Proof.
  unfold edit. rewrite bind_run. unfold lift at 1.
  destruct (validate_patch_scope _ _ _ _ _) as [[]|e] eqn:E; [|by intros [= <- <- <-]].
  intros Hrun. pose proof (preserves_run _ _ _ _ _ _ _ (apply_files_writes repo groups) Hrun) as [-> Hw].
  split; [done|]. intros Hne. split; [by apply Hw|]. by eapply validated_files.
Qed.

End spec.

(** A patch of two files of which the second does not apply: the first stays
    written. *)
Lemma edit_stays_in_scope_witness :
  written (H := GraphSample.sample_repr) ["repo"]
    [(PStr "a.py", [PDict GraphSample.sample_fix]); (PStr "b.py", [PDict GraphSample.sample_fix])] "/repo/a.py" ∧
  Forall (λ f, file_in_scope (λ p, p) ["repo"] f.1)
    [(PStr "a.py", [PDict GraphSample.sample_fix]); (PStr "b.py", [PDict GraphSample.sample_fix])].
Proof.
  assert (∀ A B C (x : A * (B * C)), x = (x.1, (x.2.1, x.2.2))) as Heta by by intros A B C [a [b c]].
  eapply (@edit_stays_in_scope GraphSample.sample_repr (GraphSample.sample_world true None) ["repo"] _
    GraphSample.sample_rs []); [apply Heta|].
  vm_compute. discriminate.
Defined.

End ApplySpec.
